(* ===== verification/_CoqProject ===== *)
-Q . S2P
Prelude.v
Fcntl.v
Memory.v
KPrintf.v
State.v
Monad.v
Spinlock.v
SleepSpec.v
Demo.v
Kalloc.v
ProcBase.v
Vm.v
Frame.v
VmSpec.v
PtSpec.v
UvmSpec.v
Sleeplock.v
Bio.v
BioSpec.v
CacheSpec.v
Virtio.v
VirtioSpec.v
Log.v
LogSpec.v
CrashSpec.v
Fs.v
Mkfs.v
FsSpec.v
ReadSpec.v
WriteSpec.v
MkfsSpec.v
MkfsImage.v
MkfsRead.v
Pipe.v
PipeSpec.v
File.v
Proc.v
ProcVmSpec.v
Uart.v
Console.v
ConsoleSpec.v
Exec.v
SysFile.v
SysProc.v
Trap.v
Plic.v
Start.v
ProcSpec.v
IpcSpec.v
LifeSpec.v
ForkSpec.v
ReapSpec.v
TrapSpec.v
User.v
Ulib.v
UPrintf.v
Grep.v
Umalloc.v
MallocSpec.v
UProgs.v
UDemos.v
UGrind.v
UThreads.v
UTestLib.v
UTestsMem.v
UTestsFs.v
UTestsProc.v
UTests.v
UlibSpec.v
GrepSpec.v
UProgsSpec.v
UTestsSpec.v
Sh.v
ShSpec.v
Posix.v
LinuxCmds.v
LinuxGrep.v
LinuxSpec.v
LinuxGrepSpec.v
