(* ===== verification/Prelude.v ===== *)
(** * A verification of xv6-riscv with custom system calls, its user programs, and a set of Linux commands

    The repository has two programs.  The first, under
    src/G14_Project1_xv6CustomizeSystemCalls/xv6-riscv, is a small Unix for
    RISC-V: the kernel (kernel/), to which its authors added process inspection
    (getproccount, getprocinfo, getppid, getchildren), waitpid, a limit on
    forks, threads made of processes, signals, and messages between processes;
    the builder of its disk image (mkfs/mkfs.c); a library and programs for user
    processes (user/).  The second, under src/G14_Project2_1_Linux_Commands, is
    a shell and clones of cat, cp, mv, rm, ls, echo, wc and grep for Linux.

    In the kernel a hart starts in start.c and main.c.  A trap enters it
    (trap.c); a system call is dispatched (syscall.c) to a handler (sysproc.c,
    sysfile.c), which works on processes (proc.c), address spaces (vm.c over
    kalloc.c), and files (file.c over console.c, pipe.c and fs.c; fs.c over
    log.c, over bio.c, over virtio_disk.c).  Spinlocks protect the shared data;
    sleep and wakeup let a process wait.  A user program is a process between
    its system calls; mkfs writes the disk that fs.c reads.

    ** How the code is modelled

    The global variables of the kernel are one record, [kstate] (State.v), with
    a record per struct and the C names of the fields.  Code is a function in
    the monad [K] of Monad.v, from a state and an oracle to an [outcome]:
    [Ok] with a result, [Panic] with the message of panic(), [Fault] for an
    access outside of an array or through a null pointer, [Blocked] with the
    state in which the process was switched out and not scheduled again yet,
    [NoFuel].  The oracle is the list of what the rest of the machine does to
    the state each time the process is switched out in sched(): theorems with an
    arbitrary oracle hold whatever the others do, theorems with the empty one
    describe the state in which a process goes to sleep.  Between two such
    points the code runs with the locks it took, and the locks held by the CPU
    are the list [k_locks]: acquire of a lock that is held and release of one
    that is not panic.  Spinlock.v models spinlock.c itself, at the level of
    single accesses of any number of CPUs, and proves that it implements that
    abstraction.  SleepSpec.v takes sleep(), wakeup(), sched(), yield(), kkill(),
    scheduler() and the sleep locks apart in the same way, over the abstract
    locks, for what happens between the accesses of several CPUs.

    Integers have their C width: [u32], [i32], [u64] and so on (below) wrap.
    Physical memory is a finite map of bytes (Memory.v); page tables, the free
    list of the allocator, and user pages live in it.  A pointer into a static
    array is an index, [None] for NULL.  Structures the C code keeps in an
    allocated page, trapframes and pipes, are kept in maps by the address of
    that page.  Disk blocks are lists of bytes, decoded and encoded at the
    offsets of the C structs.  printf() appends the characters that
    kernel/printf.c sends to [k_cons]; the registers of devices are read and
    written through the class [Mmio].

    A user program is a tree of system calls, [U] of User.v: each call has the
    type of its reply, and [run] runs the tree with a handler that answers the
    calls and has a state of its own.  A Linux command is such a tree of calls of the
    C library, [P] of Posix.v.  A theorem about a program names what it needs
    of the handler.  mkfs runs in the monad [MK] of Mkfs.v: a state with the
    image, a list of the host's calls that fail, and the host's byte order as
    a parameter.  start.c runs on the control registers of one hart (Start.v).

    Loops over an array are [kfor] over its indices.  Other loops of the kernel
    are [kloop] with a binary fuel that the model computes from the loop's
    arguments and that is enough: copyin, copyout and copyinstr take a page per
    iteration ([copy_bound], the number of pages plus three); mappages the number
    of pages; readi and writei a block per iteration; directory scans the number
    of entries; a loop that sleeps ([ksleeploop]) takes an oracle entry per
    iteration.  freewalk has the depth of a page table, three.  In a user
    program or a Linux command [fuel] bounds the loops whose number of turns the
    input decides; the theorems state how much is enough, and the shell's parser
    computes it from the line ([parsecmd_ends]).  The theorems that give
    a result show that the fuel is never what ends the loop.

    ** Files

    - Prelude.v (this file): integers, record update, list updates, tactics.
      Fcntl.v: constants of fcntl.h, stat.h, vm.h.
    - Memory.v: bytes and words in memory; string.c.  KPrintf.v: kernel/printf.c.
    - State.v: the data of proc.h, file.h, buf.h, fs.h, log.c, pipe.c; param.h.
    - Monad.v: the monad, loops, abstract locks, rules to step through code.
    - Spinlock.v: spinlock.c as an interleaving machine, and the refinement.
      SleepSpec.v: sleep and wakeup as an interleaving machine.
    - Demo.v: a small concrete machine for examples.
    - Kalloc.v: kalloc.c; the free list as a list of pages.
    - ProcBase.v: sched, sleep, wakeup, yield, kill, one round of scheduler.
    - Vm.v: vm.c and the Sv39 macros.  Frame.v: what its operations leave
      unchanged.  VmSpec.v: walk, copyin, copyout.  PtSpec.v: page tables as
      trees; walk and mappages as lookup and insertion.  UvmSpec.v: uvmunmap,
      uvmalloc, uvmdealloc, uvmcopy, freewalk and uvmfree on these trees.
    - Sleeplock.v, Bio.v, Virtio.v, Log.v, Fs.v: sleeplock.c, bio.c,
      virtio_disk.c, log.c, fs.c.  BioSpec.v: the LRU list.  CacheSpec.v: the
      cache as a map.  VirtioSpec.v: the driver as a block device.  LogSpec.v: log space and absorption.  CrashSpec.v: commit
      and recovery with the power lost at any write.  FsSpec.v: bitmap, on-disk
      inodes, path elements, inode table.  ReadSpec.v, WriteSpec.v: the contents
      of files.
    - Mkfs.v: mkfs.c.  MkfsSpec.v, MkfsImage.v, MkfsRead.v: one inode, the
      whole image, and the image as the kernel decodes it.
    - Pipe.v, File.v: pipe.c, file.c.  PipeSpec.v: a pipe is a queue.
    - Proc.v: the rest of proc.c.  ProcSpec.v: inspection and signals.
      IpcSpec.v: messages.  LifeSpec.v: exit, waitpid, which child wait takes.
      ProcVmSpec.v: the address space of a process.  ForkSpec.v: fork and
      thread_fork.  ReapSpec.v: what wait gives back; fork, exit and wait together.
    - Uart.v, Console.v: uart.c, console.c.  ConsoleSpec.v: line editing.
    - Exec.v, SysFile.v, SysProc.v: exec.c, sysfile.c, sysproc.c, syscall.c.
    - Trap.v: trap.c.  TrapSpec.v: signal delivery and return, unknown calls.
      Plic.v: plic.c and the initialisation sequence of main.c.  Start.v: start.c.
    - User.v, Ulib.v, UPrintf.v, Umalloc.v: the system calls a program makes;
      user/ulib.c, printf.c, umalloc.c.  UlibSpec.v, MallocSpec.v.
    - Grep.v, Sh.v, UProgs.v, UDemos.v, UGrind.v: user/grep.c, sh.c, the
      ordinary programs, the demonstration programs of the added calls, grind.c.
      GrepSpec.v, ShSpec.v, UProgsSpec.v.
    - UThreads.v: testsignals.c, threadtest.c, thread_demo.c.  UTestLib.v,
      UTestsMem.v, UTestsFs.v, UTestsProc.v, UTests.v: user/usertests.c, its tests
      by what they test, and its driver.  UTestsSpec.v: the driver's verdict.
    - Posix.v: the host of the Linux commands.  LinuxCmds.v: custom_cat, cp, mv,
      ls, echo, wc, rm.  LinuxGrep.v: custom_grep and shell.c.  LinuxSpec.v,
      LinuxGrepSpec.v.

    ** Interfaces

    The class [Linker] (Monad.v) has the addresses the linker script chooses and
    [Mmio] the device registers; [BlockDevice] (Bio.v) is the disk driver as the
    buffer cache sees it, with Virtio.v as the real one and the disks of
    CacheSpec.v, which may lose power, as the ones the file system is specified
    on; [DevSwitch] (File.v) is the console as file.c sees it; [IntrDevices]
    (Trap.v) the interrupt controller and the device handlers, implemented in
    Plic.v.  [UartSends] (ConsoleSpec.v) is a serial line that accepts
    characters and is idle whenever it is polled.  [DiskAnswers] and [DiskRegs]
    (VirtioSpec.v) are what the disk driver needs of the device: it completes a
    request as its descriptors say, and its registers can be written.  [Queue] (PipeSpec.v) is the bounded queue that a pipe's buffer
    implements.  [Sbrk] (MallocSpec.v) is what malloc needs of the system call
    that grows a process.  The C library's regcomp() and regexec() are
    parameters of LinuxGrep.v.

    ** What the theorems show

    - Locks: mutual exclusion under every interleaving, lk->locked set exactly
      while a CPU has the lock, interrupts off while one is held or taken, and
      refinement of the abstract locks.  No interleaving of sleep and wakeup loses
      a wakeup, and sleep locks exclude each other.
    - Memory: kalloc and kfree refine a stack of distinct pages, kinit fills
      it; memmove copies overlapping ranges correctly; mappages refines
      insertion into a map from virtual pages, its failure when memory runs
      out included, and walk lookup in it; uvmalloc, uvmcopy and uvmfree take
      and give back exactly the pages they should, when memory runs out too; copyout
      and copyin write and read exactly the bytes at a user range across pages.
    - Processes: fork makes a complete child or leaves everything as it was; wait
      collects a child with its status and gives all its pages back, so that
      fork, exit and wait leave the free pages what they were; the scheduler, kill, exit
      and waitpid on every branch; the inspection calls against
      definitions by list operations; signals are delivered lowest number
      first and sigreturn restores all registers; a message sent is the
      message received.
    - Disk: log_write records a block once; a commit interrupted at any write
      leaves a disk that recovery turns into the old or the new contents; what
      writei puts into allocated blocks is what readi gives back, before and
      after the commit, and a crash leaves all of a write, with the size in the
      dinode, or none of it; the driver virtio_disk_rw with a device that keeps its
      promises is the block device of the buffer cache; the
      block bitmap, on-disk inodes, path elements, and the uniqueness of
      entries in the inode table; the image of mkfs, decoded as fs.c decodes it,
      has the root directory, the files of the command line and the blocks they use.
    - Pipes and console: a pipe is a FIFO queue although its counters wrap, and
      write and read move bytes in order; the console's input handler refines
      line editing on character lists; printf stays inside its arguments.
    - User library: malloc gives out disjoint blocks and free takes them back,
      whatever the sequence of calls; memmove, strcmp, atoi.
    - User programs: grep's matcher accepts the language of the pattern and a
      run prints the matching lines however read() cuts the input; wc counts;
      the shell's parser ends on every line and reads back what a printer of
      commands writes; grind's generator is the one its comment describes,
      without overflow; usertests prints exactly the transcript of its tests' results
      and says ALL TESTS PASSED exactly when they did and no page is lost.
    - Linux commands: cp copies, however read() cuts the input; grep selects
      the numbered lines a filter selects; echo decodes its escapes inside its
      buffer; the shell runs the words of its line.

    ** What is not modelled

    Assembly (entry.S, trampoline.S, swtch.S, kernelvec.S), whose effect on
    registers and page tables the C code's model states at the calls.  The
    prototypes of defs.h and user.h.  Endless loops are bounded by their fuel,
    and scheduler() is one round, but for SleepSpec.v, where it runs on.  A
    process other than the running one acts only through the oracle at switches, and
    through the interleaving machines of Spinlock.v and SleepSpec.v: the data a
    lock protects is not changed by others while it is held.

    The theorems on writei are about files whose blocks are allocated up to the end of the write
    (bmap() and balloc() are modelled with their allocating branches, but not
    specified there), and about one process that uses the file system.  Reference
    counts (ip->ref, f->ref, log.outstanding) are
    integers without a width: the sizes of the tables keep them small.  The serial
    line of ConsoleSpec.v is idle at every poll, so that the waiting loop of
    uartputc_sync() is not exercised, and the device of VirtioSpec.v finds a
    request in the queue without the write that notifies it.  Sizes of buffers that
    the Linux commands double do not wrap around.

    ** What is left

    A specification of balloc and of the writes that allocate blocks; consoleread;
    sys_sbrk as an instance of [Sbrk]; reference counts of files over whole
    histories of calls; custom_rm on a tree of directories. *)
From stdpp Require Import base gmap list strings.
From Stdlib Require Import ZArith Lia ZifyBool.

Local Open Scope Z_scope.

(** ** Machine integers: a w-bit value is a [Z] kept in range by wrapping *)

Definition u8 (x : Z) : Z := x mod 2 ^ 8.
Definition u16 (x : Z) : Z := x mod 2 ^ 16.
Definition u32 (x : Z) : Z := x mod 2 ^ 32.
Definition u64 (x : Z) : Z := x mod 2 ^ 64.
Definition i16 (x : Z) : Z := (x + 2 ^ 15) mod 2 ^ 16 - 2 ^ 15.
Definition i32 (x : Z) : Z := (x + 2 ^ 31) mod 2 ^ 32 - 2 ^ 31.
Definition i64 (x : Z) : Z := (x + 2 ^ 63) mod 2 ^ 64 - 2 ^ 63.

Lemma u8_range x : 0 <= u8 x < 256.
Proof. unfold u8; apply Z.mod_pos_bound; lia. Qed.

Lemma u32_range x : 0 <= u32 x < 2 ^ 32.
Proof. unfold u32; apply Z.mod_pos_bound; lia. Qed.

Lemma u64_range x : 0 <= u64 x < 2 ^ 64.
Proof. unfold u64; apply Z.mod_pos_bound; lia. Qed.

Lemma i32_range x : - 2 ^ 31 <= i32 x < 2 ^ 31.
Proof. unfold i32; pose proof (Z.mod_pos_bound (x + 2 ^ 31) (2 ^ 32)); lia. Qed.

Lemma u8_small x : 0 <= x < 256 -> u8 x = x.
Proof. intros; unfold u8; apply Z.mod_small; lia. Qed.

Lemma u32_small x : 0 <= x < 2 ^ 32 -> u32 x = x.
Proof. intros; unfold u32; apply Z.mod_small; lia. Qed.

Lemma u64_small x : 0 <= x < 2 ^ 64 -> u64 x = x.
Proof. intros; unfold u64; apply Z.mod_small; lia. Qed.

Lemma i32_small x : - 2 ^ 31 <= x < 2 ^ 31 -> i32 x = x.
Proof. intros; unfold i32; rewrite Z.mod_small; lia. Qed.

(** A negative [int] converted to [uint64] (the C conversion of [-1]). *)
Lemma u64_neg x : - 2 ^ 64 <= x < 0 -> u64 x = x + 2 ^ 64.
Proof.
  intros; unfold u64.
  rewrite <- (Z_mod_plus_full x 1 (2 ^ 64)); apply Z.mod_small; lia.
Qed.

Lemma i32_u64 x : i32 (u64 x) = i32 x.
Proof.
  unfold i32, u64. f_equal.
  change (2 ^ 64) with (2 ^ 32 * 2 ^ 32).
  rewrite Z.rem_mul_r by lia.
  replace (x mod 2 ^ 32 + 2 ^ 32 * ((x / 2 ^ 32) mod 2 ^ 32) + 2 ^ 31)
    with (x mod 2 ^ 32 + 2 ^ 31 + ((x / 2 ^ 32) mod 2 ^ 32) * 2 ^ 32) by ring.
  rewrite Z_mod_plus_full, Zplus_mod_idemp_l; reflexivity.
Qed.

Lemma u32_u32 x : u32 (u32 x) = u32 x.
Proof. apply u32_small, u32_range. Qed.

Lemma u64_u64 x : u64 (u64 x) = u64 x.
Proof. apply u64_small, u64_range. Qed.

Create HintDb cint.
#[export] Hint Resolve u8_range u32_range u64_range i32_range : cint.
#[export] Hint Rewrite u8_small u32_small u64_small i32_small using lia : cint.
#[export] Hint Rewrite i32_u64 u32_u32 u64_u64 : cint.

(** [cint] normalises wraps of values already in range. *)
Ltac cint := autorewrite with cint in *.

(** Bits put together from disjoint fields. *)
Lemma testbit_high a n i : 0 <= n -> 0 <= a < 2 ^ n -> n <= i -> Z.testbit a i = false.
Proof.
  intros; destruct (Z.eq_dec a 0) as [-> |]; [apply Z.testbit_0_l |].
  apply Z.bits_above_log2; [lia |].
  apply Z.lt_le_trans with n; [apply Z.log2_lt_pow2 |]; lia.
Qed.

Lemma lor_high_low a b n : 0 <= n -> 0 <= b < 2 ^ n -> Z.lor (a * 2 ^ n) b = a * 2 ^ n + b.
Proof.
  intros Hn Hb; rewrite <- Z.add_lor_land.
  replace (Z.land (a * 2 ^ n) b) with 0; [lia |].
  apply Z.bits_inj'; intros i Hi; rewrite Z.land_spec, Z.testbit_0_l, Z.mul_pow2_bits by lia.
  destruct (Z_lt_dec i n); [rewrite Z.testbit_neg_r by lia; done |].
  rewrite (testbit_high b n) by lia; by rewrite andb_false_r.
Qed.

Lemma lor_bound a b n : 0 <= n -> 0 <= a < 2 ^ n -> 0 <= b < 2 ^ n -> 0 <= Z.lor a b < 2 ^ n.
Proof.
  intros Hn Ha Hb; assert (0 <= Z.lor a b) by (apply Z.lor_nonneg; lia).
  split; [done |]; destruct (Z.eq_dec (Z.lor a b) 0) as [-> | Hne]; [lia |].
  apply Z.log2_lt_pow2; [lia |]; rewrite Z.log2_lor by lia.
  assert (Hl : forall x, 0 <= x < 2 ^ n -> Z.log2 x < n \/ x = 0).
  { intros x Hx; destruct (Z.eq_dec x 0); [by right | left; apply Z.log2_lt_pow2; lia]. }
  pose proof (Z.log2_nonneg a); pose proof (Z.log2_nonneg b).
  destruct (Hl a Ha) as [| ->], (Hl b Hb) as [| ->]; try done; simpl; lia.
Qed.

(** ** Booleans and case analysis *)

Ltac bools :=
  repeat match goal with
  | H : andb _ _ = true |- _ => apply andb_true_iff in H as [? ?]
  | H : orb _ _ = false |- _ => apply orb_false_iff in H as [? ?]
  | H : negb _ = true |- _ => apply negb_true_iff in H
  | H : negb _ = false |- _ => apply negb_false_iff in H
  | H : (_ =? _) = true |- _ => apply Z.eqb_eq in H
  | H : (_ =? _) = false |- _ => apply Z.eqb_neq in H
  | H : (_ <? _) = true |- _ => apply Z.ltb_lt in H
  | H : (_ <? _) = false |- _ => apply Z.ltb_ge in H
  | H : (_ <=? _) = true |- _ => apply Z.leb_le in H
  | H : (_ <=? _) = false |- _ => apply Z.leb_gt in H
  | H : bool_decide _ = true |- _ => apply bool_decide_eq_true in H
  | H : bool_decide _ = false |- _ => apply bool_decide_eq_false in H
  end.

(** Split the outermost [if] or [match] of the goal, naming the equation. *)
Ltac split_if :=
  match goal with
  | |- context [if ?b then _ else _] => destruct b eqn:?
  end.

(** ** Field update: [r <| f := v |>] reads as the C assignment [r->f = v] *)

Class SetField {R T : Type} (proj : R -> T) := set_field : (T -> T) -> R -> R.
Arguments set_field {_ _} proj {_} _ _ /.

(** [eta] rebuilds a record from its fields; [setter] derives a field's update
    from it by abstracting the field's projection. *)
Class Eta (R : Type) := eta : R -> R.

Ltac setter :=
  match goal with
  | |- @SetField ?R ?T ?p =>
      let i := constr:(@eta R _) in
      let e := eval hnf in i in
      match eval pattern p in e with
      | ?g _ =>
          let t := eval cbv beta in (fun (f : T -> T) (r : R) => g (fun x => f (p x)) r) in
          exact t
      end
  end.

Declare Scope record_scope.
Delimit Scope record_scope with rec.
Notation "r <| f := v |>" := (set_field f (fun _ => v) r)
  (at level 12, left associativity, format "r  <| f  :=  v |>") : record_scope.
Notation "r <| f ::= g |>" := (set_field f g r)
  (at level 12, left associativity, format "r  <| f  ::=  g |>") : record_scope.
