(* ===== verification/Fcntl.v ===== *)
(** Constants that the kernel and the user programs share: kernel/fcntl.h,
    kernel/vm.h, the file types of kernel/stat.h, and the console's device
    number of kernel/file.h. *)
From Stdlib Require Import ZArith.

Local Open Scope Z_scope.

Definition O_RDONLY : Z := 0x000.
Definition O_WRONLY : Z := 0x001.
Definition O_RDWR : Z := 0x002.
Definition O_CREATE : Z := 0x200.
Definition O_TRUNC : Z := 0x400.

Definition SBRK_EAGER : Z := 1.
Definition SBRK_LAZY : Z := 2.

Definition T_DIR : Z := 1.
Definition T_FILE : Z := 2.
Definition T_DEVICE : Z := 3.

(** The major device number of the console *)
Definition CONSOLE : Z := 1.
