(* ===== verification/Memory.v ===== *)
(** Byte-addressed physical memory and the routines of kernel/string.c.

    [mem] maps physical addresses to bytes; an address never written reads as
    zero.  [mem_eq] (same bytes everywhere) is the equality that matters to a
    program, and every routine respects it.  The [mem*] routines work on
    addresses, as in the source, because what they do on overlapping ranges is
    the point; the [str*] routines work on character arrays as lists, where
    the bytes after the end of the list stand for the terminating NUL. *)
From stdpp Require Import base gmap list.
From Stdlib Require Import ZArith Lia ZifyBool.
From S2P Require Import Prelude.

Local Open Scope Z_scope.

Abbreviation mem := (gmap Z Z).

Definition mget (m : mem) (a : Z) : Z := u8 (default 0 (m !! a)).
Definition mset (m : mem) (a v : Z) : mem := <[a := u8 v]> m.

(** Same bytes at every address. *)
Definition mem_eq (m1 m2 : mem) : Prop := forall a, mget m1 a = mget m2 a.

#[export] Instance mem_eq_equivalence : Equivalence mem_eq.
Proof.
  split.
  - intros m a; reflexivity.
  - intros m1 m2 H a; symmetry; apply H.
  - intros m1 m2 m3 H1 H2 a; etransitivity; [apply H1 | apply H2].
Qed.

(** ** Little-endian words in memory *)

Fixpoint load_le (k : nat) (m : mem) (a : Z) : Z :=
  match k with
  | O => 0
  | S k' => mget m a + 256 * load_le k' m (a + 1)
  end.

Fixpoint store_le (k : nat) (m : mem) (a v : Z) : mem :=
  match k with
  | O => m
  | S k' => store_le k' (mset m a v) (a + 1) (v / 256)
  end.

Definition load64 := load_le 8.
Definition store64 := store_le 8.
Definition load32 := load_le 4.

Arguments load64 : simpl never.
Arguments store64 : simpl never.
Arguments load32 : simpl never.

(** The bytes of a value in memory order, and back. *)
Fixpoint bytes_le (k : nat) (v : Z) : list Z :=
  match k with
  | O => []
  | S k' => u8 v :: bytes_le k' (v / 256)
  end.

Fixpoint le_bytes (l : list Z) : Z :=
  match l with
  | [] => 0
  | b :: l' => b + 256 * le_bytes l'
  end.

(** [store_bytes m a l] writes the array [l] at [a]; [load_bytes] reads one. *)
Fixpoint store_bytes (m : mem) (a : Z) (l : list Z) : mem :=
  match l with
  | [] => m
  | b :: l' => store_bytes (mset m a b) (a + 1) l'
  end.

Fixpoint load_bytes (k : nat) (m : mem) (a : Z) : list Z :=
  match k with
  | O => []
  | S k' => mget m a :: load_bytes k' m (a + 1)
  end.

(** ** string.c *)

(** [for(i = 0; i < n; i++) cdst[i] = c;] *)
Definition memset (m : mem) (dst c n : Z) : mem :=
  fold_left (fun m i => mset m (dst + i) c) (seqZ 0 n) m.

Arguments memset : simpl never.

(** [while(n-- > 0){ if( *s1 != *s2) return *s1 - *s2; s1++, s2++; } return 0;] *)
Fixpoint memcmp (m : mem) (s1 s2 : Z) (n : nat) : Z :=
  match n with
  | O => 0
  | S n' =>
      if mget m s1 =? mget m s2 then memcmp m (s1 + 1) (s2 + 1) n'
      else mget m s1 - mget m s2
  end.

(** [while(n-- > 0) *d++ = *s++;] *)
Fixpoint copy_up (n : nat) (m : mem) (d s : Z) : mem :=
  match n with
  | O => m
  | S n' => copy_up n' (mset m d (mget m s)) (d + 1) (s + 1)
  end.

(** [while(n-- > 0) *--d = *--s;] *)
Fixpoint copy_down (n : nat) (m : mem) (d s : Z) : mem :=
  match n with
  | O => m
  | S n' => copy_down n' (mset m (d - 1) (mget m (s - 1))) (d - 1) (s - 1)
  end.

Definition memmove (m : mem) (dst src n : Z) : mem :=
  if n =? 0 then m
  else if (src <? dst) && (dst <? src + n)
  then copy_down (Z.to_nat n) m (dst + n) (src + n)
  else copy_up (Z.to_nat n) m dst src.

Arguments memmove : simpl never.

Definition memcpy (m : mem) (dst src n : Z) : mem := memmove m dst src n.

(** The character arrays of the [str*] routines: [hd 0] reads [*p]. *)
Definition chr (p : list Z) : Z := hd 0 p.

Fixpoint strncmp (p q : list Z) (n : nat) : Z :=
  match n with
  | O => 0
  | S n' =>
      if negb (chr p =? 0) && (chr p =? chr q)
      then strncmp (tl p) (tl q) n'
      else chr p - chr q
  end.

(** [while(n-- > 0) *s++ = 0;] *)
Fixpoint zero_fill (s : list Z) (n : nat) : list Z :=
  match n, s with
  | S n', _ :: s' => 0 :: zero_fill s' n'
  | _, _ => s
  end.

Fixpoint strncpy (s t : list Z) (n : nat) : list Z :=
  match n, s with
  | S n', _ :: s' =>
      chr t :: (if chr t =? 0 then zero_fill s' n' else strncpy s' (tl t) n')
  | _, _ => s
  end.

(** [while(--n > 0 && ( *s++ = *t++ ) != 0); *s = 0;] with [k] the value of [--n]
    on entry.  The NUL that ends the copy is followed by the one the last
    statement writes. *)
Fixpoint safestrcpy_loop (s t : list Z) (k : nat) : list Z :=
  match s with
  | [] => []
  | _ :: s' =>
      match k with
      | O => 0 :: s'
      | S k' =>
          chr t :: (if chr t =? 0
                    then match s' with [] => [] | _ :: s'' => 0 :: s'' end
                    else safestrcpy_loop s' (tl t) k')
      end
  end.

Definition safestrcpy (s t : list Z) (n : Z) : list Z :=
  if n <=? 0 then s else safestrcpy_loop s t (Z.to_nat (n - 1)).

(** [for(n = 0; s[n]; n++);] *)
Fixpoint strlen (s : list Z) : Z :=
  match s with
  | [] => 0
  | c :: s' => if c =? 0 then 0 else 1 + strlen s'
  end.

(** The string an array holds: the bytes before its first NUL. *)
Fixpoint cstr (s : list Z) : list Z :=
  match s with
  | [] => []
  | c :: s' => if c =? 0 then [] else c :: cstr s'
  end.

(** ** Lemmas: single bytes *)

Lemma mget_range m a : 0 <= mget m a < 256.
Proof. apply u8_range. Qed.

Lemma mget_mset_eq m a v : mget (mset m a v) a = u8 v.
Proof. unfold mget, mset; rewrite lookup_insert_eq; simpl; apply u8_small, u8_range. Qed.

Lemma mget_mset_ne m a b v : a <> b -> mget (mset m a v) b = mget m b.
Proof. intros; unfold mget, mset; rewrite lookup_insert_ne; auto. Qed.

Lemma mget_mset m a b v : mget (mset m a v) b = if a =? b then u8 v else mget m b.
Proof.
  destruct (Z.eqb_spec a b) as [-> | H]; [apply mget_mset_eq | by apply mget_mset_ne].
Qed.

#[export] Hint Rewrite mget_mset : mem.

#[export] Instance mset_proper :
  Proper (mem_eq ==> eq ==> eq ==> mem_eq) mset.
Proof. intros m1 m2 H a _ <- v _ <- b; rewrite !mget_mset, H; reflexivity. Qed.

Lemma mset_same m a : mem_eq (mset m a (mget m a)) m.
Proof.
  intros b; rewrite mget_mset; destruct (Z.eqb_spec a b) as [-> | ]; [| done].
  apply u8_small, mget_range.
Qed.

(** ** Lemmas: words and arrays *)

Lemma mget_store_bytes m a l b :
  mget (store_bytes m a l) b =
  if (a <=? b) && (b <? a + Z.of_nat (length l))
  then u8 (nth (Z.to_nat (b - a)) l 0) else mget m b.
Proof.
  revert m a; induction l as [| x l IH]; intros m a; simpl.
  - destruct (_ && _) eqn:E; [lia | done].
  - rewrite IH, mget_mset.
    destruct (Z.eqb_spec a b) as [-> |].
    + replace (b + 1 <=? b) with false by lia.
      replace ((b <=? b) && (b <? b + Z.of_nat (S (length l)))) with true by lia.
      simpl; rewrite Z.sub_diag; done.
    + destruct ((a + 1 <=? b) && (b <? a + 1 + Z.of_nat (length l))) eqn:E;
      destruct ((a <=? b) && (b <? a + Z.of_nat (S (length l)))) eqn:E'; try lia; try done.
      replace (Z.to_nat (b - a)) with (S (Z.to_nat (b - (a + 1)))) by lia; done.
Qed.

Lemma load_bytes_ext k m1 m2 a :
  (forall b, a <= b < a + Z.of_nat k -> mget m1 b = mget m2 b) ->
  load_bytes k m1 a = load_bytes k m2 a.
Proof.
  revert a; induction k as [| k IH]; intros a H; simpl; [done |].
  rewrite H by lia; rewrite (IH (a + 1)); [done |]; intros; apply H; lia.
Qed.

Lemma load_bytes_length k m a : length (load_bytes k m a) = k.
Proof. revert a; induction k; intros; simpl; auto. Qed.

Lemma nth_load_bytes k m a i :
  (i < k)%nat -> nth i (load_bytes k m a) 0 = mget m (a + Z.of_nat i).
Proof.
  revert a i; induction k as [| k IH]; intros a i Hi; simpl; [lia |].
  destruct i as [| i]; simpl; [f_equal; lia |].
  rewrite IH by lia; f_equal; lia.
Qed.

Lemma load_store_bytes m a l :
  Forall (fun b => 0 <= b < 256) l ->
  load_bytes (length l) (store_bytes m a l) a = l.
Proof.
  intros Hl; apply nth_ext with (d := 0) (d' := 0); [apply load_bytes_length |].
  rewrite load_bytes_length; intros i Hi.
  rewrite nth_load_bytes, mget_store_bytes by done.
  replace (a <=? a + Z.of_nat i) with true by lia.
  replace (a + Z.of_nat i <? a + Z.of_nat (length l)) with true by lia; simpl.
  replace (Z.to_nat (a + Z.of_nat i - a)) with i by lia.
  apply u8_small. rewrite Forall_forall in Hl. apply Hl, list_elem_of_In, nth_In; done.
Qed.

Lemma load_le_bytes k m a : load_le k m a = le_bytes (load_bytes k m a).
Proof. revert a; induction k; intros; simpl; congruence. Qed.

Lemma store_le_bytes k m a v : mem_eq (store_le k m a v) (store_bytes m a (bytes_le k v)).
Proof.
  revert m a v; induction k as [| k IH]; intros m a v; simpl; [reflexivity |].
  rewrite IH; intros b; rewrite !mget_store_bytes, !mget_mset.
  rewrite (u8_small (u8 v)) by apply u8_range; done.
Qed.

Lemma bytes_le_length k v : length (bytes_le k v) = k.
Proof. revert v; induction k; intros; simpl; auto. Qed.

Lemma bytes_le_range k v : Forall (fun b => 0 <= b < 256) (bytes_le k v).
Proof. revert v; induction k; intros; simpl; constructor; auto using u8_range. Qed.

Lemma le_bytes_bytes_le k v : le_bytes (bytes_le k v) = v mod 256 ^ Z.of_nat k.
Proof.
  revert v; induction k as [| k IH]; intros v; simpl; [by rewrite Z.mod_1_r |].
  rewrite IH, Nat2Z.inj_succ, Z.pow_succ_r, Z.rem_mul_r by lia; done.
Qed.

Lemma load_store_le k m a v : load_le k (store_le k m a v) a = v mod 256 ^ Z.of_nat k.
Proof.
  rewrite load_le_bytes, <- le_bytes_bytes_le; f_equal.
  rewrite (load_bytes_ext _ _ (store_bytes m a (bytes_le k v)))
    by (intros; apply store_le_bytes).
  rewrite <- (bytes_le_length k v) at 1; apply load_store_bytes, bytes_le_range.
Qed.

Lemma mget_store_le_ne k m a v b :
  b < a \/ a + Z.of_nat k <= b -> mget (store_le k m a v) b = mget m b.
Proof.
  intros H; rewrite store_le_bytes, mget_store_bytes, bytes_le_length.
  destruct ((a <=? b) && (b <? a + Z.of_nat k)) eqn:E; [lia | done].
Qed.

Lemma load_le_ext k m1 m2 a :
  (forall b, a <= b < a + Z.of_nat k -> mget m1 b = mget m2 b) ->
  load_le k m1 a = load_le k m2 a.
Proof. intros; rewrite !load_le_bytes; f_equal; by apply load_bytes_ext. Qed.

(** Reading a word back after storing it. *)
Lemma load64_store64 m a v : load64 (store64 m a v) a = u64 v.
Proof. unfold load64, store64; rewrite load_store_le; reflexivity. Qed.

(** A store leaves every word that does not overlap it. *)
Lemma load64_store64_ne m a b v :
  b + 8 <= a \/ a + 8 <= b -> load64 (store64 m a v) b = load64 m b.
Proof.
  intros; unfold load64, store64; apply load_le_ext; intros; apply mget_store_le_ne; lia.
Qed.

Lemma load_le_range k m a : 0 <= load_le k m a < 256 ^ Z.of_nat k.
Proof.
  revert a; induction k as [| k IH]; intros a; cbn [load_le].
  - change (256 ^ Z.of_nat 0) with 1; lia.
  - pose proof (mget_range m a); pose proof (IH (a + 1)).
    rewrite Nat2Z.inj_succ, Z.pow_succ_r by lia; nia.
Qed.

Lemma load64_range m a : 0 <= load64 m a < 2 ^ 64.
Proof. exact (load_le_range 8 m a). Qed.

(** ** string.c: what the routines compute *)

Lemma mget_memset_seq m dst c (l : list Z) b :
  mget (fold_left (fun m i => mset m (dst + i) c) l m) b =
  if bool_decide ((b - dst) ∈ l) then u8 c else mget m b.
Proof.
  revert m; induction l as [| i l IH]; intros m; simpl; [done |].
  rewrite IH, mget_mset.
  assert (Hin : (b - dst ∈ i :: l) <-> dst + i = b \/ b - dst ∈ l)
    by (rewrite elem_of_cons; split; intros [? | ?]; auto; left; lia).
  destruct (Z.eqb_spec (dst + i) b); repeat case_bool_decide; tauto.
Qed.

(** [memset] sets exactly the bytes of its range. *)
Lemma memset_spec m dst c n b :
  mget (memset m dst c n) b =
  if (dst <=? b) && (b <? dst + n) then u8 c else mget m b.
Proof.
  unfold memset; rewrite mget_memset_seq.
  case_bool_decide as H; rewrite elem_of_seqZ in H;
    destruct ((dst <=? b) && (b <? dst + n)) eqn:E; try done; lia.
Qed.

#[export] Instance memset_proper :
  Proper (mem_eq ==> eq ==> eq ==> eq ==> mem_eq) memset.
Proof. intros m1 m2 H d _ <- c _ <- n _ <- b; rewrite !memset_spec, H; done. Qed.

(** The upward copy is right when the source does not lie just below the
    destination; [j] bytes have been copied already. *)
Lemma copy_up_spec n m d s b :
  s >= d \/ s + Z.of_nat n <= d ->
  mget (copy_up n m d s) b =
  if (d <=? b) && (b <? d + Z.of_nat n) then mget m (s + (b - d)) else mget m b.
Proof.
  revert m d s; induction n as [| n IH]; intros m d s H; cbn [copy_up].
  - destruct (_ && _) eqn:E; [lia | done].
  - rewrite IH by lia; rewrite !mget_mset, u8_small by apply mget_range.
    destruct ((d + 1 <=? b) && (b <? d + 1 + Z.of_nat n)) eqn:E1;
      destruct ((d <=? b) && (b <? d + Z.of_nat (S n))) eqn:E2; try lia.
    + replace (d =? s + 1 + (b - (d + 1))) with false by lia; f_equal; lia.
    + replace (d =? b) with true by lia; f_equal; lia.
    + replace (d =? b) with false by lia; done.
Qed.

Lemma copy_down_spec n m d s b :
  s <= d \/ d <= s - Z.of_nat n ->
  mget (copy_down n m d s) b =
  if (d - Z.of_nat n <=? b) && (b <? d) then mget m (s + (b - d)) else mget m b.
Proof.
  revert m d s; induction n as [| n IH]; intros m d s H; cbn [copy_down].
  - destruct (_ && _) eqn:E; [lia | done].
  - rewrite IH by lia; rewrite !mget_mset, u8_small by apply mget_range.
    destruct ((d - 1 - Z.of_nat n <=? b) && (b <? d - 1)) eqn:E1;
      destruct ((d - Z.of_nat (S n) <=? b) && (b <? d)) eqn:E2; try lia.
    + replace (d - 1 =? s - 1 + (b - (d - 1))) with false by lia; f_equal; lia.
    + replace (d - 1 =? b) with true by lia; f_equal; lia.
    + replace (d - 1 =? b) with false by lia; done.
Qed.

Lemma memmove_bytes m dst src n b :
  0 <= n ->
  mget (memmove m dst src n) b =
  if (dst <=? b) && (b <? dst + n) then mget m (src + (b - dst)) else mget m b.
Proof.
  intros Hn; unfold memmove.
  destruct (Z.eqb_spec n 0) as [-> |]; [destruct (_ && _) eqn:E; [lia | done] |].
  destruct ((src <? dst) && (dst <? src + n)) eqn:E.
  - rewrite copy_down_spec by lia; rewrite Z2Nat.id by lia.
    replace (dst + n - n) with dst by lia; split_if; [f_equal; lia | done].
  - rewrite copy_up_spec by lia; rewrite Z2Nat.id by lia; done.
Qed.

#[export] Instance memmove_proper n : 0 <= n ->
  Proper (mem_eq ==> eq ==> eq ==> mem_eq) (fun m d s => memmove m d s n).
Proof. intros Hn m1 m2 H d _ <- s _ <- b; rewrite !memmove_bytes, !H by done; done. Qed.

(** Memmove copies as if through a snapshot of the source: after it every
    byte of the destination range holds what the source held before, every
    other byte is unchanged, whatever way the two ranges overlap. *)
Theorem memmove_spec (m : mem) (dst src n b : Z) (Hn : 0 <= n) :
  mget (memmove m dst src n) b =
  if (dst <=? b) && (b <? dst + n) then mget m (src + (b - dst)) else mget m b.
Proof. by apply memmove_bytes. Qed.

Lemma memmove_spec_witness :
  mget (memmove (store_bytes ∅ 100 [1; 2; 3; 4; 5]) 101 100 4) 104 = 4 /\
  mget (memmove (store_bytes ∅ 100 [1; 2; 3; 4; 5]) 101 100 4) 100 = 1.
Proof.
  split.
  - rewrite (memmove_spec (store_bytes ∅ 100 [1; 2; 3; 4; 5]) 101 100 4 104 ltac:(lia)).
    reflexivity.
  - rewrite (memmove_spec (store_bytes ∅ 100 [1; 2; 3; 4; 5]) 101 100 4 100 ltac:(lia)).
    reflexivity.
Defined.

(** ** Strings *)

Lemma strncmp_refl_prefix p q n :
  strncmp p q n = 0 <->
  take n (cstr p) = take n (cstr q).
Proof.
  revert p q; induction n as [| n IH]; intros p q; simpl; [by rewrite !take_0 |].
  destruct p as [| a p], q as [| b q]; unfold chr; simpl.
  - done.
  - destruct (Z.eqb_spec b 0); simpl; split; intros; try done; lia.
  - destruct (Z.eqb_spec a 0); simpl; [split; intros; done + lia |].
    destruct (Z.eqb_spec a 0), (Z.eqb_spec 0 a); simpl; split; intros; try done; lia.
  - destruct (Z.eqb_spec a 0); subst; simpl.
    + destruct (Z.eqb_spec b 0); subst; simpl; [done |].
      split; intros; [lia | done].
    + destruct (Z.eqb_spec a b); subst; simpl.
      * destruct (Z.eqb_spec b 0); [done |]; simpl.
        rewrite IH; split; [by intros -> | by intros [=]].
      * destruct (Z.eqb_spec b 0); subst; simpl; split; intros H; try done; try lia.
        injection H as H; congruence.
Qed.

Lemma safestrcpy_loop_spec s t k :
  (k < length s)%nat ->
  length (safestrcpy_loop s t k) = length s /\
  cstr (safestrcpy_loop s t k) = take k (cstr t).
Proof.
  revert s t; induction k as [| k IH]; intros [| x s] t Hk; simpl in *; try lia.
  - split; [done | by rewrite take_0].
  - destruct t as [| c t]; unfold chr; simpl.
    + destruct s; simpl; done.
    + destruct (Z.eqb_spec c 0) as [-> | Hc]; simpl.
      * destruct s; simpl; done.
      * destruct (Z.eqb_spec c 0); [done |].
        destruct (IH s t ltac:(lia)) as [-> ->]; done.
Qed.

Lemma strlen_cstr s : strlen s = Z.of_nat (length (cstr s)).
Proof. induction s as [| c s IH]; simpl; [done |]; destruct (c =? 0); simpl; lia. Qed.

Lemma cstr_no_nul s : ~ 0 ∈ cstr s.
Proof.
  induction s as [| c s IH]; simpl; [set_solver |].
  destruct (Z.eqb_spec c 0); [set_solver |].
  intros [? | ?]%elem_of_cons; [congruence | done].
Qed.

Lemma cstr_take_no_nul l : 0 ∉ l -> cstr l = l.
Proof.
  induction l as [| c l IH]; intros Hn; simpl; [done |].
  destruct (Z.eqb_spec c 0); [set_solver |]; f_equal; apply IH; set_solver.
Qed.

Lemma cstr_app_nul l r : 0 ∉ l -> cstr (l ++ 0 :: r) = l.
Proof.
  induction l as [| c l IH]; intros Hn; simpl; [done |].
  destruct (Z.eqb_spec c 0); [set_solver |]; f_equal; apply IH; set_solver.
Qed.

Lemma cstr_idem l : cstr (cstr l) = cstr l.
Proof. apply cstr_take_no_nul, cstr_no_nul. Qed.
