(* ===== verification/KPrintf.v ===== *)
(** Formatted output, kernel/printf.c: the characters a call of printf sends to
    consputc.

    Variadic arguments are the list [ap] that [va_arg] takes from: register
    values and strings.  [None] is undefined behaviour: an argument that is
    missing or of the wrong kind, or a number that overflows [buf]. *)
From stdpp Require Import base gmap list strings.
From Stdlib Require Import ZArith Lia ZifyBool Ascii.
From S2P Require Import Prelude Memory.

Local Open Scope Z_scope.

(** ** Characters and string literals *)

Definition ch (a : ascii) : Z := Z.of_N (N_of_ascii a).
Arguments ch _%_char.

(** The bytes of a C string literal; [\n], [\t], [\r] and [\v] are the only
    escapes the sources use. *)
Fixpoint lit (s : string) : list Z :=
  match s with
  | EmptyString => []
  | String a s' =>
      match a, s' with
      | "\"%char, String e s'' =>
          (if Ascii.eqb e "n" then 10 else if Ascii.eqb e "t" then 9
           else if Ascii.eqb e "r" then 13 else if Ascii.eqb e "v" then 11 else ch e) :: lit s''
      | _, _ => ch a :: lit s'
      end
  end.
Arguments lit _%_string.

(** ** Numbers *)

(** [static char digits[]] *)
Definition digits : list Z := lit "0123456789abcdef".

(** [do { buf[i++] = digits[x % base]; } while((x /= base) != 0);] *)
Fixpoint int_digits (fuel : nat) (tbl : list Z) (base x : Z) : list Z :=
  nth (Z.to_nat (x mod base)) tbl 0 ::
  match fuel with
  | O => []
  | S fuel' => if x / base =? 0 then [] else int_digits fuel' tbl base (x / base)
  end.

(** A 64-bit number has at most 64 digits in any base. *)
Definition printint (xx base : Z) (sign : bool) : option (list Z) :=
  let sign := sign && (xx <? 0) in
  let x := if sign then u64 (- xx) else u64 xx in
  let buf := int_digits 64 digits base x ++ (if sign then [ch "-"] else []) in
  if 20 <? Z.of_nat (length buf) then None else Some (rev buf).

(** [for(i = 0; i < 16; i++, x <<= 4) consputc(digits[x >> 60]);] *)
Fixpoint ptr_digits (n : nat) (tbl : list Z) (x : Z) : list Z :=
  match n with
  | O => []
  | S n' => nth (Z.to_nat (Z.shiftr x 60)) tbl 0 :: ptr_digits n' tbl (u64 (Z.shiftl x 4))
  end.

Definition printptr (x : Z) : list Z := ch "0" :: ch "x" :: ptr_digits 16 digits x.

(** ** printf *)

(** A variadic argument: a register, or a [char *]. *)
Inductive varg := VInt (x : Z) | VStr (s : option (list Z)).

Definition va_int (ap : list varg) : option (Z * list varg) :=
  match ap with VInt x :: ap' => Some (i32 x, ap') | _ => None end.
Definition va_uint32 (ap : list varg) : option (Z * list varg) :=
  match ap with VInt x :: ap' => Some (u32 x, ap') | _ => None end.
Definition va_uint64 (ap : list varg) : option (Z * list varg) :=
  match ap with VInt x :: ap' => Some (u64 x, ap') | _ => None end.
Definition va_str (ap : list varg) : option (option (list Z) * list varg) :=
  match ap with VStr s :: ap' => Some (s, ap') | _ => None end.

(** The conversions %d %ld %lld %u ... that print a number: how the argument is
    fetched and, for printint, taken as a [long long], the base, whether it is
    signed, and by how much [i] is advanced. *)
Definition int_conv (c0 c1 c2 : Z) : option ((list varg -> option (Z * list varg)) * Z * bool * nat) :=
  if c0 =? ch "d" then Some (va_int, 10, true, 0%nat)
  else if (c0 =? ch "l") && (c1 =? ch "d") then Some (va_uint64, 10, true, 1%nat)
  else if (c0 =? ch "l") && (c1 =? ch "l") && (c2 =? ch "d") then Some (va_uint64, 10, true, 2%nat)
  else if c0 =? ch "u" then Some (va_uint32, 10, false, 0%nat)
  else if (c0 =? ch "l") && (c1 =? ch "u") then Some (va_uint64, 10, false, 1%nat)
  else if (c0 =? ch "l") && (c1 =? ch "l") && (c2 =? ch "u") then Some (va_uint64, 10, false, 2%nat)
  else if c0 =? ch "x" then Some (va_uint32, 16, false, 0%nat)
  else if (c0 =? ch "l") && (c1 =? ch "x") then Some (va_uint64, 16, false, 1%nat)
  else if (c0 =? ch "l") && (c1 =? ch "l") && (c2 =? ch "x") then Some (va_uint64, 16, false, 2%nat)
  else None.

(** The bytes consputc sends for [c]; 0x100 is BACKSPACE. *)
Definition consputc_bytes (c : Z) : list Z := if c =? 0x100 then [8; 32; 8] else [u8 c].

(** One conversion: its output, the arguments left, the advance of [i]. *)
Definition convert (c0 c1 c2 : Z) (ap : list varg) : option (list Z * list varg * nat) :=
  match int_conv c0 c1 c2 with
  | Some (va, base, sign, skip) =>
      '(x, ap') ← va ap; out ← printint (i64 x) base sign; Some (out, ap', skip)
  | None =>
      if c0 =? ch "p" then '(x, ap') ← va_uint64 ap; Some (printptr x, ap', 0%nat)
      else if c0 =? ch "c" then '(x, ap') ← va_uint32 ap; Some (consputc_bytes x, ap', 0%nat)
      else if c0 =? ch "s" then
        '(s, ap') ← va_str ap;
        Some (match s with None => lit "(null)" | Some s => cstr s end, ap', 0%nat)
      else if c0 =? ch "%" then Some ([ch "%"], ap, 0%nat)
      else Some ([ch "%"; c0], ap, 0%nat)
  end.

(** The loop over the format; every iteration takes at least one character of
    it, so its length is enough fuel. *)
Fixpoint printf_loop (fuel : nat) (fmt : list Z) (ap : list varg) : option (list Z) :=
  match fuel with
  | O => Some []
  | S fuel' =>
      let cx := chr fmt in
      if cx =? 0 then Some []
      else if negb (cx =? ch "%") then
        out ← printf_loop fuel' (tl fmt) ap; Some (cx :: out)
      else
        let c0 := chr (tl fmt) in
        let c1 := if c0 =? 0 then 0 else chr (drop 2 fmt) in
        let c2 := if c1 =? 0 then 0 else chr (drop 3 fmt) in
        if c0 =? 0 then Some []
        else
          '(s, ap', skip) ← convert c0 c1 c2 ap;
          out ← printf_loop fuel' (drop (2 + skip) fmt) ap'; Some (s ++ out)
  end.

Definition sprintf (fmt : list Z) (ap : list varg) : option (list Z) :=
  printf_loop (length fmt) fmt ap.

(** ** What printint prints *)

(** The value of a digit and of a numeral, most significant digit first. *)
Definition digit_of (c : Z) : Z := if c <=? ch "9" then c - ch "0" else c - ch "a" + 10.
Definition numeral (base : Z) (ds : list Z) : Z := fold_left (fun n c => n * base + digit_of c) ds 0.

(** Without leading zeros. *)
Definition canonical (ds : list Z) : Prop := ds = [ch "0"] \/ (ds <> [] /\ hd 0 ds <> ch "0").

Lemma digit_of_nth d : 0 <= d < 16 -> digit_of (nth (Z.to_nat d) digits 0) = d.
Proof.
  intros Hd; rewrite <- (Z2Nat.id d) at 2 by lia.
  assert (Hn : (Z.to_nat d < 16)%nat) by lia; revert Hn; generalize (Z.to_nat d); intros n Hn.
  do 16 (destruct n as [| n]; [reflexivity |]); lia.
Qed.

Lemma digit_char_eq d c : 0 <= d < 16 -> nth (Z.to_nat d) digits 0 = c -> d = digit_of c.
Proof. intros Hd <-; by rewrite digit_of_nth. Qed.

Lemma fold_right_snoc_numeral base ds :
  numeral base (rev ds) = fold_right (fun c n => digit_of c + base * n) 0 ds.
Proof.
  unfold numeral; rewrite <- fold_left_rev_right, rev_involutive.
  induction ds as [| c ds IH]; simpl; [done |]; rewrite IH; lia.
Qed.

Section IntDigits.
Context (base : Z) (Hbase : 2 <= base <= 16).

Lemma mod_digit x : 0 <= x mod base < 16.
Proof. pose proof (Z.mod_pos_bound x base); lia. Qed.

Lemma int_digits_value fuel x :
  0 <= x < base ^ (Z.of_nat fuel + 1) -> numeral base (rev (int_digits fuel digits base x)) = x.
Proof.
  rewrite fold_right_snoc_numeral; revert x; induction fuel as [| fuel IH]; intros x Hx.
  - cbn [int_digits fold_right]; rewrite digit_of_nth by apply mod_digit.
    rewrite Z.mod_small; [lia |]; rewrite Z.pow_1_r in Hx; lia.
  - cbn [int_digits fold_right]; rewrite digit_of_nth by apply mod_digit.
    pose proof (Z.div_mod x base); destruct (Z.eqb_spec (x / base) 0) as [Hz | Hz].
    + rewrite Hz in *; simpl; lia.
    + rewrite IH; [lia |].
      split; [apply Z.div_pos; lia |]; apply Z.div_lt_upper_bound; [lia |].
      replace (Z.of_nat (S fuel) + 1) with (Z.succ (Z.of_nat fuel + 1)) in Hx by lia.
      rewrite Z.pow_succ_r in Hx; lia.
Qed.

Lemma int_digits_length fuel x k :
  0 <= x < base ^ Z.of_nat (S k) -> (length (int_digits fuel digits base x) <= S k)%nat.
Proof.
  revert x k; induction fuel as [| fuel IH]; intros x k Hx; cbn [int_digits length]; [lia |].
  destruct (Z.eqb_spec (x / base) 0) as [Hz | Hz]; [simpl; lia |].
  destruct k as [| k]; [rewrite Z.div_small in Hz; simpl in Hx; lia |].
  apply le_n_S, IH; split; [apply Z.div_pos; lia |]; apply Z.div_lt_upper_bound; [lia |].
  rewrite (Nat2Z.inj_succ (S k)), Z.pow_succ_r in Hx; lia.
Qed.

Lemma int_digits_canonical fuel x :
  0 <= x < base ^ (Z.of_nat fuel + 1) -> canonical (rev (int_digits fuel digits base x)).
Proof.
  intros Hx; destruct (Z.eq_dec x 0) as [-> | Hne].
  { left; destruct fuel; reflexivity. }
  right; revert x Hx Hne; induction fuel as [| fuel IH]; intros x Hx Hne; cbn [int_digits].
  - simpl; split; [done |]; intros H; apply digit_char_eq in H; [| apply mod_digit].
    rewrite Z.mod_small in H by (rewrite Z.pow_1_r in Hx; lia); unfold digit_of in H; simpl in H; lia.
  - destruct (Z.eqb_spec (x / base) 0) as [Hz | Hz].
    + simpl; split; [done |]; intros H; apply digit_char_eq in H; [| apply mod_digit].
      apply Z.div_small_iff in Hz; [| lia]; rewrite Z.mod_small in H by lia.
      unfold digit_of in H; simpl in H; lia.
    + destruct (IH (x / base)) as [Hn Hh]; [| done |].
      { split; [apply Z.div_pos; lia |]; apply Z.div_lt_upper_bound; [lia |].
        replace (Z.of_nat (S fuel) + 1) with (Z.succ (Z.of_nat fuel + 1)) in Hx by lia.
        rewrite Z.pow_succ_r in Hx; lia. }
      simpl; split; [by intros [??]%app_eq_nil |].
      destruct (rev (int_digits fuel digits base (x / base))); done.
Qed.

End IntDigits.

Lemma printint_run (xx base : Z) (sign : bool)
  (Hb : base = 10 \/ base = 16 /\ sign = false) (Hx : - 2 ^ 63 <= xx < 2 ^ 63) :
  exists ds, printint xx base sign = Some ((if sign && (xx <? 0) then [ch "-"] else []) ++ ds) /\
    canonical ds /\ numeral base ds = (if sign then Z.abs xx else u64 xx).
Proof.
  unfold printint.
  set (x := if sign && (xx <? 0) then u64 (- xx) else u64 xx).
  assert (Hbase : 2 <= base <= 16) by lia.
  assert (Hr : 0 <= x < 2 ^ 64) by (unfold x; destruct (sign && _); apply u64_range).
  assert (Hv : x = (if sign then Z.abs xx else u64 xx)).
  { unfold x; destruct sign; simpl; [| done]; destruct (Z.ltb_spec xx 0); rewrite u64_small; lia. }
  assert (Hfit : x < base ^ (Z.of_nat 64 + 1)).
  { apply Z.lt_le_trans with (2 ^ (Z.of_nat 64 + 1)); [lia |]; apply Z.pow_le_mono_l; lia. }
  assert (Hlen : Z.of_nat (length (int_digits 64 digits base x)) <= if sign && (xx <? 0) then 19 else 20).
  { destruct (sign && (xx <? 0)) eqn:E.
    - bools; destruct Hb as [-> | [-> Hf]]; [| congruence].
      enough (length (int_digits 64 digits 10 x) <= 19)%nat by lia.
      apply int_digits_length; [lia |]; rewrite Hv; subst sign; lia.
    - enough (length (int_digits 64 digits base x) <= 20)%nat by lia.
      apply int_digits_length; [lia |]; destruct Hb as [-> | [-> _]]; lia. }
  exists (rev (int_digits 64 digits base x)); split; [| split].
  - rewrite length_app; destruct (sign && (xx <? 0)); cbn [length];
      (match goal with |- context [20 <? ?n] => replace (20 <? n) with false by lia end);
      rewrite rev_app_distr; done.
  - apply int_digits_canonical; lia.
  - rewrite int_digits_value; lia.
Qed.

(** Printint prints the number: an optional minus sign, then its digits in
    base 10 or 16 with the right value and no leading zero; buf[20] is large
    enough for every 64-bit number. *)
Theorem printint_spec (xx base : Z) (sign : bool)
  (Hb : base = 10 \/ base = 16 /\ sign = false) (Hx : - 2 ^ 63 <= xx < 2 ^ 63) :
  exists ds, printint xx base sign = Some ((if sign && (xx <? 0) then [ch "-"] else []) ++ ds) /\
    canonical ds /\ numeral base ds = (if sign then Z.abs xx else u64 xx).
Proof. by apply printint_run. Qed.

(** ** A call whose arguments fit its format always prints *)

Inductive akind := KInt | KStr.
Definition kind_of (v : varg) : akind := match v with VInt _ => KInt | VStr _ => KStr end.

(** The kind of argument a conversion takes, and the advance of [i]. *)
Definition conv_kind (c0 c1 c2 : Z) : option akind * nat :=
  match int_conv c0 c1 c2 with
  | Some (_, skip) => (Some KInt, skip)
  | None =>
      if (c0 =? ch "p") || (c0 =? ch "c") then (Some KInt, 0%nat)
      else if c0 =? ch "s" then (Some KStr, 0%nat) else (None, 0%nat)
  end.

Fixpoint format_takes (fuel : nat) (fmt : list Z) (ks : list akind) : bool :=
  match fuel with
  | O => true
  | S fuel' =>
      let cx := chr fmt in
      if cx =? 0 then true
      else if negb (cx =? ch "%") then format_takes fuel' (tl fmt) ks
      else
        let c0 := chr (tl fmt) in
        let c1 := if c0 =? 0 then 0 else chr (drop 2 fmt) in
        let c2 := if c1 =? 0 then 0 else chr (drop 3 fmt) in
        if c0 =? 0 then true
        else
          match conv_kind c0 c1 c2, ks with
          | (None, skip), _ => format_takes fuel' (drop (2 + skip) fmt) ks
          | (Some KInt, skip), KInt :: ks' | (Some KStr, skip), KStr :: ks' =>
              format_takes fuel' (drop (2 + skip) fmt) ks'
          | _, _ => false
          end
  end.

Lemma i64_range x : - 2 ^ 63 <= i64 x < 2 ^ 63.
Proof. unfold i64; pose proof (Z.mod_pos_bound (x + 2 ^ 63) (2 ^ 64)); lia. Qed.

Lemma int_conv_prints c0 c1 c2 va base sign skip x ap :
  int_conv c0 c1 c2 = Some (va, base, sign, skip) ->
  exists out, convert c0 c1 c2 (VInt x :: ap) = Some (out, ap, skip).
Proof.
  intros Hc; unfold convert; rewrite Hc.
  assert (Hva : exists y, va (VInt x :: ap) = Some (y, ap) /\ (base = 10 \/ base = 16 /\ sign = false)).
  { unfold int_conv in Hc; repeat (case_match; [simplify_eq; eexists; split; [done |]; auto |]); done. }
  destruct Hva as (y & Hy & Hb); rewrite Hy; cbn.
  destruct (printint_run (i64 y) base sign Hb (i64_range y)) as (ds & Hds & _); rewrite Hds; cbn; eauto.
Qed.

Lemma convert_prints c0 c1 c2 ap :
  match conv_kind c0 c1 c2, ap with
  | (None, skip), _ => exists out, convert c0 c1 c2 ap = Some (out, ap, skip)
  | (Some KInt, skip), VInt _ :: ap' | (Some KStr, skip), VStr _ :: ap' =>
      exists out, convert c0 c1 c2 ap = Some (out, ap', skip)
  | _, _ => True
  end.
Proof.
  unfold conv_kind; destruct (int_conv c0 c1 c2) as [[[[va base] sign] skip] |] eqn:Hc.
  - destruct ap as [| [x | s] ap']; try done; by eapply int_conv_prints.
  - unfold convert; rewrite Hc.
    destruct (c0 =? ch "p"), (c0 =? ch "c"), (c0 =? ch "s"), ap as [| [x | s] ap'];
      cbn; try done; try (destruct (c0 =? ch "%")); eauto.
Qed.

Lemma format_prints fuel fmt ap :
  format_takes fuel fmt (kind_of <$> ap) = true -> is_Some (printf_loop fuel fmt ap).
Proof.
  revert fmt ap; induction fuel as [| fuel IH]; intros fmt ap Hf; [done |].
  cbn [format_takes printf_loop] in *; cbv zeta in *.
  destruct (chr fmt =? 0); [done |]; destruct (negb _).
  { destruct (IH _ _ Hf) as [out ->]; done. }
  destruct (chr (tl fmt) =? 0); [done |].
  set (c1 := chr (drop 2 fmt)) in *; set (c2 := if c1 =? 0 then 0 else chr (drop 3 fmt)) in *.
  pose proof (convert_prints (chr (tl fmt)) c1 c2 ap) as Hc.
  destruct (conv_kind (chr (tl fmt)) c1 c2) as [[[] |] skip], ap as [| [x | s] ap']; try done;
    destruct Hc as [out ->]; cbn [mbind option_bind];
    (destruct (IH _ _ Hf) as [out' ->]); done.
Qed.

(** C39: printf is safe when it is called with arguments of the kinds its format
    asks for, a number for each of %d %u %x %p %c and their long forms, a string
    for each %s: it never fetches an argument that is missing or of the other
    kind, no number overflows its buffer, and the text is printed. *)
Theorem printf_safe (fmt : list Z) (ap : list varg)
  (Hf : format_takes (length fmt) fmt (kind_of <$> ap) = true) : is_Some (sprintf fmt ap).
Proof. by apply format_prints. Qed.

Lemma printf_safe_witness : is_Some (sprintf (lit "pid %d: %s %lx\n") [VInt 3; VStr None; VInt (-1)]).
Proof. apply (printf_safe (lit "pid %d: %s %lx\n") [VInt 3; VStr None; VInt (-1)]); reflexivity. Defined.

Lemma printint_spec_witness :
  exists ds, printint (- 2 ^ 63) 10 true = Some ([ch "-"] ++ ds) /\
    canonical ds /\ numeral 10 ds = 2 ^ 63.
Proof. exact (printint_spec (- 2 ^ 63) 10 true (or_introl eq_refl) ltac:(lia)). Defined.

Example sprintf_unknown :
  sprintf (lit "%d %s: unknown sys call %d\n") [VInt 3; VStr (Some (lit "sh")); VInt (-7)] =
  Some (lit "3 sh: unknown sys call -7\n").
Proof. reflexivity. Qed.
