(* ===== verification/State.v ===== *)
(** The kernel's data (structs of kernel/proc.h, file.h, buf.h, fs.h, log.c,
    pipe.c, sleeplock.h, constants of param.h).

    One [kstate] holds the global variables of the kernel as the executing CPU
    sees them.  Pointers into a static array are indices ([option nat], [None]
    is NULL); a pointer to a kalloc()ed page is its physical address (0 is
    NULL), and the pages used as a trapframe or a pipe have a typed view in
    [k_tf] and [k_pipes]. *)
From stdpp Require Import base gmap list strings.
From Stdlib Require Import ZArith Lia ZifyBool.
From S2P Require Import Prelude Memory.

Local Open Scope Z_scope.

(** ** Constants (param.h, proc.h, riscv.h, fs.h, pipe.c) *)

Definition NPROC : nat := 64.
Definition NOFILE : nat := 16.
Definition NFILE : nat := 100.
Definition NINODE : nat := 50.
Definition NDEV : Z := 10.
Definition ROOTDEV : Z := 1.
Definition MAXARG : nat := 32.
Definition MAXOPBLOCKS : Z := 10.
Definition LOGBLOCKS : Z := MAXOPBLOCKS * 3.
Definition NBUF : nat := Z.to_nat (MAXOPBLOCKS * 3).
Definition MAXPATH : Z := 128.
Definition NSIG : nat := 32.
Definition IPC_MAX_MSG : Z := 64.
Definition PROC_NAME_MAX : Z := 16.
Definition PGSIZE : Z := 4096.
Definition BSIZE : Z := 1024.
Definition NDIRECT : Z := 12.
Definition NINDIRECT : Z := BSIZE / 4.
Definition MAXFILE : Z := NDIRECT + NINDIRECT.
Definition DIRSIZ : Z := 14.
Definition PIPESIZE : Z := 512.

(** memlayout.h: RAM used by the kernel *)
Definition KERNBASE : Z := 0x80000000.
Definition PHYSTOP : Z := KERNBASE + 128 * 1024 * 1024.

(** ** Data *)

(** enum procstate *)
Inductive procstate := UNUSED | USED | SLEEPING | RUNNABLE | RUNNING | ZOMBIE.

#[export] Instance procstate_eq_dec : EqDecision procstate.
Proof. solve_decision. Defined.

(** The C value of an enumerator. *)
Definition procstate_Z (s : procstate) : Z :=
  match s with
  | UNUSED => 0 | USED => 1 | SLEEPING => 2 | RUNNABLE => 3 | RUNNING => 4 | ZOMBIE => 5
  end.

(** The two arrays whose elements embed a sleep-lock. *)
Inductive slid := SlBuf (i : nat) | SlInode (i : nat).

#[export] Instance slid_eq_dec : EqDecision slid.
Proof. solve_decision. Defined.

(** A [void *] used as a sleep channel, by the object whose address it is. *)
Inductive chan :=
| ChNull
| ChProc (i : nat)
| ChTicks
| ChLog
| ChNread (pi : Z)
| ChNwrite (pi : Z)
| ChSleep (l : slid)
| ChCons
| ChTx
| ChVdisk
| ChBuf (b : nat).

#[export] Instance chan_eq_dec : EqDecision chan.
Proof. solve_decision. Defined.

(** The kernel's spinlocks, by the variable or struct they are part of. *)
Inductive lockid :=
| LPid
| LWait
| LProc (i : nat)
| LKmem
| LTicks
| LFtable
| LItable
| LBcache
| LLog
| LSleep (l : slid)
| LPipe (pi : Z)
| LCons
| LTx
| LVdisk.

#[export] Instance lockid_eq_dec : EqDecision lockid.
Proof. solve_decision. Defined.

(** struct trapframe, as the 36 words of its layout; [tfreg] names the ones
    the kernel's C code uses, [tf_idx] is the offset the comments of proc.h
    give, divided by 8. *)
Notation trapframe := (list Z) (only parsing).

Inductive tfreg :=
| Tkernel_satp | Tkernel_sp | Tkernel_trap | Tepc | Tkernel_hartid | Tsp
| Ta0 | Ta1 | Ta2 | Ta3 | Ta4 | Ta5 | Ta7.

Definition tf_words : nat := 36.

Definition tf_idx (r : tfreg) : nat :=
  match r with
  | Tkernel_satp => 0 | Tkernel_sp => 1 | Tkernel_trap => 2 | Tepc => 3
  | Tkernel_hartid => 4 | Tsp => 6 | Ta0 => 14 | Ta1 => 15 | Ta2 => 16
  | Ta3 => 17 | Ta4 => 18 | Ta5 => 19 | Ta7 => 21
  end.

Definition tf_get (r : tfreg) (tf : trapframe) : Z := nth (tf_idx r) tf 0.
Definition tf_set (r : tfreg) (v : Z) (tf : trapframe) : trapframe := <[tf_idx r := v]> tf.

(** struct context: saved registers for kernel context switches *)
Record context := mkcontext {
  ctx_ra : Z;
  ctx_sp : Z;
  ctx_s : list Z  (** s0 .. s11, callee-saved *)
}.

#[export] Instance eta_context : Eta context :=
  fun r => mkcontext (ctx_ra r) (ctx_sp r) (ctx_s r).
#[export] Instance set_ctx_ra : SetField ctx_ra := ltac:(setter).
#[export] Instance set_ctx_sp : SetField ctx_sp := ltac:(setter).
#[export] Instance set_ctx_s : SetField ctx_s := ltac:(setter).

(** struct proc (its spinlock is the lock identifier [LProc]) *)
Record proc := mkproc {
  p_state : procstate;  (** Process state *)
  p_chan : chan;  (** If non-null, sleeping on chan *)
  p_killed : Z;  (** If non-zero, have been killed *)
  p_xstate : Z;  (** Exit status for the parent's wait *)
  p_pid : Z;  (** Process ID *)
  p_fork_count : Z;  (** number of children created *)
  p_parent : option nat;  (** Parent process *)
  p_kstack : Z;  (** Virtual address of kernel stack *)
  p_sz : Z;  (** Size of process memory (bytes) *)
  p_pagetable : Z;  (** User page table, 0 if none *)
  p_trapframe : Z;  (** Physical address of the trapframe page, 0 if none *)
  p_context : context;  (** swtch() here to run process *)
  p_ofile : list (option nat);  (** Open files *)
  p_cwd : option nat;  (** Current directory *)
  p_name : list Z;  (** char name[16] *)
  p_pending_signals : Z;  (** Bitmap of pending signals *)
  p_signal_handlers : list Z;  (** uint64 signal_handlers[NSIG] *)
  p_saved_trapframe : trapframe;  (** Backup of trapframe during signal execution *)
  p_handling_signal : Z;
  p_ipc_ready : Z;
  p_ipc_len : Z;
  p_ipc_msg : list Z  (** char ipc_msg[IPC_MAX_MSG] *)
}.

#[export] Instance eta_proc : Eta proc :=
  fun r => mkproc (p_state r) (p_chan r) (p_killed r) (p_xstate r) (p_pid r)
    (p_fork_count r) (p_parent r) (p_kstack r) (p_sz r) (p_pagetable r) (p_trapframe r)
    (p_context r) (p_ofile r) (p_cwd r) (p_name r) (p_pending_signals r)
    (p_signal_handlers r) (p_saved_trapframe r) (p_handling_signal r) (p_ipc_ready r)
    (p_ipc_len r) (p_ipc_msg r).
#[export] Instance set_p_state : SetField p_state := ltac:(setter).
#[export] Instance set_p_chan : SetField p_chan := ltac:(setter).
#[export] Instance set_p_killed : SetField p_killed := ltac:(setter).
#[export] Instance set_p_xstate : SetField p_xstate := ltac:(setter).
#[export] Instance set_p_pid : SetField p_pid := ltac:(setter).
#[export] Instance set_p_fork_count : SetField p_fork_count := ltac:(setter).
#[export] Instance set_p_parent : SetField p_parent := ltac:(setter).
#[export] Instance set_p_kstack : SetField p_kstack := ltac:(setter).
#[export] Instance set_p_sz : SetField p_sz := ltac:(setter).
#[export] Instance set_p_pagetable : SetField p_pagetable := ltac:(setter).
#[export] Instance set_p_trapframe : SetField p_trapframe := ltac:(setter).
#[export] Instance set_p_context : SetField p_context := ltac:(setter).
#[export] Instance set_p_ofile : SetField p_ofile := ltac:(setter).
#[export] Instance set_p_cwd : SetField p_cwd := ltac:(setter).
#[export] Instance set_p_name : SetField p_name := ltac:(setter).
#[export] Instance set_p_pending_signals : SetField p_pending_signals := ltac:(setter).
#[export] Instance set_p_signal_handlers : SetField p_signal_handlers := ltac:(setter).
#[export] Instance set_p_saved_trapframe : SetField p_saved_trapframe := ltac:(setter).
#[export] Instance set_p_handling_signal : SetField p_handling_signal := ltac:(setter).
#[export] Instance set_p_ipc_ready : SetField p_ipc_ready := ltac:(setter).
#[export] Instance set_p_ipc_len : SetField p_ipc_len := ltac:(setter).
#[export] Instance set_p_ipc_msg : SetField p_ipc_msg := ltac:(setter).

(** struct sleeplock (its spinlock is the lock identifier [LSleep]) *)
Record sleeplock := mksleeplock {
  sl_locked : Z;  (** Is the lock held? *)
  sl_pid : Z  (** Process holding lock *)
}.

#[export] Instance eta_sleeplock : Eta sleeplock :=
  fun r => mksleeplock (sl_locked r) (sl_pid r).
#[export] Instance set_sl_locked : SetField sl_locked := ltac:(setter).
#[export] Instance set_sl_pid : SetField sl_pid := ltac:(setter).

(** struct buf; [b_prev] and [b_next] are indices into the buffer array *)
Record buf := mkbuf {
  b_valid : Z;  (** has data been read from disk? *)
  b_disk : Z;  (** does disk own buf? *)
  b_dev : Z;
  b_blockno : Z;
  b_lock : sleeplock;
  b_refcnt : Z;
  b_prev : nat;  (** LRU cache list *)
  b_next : nat;
  b_data : list Z  (** uchar data[BSIZE] *)
}.

#[export] Instance eta_buf : Eta buf :=
  fun r => mkbuf (b_valid r) (b_disk r) (b_dev r) (b_blockno r) (b_lock r) (b_refcnt r)
    (b_prev r) (b_next r) (b_data r).
#[export] Instance set_b_valid : SetField b_valid := ltac:(setter).
#[export] Instance set_b_disk : SetField b_disk := ltac:(setter).
#[export] Instance set_b_dev : SetField b_dev := ltac:(setter).
#[export] Instance set_b_blockno : SetField b_blockno := ltac:(setter).
#[export] Instance set_b_lock : SetField b_lock := ltac:(setter).
#[export] Instance set_b_refcnt : SetField b_refcnt := ltac:(setter).
#[export] Instance set_b_prev : SetField b_prev := ltac:(setter).
#[export] Instance set_b_next : SetField b_next := ltac:(setter).
#[export] Instance set_b_data : SetField b_data := ltac:(setter).

(** struct inode: in-memory copy of an inode *)
Record inode := mkinode {
  i_dev : Z;  (** Device number *)
  i_inum : Z;  (** Inode number *)
  i_ref : Z;  (** Reference count *)
  i_lock : sleeplock;  (** protects everything below here *)
  i_valid : Z;  (** inode has been read from disk? *)
  i_type : Z;  (** copy of disk inode *)
  i_major : Z;
  i_minor : Z;
  i_nlink : Z;
  i_size : Z;
  i_addrs : list Z  (** uint addrs[NDIRECT+1] *)
}.

#[export] Instance eta_inode : Eta inode :=
  fun r => mkinode (i_dev r) (i_inum r) (i_ref r) (i_lock r) (i_valid r) (i_type r)
    (i_major r) (i_minor r) (i_nlink r) (i_size r) (i_addrs r).
#[export] Instance set_i_dev : SetField i_dev := ltac:(setter).
#[export] Instance set_i_inum : SetField i_inum := ltac:(setter).
#[export] Instance set_i_ref : SetField i_ref := ltac:(setter).
#[export] Instance set_i_lock : SetField i_lock := ltac:(setter).
#[export] Instance set_i_valid : SetField i_valid := ltac:(setter).
#[export] Instance set_i_type : SetField i_type := ltac:(setter).
#[export] Instance set_i_major : SetField i_major := ltac:(setter).
#[export] Instance set_i_minor : SetField i_minor := ltac:(setter).
#[export] Instance set_i_nlink : SetField i_nlink := ltac:(setter).
#[export] Instance set_i_size : SetField i_size := ltac:(setter).
#[export] Instance set_i_addrs : SetField i_addrs := ltac:(setter).

(** The anonymous enum of struct file. *)
Inductive fdtype := FD_NONE | FD_PIPE | FD_INODE | FD_DEVICE.

#[export] Instance fdtype_eq_dec : EqDecision fdtype.
Proof. solve_decision. Defined.

(** struct file *)
Record file := mkfile {
  f_type : fdtype;
  f_ref : Z;  (** reference count *)
  f_readable : Z;
  f_writable : Z;
  f_pipe : Z;  (** FD_PIPE: address of the pipe page *)
  f_ip : option nat;  (** FD_INODE and FD_DEVICE *)
  f_off : Z;  (** FD_INODE *)
  f_major : Z  (** FD_DEVICE *)
}.

#[export] Instance eta_file : Eta file :=
  fun r => mkfile (f_type r) (f_ref r) (f_readable r) (f_writable r) (f_pipe r) (f_ip r)
    (f_off r) (f_major r).
#[export] Instance set_f_type : SetField f_type := ltac:(setter).
#[export] Instance set_f_ref : SetField f_ref := ltac:(setter).
#[export] Instance set_f_readable : SetField f_readable := ltac:(setter).
#[export] Instance set_f_writable : SetField f_writable := ltac:(setter).
#[export] Instance set_f_pipe : SetField f_pipe := ltac:(setter).
#[export] Instance set_f_ip : SetField f_ip := ltac:(setter).
#[export] Instance set_f_off : SetField f_off := ltac:(setter).
#[export] Instance set_f_major : SetField f_major := ltac:(setter).

(** struct pipe *)
Record pipe := mkpipe {
  pi_data : list Z;  (** char data[PIPESIZE] *)
  pi_nread : Z;  (** number of bytes read *)
  pi_nwrite : Z;  (** number of bytes written *)
  pi_readopen : Z;  (** read fd is still open *)
  pi_writeopen : Z  (** write fd is still open *)
}.

#[export] Instance eta_pipe : Eta pipe :=
  fun r => mkpipe (pi_data r) (pi_nread r) (pi_nwrite r) (pi_readopen r) (pi_writeopen
    r).
#[export] Instance set_pi_data : SetField pi_data := ltac:(setter).
#[export] Instance set_pi_nread : SetField pi_nread := ltac:(setter).
#[export] Instance set_pi_nwrite : SetField pi_nwrite := ltac:(setter).
#[export] Instance set_pi_readopen : SetField pi_readopen := ltac:(setter).
#[export] Instance set_pi_writeopen : SetField pi_writeopen := ltac:(setter).

(** struct superblock *)
Record superblock := mksuperblock {
  sb_magic : Z;  (** Must be FSMAGIC *)
  sb_size : Z;  (** Size of file system image (blocks) *)
  sb_nblocks : Z;  (** Number of data blocks *)
  sb_ninodes : Z;  (** Number of inodes *)
  sb_nlog : Z;  (** Number of log blocks *)
  sb_logstart : Z;  (** Block number of first log block *)
  sb_inodestart : Z;  (** Block number of first inode block *)
  sb_bmapstart : Z  (** Block number of first free map block *)
}.

#[export] Instance eta_superblock : Eta superblock :=
  fun r => mksuperblock (sb_magic r) (sb_size r) (sb_nblocks r) (sb_ninodes r) (sb_nlog
    r) (sb_logstart r) (sb_inodestart r) (sb_bmapstart r).
#[export] Instance set_sb_magic : SetField sb_magic := ltac:(setter).
#[export] Instance set_sb_size : SetField sb_size := ltac:(setter).
#[export] Instance set_sb_nblocks : SetField sb_nblocks := ltac:(setter).
#[export] Instance set_sb_ninodes : SetField sb_ninodes := ltac:(setter).
#[export] Instance set_sb_nlog : SetField sb_nlog := ltac:(setter).
#[export] Instance set_sb_logstart : SetField sb_logstart := ltac:(setter).
#[export] Instance set_sb_inodestart : SetField sb_inodestart := ltac:(setter).
#[export] Instance set_sb_bmapstart : SetField sb_bmapstart := ltac:(setter).

(** struct logheader *)
Record logheader := mklogheader {
  lh_n : Z;
  lh_block : list Z  (** int block[LOGBLOCKS] *)
}.

#[export] Instance eta_logheader : Eta logheader :=
  fun r => mklogheader (lh_n r) (lh_block r).
#[export] Instance set_lh_n : SetField lh_n := ltac:(setter).
#[export] Instance set_lh_block : SetField lh_block := ltac:(setter).

(** struct log *)
Record logstate := mklogstate {
  l_start : Z;
  l_outstanding : Z;  (** how many FS sys calls are executing *)
  l_committing : Z;  (** in commit(), please wait *)
  l_dev : Z;
  l_lh : logheader
}.

#[export] Instance eta_logstate : Eta logstate :=
  fun r => mklogstate (l_start r) (l_outstanding r) (l_committing r) (l_dev r) (l_lh r).
#[export] Instance set_l_start : SetField l_start := ltac:(setter).
#[export] Instance set_l_outstanding : SetField l_outstanding := ltac:(setter).
#[export] Instance set_l_committing : SetField l_committing := ltac:(setter).
#[export] Instance set_l_dev : SetField l_dev := ltac:(setter).
#[export] Instance set_l_lh : SetField l_lh := ltac:(setter).

(** The control registers riscv.h reads and writes *)
Record csrs := mkcsrs {
  sstatus : Z;
  sepc : Z;
  scause : Z;
  stval : Z;
  stvec : Z;
  satp : Z;
  tp : Z;  (** this core's hartid *)
  stimecmp : Z;
  time : Z
}.

#[export] Instance eta_csrs : Eta csrs :=
  fun r => mkcsrs (sstatus r) (sepc r) (scause r) (stval r) (stvec r) (satp r) (tp r)
    (stimecmp r) (time r).
#[export] Instance set_sstatus : SetField sstatus := ltac:(setter).
#[export] Instance set_sepc : SetField sepc := ltac:(setter).
#[export] Instance set_scause : SetField scause := ltac:(setter).
#[export] Instance set_stval : SetField stval := ltac:(setter).
#[export] Instance set_stvec : SetField stvec := ltac:(setter).
#[export] Instance set_satp : SetField satp := ltac:(setter).
#[export] Instance set_tp : SetField tp := ltac:(setter).
#[export] Instance set_stimecmp : SetField stimecmp := ltac:(setter).
#[export] Instance set_time : SetField time := ltac:(setter).

(** The input buffer of console.c, struct cons *)
Record consbuf := mkconsbuf {
  cs_buf : list Z;  (** char buf[INPUT_BUF_SIZE] *)
  cs_r : Z;  (** Read index *)
  cs_w : Z;  (** Write index *)
  cs_e : Z  (** Edit index *)
}.

#[export] Instance eta_consbuf : Eta consbuf :=
  fun r => mkconsbuf (cs_buf r) (cs_r r) (cs_w r) (cs_e r).
#[export] Instance set_cs_buf : SetField cs_buf := ltac:(setter).
#[export] Instance set_cs_r : SetField cs_r := ltac:(setter).
#[export] Instance set_cs_w : SetField cs_w := ltac:(setter).
#[export] Instance set_cs_e : SetField cs_e := ltac:(setter).

(** A physical address given to the disk, by the object it is the address of. *)
Inductive dma_addr :=
| DmaNull
| DmaOp (i : nat)      (** &disk.ops[i] *)
| DmaData (b : nat)    (** the data of buffer [b] *)
| DmaStatus (i : nat). (** &disk.info[i].status *)

(** struct virtq_desc *)
Record vdesc := mkvdesc {
  vq_addr : dma_addr;
  vq_len : Z;
  vq_flags : Z;
  vq_next : Z
}.

#[export] Instance eta_vdesc : Eta vdesc :=
  fun r => mkvdesc (vq_addr r) (vq_len r) (vq_flags r) (vq_next r).
#[export] Instance set_vq_addr : SetField vq_addr := ltac:(setter).
#[export] Instance set_vq_len : SetField vq_len := ltac:(setter).
#[export] Instance set_vq_flags : SetField vq_flags := ltac:(setter).
#[export] Instance set_vq_next : SetField vq_next := ltac:(setter).

(** struct virtio_blk_req *)
Record blk_req := mkblk_req {
  rq_type : Z;  (** VIRTIO_BLK_T_IN or ..._OUT *)
  rq_reserved : Z;
  rq_sector : Z
}.

#[export] Instance eta_blk_req : Eta blk_req :=
  fun r => mkblk_req (rq_type r) (rq_reserved r) (rq_sector r).
#[export] Instance set_rq_type : SetField rq_type := ltac:(setter).
#[export] Instance set_rq_reserved : SetField rq_reserved := ltac:(setter).
#[export] Instance set_rq_sector : SetField rq_sector := ltac:(setter).

(** struct disk of virtio_disk.c, the rings included *)
Record vdisk := mkvdisk {
  vd_desc : list vdesc;  (** the DMA descriptors, *disk.desc *)
  vd_avail_idx : Z;  (** disk.avail->idx *)
  vd_avail_ring : list Z;  (** disk.avail->ring *)
  vd_dev_idx : Z;  (** disk.used->idx, incremented by the device *)
  vd_used_ring : list Z;  (** the ids of disk.used->ring *)
  vd_free : list Z;  (** is a descriptor free? *)
  vd_used_idx : Z;  (** we've looked this far in used *)
  vd_info_b : list (option nat);  (** info[].b *)
  vd_info_status : list Z;  (** info[].status *)
  vd_ops : list blk_req  (** disk command headers *)
}.

#[export] Instance eta_vdisk : Eta vdisk :=
  fun r => mkvdisk (vd_desc r) (vd_avail_idx r) (vd_avail_ring r) (vd_dev_idx r)
    (vd_used_ring r) (vd_free r) (vd_used_idx r) (vd_info_b r) (vd_info_status r) (vd_ops
    r).
#[export] Instance set_vd_desc : SetField vd_desc := ltac:(setter).
#[export] Instance set_vd_avail_idx : SetField vd_avail_idx := ltac:(setter).
#[export] Instance set_vd_avail_ring : SetField vd_avail_ring := ltac:(setter).
#[export] Instance set_vd_dev_idx : SetField vd_dev_idx := ltac:(setter).
#[export] Instance set_vd_used_ring : SetField vd_used_ring := ltac:(setter).
#[export] Instance set_vd_free : SetField vd_free := ltac:(setter).
#[export] Instance set_vd_used_idx : SetField vd_used_idx := ltac:(setter).
#[export] Instance set_vd_info_b : SetField vd_info_b := ltac:(setter).
#[export] Instance set_vd_info_status : SetField vd_info_status := ltac:(setter).
#[export] Instance set_vd_ops : SetField vd_ops := ltac:(setter).

(** The kernel's state as one CPU sees it *)
Record kstate := mkkstate {
  k_mem : mem;  (** physical memory *)
  k_freelist : Z;  (** kmem.freelist: address of the first free page, 0 if none *)
  k_procs : list proc;  (** struct proc proc[NPROC] *)
  k_initproc : option nat;
  k_nextpid : Z;
  k_cur : option nat;  (** mycpu()->proc *)
  k_locks : list lockid;  (** spinlocks held by this CPU, innermost first *)
  k_csr : csrs;
  k_ticks : Z;
  k_tf : gmap Z trapframe;  (** trapframe pages in use, by physical address *)
  k_pipes : gmap Z pipe;  (** pipe pages in use, by physical address *)
  k_ftable : list file;  (** ftable.file *)
  k_itable : list inode;  (** itable.inode *)
  k_bufs : list buf;  (** bcache.buf, then bcache.head at index NBUF *)
  k_disk : gmap Z (list Z);  (** disk blocks *)
  k_log : logstate;
  k_sb : superblock;
  k_cons : list Z;  (** characters printf sent to the console *)
  k_kpgtbl : Z;  (** kernel_pagetable of vm.c *)
  k_first : Z;  (** the static variable first of forkret *)
  k_console : consbuf;
  k_tx_busy : Z;  (** tx_busy of uart.c *)
  k_vdisk : vdisk  (** disk of virtio_disk.c *)
}.

#[export] Instance eta_kstate : Eta kstate :=
  fun r => mkkstate (k_mem r) (k_freelist r) (k_procs r) (k_initproc r) (k_nextpid r)
    (k_cur r) (k_locks r) (k_csr r) (k_ticks r) (k_tf r) (k_pipes r) (k_ftable r)
    (k_itable r) (k_bufs r) (k_disk r) (k_log r) (k_sb r) (k_cons r) (k_kpgtbl r) (k_first
    r) (k_console r) (k_tx_busy r) (k_vdisk r).
#[export] Instance set_k_mem : SetField k_mem := ltac:(setter).
#[export] Instance set_k_freelist : SetField k_freelist := ltac:(setter).
#[export] Instance set_k_procs : SetField k_procs := ltac:(setter).
#[export] Instance set_k_initproc : SetField k_initproc := ltac:(setter).
#[export] Instance set_k_nextpid : SetField k_nextpid := ltac:(setter).
#[export] Instance set_k_cur : SetField k_cur := ltac:(setter).
#[export] Instance set_k_locks : SetField k_locks := ltac:(setter).
#[export] Instance set_k_csr : SetField k_csr := ltac:(setter).
#[export] Instance set_k_ticks : SetField k_ticks := ltac:(setter).
#[export] Instance set_k_tf : SetField k_tf := ltac:(setter).
#[export] Instance set_k_pipes : SetField k_pipes := ltac:(setter).
#[export] Instance set_k_ftable : SetField k_ftable := ltac:(setter).
#[export] Instance set_k_itable : SetField k_itable := ltac:(setter).
#[export] Instance set_k_bufs : SetField k_bufs := ltac:(setter).
#[export] Instance set_k_disk : SetField k_disk := ltac:(setter).
#[export] Instance set_k_log : SetField k_log := ltac:(setter).
#[export] Instance set_k_sb : SetField k_sb := ltac:(setter).
#[export] Instance set_k_cons : SetField k_cons := ltac:(setter).
#[export] Instance set_k_kpgtbl : SetField k_kpgtbl := ltac:(setter).
#[export] Instance set_k_first : SetField k_first := ltac:(setter).
#[export] Instance set_k_console : SetField k_console := ltac:(setter).
#[export] Instance set_k_tx_busy : SetField k_tx_busy := ltac:(setter).
#[export] Instance set_k_vdisk : SetField k_vdisk := ltac:(setter).

(** [state_norm] computes the updates and projections of a kernel state. *)
Ltac state_norm :=
  cbv beta iota delta
    [set_field set_k_mem set_k_freelist set_k_procs set_k_initproc set_k_nextpid set_k_cur
    set_k_locks set_k_csr set_k_ticks set_k_tf set_k_pipes set_k_ftable set_k_itable
    set_k_bufs set_k_disk set_k_log set_k_sb set_k_cons set_k_kpgtbl set_k_first
    set_k_console set_k_tx_busy set_k_vdisk k_mem k_freelist k_procs k_initproc k_nextpid
    k_cur k_locks k_csr k_ticks k_tf k_pipes k_ftable k_itable k_bufs k_disk k_log k_sb
    k_cons k_kpgtbl k_first k_console k_tx_busy k_vdisk].

(** Two states written with different updates are the same. *)
Ltac state_eq :=
  repeat match goal with s : kstate |- _ => destruct s end; state_norm; simpl; try done.
