(* ===== verification/Monad.v ===== *)
(** The monad the kernel's code runs in, its loops and its accessors.

    Code is a function of the state and of an oracle: the list of what the
    rest of the machine does to the state during each of the times this
    process is switched out.  [swtch] takes the next entry; with none left the
    process has not been scheduled again and the result is [Blocked] with the
    state at the switch. *)
From stdpp Require Import base gmap list strings.
From Stdlib Require Import ZArith Lia ZifyBool.
From S2P Require Import Prelude Memory KPrintf State.

Local Open Scope Z_scope.

(** ** The monad *)

(** What the machine does to the state while a process is switched out. *)
Abbreviation oracle := (list (kstate -> kstate)).

Inductive outcome (A : Type) :=
| Ok (a : A) (s : kstate) (o : oracle)  (** the call returned *)
| Panic (msg : string)                  (** panic(msg) *)
| Blocked (s : kstate)                  (** switched out, not scheduled again yet *)
| Fault                                 (** undefined behaviour: a wild or NULL access *)
| NoFuel.                               (** the bound of a loop was reached *)
Arguments Ok {_} _ _ _.
Arguments Panic {_} _.
Arguments Blocked {_} _.
Arguments Fault {_}.
Arguments NoFuel {_}.

Definition K (A : Type) : Type := kstate -> oracle -> outcome A.

#[export] Instance K_ret : MRet K := fun A a s o => Ok a s o.

#[export] Instance K_bind : MBind K := fun A B f m s o =>
  match m s o with
  | Ok a s' o' => f a s' o'
  | Panic msg => Panic msg
  | Blocked s' => Blocked s'
  | Fault => Fault
  | NoFuel => NoFuel
  end.

Definition gets {A} (f : kstate -> A) : K A := fun s o => Ok (f s) s o.
Definition modify (f : kstate -> kstate) : K unit := fun s o => Ok tt (f s) o.
Definition panic {A} (msg : string) : K A := fun _ _ => Panic msg.
Definition fault {A} : K A := fun _ _ => Fault.
Definition nofuel {A} : K A := fun _ _ => NoFuel.
Definition from_option_K {A} (x : option A) : K A :=
  match x with Some a => mret a | None => fault end.

(** [if(b) m] with no else branch. *)
Definition kwhen (b : bool) (m : K unit) : K unit := if b then m else mret tt.

(** A for loop over [l] with loop variables [st]; [inr r] leaves it early
    (break, goto or return). *)
Fixpoint kfor {A St R} (l : list A) (body : A -> St -> K (St + R)) (st : St) : K (St + R) :=
  match l with
  | [] => mret (inl st)
  | a :: l' =>
      x ← body a st;
      match x with
      | inl st' => kfor l' body st'
      | inr r => mret (inr r)
      end
  end.

(** The same without early exit or loop variables. *)
Fixpoint kfor_ {A} (l : list A) (body : A -> K unit) : K unit :=
  match l with
  | [] => mret tt
  | a :: l' => body a ;; kfor_ l' body
  end.

(** [n] iterations of a loop body, fewer when it leaves the loop; the count is
    binary so that a generous bound costs nothing to evaluate. *)
Fixpoint kiter {St R} (n : positive) (body : St -> K (St + R)) (st : St) : K (St + R) :=
  let again (m : positive) (x : St + R) :=
    match x with inl st' => kiter m body st' | inr r => mret (inr r) end in
  match n with
  | xH => body st
  | xO n' => kiter n' body st ≫= again n'
  | xI n' => body st ≫= (fun x =>
      match x with
      | inl st' => kiter n' body st' ≫= again n'
      | inr r => mret (inr r)
      end)
  end.

(** A while loop run for at most [n] iterations of [body]. *)
Definition kloop {St R} (n : N) (body : St -> K (St + R)) (st : St) : K R :=
  match n with
  | N0 => nofuel
  | Npos n' =>
      x ← kiter n' body st;
      match x with
      | inr r => mret r
      | inl _ => nofuel
      end
  end.

(** A loop every iteration of which that does not leave it sleeps: it makes at
    most one iteration more than the oracle has entries. *)
Definition ksleeploop {St R} (body : St -> K (St + R)) (st : St) : K R :=
  fun s o => kloop (N.of_nat (S (length o))) body st s o.

(** ** Accessors *)

Definition pget (i : nat) : K proc :=
  procs ← gets k_procs; from_option_K (procs !! i).

Definition upd {A} (i : nat) (f : A -> A) (l : list A) : list A := alter f i l.

(** [p->field = v] for [p = &proc[i]]. *)
Definition pset (i : nat) (f : proc -> proc) : K unit :=
  _ ← pget i;
  modify (fun s => (s <| k_procs ::= upd i f |>)%rec).

(** printf: the characters kernel/printf.c sends to the console. *)
Definition printf (fmt : string) (ap : list varg) : K unit :=
  out ← from_option_K (sprintf (lit fmt) ap);
  modify (fun s => (s <| k_cons ::= fun c => c ++ out |>)%rec).

(** The typed view of a page given by kalloc(): what its bytes hold. *)
Definition tf_load (m : mem) (pa : Z) : trapframe :=
  (fun i => load64 m (pa + 8 * Z.of_nat i)) <$> seq 0 tf_words.

(** [*(p->trapframe)] through the pointer [pa]. *)
Definition tfget (pa : Z) : K trapframe :=
  tfs ← gets k_tf; from_option_K (tfs !! pa).

Definition tfset (pa : Z) (f : trapframe -> trapframe) : K unit :=
  tf ← tfget pa;
  modify (fun s => (s <| k_tf ::= fun m => <[pa := f tf]> m |>)%rec).

(** ** Spinlocks as the rest of the kernel uses them

    [k_locks] is the list of spinlocks this CPU holds.  Taking a lock the CPU
    already holds and releasing one it does not hold panic, as in spinlock.c;
    waiting for another CPU to release a lock takes no step of this CPU.  The
    file Spinlock shows that the code of spinlock.c implements this: the
    length of the list is [noff], interrupts are off while it is not empty. *)

Fixpoint remove_lock (lk : lockid) (l : list lockid) : list lockid :=
  match l with
  | [] => []
  | x :: l' => if decide (x = lk) then l' else x :: remove_lock lk l'
  end.

(** initlock makes the lock free. *)
Definition initlock (lk : lockid) : K unit :=
  modify (fun s => (s <| k_locks ::= remove_lock lk |>)%rec).

Definition acquire (lk : lockid) : K unit :=
  locks ← gets k_locks;
  if bool_decide (lk ∈ locks) then panic "acquire"
  else modify (fun s => (s <| k_locks ::= cons lk |>)%rec).

Definition release (lk : lockid) : K unit :=
  locks ← gets k_locks;
  if bool_decide (lk ∈ locks) then modify (fun s => (s <| k_locks ::= remove_lock lk |>)%rec)
  else panic "release".

(** The memory-mapped registers of the devices (UART, interrupt controller,
    virtio disk): hardware, not part of the sources. *)
Class Mmio := {
  mmio_read : Z -> K Z;          (** [*(volatile T * )addr] *)
  mmio_write : Z -> Z -> K unit; (** [*(volatile T * )addr = v] *)
  mmio_polls : N                 (** a bound on the polls of a device that is waited for *)
}.

(** What the linker script provides (kernel.ld) and the addresses of the
    assembly entry points. *)
Class Linker := {
  kend : Z;           (** extern char end[] *)
  etext : Z;          (** extern char etext[] *)
  trampoline : Z;     (** extern char trampoline[] *)
  uservec_off : Z;    (** uservec - trampoline *)
  userret_off : Z;    (** userret - trampoline *)
  forkret_addr : Z;   (** (uint64)forkret *)
  usertrap_addr : Z;  (** (uint64)usertrap *)
  kernelvec_addr : Z  (** (uint64)kernelvec *)
}.

(** ** Reasoning: running a bind, a lock, an update *)

Lemma bind_ok {A B} (m : K A) (f : A -> K B) s o a s' o' :
  m s o = Ok a s' o' -> (m ≫= f) s o = f a s' o'.
Proof. intros H; unfold mbind, K_bind; rewrite H; done. Qed.

Lemma bind_inv {A B} (m : K A) (f : A -> K B) s o b s2 o2 :
  (m ≫= f) s o = Ok b s2 o2 ->
  exists a s1 o1, m s o = Ok a s1 o1 /\ f a s1 o1 = Ok b s2 o2.
Proof. unfold mbind, K_bind; destruct (m s o) eqn:E; naive_solver. Qed.

Lemma ret_ok {A} (a : A) s o : (mret a : K A) s o = Ok a s o.
Proof. done. Qed.

Lemma gets_bind {A B} (g : kstate -> A) (f : A -> K B) s o :
  (gets g ≫= f) s o = f (g s) s o.
Proof. done. Qed.

Lemma modify_bind {B} (g : kstate -> kstate) (f : unit -> K B) s o :
  (modify g ≫= f) s o = f tt (g s) o.
Proof. done. Qed.

Lemma bind_assoc {A B C} (m : K A) (f : A -> K B) (g : B -> K C) s o :
  ((m ≫= f) ≫= g) s o = (m ≫= (fun x => f x ≫= g)) s o.
Proof. unfold mbind, K_bind; destruct (m s o); done. Qed.

Lemma acquire_ok lk s o :
  lk ∉ k_locks s -> acquire lk s o = Ok tt (s <| k_locks ::= cons lk |>)%rec o.
Proof. intros; unfold acquire; rewrite gets_bind, bool_decide_eq_false_2; done. Qed.

Lemma remove_lock_cons lk l : remove_lock lk (lk :: l) = l.
Proof. simpl; rewrite decide_True; done. Qed.

Lemma remove_lock_id lk l : lk ∉ l -> remove_lock lk l = l.
Proof.
  induction l as [| x l IH]; simpl; [done |]; intros Hn.
  rewrite decide_False by set_solver; f_equal; apply IH; set_solver.
Qed.

Lemma initlock_ok lk s o : lk ∉ k_locks s -> initlock lk s o = Ok tt s o.
Proof.
  intros H; unfold initlock, modify, set_field, set_k_locks; rewrite (remove_lock_id lk) by done.
  destruct s; done.
Qed.

(** A critical section that changes nothing. *)
Lemma lock_unlock lk s :
  (s <| k_locks ::= cons lk |> <| k_locks ::= remove_lock lk |> = s)%rec.
Proof. state_eq; rewrite decide_True by done; done. Qed.

Lemma release_ok lk s o :
  lk ∈ k_locks s -> release lk s o = Ok tt (s <| k_locks ::= remove_lock lk |>)%rec o.
Proof. intros; unfold release; rewrite gets_bind, bool_decide_eq_true_2; done. Qed.

Lemma pget_ok i p s o : k_procs s !! i = Some p -> pget i s o = Ok p s o.
Proof. intros H; unfold pget; rewrite gets_bind, H; done. Qed.

Lemma pset_ok i p f s o :
  k_procs s !! i = Some p -> pset i f s o = Ok tt (s <| k_procs ::= upd i f |>)%rec o.
Proof. intros H; unfold pset; erewrite bind_ok by (by apply pget_ok); done. Qed.

Lemma tfget_ok pa tf s o : k_tf s !! pa = Some tf -> tfget pa s o = Ok tf s o.
Proof. intros H; unfold tfget; rewrite gets_bind, H; done. Qed.

Lemma tfset_ok pa tf f s o :
  k_tf s !! pa = Some tf ->
  tfset pa f s o = Ok tt (s <| k_tf ::= fun m => <[pa := f tf]> m |>)%rec o.
Proof. intros H; unfold tfset; erewrite bind_ok by (by apply tfget_ok); done. Qed.

Lemma kfor_cons {A St R} a (l : list A) (body : A -> St -> K (St + R)) st s o :
  kfor (a :: l) body st s o =
  (x ← body a st;
   match x with inl st' => kfor l body st' | inr r => mret (inr r) end) s o.
Proof. done. Qed.

(** Unary view of [kiter], and the equation of a loop. *)
Lemma kfor_app {A St R} (l1 l2 : list A) (body : A -> St -> K (St + R)) st s o :
  kfor (l1 ++ l2) body st s o =
  (x ← kfor l1 body st;
   match x with inl st' => kfor l2 body st' | inr r => mret (inr r) end) s o.
Proof.
  revert st s o; induction l1 as [| a l1 IH]; intros st s o; simpl; [done |].
  rewrite bind_assoc; unfold mbind, K_bind; destruct (body a st s o) as [x s' o' | | | |]; try done.
  destruct x as [st' | r]; [| done]; rewrite IH; done.
Qed.

Lemma bind_ext {A B} (m1 m2 : K A) (f g : A -> K B) s o :
  m1 s o = m2 s o -> (forall a s' o', f a s' o' = g a s' o') ->
  (m1 ≫= f) s o = (m2 ≫= g) s o.
Proof. intros H1 H2; unfold mbind, K_bind; rewrite H1; destruct (m2 s o); auto. Qed.

Lemma kiter_kfor {St R} n (body : St -> K (St + R)) st s o :
  kiter n body st s o = kfor (replicate (Pos.to_nat n) tt) (fun _ => body) st s o.
Proof.
  assert (Hrep : forall n', replicate (Pos.to_nat (xO n')) tt =
    replicate (Pos.to_nat n') tt ++ replicate (Pos.to_nat n') tt).
  { intros n'; rewrite <- replicate_add; f_equal; lia. }
  revert st s o; induction n as [n IH | n IH |]; intros st s o.
  - replace (Pos.to_nat n~1) with (S (Pos.to_nat n~0)) by lia.
    simpl; apply bind_ext; [done |]; intros [st' | r] s' o'; [| done].
    rewrite Hrep, kfor_app; apply bind_ext; [apply IH |].
    intros [st'' | r] s'' o''; [apply IH | done].
  - rewrite Hrep, kfor_app; simpl; apply bind_ext; [apply IH |].
    intros [st'' | r] s'' o''; [apply IH | done].
  - change (Pos.to_nat 1) with 1%nat; simpl.
    unfold mbind, K_bind; destruct (body st s o) as [[? | ?] | | | |]; done.
Qed.

Lemma kloop_succ {St R} n (body : St -> K (St + R)) st s o :
  kloop (N.succ n) body st s o =
  (x ← body st; match x with inl st' => kloop n body st' | inr r => mret r end) s o.
Proof.
  unfold kloop; destruct n as [| n]; simpl.
  - unfold mbind, K_bind; destruct (body st s o) as [[? | ?] | | | |]; done.
  - unfold mbind at 1, K_bind at 1; rewrite kiter_kfor, Pos2Nat.inj_succ; simpl.
    unfold mbind, K_bind; destruct (body st s o) as [[st' | ?] | | | |]; try done.
    rewrite kiter_kfor; done.
Qed.

Arguments kfor : simpl never.
Arguments kfor_ : simpl never.
Arguments kiter : simpl never.
Arguments kloop : simpl never.

Lemma kfor_nil {A St R} (body : A -> St -> K (St + R)) st s o :
  kfor [] body st s o = Ok (inl st) s o.
Proof. done. Qed.

Lemma kfor__nil {A} (body : A -> K unit) s o : kfor_ [] body s o = Ok tt s o.
Proof. done. Qed.

Lemma kfor__cons {A} a (l : list A) body s o :
  kfor_ (a :: l) body s o = (body a ;; kfor_ l body) s o.
Proof. done. Qed.

(** A loop that counts from 0 to [n] and then leaves, with an invariant. *)
Lemma kloop_count {R} (body : Z -> K (Z + R)) (P : Z -> kstate -> Prop) (Q : kstate -> Prop) n r m s o :
  0 <= n -> (Z.to_N n < m)%N ->
  (forall i s, 0 <= i < n -> P i s ->
     exists s', body i s o = Ok (inl (i + 1)) s' o /\ P (i + 1) s') ->
  (forall s, P n s -> exists s', body n s o = Ok (inr r) s' o /\ Q s') ->
  P 0 s -> exists s', kloop m body 0 s o = Ok r s' o /\ Q s'.
Proof.
  intros Hn Hm Hb He.
  assert (Hgen : forall k i m s, i + Z.of_nat k = n -> 0 <= i -> (N.of_nat k < m)%N -> P i s ->
    exists s', kloop m body i s o = Ok r s' o /\ Q s').
  { induction k as [| k IH]; intros i m' s' Hi H0 Hm' HP;
      (destruct m' as [| m' _] using N.peano_ind; [lia |]); rewrite kloop_succ.
    - replace i with n in * by lia; destruct (He s' HP) as (s'' & Hr & HQ).
      erewrite bind_ok by exact Hr; exists s''; done.
    - destruct (Hb i s') as (s'' & Hr & HP'); [lia | done |].
      erewrite bind_ok by exact Hr; cbn iota; apply IH; [lia | lia | lia | done]. }
  intros HP; apply (Hgen (Z.to_nat n) 0 m s); [lia | lia | lia | done].
Qed.

(** ksleeploop when the first iteration leaves the loop. *)
Lemma ksleeploop_ret {St R} (body : St -> K (St + R)) st r s o s' o' :
  body st s o = Ok (inr r) s' o' -> ksleeploop body st s o = Ok r s' o'.
Proof.
  intros Hb; unfold ksleeploop; rewrite Nat2N.inj_succ, kloop_succ.
  erewrite bind_ok by exact Hb; done.
Qed.

Lemma ksleeploop_again {St R} (body : St -> K (St + R)) st st' s e o s' :
  body st s (e :: o) = Ok (inl st') s' o -> ksleeploop body st s (e :: o) = ksleeploop body st' s' o.
Proof.
  intros Hb; unfold ksleeploop; cbn [length]; rewrite (Nat2N.inj_succ (S (length o))), kloop_succ.
  erewrite bind_ok by exact Hb; done.
Qed.

Lemma ksleeploop_blocked {St R} (body : St -> K (St + R)) st s o s' :
  body st s o = Blocked s' -> ksleeploop body st s o = Blocked s'.
Proof.
  intros Hb; unfold ksleeploop; rewrite Nat2N.inj_succ, kloop_succ.
  unfold mbind, K_bind; rewrite Hb; done.
Qed.

(** A loop whose first iteration ends in [m]. *)
Lemma ksleeploop_tail {St R} (body : St -> K (St + R)) st (m : K R) s o s' o' :
  body st s o = (v ← m; mret (inr v)) s' o' -> ksleeploop body st s o = m s' o'.
Proof.
  intros Hb; unfold ksleeploop; rewrite Nat2N.inj_succ, kloop_succ.
  unfold mbind at 1, K_bind at 1; rewrite Hb; unfold mbind, K_bind.
  destruct (m s' o'); done.
Qed.

(** Execute the head of a monadic program with the lemma [e] that runs it. *)
Ltac step_with e := erewrite bind_ok; [| eapply e; simpl; try done; try set_solver].
