(* ===== verification/Spinlock.v ===== *)
(** Spinlocks, kernel/spinlock.c, on a machine with several CPUs.

    push_off, pop_off, holding and initlock are functions of the CPU's and the
    lock's fields.  acquire and release are sequences of steps, one per access
    to a lock's fields, which the CPUs interleave freely; [pc] says where in
    them a CPU is.  The ghost component [mc_held] lists the locks a CPU holds.
    The theorems show that two CPUs never hold a lock at once, and that this
    list is the abstract lock state that the rest of the development uses: a
    CPU's view [k_locks] with the operations of the file Monad. *)
From stdpp Require Import base functions gmap list strings.
From Stdlib Require Import ZArith Lia ZifyBool.
From S2P Require Import Prelude Memory KPrintf State Monad.

Local Open Scope Z_scope.

(** ** Data *)

(** struct spinlock *)
Record spinlock := mkspinlock {
  sp_locked : Z;        (** Is the lock held? *)
  sp_cpu : option nat   (** The cpu holding the lock, NULL if none *)
}.

(** struct cpu, without the scheduler's fields, and its SIE bit *)
Record cpu := mkcpu {
  c_noff : Z;      (** Depth of push_off() nesting *)
  c_intena : bool; (** Were interrupts enabled before push_off()? *)
  c_sie : bool     (** SSTATUS_SIE *)
}.

(** Where a CPU is in acquire or release. *)
Inductive pc :=
| Run                       (** elsewhere *)
| AcqTest (lk : lockid)     (** acquire: holding() reads lk->locked *)
| AcqTest2 (lk : lockid)    (** acquire: holding() reads lk->cpu *)
| AcqSpin (lk : lockid)     (** acquire: the test-and-set loop *)
| AcqOwn (lk : lockid)      (** acquire: lk->cpu = mycpu() *)
| RelTest (lk : lockid)     (** release: holding() reads lk->locked *)
| RelTest2 (lk : lockid)    (** release: holding() reads lk->cpu *)
| RelClear (lk : lockid)    (** release: lk->cpu = 0 *)
| RelStore (lk : lockid)    (** release: lk->locked = 0 *)
| RelPop                    (** release: pop_off() *)
| Panicked (msg : string).

(** ** Operations *)

Definition initlock : spinlock := mkspinlock 0 None.

Definition push_off (c : cpu) : cpu :=
  let old := c_sie c in
  let intena := if c_noff c =? 0 then old else c_intena c in
  mkcpu (c_noff c + 1) intena false.

Definition pop_off (c : cpu) : string + cpu :=
  if c_sie c then inl "pop_off - interruptible"%string
  else if c_noff c <? 1 then inl "pop_off"%string
  else
    let noff := c_noff c - 1 in
    inr (mkcpu noff (c_intena c) ((noff =? 0) && c_intena c)).

(** holding(lk) on CPU [me], when nothing intervenes. *)
Definition holding (me : nat) (lk : spinlock) : bool :=
  negb (sp_locked lk =? 0) && bool_decide (sp_cpu lk = Some me).

(** ** The machine *)

Record machine := mkmachine {
  mc_lock : lockid -> spinlock;
  mc_cpu : nat -> cpu;
  mc_pc : nat -> pc;
  mc_held : nat -> list lockid
}.

Definition at_pc (c : nat) (x : pc) (m : machine) : machine :=
  mkmachine (mc_lock m) (mc_cpu m) (<[c := x]> (mc_pc m)) (mc_held m).
Definition set_lock (lk : lockid) (v : spinlock) (m : machine) : machine :=
  mkmachine (<[lk := v]> (mc_lock m)) (mc_cpu m) (mc_pc m) (mc_held m).
Definition set_cpu (c : nat) (v : cpu) (m : machine) : machine :=
  mkmachine (mc_lock m) (<[c := v]> (mc_cpu m)) (mc_pc m) (mc_held m).
Definition set_held (c : nat) (l : list lockid) (m : machine) : machine :=
  mkmachine (mc_lock m) (mc_cpu m) (mc_pc m) (<[c := l]> (mc_held m)).

(** What CPU [c] calls next when it is not in spinlock.c. *)
Inductive call := CAcquire (lk : lockid) | CRelease (lk : lockid) | CIntr (on : bool).

(** The next step of CPU [c]; [k] is its next call when it is at [Run]. *)
Definition cpu_step (c : nat) (k : call) (m : machine) : machine :=
  match mc_pc m c with
  | Run =>
      match k with
      | CAcquire lk => at_pc c (AcqTest lk) (set_cpu c (push_off (mc_cpu m c)) m)
      | CRelease lk => at_pc c (RelTest lk) m
      | CIntr on =>
          (* intr_on and intr_off outside of push_off sections *)
          if c_noff (mc_cpu m c) =? 0
          then set_cpu c (mkcpu (c_noff (mc_cpu m c)) (c_intena (mc_cpu m c)) on) m else m
      end
  | AcqTest lk => at_pc c (if sp_locked (mc_lock m lk) =? 0 then AcqSpin lk else AcqTest2 lk) m
  | AcqTest2 lk =>
      at_pc c (if bool_decide (sp_cpu (mc_lock m lk) = Some c)
               then Panicked "acquire"%string else AcqSpin lk) m
  | AcqSpin lk =>
      let old := sp_locked (mc_lock m lk) in
      at_pc c (if old =? 0 then AcqOwn lk else AcqSpin lk)
        (set_lock lk (mkspinlock 1 (sp_cpu (mc_lock m lk))) m)
  | AcqOwn lk =>
      at_pc c Run (set_held c (lk :: mc_held m c)
        (set_lock lk (mkspinlock (sp_locked (mc_lock m lk)) (Some c)) m))
  | RelTest lk =>
      at_pc c (if sp_locked (mc_lock m lk) =? 0 then Panicked "release"%string else RelTest2 lk) m
  | RelTest2 lk =>
      at_pc c (if bool_decide (sp_cpu (mc_lock m lk) = Some c)
               then RelClear lk else Panicked "release"%string) m
  | RelClear lk =>
      at_pc c (RelStore lk) (set_lock lk (mkspinlock (sp_locked (mc_lock m lk)) None) m)
  | RelStore lk =>
      at_pc c RelPop (set_held c (remove_lock lk (mc_held m c))
        (set_lock lk (mkspinlock 0 (sp_cpu (mc_lock m lk))) m))
  | RelPop =>
      match pop_off (mc_cpu m c) with
      | inl msg => at_pc c (Panicked msg) m
      | inr v => at_pc c Run (set_cpu c v m)
      end
  | Panicked _ => m
  end.

(** All locks free, no CPU in spinlock.c, interrupts as they may be. *)
Definition boot (sie : nat -> bool) : machine :=
  mkmachine (fun _ => initlock) (fun c => mkcpu 0 false (sie c)) (fun _ => Run) (fun _ => []).

(** Interleavings: at every step some CPU moves. *)
Inductive reach (sie : nat -> bool) : machine -> Prop :=
| reach_boot : reach sie (boot sie)
| reach_step m c k : reach sie m -> reach sie (cpu_step c k m).

(** ** The invariant *)

(** push_off() calls of CPU [c] that belong to no held lock. *)
Definition pend (x : pc) : Z :=
  match x with
  | AcqTest _ | AcqTest2 _ | AcqSpin _ | AcqOwn _ | RelPop => 1
  | Panicked msg => if bool_decide (msg = "acquire"%string) then 1 else 0
  | _ => 0
  end.

(** CPU [c] has the lock: it is on its list, or about to be recorded. *)
Definition owns (m : machine) (c : nat) (lk : lockid) : Prop :=
  lk ∈ mc_held m c \/ mc_pc m c = AcqOwn lk.

(** What the program counter of a CPU implies. *)
Definition pc_ok (m : machine) (c : nat) : Prop :=
  match mc_pc m c with
  | AcqTest2 lk | AcqSpin lk | AcqTest lk => True
  | AcqOwn lk => lk ∉ mc_held m c
  | RelClear lk | RelStore lk => lk ∈ mc_held m c
  | Panicked msg => msg = "acquire"%string \/ msg = "release"%string
  | _ => True
  end.

(** A held lock whose cpu field release() has not yet cleared. *)
Definition recorded (m : machine) (c : nat) (lk : lockid) : Prop :=
  lk ∈ mc_held m c /\ mc_pc m c <> RelStore lk.

Record lock_inv (m : machine) : Prop := {
  inv_01 : forall lk, sp_locked (mc_lock m lk) = 0 \/ sp_locked (mc_lock m lk) = 1;
  inv_locked : forall lk, sp_locked (mc_lock m lk) = 1 <-> exists c, owns m c lk;
  inv_excl : forall lk c c', owns m c lk -> owns m c' lk -> c = c';
  inv_cpu : forall lk c, sp_cpu (mc_lock m lk) = Some c <-> recorded m c lk;
  inv_nodup : forall c, NoDup (mc_held m c);
  inv_pc : forall c, pc_ok m c;
  inv_noff : forall c, c_noff (mc_cpu m c) = Z.of_nat (length (mc_held m c)) + pend (mc_pc m c);
  inv_sie : forall c, 0 < c_noff (mc_cpu m c) -> c_sie (mc_cpu m c) = false
}.

(** Look through the updates of one CPU or lock. *)
Ltac upd_cases :=
  repeat match goal with
  | |- context [(<[?a := _]> _) ?a] => rewrite fn_lookup_insert
  | H : ?a <> ?b |- context [(<[?a := _]> _) ?b] => rewrite fn_lookup_insert_ne by done
  | |- context [(<[?a := _]> _) ?b] => destruct (decide (a = b)) as [<- |]
  end.

Lemma lock_inv_boot sie : lock_inv (boot sie).
Proof.
  constructor; unfold owns, recorded; simpl; try done; try set_solver.
  - by left.
Qed.

(** A step of CPU [c] that moves between program points other than those at
    which a lock's owner changes. *)
Lemma lock_inv_local m m' c :
  lock_inv m ->
  (forall lk, mc_lock m' lk = mc_lock m lk) -> (forall d, mc_held m' d = mc_held m d) ->
  (forall d, d <> c -> mc_pc m' d = mc_pc m d /\ mc_cpu m' d = mc_cpu m d) ->
  (forall lk, mc_pc m c <> AcqOwn lk /\ mc_pc m' c <> AcqOwn lk /\
              mc_pc m c <> RelStore lk /\ mc_pc m' c <> RelStore lk) ->
  pc_ok m' c ->
  c_noff (mc_cpu m' c) = Z.of_nat (length (mc_held m c)) + pend (mc_pc m' c) ->
  (0 < c_noff (mc_cpu m' c) -> c_sie (mc_cpu m' c) = false) ->
  lock_inv m'.
Proof.
  intros HI Hlk Hheld Hoth Hpc Hok Hnoff Hsie.
  assert (Hown : forall d lk, owns m' d lk <-> owns m d lk).
  { intros d lk; unfold owns; rewrite Hheld; destruct (decide (d = c)) as [-> | Hne].
    - destruct (Hpc lk) as (? & ? & _); naive_solver.
    - destruct (Hoth d Hne) as [-> _]; done. }
  assert (Hrec : forall d lk, recorded m' d lk <-> recorded m d lk).
  { intros d lk; unfold recorded; rewrite Hheld; destruct (decide (d = c)) as [-> | Hne].
    - destruct (Hpc lk) as (_ & _ & ? & ?); naive_solver.
    - destruct (Hoth d Hne) as [-> _]; done. }
  constructor.
  - intros lk; rewrite Hlk; apply HI.
  - intros lk; rewrite Hlk, (inv_locked m HI); setoid_rewrite Hown; done.
  - intros lk d d'; rewrite !Hown; apply HI.
  - intros lk d; rewrite Hlk, Hrec; apply HI.
  - intros d; rewrite Hheld; apply HI.
  - intros d; destruct (decide (d = c)) as [-> | Hne]; [done |].
    pose proof (inv_pc m HI d) as Hd; unfold pc_ok in *; destruct (Hoth d Hne) as [-> _].
    rewrite Hheld; done.
  - intros d; rewrite Hheld; destruct (decide (d = c)) as [-> | Hne]; [done |].
    destruct (Hoth d Hne) as [-> ->]; apply HI.
  - intros d; destruct (decide (d = c)) as [-> | Hne]; [done |].
    destruct (Hoth d Hne) as [_ ->]; apply HI.
Qed.

(** The test-and-set that finds the lock free. *)
Lemma lock_inv_take m c lk :
  lock_inv m -> mc_pc m c = AcqSpin lk -> sp_locked (mc_lock m lk) = 0 ->
  lock_inv (at_pc c (AcqOwn lk) (set_lock lk (mkspinlock 1 (sp_cpu (mc_lock m lk))) m)).
Proof.
  intros HI Hpc Hfree.
  assert (Hno : forall d, ~ owns m d lk).
  { intros d Hd; assert (sp_locked (mc_lock m lk) = 1) by (apply HI; eauto); lia. }
  assert (Hown : forall d l, owns (at_pc c (AcqOwn lk)
      (set_lock lk (mkspinlock 1 (sp_cpu (mc_lock m lk))) m)) d l <->
      owns m d l \/ (d = c /\ l = lk)).
  { intros d l; unfold owns; simpl; upd_cases; [| naive_solver].
    rewrite Hpc; naive_solver. }
  constructor.
  - intros l; simpl; upd_cases; [by right | apply HI].
  - intros l; setoid_rewrite Hown; simpl; upd_cases; [naive_solver |].
    rewrite (inv_locked m HI); naive_solver.
  - intros l d d'; rewrite !Hown; intros [H1 | [-> ->]] [H2 | [-> ?]]; subst; try done.
    + by eapply (inv_excl m HI).
    + by apply Hno in H1.
    + by apply Hno in H2.
  - intros l d; unfold recorded; simpl.
    replace (sp_cpu (<[lk := _]> (mc_lock m) l)) with (sp_cpu (mc_lock m l)) by (upd_cases; done).
    rewrite (inv_cpu m HI); unfold recorded; upd_cases; [rewrite Hpc; naive_solver | done].
  - intros d; apply HI.
  - intros d; pose proof (inv_pc m HI d) as Hd; unfold pc_ok in *; simpl; upd_cases; [| done].
    intros Hin; apply (Hno c); by left.
  - intros d; simpl; rewrite (inv_noff m HI); upd_cases; [by rewrite Hpc | done].
  - intros d; apply HI.
Qed.

(** lk->cpu = mycpu(). *)
Lemma lock_inv_record m c lk :
  lock_inv m -> mc_pc m c = AcqOwn lk ->
  lock_inv (at_pc c Run (set_held c (lk :: mc_held m c)
    (set_lock lk (mkspinlock (sp_locked (mc_lock m lk)) (Some c)) m))).
Proof.
  intros HI Hpc; assert (Hmine : owns m c lk) by (by right).
  assert (Hnin : lk ∉ mc_held m c) by (pose proof (inv_pc m HI c) as Hp; unfold pc_ok in Hp;
    by rewrite Hpc in Hp).
  set (m' := at_pc _ _ _).
  assert (Hown : forall d l, owns m' d l <-> owns m d l).
  { intros d l; unfold owns, m'; simpl; upd_cases; [| done].
    rewrite Hpc, elem_of_cons; naive_solver. }
  assert (Hlock : forall l, sp_locked (mc_lock m' l) = sp_locked (mc_lock m l))
    by (intros l; unfold m'; simpl; upd_cases; done).
  constructor.
  - intros l; rewrite Hlock; apply HI.
  - intros l; rewrite Hlock, (inv_locked m HI); setoid_rewrite Hown; done.
  - intros l d d'; rewrite !Hown; apply HI.
  - intros l d; unfold recorded, m'; simpl; upd_cases; simpl.
    + rewrite elem_of_cons; naive_solver.
    + split; [naive_solver |]; intros [Hin _].
      destruct (inv_excl m HI lk d c); [by left | done | done].
    + rewrite (inv_cpu m HI); unfold recorded; rewrite Hpc, elem_of_cons; naive_solver.
    + apply HI.
  - intros d; unfold m'; simpl; upd_cases; [| apply HI]; constructor; [done | apply HI].
  - intros d; pose proof (inv_pc m HI d) as Hd; unfold pc_ok, m' in *; simpl; upd_cases; done.
  - intros d; unfold m'; simpl; rewrite (inv_noff m HI); upd_cases; [rewrite Hpc; simpl; lia | done].
  - intros d; apply HI.
Qed.

(** lk->cpu = 0. *)
Lemma lock_inv_clear m c lk :
  lock_inv m -> mc_pc m c = RelClear lk ->
  lock_inv (at_pc c (RelStore lk) (set_lock lk (mkspinlock (sp_locked (mc_lock m lk)) None) m)).
Proof.
  intros HI Hpc; set (m' := at_pc _ _ _).
  assert (Hin : lk ∈ mc_held m c) by (pose proof (inv_pc m HI c) as Hp; unfold pc_ok in Hp;
    by rewrite Hpc in Hp).
  assert (Hown : forall d l, owns m' d l <-> owns m d l).
  { intros d l; unfold owns, m'; simpl; upd_cases; [| done]; rewrite Hpc; naive_solver. }
  assert (Hlock : forall l, sp_locked (mc_lock m' l) = sp_locked (mc_lock m l))
    by (intros l; unfold m'; simpl; upd_cases; done).
  constructor.
  - intros l; rewrite Hlock; apply HI.
  - intros l; rewrite Hlock, (inv_locked m HI); setoid_rewrite Hown; done.
  - intros l d d'; rewrite !Hown; apply HI.
  - intros l d; unfold recorded, m'; simpl; upd_cases; simpl.
    + naive_solver.
    + split; [done |]; intros [Hd _]; destruct (inv_excl m HI lk d c); [by left | by left | done].
    + rewrite (inv_cpu m HI); unfold recorded; rewrite Hpc; naive_solver.
    + apply HI.
  - intros d; apply HI.
  - intros d; pose proof (inv_pc m HI d) as Hd; unfold pc_ok, m' in *; simpl; upd_cases; done.
  - intros d; unfold m'; simpl; rewrite (inv_noff m HI); upd_cases; [by rewrite Hpc | done].
  - intros d; apply HI.
Qed.

Lemma elem_of_remove_lock lk l x : NoDup l -> x ∈ remove_lock lk l <-> x ∈ l /\ x <> lk.
Proof.
  induction l as [| y l IH]; intros Hd; simpl; [set_solver |].
  apply NoDup_cons in Hd as [Hy Hd]; specialize (IH Hd).
  destruct (decide (y = lk)); subst; set_solver.
Qed.

Lemma NoDup_remove_lock lk l : NoDup l -> NoDup (remove_lock lk l).
Proof.
  induction l as [| y l IH]; intros Hd; simpl; [done |].
  pose proof Hd as Hd'; apply NoDup_cons in Hd as [Hy Hd]; destruct (decide (y = lk)); [done |].
  constructor; [rewrite elem_of_remove_lock by done; naive_solver | auto].
Qed.

Lemma length_remove_lock lk l : lk ∈ l -> length l = S (length (remove_lock lk l)).
Proof.
  induction l as [| y l IH]; [set_solver |]; intros Hin; simpl.
  destruct (decide (y = lk)); [done |]; simpl; f_equal; apply IH; set_solver.
Qed.

(** lk->locked = 0: the lock is free. *)
Lemma lock_inv_free m c lk :
  lock_inv m -> mc_pc m c = RelStore lk ->
  lock_inv (at_pc c RelPop (set_held c (remove_lock lk (mc_held m c))
    (set_lock lk (mkspinlock 0 (sp_cpu (mc_lock m lk))) m))).
Proof.
  intros HI Hpc; set (m' := at_pc _ _ _).
  assert (Hin : lk ∈ mc_held m c) by (pose proof (inv_pc m HI c) as Hp; unfold pc_ok in Hp;
    by rewrite Hpc in Hp).
  assert (Hmine : forall d, owns m d lk -> d = c)
    by (intros d Hd; apply (inv_excl m HI lk); [done | by left]).
  pose proof (fun l x => elem_of_remove_lock l (mc_held m c) x (inv_nodup m HI c)) as Hrm.
  assert (Hown : forall d l, owns m' d l <-> owns m d l /\ l <> lk).
  { intros d l; unfold owns, m'; simpl; upd_cases.
    - rewrite Hrm, Hpc; naive_solver.
    - split; [intros Ho; split; [done |]; intros ->; by apply Hmine in Ho | naive_solver]. }
  assert (Hother : forall l, l <> lk -> mc_lock m' l = mc_lock m l)
    by (intros l Hl; unfold m'; simpl; by upd_cases).
  constructor.
  - intros l; unfold m'; simpl; upd_cases; [by left | apply HI].
  - intros l; setoid_rewrite Hown; unfold m'; simpl; upd_cases; [naive_solver |].
    rewrite (inv_locked m HI); naive_solver.
  - intros l d d'; rewrite !Hown; intros [H1 _] [H2 _]; by eapply (inv_excl m HI).
  - intros l d; unfold recorded, m'; simpl.
    replace (sp_cpu (<[lk := _]> (mc_lock m) l)) with (sp_cpu (mc_lock m l)) by (upd_cases; done).
    rewrite (inv_cpu m HI); unfold recorded; upd_cases; [| done].
    rewrite Hrm, Hpc; naive_solver.
  - intros d; unfold m'; simpl; upd_cases; [| apply HI]; apply NoDup_remove_lock, HI.
  - intros d; pose proof (inv_pc m HI d) as Hd; unfold pc_ok, m' in *; simpl; upd_cases; done.
  - intros d; unfold m'; simpl; rewrite (inv_noff m HI); upd_cases; [| done].
    rewrite Hpc, (length_remove_lock lk (mc_held m c)) by done; simpl; lia.
  - intros d; apply HI.
Qed.

Lemma pend_nonneg x : 0 <= pend x.
Proof. destruct x; simpl; try lia; case_bool_decide; lia. Qed.

(** A move of the program counter alone. *)
Lemma lock_inv_move m c x :
  lock_inv m ->
  (forall lk, mc_pc m c <> AcqOwn lk /\ x <> AcqOwn lk /\ mc_pc m c <> RelStore lk /\ x <> RelStore lk) ->
  pc_ok (at_pc c x m) c -> pend x = pend (mc_pc m c) ->
  lock_inv (at_pc c x m).
Proof.
  intros HI Hx Hok Hpend; apply (lock_inv_local m _ c HI); try done; simpl.
  - intros d Hd; by upd_cases.
  - intros l; upd_cases; apply Hx.
  - rewrite fn_lookup_insert, Hpend; apply HI.
  - apply HI.
Qed.

(** What pop_off finds at the end of release. *)
Lemma pop_off_ok m c :
  lock_inv m -> mc_pc m c = RelPop ->
  exists v, pop_off (mc_cpu m c) = inr v /\ c_noff v = Z.of_nat (length (mc_held m c)) /\
    (0 < c_noff v -> c_sie v = false).
Proof.
  intros HI Hpc; pose proof (inv_noff m HI c) as Hn; rewrite Hpc in Hn; simpl in Hn.
  unfold pop_off; rewrite (inv_sie m HI c) by lia.
  destruct (Z.ltb_spec (c_noff (mc_cpu m c)) 1); [lia |].
  eexists; split; [done |]; simpl; split; [lia |]; intros; destruct (Z.eqb_spec (c_noff (mc_cpu m c) - 1) 0); [lia | done].
Qed.

Lemma lock_inv_call m c k : lock_inv m -> mc_pc m c = Run -> lock_inv (cpu_step c k m).
Proof.
  intros HI Hpc; pose proof (inv_noff m HI c) as Hn; unfold cpu_step; rewrite Hpc in *.
  simpl in Hn; destruct k as [lk | lk | on].
  - apply (lock_inv_local m _ c HI); try done; simpl; unfold pc_ok; simpl; upd_cases; try done.
    + intros d Hd; upd_cases; done.
    + intros l; upd_cases; rewrite Hpc; done.
    + simpl; lia.
  - apply lock_inv_move; try done; [rewrite Hpc; done | unfold pc_ok; simpl; by upd_cases | by rewrite Hpc].
  - destruct (Z.eqb_spec (c_noff (mc_cpu m c)) 0); [| done].
    apply (lock_inv_local m _ c HI); try done; simpl; unfold pc_ok; simpl; rewrite ?Hpc; upd_cases;
      simpl; try done; try lia.
    intros d Hd; upd_cases; done.
Qed.

Lemma lock_inv_step m c k : lock_inv m -> lock_inv (cpu_step c k m).
Proof.
  intros HI; destruct (mc_pc m c) as [| lk | lk | lk | lk | lk | lk | lk | lk | | msg] eqn:Hpc;
    [by apply lock_inv_call | ..]; unfold cpu_step; rewrite Hpc.
  - destruct (_ =? 0); apply lock_inv_move; rewrite ?Hpc; try done; unfold pc_ok; simpl; by upd_cases.
  - destruct (bool_decide _); apply lock_inv_move; rewrite ?Hpc; try done; unfold pc_ok; simpl;
      upd_cases; auto.
  - destruct (Z.eqb_spec (sp_locked (mc_lock m lk)) 0); [by apply lock_inv_take |].
    destruct (inv_01 m HI lk); [lia |].
    apply (lock_inv_local m _ c HI); simpl; try done.
    + intros l; upd_cases; [| done]; destruct (mc_lock m lk); simpl in *; by subst.
    + intros d Hd; by upd_cases.
    + intros l; upd_cases; rewrite Hpc; done.
    + unfold pc_ok; simpl; by upd_cases.
    + upd_cases; rewrite (inv_noff m HI), Hpc; done.
    + apply HI.
  - by apply lock_inv_record.
  - destruct (_ =? 0); apply lock_inv_move; rewrite ?Hpc; try done; unfold pc_ok; simpl; upd_cases; auto.
  - case_bool_decide as Hc; apply lock_inv_move; rewrite ?Hpc; try done; unfold pc_ok; simpl;
      upd_cases; [| auto].
    apply (inv_cpu m HI) in Hc as [Hc _]; done.
  - by apply lock_inv_clear.
  - by apply lock_inv_free.
  - destruct (pop_off_ok m c HI Hpc) as (v & -> & Hn & Hs).
    apply (lock_inv_local m _ c HI); simpl; try done; unfold pc_ok; simpl; upd_cases; try done.
    + intros d Hd; by upd_cases.
    + intros l; upd_cases; rewrite Hpc; done.
    + simpl; lia.
  - done.
Qed.

Lemma reach_inv sie m : reach sie m -> lock_inv m.
Proof. induction 1; [apply lock_inv_boot | by apply lock_inv_step]. Qed.

(** A CPU is inside acquire(): past its push_off(), testing, spinning or about
    to record itself. *)
Definition taking (x : pc) : bool :=
  match x with AcqTest _ | AcqTest2 _ | AcqSpin _ | AcqOwn _ => true | _ => false end.

Lemma taking_pend x : taking x = true -> pend x = 1.
Proof. by destruct x. Qed.

(** C20: mutual exclusion.  However the CPUs' accesses to the locks interleave,
    at most one CPU has a lock (it holds it, or its test-and-set has succeeded
    and it is about to record itself in lk->cpu); lk->locked is 1 exactly while
    some CPU has the lock and 0 exactly while none has it; lk->cpu names a CPU
    exactly while that CPU holds the lock and release() has not cleared the
    field; noff counts the locks held plus the push_off() of an acquire() or
    release() under way; and interrupts are off on every CPU that holds a lock or is
    anywhere inside acquire(), spinning included. *)
Theorem spinlock_mutual_exclusion (sie : nat -> bool) (m : machine) (Hm : reach sie m) :
  (forall lk c c', owns m c lk -> owns m c' lk -> c = c') /\
  (forall lk, (sp_locked (mc_lock m lk) = 1 <-> exists c, owns m c lk) /\
              (sp_locked (mc_lock m lk) = 0 <-> forall c, ~ owns m c lk)) /\
  (forall lk c, sp_cpu (mc_lock m lk) = Some c <-> lk ∈ mc_held m c /\ mc_pc m c <> RelStore lk) /\
  (forall c, c_noff (mc_cpu m c) = Z.of_nat (length (mc_held m c)) + pend (mc_pc m c)) /\
  (forall c, mc_held m c <> [] \/ taking (mc_pc m c) = true -> c_sie (mc_cpu m c) = false).
Proof.
  apply reach_inv in Hm as HI; split_and!; [apply HI | | apply HI | apply HI |].
  - intros lk; split; [apply HI |]; pose proof (inv_locked m HI lk) as H1; split.
    + intros E c Hc; assert (sp_locked (mc_lock m lk) = 1) by (apply H1; eauto); lia.
    + intros Hno; destruct (inv_01 m HI lk) as [| E]; [done |]; apply H1 in E as [c Hc]; by apply Hno in Hc.
  - intros c Hc; apply (inv_sie m HI); rewrite (inv_noff m HI); pose proof (pend_nonneg (mc_pc m c)).
    destruct Hc as [Hne | Ht]; [destruct (mc_held m c); [done | simpl; lia] | apply taking_pend in Ht; lia].
Qed.

(** The abstract operations of the file Monad on the list of held locks:
    [None] is a panic. *)
Definition abs_acquire (lk : lockid) (l : list lockid) : option (list lockid) :=
  if bool_decide (lk ∈ l) then None else Some (lk :: l).
Definition abs_release (lk : lockid) (l : list lockid) : option (list lockid) :=
  if bool_decide (lk ∈ l) then Some (remove_lock lk l) else None.

(** They are what acquire and release of the file Monad do to [k_locks]. *)
Lemma acquire_abs lk s o :
  acquire lk s o = match abs_acquire lk (k_locks s) with
                   | Some l => Ok tt (s <| k_locks := l |>)%rec o
                   | None => Panic "acquire"
                   end.
Proof. unfold acquire, abs_acquire; rewrite gets_bind; destruct (bool_decide _); done. Qed.

Lemma release_abs lk s o :
  release lk s o = match abs_release lk (k_locks s) with
                   | Some l => Ok tt (s <| k_locks := l |>)%rec o
                   | None => Panic "release"
                   end.
Proof. unfold release, abs_release; rewrite gets_bind; destruct (bool_decide _); done. Qed.

(** holding() answers by the list, at the points where it is called. *)
Lemma holding_spec m c lk :
  lock_inv m -> mc_pc m c <> RelStore lk ->
  holding c (mc_lock m lk) = bool_decide (lk ∈ mc_held m c).
Proof.
  intros HI Hpc; unfold holding; apply eq_true_iff_eq; rewrite bool_decide_eq_true.
  rewrite andb_true_iff, bool_decide_eq_true, (inv_cpu m HI); unfold recorded.
  split; [naive_solver |]; intros Hin; split; [| done].
  assert (sp_locked (mc_lock m lk) = 1) by (apply (inv_locked m HI); exists c; by left); lia.
Qed.

Lemma step_held m c k :
  lock_inv m ->
  let m' := cpu_step c k m in
  mc_held m' c = mc_held m c \/
  (exists lk, mc_pc m c = AcqOwn lk /\ abs_acquire lk (mc_held m c) = Some (mc_held m' c)) \/
  (exists lk, mc_pc m c = RelStore lk /\ abs_release lk (mc_held m c) = Some (mc_held m' c)).
Proof.
  intros HI m'; pose proof (inv_pc m HI c) as Hok; unfold m', cpu_step, pc_ok in *.
  destruct (mc_pc m c) as [| lk | lk | lk | lk | lk | lk | lk | lk | | msg]; try (by left).
  - left; destruct k; simpl; [done | done |]; destruct (_ =? 0); done.
  - right; left; exists lk; split; [done |]; simpl; upd_cases; unfold abs_acquire.
    rewrite bool_decide_eq_false_2 by done; done.
  - right; right; exists lk; split; [done |]; simpl; upd_cases; unfold abs_release.
    rewrite bool_decide_eq_true_2 by done; done.
  - left; destruct (pop_off _); done.
Qed.

Lemma step_panic m c k msg :
  lock_inv m -> mc_pc (cpu_step c k m) c = Panicked msg -> mc_pc m c <> Panicked msg ->
  (msg = "acquire"%string /\ exists lk, mc_pc m c = AcqTest2 lk /\ abs_acquire lk (mc_held m c) = None) \/
  (msg = "release"%string /\ exists lk, (mc_pc m c = RelTest lk \/ mc_pc m c = RelTest2 lk) /\
     abs_release lk (mc_held m c) = None).
Proof.
  intros HI; pose proof (fun lk => holding_spec m c lk HI) as Hh; unfold holding in Hh.
  unfold cpu_step; destruct (mc_pc m c) as [| lk | lk | lk | lk | lk | lk | lk | lk | | msg'] eqn:Hpc;
    simpl; rewrite ?fn_lookup_insert.
  - destruct k; simpl; rewrite ?fn_lookup_insert; [done | done |].
    destruct (_ =? 0); simpl; rewrite Hpc; done.
  - destruct (_ =? 0); done.
  - case_bool_decide as Hc; [| done]; intros [= <-] _; left; split; [done |]; exists lk; split; [done |].
    apply (inv_cpu m HI) in Hc as [Hc _]; unfold abs_acquire; by rewrite bool_decide_eq_true_2.
  - destruct (_ =? 0); done.
  - done.
  - destruct (_ =? 0) eqn:E; [| done]; intros [= <-] _; right; split; [done |]; exists lk.
    split; [by left |]; specialize (Hh lk ltac:(done)); rewrite E in Hh; unfold abs_release.
    by rewrite <- Hh.
  - case_bool_decide as Hc; [done |]; intros [= <-] _; right; split; [done |]; exists lk.
    split; [by right |]; unfold abs_release; rewrite <- Hh by done.
    rewrite (bool_decide_eq_false_2 (_ = Some c)), andb_false_r by done; done.
  - done.
  - done.
  - destruct (pop_off_ok m c HI Hpc) as (v & -> & _); simpl; rewrite fn_lookup_insert; done.
  - rewrite Hpc; done.
Qed.

(** C9: the code of spinlock.c implements the abstract locks.  Every step of a
    CPU leaves its list of held locks alone, or finishes an acquire with the
    abstract result, or passes the point of a release with the abstract
    result; it panics only where the abstract operation does (taking a lock it
    holds, releasing one it does not hold), never in pop_off; and no step of
    one CPU changes the list of another. *)
Theorem spinlock_refines (sie : nat -> bool) (m : machine) (c : nat) (k : call) (Hm : reach sie m) :
  let m' := cpu_step c k m in
  (forall d, d <> c -> mc_held m' d = mc_held m d) /\
  (mc_held m' c = mc_held m c \/
   (exists lk, mc_pc m c = AcqOwn lk /\ abs_acquire lk (mc_held m c) = Some (mc_held m' c)) \/
   (exists lk, mc_pc m c = RelStore lk /\ abs_release lk (mc_held m c) = Some (mc_held m' c))) /\
  (forall msg, mc_pc m' c = Panicked msg -> mc_pc m c <> Panicked msg ->
     (msg = "acquire"%string /\ exists lk, mc_pc m c = AcqTest2 lk /\ abs_acquire lk (mc_held m c) = None) \/
     (msg = "release"%string /\ exists lk, (mc_pc m c = RelTest lk \/ mc_pc m c = RelTest2 lk) /\
        abs_release lk (mc_held m c) = None)).
Proof.
  apply reach_inv in Hm as HI; intros m'; split; [| split].
  - intros d Hd; unfold m', cpu_step; destruct (mc_pc m c); simpl; try done; upd_cases; try done.
    + destruct k; simpl; [done | done |]; destruct (_ =? 0); done.
    + destruct (pop_off _); done.
  - by apply step_held.
  - intros msg; by apply step_panic.
Qed.

(** Two CPUs race for wait_lock: the second spins while the first holds it. *)
Definition demo_race : machine :=
  cpu_step 1 (CAcquire LWait) (cpu_step 1 (CAcquire LWait) (cpu_step 1 (CAcquire LWait)
 (cpu_step 0 (CAcquire LWait) (cpu_step 0 (CAcquire LWait) (cpu_step 0 (CAcquire LWait)
 (cpu_step 0 (CAcquire LWait) (boot (fun _ => true)))))))).

Lemma demo_race_reach : reach (fun _ => true) demo_race.
Proof. unfold demo_race; repeat constructor. Qed.

Lemma spinlock_mutual_exclusion_witness :
  mc_held demo_race 0 = [LWait] /\ mc_pc demo_race 1 = AcqSpin LWait /\
  c_noff (mc_cpu demo_race 0) = 1 /\ c_sie (mc_cpu demo_race 1) = false /\
  sp_locked (mc_lock demo_race LWait) = 1.
Proof.
  destruct (spinlock_mutual_exclusion (fun _ => true) demo_race demo_race_reach) as (_ & Hlk & _ & Hn & Hs).
  split; [reflexivity |]; split; [reflexivity |]; split; [exact (Hn 0%nat) |]; split.
  - apply Hs; right; reflexivity.
  - apply Hlk; exists 0%nat; left; vm_compute; constructor.
Defined.

Lemma spinlock_refines_witness :
  mc_held (cpu_step 1 (CAcquire LWait) demo_race) 0 = [LWait].
Proof.
  exact (proj1 (spinlock_refines (fun _ => true) demo_race 1 (CAcquire LWait) demo_race_reach)
    0%nat ltac:(lia)).
Defined.
