(* ===== verification/SleepSpec.v ===== *)
(** sleep() and wakeup() with every CPU and process running at once.

    The rest of the development follows one CPU from one context switch to the
    next.  Whether a wakeup can be lost is a question about the accesses of
    several CPUs in between, so this file takes the same functions apart: one
    step per lock operation and per access to p->state, p->chan and
    lk->locked, as in the file Spinlock, which the agents, that is the
    processes' kernel threads and the CPUs' scheduler threads, interleave
    freely.  The locks are the abstract ones that [spinlock_refines] of that
    file justifies: [w_owner] says who has a lock, [w_held] lists what an
    agent holds, an acquire() of a lock that another agent has spins.

    Modelled are sleep(), wakeup(), sched(), yield(), kkill() and scheduler()
    of kernel/proc.c, and their client acquiresleep() and releasesleep() of
    kernel/sleeplock.c.  A process may call, in any order, acquiresleep() of any
    lock, releasesleep() of a lock it has (as iunlock() and brelse() check) and
    kkill(), and the timer may make it yield() wherever it holds no lock.

    The theorem is the promise of the comment in sleep(): because p->lock is
    taken before the condition's lock is released, no wakeup is missed.  The
    proof is one invariant, kept by every step. *)
From stdpp Require Import base functions sets relations list strings.
From Stdlib Require Import ZArith Lia ZifyBool.
From S2P Require Import Prelude Memory KPrintf State Monad Spinlock.

Local Open Scope Z_scope.

(** ** The machine *)

(** Process [i]'s kernel thread, or the scheduler of CPU [k] *)
Inductive agent := AP (i : nat) | AC (k : nat).

#[export] Instance agent_eq_dec : EqDecision agent.
Proof. solve_decision. Defined.

(** What a process does when it is switched to *)
Inductive resume := RYield | RSleep (l : slid).

(** The next access of an agent *)
Inductive point :=
| PRun                          (** in no function of this file *)
| YAcq                          (** yield: acquire(&p->lock) *)
| YSet                          (** p->state = RUNNABLE *)
| YSched                        (** sched() *)
| YRel                          (** yield, or forkret: release(&p->lock) *)
| SlpAcq (l : slid)             (** sleep(lk, &lk->lk): acquire(&p->lock) *)
| SlpRel (l : slid)             (** release(lk) *)
| SlpChan (l : slid)            (** p->chan = chan *)
| SlpState (l : slid)           (** p->state = SLEEPING *)
| SlpSched (l : slid)           (** sched() *)
| SlpTidy (l : slid)            (** p->chan = 0 *)
| SlpUnlock (l : slid)          (** release(&p->lock) *)
| SlpBack (l : slid)            (** acquire(lk) *)
| POff (r : resume)             (** switched away from *)
| ASAcq (l : slid)              (** acquiresleep: acquire(&lk->lk) *)
| ASTest (l : slid)             (** while (lk->locked) *)
| ASSet (l : slid)              (** lk->locked = 1 *)
| ASPid (l : slid)              (** lk->pid = myproc()->pid *)
| ASRel (l : slid)              (** release(&lk->lk) *)
| RSAcq (l : slid)              (** releasesleep: acquire(&lk->lk) *)
| RSClear (l : slid)            (** lk->locked = 0 *)
| RSPid (l : slid)              (** lk->pid = 0 *)
| WkAcq (l : slid) (m : nat)    (** wakeup: the loop at entry [m], acquire(&p->lock) *)
| WkTest (l : slid) (m : nat)   (** if(p->state == SLEEPING && p->chan == chan) *)
| WkRel (l : slid) (m : nat)    (** release(&p->lock) *)
| RSRel (l : slid)              (** releasesleep: release(&lk->lk) *)
| KlAcq (pid : Z) (m : nat)     (** kkill: the loop at entry [m], acquire(&p->lock) *)
| KlTest (pid : Z) (m : nat)    (** if(p->pid == pid) and its body *)
| KlNext (pid : Z) (m : nat)    (** release(&p->lock) at the end of the loop's body *)
| KlRel (m : nat)               (** release(&p->lock); return 0 *)
| CLoop (m : nat)               (** scheduler: the loop at entry [m], acquire(&p->lock) *)
| CTest (m : nat)               (** if(p->state == RUNNABLE) and its body up to swtch *)
| CRunning (m : nat)            (** in swtch, while process [m] runs *)
| CRel (m : nat)                (** release(&p->lock) *)
| PPanic (msg : string).

Record world := mkworld {
  w_owner : lockid -> option agent;   (** who holds a lock *)
  w_held : agent -> list lockid;      (** what an agent holds; its length is noff *)
  w_state : nat -> procstate;         (** p->state *)
  w_chan : nat -> chan;               (** p->chan *)
  w_killed : nat -> Z;                (** p->killed *)
  w_locked : slid -> Z;               (** lk->locked *)
  w_pid : slid -> Z;                  (** lk->pid *)
  w_pc : agent -> point;
  w_on : nat -> nat;                  (** the CPU a process runs on *)
  w_ret : nat -> point;               (** where the timer interrupted a process *)
  w_has : nat -> list slid            (** ghost: the sleep locks a process has *)
}.

#[export] Instance eta_world : Eta world :=
  fun w => mkworld (w_owner w) (w_held w) (w_state w) (w_chan w) (w_killed w) (w_locked w) (w_pid w) (w_pc w) (w_on w) (w_ret w) (w_has w).
#[export] Instance set_w_owner : SetField w_owner := ltac:(setter).
#[export] Instance set_w_held : SetField w_held := ltac:(setter).
#[export] Instance set_w_state : SetField w_state := ltac:(setter).
#[export] Instance set_w_chan : SetField w_chan := ltac:(setter).
#[export] Instance set_w_killed : SetField w_killed := ltac:(setter).
#[export] Instance set_w_locked : SetField w_locked := ltac:(setter).
#[export] Instance set_w_pid : SetField w_pid := ltac:(setter).
#[export] Instance set_w_pc : SetField w_pc := ltac:(setter).
#[export] Instance set_w_on : SetField w_on := ltac:(setter).
#[export] Instance set_w_ret : SetField w_ret := ltac:(setter).
#[export] Instance set_w_has : SetField w_has := ltac:(setter).

Definition goto (a : agent) (x : point) (w : world) : world := (w <| w_pc ::= <[a := x]> |>)%rec.

(** acquire(): [None] while another agent has the lock. *)
Definition take_lock (a : agent) (lk : lockid) (x : point) (w : world) : option world :=
  match w_owner w lk with
  | None => Some (goto a x (w <| w_owner ::= <[lk := Some a]> |> <| w_held ::= <[a := lk :: w_held w a]> |>)%rec)
  | Some b => if decide (b = a) then Some (goto a (PPanic "acquire") w) else None
  end.

Definition drop_lock (a : agent) (lk : lockid) (x : point) (w : world) : world :=
  if decide (w_owner w lk = Some a)
  then goto a x (w <| w_owner ::= <[lk := None]> |> <| w_held ::= <[a := remove_lock lk (w_held w a)]> |>)%rec
  else goto a (PPanic "release") w.

(** swtch() keeps p->lock held: the lock passes to the thread switched to. *)
Definition hand (a b : agent) (lk : lockid) (w : world) : world :=
  (w <| w_owner ::= <[lk := Some b]> |>
     <| w_held ::= fun h => <[b := lk :: h b]> (<[a := remove_lock lk (h a)]> h) |>)%rec.

(** sched() of process [i], up to the switch to its CPU's scheduler.  Its last
    check, intr_get(), is not among the accesses here: interrupts are off while a
    lock is held, by [spinlock_mutual_exclusion]. *)
Definition sched_step (i : nat) (r : resume) (w : world) : world :=
  if negb (bool_decide (w_owner w (LProc i) = Some (AP i))) then goto (AP i) (PPanic "sched p->lock") w
  else if negb (Nat.eqb (length (w_held w (AP i))) 1) then goto (AP i) (PPanic "sched locks") w
  else if bool_decide (w_state w i = RUNNING) then goto (AP i) (PPanic "sched RUNNING") w
  else
    let c := AC (w_on w i) in
    goto c (CRel i) (goto (AP i) (POff r) (hand (AP i) c (LProc i) w)).

(** What a process does next: a call when it is at [PRun]; with [PYield] the timer
    interrupts it, where it can *)
Inductive ccall := PAcquireSleep (l : slid) | PReleaseSleep (l : slid) | PKill (pid : Z) | PYield.

#[export] Instance ccall_eq_dec : EqDecision ccall.
Proof. solve_decision. Defined.

Section Steps.
Context (pid_of : nat -> Z).

(** sleep(lk, &lk->lk) by process [i] *)
Definition sleep_step (i : nat) (w : world) : option world :=
  let a := AP i in
  match w_pc w a with
  | SlpAcq l => take_lock a (LProc i) (SlpRel l) w
  | SlpRel l => Some (drop_lock a (LSleep l) (SlpChan l) w)
  | SlpChan l => Some (goto a (SlpState l) (w <| w_chan ::= <[i := ChSleep l]> |>)%rec)
  | SlpState l => Some (goto a (SlpSched l) (w <| w_state ::= <[i := SLEEPING]> |>)%rec)
  | SlpSched l => Some (sched_step i (RSleep l) w)
  | SlpTidy l => Some (goto a (SlpUnlock l) (w <| w_chan ::= <[i := ChNull]> |>)%rec)
  | SlpUnlock l => Some (drop_lock a (LProc i) (SlpBack l) w)
  | SlpBack l => take_lock a (LSleep l) (ASTest l) w
  | _ => None
  end.

(** wakeup(lk) by process [i] *)
Definition wakeup_step (i : nat) (w : world) : option world :=
  let a := AP i in
  match w_pc w a with
  | WkAcq l m =>
      if (m <? NPROC)%nat then
        if negb (Nat.eqb m i) then take_lock a (LProc m) (WkTest l m) w else Some (goto a (WkAcq l (S m)) w)
      else Some (goto a (RSRel l) w)
  | WkTest l m =>
      Some (goto a (WkRel l m)
        (if bool_decide (w_state w m = SLEEPING) && bool_decide (w_chan w m = ChSleep l)
         then (w <| w_state ::= <[m := RUNNABLE]> |>)%rec else w))
  | WkRel l m => Some (drop_lock a (LProc m) (WkAcq l (S m)) w)
  | _ => None
  end.

(** kkill(pid) by process [i] *)
Definition kill_step (i : nat) (w : world) : option world :=
  let a := AP i in
  match w_pc w a with
  | KlAcq pid m => if (m <? NPROC)%nat then take_lock a (LProc m) (KlTest pid m) w else Some (goto a PRun w)
  | KlTest pid m =>
      if pid_of m =? pid then
        Some (goto a (KlRel m)
          (let w1 := (w <| w_killed ::= <[m := 1]> |>)%rec in
           if bool_decide (w_state w m = SLEEPING) then (w1 <| w_state ::= <[m := RUNNABLE]> |>)%rec else w1))
      else Some (goto a (KlNext pid m) w)
  | KlNext pid m => Some (drop_lock a (LProc m) (KlAcq pid (S m)) w)
  | KlRel m => Some (drop_lock a (LProc m) PRun w)
  | _ => None
  end.

(** yield() *)
Definition yield_step (i : nat) (w : world) : option world :=
  let a := AP i in
  match w_pc w a with
  | YAcq => take_lock a (LProc i) YSet w
  | YSet => Some (goto a YSched (w <| w_state ::= <[i := RUNNABLE]> |>)%rec)
  | YSched => Some (sched_step i RYield w)
  | YRel => Some (drop_lock a (LProc i) (w_ret w i) w)
  | _ => None
  end.

(** acquiresleep() and releasesleep() around sleep() and wakeup() *)
Definition sleeplock_step (i : nat) (w : world) : option world :=
  let a := AP i in
  match w_pc w a with
  | ASAcq l => take_lock a (LSleep l) (ASTest l) w
  | ASTest l => Some (goto a (if negb (w_locked w l =? 0) then SlpAcq l else ASSet l) w)
  | ASSet l => Some (goto a (ASPid l) (w <| w_locked ::= <[l := 1]> |> <| w_has ::= <[i := l :: w_has w i]> |>)%rec)
  | ASPid l => Some (goto a (ASRel l) (w <| w_pid ::= <[l := pid_of i]> |>)%rec)
  | ASRel l => Some (drop_lock a (LSleep l) PRun w)
  | RSAcq l => take_lock a (LSleep l) (RSClear l) w
  | RSClear l =>
      Some (goto a (RSPid l) (w <| w_locked ::= <[l := 0]> |> <| w_has ::= <[i := filter (fun x => x <> l) (w_has w i)]> |>)%rec)
  | RSPid l => Some (goto a (WkAcq l 0) (w <| w_pid ::= <[l := 0]> |>)%rec)
  | RSRel l => Some (drop_lock a (LSleep l) PRun w)
  | _ => None
  end.

(** Outside of its locks a process can be interrupted, and then yields. *)
Definition interruptible (x : point) : bool :=
  match x with PRun | ASAcq _ | RSAcq _ | SlpBack _ | KlAcq _ _ => true | _ => false end.

(** The step of a process; [None] when it cannot move: it spins on a lock, or
    it is not running. *)
Definition proc_step (i : nat) (c : ccall) (w : world) : option world :=
  if interruptible (w_pc w (AP i)) && bool_decide (c = PYield)
  then Some (goto (AP i) YAcq (w <| w_ret ::= <[i := w_pc w (AP i)]> |>)%rec)
  else
  match w_pc w (AP i) with
  | PRun =>
      match c with
      | PAcquireSleep l => Some (goto (AP i) (ASAcq l) w)
      | PReleaseSleep l => if decide (l ∈ w_has w i) then Some (goto (AP i) (RSAcq l) w) else None
      | PKill pid => Some (goto (AP i) (KlAcq pid 0) w)
      | PYield => None
      end
  | YAcq | YSet | YSched | YRel => yield_step i w
  | SlpAcq _ | SlpRel _ | SlpChan _ | SlpState _ | SlpSched _ | SlpTidy _ | SlpUnlock _ | SlpBack _ => sleep_step i w
  | WkAcq _ _ | WkTest _ _ | WkRel _ _ => wakeup_step i w
  | KlAcq _ _ | KlTest _ _ | KlNext _ _ | KlRel _ => kill_step i w
  | ASAcq _ | ASTest _ | ASSet _ | ASPid _ | ASRel _ | RSAcq _ | RSClear _ | RSPid _ | RSRel _ => sleeplock_step i w
  | _ => None
  end.

(** Where swtch() takes a process *)
Definition resumed (x : point) : point :=
  match x with POff RYield => YRel | POff (RSleep l) => SlpTidy l | x => x end.

(** The scheduler of CPU [k].  Its other statements, intr_on(), intr_off(), c->proc and
    the wfi of an idle CPU, touch nothing that the agents share. *)
Definition sched_loop_step (k : nat) (w : world) : option world :=
  let a := AC k in
  match w_pc w a with
  | CLoop m => if (m <? NPROC)%nat then take_lock a (LProc m) (CTest m) w else Some (goto a (CLoop 0) w)
  | CTest m =>
      if bool_decide (w_state w m = RUNNABLE) then
        let w1 := (w <| w_state ::= <[m := RUNNING]> |> <| w_on ::= <[m := k]> |>)%rec in
        Some (goto (AP m) (resumed (w_pc w (AP m))) (goto a (CRunning m) (hand a (AP m) (LProc m) w1)))
      else Some (goto a (CRel m) w)
  | CRel m => Some (drop_lock a (LProc m) (CLoop (S m)) w)
  | _ => None
  end.

Definition step (a : agent) (c : ccall) (w : world) : option world :=
  match a with AP i => proc_step i c w | AC k => sched_loop_step k w end.

(** The scheduler is about to start on every CPU; every process is ready to
    run for the first time. *)
Definition world0 : world :=
  mkworld (fun _ => None) (fun _ => []) (fun _ => RUNNABLE) (fun _ => ChNull) (fun _ => 0) (fun _ => 0) (fun _ => 0)
    (fun a => match a with AP _ => POff RYield | AC _ => CLoop 0 end) (fun _ => 0%nat) (fun _ => PRun) (fun _ => []).

Inductive reachable : world -> Prop :=
| reachable_0 : reachable world0
| reachable_step w a c w' : reachable w -> step a c w = Some w' -> reachable w'.

(** ** The invariant *)

(** The locks an agent holds at a point *)
Definition locks_at (a : agent) (x : point) : list lockid :=
  let own := match a with AP i => [LProc i] | AC _ => [] end in
  match x with
  | YSet | YSched | YRel | SlpChan _ | SlpState _ | SlpSched _ | SlpTidy _ | SlpUnlock _ => own
  | SlpRel l => own ++ [LSleep l]
  | SlpAcq l | ASTest l | ASSet l | ASPid l | ASRel l | RSClear l | RSPid l | WkAcq l _ | RSRel l => [LSleep l]
  | WkTest l m | WkRel l m => [LProc m; LSleep l]
  | KlTest _ m | KlNext _ m | KlRel m | CTest m | CRel m => [LProc m]
  | _ => []
  end.

(** A process is at a process's points, a CPU at the scheduler's. *)
Definition point_ok (a : agent) (x : point) : Prop :=
  match x with
  | CLoop _ | CTest _ | CRunning _ | CRel _ => match a with AC _ => True | AP _ => False end
  | PPanic _ => False
  | _ => match a with AP _ => True | AC _ => False end
  end.

Definition is_off (x : point) : bool := match x with POff _ => true | _ => false end.

(** p->state and p->chan, by what the process does *)
Definition state_ok (x : point) (st : procstate) (ch : chan) : Prop :=
  match x with
  | YSched | POff RYield => st = RUNNABLE
  | SlpState l => st = RUNNING /\ ch = ChSleep l
  | SlpSched l => st = SLEEPING /\ ch = ChSleep l
  | POff (RSleep l) => (st = SLEEPING \/ st = RUNNABLE) /\ ch = ChSleep l
  | _ => st = RUNNING
  end.

(** What a process knows of lk->locked between its accesses *)
Definition locked_ok (x : point) (locked : slid -> Z) (has : list slid) : Prop :=
  match x with
  | SlpAcq l | SlpRel l => locked l = 1
  | ASSet l => locked l = 0
  | RSAcq l | RSClear l => l ∈ has
  | _ => True
  end.

(** A process that yields still has to do what it was interrupted at. *)
Definition to_do (x r : point) : point :=
  match x with YAcq | YSet | YSched | YRel | POff RYield => r | _ => x end.

(** The sleep lock a process is going to sleep, or sleeps, on *)
Definition sleepy (x : point) (st : procstate) : option slid :=
  match x with
  | SlpChan l | SlpState l | SlpSched l => Some l
  | POff (RSleep l) => if bool_decide (st = SLEEPING) then Some l else None
  | _ => None
  end.

(** The sleep lock whose sleepers a process is waking, and the first entry it
    has yet to visit *)
Definition waking (x : point) : option (slid * nat) :=
  match x with
  | RSPid l => Some (l, 0%nat)
  | WkAcq l m | WkTest l m => Some (l, m)
  | WkRel l m => Some (l, S m)
  | _ => None
  end.

Definition locks_inv (w : world) : Prop :=
  (forall a, w_held w a = locks_at a (w_pc w a)) /\
  (forall lk a, w_owner w lk = Some a <-> lk ∈ locks_at a (w_pc w a)).

Record inv (w : world) : Prop := {
  i_locks : locks_inv w;
  i_point : forall a, point_ok a (w_pc w a);
  i_run : forall i, is_off (w_pc w (AP i)) = false -> w_pc w (AC (w_on w i)) = CRunning i;
  i_state : forall i, state_ok (w_pc w (AP i)) (w_state w i) (w_chan w i);
  i_ret : forall i, interruptible (w_ret w i) = true;
  i_know : forall i, locked_ok (to_do (w_pc w (AP i)) (w_ret w i)) (w_locked w) (w_has w i);
  i_01 : forall l, w_locked w l = 0 \/ w_locked w l = 1;
  i_locked : forall l, w_locked w l = 1 <-> exists i, l ∈ w_has w i;
  i_excl : forall l i j, l ∈ w_has w i -> l ∈ w_has w j -> i = j;
  i_wait : forall i l, (i < NPROC)%nat -> sleepy (w_pc w (AP i)) (w_state w i) = Some l -> w_locked w l = 0 ->
    exists j m, waking (w_pc w (AP j)) = Some (l, m) /\ (m <= i)%nat
}.

(** Look through the updates of agents, locks and processes. *)
Ltac look :=
  repeat match goal with
  | |- context [(<[?a := _]> _) ?a] => rewrite fn_lookup_insert
  | |- context [(<[?a := _]> _) ?b] => rewrite (fn_lookup_insert_ne _ a b) by congruence
  | |- context [(<[?a := _]> _) ?b] => destruct (decide (a = b)); [simplify_eq |]
  end.

Lemma inv_0 : inv world0.
Proof.
  split; simpl; try done.
  - split; [by intros [] |]; intros lk []; simpl; split; try done; intros H; by apply not_elem_of_nil in H.
  - by intros [].
  - intros l; by left.
  - intros l; split; [done | intros [i Hi]; set_solver].
  - set_solver.
Qed.

Lemma excl w lk a b : inv w -> lk ∈ locks_at a (w_pc w a) -> lk ∈ locks_at b (w_pc w b) -> a = b.
Proof. intros HI Ha Hb; apply (proj2 (i_locks w HI)) in Ha, Hb; congruence. Qed.

(** ** Locks *)

Lemma locks_goto a x w : locks_inv w -> locks_at a x = locks_at a (w_pc w a) -> locks_inv (goto a x w).
Proof.
  intros [H1 H2] Hx; split; [intros b; simpl; rewrite H1; upd_cases; congruence |].
  intros lk b; simpl; rewrite H2; upd_cases; [by rewrite Hx | done].
Qed.

Lemma locks_take a lk x w w' :
  locks_inv w -> lk ∉ locks_at a (w_pc w a) -> locks_at a x = lk :: locks_at a (w_pc w a) -> take_lock a lk x w = Some w' ->
  w_owner w lk = None /\ locks_inv w' /\
  w' = goto a x (w <| w_owner ::= <[lk := Some a]> |> <| w_held ::= <[a := lk :: w_held w a]> |>)%rec.
Proof.
  intros [H1 H2] Hno Hx; unfold take_lock; destruct (w_owner w lk) as [b |] eqn:E.
  - case_decide as Hb; [subst b; apply H2 in E; done | done].
  - intros [= <-]; split; [done |]; split; [| done]; split.
    + intros b; simpl; upd_cases; [by rewrite Hx, H1 | apply H1].
    + intros lk' b; simpl; upd_cases.
      * rewrite Hx; set_solver.
      * split; [congruence |]; intros Hin; apply H2 in Hin; congruence.
      * rewrite Hx, H2; set_solver.
      * apply H2.
Qed.

Lemma locks_drop a lk x w :
  locks_inv w -> lk ∈ locks_at a (w_pc w a) -> NoDup (locks_at a (w_pc w a)) -> locks_at a x = remove_lock lk (locks_at a (w_pc w a)) ->
  let w' := goto a x (w <| w_owner ::= <[lk := None]> |> <| w_held ::= <[a := remove_lock lk (w_held w a)]> |>)%rec in
  drop_lock a lk x w = w' /\ locks_inv w'.
Proof.
  intros [H1 H2] Hin Hnd Hx w'; pose proof (fun y => elem_of_remove_lock lk _ y Hnd) as Hrm; split.
  { unfold drop_lock; rewrite decide_True by (by apply H2); done. }
  split.
  - intros b; simpl; upd_cases; [by rewrite Hx, H1 | apply H1].
  - intros lk' b; simpl; upd_cases.
    + rewrite Hx, Hrm; naive_solver.
    + split; [done |]; intros Hb; apply H2 in Hb, Hin; congruence.
    + rewrite Hx, Hrm, H2; naive_solver.
    + apply H2.
Qed.

(** A switch from [a], which holds only p->lock, to [b], which holds nothing *)
Lemma locks_hand a b lk x y w :
  locks_inv w -> a <> b -> locks_at a (w_pc w a) = [lk] -> locks_at b (w_pc w b) = [] ->
  locks_at a x = [] -> locks_at b y = [lk] -> locks_inv (goto b y (goto a x (hand a b lk w))).
Proof.
  intros [H1 H2] Hne Ha Hb Hx Hy; split.
  - intros c; simpl; look; rewrite ?H1, ?Ha, ?Hb, ?Hx, ?Hy; simpl; try done.
    by rewrite decide_True by done.
  - assert (Hlk : w_owner w lk = Some a) by (apply H2; rewrite Ha; constructor).
    intros lk' c; simpl; look; rewrite ?Hx, ?Hy, ?list_elem_of_singleton; [done | | | | |].
    + split; [congruence | intros Hc; by apply not_elem_of_nil in Hc].
    + split; [congruence |]; intros Hc; apply H2 in Hc; congruence.
    + rewrite H2, Hb; split; [intros Hc; by apply not_elem_of_nil in Hc | congruence].
    + rewrite H2, Ha, list_elem_of_singleton; split; [congruence | intros Hc; by apply not_elem_of_nil in Hc].
    + apply H2.
Qed.

(** ** Steps of a process *)

(** A step of process [i] to [y] that changes at most its own state and
    channel *)
Lemma own_step w w' i y :
  inv w -> locks_inv w' -> is_off (w_pc w (AP i)) = false -> is_off y = false ->
  (forall b, w_pc w' b = if decide (b = AP i) then y else w_pc w b) ->
  (forall j, j <> i -> w_state w' j = w_state w j /\ w_chan w' j = w_chan w j) ->
  w_on w' = w_on w -> w_ret w' = w_ret w -> w_locked w' = w_locked w -> w_has w' = w_has w ->
  point_ok (AP i) y -> state_ok y (w_state w' i) (w_chan w' i) -> locked_ok (to_do y (w_ret w i)) (w_locked w) (w_has w i) ->
  (forall l, sleepy y (w_state w' i) = Some l -> w_locked w l = 0 -> sleepy (w_pc w (AP i)) (w_state w i) = Some l) ->
  (forall j l m, j <> i -> (j < NPROC)%nat -> waking (w_pc w (AP i)) = Some (l, m) -> (m <= j)%nat ->
     sleepy (w_pc w (AP j)) (w_state w j) = Some l -> exists m', waking y = Some (l, m') /\ (m' <= j)%nat) ->
  (forall l m, sleepy (w_pc w (AP i)) (w_state w i) = Some l -> waking (w_pc w (AP i)) <> Some (l, m)) ->
  inv w'.
Proof.
  intros HI HL Hoff Hoff' Hpc Hoth Hon Hret Hlk Hhas Hpt Hst Hkn Hsl Hwk Hno.
  assert (Hi : w_pc w' (AP i) = y) by (by rewrite Hpc, decide_True).
  assert (Hne : forall j, j <> i -> w_pc w' (AP j) = w_pc w (AP j)) by (intros j Hj; rewrite Hpc, decide_False by congruence; done).
  assert (Hac : forall k, w_pc w' (AC k) = w_pc w (AC k)) by (intros k; by rewrite Hpc, decide_False).
  split; [done | | | | by rewrite Hret; apply HI | | by rewrite Hlk; apply HI | by rewrite Hlk, Hhas; apply HI | by rewrite Hhas; apply HI |].
  - intros [j | k]; [| rewrite Hac; apply HI]; destruct (decide (j = i)) as [-> | Hj]; [by rewrite Hi | rewrite Hne by done; apply HI].
  - intros j; rewrite Hon, Hac; destruct (decide (j = i)) as [-> | Hj]; [intros _; by apply HI | rewrite Hne by done; apply HI].
  - intros j; destruct (decide (j = i)) as [-> | Hj]; [by rewrite Hi | rewrite Hne by done; destruct (Hoth j Hj) as [-> ->]; apply HI].
  - intros j; rewrite Hlk, Hhas, Hret; destruct (decide (j = i)) as [-> | Hj]; [by rewrite Hi | rewrite Hne by done; apply HI].
  - intros j l Hj Hs H0; rewrite Hlk in H0.
    assert (Hs' : sleepy (w_pc w (AP j)) (w_state w j) = Some l).
    { destruct (decide (j = i)) as [-> | Hji]; [rewrite Hi in Hs; by apply Hsl |].
      rewrite Hne in Hs by done; by rewrite <- (proj1 (Hoth j Hji)). }
    destruct (i_wait w HI j l Hj Hs' H0) as (n & m & Hw & Hm).
    destruct (decide (n = i)) as [-> | Hn]; [| exists n, m; by rewrite Hne].
    destruct (decide (j = i)) as [-> | Hji]; [by apply (Hno l m) in Hs' |].
    destruct (Hwk j l m Hji Hj Hw Hm Hs') as (m' & ? & ?); exists i, m'; by rewrite Hi.
Qed.

(** Where a process sleeps *)
Lemma state_sleeping x ch : state_ok x SLEEPING ch -> (exists l, x = SlpSched l) \/ exists l, x = POff (RSleep l) /\ ch = ChSleep l.
Proof. destruct x as [| | | | | | | | | | | | | [] | | | | | | | | | | | | | | | | | | | | |]; simpl; naive_solver. Qed.

(** A process that holds p->lock of a sleeping one may make it RUNNABLE. *)
Lemma inv_wake w a m :
  inv w -> LProc m ∈ locks_at a (w_pc w a) -> a <> AP m -> w_state w m = SLEEPING ->
  inv (w <| w_state ::= <[m := RUNNABLE]> |>)%rec.
Proof.
  intros HI Hlk Ham Hst; pose proof HI as [HL Hpt Hrun Hs Hret Hk H01 Hl He Hw]; split; try done; simpl.
  - intros j; look; [| apply Hs].
    specialize (Hs j); rewrite Hst in Hs; destruct (state_sleeping _ _ Hs) as [[l E] | [l [-> E]]]; [| by split; [right |]].
    exfalso; apply Ham, (excl w (LProc j) a (AP j) HI Hlk); rewrite E; constructor.
  - intros j l Hj; look; [| by apply Hw]; pose proof (Hw j l Hj) as Hj'.
    destruct (w_pc w (AP j)) as [| | | | | | | | | | | | | [] | | | | | | | | | | | | | | | | | | | | |]; simpl in *; done.
Qed.

(** A change of lk->locked by the holder of lk->lk *)
Lemma locked_ok_upd a x locked has has' l v :
  locked_ok x locked has -> LSleep l ∉ locks_at a x ->
  (forall l', x = RSAcq l' \/ x = RSClear l' -> l' ∈ has -> l' ∈ has') -> locked_ok x (<[l := v]> locked) has'.
Proof.
  intros Hk Hno Hhas; destruct x as [| | | | | l' | l' | | | | | | | | | | l' | | | l' | l' | | | | | | | | | | | | | |]; simpl in *; try done.
  1-3: rewrite fn_lookup_insert_ne; [done |]; intros ->; apply Hno; rewrite ?elem_of_app, ?list_elem_of_singleton; auto.
  all: eauto.
Qed.

Lemma to_do_locks a x r lk : interruptible r = true -> lk ∈ locks_at a (to_do x r) -> lk ∈ locks_at a x.
Proof.
  intros Hr; assert (E : locks_at a r = []) by (by destruct r).
  destruct x as [| | | | | | | | | | | | | [] | | | | | | | | | | | | | | | | | | | | |]; simpl to_do; try done;
    rewrite E; intros Hin; by apply not_elem_of_nil in Hin.
Qed.

(** lk->locked = 1, in acquiresleep() *)
Lemma inv_lock w i l :
  inv w -> w_pc w (AP i) = ASPid l -> w_locked w l = 0 ->
  inv (w <| w_locked ::= <[l := 1]> |> <| w_has ::= <[i := l :: w_has w i]> |>)%rec.
Proof.
  intros HI Hpc H0; pose proof HI as [HL Hpt Hrun Hs Hret Hk H01 Hl He Hw].
  assert (Hno : forall j, l ∉ w_has w j) by (intros j Hj; assert (w_locked w l = 1) by (apply Hl; eauto); lia).
  assert (Hmine : forall j, LSleep l ∈ locks_at (AP j) (w_pc w (AP j)) -> j = i).
  { intros j Hj; assert (AP j = AP i) by (apply (excl w (LSleep l)); [done | done | rewrite Hpc; constructor]); congruence. }
  split; try done; simpl.
  - intros j; destruct (decide (j = i)) as [-> | Hj]; [by rewrite Hpc |].
    rewrite fn_lookup_insert_ne by done; apply (locked_ok_upd (AP j) _ _ (w_has w j)); [done | | done].
    intros Hl2; apply Hj, Hmine; by eapply to_do_locks.
  - intros l'; look; [by right | apply H01].
  - intros l'; look; [split; [intros _; exists i; look; constructor | done] |].
    rewrite Hl; split; intros [j Hj]; exists j; revert Hj; look; rewrite ?elem_of_cons; naive_solver.
  - intros l' j j'; look; rewrite ?elem_of_cons; naive_solver.
  - intros j l' Hj Hsl; look; [done |]; by apply Hw.
Qed.

(** lk->locked = 0, in releasesleep() *)
Lemma inv_clear w i l :
  inv w -> w_pc w (AP i) = RSPid l -> l ∈ w_has w i ->
  inv (w <| w_locked ::= <[l := 0]> |> <| w_has ::= <[i := filter (fun x => x <> l) (w_has w i)]> |>)%rec.
Proof.
  intros HI Hpc Hin; pose proof HI as [HL Hpt Hrun Hs Hret Hk H01 Hl He Hw].
  assert (Hmine : forall j, LSleep l ∈ locks_at (AP j) (w_pc w (AP j)) -> j = i).
  { intros j Hj; assert (AP j = AP i) by (apply (excl w (LSleep l)); [done | done | rewrite Hpc; constructor]); congruence. }
  split; try done; simpl.
  - intros j; destruct (decide (j = i)) as [-> | Hj]; [by rewrite Hpc |].
    rewrite fn_lookup_insert_ne by done; apply (locked_ok_upd (AP j) _ _ (w_has w j)); [done | | done].
    intros Hl2; apply Hj, Hmine; by eapply to_do_locks.
  - intros l'; look; [by left | apply H01].
  - intros l'; look.
    + split; [done |]; intros [j Hj]; revert Hj; look; rewrite ?list_elem_of_filter; [naive_solver |]; intros Hj; exfalso; eauto.
    + rewrite Hl; split; intros [j Hj]; exists j; revert Hj; look; rewrite ?list_elem_of_filter; naive_solver.
  - intros l' j j'; look; rewrite ?list_elem_of_filter; naive_solver.
  - intros j l' Hj Hsl; look; [| by apply Hw]; intros _; exists i, 0%nat; rewrite Hpc; split; [done | lia].
Qed.

(** ** Switches *)

(** sched() by a process that has left the state RUNNING finds nothing to
    complain about. *)
Lemma inv_switch_out w i r :
  inv w -> locks_at (AP i) (w_pc w (AP i)) = [LProc i] -> is_off (w_pc w (AP i)) = false -> w_state w i <> RUNNING ->
  state_ok (POff r) (w_state w i) (w_chan w i) -> locked_ok (to_do (POff r) (w_ret w i)) (w_locked w) (w_has w i) ->
  waking (w_pc w (AP i)) = None ->
  (forall l, sleepy (POff r) (w_state w i) = Some l -> sleepy (w_pc w (AP i)) (w_state w i) = Some l) ->
  inv (sched_step i r w).
Proof.
  intros HI Hlk Hoff Hnr Hst Hkn Hwk Hsl; pose proof HI as [HL Hpt Hrun Hs Hret Hk H01 Hl He Hw]; pose proof HL as [Hh Ho].
  unfold sched_step; rewrite bool_decide_eq_true_2 by (apply Ho; rewrite Hlk; constructor); rewrite Hh, Hlk; simpl.
  rewrite bool_decide_eq_false_2 by done; pose proof (Hrun i Hoff) as Hc; set (k := w_on w i) in *.
  assert (Hk' : forall j, is_off (w_pc w (AP j)) = false -> j <> i -> w_on w j <> k).
  { intros j Hj Hji E; apply Hrun in Hj; rewrite E, Hc in Hj; congruence. }
  clearbody k; split; try done; simpl.
  - apply locks_hand; try done; by rewrite ?Hc.
  - intros [j | j]; look; try done; apply Hpt.
  - intros j; look; try done; [| apply Hrun]; intros Hj; exfalso; apply (Hk' j Hj); congruence.
  - intros j; look; [done | apply Hs].
  - intros j; look; [done | apply Hk].
  - intros j l Hj Hsj H0; destruct (Hw j l Hj) as (n & m & Hn & Hm); [revert Hsj; look; auto | done |].
    exists n, m; by look.
Qed.

(** Where a process that is RUNNABLE may be *)
Lemma state_runnable x ch : state_ok x RUNNABLE ch -> x = YSched \/ x = POff RYield \/ exists l, x = POff (RSleep l) /\ ch = ChSleep l.
Proof. destruct x as [| | | | | | | | | | | | | [] | | | | | | | | | | | | | | | | | | | | |]; simpl; naive_solver. Qed.

(** A scheduler that has p->lock of a RUNNABLE process finds it switched away. *)
Lemma runnable_off w k m :
  inv w -> w_pc w (AC k) = CTest m -> w_state w m = RUNNABLE -> exists r, w_pc w (AP m) = POff r.
Proof.
  intros HI Hpc Hst; pose proof (i_state w HI m) as Hs; rewrite Hst in Hs.
  destruct (state_runnable _ _ Hs) as [E | [E | [l [E _]]]]; [| by eexists ..].
  assert (AC k = AP m) by (apply (excl w (LProc m)); [done | rewrite Hpc; constructor | rewrite E; constructor]); done.
Qed.

Lemma inv_switch_in w k m :
  inv w -> w_pc w (AC k) = CTest m -> w_state w m = RUNNABLE ->
  inv (goto (AP m) (resumed (w_pc w (AP m))) (goto (AC k) (CRunning m)
    (hand (AC k) (AP m) (LProc m) (w <| w_state ::= <[m := RUNNING]> |> <| w_on ::= <[m := k]> |>)%rec))).
Proof.
  intros HI Hpc Hst; pose proof HI as [HL Hpt Hrun Hs Hret Hk H01 Hl He Hw].
  destruct (runnable_off w k m HI Hpc Hst) as [r Hr]; rewrite Hr; set (x := resumed (POff r)).
  assert (Hoff : forall j, is_off (w_pc w (AP j)) = false -> w_on w j <> k).
  { intros j Hj E; apply Hrun in Hj; rewrite E, Hpc in Hj; congruence. }
  split; try done; simpl.
  - apply locks_hand; simpl; rewrite ?Hpc, ?Hr; try done; by destruct r.
  - intros [j | j]; look; try done; try apply Hpt; by destruct r.
  - intros j; look; [done | | by apply Hrun]; intros Hj; exfalso; apply (Hoff j Hj); congruence.
  - intros j; look; [by destruct r | apply Hs].
  - intros j; look; [| apply Hk]; specialize (Hk j); rewrite Hr in Hk; by destruct r.
  - intros j l Hj Hsj H0; assert (Hjm : j <> m) by (intros ->; revert Hsj; look; by destruct r).
    destruct (Hw j l Hj) as (n & q & Hn & Hq); [revert Hsj; look; auto | done |].
    exists n, q; look; [by rewrite Hr in Hn | done].
Qed.

(** ** Every step keeps the invariant *)

(** What a step of process [i] to [y] needs that changes no data *)
Record move_ok (w : world) (i : nat) (y : point) : Prop := {
  mv_off : is_off (w_pc w (AP i)) = false /\ is_off y = false;
  mv_point : point_ok (AP i) y;
  mv_state : state_ok y (w_state w i) (w_chan w i);
  mv_know : locked_ok (to_do y (w_ret w i)) (w_locked w) (w_has w i);
  mv_sleepy : forall l, sleepy y (w_state w i) = Some l -> w_locked w l = 0 -> sleepy (w_pc w (AP i)) (w_state w i) = Some l;
  mv_waking : forall j l m, j <> i -> (j < NPROC)%nat -> waking (w_pc w (AP i)) = Some (l, m) -> (m <= j)%nat ->
     sleepy (w_pc w (AP j)) (w_state w j) = Some l -> exists m', waking y = Some (l, m') /\ (m' <= j)%nat
}.

Lemma awake_or_waking x st l m : sleepy x st = Some l -> waking x <> Some (l, m).
Proof. by destruct x. Qed.

Lemma own_goto w i y :
  inv w -> move_ok w i y -> locks_at (AP i) y = locks_at (AP i) (w_pc w (AP i)) -> inv (goto (AP i) y w).
Proof.
  intros HI [[? ?] ? ? ? ? ?] Hl; apply (own_step w _ i y); try done; [by apply locks_goto; [apply HI |] | | apply awake_or_waking].
  intros b; simpl; case_decide; by look.
Qed.

Lemma own_take w w' i lk y :
  inv w -> take_lock (AP i) lk y w = Some w' -> move_ok w i y -> lk ∉ locks_at (AP i) (w_pc w (AP i)) ->
  locks_at (AP i) y = lk :: locks_at (AP i) (w_pc w (AP i)) -> inv w'.
Proof.
  intros HI Ht [[? ?] ? ? ? ? ?] Hno Hl; destruct (locks_take (AP i) lk y w w' (i_locks w HI) Hno Hl Ht) as (_ & HL & ->).
  apply (own_step w _ i y); try done; [| apply awake_or_waking]; intros b; simpl; case_decide; by look.
Qed.

Lemma own_drop w i lk y :
  inv w -> move_ok w i y -> lk ∈ locks_at (AP i) (w_pc w (AP i)) -> NoDup (locks_at (AP i) (w_pc w (AP i))) ->
  locks_at (AP i) y = remove_lock lk (locks_at (AP i) (w_pc w (AP i))) -> inv (drop_lock (AP i) lk y w).
Proof.
  intros HI [[? ?] ? ? ? ? ?] Hin Hnd Hl; destruct (locks_drop (AP i) lk y w (i_locks w HI) Hin Hnd Hl) as [-> HL].
  apply (own_step w _ i y); try done; [| apply awake_or_waking]; intros b; simpl; case_decide; by look.
Qed.

(** Assignments to the process's own fields *)
Lemma own_set_state w i st y :
  inv w -> is_off (w_pc w (AP i)) = false /\ is_off y = false -> point_ok (AP i) y -> state_ok y st (w_chan w i) ->
  locked_ok (to_do y (w_ret w i)) (w_locked w) (w_has w i) ->
  (forall l, sleepy y st = Some l -> sleepy (w_pc w (AP i)) (w_state w i) = Some l) -> waking (w_pc w (AP i)) = None ->
  locks_at (AP i) y = locks_at (AP i) (w_pc w (AP i)) -> inv (goto (AP i) y (w <| w_state ::= <[i := st]> |>)%rec).
Proof.
  intros HI [? ?] ? ? ? Hsl Hwk Hl; apply (own_step w _ i y); simpl; rewrite ?fn_lookup_insert; try done.
  - apply (locks_goto (AP i) y (w <| w_state ::= <[i := st]> |>)%rec); [exact (i_locks w HI) | exact Hl].
  - intros b; case_decide; by look.
  - intros j Hj; by look.
  - auto.
  - intros j l m _ _ E; congruence.
  - apply awake_or_waking.
Qed.

Lemma own_set_chan w i ch y :
  inv w -> is_off (w_pc w (AP i)) = false /\ is_off y = false -> point_ok (AP i) y -> state_ok y (w_state w i) ch ->
  locked_ok (to_do y (w_ret w i)) (w_locked w) (w_has w i) ->
  (forall l, sleepy y (w_state w i) = Some l -> sleepy (w_pc w (AP i)) (w_state w i) = Some l) -> waking (w_pc w (AP i)) = None ->
  locks_at (AP i) y = locks_at (AP i) (w_pc w (AP i)) -> inv (goto (AP i) y (w <| w_chan ::= <[i := ch]> |>)%rec).
Proof.
  intros HI [? ?] ? ? ? Hsl Hwk Hl; apply (own_step w _ i y); simpl; rewrite ?fn_lookup_insert; try done.
  - apply (locks_goto (AP i) y (w <| w_chan ::= <[i := ch]> |>)%rec); [exact (i_locks w HI) | exact Hl].
  - intros b; case_decide; by look.
  - intros j Hj; by look.
  - auto.
  - intros j l m _ _ E; congruence.
  - apply awake_or_waking.
Qed.

(** The side conditions follow from what the invariant says of the process. *)
Ltac facts HI i Hpc :=
  pose proof (i_state _ HI i) as Hst; pose proof (i_know _ HI i) as Hkn; rewrite Hpc in Hst, Hkn; simpl in Hst, Hkn.
Ltac move_tac Hpc :=
  split; simpl; rewrite ?Hpc; simpl; intuition (try done; try congruence; try (simplify_eq; eexists; split; [reflexivity | lia])).
Ltac locks_tac Hpc :=
  rewrite Hpc; simpl;
  repeat match goal with
  | |- NoDup _ => constructor
  | |- context [decide (?x = ?x)] => rewrite (decide_True (P := x = x)) by done
  | |- context [decide (?x = ?y)] => rewrite (decide_False (P := x = y)) by done
  end; rewrite ?elem_of_cons, ?elem_of_nil; intuition (done || congruence).

(** What holds at the points where a process can be interrupted *)
Lemma interruptible_facts i r : interruptible r = true ->
  is_off r = false /\ point_ok (AP i) r /\ (forall ch, state_ok r RUNNING ch) /\ to_do r r = r /\
  (forall st, sleepy r st = None) /\ waking r = None /\ locks_at (AP i) r = [].
Proof. by destruct r. Qed.

Lemma inv_yield_step w w' i : inv w -> yield_step i w = Some w' -> inv w'.
Proof.
  intros HI; unfold yield_step; destruct (w_pc w (AP i)) eqn:Hpc; try done; facts HI i Hpc.
  - intros Ht; apply (own_take w w' i (LProc i) YSet HI Ht); [move_tac Hpc | locks_tac Hpc ..].
  - intros [= <-]; apply own_set_state; rewrite ?Hpc; done.
  - intros [= <-]; apply inv_switch_out; rewrite ?Hpc; simpl; try done; by rewrite Hst.
  - intros [= <-]; destruct (interruptible_facts i (w_ret w i) (i_ret w HI i)) as (F1 & F2 & F3 & F4 & F5 & F6 & F7).
    apply own_drop; rewrite ?Hpc, ?F7; simpl; [done | | constructor | repeat constructor; set_solver | by rewrite decide_True].
    split; rewrite ?Hpc, ?F4; try done; [by rewrite Hst | intros l; by rewrite F5].
Qed.

Lemma inv_sleep_step w w' i : inv w -> sleep_step i w = Some w' -> inv w'.
Proof.
  intros HI; unfold sleep_step; destruct (w_pc w (AP i)) eqn:Hpc; try done; facts HI i Hpc.
  - intros Ht; apply (own_take w w' i (LProc i) (SlpRel l) HI Ht); [move_tac Hpc | locks_tac Hpc ..].
  - intros [= <-]; apply own_drop; [done | | locks_tac Hpc ..].
    split; rewrite ?Hpc; simpl; try done; intros l' [= <-]; lia.
  - intros [= <-]; apply own_set_chan; rewrite ?Hpc; done.
  - intros [= <-]; apply own_set_state; rewrite ?Hpc; simpl; tauto.
  - intros [= <-]; destruct Hst as [Hst Hch]; apply inv_switch_out; rewrite ?Hpc; simpl; rewrite ?Hst; try done; auto.
  - intros [= <-]; apply own_set_chan; rewrite ?Hpc; done.
  - intros [= <-]; apply own_drop; [done | move_tac Hpc | locks_tac Hpc ..].
  - intros Ht; apply (own_take w w' i (LSleep l) (ASTest l) HI Ht); [move_tac Hpc | locks_tac Hpc ..].
Qed.

Lemma inv_sleeplock_step w w' i : inv w -> sleeplock_step i w = Some w' -> inv w'.
Proof.
  intros HI; unfold sleeplock_step; destruct (w_pc w (AP i)) eqn:Hpc; try done; facts HI i Hpc.
  - intros Ht; apply (own_take w w' i (LSleep l) (ASTest l) HI Ht); [move_tac Hpc | locks_tac Hpc ..].
  - intros [= <-]; destruct (i_01 w HI l) as [E | E]; rewrite E; simpl; apply own_goto; try done; rewrite ?Hpc; try done; move_tac Hpc.
  - intros [= <-]; apply (inv_lock (goto (AP i) (ASPid l) w) i l); [| simpl; by look | done].
    apply own_goto; [done | move_tac Hpc | by rewrite Hpc].
  - intros [= <-]; apply (own_goto (w <| w_pid ::= <[l := pid_of i]> |>)%rec i (ASRel l)); [| move_tac Hpc | by simpl; rewrite Hpc].
    by destruct HI; split.
  - intros [= <-]; apply own_drop; [done | move_tac Hpc | locks_tac Hpc ..].
  - intros Ht; apply (own_take w w' i (LSleep l) (RSClear l) HI Ht); [move_tac Hpc | locks_tac Hpc ..].
  - intros [= <-]; apply (inv_clear (goto (AP i) (RSPid l) w) i l); [| simpl; by look | done].
    apply own_goto; [done | move_tac Hpc | by rewrite Hpc].
  - intros [= <-]; apply (own_goto (w <| w_pid ::= <[l := 0]> |>)%rec i (WkAcq l 0)); [| move_tac Hpc | by simpl; rewrite Hpc].
    by destruct HI; split.
  - intros [= <-]; apply own_drop; [done | move_tac Hpc | locks_tac Hpc ..].
Qed.

(** A process whose p->lock another agent has is asleep if it is about to. *)
Lemma sleepy_off w a m st l :
  inv w -> LProc m ∈ locks_at a (w_pc w a) -> a <> AP m -> sleepy (w_pc w (AP m)) st = Some l ->
  w_pc w (AP m) = POff (RSleep l) /\ st = SLEEPING.
Proof.
  intros HI Hlk Ham Hs.
  assert (Hno : LProc m ∉ locks_at (AP m) (w_pc w (AP m))) by (intros Hin; by apply Ham, (excl w (LProc m) a (AP m) HI)).
  destruct (w_pc w (AP m)) as [| | | | | | | | | | | | | [] | | | | | | | | | | | | | | | | | | | | |]; simpl in *; try done.
  1-3: exfalso; apply Hno; constructor.
  case_bool_decide; by simplify_eq.
Qed.

Lemma wake_tested w i l m :
  inv w -> w_pc w (AP i) = WkTest l m ->
  let w1 := if bool_decide (w_state w m = SLEEPING) && bool_decide (w_chan w m = ChSleep l)
            then (w <| w_state ::= <[m := RUNNABLE]> |>)%rec else w in
  inv w1 /\ w_pc w1 = w_pc w /\ sleepy (w_pc w1 (AP m)) (w_state w1 m) <> Some l.
Proof.
  intros HI Hpc; assert (Hlk : LProc m ∈ locks_at (AP i) (w_pc w (AP i))) by (rewrite Hpc; constructor).
  pose proof (i_state w HI m) as Hst; case_bool_decide as H1; [case_bool_decide as H2 |]; simpl.
  - assert (Hne : AP i <> AP m) by (intros [= ->]; rewrite Hpc in Hst; simpl in Hst; congruence).
    split; [by apply (inv_wake w (AP i)) |]; split; [done |]; look; intros Hs.
    by destruct (sleepy_off w (AP i) m _ l HI Hlk Hne Hs).
  - split; [done |]; split; [done |]; intros Hs; destruct (decide (AP i = AP m)) as [[= ->] | Hne]; [by rewrite Hpc in Hs |].
    destruct (sleepy_off w (AP i) m _ l HI Hlk Hne Hs) as [E _]; rewrite E in Hst; destruct Hst; congruence.
  - split; [done |]; split; [done |]; intros Hs; destruct (decide (AP i = AP m)) as [[= ->] | Hne]; [by rewrite Hpc in Hs |].
    by destruct (sleepy_off w (AP i) m _ l HI Hlk Hne Hs).
Qed.

(** wakeup() passes an entry only when its process is not, or no longer,
    asleep on the channel. *)
Lemma inv_wakeup_step w w' i : inv w -> wakeup_step i w = Some w' -> inv w'.
Proof.
  intros HI; unfold wakeup_step; destruct (w_pc w (AP i)) eqn:Hpc; try done; facts HI i Hpc.
  - destruct (Nat.ltb_spec m NPROC); [destruct (Nat.eqb_spec m i) as [-> | Hm]; simpl |].
    + intros [= <-]; apply own_goto; [done | move_tac Hpc | by rewrite Hpc].
    + intros Ht; apply (own_take w w' i (LProc m) (WkTest l m) HI Ht); [move_tac Hpc | locks_tac Hpc ..].
    + intros [= <-]; apply own_goto; [done | | by rewrite Hpc]; split; rewrite ?Hpc; simpl; try done; intros; simplify_eq; lia.
  - intros [= <-]; destruct (wake_tested w i l m HI Hpc) as (HI1 & Hpc1 & Hm); cbv zeta in *; set (w1 := if _ && _ then _ else w) in *.
    rewrite <- Hpc1 in Hpc; clear Hst Hkn; facts HI1 i Hpc; apply own_goto; [done | | by rewrite Hpc].
    split; rewrite ?Hpc; simpl; try done; intros j l' m' Hj _ [= <- <-] Hle Hsl; exists (S m); split; [done |].
    destruct (decide (j = m)) as [-> |]; [done | lia].
  - intros [= <-]; apply own_drop; [done | move_tac Hpc | locks_tac Hpc ..].
Qed.

Lemma inv_kill_step w w' i : inv w -> kill_step i w = Some w' -> inv w'.
Proof.
  intros HI; unfold kill_step; destruct (w_pc w (AP i)) eqn:Hpc; try done; facts HI i Hpc.
  - destruct (m <? NPROC)%nat; [| intros [= <-]; apply own_goto; [done | move_tac Hpc | by rewrite Hpc]].
    intros Ht; apply (own_take w w' i (LProc m) (KlTest pid m) HI Ht); [move_tac Hpc | locks_tac Hpc ..].
  - destruct (pid_of m =? pid); [| intros [= <-]; apply own_goto; [done | move_tac Hpc | by rewrite Hpc]].
    intros [= <-]; set (w1 := (w <| w_killed ::= <[m := 1]> |>)%rec).
    assert (HI1 : inv w1) by (destruct HI; by split).
    change (w_state w m) with (w_state w1 m); case_bool_decide as Hs; [| apply own_goto; [done | move_tac Hpc | by simpl; rewrite Hpc]].
    assert (Hne : AP i <> AP m) by (intros [= ->]; simpl in Hs; congruence).
    assert (HI2 : inv (w1 <| w_state ::= <[m := RUNNABLE]> |>)%rec)
      by (apply (inv_wake w1 (AP i)); [done | simpl; rewrite Hpc; constructor | done | done]).
    apply own_goto; [done | | by simpl; rewrite Hpc]; split; simpl; rewrite ?Hpc; try done; simpl; rewrite fn_lookup_insert_ne by congruence; done.
  - intros [= <-]; apply own_drop; [done | move_tac Hpc | locks_tac Hpc ..].
  - intros [= <-]; apply own_drop; [done | move_tac Hpc | locks_tac Hpc ..].
Qed.

(** Steps of a scheduler that neither start nor end in [CRunning] *)
Lemma cpu_move w w' k y :
  inv w -> locks_inv w' -> (forall m, w_pc w (AC k) <> CRunning m) -> point_ok (AC k) y ->
  (forall b, w_pc w' b = if decide (b = AC k) then y else w_pc w b) ->
  w_state w' = w_state w -> w_chan w' = w_chan w -> w_on w' = w_on w -> w_ret w' = w_ret w -> w_locked w' = w_locked w -> w_has w' = w_has w ->
  inv w'.
Proof.
  intros [HL Hpt Hrun Hs Hret Hk H01 Hl He Hw] HL' Hno Hy Hpc Hst Hch Hon Hr Hlk Hhas.
  assert (HAP : forall i, w_pc w' (AP i) = w_pc w (AP i)) by (intros i; by rewrite Hpc, decide_False).
  split; rewrite ?Hst, ?Hch, ?Hr, ?Hlk, ?Hhas; try done.
  - intros a; rewrite Hpc; case_decide; [by subst | apply Hpt].
  - intros i; rewrite HAP, Hon; intros Hi; apply Hrun in Hi; rewrite Hpc, decide_False; [done |]; intros [= E]; by apply (Hno i); rewrite <- E.
  - intros i; rewrite HAP; apply Hs.
  - intros i; rewrite HAP; apply Hk.
  - intros i l; rewrite HAP; intros Hi Hsl H0; destruct (Hw i l Hi Hsl H0) as (j & m & ? & ?); exists j, m; by rewrite HAP.
Qed.

Lemma inv_sched_loop w w' k : inv w -> sched_loop_step k w = Some w' -> inv w'.
Proof.
  intros HI; unfold sched_loop_step; destruct (w_pc w (AC k)) eqn:Hpc; try done; pose proof (i_locks w HI) as HL.
  - destruct (m <? NPROC)%nat.
    + intros Ht; destruct (locks_take (AC k) (LProc m) (CTest m) w w' HL) as (_ & HL' & ->); [locks_tac Hpc | locks_tac Hpc | done |].
      apply (cpu_move w _ k (CTest m)); rewrite ?Hpc; try done; intros b; simpl; case_decide; by look.
    + intros [= <-]; apply (cpu_move w _ k (CLoop 0)); rewrite ?Hpc; try done; [apply locks_goto; by rewrite ?Hpc |].
      intros b; simpl; case_decide; by look.
  - case_bool_decide; [intros [= <-]; by apply inv_switch_in |].
    intros [= <-]; apply (cpu_move w _ k (CRel m)); rewrite ?Hpc; try done; [apply locks_goto; by rewrite ?Hpc |].
    intros b; simpl; case_decide; by look.
  - intros [= <-]; destruct (locks_drop (AC k) (LProc m) (CLoop (S m)) w HL) as [-> HL']; [locks_tac Hpc .. |].
    apply (cpu_move w _ k (CLoop (S m))); rewrite ?Hpc; try done; intros b; simpl; case_decide; by look.
Qed.

(** The timer *)
Lemma inv_interrupt w i :
  inv w -> interruptible (w_pc w (AP i)) = true -> inv (goto (AP i) YAcq (w <| w_ret ::= <[i := w_pc w (AP i)]> |>)%rec).
Proof.
  intros HI Hr; destruct (interruptible_facts i _ Hr) as (F1 & F2 & F3 & F4 & F5 & F6 & F7); set (x := w_pc w (AP i)) in *.
  assert (Hx : forall r, to_do x r = x) by (clearbody x; by destruct x).
  pose proof (i_know w HI i) as Hkn; fold x in Hkn; rewrite Hx in Hkn.
  pose proof (i_state w HI i) as Hst; fold x in Hst; assert (Hrun : w_state w i = RUNNING) by (clearbody x; by destruct x).
  assert (HI1 : inv (w <| w_ret ::= <[i := x]> |>)%rec).
  { destruct HI as [HL Hpt Hru Hs Hret Hk H01 Hl He Hw]; split; try done; simpl.
    - intros j; by look.
    - intros j; destruct (decide (i = j)) as [<- | Hne]; [rewrite fn_lookup_insert; fold x; by rewrite Hx |].
      rewrite fn_lookup_insert_ne by done; apply Hk. }
  apply own_goto; [done | | simpl; fold x; by rewrite F7]; split; simpl; try done; fold x; rewrite ?fn_lookup_insert, ?F6; done.
Qed.

Lemma inv_step w w' a c : inv w -> step a c w = Some w' -> inv w'.
Proof.
  intros HI; destruct a as [i | k]; [| apply inv_sched_loop; done]; simpl; unfold proc_step.
  destruct (interruptible (w_pc w (AP i))) eqn:Hi; [case_bool_decide; [intros [= <-]; by apply inv_interrupt |] |]; simpl; clear Hi.
  all: destruct (w_pc w (AP i)) eqn:Hpc; try done; try (by apply inv_yield_step); try (by apply inv_sleep_step);
    try (by apply inv_wakeup_step); try (by apply inv_kill_step); try (by apply inv_sleeplock_step).
  all: facts HI i Hpc; destruct c; try case_decide; try done; intros [= <-]; apply own_goto; rewrite ?Hpc; try done; move_tac Hpc.
Qed.

Lemma reachable_inv w : reachable w -> inv w.
Proof. induction 1; [apply inv_0 | by eapply inv_step]. Qed.

(** ** Progress *)

Definition moves (w w' : world) : Prop := exists a c, step a c w = Some w'.

Lemma moves_inv w w' : inv w -> rtc moves w w' -> inv w'.
Proof. intros HI; induction 1 as [| w1 w2 w3 (a & c & Hs) _ IH]; [done |]; apply IH; by eapply inv_step. Qed.

(** The steps the holder of a p->lock takes at most until it is free *)
Definition hold_left (x : point) : nat :=
  match x with
  | SlpRel _ => 6 | SlpChan _ => 5 | SlpState _ | YSet | CTest _ => 4 | SlpSched _ | YSched => 3
  | SlpTidy _ | CRel _ | WkTest _ _ | KlTest _ _ => 2 | _ => 1
  end.

(** After a step of [a], p->lock of [m] is free or will be sooner. *)
Definition nearer (m : nat) (a : agent) (w w' : world) : Prop :=
  (w_owner w' (LProc m) = None \/ exists b, w_owner w' (LProc m) = Some b /\ (hold_left (w_pc w' b) < hold_left (w_pc w a))%nat) /\
  (forall j, AP j <> a -> j <> m -> w_pc w' (AP j) = w_pc w (AP j)).

Lemma nearer_goto m a y w w1 :
  w_owner w (LProc m) = Some a -> (hold_left y < hold_left (w_pc w a))%nat -> w_owner w1 = w_owner w -> w_pc w1 = w_pc w ->
  nearer m a w (goto a y w1).
Proof. intros Ho Hlt Eo Ep; split; rewrite <- Eo in Ho; rewrite <- ?Ep in *; [right; exists a; simpl; by look |]; intros j Hj _; simpl; by look. Qed.

Lemma nearer_other m a lk y w :
  w_owner w (LProc m) = Some a -> w_owner w lk = Some a -> lk <> LProc m -> (hold_left y < hold_left (w_pc w a))%nat ->
  nearer m a w (drop_lock a lk y w).
Proof.
  intros Ho Hlk Hne Hlt; unfold drop_lock; rewrite decide_True by done; split; [right; exists a; simpl; by look |].
  intros j Hj _; simpl; by look.
Qed.

Lemma nearer_drop m a y w :
  w_owner w (LProc m) = Some a -> nearer m a w (drop_lock a (LProc m) y w).
Proof. intros Ho; unfold drop_lock; rewrite decide_True by done; split; [left; simpl; by look |]; intros j Hj _; simpl; by look. Qed.

Lemma nearer_sched i r w :
  inv w -> locks_at (AP i) (w_pc w (AP i)) = [LProc i] -> w_state w i <> RUNNING -> hold_left (w_pc w (AP i)) = 3%nat ->
  nearer i (AP i) w (sched_step i r w).
Proof.
  intros HI Hlk Hnr H3; destruct (i_locks w HI) as [Hh Ho].
  unfold sched_step; rewrite bool_decide_eq_true_2 by (apply Ho; rewrite Hlk; constructor); rewrite Hh, Hlk; simpl.
  rewrite bool_decide_eq_false_2 by done; split.
  - right; exists (AC (w_on w i)); simpl; look; split; [done |]; rewrite H3; simpl; lia.
  - intros j Hj _; simpl; by look.
Qed.

(** The holder of a p->lock never waits. *)
Lemma holder_moves w m a c : inv w -> w_owner w (LProc m) = Some a -> exists w', step a c w = Some w' /\ nearer m a w w'.
Proof.
  intros HI Ho; pose proof (proj1 (proj2 (i_locks w HI) _ _) Ho) as Hin; pose proof (i_point w HI a) as Hpt.
  destruct a as [i | k]; simpl; [unfold proc_step, yield_step, sleep_step, wakeup_step, kill_step | unfold sched_loop_step].
  - pose proof (i_state w HI i) as Hst; destruct (w_pc w (AP i)) eqn:Hpc; simpl in *;
      rewrite ?elem_of_cons, ?elem_of_nil in Hin; destruct_or? Hin; try done; simplify_eq; try case_match; eexists; (split; [reflexivity |]);
      try (by apply nearer_drop); try (apply nearer_goto; rewrite ?Hpc; repeat case_match; simpl; done || lia).
    + apply nearer_sched; rewrite ?Hpc; try done; congruence.
    + apply nearer_other; rewrite ?Hpc; simpl; try done; try lia; apply (i_locks w HI); rewrite Hpc; set_solver.
    + apply nearer_sched; rewrite ?Hpc; try done; destruct Hst; congruence.
  - destruct (w_pc w (AC k)) eqn:Hpc; simpl in *; try (by apply not_elem_of_nil in Hin); try done;
      apply list_elem_of_singleton in Hin as [= <-].
    + case_bool_decide as Hm; eexists; (split; [reflexivity |]); [| apply nearer_goto; rewrite ?Hpc; simpl; done || lia].
      destruct (runnable_off w k m HI Hpc Hm) as [r ->].
      split; [right; exists (AP m); simpl; look; split; [done |]; rewrite Hpc | intros j _ Hj; simpl; by look].
      destruct r; simpl; lia.
    + eexists; split; [reflexivity |]; by apply nearer_drop.
Qed.

(** So a p->lock can become free while everyone who does not have it waits. *)
Lemma plock_drains w m j :
  inv w -> j <> m -> LProc m ∉ locks_at (AP j) (w_pc w (AP j)) ->
  exists w', rtc moves w w' /\ w_owner w' (LProc m) = None /\ w_pc w' (AP j) = w_pc w (AP j).
Proof.
  intros HI Hjm; destruct (w_owner w (LProc m)) as [a |] eqn:Ho; [| by exists w].
  remember (hold_left (w_pc w a)) as n eqn:Hn; revert w a HI Ho Hn; induction (lt_wf n) as [n _ IH]; intros w a HI Ho -> Hj.
  destruct (holder_moves w m a PYield HI Ho) as (w1 & Hs & Hnear & Hpc).
  assert (HI1 : inv w1) by (by eapply inv_step); assert (Hm : moves w w1) by (by exists a, PYield).
  assert (Haj : AP j <> a) by (intros <-; by apply Hj, (i_locks w HI)); specialize (Hpc j Haj Hjm).
  destruct Hnear as [Hfree | (b & Hb & Hlt)]; [exists w1; split; [by apply rtc_once | done] |].
  destruct (IH _ Hlt w1 b HI1 Hb eq_refl) as (w2 & ? & ? & ?); [by rewrite Hpc |].
  exists w2; split; [by eapply rtc_l | by rewrite <- Hpc].
Qed.

Definition asleep_on (l : slid) (w : world) (i : nat) : Prop := w_state w i = SLEEPING /\ w_chan w i = ChSleep l.

(** wakeup() gets to every entry, and leaves it awake. *)
Lemma wake_test w j l m :
  inv w -> w_pc w (AP j) = WkTest l m -> exists w', moves w w' /\ w_pc w' (AP j) = WkRel l m /\ ~ asleep_on l w' m.
Proof.
  intros HI Hpc; destruct (wake_tested w j l m HI Hpc) as (HI1 & Hpc1 & Hm); cbv zeta in *.
  eexists; split; [exists (AP j), PYield; simpl; unfold proc_step, wakeup_step; rewrite Hpc; reflexivity |].
  set (w1 := if _ && _ then _ else w) in *; split; [simpl; by look |]; intros [Hs Hc]; simpl in Hs, Hc.
  pose proof (i_state w1 HI1 m) as Hst; rewrite Hs in Hst; destruct (state_sleeping _ _ Hst) as [[l' E] | (l' & E & E')].
  - assert (AP j = AP m) by (apply (excl w1 (LProc m)); [done | rewrite Hpc1, Hpc; constructor | rewrite E; constructor]).
    rewrite Hpc1 in E; congruence.
  - apply Hm; rewrite E, Hs; simpl; congruence.
Qed.

Lemma wake_reaches d w j l m i :
  inv w -> w_pc w (AP j) = WkAcq l m -> (i - m <= d)%nat -> (m <= i)%nat -> (i < NPROC)%nat -> i <> j ->
  exists w', rtc moves w w' /\ ~ asleep_on l w' i.
Proof.
  revert w m; induction d as [d IH] using lt_wf_ind; intros w m HI Hpc Hd Hm Hi Hij.
  assert (Hlt : (m <? NPROC)%nat = true) by (apply Nat.ltb_lt; lia).
  assert (Hnext : forall w', rtc moves w w' -> w_pc w' (AP j) = WkAcq l (S m) -> (m < i)%nat -> exists w2, rtc moves w w2 /\ ~ asleep_on l w2 i).
  { intros w' Hr Hp Hl; destruct (IH (i - S m)%nat ltac:(lia) w' (S m)) as (w2 & ? & ?); try done; try lia; [by eapply moves_inv |].
    exists w2; split; [by etransitivity | done]. }
  destruct (decide (m = j)) as [-> | Hmj].
  { apply (Hnext (goto (AP j) (WkAcq l (S j)) w)); [apply rtc_once; exists (AP j), PYield | simpl; by look | lia].
    simpl; unfold proc_step, wakeup_step; by rewrite Hpc, Hlt, Nat.eqb_refl. }
  destruct (plock_drains w m j HI ltac:(done)) as (w1 & Hr1 & Ho1 & Hp1); [rewrite Hpc; set_solver |].
  assert (HI1 : inv w1) by (by eapply moves_inv); rewrite Hpc in Hp1.
  assert (Ht : exists w2, moves w1 w2 /\ w_pc w2 (AP j) = WkTest l m).
  { eexists; split; [exists (AP j), PYield; simpl; unfold proc_step, wakeup_step; rewrite Hp1, Hlt |].
    - rewrite (proj2 (Nat.eqb_neq m j)) by done; simpl; unfold take_lock; rewrite Ho1; reflexivity.
    - simpl; by look. }
  destruct Ht as (w2 & Hm2 & Hp2); assert (HI2 : inv w2) by (destruct Hm2 as (? & ? & ?); by eapply inv_step).
  destruct (wake_test w2 j l m HI2 Hp2) as (w3 & Hm3 & Hp3 & Hna).
  assert (Hr3 : rtc moves w w3) by (etransitivity; [exact Hr1 |]; eapply rtc_l; [exact Hm2 |]; by apply rtc_once).
  destruct (decide (m = i)) as [-> |]; [by exists w3 |].
  pose proof (moves_inv w w3 HI Hr3) as HI3.
  apply (Hnext (drop_lock (AP j) (LProc m) (WkAcq l (S m)) w3)); [eapply rtc_r; [exact Hr3 |]; exists (AP j), PYield | | lia].
  - simpl; unfold proc_step, wakeup_step; by rewrite Hp3.
  - unfold drop_lock; rewrite decide_True; [simpl; by look |]; apply (i_locks w3 HI3); rewrite Hp3; constructor.
Qed.

Lemma waking_reaches w j l m i :
  inv w -> waking (w_pc w (AP j)) = Some (l, m) -> (m <= i)%nat -> (i < NPROC)%nat -> i <> j ->
  exists w', rtc moves w w' /\ ~ asleep_on l w' i.
Proof.
  intros HI Hw Hm Hi Hij.
  assert (Hgo : forall w1 n, moves w w1 -> w_pc w1 (AP j) = WkAcq l n -> (n <= i)%nat -> exists w', rtc moves w w' /\ ~ asleep_on l w' i).
  { intros w1 n Hm1 Hp Hn; assert (HI1 : inv w1) by (by eapply moves_inv; [| apply rtc_once]).
    destruct (wake_reaches (i - n) w1 j l n i) as (w2 & ? & ?); try done; exists w2; split; [by eapply rtc_l | done]. }
  assert (Hrel : forall w1 n, inv w1 -> w_pc w1 (AP j) = WkRel l n -> exists w2, moves w1 w2 /\ w_pc w2 (AP j) = WkAcq l (S n)).
  { intros w1 n HI1 Hp; eexists; split; [exists (AP j), PYield; simpl; unfold proc_step, wakeup_step; rewrite Hp; reflexivity |].
    unfold drop_lock; rewrite decide_True; [simpl; by look |]; apply (i_locks w1 HI1); rewrite Hp; constructor. }
  destruct (w_pc w (AP j)) eqn:Hpc; simplify_eq/=.
  - eapply (Hgo _ 0%nat); [exists (AP j), PYield; simpl; unfold proc_step, sleeplock_step; rewrite Hpc; reflexivity | simpl; by look | lia].
  - by eapply (wake_reaches (i - m)).
  - destruct (wake_test w j l m HI Hpc) as (w1 & Hm1 & Hp1 & Hna); destruct (decide (m = i)) as [-> |]; [by exists w1; split; [apply rtc_once |] |].
    assert (HI1 : inv w1) by (by eapply moves_inv; [| apply rtc_once]); destruct (Hrel w1 m HI1 Hp1) as (w2 & Hm2 & Hp2).
    assert (HI2 : inv w2) by (by eapply moves_inv; [exact HI1 | apply rtc_once]).
    destruct (wake_reaches (i - S m) w2 j l (S m) i) as (w3 & ? & ?); try done; try lia.
    exists w3; split; [eapply rtc_l; [exact Hm1 |]; by eapply rtc_l | done].
  - destruct (Hrel w m0 HI Hpc) as (w1 & Hm1 & Hp1); by apply (Hgo w1 (S m0)).
Qed.

Lemma asleep_sleepy w i l : inv w -> asleep_on l w i -> sleepy (w_pc w (AP i)) (w_state w i) = Some l.
Proof.
  intros HI [Hs Hc]; pose proof (i_state w HI i) as Hst; rewrite Hs in *.
  destruct (state_sleeping _ _ Hst) as [[l' E] | (l' & E & E')]; rewrite E in *; simpl in *; [destruct Hst |]; congruence.
Qed.

(** C24: no wakeup is lost.  However the processes and schedulers interleave their
    accesses in sleep(), wakeup(), sched(), yield(), kkill(), scheduler(),
    acquiresleep() and releasesleep(): no check of acquire(), release() or sched()
    panics; at most one process has a sleep lock, and lk->locked is 1 exactly
    while one has it; when a process sleeps on a lock that is free again, a
    releasesleep() of that lock is under way whose wakeup() has yet to visit the
    sleeper, so that once lk->lk is free nobody sleeps on a free lock; and the
    sleeper can always be woken: the holder of any p->lock can take its next
    step, and the wakeup can run on until the process is not asleep any more. *)
Theorem no_wakeup_lost w (Hw : reachable w) :
  (forall a msg, w_pc w a <> PPanic msg) /\
  (forall l i j, l ∈ w_has w i -> l ∈ w_has w j -> i = j) /\
  (forall l, (w_locked w l = 1 <-> exists i, l ∈ w_has w i) /\ (w_locked w l = 0 <-> forall i, l ∉ w_has w i)) /\
  (forall l i, (i < NPROC)%nat -> asleep_on l w i -> w_locked w l = 0 ->
     exists j m, waking (w_pc w (AP j)) = Some (l, m) /\ (m <= i)%nat /\ w_owner w (LSleep l) = Some (AP j)) /\
  (forall l i, (i < NPROC)%nat -> w_owner w (LSleep l) = None -> asleep_on l w i -> w_locked w l = 1) /\
  (forall m a c, w_owner w (LProc m) = Some a -> exists w', step a c w = Some w') /\
  (forall l i, (i < NPROC)%nat -> asleep_on l w i -> w_locked w l = 0 -> exists w', rtc moves w w' /\ ~ asleep_on l w' i).
Proof.
  apply reachable_inv in Hw as HI.
  assert (Hwait : forall l i, (i < NPROC)%nat -> asleep_on l w i -> w_locked w l = 0 ->
     exists j m, waking (w_pc w (AP j)) = Some (l, m) /\ (m <= i)%nat /\ w_owner w (LSleep l) = Some (AP j)).
  { intros l i Hi Ha H0; destruct (i_wait w HI i l Hi (asleep_sleepy w i l HI Ha) H0) as (j & m & Hj & Hm).
    exists j, m; split; [done |]; split; [done |]; apply (i_locks w HI).
    destruct (w_pc w (AP j)); simplify_eq/=; set_solver. }
  split_and!.
  - intros a msg E; pose proof (i_point w HI a) as Hp; by rewrite E in Hp.
  - apply HI.
  - intros l; pose proof (i_locked w HI l) as H1; split; [done |]; split.
    + intros E i Hi; assert (w_locked w l = 1) by (apply H1; eauto); lia.
    + intros Hno; destruct (i_01 w HI l) as [| E]; [done |]; apply H1 in E as [i Hi]; by apply Hno in Hi.
  - done.
  - intros l i Hi Ho Ha; destruct (i_01 w HI l) as [E |]; [| done].
    destruct (Hwait l i Hi Ha E) as (j & m & _ & _ & Hj); congruence.
  - intros m a c Ho; destruct (holder_moves w m a c HI Ho) as (w' & ? & _); eauto.
  - intros l i Hi Ha H0; destruct (Hwait l i Hi Ha H0) as (j & m & Hj & Hm & _); apply (waking_reaches w j l m i); try done.
    intros ->; by apply (awake_or_waking _ _ _ m (asleep_sleepy w j l HI Ha)).
Qed.

End Steps.

(** ** The race *)

Fixpoint run_steps (pid_of : nat -> Z) (l : list (agent * ccall)) (w : world) : option world :=
  match l with
  | [] => Some w
  | (a, c) :: l' => w' ← step pid_of a c w; run_steps pid_of l' w'
  end.

Lemma run_reachable pid_of l w w' : reachable pid_of w -> run_steps pid_of l w = Some w' -> reachable pid_of w'.
Proof.
  revert w; induction l as [| [a c] l IH]; intros w Hw; simpl; [by intros [= <-] |].
  destruct (step pid_of a c w) as [w1 |] eqn:E; [| done]; apply IH; by eapply reachable_step.
Qed.

(** Process 0 has a sleep lock; process 1 finds it taken, locks itself and
    releases lk->lk; process 0 clears lk->locked and its wakeup waits for the
    lock of process 1, which now goes to sleep on a lock that is free. *)
Definition demo_pid (i : nat) : Z := Z.of_nat i + 1.
Definition demo_schedule : list (agent * ccall) :=
  let l := SlInode 0 in
  replicate 2 (AC 0, PYield) ++ replicate 7 (AP 0, PAcquireSleep l) ++ replicate 5 (AC 1, PYield) ++
  replicate 7 (AP 1, PAcquireSleep l) ++ replicate 5 (AP 0, PReleaseSleep l) ++ replicate 2 (AP 1, PYield).
Definition demo_world : world := default world0 (run_steps demo_pid demo_schedule world0).

Lemma demo_world_reachable : reachable demo_pid demo_world.
Proof. apply (run_reachable demo_pid demo_schedule world0); [constructor | vm_compute; reflexivity]. Qed.

Lemma no_wakeup_lost_witness :
  asleep_on (SlInode 0) demo_world 1 /\ w_locked demo_world (SlInode 0) = 0 /\ w_pc demo_world (AP 0) = WkAcq (SlInode 0) 1 /\
  exists w', rtc (moves demo_pid) demo_world w' /\ ~ asleep_on (SlInode 0) w' 1.
Proof.
  assert (Ha : asleep_on (SlInode 0) demo_world 1) by (split; vm_compute; reflexivity).
  assert (H0 : w_locked demo_world (SlInode 0) = 0) by (vm_compute; reflexivity).
  split; [exact Ha |]; split; [exact H0 |]; split; [vm_compute; reflexivity |].
  destruct (no_wakeup_lost demo_pid demo_world demo_world_reachable) as (_ & _ & _ & _ & _ & _ & Hrun).
  apply (Hrun (SlInode 0) 1%nat); [apply Nat.ltb_lt; reflexivity | exact Ha | exact H0].
Defined.
