(* ===== verification/Demo.v ===== *)
(** A small concrete machine: the states the examples of this development
    evaluate.  Its kernel ends eight pages before PHYSTOP, so that a whole boot
    of the allocator can be run. *)
From stdpp Require Import base gmap list strings.
From Stdlib Require Import ZArith Lia ZifyBool.
From S2P Require Import Prelude Memory KPrintf State Monad.

Local Open Scope Z_scope.

Definition demo_linker : Linker := {|
  kend := PHYSTOP - 8 * PGSIZE; etext := KERNBASE + 0x8000; trampoline := KERNBASE + 0x7000;
  uservec_off := 0; userret_off := 0x9c; forkret_addr := KERNBASE + 0x1000; usertrap_addr := KERNBASE + 0x2000;
  kernelvec_addr := KERNBASE + 0x3000 |}.

(** Zero-initialised data, as the BSS segment holds it at boot. *)
Definition zero_context : context := mkcontext 0 0 (replicate 12 0).

Definition zero_proc : proc :=
  mkproc UNUSED ChNull 0 0 0 0 None 0 0 0 0 zero_context (replicate NOFILE None) None
    (replicate 16 0) 0 (replicate NSIG 0) (replicate tf_words 0) 0 0 0
    (replicate (Z.to_nat IPC_MAX_MSG) 0).

Definition zero_sleeplock : sleeplock := mksleeplock 0 0.

Definition zero_buf : buf :=
  mkbuf 0 0 0 0 zero_sleeplock 0 0 0 (replicate (Z.to_nat BSIZE) 0).

Definition zero_inode : inode :=
  mkinode 0 0 0 zero_sleeplock 0 0 0 0 0 0 (replicate 13 0).

Definition zero_file : file := mkfile FD_NONE 0 0 0 0 None 0 0.

Definition zero_log : logstate :=
  mklogstate 0 0 0 0 (mklogheader 0 (replicate (Z.to_nat LOGBLOCKS) 0)).

Definition zero_console : consbuf := mkconsbuf (replicate 128 0) 0 0 0.

Definition zero_vdisk : vdisk :=
  mkvdisk (replicate 8 (mkvdesc DmaNull 0 0 0)) 0 (replicate 8 0) 0 (replicate 8 0)
    (replicate 8 0) 0 (replicate 8 None) (replicate 8 0) (replicate 8 (mkblk_req 0 0 0)).

Definition zero_state : kstate :=
  mkkstate ∅ 0 (replicate NPROC zero_proc) None 1 None [] (mkcsrs 0 0 0 0 0 0 0 0 0) 0 ∅ ∅
    (replicate NFILE zero_file) (replicate NINODE zero_inode) (replicate (S NBUF) zero_buf)
    ∅ zero_log (mksuperblock 0 0 0 0 0 0 0 0) [] 0 1 zero_console 0 zero_vdisk.
