(* ===== verification/Kalloc.v ===== *)
(** The physical page allocator, kernel/kalloc.c.

    The free list is threaded through the free pages themselves: the first
    word of a free page is the address of the next one.  [free_pages m h l]
    says that the list starting at address [h] in memory [m] is [l]; the
    theorems show that kalloc and kfree are pop and push on [l], that a page
    is never on the list twice, and what they do to the rest of memory. *)
From stdpp Require Import base gmap list strings.
From Stdlib Require Import ZArith Lia ZifyBool.
From S2P Require Import Prelude Memory KPrintf State Monad Demo.

Local Open Scope Z_scope.

(** riscv.h: [(((sz)+PGSIZE-1) & ~(PGSIZE-1))] and [(a) & ~(PGSIZE-1)] on uint64 *)
Definition PGROUNDUP (sz : Z) : Z := Z.land (u64 (sz + PGSIZE - 1)) (Z.lnot (PGSIZE - 1)).
Definition PGROUNDDOWN (a : Z) : Z := Z.land a (Z.lnot (PGSIZE - 1)).

Lemma land_page_mask a : Z.land a (Z.lnot (PGSIZE - 1)) = a / PGSIZE * PGSIZE.
Proof.
  unfold PGSIZE; change (4096 - 1) with (Z.ones 12).
  rewrite <- Z.ldiff_land, Z.ldiff_ones_r, Z.shiftl_mul_pow2, Z.shiftr_div_pow2 by lia; done.
Qed.

(** Rounding up gives the next multiple of the page size. *)
Lemma PGROUNDUP_spec a :
  0 <= a < 2 ^ 64 - PGSIZE ->
  PGROUNDUP a mod PGSIZE = 0 /\ a <= PGROUNDUP a < a + PGSIZE.
Proof.
  unfold PGROUNDUP; intros; rewrite land_page_mask, u64_small by (unfold PGSIZE in *; lia).
  split; [apply Z.mod_mul; done |].
  pose proof (Z.div_mod (a + PGSIZE - 1) PGSIZE ltac:(done)).
  pose proof (Z.mod_pos_bound (a + PGSIZE - 1) PGSIZE ltac:(done)). unfold PGSIZE in *; lia.
Qed.

Lemma PGROUNDDOWN_spec a :
  PGROUNDDOWN a mod PGSIZE = 0 /\ PGROUNDDOWN a <= a < PGROUNDDOWN a + PGSIZE.
Proof.
  unfold PGROUNDDOWN; rewrite land_page_mask.
  split; [apply Z.mod_mul; done |].
  pose proof (Z.div_mod a PGSIZE ltac:(done)).
  pose proof (Z.mod_pos_bound a PGSIZE ltac:(done)). unfold PGSIZE in *; lia.
Qed.

Definition set_mem (f : mem -> mem) : K unit :=
  modify (fun s => (s <| k_mem ::= f |>)%rec).

Section Kalloc.
Context `{Linker}.

Definition kfree (pa : Z) : K unit :=
  if negb (pa mod PGSIZE =? 0) || (pa <? kend) || (PHYSTOP <=? pa)
  then panic "kfree"
  else
    set_mem (fun m => memset m pa 1 PGSIZE) ;;
    acquire LKmem ;;
    head ← gets k_freelist;
    set_mem (fun m => store64 m pa head) ;;
    modify (fun s => (s <| k_freelist := pa |>)%rec) ;;
    release LKmem.

Definition kalloc : K Z :=
  acquire LKmem ;;
  r ← gets k_freelist;
  kwhen (negb (r =? 0))
    (modify (fun s => (s <| k_freelist := load64 (k_mem s) r |>)%rec)) ;;
  release LKmem ;;
  kwhen (negb (r =? 0)) (set_mem (fun m => memset m r 5 PGSIZE)) ;;
  mret r.

(** The pages [p], [p + PGSIZE], ... with [p + PGSIZE <= pa_end]. *)
Definition freerange_pages (pa_start pa_end : Z) : list Z :=
  let p := PGROUNDUP pa_start in
  (fun i => p + i * PGSIZE) <$> seqZ 0 ((pa_end - p) / PGSIZE).

Definition freerange (pa_start pa_end : Z) : K unit :=
  kfor_ (freerange_pages pa_start pa_end) kfree.

Definition kinit : K unit := initlock LKmem ;; freerange kend PHYSTOP.

(** ** The free list *)

(** A page kfree accepts. *)
Definition page_ok (pa : Z) : Prop := pa mod PGSIZE = 0 /\ kend <= pa < PHYSTOP.

Fixpoint free_pages (m : mem) (h : Z) (l : list Z) : Prop :=
  match l with
  | [] => h = 0
  | p :: l' => h = p /\ page_ok p /\ free_pages m (load64 m p) l'
  end.

Definition alloc_inv (s : kstate) (l : list Z) : Prop :=
  free_pages (k_mem s) (k_freelist s) l /\ NoDup l.

Lemma pages_apart p q :
  page_ok p -> page_ok q -> p <> q -> q + PGSIZE <= p \/ p + PGSIZE <= q.
Proof.
  unfold page_ok, PGSIZE; intros [Hp ?] [Hq ?] ?.
  apply Z.mod_divide in Hp as [x ->]; [| lia].
  apply Z.mod_divide in Hq as [y ->]; [| lia]. nia.
Qed.

(** The list survives memory changes that leave the free pages' first words. *)
Lemma free_pages_ext m1 m2 h l :
  (forall p, p ∈ l -> load64 m1 p = load64 m2 p) ->
  free_pages m1 h l -> free_pages m2 h l.
Proof.
  revert h; induction l as [| p l IH]; intros h He; simpl; [done |].
  intros (-> & Hp & Hl); split; [done |]; split; [done |].
  rewrite <- He by set_solver; apply IH; [set_solver | done].
Qed.

Lemma free_pages_ok m h l p : free_pages m h l -> p ∈ l -> page_ok p.
Proof.
  revert h; induction l as [| q l IH]; intros h; simpl; [set_solver |].
  intros (-> & Hq & Hl) [-> | Hin]%elem_of_cons; eauto.
Qed.

(** Overwriting page [q] leaves the words of the other pages. *)
Lemma memset_page_load m q c p :
  page_ok p -> page_ok q -> p <> q -> load64 (memset m q c PGSIZE) p = load64 m p.
Proof.
  intros Hp Hq Hne; apply load_le_ext; intros b Hb; rewrite memset_spec.
  destruct (pages_apart p q Hp Hq Hne); unfold PGSIZE in *;
    replace ((q <=? b) && (b <? q + 4096)) with false by lia; done.
Qed.

(** The state kfree leaves. *)
Definition kfree_result (pa : Z) (s : kstate) : kstate :=
  (s <| k_mem := store64 (memset (k_mem s) pa 1 PGSIZE) pa (k_freelist s) |>
     <| k_freelist := pa |>)%rec.

Lemma kfree_run pa s o :
  page_ok pa -> LKmem ∉ k_locks s -> kfree pa s o = Ok tt (kfree_result pa s) o.
Proof.
  intros [Ha Hr] Hl; unfold kfree.
  replace (negb (pa mod PGSIZE =? 0) || (pa <? kend) || (PHYSTOP <=? pa)) with false by lia.
  unfold set_mem; rewrite modify_bind.
  step_with acquire_ok.
  rewrite gets_bind, !modify_bind.
  rewrite release_ok by set_solver.
  unfold kfree_result; state_eq.
Qed.

Definition kalloc_result (p : Z) (s : kstate) : kstate :=
  (s <| k_freelist := load64 (k_mem s) p |>
     <| k_mem := memset (k_mem s) p 5 PGSIZE |>)%rec.

Lemma kalloc_run_page s o :
  k_freelist s <> 0 -> LKmem ∉ k_locks s ->
  kalloc s o = Ok (k_freelist s) (kalloc_result (k_freelist s) s) o.
Proof.
  intros Hf Hl; unfold kalloc, set_mem.
  step_with acquire_ok.
  rewrite gets_bind; simpl.
  replace (k_freelist s =? 0) with false by lia; simpl.
  rewrite modify_bind.
  step_with release_ok.
  rewrite modify_bind, ret_ok.
  unfold kalloc_result; state_eq.
Qed.

Lemma kalloc_run_empty s o :
  k_freelist s = 0 -> LKmem ∉ k_locks s -> kalloc s o = Ok 0 s o.
Proof.
  intros Hf Hl; unfold kalloc.
  step_with acquire_ok.
  rewrite gets_bind; simpl; rewrite Hf; simpl.
  step_with @ret_ok.
  step_with release_ok.
  step_with @ret_ok.
  state_eq.
Qed.

(** Pages the allocator can hand out: the linker puts [end] above address 0. *)
Context (Hend : 0 < kend).

Lemma page_ok_pos p : page_ok p -> 0 < p < 2 ^ 64.
Proof using Hend. unfold page_ok, PHYSTOP, KERNBASE; lia. Qed.

Lemma kfree_inv pa s l :
  page_ok pa -> pa ∉ l -> alloc_inv s l -> alloc_inv (kfree_result pa s) (pa :: l).
Proof using Hend.
  intros Hpa Hnin [Hf Hd]; split; [| by constructor]; simpl.
  split; [done |]; split; [done |].
  rewrite load64_store64.
  assert (Hsm : u64 (k_freelist s) = k_freelist s).
  { destruct l as [| p l]; simpl in Hf; [by rewrite Hf |].
    destruct Hf as (-> & Hp & _); apply u64_small; pose proof (page_ok_pos _ Hp); lia. }
  rewrite Hsm; apply (free_pages_ext (k_mem s)); [| done].
  intros p Hp; assert (p <> pa) by set_solver.
  pose proof (free_pages_ok _ _ _ _ Hf Hp) as Hpok.
  rewrite load64_store64_ne, memset_page_load; auto.
  destruct (pages_apart p pa) as [?|?]; auto; unfold PGSIZE in *; lia.
Qed.

Lemma kalloc_inv p l s :
  alloc_inv s (p :: l) -> k_freelist s = p /\ p <> 0 /\ page_ok p /\
  alloc_inv (kalloc_result p s) l.
Proof using Hend.
  intros [(Hp & Hpok & Hl) Hd]; apply NoDup_cons in Hd as [Hnin Hd].
  pose proof (page_ok_pos _ Hpok).
  split; [done |]; split; [lia |]; split; [done |]; split; [| done].
  apply (free_pages_ext (k_mem s)); [| done].
  intros q Hq; simpl; symmetry; apply memset_page_load; auto; [| set_solver].
  by eapply free_pages_ok.
Qed.

(** Abstract allocator: a stack of free pages. *)
Definition spec_alloc (l : list Z) : Z * list Z :=
  match l with [] => (0, []) | p :: l' => (p, l') end.

(** Memory outside the page [p] is the same. *)
Definition same_but_page (p : Z) (m1 m2 : mem) : Prop :=
  forall a, a < p \/ p + PGSIZE <= a -> mget m1 a = mget m2 a.

(** C23: kalloc refines pop on the abstract stack of free pages: it returns the
    first free page, filled with the byte 5, and 0 when there is none; it keeps
    the free list well formed and changes nothing but that page and the head
    of the list. *)
Theorem kalloc_spec (s : kstate) (o : oracle) (l : list Z)
  (Hinv : alloc_inv s l) (Hlk : LKmem ∉ k_locks s) :
  exists s', kalloc s o = Ok (fst (spec_alloc l)) s' o /\
    alloc_inv s' (snd (spec_alloc l)) /\
    (l = [] -> s' = s) /\
    (forall p l', l = p :: l' ->
       page_ok p /\ p ∉ l' /\ s' = kalloc_result p s /\
       same_but_page p (k_mem s) (k_mem s') /\
       forall a, p <= a < p + PGSIZE -> mget (k_mem s') a = 5).
Proof using Hend.
  destruct l as [| p l]; simpl.
  - destruct Hinv as [Hf Hd]; exists s; rewrite kalloc_run_empty by done.
    split; [done |]; split; [done |]; naive_solver.
  - pose proof (kalloc_inv p l s Hinv) as (Hp & Hp0 & Hpok & Hi).
    assert (Hn : p ∉ l) by (destruct Hinv as [_ Hd]; apply NoDup_cons in Hd as [? _]; done).
    exists (kalloc_result p s); rewrite kalloc_run_page by (subst; done); rewrite Hp.
    split; [done |]; split; [done |]; split; [done |].
    intros ? ? [= <- <-]; split_and!; try done.
    + intros a Ha; simpl; rewrite memset_spec.
      replace ((p <=? a) && (a <? p + PGSIZE)) with false by lia; done.
    + intros a Ha; simpl; rewrite memset_spec.
      replace ((p <=? a) && (a <? p + PGSIZE)) with true by lia; done.
Qed.


(** Freeing a list of pages in turn. *)
Lemma kfree_all ps s o l :
  Forall page_ok ps -> NoDup (ps ++ l) -> alloc_inv s l -> LKmem ∉ k_locks s ->
  exists s', kfor_ ps kfree s o = Ok tt s' o /\ alloc_inv s' (rev ps ++ l) /\
    k_locks s' = k_locks s.
Proof using Hend.
  revert s l; induction ps as [| p ps IH]; intros s l Hp Hd Hi Hl; simpl.
  - exists s; done.
  - apply Forall_cons in Hp as [Hp Hps]; apply NoDup_cons in Hd as [Hn Hd].
    destruct (IH (kfree_result p s) (p :: l)) as (s' & Hr & Hi' & Hlk).
    + done.
    + rewrite <- Permutation_middle; by constructor.
    + apply kfree_inv; [done | set_solver | done].
    + done.
    + exists s'; split; [| split].
      * rewrite kfor__cons; erewrite bind_ok by (by apply kfree_run); exact Hr.
      * rewrite <- app_assoc; exact Hi'.
      * rewrite Hlk; done.
Qed.

(** Kinit puts every whole page between the end of the kernel and PHYSTOP
    on the free list, each exactly once. *)
Theorem kinit_spec (s : kstate) (o : oracle)
  (Hr : kend <= PHYSTOP) (Hf : k_freelist s = 0) (Hlk : LKmem ∉ k_locks s) :
  exists s', kinit s o = Ok tt s' o /\
    alloc_inv s' (rev (freerange_pages kend PHYSTOP)) /\
    forall p, p ∈ freerange_pages kend PHYSTOP <->
      p mod PGSIZE = 0 /\ kend <= p /\ p + PGSIZE <= PHYSTOP.
Proof using Hend.
  destruct (PGROUNDUP_spec kend) as [Hm Hb].
  { unfold PHYSTOP, KERNBASE, PGSIZE in *; lia. }
  assert (Hin : forall p, p ∈ freerange_pages kend PHYSTOP <->
      p mod PGSIZE = 0 /\ kend <= p /\ p + PGSIZE <= PHYSTOP).
  { intros p; unfold freerange_pages; rewrite list_elem_of_fmap.
    apply Z.mod_divide in Hm as [x Hx]; [| done].
    setoid_rewrite elem_of_seqZ; split.
    - intros (i & -> & Hi); rewrite Hx; split.
      + replace (x * PGSIZE + i * PGSIZE) with ((x + i) * PGSIZE) by ring; by apply Z.mod_mul.
      + assert (i + 1 <= (PHYSTOP - PGROUNDUP kend) / PGSIZE) by lia.
        pose proof (Z.mul_div_le (PHYSTOP - PGROUNDUP kend) PGSIZE ltac:(done)).
        unfold PGSIZE in *; nia.
    - intros (Hp & Hk & He); apply Z.mod_divide in Hp as [y ->]; [| done].
      exists (y - x); split; [rewrite Hx; ring |].
      assert (x <= y) by (unfold PGSIZE in *; nia).
      assert (y - x + 1 <= (PHYSTOP - PGROUNDUP kend) / PGSIZE); [| lia].
      apply Z.div_le_lower_bound; [done |]; rewrite Hx; unfold PGSIZE in *; nia. }
  unfold kinit; erewrite bind_ok by (by apply initlock_ok).
  destruct (kfree_all (freerange_pages kend PHYSTOP) s o []) as (s' & Hk & Hi & _); auto.
  - apply Forall_forall; intros p (? & ? & ?)%Hin; unfold page_ok, PGSIZE in *; lia.
  - rewrite app_nil_r; unfold freerange_pages; apply NoDup_fmap_2_strong; [| apply NoDup_seqZ].
    intros; unfold PGSIZE in *; lia.
  - split; [done | constructor].
  - exists s'; rewrite app_nil_r in Hi; done.
Qed.

End Kalloc.


(** ** The allocator on the demonstration machine *)

Definition demo_p0 : Z := PHYSTOP - 8 * PGSIZE.
Definition demo_p1 : Z := PHYSTOP - 7 * PGSIZE.

(** Two free pages, [demo_p0] first. *)
Definition demo_free : kstate :=
  (zero_state <| k_mem := store64 (store64 ∅ demo_p0 demo_p1) demo_p1 0 |>
              <| k_freelist := demo_p0 |>)%rec.

Lemma demo_free_inv : alloc_inv (H := demo_linker) demo_free [demo_p0; demo_p1].
Proof.
  split.
  - split; [done |]; split; [by vm_compute |].
    split; [by vm_compute |]; split; by vm_compute.
  - by apply (bool_decide_unpack _); vm_compute.
Qed.

Lemma kalloc_spec_witness :
  exists s', kalloc demo_free [] = Ok demo_p0 s' [] /\
    alloc_inv (H := demo_linker) s' [demo_p1] /\ mget (k_mem s') (demo_p0 + 8) = 5.
Proof.
  destruct (kalloc_spec (H := demo_linker) ltac:(by vm_compute) demo_free []
              [demo_p0; demo_p1] demo_free_inv ltac:(set_solver))
    as (s' & Hr & Hi & _ & Hp).
  exists s'; split; [exact Hr |]; split; [exact Hi |].
  destruct (Hp demo_p0 [demo_p1] eq_refl) as (_ & _ & _ & _ & Hb).
  apply Hb; split; vm_compute; congruence.
Defined.


Lemma kinit_spec_witness :
  exists s', kinit (H := demo_linker) zero_state [] = Ok tt s' [] /\
    alloc_inv (H := demo_linker) s'
      (rev (freerange_pages (PHYSTOP - 8 * PGSIZE) PHYSTOP)).
Proof.
  destruct (kinit_spec (H := demo_linker) ltac:(by vm_compute) zero_state []
     ltac:(vm_compute; congruence) eq_refl ltac:(set_solver)) as (s' & Hk & Hi & _).
  exists s'; split; [exact Hk | exact Hi].
Defined.
