(* ===== verification/ProcBase.v ===== *)
(** The part of kernel/proc.c every other component rests on: the current
    process, pids, sched, sleep, wakeup, kill and the scheduler.

    A pointer [p] into [proc[]] is an index.  [swtch] hands the CPU over: what
    happens until the process runs again is the next entry of the oracle. *)
From stdpp Require Import base gmap list strings.
From Stdlib Require Import ZArith Lia ZifyBool.
From S2P Require Import Prelude Memory KPrintf State Monad Demo.

Local Open Scope Z_scope.

(** ** The current process *)

Definition cpuid : K Z := gets (fun s => tp (k_csr s)).

(** [myproc] may be NULL; [curproc] is its use as a pointer. *)
Definition myproc : K (option nat) := gets k_cur.

Definition curproc : K nat :=
  c ← myproc; from_option_K c.

Definition allocpid : K Z :=
  acquire LPid ;;
  pid ← gets k_nextpid;
  modify (fun s => (s <| k_nextpid := i32 (k_nextpid s + 1) |>)%rec) ;;
  release LPid ;;
  mret pid.

(** ** Switching *)

(** SSTATUS_SIE is bit 1.  Device interrupts are enabled when it is set and no
    spinlock is held: push_off() keeps it clear while one is, and pop_off()
    restores it with the last. *)
Definition intr_get : K bool :=
  gets (fun s => bool_decide (k_locks s = []) && Z.testbit (sstatus (k_csr s)) 1).

Definition swtch : K unit := fun s o =>
  match o with
  | [] => Blocked s
  | e :: o' => Ok tt (e s) o'
  end.

Definition sched : K unit :=
  p ← curproc;
  locks ← gets k_locks;
  if negb (bool_decide (LProc p ∈ locks)) then panic "sched p->lock"
  else if negb (Nat.eqb (length locks) 1) then panic "sched locks"
  else
    pr ← pget p;
    if bool_decide (p_state pr = RUNNING) then panic "sched RUNNING"
    else
      ie ← intr_get;
      if ie : bool then panic "sched interruptible" else swtch.

Definition yield : K unit :=
  p ← curproc;
  acquire (LProc p) ;;
  pset p (fun pr => (pr <| p_state := RUNNABLE |>)%rec) ;;
  sched ;;
  release (LProc p).

Definition sleep (ch : chan) (lk : lockid) : K unit :=
  p ← curproc;
  acquire (LProc p) ;;
  release lk ;;
  pset p (fun pr => (pr <| p_chan := ch |>)%rec) ;;
  pset p (fun pr => (pr <| p_state := SLEEPING |>)%rec) ;;
  sched ;;
  pset p (fun pr => (pr <| p_chan := ChNull |>)%rec) ;;
  release (LProc p) ;;
  acquire lk.

Definition wakeup (ch : chan) : K unit :=
  kfor_ (seq 0 NPROC) (fun p =>
    me ← myproc;
    kwhen (negb (bool_decide (Some p = me)))
      (acquire (LProc p) ;;
       pr ← pget p;
       kwhen (bool_decide (p_state pr = SLEEPING) && bool_decide (p_chan pr = ch))
         (pset p (fun pr => (pr <| p_state := RUNNABLE |>)%rec)) ;;
       release (LProc p))).

(** One round of the for(;;) loop of scheduler(): [found] in the result.  The
    process runs between the two halves of [swtch]. *)
Definition scheduler_round : K bool :=
  r ← kfor (seq 0 NPROC) (fun p (found : bool) =>
    acquire (LProc p) ;;
    pr ← pget p;
    if bool_decide (p_state pr = RUNNABLE) then
      pset p (fun pr => (pr <| p_state := RUNNING |>)%rec) ;;
      modify (fun s => (s <| k_cur := Some p |>)%rec) ;;
      swtch ;;
      modify (fun s => (s <| k_cur := None |>)%rec) ;;
      release (LProc p) ;;
      mret (inl (B := bool) true)
    else
      release (LProc p) ;;
      mret (inl found)) false;
  mret (match r with inl f => f | inr f => f end).

(** ** Killing *)

Definition kkill (pid : Z) : K Z :=
  r ← kfor (seq 0 NPROC) (fun p (_ : unit) =>
    acquire (LProc p) ;;
    pr ← pget p;
    if p_pid pr =? pid then
      pset p (fun pr => (pr <| p_killed := 1 |>)%rec) ;;
      kwhen (bool_decide (p_state pr = SLEEPING))
        (pset p (fun pr => (pr <| p_state := RUNNABLE |>)%rec)) ;;
      release (LProc p) ;;
      mret (inr 0)
    else
      release (LProc p) ;;
      mret (inl tt)) tt;
  mret (match r with inr v => v | inl _ => -1 end).

Definition setkilled (p : nat) : K unit :=
  acquire (LProc p) ;;
  pset p (fun pr => (pr <| p_killed := 1 |>)%rec) ;;
  release (LProc p).

Definition killed (p : nat) : K Z :=
  acquire (LProc p) ;;
  pr ← pget p;
  release (LProc p) ;;
  mret (p_killed pr).

(** ** Loops over the process table *)

#[global] Arguments NPROC : simpl never.

Lemma curproc_ok p s o : k_cur s = Some p -> curproc s o = Ok p s o.
Proof. intros H; unfold curproc, myproc; rewrite gets_bind, H; done. Qed.

(** No process lock is held. *)
Definition no_plock (s : kstate) : Prop := forall i, LProc i ∉ k_locks s.

Definition procs_ok (s : kstate) : Prop := length (k_procs s) = NPROC.

Lemma upd_lookup_eq {A} i (f : A -> A) l x : l !! i = Some x -> upd i f l !! i = Some (f x).
Proof. intros H; unfold upd; rewrite list_lookup_alter_eq, H; done. Qed.

Lemma upd_lookup_ne {A} i j (f : A -> A) l : i <> j -> upd i f l !! j = l !! j.
Proof. apply list_lookup_alter_ne. Qed.

Lemma upd_lookup {A} i j (f : A -> A) l :
  upd i f l !! j = if decide (i = j) then f <$> l !! j else l !! j.
Proof. unfold upd; rewrite list_lookup_alter; case_decide; subst; done. Qed.

Lemma length_upd {A} i (f : A -> A) l : length (upd i f l) = length l.
Proof. apply length_alter. Qed.

Lemma upd_upd {A} i (f g : A -> A) l : upd i f (upd i g l) = upd i (f ∘ g) l.
Proof.
  apply list_eq; intros j; rewrite !upd_lookup; repeat case_decide; try done.
  destruct (l !! j); done.
Qed.

Lemma upd_const {A} i (f : A -> A) l x : l !! i = Some x -> upd i f l = upd i (fun _ => f x) l.
Proof.
  intros Hx; apply list_eq; intros j; rewrite !upd_lookup; case_decide; subst; [by rewrite Hx | done].
Qed.

Lemma upd_id {A} i (f : A -> A) l :
  (forall x, l !! i = Some x -> f x = x) -> upd i f l = l.
Proof.
  intros H; apply list_eq; intros j; rewrite upd_lookup; case_decide; subst; [| done].
  destruct (l !! j) eqn:E; simpl; [rewrite H; done | done].
Qed.

(** Two updates that agree on the entry they reach. *)
Lemma upd_ext {A} i (f g : A -> A) l x : l !! i = Some x -> f x = g x -> upd i f l = upd i g l.
Proof.
  intros Hx H; apply list_eq; intros j; rewrite !upd_lookup.
  destruct (decide (i = j)) as [<- |]; [| done]; rewrite Hx; simpl; by rewrite H.
Qed.

(** Updates of the process table alone compose and compare on the table. *)
Lemma procs_set_eq f g s :
  f (k_procs s) = g (k_procs s) ->
  (s <| k_procs ::= f |> = s <| k_procs ::= g |>)%rec.
Proof. intros H; destruct s; state_norm; simpl in H; rewrite H; done. Qed.

Lemma procs_set_set f g s :
  (s <| k_procs ::= g |> <| k_procs ::= f |> = s <| k_procs ::= fun l => f (g l) |>)%rec.
Proof. destruct s; done. Qed.

Lemma procs_set_id f s : f (k_procs s) = k_procs s -> (s <| k_procs ::= f |> = s)%rec.
Proof. intros H; destruct s; state_norm; simpl in H; rewrite H; done. Qed.

(** An operation under the lock of process [i] that updates only that entry. *)
Lemma with_plock i p (f : proc -> proc) (body : proc -> K unit) s o :
  LProc i ∉ k_locks s -> k_procs s !! i = Some p ->
  (forall s1, k_procs s1 = k_procs s -> k_cur s1 = k_cur s ->
     body p s1 o = Ok tt (s1 <| k_procs ::= upd i f |>)%rec o) ->
  (acquire (LProc i) ;; pr ← pget i; body pr ;; release (LProc i)) s o =
  Ok tt (s <| k_procs ::= upd i f |>)%rec o.
Proof.
  intros Hl Hp Hb; step_with acquire_ok; step_with pget_ok.
  erewrite bind_ok; [| apply Hb; done].
  rewrite release_ok by (simpl; set_solver).
  f_equal; state_eq; rewrite decide_True by done; done.
Qed.

(** A loop whose iteration [i] applies [g i] to entry [i] and nothing else
    maps [g] over the table. *)
Lemma kfor_procs (body : nat -> K unit) (g : nat -> proc -> proc) (Q : kstate -> Prop) s o :
  (forall i p s', Q s' -> k_procs s' !! i = Some p ->
     body i s' o = Ok tt (s' <| k_procs ::= upd i (g i) |>)%rec o) ->
  (forall s' f, Q s' -> Q (s' <| k_procs ::= f |>)%rec) ->
  Q s -> procs_ok s ->
  kfor_ (seq 0 NPROC) body s o = Ok tt (s <| k_procs ::= imap g |>)%rec o.
Proof.
  intros Hb HQ Hs Hlen.
  assert (Hgen : forall n k s', (k + n)%nat = NPROC -> Q s' -> procs_ok s' ->
    kfor_ (seq k n) body s' o =
    Ok tt (s' <| k_procs ::= imap (fun i p => if decide (k <= i)%nat then g i p else p) |>)%rec o).
  { induction n as [| n IH]; intros k s' Hkn HQs Hl; simpl.
    - rewrite kfor__nil; f_equal; symmetry; apply procs_set_id.
      apply list_eq; intros i; rewrite list_lookup_imap.
      destruct (k_procs s' !! i) eqn:E; simpl; [| done].
      apply lookup_lt_Some in E; unfold procs_ok in Hl; rewrite decide_False by lia; done.
    - destruct (lookup_lt_is_Some_2 (k_procs s') k) as [p Hp]; [unfold procs_ok in Hl; lia |].
      rewrite kfor__cons; erewrite bind_ok; [| by eapply Hb]; cbn beta.
      rewrite IH; [| lia | by apply HQ | unfold procs_ok; simpl; by rewrite length_upd].
      rewrite procs_set_set; f_equal; apply procs_set_eq.
      apply list_eq; intros i; rewrite !list_lookup_imap, upd_lookup.
      destruct (decide (k = i)) as [-> | Hne].
      + rewrite Hp; simpl; rewrite decide_False, decide_True by lia; done.
      + destruct (k_procs s' !! i); simpl; [| done].
        f_equal; repeat case_decide; try done; lia. }
  rewrite Hgen by done; done.
Qed.

(** A scan of a table [xs] that leaves the state alone and folds [g] over the
    entries until the first one [test] accepts, and then runs [act] and
    leaves. *)
Lemma kfor_scan_list {A St R} (xs : list A) (st : St) (test : A -> Prop)
    `{!forall x, Decision (test x)} (g : nat -> A -> St -> St)
    (body : nat -> St -> K (St + R)) (act : nat -> A -> outcome (St + R)) s o :
  (forall i x st, xs !! i = Some x ->
     body i st s o = if decide (test x) then act i x else Ok (inl (g i x st)) s o) ->
  (forall i x s' y o', act i x = Ok y s' o' -> exists r, y = inr r) ->
  kfor (seq 0 (length xs)) body st s o =
  match list_find test xs with
  | Some (i, x) => act i x
  | None => Ok (inl (fold_left (fun st '(i, x) => g i x st) (imap pair xs) st)) s o
  end.
Proof.
  intros Hb Hact.
  assert (Hgen : forall ys k st, (forall i x, ys !! i = Some x -> xs !! (k + i)%nat = Some x) ->
    kfor (seq k (length ys)) body st s o =
    match list_find test ys with
    | Some (i, x) => act (k + i)%nat x
    | None => Ok (inl (fold_left (fun st '(i, x) => g i x st)
                         (imap (fun i x => ((k + i)%nat, x)) ys) st)) s o
    end).
  { induction ys as [| y ys IH]; intros k st' Hys; [done |]; cbn [length seq]; rewrite kfor_cons.
    pose proof (Hys 0%nat y eq_refl) as Hy; rewrite Nat.add_0_r in Hy.
    specialize (Hb k y st' Hy); cbn [list_find]; destruct (decide (test y)) as [Ht | Ht].
    - rewrite Nat.add_0_r; unfold mbind, K_bind; rewrite Hb; destruct (act k y) eqn:E; try done.
      destruct (Hact _ _ _ _ _ E) as [r ->]; done.
    - erewrite bind_ok by exact Hb; cbn iota; rewrite IH.
      + destruct (list_find test ys) as [[i x] |]; cbn; [do 2 f_equal; lia |].
        rewrite Nat.add_0_r; do 3 f_equal; apply imap_ext; intros; simpl; f_equal; lia.
      + intros i x Hx; rewrite Nat.add_succ_comm; apply Hys; done. }
  rewrite (Hgen xs 0%nat st) by done; done.
Qed.

Lemma kfor_scan {St R} (st : St) (test : proc -> Prop) `{!forall p, Decision (test p)}
    (g : proc -> St -> St)
    (body : nat -> St -> K (St + R)) (act : nat -> proc -> kstate -> outcome (St + R)) s o :
  procs_ok s ->
  (forall i p st, k_procs s !! i = Some p ->
     body i st s o = if decide (test p) then act i p s else Ok (inl (g p st)) s o) ->
  (forall i p s' x o', act i p s = Ok x s' o' -> exists r, x = inr r) ->
  kfor (seq 0 NPROC) body st s o =
  match list_find test (k_procs s) with
  | Some (i, p) => act i p s
  | None => Ok (inl (fold_left (fun st p => g p st) (k_procs s) st)) s o
  end.
Proof.
  intros Hlen Hb Hact; unfold procs_ok in Hlen; rewrite <- Hlen.
  rewrite (kfor_scan_list (k_procs s) st test (fun _ => g) body (fun i p => act i p s)) by done.
  destruct (list_find _ _) as [[i p] |]; [done |]; do 2 f_equal.
  assert (Hf : forall l (f : nat -> nat) x, fold_left (fun st '(_, p) => g p st)
    (imap (fun i p => (f i, p)) l) x = fold_left (fun st p => g p st) l x).
  { induction l as [| p l IH]; intros f x; [done |]; simpl; apply (IH (f ∘ S)). }
  apply (Hf _ (fun i => i)).
Qed.

(** The same with nothing to fold. *)
Lemma kfor_find {St R} (st : St) (test : proc -> Prop) `{!forall p, Decision (test p)}
    (body : nat -> St -> K (St + R)) (act : nat -> proc -> kstate -> outcome (St + R)) s o :
  procs_ok s ->
  (forall i p, k_procs s !! i = Some p -> forall st,
     body i st s o = if decide (test p) then act i p s else Ok (inl st) s o) ->
  (forall i p s' x o', act i p s = Ok x s' o' -> exists r, x = inr r) ->
  kfor (seq 0 NPROC) body st s o =
  match list_find test (k_procs s) with
  | Some (i, p) => act i p s
  | None => Ok (inl st) s o
  end.
Proof.
  intros Hlen Hb Hact; rewrite (kfor_scan st test (fun _ st => st) body act) by auto.
  assert (Hid : forall l (x : St), fold_left (fun st (_ : proc) => st) l x = x)
    by (induction l; auto).
  rewrite Hid; done.
Qed.

(** A search of any list that leaves the state alone until it finds. *)
Lemma kfor_find_list {A St R} (st : St) (test : A -> Prop) `{!forall a, Decision (test a)}
    (l : list A) (body : A -> St -> K (St + R)) (act : A -> outcome (St + R)) s o :
  (forall a, body a st s o = if decide (test a) then act a else Ok (inl st) s o) ->
  (forall a s' x o', act a = Ok x s' o' -> exists r, x = inr r) ->
  kfor l body st s o =
  match list_find test l with Some (_, a) => act a | None => Ok (inl st) s o end.
Proof.
  intros Hb Hact; induction l as [| a l IH]; [done |]; rewrite kfor_cons.
  simpl; destruct (decide (test a)) as [Ht | Ht].
  - unfold mbind, K_bind; rewrite Hb, decide_True by done; destruct (act a) eqn:E; try done.
    destruct (Hact _ _ _ _ E) as [r ->]; done.
  - erewrite bind_ok by (by rewrite Hb, decide_False); cbn iota; rewrite IH.
    destruct (list_find test l) as [[] |]; done.
Qed.

(** A loop that only computes: the state is untouched. *)
Lemma kfor_pure {A St R} (l : list A) (body : A -> St -> K (St + R)) (g : A -> St -> St) st s o :
  (forall a st', a ∈ l -> body a st' s o = Ok (inl (g a st')) s o) ->
  kfor l body st s o = Ok (inl (fold_left (fun st a => g a st) l st)) s o.
Proof.
  revert st; induction l as [| a l IH]; intros st Hb; [done |].
  rewrite kfor_cons; erewrite bind_ok by (apply Hb; set_solver); simpl.
  apply IH; intros; apply Hb; set_solver.
Qed.

(** Taking and releasing one process lock around a computation that leaves
    the state alone. *)
Lemma plock_read {A} i (body : K A) (a : A) s o :
  LProc i ∉ k_locks s ->
  body (s <| k_locks ::= cons (LProc i) |>)%rec o =
    Ok a (s <| k_locks ::= cons (LProc i) |>)%rec o ->
  (acquire (LProc i) ;; x ← body; release (LProc i) ;; mret x) s o = Ok a s o.
Proof.
  intros Hl Hb; step_with acquire_ok.
  erewrite bind_ok by exact Hb.
  step_with release_ok; rewrite ret_ok.
  f_equal; state_eq; rewrite decide_True by done; done.
Qed.

Lemma killed_run i p s o :
  k_procs s !! i = Some p -> LProc i ∉ k_locks s -> killed i s o = Ok (p_killed p) s o.
Proof.
  intros Hp Hl; unfold killed; step_with acquire_ok; step_with pget_ok.
  step_with release_ok; rewrite ret_ok; f_equal; state_eq; rewrite decide_True by done; done.
Qed.

(** ** wakeup *)

(** What wakeup(ch) called by process [me] does to entry [i]. *)
Definition wake1 (me : option nat) (ch : chan) (i : nat) (p : proc) : proc :=
  if negb (bool_decide (Some i = me)) && bool_decide (p_state p = SLEEPING)
     && bool_decide (p_chan p = ch)
  then (p <| p_state := RUNNABLE |>)%rec else p.

Lemma wakeup_run ch s o :
  procs_ok s -> no_plock s ->
  wakeup ch s o = Ok tt (s <| k_procs ::= imap (wake1 (k_cur s) ch) |>)%rec o.
Proof.
  intros Hlen Hl; unfold wakeup.
  rewrite (kfor_procs _ (wake1 (k_cur s) ch)
             (fun s' => no_plock s' /\ k_cur s' = k_cur s)); try done.
  intros i p s' [Hl' Hc] Hp; unfold myproc; rewrite gets_bind, Hc.
  unfold wake1; destruct (negb (bool_decide (Some i = k_cur s))) eqn:Eme; simpl.
  - rewrite (with_plock i p (wake1 (k_cur s) ch i)).
    all: try done; try (unfold wake1; rewrite Eme; done).
    intros s1 H1 H2.
    destruct (bool_decide (p_state p = SLEEPING) && bool_decide (p_chan p = ch)) eqn:E; simpl.
    + erewrite pset_ok by (rewrite H1; exact Hp); f_equal; apply procs_set_eq; rewrite H1.
      apply list_eq; intros j; rewrite !upd_lookup; destruct (decide (i = j)) as [<- |]; [| done].
      rewrite Hp; simpl; unfold wake1; rewrite Eme, <- andb_assoc, E; done.
    + rewrite ret_ok; f_equal; symmetry; apply procs_set_id; rewrite H1.
      apply upd_id; intros x Hx; unfold wake1; rewrite Eme; simpl.
      rewrite Hp in Hx; injection Hx as <-; rewrite E; done.
  - rewrite ret_ok; f_equal; symmetry; apply procs_set_id, upd_id; done.
Qed.

(** ** sleep *)

(** Process [i] asleep on [ch]. *)
Definition asleep (ch : chan) (p : proc) : proc :=
  (p <| p_chan := ch |> <| p_state := SLEEPING |>)%rec.

Definition sleep_state (i : nat) (ch : chan) (s : kstate) : kstate :=
  (s <| k_locks := [LProc i] |> <| k_procs ::= upd i (asleep ch) |>)%rec.

(** sched() with its preconditions met is the switch. *)
Lemma sched_swtch i p s o :
  k_cur s = Some i -> k_locks s = [LProc i] -> k_procs s !! i = Some p -> p_state p <> RUNNING ->
  sched s o = swtch s o.
Proof.
  intros Hc Hl Hp Hst; unfold sched; step_with curproc_ok; rewrite gets_bind, Hl.
  rewrite bool_decide_eq_true_2 by set_solver; simpl.
  step_with pget_ok; rewrite bool_decide_eq_false_2 by done.
  unfold intr_get; rewrite gets_bind, Hl, bool_decide_eq_false_2 by done; done.
Qed.

(** The part of sleep before the switch: it ends in [swtch] with the process
    asleep and its own lock the only one held. *)
Lemma sleep_upto_swtch i p ch lk s o :
  k_cur s = Some i -> k_procs s !! i = Some p -> k_locks s = [lk] -> lk <> LProc i ->
  sleep ch lk s o =
  (swtch ;; pset i (fun pr => (pr <| p_chan := ChNull |>)%rec) ;;
   release (LProc i) ;; acquire lk) (sleep_state i ch s) o.
Proof.
  intros Hc Hp Hlk Hne; unfold sleep, curproc, myproc.
  rewrite bind_assoc, gets_bind, Hc; simpl.
  erewrite bind_ok by (apply ret_ok).
  step_with acquire_ok; [| rewrite Hlk; set_solver].
  step_with release_ok; [| rewrite Hlk; set_solver].
  step_with pset_ok.
  erewrite bind_ok; [| eapply pset_ok; simpl; by apply upd_lookup_eq].
  match goal with |- context [ (sched ≫= _) ?t _ ] =>
    replace t with (sleep_state i ch s) end.
  2:{ unfold sleep_state; destruct s; state_norm; simpl in *; subst; simpl.
      rewrite decide_False, decide_True by done; rewrite upd_upd; done. }
  unfold mbind at 1, K_bind at 1; erewrite sched_swtch; [done | done | done | |].
  - simpl; by apply upd_lookup_eq.
  - done.
Qed.

Lemma sleep_blocked i p ch lk s :
  k_cur s = Some i -> k_procs s !! i = Some p -> k_locks s = [lk] -> lk <> LProc i ->
  sleep ch lk s [] = Blocked (sleep_state i ch s).
Proof. intros; erewrite sleep_upto_swtch by eauto; done. Qed.

(** Woken up: the oracle's entry [e] ran while the process slept. *)
Lemma sleep_woken i p q ch lk s e o :
  k_cur s = Some i -> k_procs s !! i = Some p -> k_locks s = [lk] -> lk <> LProc i ->
  k_locks (e (sleep_state i ch s)) = [LProc i] ->
  k_procs (e (sleep_state i ch s)) !! i = Some q ->
  sleep ch lk s (e :: o) =
  Ok tt (e (sleep_state i ch s) <| k_locks := [lk] |>
           <| k_procs ::= upd i (fun pr => pr <| p_chan := ChNull |>) |>)%rec o.
Proof.
  intros Hc Hp Hlk Hne Hl Hq; erewrite sleep_upto_swtch by eauto.
  erewrite bind_ok by done; step_with pset_ok.
  step_with release_ok; [| rewrite Hl; set_solver].
  rewrite acquire_ok.
  - f_equal; destruct (e (sleep_state i ch s)); state_norm; simpl in *; subst; simpl.
    rewrite decide_True by done; done.
  - cbn; rewrite Hl; simpl; rewrite decide_True by done; set_solver.
Qed.

(** sleep() then wakeup(), one after the other.  When sleep(ch, lk) switches away, lk is free again
    and the process is asleep on ch holding only its own lock; once the
    scheduler drops that lock, a wakeup(ch) by any other process makes it
    RUNNABLE, whatever else is in the process table.  The file SleepSpec shows
    that no interleaving of the two loses the wakeup. *)
Theorem sleep_then_wakeup (i j : nat) (p : proc) (ch : chan) (lk : lockid)
    (s : kstate) (o : oracle)
  (Hcur : k_cur s = Some i) (Hp : k_procs s !! i = Some p) (Hlen : procs_ok s)
  (Hlk : k_locks s = [lk]) (Hij : i <> j) (Hplk : forall n, lk <> LProc n) :
  exists s', sleep ch lk s [] = Blocked s' /\ k_locks s' = [LProc i] /\
    let t := (s' <| k_locks := [lk] |> <| k_cur := Some j |>)%rec in
    exists t', wakeup ch t o = Ok tt t' o /\ k_locks t' = [lk] /\
      exists q, k_procs t' !! i = Some q /\ p_state q = RUNNABLE.
Proof.
  exists (sleep_state i ch s); split; [eapply sleep_blocked; eauto |]; split; [done |].
  intros t; eexists; split; [apply wakeup_run |].
  - unfold procs_ok in *; simpl; by rewrite length_upd.
  - intros n; simpl; pose proof (Hplk n); set_solver.
  - split; [done |]; simpl; rewrite list_lookup_imap, (upd_lookup_eq _ _ _ p Hp); simpl.
    eexists; split; [done |]; unfold wake1, asleep; simpl.
    rewrite bool_decide_eq_false_2 by congruence; simpl.
    rewrite bool_decide_eq_true_2 by done; done.
Qed.

(** ** The scheduler *)

Definition dispatched (i : nat) (s : kstate) : kstate :=
  (s <| k_locks ::= cons (LProc i) |>
     <| k_procs ::= upd i (fun pr => pr <| p_state := RUNNING |>) |>
     <| k_cur := Some i |>)%rec.

(** a round of the scheduler switches to the first RUNNABLE process of the
    table, which it has marked RUNNING and made the CPU's current process
    while holding its lock; when there is none it changes nothing and reports
    that the CPU may wait. *)
Theorem scheduler_round_spec (s : kstate) (Hlen : procs_ok s) (Hlk : no_plock s) :
  match list_find (fun p => p_state p = RUNNABLE) (k_procs s) with
  | Some (i, _) => scheduler_round s [] = Blocked (dispatched i s)
  | None => scheduler_round s [] = Ok false s []
  end.
Proof.
  assert (Hk : scheduler_round s [] =
    match list_find (fun p => p_state p = RUNNABLE) (k_procs s) with
    | Some (i, _) => Blocked (dispatched i s) | None => Ok false s [] end).
  { unfold scheduler_round, mbind, K_bind at 1.
    rewrite (kfor_find false (fun p => p_state p = RUNNABLE) _
      (fun i _ s => Blocked (dispatched i s))); try done.
    - destruct (list_find _ _) as [[i p] |]; done.
    - intros i p Hp st'; step_with acquire_ok; step_with pget_ok.
      case_bool_decide; case_decide; try done.
      + step_with pset_ok; done.
      + step_with release_ok; rewrite ret_ok; f_equal.
        state_eq; rewrite decide_True by done; done. }
  rewrite Hk; destruct (list_find _ _) as [[i p] |]; done.
Qed.

Lemma scheduler_round_spec_witness :
  scheduler_round zero_state [] = Ok false zero_state [] /\
  scheduler_round (zero_state <| k_procs ::= upd 1 (fun p => p <| p_state := RUNNABLE |>) |>)%rec []
  = Blocked (dispatched 1
      (zero_state <| k_procs ::= upd 1 (fun p => p <| p_state := RUNNABLE |>) |>)%rec).
Proof.
  split.
  - exact (scheduler_round_spec zero_state eq_refl ltac:(intros i; set_solver)).
  - exact (scheduler_round_spec
      (zero_state <| k_procs ::= upd 1 (fun p => p <| p_state := RUNNABLE |>) |>)%rec
      eq_refl ltac:(intros i; set_solver)).
Defined.

(** ** kill *)

Definition kill_proc (p : proc) : proc :=
  let p' := (p <| p_killed := 1 |>)%rec in
  if bool_decide (p_state p = SLEEPING) then (p' <| p_state := RUNNABLE |>)%rec else p'.

Lemma kkill_run pid s o :
  procs_ok s -> no_plock s ->
  kkill pid s o =
  match list_find (fun p => p_pid p = pid) (k_procs s) with
  | Some (i, _) => Ok 0 (s <| k_procs ::= upd i kill_proc |>)%rec o
  | None => Ok (-1) s o
  end.
Proof.
  intros Hlen Hl; unfold kkill, mbind, K_bind at 1.
  rewrite (kfor_find tt (fun p => p_pid p = pid) _
    (fun i _ s => Ok (inr 0) (s <| k_procs ::= upd i kill_proc |>)%rec o)); try done.
  - destruct (list_find _ _) as [[i p] |]; done.
  - intros i p Hp []; step_with acquire_ok; step_with pget_ok.
    destruct (Z.eqb_spec (p_pid p) pid); case_decide; try done.
    + step_with pset_ok.
      destruct (bool_decide (p_state p = SLEEPING)) eqn:Es; simpl.
      * erewrite bind_ok; [| eapply pset_ok; simpl; by apply upd_lookup_eq].
        step_with release_ok; rewrite ret_ok; f_equal.
        state_eq; rewrite decide_True by done; f_equal; rewrite upd_upd.
        eapply upd_ext; [exact Hp |]; unfold kill_proc; simpl; rewrite Es; done.
      * step_with @ret_ok; step_with release_ok; rewrite ret_ok; f_equal.
        state_eq; rewrite decide_True by done; f_equal.
        eapply upd_ext; [exact Hp |]; unfold kill_proc; simpl; rewrite Es; done.
    + step_with release_ok; rewrite ret_ok; f_equal.
      state_eq; rewrite decide_True by done; done.
  - naive_solver.
Qed.

(** Kill(pid) marks the first process table entry with that pid as killed,
    wakes it when it sleeps, touches nothing else and returns 0; without such
    an entry it returns -1 and changes nothing. *)
Theorem kkill_spec (pid : Z) (s : kstate) (o : oracle)
  (Hlen : procs_ok s) (Hlk : no_plock s) :
  (exists i p, k_procs s !! i = Some p /\ p_pid p = pid /\
     (forall j q, (j < i)%nat -> k_procs s !! j = Some q -> p_pid q <> pid) /\
     exists s', kkill pid s o = Ok 0 s' o /\
       k_procs s' !! i = Some (kill_proc p) /\
       (forall j, j <> i -> k_procs s' !! j = k_procs s !! j) /\
       k_locks s' = k_locks s) \/
  ((forall i p, k_procs s !! i = Some p -> p_pid p <> pid) /\ kkill pid s o = Ok (-1) s o).
Proof.
  rewrite kkill_run by done; destruct (list_find _ _) as [[i p] |] eqn:E.
  - left; apply list_find_Some in E as (Hp & Hpid & Hmin); exists i, p.
    split; [done |]; split; [done |]; split; [eauto |].
    eexists; split; [done |]; simpl; split; [by apply upd_lookup_eq |].
    split; [| done]; intros j Hj; by apply upd_lookup_ne.
  - right; apply list_find_None in E; rewrite Forall_lookup in E; eauto.
Qed.

Lemma kkill_spec_witness :
  exists s', kkill 7 (zero_state <| k_procs ::= upd 3 (fun p => p <| p_pid := 7 |>
      <| p_state := SLEEPING |>) |>)%rec [] = Ok 0 s' [] /\
    exists q, k_procs s' !! 3%nat = Some q /\ p_killed q = 1 /\ p_state q = RUNNABLE.
Proof.
  destruct (kkill_spec 7 (zero_state <| k_procs ::= upd 3 (fun p => p <| p_pid := 7 |>
      <| p_state := SLEEPING |>) |>)%rec []) as [(i & p & Hp & Hpid & _ & s' & Hr & Hq & _) | [H _]].
  - reflexivity.
  - intros i; set_solver.
  - destruct (decide (i = 3%nat)) as [-> | Hne].
    + exists s'; split; [exact Hr |]; eexists; split; [exact Hq |].
      injection Hp as <-; done.
    + exfalso; change (upd 3 (fun p => p <| p_pid := 7 |> <| p_state := SLEEPING |>)%rec
        (replicate NPROC zero_proc) !! i = Some p) in Hp; rewrite upd_lookup_ne in Hp by done.
      apply lookup_replicate in Hp as [-> _]; done.
  - exfalso; by eapply (H 3%nat).
Defined.
