(* ===== verification/Vm.v ===== *)
(** Page tables and user memory, kernel/vm.c, with the Sv39 macros of
    kernel/riscv.h and the address-space layout of kernel/memlayout.h.

    Page tables live in physical memory: a page-table page at address [pt] has
    its entry [i] in the word at [pt + 8 * i].  A kernel buffer passed to
    copyout is the list of its bytes; copyin and copyinstr return, beside the
    C result, the bytes they stored in the buffer. *)
From stdpp Require Import base gmap list strings.
From Stdlib Require Import ZArith Lia ZifyBool.
From S2P Require Import Prelude Memory KPrintf State Monad Kalloc ProcBase.

Local Open Scope Z_scope.

(** ** riscv.h and memlayout.h *)

Definition PTE_V : Z := Z.shiftl 1 0.
Definition PTE_R : Z := Z.shiftl 1 1.
Definition PTE_W : Z := Z.shiftl 1 2.
Definition PTE_X : Z := Z.shiftl 1 3.
Definition PTE_U : Z := Z.shiftl 1 4.

Definition PA2PTE (pa : Z) : Z := Z.shiftl (Z.shiftr pa 12) 10.
Definition PTE2PA (pte : Z) : Z := u64 (Z.shiftl (Z.shiftr pte 10) 12).
Definition PTE_FLAGS (pte : Z) : Z := Z.land pte 0x3FF.
Definition PX (level va : Z) : Z := Z.land (Z.shiftr va (12 + 9 * level)) 0x1FF.

Definition MAXVA : Z := Z.shiftl 1 (9 + 9 + 9 + 12 - 1).
Definition TRAMPOLINE : Z := MAXVA - PGSIZE.
Definition KSTACK (p : Z) : Z := TRAMPOLINE - (p + 1) * 2 * PGSIZE.
Definition TRAPFRAME : Z := TRAMPOLINE - PGSIZE.
Definition MAKE_SATP (pagetable : Z) : Z := Z.lor (Z.shiftl 8 60) (Z.shiftr pagetable 12).

Definition UART0 : Z := 0x10000000.
Definition VIRTIO0 : Z := 0x10001000.
Definition PLIC : Z := 0x0c000000.

(** [pte & bit] as a condition. *)
Definition has (pte bit : Z) : bool := negb (Z.land pte bit =? 0).

(** [*pte] and [*pte = v] through the address of an entry. *)
Definition pte_get (a : Z) : K Z := gets (fun s => load64 (k_mem s) a).
Definition pte_set (a v : Z) : K unit := set_mem (fun m => store64 m a v).

Section Vm.
Context `{Linker}.

(** ** Walking and mapping *)

(** One iteration of the loop of walk: [inl] is the next page table, [inr 0]
    the return of 0. *)
Definition walk_level (va : Z) (alloc : bool) (level pagetable : Z) : K (Z + Z) :=
  let pte := pagetable + 8 * PX level va in
  v ← pte_get pte;
  if has v PTE_V then mret (inl (PTE2PA v))
  else if negb alloc then mret (inr 0)
  else
    pg ← kalloc;
    if pg =? 0 then mret (inr 0)
    else
      set_mem (fun m => memset m pg 0 PGSIZE) ;;
      pte_set pte (Z.lor (PA2PTE pg) PTE_V) ;;
      mret (inl pg).

Definition walk (pagetable va : Z) (alloc : bool) : K Z :=
  if MAXVA <=? va then panic "walk"
  else
    r ← kfor [2; 1] (walk_level va alloc) pagetable;
    mret (match r with
          | inl pt => pt + 8 * PX 0 va
          | inr z => z
          end).

Definition walkaddr (pagetable va : Z) : K Z :=
  if MAXVA <=? va then mret 0
  else
    pte ← walk pagetable va false;
    if pte =? 0 then mret 0
    else
      v ← pte_get pte;
      if negb (has v PTE_V) then mret 0
      else if negb (has v PTE_U) then mret 0
      else mret (PTE2PA v).

(** One iteration of the loop of mappages. *)
Definition mappages_page (pagetable perm last : Z) (st : Z * Z) : K (Z * Z + Z) :=
  let '(a, pa) := st in
  pte ← walk pagetable a true;
  if pte =? 0 then mret (inr (-1))
  else
    v ← pte_get pte;
    if has v PTE_V then panic "mappages: remap"
    else
      pte_set pte (Z.lor (Z.lor (PA2PTE pa) perm) PTE_V) ;;
      if a =? last then mret (inr 0)
      else mret (inl (u64 (a + PGSIZE), u64 (pa + PGSIZE))).

(** The loop runs size/PGSIZE times. *)
Definition mappages (pagetable va size pa perm : Z) : K Z :=
  if negb (va mod PGSIZE =? 0) then panic "mappages: va not aligned"
  else if negb (size mod PGSIZE =? 0) then panic "mappages: size not aligned"
  else if size =? 0 then panic "mappages: size"
  else
    let last := u64 (va + size - PGSIZE) in
    kloop (Z.to_N (size / PGSIZE)) (mappages_page pagetable perm last) (va, pa).

Definition kvmmap (kpgtbl va pa sz perm : Z) : K unit :=
  r ← mappages kpgtbl va sz pa perm;
  if negb (r =? 0) then panic "kvmmap" else mret tt.

Definition uvmcreate : K Z :=
  pagetable ← kalloc;
  if pagetable =? 0 then mret 0
  else set_mem (fun m => memset m pagetable 0 PGSIZE) ;; mret pagetable.

(** One iteration of uvmunmap, at the address [a]. *)
Definition uvmunmap_page (pagetable last : Z) (do_free : bool) (a : Z) : K (Z + unit) :=
  if negb (a <? last) then mret (inr tt)
  else
    pte ← walk pagetable a false;
    if pte =? 0 then mret (inl (u64 (a + PGSIZE)))
    else
      v ← pte_get pte;
      if negb (has v PTE_V) then mret (inl (u64 (a + PGSIZE)))
      else
        kwhen do_free (kfree (PTE2PA v)) ;;
        pte_set pte 0 ;;
        mret (inl (u64 (a + PGSIZE))).

Definition uvmunmap (pagetable va npages : Z) (do_free : bool) : K unit :=
  if negb (va mod PGSIZE =? 0) then panic "uvmunmap: not aligned"
  else
    kloop (Z.to_N npages + 1) (uvmunmap_page pagetable (u64 (va + npages * PGSIZE)) do_free) va.

Definition uvmdealloc (pagetable oldsz newsz : Z) : K Z :=
  if oldsz <=? newsz then mret oldsz
  else
    kwhen (PGROUNDUP newsz <? PGROUNDUP oldsz)
      (let npages := i32 ((PGROUNDUP oldsz - PGROUNDUP newsz) / PGSIZE) in
       uvmunmap pagetable (PGROUNDUP newsz) npages true) ;;
    mret newsz.

(** One iteration of uvmalloc: a page of zeros at the address [a]. *)
Definition uvmalloc_page (pagetable oldsz newsz xperm a : Z) : K (Z + Z) :=
  if negb (a <? newsz) then mret (inr newsz)
  else
    mem ← kalloc;
    if mem =? 0 then
      uvmdealloc pagetable a oldsz ;; mret (inr 0)
    else
      set_mem (fun m => memset m mem 0 PGSIZE) ;;
      r ← mappages pagetable a PGSIZE mem (Z.lor (Z.lor PTE_R PTE_U) xperm);
      if negb (r =? 0) then
        kfree mem ;; uvmdealloc pagetable a oldsz ;; mret (inr 0)
      else mret (inl (u64 (a + PGSIZE))).

Definition uvmalloc (pagetable oldsz newsz xperm : Z) : K Z :=
  if newsz <? oldsz then mret oldsz
  else
    let oldsz := PGROUNDUP oldsz in
    kloop (Z.to_N ((newsz - oldsz) / PGSIZE) + 2) (uvmalloc_page pagetable oldsz newsz xperm) oldsz.

(** Page tables have three levels: the recursion is at most three deep. *)
Fixpoint freewalk_depth (d : nat) (pagetable : Z) : K unit :=
  match d with
  | O => nofuel
  | S d' =>
      kfor_ (seqZ 0 512) (fun i =>
        pte ← pte_get (pagetable + 8 * i);
        if has pte PTE_V && (Z.land pte (Z.lor (Z.lor PTE_R PTE_W) PTE_X) =? 0) then
          let child := PTE2PA pte in
          freewalk_depth d' child ;;
          pte_set (pagetable + 8 * i) 0
        else if has pte PTE_V then panic "freewalk: leaf"
        else mret tt) ;;
      kfree pagetable
  end.

Definition freewalk (pagetable : Z) : K unit := freewalk_depth 3 pagetable.

Definition uvmfree (pagetable sz : Z) : K unit :=
  kwhen (0 <? sz) (uvmunmap pagetable 0 (PGROUNDUP sz / PGSIZE) true) ;;
  freewalk pagetable.

(** One iteration of uvmcopy: the result [Some i] is the jump to [err]. *)
Definition uvmcopy_page (old new sz i : Z) : K (Z + option Z) :=
  if negb (i <? sz) then mret (inr None)
  else
    pte ← walk old i false;
    if pte =? 0 then mret (inl (u64 (i + PGSIZE)))
    else
      v ← pte_get pte;
      if negb (has v PTE_V) then mret (inl (u64 (i + PGSIZE)))
      else
        let pa := PTE2PA v in
        let flags := PTE_FLAGS v in
        mem ← kalloc;
        if mem =? 0 then mret (inr (Some i))
        else
          set_mem (fun m => memmove m mem pa PGSIZE) ;;
          r ← mappages new i PGSIZE mem flags;
          if negb (r =? 0) then kfree mem ;; mret (inr (Some i))
          else mret (inl (u64 (i + PGSIZE))).

Definition uvmcopy (old new sz : Z) : K Z :=
  r ← kloop (Z.to_N (sz / PGSIZE) + 2) (uvmcopy_page old new sz) 0;
  match r with
  | None => mret 0
  | Some i => uvmunmap new 0 (i / PGSIZE) true ;; mret (-1)
  end.

Definition uvmclear (pagetable va : Z) : K unit :=
  pte ← walk pagetable va false;
  if pte =? 0 then panic "uvmclear"
  else
    v ← pte_get pte;
    pte_set pte (Z.land v (Z.lnot PTE_U)).

Definition ismapped (pagetable va : Z) : K Z :=
  pte ← walk pagetable va false;
  if pte =? 0 then mret 0
  else
    v ← pte_get pte;
    if has v PTE_V then mret 1 else mret 0.

Definition vmfault (pagetable va : Z) (read : bool) : K Z :=
  p ← curproc;
  pr ← pget p;
  if p_sz pr <=? va then mret 0
  else
    let va := PGROUNDDOWN va in
    m ← ismapped pagetable va;
    if negb (m =? 0) then mret 0
    else
      mem ← kalloc;
      if mem =? 0 then mret 0
      else
        set_mem (fun m => memset m mem 0 PGSIZE) ;;
        r ← mappages (p_pagetable pr) va PGSIZE mem (Z.lor (Z.lor PTE_W PTE_U) PTE_R);
        if negb (r =? 0) then kfree mem ;; mret 0
        else mret mem.

(** ** Copying between the kernel and a user address space *)

(** One iteration per page touched. *)
Definition copy_bound (len : Z) : N := Z.to_N (len / PGSIZE) + 3.

(** [walkaddr], then [vmfault] when the page is not mapped: 0 on failure. *)
Definition user_page (pagetable va0 : Z) : K Z :=
  pa0 ← walkaddr pagetable va0;
  if pa0 =? 0 then vmfault pagetable va0 false else mret pa0.

(** One iteration of the loop of copyout: one page. *)
Definition copyout_page (pagetable : Z) (st : Z * list Z * Z) : K (Z * list Z * Z + Z) :=
  let '(dstva, src, len) := st in
  if negb (0 <? len) then mret (inr 0)
  else
    let va0 := PGROUNDDOWN dstva in
    if MAXVA <=? va0 then mret (inr (-1))
    else
      pa0 ← user_page pagetable va0;
      if pa0 =? 0 then mret (inr (-1))
      else
        pte ← walk pagetable va0 false;
        v ← pte_get pte;
        if negb (has v PTE_W) then mret (inr (-1))
        else
          let n := Z.min (PGSIZE - (dstva - va0)) len in
          if Z.of_nat (length src) <? n then fault
          else
            set_mem (fun m => store_bytes m (pa0 + (dstva - va0)) (take (Z.to_nat n) src)) ;;
            mret (inl (u64 (va0 + PGSIZE), drop (Z.to_nat n) src, len - n)).

Definition copyout (pagetable dstva : Z) (src : list Z) (len : Z) : K Z :=
  kloop (copy_bound len) (copyout_page pagetable) (dstva, src, len).

(** One iteration of the loop of copyin. *)
Definition copyin_page (pagetable : Z) (st : Z * list Z * Z) : K (Z * list Z * Z + Z * list Z) :=
  let '(srcva, dst, len) := st in
  if negb (0 <? len) then mret (inr (0, dst))
  else
    let va0 := PGROUNDDOWN srcva in
    pa0 ← user_page pagetable va0;
    if pa0 =? 0 then mret (inr (-1, dst))
    else
      let n := Z.min (PGSIZE - (srcva - va0)) len in
      bytes ← gets (fun s => load_bytes (Z.to_nat n) (k_mem s) (pa0 + (srcva - va0)));
      mret (inl (u64 (va0 + PGSIZE), dst ++ bytes, len - n)).

Definition copyin (pagetable srcva len : Z) : K (Z * list Z) :=
  kloop (copy_bound len) (copyin_page pagetable) (srcva, [], len).

(** The inner loop of copyinstr on one page: at most [n] characters from [p],
    and whether the NUL was among them. *)
Fixpoint copystr_page (m : mem) (p : Z) (n : nat) : list Z * bool :=
  match n with
  | O => ([], false)
  | S n' =>
      if mget m p =? 0 then ([0], true)
      else let '(l, got) := copystr_page m (p + 1) n' in (mget m p :: l, got)
  end.

Definition copyinstr (pagetable srcva max : Z) : K (Z * list Z) :=
  kloop (copy_bound max) (fun '(srcva, dst, max, got_null) =>
    if (got_null : bool) || negb (0 <? max) then
      mret (inr (if got_null then 0 else -1, dst))
    else
      let va0 := PGROUNDDOWN srcva in
      pa0 ← walkaddr pagetable va0;
      if pa0 =? 0 then mret (inr (-1, dst))
      else
        let n := Z.min (PGSIZE - (srcva - va0)) max in
        r ← gets (fun s => copystr_page (k_mem s) (pa0 + (srcva - va0)) (Z.to_nat n));
        let '(chars, got) := (r : list Z * bool) in
        mret (inl (u64 (va0 + PGSIZE), dst ++ chars,
                   max - (if got then Z.of_nat (length chars) - 1 else Z.of_nat (length chars)),
                   got)))
    (srcva, ([] : list Z), max, false).

(** Where either_copyout writes and either_copyin reads: a user address, a
    physical address, or a local buffer of the caller (whose new bytes the
    caller takes from the result). *)
Inductive iodst := DUser (va : Z) | DPhys (pa : Z) | DLocal.
Inductive iosrc := SUser (va : Z) | SLocal (bytes : list Z).

Definition either_copyout (dst : iodst) (src : list Z) (len : Z) : K Z :=
  p ← curproc;
  pr ← pget p;
  match dst with
  | DUser va => copyout (p_pagetable pr) va src len
  | DPhys pa => set_mem (fun m => store_bytes m pa (take (Z.to_nat len) src)) ;; mret 0
  | DLocal => mret 0
  end.

Definition either_copyin (src : iosrc) (len : Z) : K (Z * list Z) :=
  p ← curproc;
  pr ← pget p;
  match src with
  | SUser va => copyin (p_pagetable pr) va len
  | SLocal bytes => mret (0, take (Z.to_nat len) bytes)
  end.

(** ** The kernel's own page table *)

Definition proc_mapstacks (kpgtbl : Z) : K unit :=
  kfor_ (seqZ 0 (Z.of_nat NPROC)) (fun i =>
    pa ← kalloc;
    if pa =? 0 then panic "kalloc"
    else kvmmap kpgtbl (KSTACK i) pa PGSIZE (Z.lor PTE_R PTE_W)).

Definition kvmmake : K Z :=
  kpgtbl ← kalloc;
  set_mem (fun m => memset m kpgtbl 0 PGSIZE) ;;
  kvmmap kpgtbl UART0 UART0 PGSIZE (Z.lor PTE_R PTE_W) ;;
  kvmmap kpgtbl VIRTIO0 VIRTIO0 PGSIZE (Z.lor PTE_R PTE_W) ;;
  kvmmap kpgtbl PLIC PLIC 0x4000000 (Z.lor PTE_R PTE_W) ;;
  kvmmap kpgtbl KERNBASE KERNBASE (etext - KERNBASE) (Z.lor PTE_R PTE_X) ;;
  kvmmap kpgtbl etext etext (PHYSTOP - etext) (Z.lor PTE_R PTE_W) ;;
  kvmmap kpgtbl TRAMPOLINE trampoline PGSIZE (Z.lor PTE_R PTE_X) ;;
  proc_mapstacks kpgtbl ;;
  mret kpgtbl.

Definition kvminit : K unit :=
  pt ← kvmmake;
  modify (fun s => (s <| k_kpgtbl := pt |>)%rec).

(** sfence_vma() has no effect on the model's state. *)
Definition kvminithart : K unit :=
  modify (fun s => (s <| k_csr ::= fun c => c <| satp := MAKE_SATP (k_kpgtbl s) |> |>)%rec).

End Vm.
