(* ===== verification/Frame.v ===== *)
(** Frames: what an operation cannot change.

    [quiet f m] says that [m] never sleeps and leaves the part [f] of the state
    alone, whatever branch it takes.  The hint database [quiet] proves it for a
    whole program from the operations it is built from; here it is proved for
    the memory system, which touches nothing but physical memory and the free
    list. *)
From stdpp Require Import base gmap list strings.
From Stdlib Require Import ZArith Lia ZifyBool.
From S2P Require Import Prelude Memory KPrintf State Monad Kalloc ProcBase Vm.

Local Open Scope Z_scope.

Definition quiet {X A} (f : kstate -> X) (m : K A) : Prop :=
  forall s o a s' o', m s o = Ok a s' o' -> f s' = f s /\ o' = o.

Create HintDb quiet.

Section Rules.
Context {X : Type} (f : kstate -> X).

Lemma quiet_ret {A} (a : A) : quiet f (mret a).
Proof. intros s o a' s' o' [= -> -> ->]; done. Qed.

Lemma quiet_gets {A} (g : kstate -> A) : quiet f (gets g).
Proof. intros s o a' s' o' [= _ -> ->]; done. Qed.

Lemma quiet_panic {A} msg : quiet f (panic msg : K A).
Proof. intros s o a' s' o' [=]. Qed.

Lemma quiet_fault {A} : quiet f (fault : K A).
Proof. intros s o a' s' o' [=]. Qed.

Lemma quiet_nofuel {A} : quiet f (nofuel : K A).
Proof. intros s o a' s' o' [=]. Qed.

Lemma quiet_from_option {A} (x : option A) : quiet f (from_option_K x).
Proof. destruct x; [apply quiet_ret | apply quiet_fault]. Qed.

Lemma quiet_modify g : (forall s, f (g s) = f s) -> quiet f (modify g).
Proof. intros H s o a' s' o' [= _ <- ->]; done. Qed.

Lemma quiet_bind {A B} (m : K A) (k : A -> K B) :
  quiet f m -> (forall a, quiet f (k a)) -> quiet f (m ≫= k).
Proof.
  intros Hm Hk s o b s2 o2 (a & s1 & o1 & H1 & H2)%bind_inv.
  apply Hm in H1 as [<- ->]; apply Hk in H2; done.
Qed.

Lemma quiet_when b m : quiet f m -> quiet f (kwhen b m).
Proof. intros; destruct b; simpl; [done | apply quiet_ret]. Qed.

Lemma quiet_kfor {A St R} (l : list A) (body : A -> St -> K (St + R)) st :
  (forall a st, quiet f (body a st)) -> quiet f (kfor l body st).
Proof.
  intros Hb; revert st; induction l as [| a l IH]; intros st; [apply quiet_ret |].
  cbn [kfor].
  apply quiet_bind; [apply Hb |]; intros [st' | r]; [apply IH | apply quiet_ret].
Qed.

Lemma quiet_kfor_ {A} (l : list A) body : (forall a, quiet f (body a)) -> quiet f (kfor_ l body).
Proof.
  intros Hb; induction l as [| a l IH]; [apply quiet_ret |].
  cbn [kfor_].
  apply quiet_bind; [apply Hb |]; done.
Qed.

Lemma quiet_kloop {St R} n (body : St -> K (St + R)) st :
  (forall st, quiet f (body st)) -> quiet f (kloop n body st).
Proof.
  intros Hb; unfold kloop; destruct n as [| n]; [apply quiet_nofuel |].
  apply quiet_bind; [| intros [? | ?]; [apply quiet_nofuel | apply quiet_ret]].
  intros s o x s' o' Hr; rewrite kiter_kfor in Hr; revert Hr.
  apply (quiet_kfor _ (fun _ => body)); done.
Qed.

Lemma quiet_pget i : quiet f (pget i).
Proof. apply quiet_bind; [apply quiet_gets |]; intros; apply quiet_from_option. Qed.

Lemma quiet_curproc : quiet f curproc.
Proof. apply quiet_bind; [apply quiet_gets |]; intros; apply quiet_from_option. Qed.

End Rules.

#[export] Hint Resolve quiet_ret quiet_gets quiet_panic quiet_fault quiet_nofuel
  quiet_from_option quiet_when quiet_kfor quiet_kfor_ quiet_kloop quiet_pget quiet_curproc : quiet.

(** Decompose a program, splitting its branches, down to operations of the
    database. *)
Ltac quiet :=
  repeat first
    [ solve [eauto 3 with quiet]
    | match goal with
      | |- quiet _ (_ ≫= _) => apply quiet_bind; [| intros ?]
      | |- quiet _ (kloop _ _ _) => apply quiet_kloop; intros ?
      | |- quiet _ (kfor _ _ _) => apply quiet_kfor; intros ? ?
      | |- quiet _ (kfor_ _ _) => apply quiet_kfor_; intros ?
      | |- quiet _ (kwhen _ _) => apply quiet_when
      | |- quiet _ (modify _) => apply quiet_modify; intros; reflexivity
      | |- context [match ?x with _ => _ end] => destruct x
      end ].

(** ** The memory system *)

(** The state without physical memory and the free list. *)
Definition rest (s : kstate) : kstate := (s <| k_mem := ∅ |> <| k_freelist := 0 |>)%rec.

Lemma rest_set_mem g s : rest (s <| k_mem ::= g |>)%rec = rest s.
Proof. destruct s; done. Qed.

Lemma quiet_set_mem g : quiet rest (set_mem g).
Proof. apply quiet_modify; intros; apply rest_set_mem. Qed.

Lemma quiet_pte_get a : quiet rest (pte_get a).
Proof. apply quiet_gets. Qed.

Lemma quiet_pte_set a v : quiet rest (pte_set a v).
Proof. apply quiet_set_mem. Qed.

#[export] Hint Resolve quiet_set_mem quiet_pte_get quiet_pte_set : quiet.

Section MemorySystem.
Context `{Linker}.

Lemma acquire_inv lk s o x s' o' :
  acquire lk s o = Ok x s' o' -> lk ∉ k_locks s /\ s' = (s <| k_locks ::= cons lk |>)%rec /\ o' = o.
Proof.
  unfold acquire; rewrite gets_bind; case_bool_decide; [done |].
  intros [= <- <- <-]; done.
Qed.

Lemma quiet_kalloc : quiet rest kalloc.
Proof.
  intros s o a s' o' Hr.
  assert (Hl : LKmem ∉ k_locks s).
  { apply bind_inv in Hr as (? & ? & ? & Hr & _); apply acquire_inv in Hr as [? _]; done. }
  destruct (decide (k_freelist s = 0)) as [E | E].
  - rewrite kalloc_run_empty in Hr by done; injection Hr as <- <- <-; done.
  - rewrite kalloc_run_page in Hr by done; injection Hr as <- <- <-; destruct s; done.
Qed.

Lemma quiet_kfree pa : quiet rest (kfree pa).
Proof.
  intros s o a s' o' Hr.
  assert (Hp : page_ok pa).
  { unfold page_ok; revert Hr; unfold kfree.
    destruct (negb (pa mod PGSIZE =? 0) || (pa <? kend) || (PHYSTOP <=? pa)) eqn:E; [done |]; lia. }
  assert (Hl : LKmem ∉ k_locks s).
  { unfold kfree in Hr; destruct (_ || _); [done |]; unfold set_mem in Hr.
    rewrite modify_bind in Hr; apply bind_inv in Hr as (? & ? & ? & Hr & _).
    apply acquire_inv in Hr as [? _]; done. }
  rewrite kfree_run in Hr by done; injection Hr as <- <- <-; destruct s; done.
Qed.

Hint Resolve quiet_kalloc quiet_kfree : quiet.

Lemma quiet_walk pt va alloc : quiet rest (walk pt va alloc).
Proof. unfold walk, walk_level; quiet. Qed.
Hint Resolve quiet_walk : quiet.

Lemma quiet_walkaddr pt va : quiet rest (walkaddr pt va).
Proof. unfold walkaddr; quiet. Qed.
Hint Resolve quiet_walkaddr : quiet.

Lemma quiet_mappages pt va size pa perm : quiet rest (mappages pt va size pa perm).
Proof. unfold mappages, mappages_page; quiet. Qed.
Hint Resolve quiet_mappages : quiet.

Lemma quiet_uvmcreate : quiet rest uvmcreate.
Proof. unfold uvmcreate; quiet. Qed.

Lemma quiet_uvmunmap pt va n b : quiet rest (uvmunmap pt va n b).
Proof. unfold uvmunmap, uvmunmap_page; quiet. Qed.
Hint Resolve quiet_uvmcreate quiet_uvmunmap : quiet.

Lemma quiet_uvmdealloc pt o n : quiet rest (uvmdealloc pt o n).
Proof. unfold uvmdealloc; quiet. Qed.
Hint Resolve quiet_uvmdealloc : quiet.

Lemma quiet_uvmalloc pt o n x : quiet rest (uvmalloc pt o n x).
Proof. unfold uvmalloc, uvmalloc_page; quiet. Qed.

Lemma quiet_freewalk_depth d pt : quiet rest (freewalk_depth d pt).
Proof.
  revert pt; induction d as [| d IH]; intros pt; cbn [freewalk_depth]; [apply quiet_nofuel |].
  apply quiet_bind; [| intros; apply quiet_kfree].
  apply quiet_kfor_; intros i; apply quiet_bind; [apply quiet_pte_get |]; intros v.
  destruct (_ && _); [apply quiet_bind; [apply IH |]; intros; apply quiet_pte_set |].
  destruct (has _ _); [apply quiet_panic | apply quiet_ret].
Qed.

Lemma quiet_uvmfree pt sz : quiet rest (uvmfree pt sz).
Proof.
  unfold uvmfree, freewalk; apply quiet_bind; [quiet |]; intros; apply quiet_freewalk_depth.
Qed.
Hint Resolve quiet_uvmalloc quiet_uvmfree : quiet.

Lemma quiet_uvmcopy a b sz : quiet rest (uvmcopy a b sz).
Proof. unfold uvmcopy, uvmcopy_page; quiet. Qed.

Lemma quiet_ismapped pt va : quiet rest (ismapped pt va).
Proof. unfold ismapped; quiet. Qed.
Hint Resolve quiet_uvmcopy quiet_ismapped : quiet.

Lemma quiet_vmfault pt va r : quiet rest (vmfault pt va r).
Proof. unfold vmfault; quiet. Qed.
Hint Resolve quiet_vmfault : quiet.

Lemma quiet_user_page pt va : quiet rest (user_page pt va).
Proof. unfold user_page; quiet. Qed.
Hint Resolve quiet_user_page : quiet.

Lemma quiet_copyout pt va src len : quiet rest (copyout pt va src len).
Proof. unfold copyout, copyout_page; quiet. Qed.

Lemma quiet_copyin pt va len : quiet rest (copyin pt va len).
Proof. unfold copyin, copyin_page; quiet. Qed.

Lemma quiet_copyinstr pt va max : quiet rest (copyinstr pt va max).
Proof. unfold copyinstr; quiet. Qed.

End MemorySystem.

#[export] Hint Resolve quiet_kalloc quiet_kfree quiet_walk quiet_walkaddr quiet_mappages
  quiet_uvmcreate quiet_uvmunmap quiet_uvmdealloc quiet_uvmalloc quiet_uvmfree quiet_uvmcopy
  quiet_ismapped quiet_vmfault quiet_copyout quiet_copyin quiet_copyinstr : quiet.

(** A part of the state other than memory is the same when [rest] is. *)
Lemma rest_eq {X} (f : kstate -> X) s s' :
  (forall s, f (rest s) = f s) -> rest s' = rest s -> f s' = f s.
Proof. intros Hf Hr; rewrite <- (Hf s), <- (Hf s'), Hr; done. Qed.

Lemma rest_procs s s' : rest s' = rest s -> k_procs s' = k_procs s.
Proof. apply rest_eq; intros []; done. Qed.

Lemma rest_locks s s' : rest s' = rest s -> k_locks s' = k_locks s.
Proof. apply rest_eq; intros []; done. Qed.

Lemma rest_cur s s' : rest s' = rest s -> k_cur s' = k_cur s.
Proof. apply rest_eq; intros []; done. Qed.

Lemma rest_tf s s' : rest s' = rest s -> k_tf s' = k_tf s.
Proof. apply rest_eq; intros []; done. Qed.
