(* ===== verification/VmSpec.v ===== *)
(** What the page-table walk and the user copies compute.

    [walk_pure m pt va] is the address of the leaf entry for [va], by lookups
    in memory alone; [user_pa] is the physical address a user address names.
    copyin and copyout are reading and writing the bytes at [user_pa], page by
    page, on ranges that are mapped for the user. *)
From stdpp Require Import base gmap list strings.
From Stdlib Require Import ZArith Lia ZifyBool.
From S2P Require Import Prelude Memory KPrintf State Monad Demo Kalloc ProcBase Vm Frame.

Local Open Scope Z_scope.

Ltac plia := unfold PGSIZE in *; lia.

(** ** The macros *)

Lemma PTE_roundtrip_aux pa perm :
  0 <= pa < 2 ^ 56 -> pa mod PGSIZE = 0 -> 0 <= perm < 2 ^ 10 ->
  let pte := Z.lor (Z.lor (PA2PTE pa) perm) PTE_V in
  PTE2PA pte = pa /\ PTE_FLAGS pte = Z.lor perm PTE_V /\ 0 <= pte < 2 ^ 54.
Proof.
  intros Hpa Hal Hperm pte; subst pte.
  apply Z.mod_divide in Hal as [k ->]; [| done]; unfold PGSIZE in *.
  set (f := Z.lor perm PTE_V).
  assert (Hf : 0 <= f < 2 ^ 10) by (apply lor_bound; [lia | done | done]).
  assert (Hor : Z.lor (Z.lor (PA2PTE (k * 4096)) perm) PTE_V = k * 2 ^ 10 + f).
  { rewrite <- Z.lor_assoc; fold f; unfold PA2PTE.
    rewrite Z.shiftr_div_pow2, Z.shiftl_mul_pow2 by lia.
    change (2 ^ 12) with 4096; rewrite Z.div_mul, lor_high_low by lia; done. }
  rewrite Hor; unfold PTE2PA, PTE_FLAGS; split_and!.
  - rewrite Z.shiftr_div_pow2, Z.shiftl_mul_pow2 by lia.
    rewrite Z.div_add_l, Z.div_small, u64_small by lia; lia.
  - change 0x3FF with (Z.ones 10); rewrite Z.land_ones by lia.
    rewrite Z.add_comm, Z_mod_plus_full; apply Z.mod_small; lia.
  - lia.
  - lia.
Qed.

(** ** Walking *)

(** walk(pt, va, 0) as lookups in memory. *)
Definition walk_pure (m : mem) (pt va : Z) : Z :=
  let e2 := load64 m (pt + 8 * PX 2 va) in
  if has e2 PTE_V then
    let e1 := load64 m (PTE2PA e2 + 8 * PX 1 va) in
    if has e1 PTE_V then PTE2PA e1 + 8 * PX 0 va else 0
  else 0.

(** The leaf entry for [va]. *)
Definition leaf (m : mem) (pt va : Z) : Z := load64 m (walk_pure m pt va).

(** Mapped for the user with the permission bits [perm]. *)
Definition user_mapped (m : mem) (pt perm va : Z) : Prop :=
  0 <= va < MAXVA /\ walk_pure m pt (PGROUNDDOWN va) <> 0 /\
  let v := leaf m pt (PGROUNDDOWN va) in
  has v PTE_V = true /\ has v PTE_U = true /\ has v perm = true /\ PTE2PA v <> 0.

(** The physical address behind the user address [va]. *)
Definition user_pa (m : mem) (pt va : Z) : Z :=
  PTE2PA (leaf m pt (PGROUNDDOWN va)) + (va - PGROUNDDOWN va).

(** The [len] bytes a user sees at [va]. *)
Definition user_bytes (m : mem) (pt va len : Z) : list Z :=
  (fun i => mget m (user_pa m pt (va + i))) <$> seqZ 0 len.

Lemma PGROUNDDOWN_eq a : PGROUNDDOWN a = a / PGSIZE * PGSIZE.
Proof. apply land_page_mask. Qed.

(** The addresses of one page round down to the same address. *)
Lemma PGROUNDDOWN_same a b :
  PGROUNDDOWN a <= b < PGROUNDDOWN a + PGSIZE -> PGROUNDDOWN b = PGROUNDDOWN a.
Proof.
  rewrite !PGROUNDDOWN_eq; intros; f_equal; unfold PGSIZE in *.
  symmetry; apply Z.div_unique with (b - a / 4096 * 4096); lia.
Qed.

Lemma PGROUNDDOWN_idem a : PGROUNDDOWN (PGROUNDDOWN a) = PGROUNDDOWN a.
Proof. apply PGROUNDDOWN_same; unfold PGSIZE; lia. Qed.

Section Walk.
Context `{Linker}.

Lemma walk_noalloc pt va s o :
  va < MAXVA -> walk pt va false s o = Ok (walk_pure (k_mem s) pt va) s o.
Proof.
  intros Hva; unfold walk, walk_level, walk_pure, pte_get.
  replace (MAXVA <=? va) with false by lia; unfold mbind at 1, K_bind at 1.
  rewrite kfor_cons, bind_assoc, gets_bind; simpl.
  destruct (has (load64 (k_mem s) (pt + 8 * PX 2 va)) PTE_V); simpl; [| done].
  erewrite bind_ok by done; cbn beta iota; rewrite kfor_cons, bind_assoc, gets_bind.
  destruct (has _ PTE_V); done.
Qed.

Lemma walkaddr_mapped pt perm va s o :
  user_mapped (k_mem s) pt perm va ->
  walkaddr pt (PGROUNDDOWN va) s o = Ok (PTE2PA (leaf (k_mem s) pt (PGROUNDDOWN va))) s o.
Proof.
  intros (Hva & Hw & HV & HU & _ & _).
  destruct (PGROUNDDOWN_spec va) as [_ Hb].
  unfold walkaddr; replace (MAXVA <=? PGROUNDDOWN va) with false by lia.
  erewrite bind_ok by (apply walk_noalloc; lia); replace (walk_pure _ _ _ =? 0) with false by lia.
  unfold pte_get; rewrite gets_bind; fold (leaf (k_mem s) pt (PGROUNDDOWN va)).
  rewrite HV, HU; done.
Qed.

Lemma user_page_mapped pt perm va s o :
  user_mapped (k_mem s) pt perm va ->
  user_page pt (PGROUNDDOWN va) s o = Ok (PTE2PA (leaf (k_mem s) pt (PGROUNDDOWN va))) s o.
Proof.
  intros Hm; unfold user_page; erewrite bind_ok by (by eapply walkaddr_mapped).
  destruct Hm as (_ & _ & _ & _ & _ & Hz); replace (_ =? 0) with false by lia; done.
Qed.

(** ** copyin *)

Lemma user_bytes_app m pt va a b :
  0 <= a -> 0 <= b -> user_bytes m pt va (a + b) = user_bytes m pt va a ++ user_bytes m pt (va + a) b.
Proof.
  intros; unfold user_bytes; rewrite seqZ_app, fmap_app by lia; f_equal.
  rewrite Z.add_0_l; apply list_eq; intros i; rewrite !list_lookup_fmap.
  destruct (decide (i < Z.to_nat b)%nat).
  - rewrite !lookup_seqZ_lt by lia; simpl; do 3 f_equal; lia.
  - rewrite !lookup_seqZ_ge by lia; done.
Qed.

(** Within a page they are consecutive bytes of physical memory. *)
Lemma user_bytes_page m pt va n :
  0 <= n <= PGSIZE - (va - PGROUNDDOWN va) ->
  load_bytes (Z.to_nat n) m (PTE2PA (leaf m pt (PGROUNDDOWN va)) + (va - PGROUNDDOWN va)) =
  user_bytes m pt va n.
Proof.
  intros Hn; destruct (PGROUNDDOWN_spec va) as [_ Hb].
  apply list_eq_same_length with (n := Z.to_nat n); [| apply load_bytes_length |].
  { unfold user_bytes; rewrite length_fmap, length_seqZ; done. }
  intros i x y Hi Hx Hy; apply (nth_lookup_Some _ _ 0) in Hx; rewrite nth_load_bytes in Hx by done.
  unfold user_bytes in Hy; rewrite list_lookup_fmap, lookup_seqZ_lt in Hy by lia.
  injection Hy as <-; rewrite <- Hx; f_equal; unfold user_pa.
  rewrite (PGROUNDDOWN_same va (va + (0 + Z.of_nat i))) by lia; lia.
Qed.

Lemma copyin_page_run pt va dst len s o :
  0 < len -> user_mapped (k_mem s) pt PTE_V va ->
  let n := Z.min (PGSIZE - (va - PGROUNDDOWN va)) len in
  copyin_page pt (va, dst, len) s o =
  Ok (inl (u64 (PGROUNDDOWN va + PGSIZE), dst ++ user_bytes (k_mem s) pt va n, len - n)) s o.
Proof.
  intros Hlen Hm n; unfold copyin_page; replace (0 <? len) with true by lia; cbn [negb].
  pose proof (PGROUNDDOWN_spec va) as [_ Hb]; cbv zeta.
  erewrite bind_ok by (by eapply user_page_mapped).
  destruct Hm as (_ & _ & _ & _ & _ & Hz); replace (PTE2PA _ =? 0) with false by lia.
  fold n; rewrite gets_bind, user_bytes_page by lia; done.
Qed.

(** The next page starts at a page boundary. *)
Lemma next_page va n :
  PGROUNDDOWN va + PGSIZE = va + n -> 0 <= va -> va + n <= MAXVA ->
  u64 (PGROUNDDOWN va + PGSIZE) = va + n /\ PGROUNDDOWN (va + n) = va + n.
Proof.
  intros Hn Hva HM; pose proof (PGROUNDDOWN_spec va) as [_ Hb]; split.
  - rewrite Hn, u64_small; [done |]; change MAXVA with (2 ^ 38) in HM; plia.
  - rewrite <- Hn, PGROUNDDOWN_eq, PGROUNDDOWN_eq.
    replace (va / PGSIZE * PGSIZE + PGSIZE) with ((va / PGSIZE + 1) * PGSIZE) by ring.
    rewrite Z.div_mul by done; done.
Qed.

(** The loop of copyin, with fuel for the [k] pages that are left. *)
Lemma copyin_loop pt s o k va dst len :
  (forall a, va <= a < va + len -> user_mapped (k_mem s) pt PTE_V a) ->
  0 <= len <= Z.of_nat k * PGSIZE - (va - PGROUNDDOWN va) ->
  kloop (N.of_nat (S k)) (copyin_page pt) (va, dst, len) s o =
  Ok (0, dst ++ user_bytes (k_mem s) pt va len) s o.
Proof.
  revert va dst len; induction k as [| k IH]; intros va dst len Hm Hlen;
    rewrite Nat2N.inj_succ, kloop_succ; pose proof (PGROUNDDOWN_spec va) as [_ Hb];
    (destruct (Z.eq_dec len 0) as [-> | Hz]; [rewrite app_nil_r; done |]); [plia |].
  erewrite bind_ok by (apply copyin_page_run; [plia | apply Hm; plia]); cbn beta iota zeta.
  set (n := Z.min (PGSIZE - (va - PGROUNDDOWN va)) len).
  destruct (Z.eq_dec n len) as [Hn | Hn].
  - rewrite Nat2N.inj_succ, kloop_succ; replace (len - n) with 0 by plia.
    rewrite Hn; done.
  - destruct (Hm va) as [? _]; [plia |]; destruct (Hm (va + n)) as [? _]; [plia |].
    destruct (next_page va n) as [-> Hpg]; [plia | plia | plia |].
    rewrite IH; [| intros a Ha; apply Hm; plia | plia].
    rewrite <- app_assoc, <- user_bytes_app by plia; rewrite Zplus_minus; done.
Qed.

Lemma copy_bound_nat len : 0 <= len -> copy_bound len = N.of_nat (S (Z.to_nat (len / PGSIZE + 2))).
Proof. intros; unfold copy_bound; pose proof (Z.div_pos len PGSIZE); unfold PGSIZE in *; lia. Qed.

Lemma copyin_run pt va len s o :
  0 <= len -> (forall a, va <= a < va + len -> user_mapped (k_mem s) pt PTE_V a) ->
  copyin pt va len s o = Ok (0, user_bytes (k_mem s) pt va len) s o.
Proof.
  intros Hlen Hm; unfold copyin; rewrite copy_bound_nat, copyin_loop by
    (done || (pose proof (PGROUNDDOWN_spec va) as [_ ?];
              pose proof (Z.div_mod len PGSIZE ltac:(done));
              pose proof (Z.mod_pos_bound len PGSIZE ltac:(done)); unfold PGSIZE in *; lia)).
  done.
Qed.

(** ** copyout *)

(** The three page-table words a walk for [va] reads, and the bytes of memory
    they occupy. *)
Definition walk_words (m : mem) (pt va : Z) : list Z :=
  let e2 := load64 m (pt + 8 * PX 2 va) in
  let e1 := load64 m (PTE2PA e2 + 8 * PX 1 va) in
  [pt + 8 * PX 2 va; PTE2PA e2 + 8 * PX 1 va; PTE2PA e1 + 8 * PX 0 va].

Definition walk_reads (m : mem) (pt va b : Z) : Prop :=
  Exists (fun w => w <= b < w + 8) (walk_words m pt va).

(** A walk depends only on the words it reads. *)
Lemma walk_same m1 m2 pt va :
  (forall b, walk_reads m1 pt va b -> mget m2 b = mget m1 b) ->
  walk_pure m2 pt va = walk_pure m1 pt va /\ walk_words m2 pt va = walk_words m1 pt va /\
  (walk_pure m1 pt va <> 0 -> leaf m2 pt va = leaf m1 pt va).
Proof.
  intros Hs; unfold leaf, walk_pure, walk_words.
  assert (Hw : forall w, w ∈ walk_words m1 pt va -> load64 m2 w = load64 m1 w).
  { intros w Hw; apply load_le_ext; intros b Hb; apply Hs.
    apply Exists_exists; exists w; split; [done | lia]. }
  unfold walk_words in Hw.
  rewrite (Hw (pt + 8 * PX 2 va)) by set_solver.
  rewrite (Hw (PTE2PA (load64 m1 (pt + 8 * PX 2 va)) + 8 * PX 1 va)) by set_solver.
  split; [done |]; split; [done |].
  destruct (has _ _); [| done]; destruct (has _ _); [| done]; intros _; apply Hw; set_solver.
Qed.

(** Bytes stored through the mapping of [pt] at [va]. *)
Definition user_store (m : mem) (pt va : Z) (bs : list Z) (m' : mem) : Prop :=
  (forall i b, bs !! i = Some b -> mget m' (user_pa m pt (va + Z.of_nat i)) = u8 b) /\
  (forall a, (forall i, (i < length bs)%nat -> a <> user_pa m pt (va + Z.of_nat i)) ->
     mget m' a = mget m a).

(** Writing [va .. va+len) cannot change how that range is translated: no two
    of its bytes share a physical address, and none is part of a page-table
    word used to translate it. *)
Definition user_separate (m : mem) (pt va len : Z) : Prop :=
  (forall a b, va <= a < va + len -> va <= b < va + len ->
     user_pa m pt a = user_pa m pt b -> a = b) /\
  (forall a b, va <= a < va + len -> va <= b < va + len ->
     ~ walk_reads m pt (PGROUNDDOWN a) (user_pa m pt b)).


Definition user_range (m : mem) (pt perm va len : Z) : Prop :=
  forall a, va <= a < va + len -> user_mapped m pt perm a.

(** Storing into the range leaves its translation as it was. *)
Lemma user_store_translation m pt perm va len bs m' va0 :
  user_range m pt perm va len -> user_separate m pt va len ->
  user_store m pt va0 bs m' ->
  va <= va0 -> va0 + Z.of_nat (length bs) <= va + len ->
  user_range m' pt perm va len /\ user_separate m' pt va len /\
  (forall a, va <= a < va + len -> user_pa m' pt a = user_pa m pt a).
Proof.
  intros Hr [Hinj Hsep] [_ Hst] Hlo Hhi.
  assert (Hw : forall a, va <= a < va + len ->
    walk_pure m' pt (PGROUNDDOWN a) = walk_pure m pt (PGROUNDDOWN a) /\
    walk_words m' pt (PGROUNDDOWN a) = walk_words m pt (PGROUNDDOWN a) /\
    leaf m' pt (PGROUNDDOWN a) = leaf m pt (PGROUNDDOWN a)).
  { intros a Ha; destruct (walk_same m m' pt (PGROUNDDOWN a)) as (H1 & H2 & H3).
    - intros b Hb; apply Hst; intros i Hi ->; apply (Hsep a (va0 + Z.of_nat i)); [lia | lia | done].
    - destruct (Hr a Ha) as (_ & Hnz & _); auto. }
  assert (Hpa : forall a, va <= a < va + len -> user_pa m' pt a = user_pa m pt a).
  { intros a Ha; unfold user_pa; destruct (Hw a Ha) as (_ & _ & ->); done. }
  split; [| split; [split |]]; [| | | done].
  - intros a Ha; destruct (Hr a Ha) as (? & ? & ?); destruct (Hw a Ha) as (E1 & _ & E3).
    unfold user_mapped; rewrite E1, E3; done.
  - intros a b Ha Hb; rewrite !Hpa by done; auto.
  - intros a b Ha Hb; rewrite Hpa by done; unfold walk_reads.
    destruct (Hw a Ha) as (_ & -> & _); apply Hsep; done.
Qed.

(** Consecutive addresses of a page are consecutive in memory. *)
Lemma user_pa_page m pt va i :
  0 <= i < PGSIZE - (va - PGROUNDDOWN va) -> user_pa m pt (va + i) = user_pa m pt va + i.
Proof.
  intros Hi; pose proof (PGROUNDDOWN_spec va) as [_ Hb].
  unfold user_pa; rewrite (PGROUNDDOWN_same va (va + i)) by lia; lia.
Qed.

Lemma user_store_page m pt va bs :
  Z.of_nat (length bs) <= PGSIZE - (va - PGROUNDDOWN va) ->
  user_store m pt va bs (store_bytes m (user_pa m pt va) bs).
Proof.
  intros Hl; split.
  - intros i b Hb; pose proof (lookup_lt_Some _ _ _ Hb).
    rewrite user_pa_page, mget_store_bytes by lia.
    replace (_ && _) with true by lia.
    replace (Z.to_nat _) with i by lia; by rewrite (nth_lookup_Some _ _ _ _ Hb).
  - intros a Ha; rewrite mget_store_bytes; destruct (_ && _) eqn:E; [| done].
    destruct (Ha (Z.to_nat (a - user_pa m pt va))); [lia |].
    rewrite user_pa_page by lia; lia.
Qed.

Lemma user_store_app m pt va bs1 bs2 m1 m2 :
  let n := Z.of_nat (length bs1) in
  let len := n + Z.of_nat (length bs2) in
  user_separate m pt va len ->
  (forall a, va <= a < va + len -> user_pa m1 pt a = user_pa m pt a) ->
  user_store m pt va bs1 m1 -> user_store m1 pt (va + n) bs2 m2 ->
  user_store m pt va (bs1 ++ bs2) m2.
Proof.
  intros n len [Hinj _] Hpa [Hb1 Ho1] [Hb2 Ho2]; split.
  - intros i b [Hb | [Hge Hb]]%lookup_app_Some; pose proof (lookup_lt_Some _ _ _ Hb).
    + rewrite <- (Hb1 i b Hb); apply Ho2; intros j Hj; rewrite Hpa by lia.
      intros Heq; apply Hinj in Heq; lia.
    + rewrite <- (Hb2 _ _ Hb), Hpa by lia; f_equal; f_equal; lia.
  - intros a Ha; rewrite length_app in Ha; rewrite Ho2, Ho1; [done | |].
    + intros i Hi; apply Ha; lia.
    + intros i Hi; rewrite Hpa by lia.
      replace (va + n + Z.of_nat i) with (va + Z.of_nat (length bs1 + i)) by lia; apply Ha; lia.
Qed.

Lemma copyout_page_run pt va src len s o :
  0 < len <= Z.of_nat (length src) -> user_mapped (k_mem s) pt PTE_W va ->
  let n := Z.min (PGSIZE - (va - PGROUNDDOWN va)) len in
  copyout_page pt (va, src, len) s o =
  Ok (inl (u64 (PGROUNDDOWN va + PGSIZE), drop (Z.to_nat n) src, len - n))
    (s <| k_mem := store_bytes (k_mem s) (user_pa (k_mem s) pt va) (take (Z.to_nat n) src) |>)%rec o.
Proof.
  intros Hlen Hm n; unfold copyout_page; replace (0 <? len) with true by lia; cbn [negb].
  pose proof (PGROUNDDOWN_spec va) as [_ Hb]; cbv zeta.
  destruct (Hm) as (Hr & Hw & _ & _ & HW & Hz).
  replace (MAXVA <=? PGROUNDDOWN va) with false by lia.
  erewrite bind_ok by (by eapply user_page_mapped).
  replace (PTE2PA _ =? 0) with false by lia.
  erewrite bind_ok by (apply walk_noalloc; lia).
  unfold pte_get; rewrite gets_bind; fold (leaf (k_mem s) pt (PGROUNDDOWN va)); rewrite HW.
  fold n; replace (Z.of_nat (length src) <? n) with false by lia; cbn [negb].
  unfold set_mem; rewrite modify_bind, ret_ok; destruct s; done.
Qed.

(** The loop of copyout, with fuel for the [k] pages that are left. *)
Lemma copyout_loop pt k va src len s o :
  user_range (k_mem s) pt PTE_W va len -> user_separate (k_mem s) pt va len ->
  0 <= len <= Z.of_nat k * PGSIZE - (va - PGROUNDDOWN va) -> len <= Z.of_nat (length src) ->
  exists m', kloop (N.of_nat (S k)) (copyout_page pt) (va, src, len) s o =
    Ok 0 (s <| k_mem := m' |>)%rec o /\
    user_store (k_mem s) pt va (take (Z.to_nat len) src) m'.
Proof.
  revert va src len s; induction k as [| k IH]; intros va src len s Hr Hsep Hlen Hsrc;
    rewrite Nat2N.inj_succ, kloop_succ; pose proof (PGROUNDDOWN_spec va) as [_ Hb];
    (destruct (Z.eq_dec len 0) as [-> | Hz];
     [exists (k_mem s); split; [destruct s; done |]; split; [done | intros; done] |]); [plia |].
  erewrite bind_ok by (apply copyout_page_run; [plia | apply Hr; plia]); cbn beta iota zeta.
  set (n := Z.min (PGSIZE - (va - PGROUNDDOWN va)) len).
  set (bs := take (Z.to_nat n) src).
  assert (Hbs : Z.of_nat (length bs) = n) by (unfold bs; rewrite length_take; plia).
  assert (H1 : user_store (k_mem s) pt va bs (store_bytes (k_mem s) (user_pa (k_mem s) pt va) bs)).
  { apply user_store_page; plia. }
  fold n bs; set (m1 := store_bytes _ _ _) in *.
  destruct (Z.eq_dec n len) as [Hn | Hn].
  - exists m1; rewrite <- Hn; fold bs; rewrite Nat2N.inj_succ, kloop_succ.
    replace (n - n) with 0 by lia; done.
  - destruct (user_store_translation (k_mem s) pt PTE_W va len bs m1 va) as (Hr1 & Hs1 & Hp1);
      [done | done | done | plia | plia |].
    destruct (Hr va) as [? _]; [plia |]; destruct (Hr (va + n)) as [? _]; [plia |].
    destruct (next_page va n) as [-> Hpg]; [plia | plia | plia |].
    destruct (IH (va + n) (drop (Z.to_nat n) src) (len - n) (s <| k_mem := m1 |>)%rec)
      as (m' & Hk & Hst).
    + intros a Ha; apply Hr1; plia.
    + split; intros a b Ha Hb'; [apply Hs1 | apply Hs1]; plia.
    + plia.
    + rewrite length_drop; plia.
    + exists m'; split; [rewrite Hk; destruct s; done |].
      replace (take (Z.to_nat len) src) with (bs ++ take (Z.to_nat (len - n)) (drop (Z.to_nat n) src)).
      * eapply user_store_app; rewrite ?Hbs; [| | exact H1 | exact Hst];
          rewrite length_take, length_drop.
        -- split; intros a b Ha Hb'; [apply Hsep | apply Hsep]; plia.
        -- intros a Ha; apply Hp1; plia.
      * unfold bs; rewrite take_take_drop; f_equal; plia.
Qed.


Lemma copyout_run pt va src len s o :
  user_range (k_mem s) pt PTE_W va len -> user_separate (k_mem s) pt va len ->
  0 <= len <= Z.of_nat (length src) ->
  exists m', copyout pt va src len s o = Ok 0 (s <| k_mem := m' |>)%rec o /\
    user_store (k_mem s) pt va (take (Z.to_nat len) src) m'.
Proof.
  intros Hr Hs Hl; unfold copyout; rewrite copy_bound_nat by lia.
  apply copyout_loop; [done | done | | lia].
  pose proof (PGROUNDDOWN_spec va) as [_ ?].
  pose proof (Z.div_mod len PGSIZE ltac:(done)).
  pose proof (Z.mod_pos_bound len PGSIZE ltac:(done)); plia.
Qed.

(** Reading back what was stored. *)
Lemma user_bytes_store m pt va bs m' :
  (forall a, va <= a < va + Z.of_nat (length bs) -> user_pa m' pt a = user_pa m pt a) ->
  user_store m pt va bs m' ->
  user_bytes m' pt va (Z.of_nat (length bs)) = u8 <$> bs.
Proof.
  intros Hpa [Hst _]; unfold user_bytes; apply list_eq; intros i; rewrite !list_lookup_fmap.
  destruct (bs !! i) as [b |] eqn:E; simpl.
  - pose proof (lookup_lt_Some _ _ _ E); rewrite lookup_seqZ_lt by lia; simpl.
    rewrite Z.add_0_l, Hpa by lia; f_equal; by apply Hst.
  - apply lookup_ge_None in E; rewrite lookup_seqZ_ge by lia; done.
Qed.

(** copyin returns the bytes the user sees at the range it is given,
    however many pages it spans, when every page of it is mapped for the user,
    and changes nothing. *)
Theorem copyin_spec (pt va len : Z) (s : kstate) (o : oracle)
  (Hlen : 0 <= len) (Hmap : user_range (k_mem s) pt PTE_V va len) :
  copyin pt va len s o = Ok (0, user_bytes (k_mem s) pt va len) s o.
Proof. by apply copyin_run. Qed.

(** copyout to a range mapped writable for the user stores exactly the
    given bytes at the physical addresses behind that range and changes no
    other byte of memory nor any other part of the state. *)
Theorem copyout_spec (pt va : Z) (src : list Z) (len : Z) (s : kstate) (o : oracle)
  (Hmap : user_range (k_mem s) pt PTE_W va len) (Hsep : user_separate (k_mem s) pt va len)
  (Hlen : 0 <= len <= Z.of_nat (length src)) :
  exists m', copyout pt va src len s o = Ok 0 (s <| k_mem := m' |>)%rec o /\
    user_store (k_mem s) pt va (take (Z.to_nat len) src) m'.
Proof. by apply copyout_run. Qed.

Lemma user_mapped_weaken m pt perm va : user_mapped m pt perm va -> user_mapped m pt PTE_V va.
Proof. unfold user_mapped; naive_solver. Qed.

(** C27: copyin reads back what copyout wrote at the same user address. *)
Theorem copyout_copyin_roundtrip (pt va : Z) (src : list Z) (s : kstate) (o : oracle)
  (Hmap : user_range (k_mem s) pt PTE_W va (Z.of_nat (length src)))
  (Hsep : user_separate (k_mem s) pt va (Z.of_nat (length src)))
  (Hbytes : Forall (fun b => 0 <= b < 256) src) :
  exists s', copyout pt va src (Z.of_nat (length src)) s o = Ok 0 s' o /\
    copyin pt va (Z.of_nat (length src)) s' o = Ok (0, src) s' o.
Proof.
  destruct (copyout_run pt va src (Z.of_nat (length src)) s o) as (m' & Hc & Hst); [done.. | lia |].
  rewrite Nat2Z.id, take_ge in Hst by lia.
  destruct (user_store_translation (k_mem s) pt PTE_W va (Z.of_nat (length src)) src m' va)
    as (Hr & _ & Hp); [done | done | done | lia | lia |].
  eexists; split; [exact Hc |]; rewrite copyin_run.
  - simpl; rewrite (user_bytes_store (k_mem s)) by done; do 2 f_equal.
    rewrite <- list_fmap_id; apply list_fmap_ext; intros i b Hb; apply u8_small.
    by eapply Forall_lookup in Hbytes.
  - lia.
  - intros a Ha; eapply user_mapped_weaken; by apply Hr.
Qed.

End Walk.

(** ** A concrete page table *)

Definition demo_page (i : Z) : Z := PHYSTOP - (8 - i) * PGSIZE.

(** Page 0 is the root, 1 and 2 the tables below it; user page 1 is at physical
    page 3, readable and writable. *)
Definition demo_pt_mem : mem :=
  store64 (store64 (store64 ∅
    (demo_page 0) (Z.lor (PA2PTE (demo_page 1)) PTE_V))
    (demo_page 1) (Z.lor (PA2PTE (demo_page 2)) PTE_V))
    (demo_page 2 + 8) (Z.lor (PA2PTE (demo_page 3)) (Z.lor (Z.lor PTE_V PTE_R) (Z.lor PTE_W PTE_U))).

Lemma demo_user_page a :
  PGSIZE <= a < 2 * PGSIZE ->
  PGROUNDDOWN a = PGSIZE /\ user_pa demo_pt_mem (demo_page 0) a = demo_page 3 + (a - PGSIZE).
Proof.
  intros Ha; assert (E : PGROUNDDOWN a = PGSIZE).
  { rewrite (PGROUNDDOWN_same PGSIZE); [done |]; change (PGROUNDDOWN PGSIZE) with PGSIZE; plia. }
  split; [done |]; unfold user_pa; rewrite E; f_equal; vm_compute; done.
Qed.

Lemma demo_user_mapped va len :
  PGSIZE <= va -> va + len <= 2 * PGSIZE ->
  user_range demo_pt_mem (demo_page 0) PTE_W va len.
Proof.
  intros Hl Hh a Ha; destruct (demo_user_page a) as [E _]; [plia |].
  unfold user_mapped; rewrite E; split; [change MAXVA with (2 ^ 38); plia |].
  vm_compute; done.
Qed.

Lemma demo_user_separate va len :
  PGSIZE <= va -> va + len <= 2 * PGSIZE ->
  user_separate demo_pt_mem (demo_page 0) va len.
Proof.
  intros Hl Hh; split; intros a b Ha Hb.
  - rewrite (proj2 (demo_user_page a ltac:(plia))), (proj2 (demo_user_page b ltac:(plia))); lia.
  - rewrite (proj2 (demo_user_page b ltac:(plia))), (proj1 (demo_user_page a ltac:(plia))).
    unfold walk_reads.
    replace (walk_words _ _ _) with [demo_page 0; demo_page 1; demo_page 2 + 8] by (by vm_compute).
    unfold demo_page; rewrite !Exists_cons, Exists_nil; plia.
Qed.

Definition demo_user : kstate := (zero_state <| k_mem := demo_pt_mem |>)%rec.

Lemma copyin_spec_witness :
  copyin (H := demo_linker) (demo_page 0) 4100 3 demo_user [] = Ok (0, [0; 0; 0]) demo_user [].
Proof.
  rewrite (copyin_spec (H := demo_linker) (demo_page 0) 4100 3 demo_user [] ltac:(lia)).
  - vm_compute; reflexivity.
  - intros a Ha; eapply user_mapped_weaken, demo_user_mapped with (va := 4100) (len := 3); plia.
Defined.

Lemma copyout_spec_witness :
  exists m', copyout (H := demo_linker) (demo_page 0) 4100 [7; 8; 9] 3 demo_user [] =
    Ok 0 (demo_user <| k_mem := m' |>)%rec [] /\
    user_store demo_pt_mem (demo_page 0) 4100 [7; 8; 9] m'.
Proof.
  exact (copyout_spec (H := demo_linker) (demo_page 0) 4100 [7; 8; 9] 3 demo_user []
    (demo_user_mapped 4100 3 ltac:(plia) ltac:(plia))
    (demo_user_separate 4100 3 ltac:(plia) ltac:(plia)) ltac:(simpl; lia)).
Defined.

Lemma copyout_copyin_roundtrip_witness :
  exists s', copyout (H := demo_linker) (demo_page 0) 4100 [7; 8; 9] 3 demo_user [] = Ok 0 s' [] /\
    copyin (H := demo_linker) (demo_page 0) 4100 3 s' [] = Ok (0, [7; 8; 9]) s' [].
Proof.
  exact (copyout_copyin_roundtrip (H := demo_linker) (demo_page 0) 4100 [7; 8; 9] demo_user []
    (demo_user_mapped 4100 3 ltac:(plia) ltac:(plia))
    (demo_user_separate 4100 3 ltac:(plia) ltac:(plia)) ltac:(repeat constructor; lia)).
Defined.
