(* ===== verification/PtSpec.v ===== *)
(** Page tables as trees: what walk with allocation and mappages build.

    [pt_rep m T] says that memory [m] holds the page table [T]: its table pages
    by their path of indices from the root, and its leaf entries by their
    three indices.  mappages refines insertion into the map of leaf entries. *)
From stdpp Require Import base gmap list strings.
From Stdlib Require Import ZArith Lia ZifyBool.
From S2P Require Import Prelude Memory KPrintf State Monad Demo Kalloc ProcBase Vm Frame VmSpec.

Local Open Scope Z_scope.

(** ** Abstract page tables *)

Record ptree := mkptree {
  t_nodes : gmap (list Z) Z;  (** table pages, the root at the empty path *)
  t_leaf : gmap (list Z) Z    (** valid leaf entries, by their three indices *)
}.

(** The pages the table itself occupies. *)
Definition t_pages (T : ptree) : list Z := (map_to_list (t_nodes T)).*2.

(** The indices [va] selects at levels 2, 1 and 0. *)
Definition vpath (va : Z) : list Z := [PX 2 va; PX 1 va; PX 0 va].

(** An entry that points to a table page. *)
Definition dir_pte (pa : Z) : Z := Z.lor (PA2PTE pa) PTE_V.
(** The entry mappages stores. *)
Definition map_pte (pa perm : Z) : Z := Z.lor (Z.lor (PA2PTE pa) perm) PTE_V.

(** The indices of a path are those of entries. *)
Definition path_ok (a : list Z) : Prop := Forall (fun i => 0 <= i < 512) a.

Section PageTable.
Context `{Linker}.

Record pt_rep (m : mem) (T : ptree) : Prop := {
  rep_dir : forall a p i, t_nodes T !! a = Some p -> (length a < 2)%nat -> 0 <= i < 512 ->
    match t_nodes T !! (a ++ [i]) with
    | Some q => load64 m (p + 8 * i) = dir_pte q
    | None => has (load64 m (p + 8 * i)) PTE_V = false
    end;
  rep_leaf : forall a p i, t_nodes T !! a = Some p -> length a = 2%nat -> 0 <= i < 512 ->
    match t_leaf T !! (a ++ [i]) with
    | Some v => load64 m (p + 8 * i) = v /\ has v PTE_V = true
    | None => has (load64 m (p + 8 * i)) PTE_V = false
    end;
  rep_up : forall a i q, t_nodes T !! (a ++ [i]) = Some q -> is_Some (t_nodes T !! a);
  rep_upleaf : forall a i v, t_leaf T !! (a ++ [i]) = Some v -> is_Some (t_nodes T !! a);
  rep_nodes : forall a p, t_nodes T !! a = Some p -> path_ok a /\ (length a <= 2)%nat;
  rep_leaves : forall a v, t_leaf T !! a = Some v -> path_ok a /\ length a = 3%nat;
  rep_page : forall a p, t_nodes T !! a = Some p -> page_ok p;
  rep_inj : forall a b p, t_nodes T !! a = Some p -> t_nodes T !! b = Some p -> a = b
}.

(** Memory, the page table and the free list together: no table page is free. *)
Record vm_inv (s : kstate) (T : ptree) (l : list Z) : Prop := {
  vi_rep : pt_rep (k_mem s) T;
  vi_alloc : alloc_inv s l;
  vi_apart : forall a p, t_nodes T !! a = Some p -> p ∉ l;
  vi_lock : LKmem ∉ k_locks s
}.

(** [b] is an address inside a table page of [T]. *)
Definition in_table (T : ptree) (b : Z) : Prop :=
  exists a p, t_nodes T !! a = Some p /\ p <= b < p + PGSIZE.

Lemma PX_range level va : 0 <= PX level va < 512.
Proof.
  unfold PX; change 0x1FF with (Z.ones 9); rewrite Z.land_ones by lia; apply Z.mod_pos_bound; lia.
Qed.

(** A table page's entries are its own. *)
Lemma rep_words_apart m T a b p q i j :
  pt_rep m T -> t_nodes T !! a = Some p -> t_nodes T !! b = Some q ->
  0 <= i < 512 -> 0 <= j < 512 -> a <> b \/ i <> j ->
  q + 8 * j + 8 <= p + 8 * i \/ p + 8 * i + 8 <= q + 8 * j.
Proof.
  intros HR Ha Hb Hi Hj Hne; destruct (decide (p = q)) as [-> | Hpq].
  - assert (a = b) as -> by (by eapply (rep_inj m T)); assert (i <> j) by naive_solver; lia.
  - destruct (pages_apart p q) as [? | ?]; [by eapply rep_page | by eapply rep_page | done | |];
      unfold PGSIZE in *; lia.
Qed.

(** The tree survives changes of memory outside its pages. *)
Lemma pt_rep_ext m1 m2 T :
  (forall b, in_table T b -> mget m2 b = mget m1 b) -> pt_rep m1 T -> pt_rep m2 T.
Proof.
  intros He HR.
  assert (Hw : forall a p i, t_nodes T !! a = Some p -> 0 <= i < 512 ->
    load64 m2 (p + 8 * i) = load64 m1 (p + 8 * i)).
  { intros a p i Ha Hi; apply load_le_ext; intros b Hb; apply He; exists a, p; split; [done |].
    unfold PGSIZE; lia. }
  destruct HR as [H1 H2 H3 H4 H5 H6 H7 H8]; constructor; try done.
  - intros a p i Ha Hl Hi; erewrite Hw by done; by apply H1.
  - intros a p i Ha Hl Hi; erewrite Hw by done; by apply H2.
Qed.

(** Storing a leaf entry. *)
Lemma pt_rep_set_leaf m T a p i v :
  pt_rep m T -> t_nodes T !! a = Some p -> length a = 2%nat -> 0 <= i < 512 ->
  has v PTE_V = true -> 0 <= v < 2 ^ 64 ->
  pt_rep (store64 m (p + 8 * i) v) (mkptree (t_nodes T) (<[a ++ [i] := v]> (t_leaf T))).
Proof.
  intros HR Ha Hl Hi Hv Hr; constructor; simpl; try apply HR.
  - intros b q j Hb Hlb Hj; rewrite load64_store64_ne; [by apply HR |].
    eapply rep_words_apart; eauto; left; intros ->; lia.
  - intros b q j Hb Hlb Hj; destruct (decide (a ++ [i] = b ++ [j])) as [E | E].
    + apply app_inj_2 in E as [<- [= <-]]; [| done]; rewrite Ha in Hb; injection Hb as <-.
      rewrite lookup_insert_eq, load64_store64, u64_small by done; done.
    + rewrite lookup_insert_ne by done; rewrite load64_store64_ne; [by apply HR |].
      eapply rep_words_apart; eauto.
      destruct (decide (a = b)); [right; intros ->; by subst | by left].
  - intros b j w; destruct (decide (a ++ [i] = b ++ [j])) as [E | E].
    + apply app_inj_2 in E as [<- _]; [| done]; intros _; eauto.
    + rewrite lookup_insert_ne by done; apply HR.
  - intros b w; destruct (decide (a ++ [i] = b)) as [<- | E].
    + intros _; destruct (rep_nodes _ _ HR _ _ Ha); rewrite length_app, Hl; split; [| done]; apply Forall_app; split; [done | by constructor].
    + rewrite lookup_insert_ne by done; apply HR.
Qed.

Lemma page_ok_bound q : 0 < kend -> page_ok q -> 0 < q < 2 ^ 56 /\ q mod PGSIZE = 0.
Proof. unfold page_ok, PHYSTOP, KERNBASE; lia. Qed.

(** The fields of a directory entry. *)
Lemma dir_pte_fields q :
  0 < kend -> page_ok q ->
  0 <= dir_pte q < 2 ^ 64 /\ has (dir_pte q) PTE_V = true /\ PTE2PA (dir_pte q) = q.
Proof.
  intros Hk Hq; destruct (page_ok_bound q Hk Hq) as [Hb Ha].
  destruct (PTE_roundtrip_aux q 0 ltac:(lia) Ha ltac:(lia)) as (H1 & _ & H3).
  rewrite Z.lor_0_r in H1, H3; fold (dir_pte q) in H1, H3; split; [lia |]; split; [| done].
  unfold has, dir_pte; rewrite Z.land_lor_distr_l, Z.land_diag.
  apply negb_true_iff, Z.eqb_neq; intros E; apply Z.lor_eq_0_iff in E as [_ E]; done.
Qed.

Lemma load64_zero m a : (forall b, a <= b < a + 8 -> mget m b = 0) -> load64 m a = 0.
Proof.
  intros Hz; change 0 with (load64 ∅ 0); unfold load64.
  assert (Hg : forall k a c, (forall b, a <= b < a + Z.of_nat k -> mget m b = 0) ->
    load_le k m a = load_le k ∅ c).
  { induction k as [| k IH]; intros x c Hx; [done |]; cbn [load_le].
    rewrite Hx, (IH (x + 1) (c + 1)) by (try (intros; apply Hx); lia); done. }
  apply Hg; exact Hz.
Qed.

(** A page of zeros is an empty page table. *)
Lemma pt_rep_empty m p :
  page_ok p -> (forall b, p <= b < p + PGSIZE -> mget m b = 0) -> pt_rep m (mkptree {[ [] := p ]} ∅).
Proof.
  intros Hp Hz.
  assert (Hn : forall a q, ({[ [] := p ]} : gmap (list Z) Z) !! a = Some q -> a = [] /\ q = p)
    by (intros a q Ha; apply lookup_singleton_Some in Ha as [<- <-]; done).
  constructor; cbn [t_nodes t_leaf].
  - intros a q i Ha _ Hi; destruct (Hn a q Ha) as [-> ->]; rewrite lookup_singleton_ne by done.
    rewrite load64_zero; [done |]; intros b Hb; apply Hz; plia.
  - intros a q i Ha Hl; destruct (Hn a q Ha) as [-> _]; done.
  - intros a i q Ha; apply Hn in Ha as [Ha _]; by destruct a.
  - intros a i v Ha; by rewrite lookup_empty in Ha.
  - intros a q Ha; destruct (Hn a q Ha) as [-> _]; split; [constructor | simpl; lia].
  - intros a v Ha; by rewrite lookup_empty in Ha.
  - intros a q Ha; destruct (Hn a q Ha) as [_ ->]; done.
  - intros a b q Ha Hb; destruct (Hn a q Ha) as [-> _], (Hn b q Hb) as [-> _]; done.
Qed.

(** Storing a directory entry for a fresh page of zeros. *)
Lemma pt_rep_set_dir m T a p i q :
  pt_rep m T -> t_nodes T !! a = Some p -> (length a < 2)%nat -> 0 <= i < 512 ->
  t_nodes T !! (a ++ [i]) = None -> page_ok q -> 0 < kend ->
  (forall b p', t_nodes T !! b = Some p' -> p' <> q) ->
  (forall b, q <= b < q + PGSIZE -> mget m b = 0) ->
  pt_rep (store64 m (p + 8 * i) (dir_pte q)) (mkptree (<[a ++ [i] := q]> (t_nodes T)) (t_leaf T)).
Proof.
  intros HR Ha Hl Hi Hnone Hq Hk Hfresh Hzero; destruct (dir_pte_fields q Hk Hq) as (Hr & Hv & _).
  assert (Hqp : q <> p) by (intros ->; by eapply Hfresh).
  assert (Hpq : q + PGSIZE <= p \/ p + PGSIZE <= q)
    by (apply pages_apart; [by eapply rep_page | done | done]).
  assert (Hz : forall j, 0 <= j < 512 ->
    has (load64 (store64 m (p + 8 * i) (dir_pte q)) (q + 8 * j)) PTE_V = false).
  { intros j Hj; rewrite load64_store64_ne by plia.
    rewrite load64_zero; [done |]; intros b Hb; apply Hzero; plia. }
  assert (Hne : a ++ [i] <> a) by (intros E; apply (f_equal length) in E; rewrite length_app in E; simpl in E; lia).
  assert (Hnokid : forall j, t_nodes T !! ((a ++ [i]) ++ [j]) = None).
  { intros j; apply eq_None_not_Some; intros [x Hx]; apply (rep_up m T HR) in Hx as [y Hy]; congruence. }
  assert (Hnoleaf : forall j, t_leaf T !! ((a ++ [i]) ++ [j]) = None).
  { intros j; apply eq_None_not_Some; intros [x Hx]; apply (rep_upleaf m T HR) in Hx as [y Hy]; congruence. }
  assert (Hup : forall b, is_Some (t_nodes T !! b) -> is_Some (<[a ++ [i] := q]> (t_nodes T) !! b)).
  { intros b Hb; destruct (decide (a ++ [i] = b)) as [<- |]; [rewrite lookup_insert_eq; eauto |].
    by rewrite lookup_insert_ne. }
  constructor; simpl.
  - intros b p' j; destruct (decide (a ++ [i] = b)) as [<- | Hb].
    + rewrite lookup_insert_eq; intros [= <-] _ Hj; rewrite lookup_insert_ne.
      * rewrite Hnokid; by apply Hz.
      * intros E; apply (f_equal length) in E; rewrite !length_app in E; simpl in E; lia.
    + rewrite lookup_insert_ne by done; intros Hp' Hlb Hj.
      destruct (decide (a ++ [i] = b ++ [j])) as [E | E].
      * apply app_inj_2 in E as [<- [= <-]]; [| done]; rewrite Ha in Hp'; injection Hp' as <-.
        rewrite lookup_insert_eq, load64_store64, u64_small by done; done.
      * rewrite lookup_insert_ne by done; rewrite load64_store64_ne; [by apply HR |].
        eapply rep_words_apart; eauto; destruct (decide (a = b)); [right; intros ->; by subst | by left].
  - intros b p' j; destruct (decide (a ++ [i] = b)) as [<- | Hb].
    + rewrite lookup_insert_eq, Hnoleaf; intros [= <-] _ Hj; by apply Hz.
    + rewrite lookup_insert_ne by done; intros Hp' Hlb Hj; rewrite load64_store64_ne; [by apply HR |].
      eapply rep_words_apart; eauto; left; intros ->; lia.
  - intros b j x; destruct (decide (a ++ [i] = b ++ [j])) as [E | E].
    + apply app_inj_2 in E as [<- _]; [| done]; intros _; rewrite lookup_insert_ne by done; eauto.
    + rewrite lookup_insert_ne by done; intros Hx; apply Hup; by eapply rep_up.
  - intros b j x Hx; apply Hup; by eapply rep_upleaf.
  - intros b p'; destruct (decide (a ++ [i] = b)) as [<- | Hb].
    + intros _; destruct (rep_nodes _ _ HR _ _ Ha); rewrite length_app; simpl; split; [| lia].
      apply Forall_app; split; [done | by constructor].
    + rewrite lookup_insert_ne by done; by apply HR.
  - apply HR.
  - intros b p'; destruct (decide (a ++ [i] = b)) as [<- | Hb].
    + rewrite lookup_insert_eq; by intros [= <-].
    + rewrite lookup_insert_ne by done; by apply HR.
  - intros b c p'; destruct (decide (a ++ [i] = b)) as [<- | Hb], (decide (a ++ [i] = c)) as [<- | Hc];
      rewrite ?lookup_insert_eq, ?lookup_insert_ne by done; [done | | |by apply HR].
    + intros [= <-] Hx; by apply Hfresh in Hx.
    + intros Hx [= <-]; by apply Hfresh in Hx.
Qed.


(** ** Growing a page table *)

Context (Hend : 0 < kend).

(** Table pages were added, taken from the front of the free list, and no byte
    outside the table pages changed. *)
Record grows (s s' : kstate) (T T' : ptree) (l l' : list Z) : Prop := {
  gr_inv : vm_inv s' T' l';
  gr_nodes : t_nodes T ⊆ t_nodes T';
  gr_used : exists used, l = used ++ l' /\ t_pages T' ≡ₚ used ++ t_pages T;
  gr_rest : rest s' = rest s;
  gr_frame : forall b, ~ in_table T' b -> mget (k_mem s') b = mget (k_mem s) b
}.

Lemma grows_refl s T l : vm_inv s T l -> grows s s T T l l.
Proof. intros; constructor; try done; [exists []; done]. Qed.

Lemma grows_trans s1 s2 s3 T1 T2 T3 l1 l2 l3 :
  grows s1 s2 T1 T2 l1 l2 -> grows s2 s3 T2 T3 l2 l3 -> grows s1 s3 T1 T3 l1 l3.
Proof.
  intros [I1 N1 (u1 & U1 & P1) R1 F1] [I2 N2 (u2 & U2 & P2) R2 F2]; constructor.
  - done.
  - by transitivity (t_nodes T2).
  - exists (u1 ++ u2); rewrite <- app_assoc; split; [congruence |].
    rewrite P2, P1, !app_assoc; apply Permutation_app_tail, Permutation_app_comm.
  - congruence.
  - intros b Hb; rewrite F2, F1; [done | | done].
    intros (a & p & Ha & Hp); apply Hb; exists a, p; split; [| done]; by eapply lookup_weaken.
Qed.

(** A store into a table page leaves the allocator alone. *)
Lemma alloc_inv_store s l p i v :
  alloc_inv s l -> page_ok p -> p ∉ l -> 0 <= i < 512 ->
  alloc_inv (s <| k_mem ::= fun m => store64 m (p + 8 * i) v |>)%rec l.
Proof.
  intros [Hf Hd] Hp Hn Hi; split; [| done]; simpl.
  apply (free_pages_ext (k_mem s)); [| done]; intros q Hq.
  pose proof (free_pages_ok _ _ _ _ Hf Hq) as Hqok.
  rewrite load64_store64_ne; [done |].
  destruct (pages_apart p q) as [? | ?]; [done | done | set_solver | plia | plia].
Qed.

Lemma alloc_inv_memset s l p c :
  alloc_inv s l -> page_ok p -> p ∉ l ->
  alloc_inv (s <| k_mem ::= fun m => memset m p c PGSIZE |>)%rec l.
Proof.
  intros [Hf Hd] Hp Hn; split; [| done]; simpl.
  apply (free_pages_ext (k_mem s)); [| done]; intros q Hq.
  pose proof (free_pages_ok _ _ _ _ Hf Hq) as Hqok.
  rewrite memset_page_load; [done | done | done | set_solver].
Qed.

(** Bytes of other pages are not touched. *)
Lemma memset_other m q c b p :
  page_ok p -> page_ok q -> p <> q -> p <= b < p + PGSIZE -> mget (memset m q c PGSIZE) b = mget m b.
Proof.
  intros Hp Hq Hne Hb; rewrite memset_spec; destruct (pages_apart p q Hp Hq Hne);
    replace (_ && _) with false by plia; done.
Qed.

(** One level of the walk: the next table page is there, or is added, or
    memory has run out. *)
Lemma walk_level_spec va level a p s T l o :
  vm_inv s T l -> t_nodes T !! a = Some p -> (length a < 2)%nat ->
  exists x s' T' l', walk_level va true level p s o = Ok x s' o /\ grows s s' T T' l l' /\
    t_leaf T' = t_leaf T /\
    match x with
    | inl q => t_nodes T' !! (a ++ [PX level va]) = Some q
    | inr z => z = 0 /\ l' = [] /\ T' = T
    end.
Proof using Hend.
  intros HI Ha Hl; pose proof HI as [HR HA Hap Hlk]; set (i := PX level va).
  assert (Hi : 0 <= i < 512) by apply PX_range.
  pose proof (rep_dir _ _ HR a p i Ha Hl Hi) as Hdir; pose proof (rep_page _ _ HR a p Ha) as Hp.
  unfold walk_level, pte_get; rewrite gets_bind; fold i; cbv zeta.
  destruct (t_nodes T !! (a ++ [i])) as [q |] eqn:En.
  - destruct (dir_pte_fields q Hend (rep_page _ _ HR _ _ En)) as (_ & Hv & Hpa).
    rewrite Hdir, Hv; exists (inl q), s, T, l; rewrite Hpa; split; [done |].
    split; [by apply grows_refl |]; done.
  - rewrite Hdir; cbn [negb]; destruct l as [| q l].
    + pose proof HA as [Hf _]; simpl in Hf.
      erewrite bind_ok by (by apply kalloc_run_empty); cbn [Z.eqb].
      exists (inr 0), s, T, []; split; [done |]; split; [by apply grows_refl | done].
    + destruct (kalloc_inv Hend q l s HA) as (Hfl & Hq0 & Hqok & HA1).
      erewrite bind_ok by (apply kalloc_run_page; [lia | done]); rewrite Hfl.
      replace (q =? 0) with false by lia; unfold set_mem, pte_set, set_mem.
      rewrite !modify_bind, ret_ok; fold (dir_pte q).
      assert (Hql : q ∉ l) by (destruct HA as [_ Hd]; apply NoDup_cons in Hd as [? _]; done).
      assert (Hfresh : forall b p', t_nodes T !! b = Some p' -> p' <> q)
        by (intros b p' Hb ->; by apply (Hap _ _ Hb), list_elem_of_here).
      assert (Hpl : p ∉ l) by (intros Hin; by apply (Hap _ _ Ha), list_elem_of_further).
      set (m1 := memset (memset (k_mem s) q 5 PGSIZE) q 0 PGSIZE).
      assert (HR1 : pt_rep m1 T).
      { apply (pt_rep_ext (k_mem s)); [| done]; intros b (c & p' & Hc & Hb).
        pose proof (rep_page _ _ HR _ _ Hc); pose proof (Hfresh _ _ Hc).
        unfold m1; rewrite !(memset_other _ q _ b p') by done; done. }
      pose proof (pt_rep_set_dir m1 T a p i q HR1 Ha Hl Hi En Hqok Hend Hfresh) as HR2.
      eexists (inl q), _, (mkptree (<[a ++ [i] := q]> (t_nodes T)) (t_leaf T)), l.
      split; [done |]; split; [| split; [reflexivity | simpl; by rewrite lookup_insert_eq]]; constructor; simpl.
      * constructor; simpl.
        -- apply HR2; intros b Hb; unfold m1; rewrite memset_spec.
           replace (_ && _) with true by plia; done.
        -- apply (alloc_inv_store ((kalloc_result q s) <| k_mem ::= fun m => memset m q 0 PGSIZE |>)%rec);
             [| done | done | done].
           by apply alloc_inv_memset.
        -- intros b p'; destruct (decide (a ++ [i] = b)) as [<- |];
             [rewrite lookup_insert_eq; by intros [= <-] | rewrite lookup_insert_ne by done].
           intros Hb Hin; apply (Hap _ _ Hb), list_elem_of_further; done.
        -- done.
      * by apply insert_subseteq.
      * exists [q]; split; [reflexivity |]; unfold t_pages; simpl; rewrite map_to_list_insert; done.
      * destruct s; reflexivity.
      * intros b Hb; fold m1.
        assert (Hbp : ~ (p <= b < p + PGSIZE)).
        { intros Hin; apply Hb; exists a, p; split; [| done]; simpl; rewrite lookup_insert_ne; [done |].
          intros E; apply (f_equal length) in E; rewrite length_app in E; simpl in E; lia. }
        assert (Hbq : ~ (q <= b < q + PGSIZE)).
        { intros Hin; apply Hb; exists (a ++ [i]), q; split; [simpl; apply lookup_insert_eq | done]. }
        unfold store64; rewrite mget_store_le_ne by plia; unfold m1; rewrite !memset_spec.
        replace (_ && _) with false by plia; done.
Qed.

(** walk(root, va, 1): the address of the leaf entry for [va], in a table that
    may have grown, or 0 when memory ran out. *)
Lemma walk_alloc_spec root va s T l o :
  vm_inv s T l -> t_nodes T !! [] = Some root -> 0 <= va < MAXVA ->
  exists r s' T' l', walk root va true s o = Ok r s' o /\ grows s s' T T' l l' /\
    t_leaf T' = t_leaf T /\
    ((r = 0 /\ l' = []) \/
     exists q, t_nodes T' !! [PX 2 va; PX 1 va] = Some q /\ r = q + 8 * PX 0 va /\ r <> 0).
Proof using Hend.
  intros HI Hroot Hva; unfold walk; replace (MAXVA <=? va) with false by lia.
  destruct (walk_level_spec va 2 [] root s T l o HI Hroot ltac:(simpl; lia))
    as (x & s1 & T1 & l1 & Hr1 & G1 & E1 & Hx1).
  unfold mbind at 1, K_bind at 1; rewrite kfor_cons; erewrite bind_ok by exact Hr1.
  destruct x as [p1 | z].
  2:{ destruct Hx1 as (-> & -> & ->); exists 0, s1, T, []; split; [done |]; split; [done |]; split; [done | by left]. }
  cbn iota; rewrite kfor_cons.
  destruct (walk_level_spec va 1 [PX 2 va] p1 s1 T1 l1 o (gr_inv _ _ _ _ _ _ G1) Hx1 ltac:(simpl; lia))
    as (x & s2 & T2 & l2 & Hr2 & G2 & E2 & Hx2).
  erewrite bind_ok by exact Hr2.
  pose proof (grows_trans _ _ _ _ _ _ _ _ _ G1 G2) as G.
  destruct x as [p2 | z]; cbn iota.
  - rewrite kfor_nil, ret_ok; eexists _, s2, T2, l2; split; [done |]; split; [done |]; split; [congruence |].
    right; exists p2; split; [done |]; split; [done |].
    pose proof (rep_page _ _ (vi_rep _ _ _ (gr_inv _ _ _ _ _ _ G)) _ _ Hx2) as Hp.
    destruct (page_ok_bound p2 Hend Hp); pose proof (PX_range 0 va); lia.
  - destruct Hx2 as (-> & -> & ->); eexists 0, s2, T1, []; split; [done |]; split; [done |]; split; [congruence | by left].
Qed.

Lemma map_pte_fields pa perm :
  0 <= pa < 2 ^ 56 -> pa mod PGSIZE = 0 -> 0 <= perm < 2 ^ 10 ->
  0 <= map_pte pa perm < 2 ^ 64 /\ has (map_pte pa perm) PTE_V = true.
Proof.
  intros Hpa Hal Hp; destruct (PTE_roundtrip_aux pa perm Hpa Hal Hp) as (_ & _ & Hr).
  fold (map_pte pa perm) in Hr; split; [lia |].
  unfold has, map_pte; rewrite Z.land_lor_distr_l, Z.land_diag.
  apply negb_true_iff, Z.eqb_neq; intros E; apply Z.lor_eq_0_iff in E as [_ E]; done.
Qed.

(** mappages' result on the leaf entries after [n] pages. *)
Fixpoint map_range (n : nat) (va pa perm : Z) (leaves : gmap (list Z) Z) : gmap (list Z) Z :=
  match n with
  | O => leaves
  | S n' => map_range n' (va + PGSIZE) (pa + PGSIZE) perm (<[vpath va := map_pte pa perm]> leaves)
  end.

(** The table after one page was mapped. *)
Definition with_leaves (T : ptree) (leaves : gmap (list Z) Z) : ptree := mkptree (t_nodes T) leaves.

Lemma vm_inv_set_leaf s T l a p i v :
  vm_inv s T l -> t_nodes T !! a = Some p -> length a = 2%nat -> 0 <= i < 512 ->
  has v PTE_V = true -> 0 <= v < 2 ^ 64 ->
  vm_inv (s <| k_mem ::= fun m => store64 m (p + 8 * i) v |>)%rec
    (with_leaves T (<[a ++ [i] := v]> (t_leaf T))) l.
Proof.
  intros [HR HA Hap Hlk] Ha Hl Hi Hv Hr; constructor; simpl.
  - by apply pt_rep_set_leaf.
  - apply alloc_inv_store; [done | by eapply rep_page | by eapply Hap | done].
  - done.
  - done.
Qed.

(** Different pages below MAXVA have different indices. *)
Lemma vpath_inj va vb :
  0 <= va < MAXVA -> 0 <= vb < MAXVA -> va mod PGSIZE = 0 -> vb mod PGSIZE = 0 ->
  vpath va = vpath vb -> va = vb.
Proof.
  change MAXVA with (2 ^ 38); intros Ha Hb Aa Ab [= H2 H1 H0].
  assert (Hpx : forall v, PX 0 v = (v / 4096) mod 512 /\ PX 1 v = (v / 4096 / 512) mod 512 /\
    PX 2 v = (v / 4096 / 512 / 512) mod 512).
  { intros v; unfold PX; change 0x1FF with (Z.ones 9); rewrite !Z.land_ones, !Z.shiftr_div_pow2 by lia.
    rewrite !Z.div_div by lia; done. }
  destruct (Hpx va) as (Ea0 & Ea1 & Ea2), (Hpx vb) as (Eb0 & Eb1 & Eb2).
  rewrite Ea0, Eb0 in H0; rewrite Ea1, Eb1 in H1; rewrite Ea2, Eb2 in H2; clear Hpx Ea0 Ea1 Ea2 Eb0 Eb1 Eb2.
  unfold PGSIZE in *.
  pose proof (Z.div_mod va 4096 ltac:(lia)); pose proof (Z.div_mod vb 4096 ltac:(lia)).
  set (x := va / 4096) in *; set (y := vb / 4096) in *.
  pose proof (Z.div_mod x 512 ltac:(lia)); pose proof (Z.div_mod y 512 ltac:(lia)).
  pose proof (Z.div_mod (x / 512) 512 ltac:(lia)); pose proof (Z.div_mod (y / 512) 512 ltac:(lia)).
  assert (Hs : forall z, 0 <= z < 2 ^ 26 -> (z / 512 / 512) mod 512 = z / 512 / 512).
  { intros z Hz; apply Z.mod_small; rewrite Z.div_div by lia; split; [apply Z.div_pos; lia |].
    apply Z.div_lt_upper_bound; lia. }
  rewrite !Hs in H2 by lia; lia.
Qed.

Lemma kloop_first {St R} n (body : St -> K (St + R)) st s o :
  kloop (N.of_nat (S n)) body st s o =
  (x ← body st; match x with inl st' => kloop (N.of_nat n) body st' | inr r => mret r end) s o.
Proof. rewrite Nat2N.inj_succ; apply kloop_succ. Qed.

(** One page of mappages. *)
Lemma mappages_page_spec root perm last va pa s T l o :
  vm_inv s T l -> t_nodes T !! [] = Some root -> 0 <= va < MAXVA ->
  0 <= pa < 2 ^ 56 -> pa mod PGSIZE = 0 -> 0 <= perm < 2 ^ 10 -> t_leaf T !! vpath va = None ->
  exists s' T' l', grows s s' T T' l l' /\
    ((mappages_page root perm last (va, pa) s o = Ok (inr (-1)) s' o /\ l' = [] /\
      t_leaf T' = t_leaf T) \/
     (mappages_page root perm last (va, pa) s o =
        Ok (if va =? last then inr 0 else inl (u64 (va + PGSIZE), u64 (pa + PGSIZE))) s' o /\
      t_leaf T' = <[vpath va := map_pte pa perm]> (t_leaf T))).
Proof using Hend.
  intros HI Hroot Hva Hpa Hal Hperm Hnone; unfold mappages_page.
  destruct (walk_alloc_spec root va s T l o HI Hroot Hva) as (r & s1 & T1 & l1 & Hw & G & EL & Hcase).
  erewrite bind_ok by exact Hw; destruct Hcase as [[-> ->] | (q & Hq & Hr & Hnz)].
  - exists s1, T1, []; split; [done |]; left; done.
  - replace (r =? 0) with false by lia; unfold pte_get; rewrite gets_bind, Hr.
    pose proof (gr_inv _ _ _ _ _ _ G) as HI1; pose proof HI1 as [HR1 HA1 Hap1 Hlk1].
    pose proof (rep_leaf _ _ HR1 _ q (PX 0 va) Hq eq_refl (PX_range 0 va)) as Hlf.
    change ([PX 2 va; PX 1 va] ++ [PX 0 va]) with (vpath va) in Hlf; rewrite EL, Hnone in Hlf; rewrite Hlf.
    unfold pte_set, set_mem; rewrite modify_bind; fold (map_pte pa perm).
    destruct (map_pte_fields pa perm Hpa Hal Hperm) as [Hb Hv].
    pose proof (vm_inv_set_leaf s1 T1 l1 _ q (PX 0 va) _ HI1 Hq eq_refl (PX_range 0 va) Hv Hb) as HI2.
    change ([PX 2 va; PX 1 va] ++ [PX 0 va]) with (vpath va) in HI2; rewrite EL in HI2.
    exists (s1 <| k_mem ::= fun m => store64 m (q + 8 * PX 0 va) (map_pte pa perm) |>)%rec,
      (with_leaves T1 (<[vpath va := map_pte pa perm]> (t_leaf T))), l1.
    split; [| right; split; [destruct (va =? last); done | done]].
    apply (grows_trans _ s1 _ _ T1 _ _ l1 _ G); constructor; simpl.
    + exact HI2.
    + done.
    + exists []; done.
    + destruct s1; done.
    + intros b Hb'; unfold store64; apply mget_store_le_ne.
      destruct (decide (q <= b < q + PGSIZE)) as [Hin | Hout].
      * destruct Hb'; exists [PX 2 va; PX 1 va], q; done.
      * pose proof (PX_range 0 va); plia.
Qed.

Lemma mappages_loop n root perm last va pa s T l o :
  vm_inv s T l -> t_nodes T !! [] = Some root ->
  0 <= va -> va mod PGSIZE = 0 -> va + Z.of_nat (S n) * PGSIZE <= MAXVA ->
  last = va + Z.of_nat n * PGSIZE ->
  0 <= pa -> pa + Z.of_nat (S n) * PGSIZE <= 2 ^ 56 -> pa mod PGSIZE = 0 -> 0 <= perm < 2 ^ 10 ->
  (forall k, (k <= n)%nat -> t_leaf T !! vpath (va + Z.of_nat k * PGSIZE) = None) ->
  exists r s' T' l' k, kloop (N.of_nat (S n)) (mappages_page root perm last) (va, pa) s o = Ok r s' o /\
    grows s s' T T' l l' /\ t_leaf T' = map_range k va pa perm (t_leaf T) /\
    ((r = 0 /\ k = S n) \/ (r = -1 /\ (k < S n)%nat /\ l' = [])).
Proof using Hend.
  revert va pa s T l; induction n as [| n IH];
    intros va pa s T l HI Hroot Hva Hal HM Hlast Hpa Hpb Hpal Hperm Hfree;
    pose proof (Hfree 0%nat ltac:(lia)) as H0; rewrite Z.mul_0_l, Z.add_0_r in H0;
    destruct (mappages_page_spec root perm last va pa s T l o HI Hroot ltac:(plia) ltac:(plia) Hpal Hperm H0)
      as (s1 & T1 & l1 & G1 & [(Hb & -> & EL) | (Hb & EL)]);
    rewrite kloop_first; erewrite bind_ok by exact Hb; cbn iota;
    try (exists (-1), s1, T1, [], 0%nat; split; [done |]; split; [done |]; split; [exact EL |];
         right; split; [done |]; split; [lia | done]).
  - replace (va =? last) with true by plia; exists 0, s1, T1, l1, 1%nat.
    split; [done |]; split; [done |]; split; [exact EL | by left].
  - replace (va =? last) with false by plia; change MAXVA with (2 ^ 38) in HM.
    rewrite !u64_small by plia.
    assert (Hal1 : forall z, z mod PGSIZE = 0 -> (z + PGSIZE) mod PGSIZE = 0).
    { intros z Hz; rewrite <- (Z.mul_1_l PGSIZE) at 1; rewrite Z_mod_plus_full; done. }
    destruct (IH (va + PGSIZE) (pa + PGSIZE) s1 T1 l1) as (r & s' & T' & l' & k & Hk & G2 & EL2 & Hr).
    + apply G1.
    + by apply (lookup_weaken _ _ _ _ Hroot), G1.
    + plia.
    + by apply Hal1.
    + change MAXVA with (2 ^ 38); plia.
    + plia.
    + plia.
    + plia.
    + by apply Hal1.
    + done.
    + intros j Hj; rewrite EL.
      replace (va + PGSIZE + Z.of_nat j * PGSIZE) with (va + Z.of_nat (S j) * PGSIZE) by lia.
      rewrite lookup_insert_ne; [apply Hfree; lia |].
      intros E; apply vpath_inj in E; [plia | | | done |]; try (change MAXVA with (2 ^ 38); plia).
      rewrite Z_mod_plus_full; done.
    + exists r, s', T', l', (S k); split; [done |]; split; [by eapply grows_trans |].
      split; [rewrite EL2, EL; done |]; destruct Hr as [[-> ->] | (-> & ? & ?)]; [by left |].
      right; split; [done |]; split; [lia | done].
Qed.

(** The whole of mappages. *)
Lemma mappages_run (n : nat) (root va pa perm : Z) (s : kstate) (T : ptree) (l : list Z) (o : oracle)
  (HI : vm_inv s T l) (Hroot : t_nodes T !! [] = Some root) (Hn : (0 < n)%nat)
  (Hva : 0 <= va) (Hal : va mod PGSIZE = 0) (HM : va + Z.of_nat n * PGSIZE <= MAXVA)
  (Hpa : 0 <= pa) (Hpal : pa mod PGSIZE = 0) (Hpb : pa + Z.of_nat n * PGSIZE <= 2 ^ 56)
  (Hperm : 0 <= perm < 2 ^ 10)
  (Hfree : forall k, (k < n)%nat -> t_leaf T !! vpath (va + Z.of_nat k * PGSIZE) = None) :
  exists r s' T' l' k, mappages root va (Z.of_nat n * PGSIZE) pa perm s o = Ok r s' o /\
    grows s s' T T' l l' /\ t_leaf T' = map_range k va pa perm (t_leaf T) /\
    ((r = 0 /\ k = n) \/ (r = -1 /\ (k < n)%nat /\ l' = [])).
Proof using Hend.
  destruct n as [| n]; [lia |]; unfold mappages; rewrite Hal; cbn [Z.eqb negb].
  rewrite Z_mod_mult; cbn [Z.eqb negb].
  replace (Z.of_nat (S n) * PGSIZE =? 0) with false by plia.
  rewrite Z.div_mul by done; replace (Z.to_N (Z.of_nat (S n))) with (N.of_nat (S n)) by lia.
  cbv zeta; rewrite u64_small by (change MAXVA with (2 ^ 38) in HM; plia).
  apply mappages_loop; try done; [plia | intros k Hk; apply Hfree; lia].
Qed.

(** C3: mappages refines insertion into a map from virtual pages to entries.
    On a well-formed page table in which the n pages at va are unmapped it
    returns 0 with exactly those pages mapped to the n physical pages at pa
    with the given permissions, or -1 when the allocator is empty, with the
    first k < n of them mapped; the table stays well formed, new table pages
    come from the front of the free list and are all of its pages that are
    gone, and no byte outside the table pages changes. *)
Theorem mappages_spec (n : nat) (root va pa perm : Z) (s : kstate) (T : ptree) (l : list Z) (o : oracle)
  (HI : vm_inv s T l) (Hroot : t_nodes T !! [] = Some root) (Hn : (0 < n)%nat)
  (Hva : 0 <= va) (Hal : va mod PGSIZE = 0) (HM : va + Z.of_nat n * PGSIZE <= MAXVA)
  (Hpa : 0 <= pa) (Hpal : pa mod PGSIZE = 0) (Hpb : pa + Z.of_nat n * PGSIZE <= 2 ^ 56)
  (Hperm : 0 <= perm < 2 ^ 10)
  (Hfree : forall k, (k < n)%nat -> t_leaf T !! vpath (va + Z.of_nat k * PGSIZE) = None) :
  exists r s' T' l' k, mappages root va (Z.of_nat n * PGSIZE) pa perm s o = Ok r s' o /\
    grows s s' T T' l l' /\ t_leaf T' = map_range k va pa perm (t_leaf T) /\
    ((r = 0 /\ k = n) \/ (r = -1 /\ (k < n)%nat /\ l' = [])).
Proof using Hend. exact (mappages_run n root va pa perm s T l o HI Hroot Hn Hva Hal HM Hpa Hpal Hpb Hperm Hfree). Qed.

(** walk without allocation is lookup in that map: for a mapped page it
    returns the address of its entry, for an unmapped one 0 or the address of
    an entry that is not valid; it changes nothing. *)
Theorem walk_lookup_spec (root va : Z) (s : kstate) (T : ptree) (o : oracle)
  (HR : pt_rep (k_mem s) T) (Hroot : t_nodes T !! [] = Some root) (Hva : 0 <= va < MAXVA) :
  exists r, walk root va false s o = Ok r s o /\
    match t_leaf T !! vpath va with
    | Some v => r <> 0 /\ load64 (k_mem s) r = v /\ leaf (k_mem s) root va = v
    | None => r = 0 \/ has (load64 (k_mem s) r) PTE_V = false
    end.
Proof using Hend.
  exists (walk_pure (k_mem s) root va); split; [apply walk_noalloc; lia |].
  assert (Hd : forall a p i, t_nodes T !! a = Some p -> (length a < 2)%nat -> 0 <= i < 512 ->
    (exists q, t_nodes T !! (a ++ [i]) = Some q /\ has (load64 (k_mem s) (p + 8 * i)) PTE_V = true /\
       PTE2PA (load64 (k_mem s) (p + 8 * i)) = q) \/
    (t_nodes T !! (a ++ [i]) = None /\ has (load64 (k_mem s) (p + 8 * i)) PTE_V = false)).
  { intros a p i Ha Hl Hi; pose proof (rep_dir _ _ HR a p i Ha Hl Hi) as He.
    destruct (t_nodes T !! (a ++ [i])) as [q |] eqn:E; [left; exists q | by right].
    destruct (dir_pte_fields q Hend (rep_page _ _ HR _ _ E)) as (_ & ? & ?); rewrite He; done. }
  assert (Hnone : forall i j, t_nodes T !! [i; j] = None -> t_leaf T !! [i; j; PX 0 va] = None).
  { intros i j Hn; apply eq_None_not_Some; intros [v Hv].
    apply (rep_upleaf _ _ HR [i; j] (PX 0 va)) in Hv as [x Hx]; congruence. }
  unfold leaf, walk_pure, vpath; cbv zeta.
  destruct (Hd [] root (PX 2 va) Hroot ltac:(simpl; lia) (PX_range 2 va)) as [(p1 & H1 & -> & ->) | [H1 ->]].
  - destruct (Hd [PX 2 va] p1 (PX 1 va) H1 ltac:(simpl; lia) (PX_range 1 va)) as [(p2 & H2 & -> & ->) | [H2 ->]].
    + pose proof (rep_leaf _ _ HR _ p2 (PX 0 va) H2 eq_refl (PX_range 0 va)) as Hlf.
      change (([PX 2 va] ++ [PX 1 va]) ++ [PX 0 va]) with [PX 2 va; PX 1 va; PX 0 va] in Hlf.
      destruct (t_leaf T !! [PX 2 va; PX 1 va; PX 0 va]) as [v |]; [| by right].
      destruct Hlf as [Hv _]; split; [| by split].
      destruct (page_ok_bound p2 Hend (rep_page _ _ HR _ _ H2)); pose proof (PX_range 0 va); lia.
    + rewrite Hnone by done; by left.
  - rewrite Hnone; [by left |]; apply eq_None_not_Some; intros [x Hx].
    apply (rep_up _ _ HR [PX 2 va]) in Hx as [y Hy]; simpl in H1; congruence.
Qed.

End PageTable.

(** ** An empty page table on the demonstration machine *)

(** Page 0 is the root, pages 1 and 2 are free. *)
Definition demo_empty_pt : kstate :=
  (zero_state <| k_mem := store64 (store64 ∅ (demo_page 1) (demo_page 2)) (demo_page 2) 0 |>
              <| k_freelist := demo_page 1 |>)%rec.

Definition demo_tree : ptree := mkptree {[ [] := demo_page 0 ]} ∅.

Lemma demo_empty_inv : vm_inv (H := demo_linker) demo_empty_pt demo_tree [demo_page 1; demo_page 2].
Proof.
  constructor.
  - apply pt_rep_empty; [by vm_compute |]; intros b Hb; simpl; unfold store64.
    rewrite !mget_store_le_ne by (unfold demo_page in *; plia); done.
  - split.
    + split; [done |]; split; [by vm_compute |]; split; [by vm_compute |]; split; by vm_compute.
    + by apply (bool_decide_unpack _); vm_compute.
  - intros a p Ha; unfold demo_tree in Ha; simpl in Ha; apply lookup_singleton_Some in Ha as [<- <-]; by apply (bool_decide_unpack _); vm_compute.
  - set_solver.
Qed.

Lemma mappages_spec_witness :
  exists r s' T' (l' : list Z) k, mappages (demo_page 0) 0x3000 (1 * PGSIZE) (demo_page 5) 22
      demo_empty_pt [] = Ok r s' [] /\
    t_leaf T' = map_range k 0x3000 (demo_page 5) 22 ∅ /\
    ((r = 0 /\ k = 1%nat) \/ (r = -1 /\ (k < 1)%nat /\ l' = [])).
Proof.
  destruct (mappages_spec (H := demo_linker) ltac:(by vm_compute) 1 (demo_page 0) 0x3000 (demo_page 5) 22
    demo_empty_pt demo_tree [demo_page 1; demo_page 2] [] demo_empty_inv eq_refl ltac:(lia) ltac:(lia)
    eq_refl ltac:(vm_compute; congruence) ltac:(vm_compute; congruence) eq_refl
    ltac:(vm_compute; congruence) ltac:(lia) ltac:(done)) as (r & s' & T' & l' & k & H1 & _ & H2 & H3).
  exists r, s', T', l', k; split; [exact H1 |]; split; [exact H2 | exact H3].
Defined.

Lemma walk_lookup_spec_witness :
  exists r, walk (demo_page 0) 0x3000 false demo_empty_pt [] = Ok r demo_empty_pt [] /\
    (r = 0 \/ has (load64 (k_mem demo_empty_pt) r) PTE_V = false).
Proof.
  exact (walk_lookup_spec (H := demo_linker) ltac:(by vm_compute) (demo_page 0) 0x3000 demo_empty_pt
    demo_tree [] (vi_rep _ _ _ demo_empty_inv) eq_refl ltac:(vm_compute; intuition congruence)).
Defined.
