(* ===== verification/UvmSpec.v ===== *)
(** User address spaces: unmapping, growing, copying and freeing them, kernel/vm.c.

    An address space is a page table of PtSpec.v together with the physical pages
    its user entries name.  The pages of the tables, the pages of the users
    and the free list are disjoint, and no operation loses a page or uses one
    twice: what leaves the free list is in a table or behind an entry. *)
From stdpp Require Import base gmap list strings.
From Stdlib Require Import ZArith Lia ZifyBool.
From S2P Require Import Prelude Memory KPrintf State Monad Demo Kalloc ProcBase Vm Frame VmSpec PtSpec.

Local Open Scope Z_scope.

(** ** Pages and entries *)

Definition in_pages (L : list Z) (b : Z) : Prop := exists p, p ∈ L /\ p <= b < p + PGSIZE.

(** The path of user page [i]. *)
Definition upath (i : nat) : list Z := vpath (Z.of_nat i * PGSIZE).

(** The physical pages behind the user pages [lo] to [lo + n - 1]. *)
Definition upages (leaves : gmap (list Z) Z) (lo n : nat) : list Z :=
  omap (fun i => PTE2PA <$> leaves !! upath i) (seq lo n).

(** The entries without those of these pages. *)
Fixpoint unmap (lo n : nat) (leaves : gmap (list Z) Z) : gmap (list Z) Z :=
  match n with
  | O => leaves
  | S n' => unmap (S lo) n' (delete (upath lo) leaves)
  end.

Lemma NoDup_part {A} (k l : list A) : k ⊆+ l -> NoDup l -> NoDup k.
Proof. by intros [k' ->]%submseteq_Permutation [? _]%NoDup_app. Qed.

(** Disjointness of lists that are a part of, or arranged differently in, [Hnd]. *)
Ltac perm_in Hnd := refine (NoDup_part _ _ _ Hnd); solve_submseteq.

Lemma elem_of_rev {A} (x : A) l : x ∈ rev l <-> x ∈ l.
Proof. by rewrite <- (Permutation_rev l). Qed.

Lemma in_pages_app L1 L2 b : in_pages (L1 ++ L2) b <-> in_pages L1 b \/ in_pages L2 b.
Proof. unfold in_pages; setoid_rewrite elem_of_app; naive_solver. Qed.

Lemma in_pages_sub L1 L2 b : L1 ⊆ L2 -> in_pages L1 b -> in_pages L2 b.
Proof. intros Hs (p & Hp & Hb); exists p; auto. Qed.

Lemma in_pages_one p b : in_pages [p] b <-> p <= b < p + PGSIZE.
Proof. unfold in_pages; setoid_rewrite list_elem_of_singleton; naive_solver. Qed.

Lemma elem_of_t_pages T p : p ∈ t_pages T <-> exists a, t_nodes T !! a = Some p.
Proof.
  unfold t_pages; rewrite list_elem_of_fmap; split.
  - intros ([a q] & -> & Ha); apply elem_of_map_to_list in Ha; eauto.
  - intros [a Ha]; exists (a, p); split; [done |]; by apply elem_of_map_to_list.
Qed.

Lemma in_table_pages T b : in_table T b <-> in_pages (t_pages T) b.
Proof.
  unfold in_table, in_pages; setoid_rewrite elem_of_t_pages; naive_solver.
Qed.

Lemma upages_cons L lo n : upages L lo (S n) = option_list (PTE2PA <$> L !! upath lo) ++ upages L (S lo) n.
Proof. unfold upages; cbn [seq omap list_omap]; by destruct (L !! upath lo). Qed.

Lemma upages_snoc L lo n : upages L lo (S n) = upages L lo n ++ option_list (PTE2PA <$> L !! upath (lo + n)).
Proof.
  revert lo; induction n as [| n IH]; intros lo; rewrite upages_cons.
  - rewrite Nat.add_0_r; unfold upages; simpl; by rewrite app_nil_r.
  - rewrite IH, (upages_cons L lo n), app_assoc, <- Nat.add_succ_comm; done.
Qed.

Lemma upages_ext L1 L2 lo n :
  (forall i, (lo <= i < lo + n)%nat -> L1 !! upath i = L2 !! upath i) -> upages L1 lo n = upages L2 lo n.
Proof.
  revert lo; induction n as [| n IH]; intros lo He; [done |].
  rewrite !upages_cons, He by lia; f_equal; apply IH; intros i Hi; apply He; lia.
Qed.

Lemma upath_inj i j :
  Z.of_nat i * PGSIZE < MAXVA -> Z.of_nat j * PGSIZE < MAXVA -> upath i = upath j -> i = j.
Proof.
  change MAXVA with (2 ^ 38); intros Hi Hj E.
  assert (Hm : forall k : nat, (Z.of_nat k * PGSIZE) mod PGSIZE = 0) by (intros; by apply Z_mod_mult).
  assert (Z.of_nat i * PGSIZE = Z.of_nat j * PGSIZE); [| plia].
  apply vpath_inj; [change MAXVA with (2 ^ 38); plia .. | apply Hm | apply Hm | exact E].
Qed.

Lemma lookup_unmap_ne lo n leaves a :
  (forall i, (lo <= i < lo + n)%nat -> a <> upath i) -> unmap lo n leaves !! a = leaves !! a.
Proof.
  revert lo leaves; induction n as [| n IH]; intros lo leaves Hne; [done |]; cbn [unmap].
  rewrite IH by (intros; apply Hne; lia); rewrite lookup_delete_ne; [done |].
  intros E; by apply (Hne lo); [lia |].
Qed.

Lemma lookup_unmap_None lo n leaves a : leaves !! a = None -> unmap lo n leaves !! a = None.
Proof.
  revert lo leaves; induction n as [| n IH]; intros lo leaves Hn; [done |]; cbn [unmap].
  apply IH; rewrite lookup_delete_None; by right.
Qed.

Lemma lookup_unmap lo n leaves i :
  (lo <= i < lo + n)%nat -> unmap lo n leaves !! upath i = None.
Proof.
  revert lo leaves; induction n as [| n IH]; intros lo leaves Hi; [lia |]; cbn [unmap].
  destruct (decide (i = lo)) as [-> |]; [| apply IH; lia].
  apply lookup_unmap_None, lookup_delete_eq.
Qed.

Lemma with_leaves_id T : with_leaves T (t_leaf T) = T.
Proof. by destruct T. Qed.

Section Space.
Context `{Linker} (Hend : 0 < kend).

(** ** Entries in memory *)

Lemma NoDup_t_pages m T : pt_rep m T -> NoDup (t_pages T).
Proof.
  intros HR; apply NoDup_fmap_2_strong; [| apply NoDup_map_to_list].
  intros [a p] [b q] Ha%elem_of_map_to_list Hb%elem_of_map_to_list E; simpl in *; subst.
  f_equal; by eapply rep_inj.
Qed.

(** Clearing a leaf entry. *)
Lemma pt_rep_clear_leaf m T a p i :
  pt_rep m T -> t_nodes T !! a = Some p -> length a = 2%nat -> 0 <= i < 512 ->
  pt_rep (store64 m (p + 8 * i) 0) (with_leaves T (delete (a ++ [i]) (t_leaf T))).
Proof.
  intros HR Ha Hl Hi; constructor; simpl; try apply HR.
  - intros b q j Hb Hlb Hj; rewrite load64_store64_ne; [by apply HR |].
    eapply rep_words_apart; eauto; left; intros ->; lia.
  - intros b q j Hb Hlb Hj; destruct (decide (a ++ [i] = b ++ [j])) as [E | E].
    + apply app_inj_2 in E as [<- [= <-]]; [| done]; rewrite Ha in Hb; injection Hb as <-.
      rewrite lookup_delete_eq, load64_store64; done.
    + rewrite lookup_delete_ne by done; rewrite load64_store64_ne; [by apply HR |].
      eapply rep_words_apart; eauto.
      destruct (decide (a = b)); [right; intros ->; by subst | by left].
  - intros b j w [_ Hw]%lookup_delete_Some; by eapply rep_upleaf.
  - intros b w [_ Hw]%lookup_delete_Some; by eapply rep_leaves.
Qed.

Lemma walk_node m T root va q :
  pt_rep m T -> t_nodes T !! [] = Some root -> t_nodes T !! [PX 2 va; PX 1 va] = Some q ->
  walk_pure m root va = q + 8 * PX 0 va.
Proof using Hend.
  intros HR Hroot Hq.
  destruct (rep_up _ _ HR [PX 2 va] (PX 1 va) q Hq) as [p1 H1].
  pose proof (rep_dir _ _ HR [] root (PX 2 va) Hroot ltac:(simpl; lia) (PX_range 2 va)) as D2.
  pose proof (rep_dir _ _ HR [PX 2 va] p1 (PX 1 va) H1 ltac:(simpl; lia) (PX_range 1 va)) as D1.
  cbn [app] in D2, D1; rewrite H1 in D2; rewrite Hq in D1.
  destruct (dir_pte_fields p1 Hend (rep_page _ _ HR _ _ H1)) as (_ & V1 & A1).
  destruct (dir_pte_fields q Hend (rep_page _ _ HR _ _ Hq)) as (_ & V2 & A2).
  unfold walk_pure; rewrite D2, V1, A1, D1, V2, A2; done.
Qed.

(** A mapped page: where its entry is. *)
Lemma leaf_entry m T root va v :
  pt_rep m T -> t_nodes T !! [] = Some root -> t_leaf T !! vpath va = Some v ->
  exists q, t_nodes T !! [PX 2 va; PX 1 va] = Some q /\ page_ok q /\
    walk_pure m root va = q + 8 * PX 0 va /\ q + 8 * PX 0 va <> 0 /\
    load64 m (q + 8 * PX 0 va) = v /\ has v PTE_V = true.
Proof using Hend.
  intros HR Hroot Hv; change (vpath va) with ([PX 2 va; PX 1 va] ++ [PX 0 va]) in Hv.
  destruct (rep_upleaf _ _ HR _ _ _ Hv) as [q Hq]; exists q.
  pose proof (rep_leaf _ _ HR _ q (PX 0 va) Hq eq_refl (PX_range 0 va)) as Hl; rewrite Hv in Hl.
  pose proof (rep_page _ _ HR _ _ Hq) as Hp; destruct (page_ok_bound q Hend Hp), (PX_range 0 va).
  split; [done |]; split; [done |]; split; [by apply (walk_node m T) |]; split; [lia | done].
Qed.

(** ** Freeing a page beside a table *)

Lemma kfree_vm pa s T l :
  vm_inv s T l -> page_ok pa -> pa ∉ t_pages T -> pa ∉ l -> vm_inv (kfree_result pa s) T (pa :: l).
Proof using Hend.
  intros [HR HA Hap Hlk] Hpa Hnt Hnl; constructor.
  - apply (pt_rep_ext (k_mem s)); [| done]; intros b (a & p & Ha & Hb); simpl.
    assert (p <> pa) by (intros ->; apply Hnt, elem_of_t_pages; eauto).
    destruct (pages_apart p pa (rep_page _ _ HR _ _ Ha) Hpa ltac:(done)); unfold store64;
      rewrite mget_store_le_ne, memset_spec by plia; replace (_ && _) with false by plia; done.
  - by apply kfree_inv.
  - intros a p Ha; apply not_elem_of_cons; split; [intros ->; apply Hnt, elem_of_t_pages; eauto | by eapply Hap].
  - done.
Qed.

Lemma kfree_frame pa s b :
  ~ (pa <= b < pa + PGSIZE) -> mget (k_mem (kfree_result pa s)) b = mget (k_mem s) b.
Proof.
  intros Hb; simpl; unfold store64; rewrite mget_store_le_ne, memset_spec by plia.
  replace (_ && _) with false by plia; done.
Qed.

Lemma kfree_rest pa s : rest (kfree_result pa s) = rest s.
Proof. by destruct s. Qed.

(** ** uvmunmap *)

(** What a page of uvmunmap gives back. *)
Definition freed (do_free : bool) (L : list Z) : list Z := if do_free then L else [].

Lemma clear_leaf_vm s T l root va v :
  vm_inv s T l -> t_nodes T !! [] = Some root -> t_leaf T !! vpath va = Some v ->
  let s' := (s <| k_mem ::= fun m => store64 m (walk_pure (k_mem s) root va) 0 |>)%rec in
  vm_inv s' (with_leaves T (delete (vpath va) (t_leaf T))) l /\ rest s' = rest s /\
  forall b, ~ in_pages (t_pages T) b -> mget (k_mem s') b = mget (k_mem s) b.
Proof using Hend.
  intros [HR HA Hap Hlk] Hroot Hv s'.
  destruct (leaf_entry _ _ root va v HR Hroot Hv) as (q & Hq & Hqok & Hw & _).
  unfold s'; rewrite Hw; pose proof (PX_range 0 va) as Hi; split; [constructor; simpl | split; [by destruct s |]].
  - change (vpath va) with ([PX 2 va; PX 1 va] ++ [PX 0 va]); by apply pt_rep_clear_leaf.
  - exact (alloc_inv_store Hend s l q (PX 0 va) 0 HA Hqok (Hap _ _ Hq) Hi).
  - done.
  - done.
  - intros b Hb; simpl; unfold store64; apply mget_store_le_ne.
    destruct (decide (q <= b < q + PGSIZE)); [| plia].
    destruct Hb; exists q; split; [apply elem_of_t_pages; eauto | done].
Qed.

Lemma uvmunmap_page_spec root last do_free va s T l o :
  vm_inv s T l -> t_nodes T !! [] = Some root -> 0 <= va < last -> last <= MAXVA ->
  let out := freed do_free (option_list (PTE2PA <$> t_leaf T !! vpath va)) in
  Forall page_ok out -> NoDup (t_pages T ++ out ++ l) ->
  exists s', uvmunmap_page root last do_free va s o = Ok (inl (va + PGSIZE)) s' o /\
    vm_inv s' (with_leaves T (delete (vpath va) (t_leaf T))) (out ++ l) /\ rest s' = rest s /\
    forall b, ~ in_pages (t_pages T ++ out) b -> mget (k_mem s') b = mget (k_mem s) b.
Proof using Hend.
  intros HI Hroot Hva Hlast out Hok Hnd; pose proof HI as [HR _ _ Hlk].
  change MAXVA with (2 ^ 38) in Hlast; unfold uvmunmap_page.
  replace (va <? last) with true by lia; cbn [negb]; rewrite u64_small by plia.
  destruct (t_leaf T !! vpath va) as [v |] eqn:Ev.
  - destruct (leaf_entry _ _ root va v HR Hroot Ev) as (q & Hq & Hqok & Hw & Hnz & Hld & HV).
    erewrite bind_ok by (apply walk_noalloc; change MAXVA with (2 ^ 38); lia); rewrite Hw.
    replace (_ =? 0) with false by lia; unfold pte_get; rewrite gets_bind, Hld, HV; cbn [negb].
    subst out; unfold pte_set, set_mem; destruct do_free; cbn [kwhen freed option_list fmap option_fmap option_map] in *.
    + change (option_list (Some (PTE2PA v))) with [PTE2PA v] in *; rewrite Forall_singleton in Hok; assert (Hn : PTE2PA v ∉ t_pages T /\ PTE2PA v ∉ l).
      { apply NoDup_app in Hnd as (_ & Hd & Hn); apply NoDup_cons in Hn as [Hn _]; set_solver. }
      destruct Hn as [Hn1 Hn2]; erewrite bind_ok by (exact (kfree_run _ s o Hok Hlk)); rewrite modify_bind.
      pose proof (kfree_vm _ _ _ _ HI Hok Hn1 Hn2) as HI1.
      destruct (clear_leaf_vm _ _ _ root va v HI1 Hroot Ev) as (HI2 & Hr & Hf).
      rewrite (walk_node _ _ root va q (vi_rep _ _ _ HI1) Hroot Hq) in HI2, Hr, Hf.
      eexists; split; [reflexivity |]; split; [exact HI2 |]; split; [rewrite Hr; apply kfree_rest |].
      intros b Hb; rewrite in_pages_app, in_pages_one in Hb; rewrite Hf by tauto; apply kfree_frame; tauto.
    + erewrite bind_ok by apply ret_ok; rewrite modify_bind.
      destruct (clear_leaf_vm _ _ _ root va v HI Hroot Ev) as (HI2 & Hr & Hf); rewrite Hw in HI2, Hr, Hf.
      eexists; split; [reflexivity |]; split; [exact HI2 |]; split; [done |].
      intros b Hb; apply Hf; rewrite in_pages_app in Hb; tauto.
  - destruct (walk_lookup_spec Hend root va s T o HR Hroot ltac:(change MAXVA with (2 ^ 38); lia)) as (r & Hw & Hr).
    rewrite Ev in Hr; erewrite bind_ok by exact Hw; exists s.
    split; [| rewrite delete_id, with_leaves_id by done; by destruct do_free].
    destruct (Z.eqb_spec r 0); [done |]; unfold pte_get; rewrite gets_bind.
    destruct Hr as [? | ->]; done.
Qed.

Lemma freed_app b L1 L2 : freed b (L1 ++ L2) = freed b L1 ++ freed b L2.
Proof. by destruct b. Qed.

Lemma rev_freed_option b (x : option Z) : rev (freed b (option_list x)) = freed b (option_list x).
Proof. by destruct b, x. Qed.

Lemma upages_delete leaves lo n :
  Z.of_nat (lo + S n) * PGSIZE <= MAXVA ->
  upages (delete (upath lo) leaves) (S lo) n = upages leaves (S lo) n.
Proof.
  change MAXVA with (2 ^ 38); intros HM; apply upages_ext; intros i Hi; rewrite lookup_delete_ne; [done |].
  intros E; apply upath_inj in E; [lia | |]; change MAXVA with (2 ^ 38); plia.
Qed.

Lemma uvmunmap_loop n root last do_free lo s T l o :
  vm_inv s T l -> t_nodes T !! [] = Some root -> last = Z.of_nat (lo + n) * PGSIZE -> last <= MAXVA ->
  let out := freed do_free (upages (t_leaf T) lo n) in
  Forall page_ok out -> NoDup (t_pages T ++ out ++ l) ->
  exists s', kloop (N.of_nat (S n)) (uvmunmap_page root last do_free) (Z.of_nat lo * PGSIZE) s o = Ok tt s' o /\
    vm_inv s' (with_leaves T (unmap lo n (t_leaf T))) (rev out ++ l) /\ rest s' = rest s /\
    forall b, ~ in_pages (t_pages T ++ out) b -> mget (k_mem s') b = mget (k_mem s) b.
Proof using Hend.
  revert lo s T l; induction n as [| n IH]; intros lo s T l HI Hroot Hlast HM; rewrite kloop_first; cbv zeta.
  - intros _ _; unfold uvmunmap_page; replace (_ <? _) with false by plia; cbn [negb].
    erewrite bind_ok by apply ret_ok; exists s; rewrite with_leaves_id; by destruct do_free.
  - rewrite upages_cons, freed_app; set (out1 := freed do_free (option_list _)); intros Hok Hnd.
    apply Forall_app in Hok as [Hok1 Hok2].
    destruct (uvmunmap_page_spec root last do_free (Z.of_nat lo * PGSIZE) s T l o HI Hroot ltac:(plia) HM)
      as (s1 & Hs1 & HI1 & Hr1 & Hf1); [exact Hok1 | |].
    { perm_in Hnd. }
    change (vpath _) with (upath lo) in HI1; cbn [unmap].
    pose proof (IH (S lo) s1 _ _ HI1 Hroot ltac:(lia) HM) as IH1; cbv zeta in IH1.
    cbn [t_leaf with_leaves] in IH1; rewrite upages_delete in IH1 by lia.
    change (t_pages (with_leaves _ _)) with (t_pages T) in IH1.
    destruct IH1 as (s2 & Hs2 & HI2 & Hr2 & Hf2); [done | perm_in Hnd |].
    exists s2; erewrite bind_ok by exact Hs1; cbn iota.
    replace (Z.of_nat lo * PGSIZE + PGSIZE) with (Z.of_nat (S lo) * PGSIZE) by lia.
    split; [exact Hs2 |]; split; [| split; [congruence |]].
    + rewrite rev_app_distr; unfold out1; rewrite rev_freed_option, <- app_assoc; exact HI2.
    + intros b Hb; rewrite Hf2, Hf1; [done | |]; intros Hc; apply Hb; revert Hc; apply in_pages_sub; set_solver.
Qed.

(** uvmunmap(root, va, n, do_free) for [n] pages from page [lo] on. *)
Lemma uvmunmap_run n root do_free lo s T l o :
  vm_inv s T l -> t_nodes T !! [] = Some root -> Z.of_nat (lo + n) * PGSIZE <= MAXVA ->
  let out := freed do_free (upages (t_leaf T) lo n) in
  Forall page_ok out -> NoDup (t_pages T ++ out ++ l) ->
  exists s', uvmunmap root (Z.of_nat lo * PGSIZE) (Z.of_nat n) do_free s o = Ok tt s' o /\
    vm_inv s' (with_leaves T (unmap lo n (t_leaf T))) (rev out ++ l) /\ rest s' = rest s /\
    forall b, ~ in_pages (t_pages T ++ out) b -> mget (k_mem s') b = mget (k_mem s) b.
Proof using Hend.
  intros HI Hroot HM out Hok Hnd; unfold uvmunmap; rewrite Z_mod_mult; cbn [Z.eqb negb].
  replace (Z.to_N (Z.of_nat n) + 1)%N with (N.of_nat (S n)) by lia.
  apply uvmunmap_loop; try done; change MAXVA with (2 ^ 38) in HM; rewrite u64_small by plia; [lia |].
  change MAXVA with (2 ^ 38); lia.
Qed.

(** ** Pages taken from the allocator and mapped *)

Lemma vm_pages_ok s T l : vm_inv s T l -> Forall page_ok (t_pages T ++ l).
Proof.
  intros [HR [Hf _] _ _]; apply Forall_app; split; apply Forall_forall; intros p Hp.
  - apply elem_of_t_pages in Hp as [a Ha]; by eapply rep_page.
  - by eapply free_pages_ok.
Qed.

Lemma vm_pages_nodup s T l : vm_inv s T l -> NoDup (t_pages T ++ l).
Proof.
  intros [HR [_ Hd] Hap _]; apply NoDup_app; split; [by eapply NoDup_t_pages |]; split; [| done].
  intros p [a Ha]%elem_of_t_pages; by eapply Hap.
Qed.

Lemma in_pages_apart L1 L2 b :
  Forall page_ok L1 -> Forall page_ok L2 -> (forall p, p ∈ L1 -> p ∉ L2) -> in_pages L1 b -> ~ in_pages L2 b.
Proof.
  rewrite !Forall_forall; intros H1 H2 Hd (p & Hp & Hb) (q & Hq & Hb').
  destruct (pages_apart p q (H1 _ Hp) (H2 _ Hq)); [intros ->; by apply (Hd q) | plia | plia].
Qed.

(** From [s] to [s']: the table may have grown, the pages [own] were taken from the
    free list, and nothing else was touched. *)
Record grown (s s' : kstate) (T T' : ptree) (l l' own : list Z) : Prop := {
  gw_inv : vm_inv s' T' l';
  gw_nodes : t_nodes T ⊆ t_nodes T';
  gw_pages : t_pages T' ++ own ++ l' ≡ₚ t_pages T ++ l;
  gw_rest : rest s' = rest s;
  gw_frame : forall b, ~ in_pages (t_pages T ++ l) b -> mget (k_mem s') b = mget (k_mem s) b
}.

Lemma vm_grown_refl s T l : vm_inv s T l -> grown s s T T l l [].
Proof. intros; by constructor. Qed.

Lemma grown_trans s1 s2 s3 T1 T2 T3 l1 l2 l3 own own' :
  grown s1 s2 T1 T2 l1 l2 own -> grown s2 s3 T2 T3 l2 l3 own' -> grown s1 s3 T1 T3 l1 l3 (own ++ own').
Proof.
  intros [I1 N1 P1 R1 F1] [I2 N2 P2 R2 F2]; constructor; [done | by transitivity (t_nodes T2) | | congruence |].
  - rewrite <- P1, (Permutation_app_comm own l2), (app_assoc (t_pages T2)), <- P2; solve_Permutation.
  - intros b Hb; rewrite F2, F1; [done | done |]; intros Hc; apply Hb; revert Hc; apply in_pages_sub.
    intros p Hp; rewrite <- P1; set_solver.
Qed.

Lemma grows_grown s s' T T' l l' : grows s s' T T' l l' -> grown s s' T T' l l' [].
Proof.
  intros [I N (used & -> & P) R F]; constructor; [done | done | | done |].
  - rewrite P; solve_Permutation.
  - intros b Hb; apply F; rewrite in_table_pages; intros Hc; apply Hb; revert Hc; apply in_pages_sub.
    intros p Hp; rewrite P in Hp; set_solver.
Qed.

Lemma fill_mem q fill s :
  k_mem (kalloc_result q s <| k_mem ::= fill |>)%rec = fill (memset (k_mem s) q 5 PGSIZE).
Proof. reflexivity. Qed.

Lemma kalloc_result_mem q s : k_mem (kalloc_result q s) = memset (k_mem s) q 5 PGSIZE.
Proof. reflexivity. Qed.

Lemma fill_freelist q fill s :
  k_freelist (kalloc_result q s <| k_mem ::= fill |>)%rec = k_freelist (kalloc_result q s).
Proof. by destruct s. Qed.

Lemma fill_rest q fill s : rest (kalloc_result q s <| k_mem ::= fill |>)%rec = rest s.
Proof. rewrite rest_set_mem; by destruct s. Qed.

(** kalloc, and a write to the page it gave. *)
Lemma alloc_fill q fill s T l :
  vm_inv s T (q :: l) ->
  (forall m b, ~ (q <= b < q + PGSIZE) -> mget (fill m) b = mget m b) ->
  let s' := (kalloc_result q s <| k_mem ::= fill |>)%rec in grown s s' T T (q :: l) l [q].
Proof using Hend.
  intros HI Hfill s'; pose proof HI as [HR HA Hap Hlk].
  destruct (kalloc_inv Hend q l s HA) as (_ & _ & Hq & HA1).
  pose proof (vm_pages_nodup _ _ _ HI) as Hnd; apply NoDup_app in Hnd as (_ & Hd & [Hql _]%NoDup_cons).
  assert (Em : k_mem s' = fill (memset (k_mem s) q 5 PGSIZE)) by apply fill_mem.
  assert (Hf : forall b, ~ (q <= b < q + PGSIZE) -> mget (k_mem s') b = mget (k_mem s) b).
  { intros b Hb; rewrite Em, Hfill, memset_spec by done; replace (_ && _) with false by plia; done. }
  assert (Hrs : rest s' = rest s) by apply fill_rest.
  assert (Ef : k_freelist s' = k_freelist (kalloc_result q s)) by apply fill_freelist; clearbody s'.
  constructor; [constructor | done | solve_Permutation | exact Hrs |].
  - apply (pt_rep_ext (k_mem s)); [| done]; intros b Hb%in_table_pages; apply Hf.
    rewrite <- in_pages_one; revert Hb; apply in_pages_apart; [| by constructor |].
    + apply (Forall_app page_ok (t_pages T) (q :: l)), (vm_pages_ok _ _ _ HI).
    + intros p Hp ->%list_elem_of_singleton; by apply (Hd q); [| constructor].
  - destruct HA1 as [Hf1 Hd1]; split; [| done]; rewrite Em, Ef; clear Em Hf.
    rewrite kalloc_result_mem in Hf1.
    apply (free_pages_ext (memset (k_mem s) q 5 PGSIZE)); [| exact Hf1]; intros p Hp.
    apply load_le_ext; intros b Hb; symmetry; apply Hfill.
    pose proof (free_pages_ok _ _ _ _ Hf1 Hp) as Hpok; clear Hf1.
    destruct (pages_apart p q Hpok Hq); [intros ->; done | plia | plia].
  - intros a p Ha Hin; apply (Hap _ _ Ha); by right.
  - rewrite (rest_locks _ _ Hrs); exact Hlk.
  - intros b Hb; apply Hf; rewrite <- in_pages_one; intros Hc; apply Hb; revert Hc; apply in_pages_sub; set_solver.
Qed.

(** A page of the allocator that was not needed after all goes back. *)
Lemma grown_kfree q s0 s T0 T l0 l :
  vm_inv s0 T0 l0 -> grown s0 s T0 T l0 l [q] -> grown s0 (kfree_result q s) T0 T l0 (q :: l) [].
Proof using Hend.
  intros I0 [I N P R F]; pose proof (vm_pages_nodup _ _ _ I0) as Hnd; rewrite <- P in Hnd.
  assert (Hin : q ∈ t_pages T0 ++ l0) by (rewrite <- P; set_solver).
  assert (Hq : page_ok q) by (pose proof (vm_pages_ok _ _ _ I0) as Hok; rewrite Forall_forall in Hok; by apply Hok).
  apply NoDup_app in Hnd as (_ & Hd & [Hql _]%NoDup_cons).
  constructor; [apply kfree_vm; try done; set_solver | done | rewrite <- P; solve_Permutation | by rewrite kfree_rest |].
  intros b Hb; rewrite kfree_frame; [by apply F |].
  rewrite <- in_pages_one; intros Hc; apply Hb; revert Hc; apply in_pages_sub; set_solver.
Qed.

(** mappages for one page *)
Lemma mappages_one root va pa perm s T l o :
  vm_inv s T l -> t_nodes T !! [] = Some root -> 0 <= va -> va mod PGSIZE = 0 -> va + PGSIZE <= MAXVA ->
  0 <= pa < 2 ^ 56 -> pa mod PGSIZE = 0 -> 0 <= perm < 2 ^ 10 -> t_leaf T !! vpath va = None ->
  exists r s' T' l', mappages root va PGSIZE pa perm s o = Ok r s' o /\ grows s s' T T' l l' /\
    ((r = 0 /\ t_leaf T' = <[vpath va := map_pte pa perm]> (t_leaf T)) \/
     (r = -1 /\ l' = [] /\ t_leaf T' = t_leaf T)).
Proof using Hend.
  intros HI Hroot Hva Hal HM Hpa Hpal Hperm Hnone.
  assert (Hpb : pa + Z.of_nat 1 * PGSIZE <= 2 ^ 56).
  { apply Z.mod_divide in Hpal as [k ->]; [| done]; assert (2 ^ 56 = 17592186044416 * PGSIZE) by done; plia. }
  destruct (mappages_run Hend 1 root va pa perm s T l o HI Hroot ltac:(lia) Hva Hal ltac:(lia) ltac:(lia) Hpal Hpb Hperm)
    as (r & s' & T' & l' & k & Hm & G & EL & Hr).
  { intros k Hk; replace (va + Z.of_nat k * PGSIZE) with va by plia; done. }
  rewrite Z.mul_1_l in Hm; exists r, s', T', l'; split; [done |]; split; [done |].
  destruct Hr as [[-> ->] | (-> & Hk & ->)]; [left; done | right].
  assert (k = 0%nat) as -> by lia; done.
Qed.

(** kalloc, filling the page and mapping it, as uvmalloc, uvmcopy and vmfault do. *)
Lemma fresh_page {X} (none failed : K X) (mapped : Z -> K X) root va perm (fill : Z -> mem -> mem) s T l o :
  vm_inv s T l -> t_nodes T !! [] = Some root -> 0 <= va -> va mod PGSIZE = 0 -> va + PGSIZE <= MAXVA ->
  0 <= perm < 2 ^ 10 -> t_leaf T !! vpath va = None ->
  (forall q m b, ~ (q <= b < q + PGSIZE) -> mget (fill q m) b = mget m b) ->
  let run := (mem ← kalloc;
    if mem =? 0 then none
    else
      set_mem (fill mem) ;;
      r ← mappages root va PGSIZE mem perm;
      if negb (r =? 0) then kfree mem ;; failed else mapped mem) in
  exists s' T' l',
    ((run s o = none s' o \/ run s o = failed s' o) /\ grown s s' T T' l l' [] /\ t_leaf T' = t_leaf T) \/
    exists q, run s o = mapped q s' o /\ grown s s' T T' l l' [q] /\ q ∈ l /\ page_ok q /\
      t_leaf T' = <[vpath va := map_pte q perm]> (t_leaf T) /\
      forall b, q <= b < q + PGSIZE -> mget (k_mem s') b = mget (fill q (memset (k_mem s) q 5 PGSIZE)) b.
Proof using Hend.
  intros HI Hroot Hva Hal HM Hperm Hnone Hfill run; destruct l as [| q l].
  - exists s, T, []; left; split; [left | by split; [apply vm_grown_refl |]].
    destruct HI as [_ [Hf _] _ Hlk]; unfold run; erewrite bind_ok by (by apply kalloc_run_empty); done.
  - destruct HI as [HR HA Hap Hlk] eqn:E; clear E; destruct (kalloc_inv Hend q l s HA) as (Hfl & Hq0 & Hq & _).
    pose proof (alloc_fill q (fill q) s T l HI (Hfill q)) as G1; cbv zeta in G1.
    unfold run; erewrite bind_ok by (apply kalloc_run_page; [lia | done]); rewrite Hfl.
    replace (q =? 0) with false by lia; unfold set_mem; rewrite modify_bind.
    set (s1 := (_ <| k_mem ::= fill q |>)%rec) in *.
    destruct (page_ok_bound q Hend Hq) as [Hqb Hqa].
    destruct (mappages_one root va q perm s1 T l o (gw_inv _ _ _ _ _ _ _ G1) Hroot Hva Hal HM ltac:(lia) Hqa Hperm Hnone)
      as (r & s2 & T2 & l2 & Hm & G2 & Hr); erewrite bind_ok by exact Hm.
    apply grows_grown in G2 as G3; pose proof (grown_trans _ _ _ _ _ _ _ _ _ _ _ G1 G3) as G; cbn [app] in G.
    destruct Hr as [[-> EL] | (-> & -> & EL)]; cbn [Z.eqb negb].
    + exists s2, T2, l2; right; exists q; split; [done |]; split; [done |]; split; [by left |]; split; [done |].
      split; [exact EL |]; intros b Hb; rewrite (gr_frame _ _ _ _ _ _ G2); [done |].
      rewrite in_table_pages; revert Hb; rewrite <- in_pages_one; apply in_pages_apart.
      * by constructor.
      * apply (Forall_app page_ok (t_pages T2) l2), (vm_pages_ok s2), G2.
      * intros p ->%list_elem_of_singleton Hp.
        pose proof (vm_pages_nodup _ _ _ HI) as Hnd; rewrite <- (gw_pages _ _ _ _ _ _ _ G) in Hnd.
        apply NoDup_app in Hnd as (_ & Hd & _); apply (Hd q Hp); set_solver.
    + exists (kfree_result q s2), T2, [q]; left.
      split; [right | split; [by apply grown_kfree | exact EL]].
      erewrite bind_ok by (apply kfree_run; [done | apply (gw_inv _ _ _ _ _ _ _ G)]); done.
Qed.

(** ** uvmcopy *)

(** An entry of the child against the parent's: the same permissions and a page with
    the same bytes. *)
Definition copied (m : mem) (v v' : option Z) : Prop :=
  match v, v' with
  | None, None => True
  | Some e, Some e' =>
      PTE_FLAGS e' = PTE_FLAGS e /\ forall j, 0 <= j < PGSIZE -> mget m (PTE2PA e' + j) = mget m (PTE2PA e + j)
  | _, _ => False
  end.

Lemma elem_of_upages L lo n i e :
  L !! upath i = Some e -> (lo <= i < lo + n)%nat -> PTE2PA e ∈ upages L lo n.
Proof.
  intros He Hi; unfold upages; apply list_elem_of_omap; exists i; rewrite He; split; [apply elem_of_seq; lia | done].
Qed.

Lemma PTE_FLAGS_range v : 0 <= PTE_FLAGS v < 2 ^ 10.
Proof. unfold PTE_FLAGS; change 0x3FF with (Z.ones 10); rewrite Z.land_ones by lia; apply Z.mod_pos_bound; lia. Qed.

Lemma PTE_FLAGS_valid v : has v PTE_V = true -> Z.lor (PTE_FLAGS v) PTE_V = PTE_FLAGS v.
Proof.
  unfold has, PTE_FLAGS, PTE_V; rewrite negb_true_iff, Z.eqb_neq; change (Z.shiftl 1 0) with (2 ^ 0); intros Hv.
  assert (H0 : Z.testbit v 0 = true).
  { destruct (Z.testbit v 0) eqn:E; [done |]; destruct Hv; apply Z.bits_inj'; intros k Hk.
    rewrite Z.land_spec, Z.pow2_bits_eqb, Z.bits_0 by lia; destruct (Z.eqb_spec 0 k) as [<- |]; [by rewrite E | apply andb_false_r]. }
  apply Z.bits_inj'; intros k Hk; rewrite Z.lor_spec, Z.land_spec, Z.pow2_bits_eqb by lia.
  destruct (Z.eqb_spec 0 k) as [<- |]; [by rewrite H0 | apply orb_false_r].
Qed.

Lemma map_pte_copy q v :
  page_ok q -> has v PTE_V = true ->
  PTE2PA (map_pte q (PTE_FLAGS v)) = q /\ PTE_FLAGS (map_pte q (PTE_FLAGS v)) = PTE_FLAGS v.
Proof using Hend.
  intros Hq Hv; destruct (page_ok_bound q Hend Hq) as [Hb Ha].
  destruct (PTE_roundtrip_aux q (PTE_FLAGS v) ltac:(lia) Ha (PTE_FLAGS_range v)) as (H1 & H2 & _).
  fold (map_pte q (PTE_FLAGS v)) in H1, H2; rewrite PTE_FLAGS_valid in H2 by done; done.
Qed.

Section Copy.
Context (old new sz : Z) (n : nat) (s0 : kstate) (To T0 : ptree) (l0 : list Z).
Context (HI0 : vm_inv s0 T0 l0) (Hnew : t_nodes T0 !! [] = Some new).
Context (HRo : pt_rep (k_mem s0) To) (Hold : t_nodes To !! [] = Some old).
Context (Hsz : forall i : nat, Z.of_nat i * PGSIZE < sz <-> (i < n)%nat) (HM : Z.of_nat n * PGSIZE <= MAXVA).
Context (Hfresh : forall i, (i < n)%nat -> t_leaf T0 !! upath i = None).
Context (Hok : Forall page_ok (upages (t_leaf To) 0 n)).
Context (Hapart : forall p, p ∈ t_pages To ++ upages (t_leaf To) 0 n -> p ∉ t_pages T0 ++ l0).

(** After the first [i] pages *)
Record copying (i : nat) (s : kstate) (T : ptree) (l : list Z) : Prop := {
  cp_grown : grown s0 s T0 T l0 l (upages (t_leaf T) 0 i);
  cp_copied : forall j, (j < i)%nat -> copied (k_mem s) (t_leaf To !! upath j) (t_leaf T !! upath j);
  cp_other : forall a, (forall j, (j < i)%nat -> a <> upath j) -> t_leaf T !! a = t_leaf T0 !! a
}.

(** The parent's table and pages are where the copy does not write. *)
Lemma parent_apart b : in_pages (t_pages To ++ upages (t_leaf To) 0 n) b -> ~ in_pages (t_pages T0 ++ l0) b.
Proof.
  apply in_pages_apart; [| by eapply vm_pages_ok | done].
  apply Forall_app; split; [| done]; apply Forall_forall; intros p [a Ha]%elem_of_t_pages; by eapply rep_page.
Qed.

Lemma parent_same s T l own b :
  grown s0 s T0 T l0 l own -> in_pages (t_pages To ++ upages (t_leaf To) 0 n) b -> mget (k_mem s) b = mget (k_mem s0) b.
Proof. intros G Hb; by apply (gw_frame _ _ _ _ _ _ _ G), parent_apart. Qed.

Lemma parent_rep s T l own : grown s0 s T0 T l0 l own -> pt_rep (k_mem s) To.
Proof.
  intros G; apply (pt_rep_ext (k_mem s0)); [| done]; intros b Hb%in_table_pages.
  eapply parent_same; [done |]; rewrite in_pages_app; by left.
Qed.

Lemma upath_lt_ne i j : (j < i)%nat -> (i < n)%nat -> upath i <> upath j.
Proof.
  intros Hj Hi E; change MAXVA with (2 ^ 38) in HM.
  apply upath_inj in E; [lia | |]; change MAXVA with (2 ^ 38); plia.
Qed.

Lemma copying_none i s T l : copying i s T l -> (i < n)%nat -> t_leaf T !! upath i = None.
Proof. intros C Hi; rewrite (cp_other _ _ _ _ C); [by apply Hfresh |]; intros j Hj; by apply upath_lt_ne. Qed.

(** The bytes of the parent's pages stay. *)
Lemma parent_bytes s T l own j e b :
  grown s0 s T0 T l0 l own -> (j < n)%nat -> t_leaf To !! upath j = Some e -> 0 <= b < PGSIZE ->
  mget (k_mem s) (PTE2PA e + b) = mget (k_mem s0) (PTE2PA e + b).
Proof.
  intros G Hj He Hb; apply (parent_same _ _ _ _ _ G); exists (PTE2PA e); split; [| plia].
  apply elem_of_app; right; apply (elem_of_upages _ _ _ j); [done | lia].
Qed.

(** The pages copied so far stay. *)
Lemma copied_keep i s T l s' T' l' own j :
  copying i s T l -> (i <= n)%nat -> grown s s' T T' l l' own -> (j < i)%nat ->
  copied (k_mem s') (t_leaf To !! upath j) (t_leaf T !! upath j).
Proof.
  intros C Hi G Hj; pose proof (cp_grown _ _ _ _ C) as G0; pose proof (grown_trans _ _ _ _ _ _ _ _ _ _ _ G0 G) as G'.
  pose proof (vm_pages_nodup _ _ _ HI0) as Hnd; rewrite <- (gw_pages _ _ _ _ _ _ _ G0) in Hnd.
  pose proof (vm_pages_ok _ _ _ HI0) as Hpok; rewrite <- (gw_pages _ _ _ _ _ _ _ G0) in Hpok.
  pose proof (cp_copied _ _ _ _ C j Hj) as Hc; unfold copied in *.
  destruct (t_leaf To !! upath j) as [e |] eqn:Ee, (t_leaf T !! upath j) as [e' |] eqn:Ee'; try done.
  destruct Hc as [Hfl Hb]; split; [done |]; intros b Hr.
  rewrite (parent_bytes _ _ _ _ j e b G'), <- (parent_bytes _ _ _ _ j e b G0), <- Hb by (done || lia).
  apply (gw_frame _ _ _ _ _ _ _ G), (in_pages_apart (upages (t_leaf T) 0 i)).
  - apply Forall_app in Hpok as [_ Hpok]; by apply Forall_app in Hpok as [? _].
  - eapply vm_pages_ok, (gw_inv _ _ _ _ _ _ _ G0).
  - apply NoDup_app in Hnd as (_ & Hd1 & Hd2); apply NoDup_app in Hd2 as (_ & Hd2 & _); set_solver.
  - exists (PTE2PA e'); split; [apply (elem_of_upages _ _ _ j); [done | lia] | plia].
Qed.

(** Mapping a fresh copy of page [i]. *)
Lemma copying_step i v s T l s' T' l' q :
  copying i s T l -> (i < n)%nat -> t_leaf To !! upath i = Some v -> has v PTE_V = true ->
  grown s s' T T' l l' [q] -> q ∈ l -> page_ok q ->
  t_leaf T' = <[upath i := map_pte q (PTE_FLAGS v)]> (t_leaf T) ->
  (forall b, q <= b < q + PGSIZE ->
    mget (k_mem s') b = mget (memmove (memset (k_mem s) q 5 PGSIZE) q (PTE2PA v) PGSIZE) b) ->
  copying (S i) s' T' l'.
Proof.
  intros C Hi Hv HV G Hql Hq EL Hcp; destruct (map_pte_copy q v Hq HV) as [Epa Efl].
  pose proof (grown_trans _ _ _ _ _ _ _ _ _ _ _ (cp_grown _ _ _ _ C) G) as G'.
  assert (Hne : forall j, (j < i)%nat -> t_leaf T' !! upath j = t_leaf T !! upath j).
  { intros j Hj; rewrite EL, lookup_insert_ne; [done |]; by apply upath_lt_ne. }
  assert (Hself : t_leaf T' !! upath i = Some (map_pte q (PTE_FLAGS v))) by (rewrite EL; apply lookup_insert_eq).
  constructor.
  - rewrite upages_snoc; cbn [Nat.add]; rewrite Hself; cbn [fmap option_fmap option_map option_list]; rewrite Epa.
    rewrite (upages_ext _ (t_leaf T)) by (intros; apply Hne; lia); exact G'.
  - intros j Hj; destruct (decide (j = i)) as [-> |].
    + rewrite Hself, Hv; split; [done |]; intros b Hb; rewrite Epa, Hcp, memmove_bytes by plia.
      replace (_ && _) with true by plia; replace (PTE2PA v + (q + b - q)) with (PTE2PA v + b) by lia.
      rewrite (parent_bytes _ _ _ _ i v b G' Hi Hv Hb), <- (parent_bytes _ _ _ _ i v b (cp_grown _ _ _ _ C) Hi Hv Hb).
      rewrite memset_spec; replace (_ && _) with false; [done |].
      assert (Hvok : page_ok (PTE2PA v)) by (rewrite Forall_forall in Hok; apply Hok, (elem_of_upages _ _ _ i); [done | lia]).
      destruct (pages_apart _ _ Hvok Hq); [| plia | plia]; intros E.
      apply (Hapart (PTE2PA v)); [apply elem_of_app; right; apply (elem_of_upages _ _ _ i); [done | lia] |].
      rewrite E, <- (gw_pages _ _ _ _ _ _ _ (cp_grown _ _ _ _ C)); set_solver.
    + rewrite Hne by lia; eapply copied_keep; [done | lia | done | lia].
  - intros a Ha; rewrite EL, lookup_insert_ne by (intros <-; apply (Ha i); [lia | done]).
    apply (cp_other _ _ _ _ C); intros j Hj; apply Ha; lia.
Qed.

(** One page of the loop: copied, or skipped as the parent has none, or memory ran out. *)
Lemma uvmcopy_page_spec i s T l o :
  copying i s T l -> (i < n)%nat ->
  exists s' T' l',
    (uvmcopy_page old new sz (Z.of_nat i * PGSIZE) s o = Ok (inl (Z.of_nat (S i) * PGSIZE)) s' o /\
       copying (S i) s' T' l') \/
    (uvmcopy_page old new sz (Z.of_nat i * PGSIZE) s o = Ok (inr (Some (Z.of_nat i * PGSIZE))) s' o /\
       copying i s' T' l').
Proof.
  intros C Hi; pose proof (copying_none _ _ _ _ C Hi) as Hnone; pose proof (cp_grown _ _ _ _ C) as G.
  assert (HM' : Z.of_nat n * PGSIZE <= 2 ^ 38) by exact HM.
  assert (Hva : 0 <= Z.of_nat i * PGSIZE < MAXVA) by (change MAXVA with (2 ^ 38); plia).
  pose proof (parent_rep _ _ _ _ G) as HR; unfold uvmcopy_page.
  replace (_ <? sz) with true by (symmetry; apply Z.ltb_lt, Hsz; done); cbn [negb].
  replace (u64 (Z.of_nat i * PGSIZE + PGSIZE)) with (Z.of_nat (S i) * PGSIZE) by (rewrite u64_small; plia).
  destruct (t_leaf To !! upath i) as [v |] eqn:Ev.
  - destruct (leaf_entry _ _ old _ v HR Hold Ev) as (pg & _ & _ & Hw & Hnz & Hld & HV).
    erewrite bind_ok by (apply walk_noalloc, Hva); rewrite Hw; replace (_ =? 0) with false by lia.
    unfold pte_get; rewrite gets_bind, Hld, HV; cbn [negb]; cbv zeta.
    destruct (fresh_page (mret (inr (Some (Z.of_nat i * PGSIZE)))) (mret (inr (Some (Z.of_nat i * PGSIZE))))
      (fun _ => mret (inl (Z.of_nat (S i) * PGSIZE) : Z + option Z)) new (Z.of_nat i * PGSIZE) (PTE_FLAGS v)
      (fun q m => memmove m q (PTE2PA v) PGSIZE) s T l o) as (s' & T' & l' & Hcase).
    + apply G.
    + by apply (lookup_weaken _ _ _ _ Hnew), G.
    + lia.
    + by apply Z_mod_mult.
    + change MAXVA with (2 ^ 38); plia.
    + apply PTE_FLAGS_range.
    + exact Hnone.
    + intros q m b Hb; rewrite memmove_bytes by plia; replace (_ && _) with false by plia; done.
    + exists s', T', l'; destruct Hcase as [(Hrun & G' & EL) | (q & Hrun & G' & Hql & Hq & EL & Hcp)].
      * right; split; [destruct Hrun as [Hrun | Hrun]; exact Hrun |].
        pose proof (grown_trans _ _ _ _ _ _ _ _ _ _ _ G G') as G2; rewrite app_nil_r in G2.
        constructor; rewrite EL; [done | | apply C]; intros j Hj; eapply copied_keep; [done | lia | done | done].
      * left; split; [exact Hrun |]; by eapply copying_step.
  - destruct (walk_lookup_spec Hend old _ s To o HR Hold Hva) as (r & Hw & Hr).
    change (vpath _) with (upath i) in Hr; rewrite Ev in Hr; erewrite bind_ok by exact Hw.
    exists s, T, l; left; split.
    + destruct (Z.eqb_spec r 0); [done |]; unfold pte_get; rewrite gets_bind; by destruct Hr as [? | ->].
    + constructor.
      * rewrite upages_snoc; cbn [Nat.add]; rewrite Hnone, app_nil_r; exact G.
      * intros j Hj; destruct (decide (j = i)) as [-> |]; [by rewrite Ev, Hnone | apply C; lia].
      * intros a Ha; apply C; intros j Hj; apply Ha; lia.
Qed.

Lemma uvmcopy_loop k i s T l o :
  copying i s T l -> (i <= n <= i + k)%nat ->
  exists s' T' l' r, kloop (N.of_nat (S k)) (uvmcopy_page old new sz) (Z.of_nat i * PGSIZE) s o = Ok r s' o /\
    ((r = None /\ copying n s' T' l') \/
     (exists j, r = Some (Z.of_nat j * PGSIZE) /\ (j < n)%nat /\ copying j s' T' l')).
Proof.
  revert i s T l; induction k as [| k IH]; intros i s T l C Hk; rewrite kloop_first;
    destruct (decide (i = n)) as [-> |]; try lia.
  1, 2: exists s, T, l, None; split; [| by left]; unfold uvmcopy_page; replace (_ <? sz) with false; [done |];
    symmetry; apply Z.ltb_nlt; rewrite Hsz; lia.
  destruct (uvmcopy_page_spec i s T l o C ltac:(lia)) as (s1 & T1 & l1 & [[Hr C1] | [Hr C1]]);
    erewrite bind_ok by exact Hr; cbn iota.
  - apply (IH (S i) s1 T1 l1 C1); lia.
  - exists s1, T1, l1, (Some (Z.of_nat i * PGSIZE)); split; [done |]; right; exists i; split; [done |]; split; [lia | done].
Qed.

End Copy.

(** Entries that were put into unmapped places and removed again. *)
Lemma unmap_undo lo n L L0 :
  (forall i, (lo <= i < lo + n)%nat -> L0 !! upath i = None) ->
  (forall a, (forall i, (lo <= i < lo + n)%nat -> a <> upath i) -> L !! a = L0 !! a) -> unmap lo n L = L0.
Proof.
  intros Hn Ho; apply map_eq; intros a.
  destruct (decide (Exists (fun i => a = upath i) (seq lo n))) as [He | He].
  - apply Exists_exists in He as (i & Hi%elem_of_seq & ->); rewrite lookup_unmap, Hn by lia; done.
  - assert (Ha : forall i, (lo <= i < lo + n)%nat -> a <> upath i).
    { intros i Hi ->; apply He, Exists_exists; exists i; split; [apply elem_of_seq; lia | done]. }
    rewrite lookup_unmap_ne by (intros i Hi; apply Ha; lia); by apply Ho.
Qed.

(** Unmapping what was grown, with its pages, goes back to the beginning. *)
Lemma grown_unmap lo n root s0 s T0 T l0 l o :
  vm_inv s0 T0 l0 -> grown s0 s T0 T l0 l (upages (t_leaf T) lo n) ->
  t_nodes T0 !! [] = Some root -> Z.of_nat (lo + n) * PGSIZE <= MAXVA ->
  (forall i, (lo <= i < lo + n)%nat -> t_leaf T0 !! upath i = None) ->
  (forall a, (forall i, (lo <= i < lo + n)%nat -> a <> upath i) -> t_leaf T !! a = t_leaf T0 !! a) ->
  exists s' T' l', uvmunmap root (Z.of_nat lo * PGSIZE) (Z.of_nat n) true s o = Ok tt s' o /\
    grown s0 s' T0 T' l0 l' [] /\ t_leaf T' = t_leaf T0.
Proof using Hend.
  intros HI G Hroot HM Hn Ho.
  pose proof (vm_pages_nodup _ _ _ HI) as Hnd; rewrite <- (gw_pages _ _ _ _ _ _ _ G) in Hnd.
  pose proof (vm_pages_ok _ _ _ HI) as Hok; rewrite <- (gw_pages _ _ _ _ _ _ _ G) in Hok.
  destruct (uvmunmap_run n root true lo s T l o) as (s' & Hr & HI' & Hrs & Hf).
  - apply G.
  - by apply (lookup_weaken _ _ _ _ Hroot), G.
  - done.
  - apply Forall_app in Hok as [_ Hok]; by apply Forall_app in Hok as [? _].
  - done.
  - rewrite unmap_undo with (L0 := t_leaf T0) in HI' by done.
    exists s', (with_leaves T (t_leaf T0)), (rev (upages (t_leaf T) lo n) ++ l); split; [done |]; split; [| done].
    constructor; [done | apply G | | rewrite Hrs; apply G |].
    + rewrite <- (gw_pages _ _ _ _ _ _ _ G); cbn [app]; change (t_pages (with_leaves _ _)) with (t_pages T).
      by rewrite (Permutation_rev (upages (t_leaf T) lo n)) at 2.
    + intros b Hb; rewrite Hf; [by apply G |].
      intros Hc; apply Hb; revert Hc; apply in_pages_sub; intros p Hp.
      rewrite <- (gw_pages _ _ _ _ _ _ _ G); cbn [freed] in Hp; set_solver.
Qed.

(** The number of pages that [sz] bytes take. *)
Definition npages (sz : Z) : nat := Z.to_nat (PGROUNDUP sz / PGSIZE).

Lemma npages_spec sz :
  0 <= sz <= MAXVA ->
  Z.of_nat (npages sz) * PGSIZE = PGROUNDUP sz /\ Z.of_nat (npages sz) * PGSIZE <= MAXVA /\
  (npages sz <= Z.to_nat (sz / PGSIZE) + 1)%nat /\
  (forall i : nat, Z.of_nat i * PGSIZE < sz <-> (i < npages sz)%nat).
Proof.
  change MAXVA with (2 ^ 38); intros Hsz; destruct (PGROUNDUP_spec sz ltac:(plia)) as [Ha Hb].
  pose proof (Z.div_mod (PGROUNDUP sz) PGSIZE ltac:(done)); pose proof (Z.div_mod sz PGSIZE ltac:(done)).
  pose proof (Z.mod_pos_bound sz PGSIZE ltac:(done)).
  assert (0 <= PGROUNDUP sz / PGSIZE) by (apply Z.div_pos; plia).
  unfold npages; rewrite Z2Nat.id by lia; assert (2 ^ 38 = 67108864 * PGSIZE) by done.
  split; [lia |]; split; [plia |]; split; [plia |]; intros i; plia.
Qed.

Lemma uvmcopy_run (old new sz : Z) (s : kstate) (To Tn : ptree) (l : list Z) (o : oracle) :
  vm_inv s Tn l -> t_nodes Tn !! [] = Some new -> pt_rep (k_mem s) To -> t_nodes To !! [] = Some old ->
  0 <= sz <= MAXVA ->
  (forall i, (i < npages sz)%nat -> t_leaf Tn !! upath i = None) ->
  Forall page_ok (upages (t_leaf To) 0 (npages sz)) ->
  (forall p, p ∈ t_pages To ++ upages (t_leaf To) 0 (npages sz) -> p ∉ t_pages Tn ++ l) ->
  exists r s' T' l', uvmcopy old new sz s o = Ok r s' o /\
    ((r = 0 /\ grown s s' Tn T' l l' (upages (t_leaf T') 0 (npages sz)) /\
      (forall i, (i < npages sz)%nat -> copied (k_mem s') (t_leaf To !! upath i) (t_leaf T' !! upath i)) /\
      (forall a, (forall i, (i < npages sz)%nat -> a <> upath i) -> t_leaf T' !! a = t_leaf Tn !! a)) \/
     (r = -1 /\ grown s s' Tn T' l l' [] /\ t_leaf T' = t_leaf Tn)).
Proof using Hend.
  intros HI Hnew HRo Hold Hsz Hfr Hok Hap; destruct (npages_spec sz Hsz) as (_ & HM & Hfuel & Hlt).
  unfold uvmcopy; replace (Z.to_N (sz / PGSIZE) + 2)%N with (N.of_nat (S (Z.to_nat (sz / PGSIZE) + 1)))
    by (assert (0 <= sz / PGSIZE) by (apply Z.div_pos; plia); lia).
  destruct (uvmcopy_loop old new sz (npages sz) s To Tn l HI Hnew HRo Hold Hlt HM Hfr Hok Hap
    (Z.to_nat (sz / PGSIZE) + 1) 0 s Tn l o) as (s1 & T1 & l1 & r & Hk & Hr); [| lia |].
  { constructor; [by apply vm_grown_refl | lia | done]. }
  change (Z.of_nat 0 * PGSIZE) with 0 in Hk; erewrite bind_ok by exact Hk.
  destruct Hr as [[-> C] | (j & -> & Hj & C)].
  - exists 0, s1, T1, l1; split; [done |]; left; split; [done |]; split; [apply C |]; split; apply C.
  - rewrite Z.div_mul by done.
    destruct (grown_unmap 0 j new s s1 Tn T1 l l1 o HI (cp_grown _ _ _ _ _ _ _ _ C) Hnew ltac:(plia))
      as (s2 & T2 & l2 & Hu & G & EL); [intros; apply Hfr; lia | intros a Ha; apply C; intros i Hi; apply Ha; lia |].
    change (Z.of_nat 0 * PGSIZE) with 0 in Hu.
    erewrite bind_ok by exact Hu; exists (-1), s2, T2, l2; split; [done |]; by right.
Qed.

(** ** freewalk *)

(** [p] is a table of [d] levels without leaf entries, and [L] are its pages in the
    order in which freewalk frees them: those below entry 0 first, [p] last. *)
Fixpoint ptable (m : mem) (d : nat) (p : Z) (L : list Z) : Prop :=
  match d with
  | O => False
  | S d' =>
      exists f : Z -> list Z, L = (seqZ 0 512 ≫= f) ++ [p] /\
        forall i, 0 <= i < 512 ->
          (f i = [] /\ has (load64 m (p + 8 * i)) PTE_V = false) \/
          exists q, load64 m (p + 8 * i) = dir_pte q /\ page_ok q /\ ptable m d' q (f i)
  end.

Lemma ptable_ext m1 m2 d p L :
  (forall b, in_pages L b -> mget m2 b = mget m1 b) -> ptable m1 d p L -> ptable m2 d p L.
Proof.
  revert p L; induction d as [| d IH]; intros p L He; [done |]; intros (f & -> & Hf); exists f; split; [done |].
  intros i Hi; assert (El : load64 m2 (p + 8 * i) = load64 m1 (p + 8 * i)).
  { apply load_le_ext; intros b Hb; apply He; exists p; split; [apply elem_of_app; right; apply list_elem_of_here | plia]. }
  rewrite El; destruct (Hf i Hi) as [? | (q & Eq & Hq & Ht)]; [by left |]; right; exists q.
  split; [done |]; split; [done |]; apply IH; [| done]; intros b Hb; apply He; revert Hb; apply in_pages_sub.
  intros x Hx; apply elem_of_app; left; apply list_elem_of_bind; exists i; split; [done | apply elem_of_seqZ; lia].
Qed.

Lemma dir_pte_no_leaf q : Z.land (dir_pte q) (Z.lor (Z.lor PTE_R PTE_W) PTE_X) = 0.
Proof.
  unfold dir_pte, PA2PTE; change (Z.lor (Z.lor PTE_R PTE_W) PTE_X) with 14; rewrite Z.land_lor_distr_l.
  replace (Z.land PTE_V 14) with 0 by done; rewrite Z.lor_0_r; apply Z.bits_inj'; intros k Hk.
  rewrite Z.land_spec, Z.bits_0, Z.shiftl_spec by lia; destruct (Z.lt_ge_cases k 10).
  - rewrite Z.testbit_neg_r by lia; done.
  - rewrite (Z.bits_above_log2 14 k); [apply andb_false_r | lia | change (Z.log2 14) with 3; lia].
Qed.

(** The body of freewalk's loop. *)
Definition freewalk_entry (d : nat) (p i : Z) : K unit :=
  pte ← pte_get (p + 8 * i);
  if has pte PTE_V && (Z.land pte (Z.lor (Z.lor PTE_R PTE_W) PTE_X) =? 0) then
    freewalk_depth d (PTE2PA pte) ;; pte_set (p + 8 * i) 0
  else if has pte PTE_V then panic "freewalk: leaf"
  else mret tt.

(** What freeing the pages [L] amounts to. *)
Record gave_back (s s' : kstate) (L l : list Z) (frame : list Z) : Prop := {
  gb_alloc : alloc_inv s' (rev L ++ l);
  gb_rest : rest s' = rest s;
  gb_frame : forall b, ~ in_pages frame b -> mget (k_mem s') b = mget (k_mem s) b
}.

Lemma freewalk_entries d f p ix s l o :
  (forall q L s l o, ptable (k_mem s) d q L -> Forall page_ok L -> NoDup (L ++ l) -> alloc_inv s l ->
    LKmem ∉ k_locks s -> exists s', freewalk_depth d q s o = Ok tt s' o /\ gave_back s s' L l L) ->
  NoDup ix ->
  (forall i, i ∈ ix -> 0 <= i < 512 /\
    ((f i = [] /\ has (load64 (k_mem s) (p + 8 * i)) PTE_V = false) \/
     exists q, load64 (k_mem s) (p + 8 * i) = dir_pte q /\ page_ok q /\ ptable (k_mem s) d q (f i))) ->
  page_ok p -> Forall page_ok (ix ≫= f) -> NoDup ((ix ≫= f) ++ p :: l) -> alloc_inv s l -> LKmem ∉ k_locks s ->
  exists s', kfor_ ix (freewalk_entry d p) s o = Ok tt s' o /\ gave_back s s' (ix ≫= f) l (p :: (ix ≫= f)).
Proof using Hend.
  intros IHd; revert s l; induction ix as [| i ix IH]; intros s l Hnd Hf Hp Hok Hdis HA Hlk.
  - exists s; split; [apply kfor__nil | by constructor].
  - rewrite bind_cons in Hok, Hdis |- *; apply NoDup_cons in Hnd as [Hni Hnd].
    apply Forall_app in Hok as [Hok1 Hok2]; destruct (Hf i ltac:(by left)) as [Hi Hcase].
    assert (Hstep : exists s1, freewalk_entry d p i s o = Ok tt s1 o /\ gave_back s s1 (f i) l (p :: f i) /\
      forall b, ~ (p + 8 * i <= b < p + 8 * i + 8) -> ~ in_pages (f i) b -> mget (k_mem s1) b = mget (k_mem s) b).
    { unfold freewalk_entry, pte_get; rewrite gets_bind; destruct Hcase as [[-> Hv] | (q & Eq & Hq & Ht)].
      - rewrite Hv; exists s; split; [done |]; split; [by constructor | done].
      - destruct (dir_pte_fields q Hend Hq) as (_ & Hv & Hpa); rewrite Eq, dir_pte_no_leaf, Hv, Hpa; cbn [andb Z.eqb].
        destruct (IHd q (f i) s l o Ht Hok1) as (s1 & Hr & [A1 R1 F1]); [perm_in Hdis | done | done |].
        erewrite bind_ok by exact Hr; unfold pte_set, set_mem.
        eexists; split; [reflexivity |]; split; [constructor |].
        + apply alloc_inv_store; [done | done | done | | done].
          rewrite elem_of_app, elem_of_rev; apply NoDup_app in Hdis as (_ & Hd & [Hpl _]%NoDup_cons).
          intros [Hin | Hin]; [| done]; apply (Hd p); [apply elem_of_app; by left | apply list_elem_of_here].
        + rewrite rest_set_mem; done.
        + intros b Hb; simpl; unfold store64; rewrite mget_store_le_ne, F1; [done | |].
          * intros Hc; apply Hb; revert Hc; apply in_pages_sub; set_solver.
          * assert (~ (p <= b < p + PGSIZE)); [| plia].
            rewrite <- in_pages_one; intros Hc; apply Hb; revert Hc; apply in_pages_sub; set_solver.
        + intros b Hb Hc; simpl; unfold store64; rewrite mget_store_le_ne, F1; [done | done | lia]. }
    destruct Hstep as (s1 & Hs1 & [A1 R1 F1] & Fw).
    destruct (IH s1 (rev (f i) ++ l)) as (s2 & Hs2 & [A2 R2 F2]); try done.
    + intros j Hj; destruct (Hf j ltac:(by right)) as [Hj2 Hcj]; split; [done |].
      assert (Hpj : forall b, p <= b < p + PGSIZE -> ~ in_pages (f i) b).
      { intros b; rewrite <- in_pages_one; apply in_pages_apart; [by constructor | done |].
        intros x ->%list_elem_of_singleton Hx; apply NoDup_app in Hdis as (_ & Hd & _).
        apply (Hd p); [apply elem_of_app; by left | by left]. }
      assert (El : load64 (k_mem s1) (p + 8 * j) = load64 (k_mem s) (p + 8 * j)).
      { assert (j <> i) by (intros ->; done).
        apply load_le_ext; intros b Hb; apply Fw; [lia | apply Hpj; plia]. }
      rewrite El; destruct Hcj as [? | (q & Eq & Hq & Ht)]; [by left |]; right; exists q.
      split; [done |]; split; [done |]; revert Ht; apply ptable_ext; intros b Hb; apply F1.
      assert (Hsub : forall x, x ∈ f j -> x ∈ ix ≫= f) by (intros x Hx; apply list_elem_of_bind; eauto).
      revert Hb; apply in_pages_apart; [| by constructor |].
      * rewrite Forall_forall in Hok2 |- *; intros x Hx; by apply Hok2, Hsub.
      * intros x Hx%Hsub Hxi; apply NoDup_app in Hdis as (Hd1 & Hd2 & _); apply NoDup_app in Hd1 as (_ & Hd1 & _).
        apply elem_of_cons in Hxi as [-> | Hxi]; [apply (Hd2 p); [apply elem_of_app; by right | by left] | by apply (Hd1 x)].
    + rewrite <- (Permutation_rev (f i)); perm_in Hdis.
    + by rewrite (rest_locks _ _ R1).
    + exists s2; rewrite kfor__cons; erewrite bind_ok by exact Hs1; split; [done |]; constructor.
      * rewrite rev_app_distr, <- app_assoc; done.
      * congruence.
      * intros b Hb; rewrite F2, F1; [done | |]; intros Hc; apply Hb; revert Hc; apply in_pages_sub; set_solver.
Qed.

Lemma freewalk_run d p L s l o :
  ptable (k_mem s) d p L -> Forall page_ok L -> NoDup (L ++ l) -> alloc_inv s l -> LKmem ∉ k_locks s ->
  exists s', freewalk_depth d p s o = Ok tt s' o /\ gave_back s s' L l L.
Proof using Hend.
  revert p L s l o; induction d as [| d IH]; intros p L s l o; [done |]; intros (f & -> & Hf) Hok Hnd HA Hlk.
  pose proof (NoDup_seqZ 0 512) as Hseq; pose proof (fun i => elem_of_seqZ 0 512 i) as Hin.
  cbn [freewalk_depth]; set (ix := seqZ 0 512) in *; clearbody ix.
  apply Forall_app in Hok as [Hok1 Hok2]; rewrite Forall_singleton in Hok2.
  destruct (freewalk_entries d f p ix s l o IH Hseq) as (s1 & Hs1 & [A1 R1 F1]); try done.
  - intros i Hi; apply Hin in Hi; split; [lia | apply Hf; lia].
  - perm_in Hnd.
  - erewrite bind_ok by exact Hs1.
    rewrite kfree_run by (rewrite ?(rest_locks _ _ R1); done).
    eexists; split; [reflexivity |]; constructor.
    + rewrite rev_app_distr; apply kfree_inv; [done | done | | done].
      rewrite elem_of_app, elem_of_rev; apply NoDup_app in Hnd as (Hn1 & Hn2 & _); apply NoDup_app in Hn1 as (_ & Hn1 & _).
      intros [Hc | Hc]; [apply (Hn1 p Hc); by left | apply (Hn2 p); [apply elem_of_app; right; by left | done]].
    + rewrite kfree_rest; done.
    + intros b Hb; rewrite in_pages_app, in_pages_one in Hb; rewrite kfree_frame, F1; [done | | tauto].
      change (p :: (ix ≫= f)) with ([p] ++ (ix ≫= f)); rewrite in_pages_app, in_pages_one; tauto.
Qed.

(** The table pages at and below the path [a], in the order in which freewalk frees them. *)
Fixpoint post (T : ptree) (d : nat) (a : list Z) : list Z :=
  match d with
  | O => []
  | S d' =>
      match t_nodes T !! a with
      | None => []
      | Some p => (seqZ 0 512 ≫= fun i => post T d' (a ++ [i])) ++ [p]
      end
  end.

Lemma post_ptable m T d a p :
  pt_rep m T -> t_leaf T = ∅ -> t_nodes T !! a = Some p -> (length a + d = 3)%nat -> ptable m d p (post T d a).
Proof.
  intros HR Hleaf; revert a p; induction d as [| d IH]; intros a p Ha Hd.
  { destruct (rep_nodes _ _ HR _ _ Ha); lia. }
  cbn [post ptable]; rewrite Ha; exists (fun i => post T d (a ++ [i])); split; [reflexivity |]; intros i Hi.
  destruct (decide (length a = 2%nat)) as [H2 | H2].
  - left; assert (d = 0%nat) as -> by lia; split; [reflexivity |].
    pose proof (rep_leaf _ _ HR a p i Ha H2 Hi) as Hl; rewrite Hleaf, lookup_empty in Hl; exact Hl.
  - pose proof (rep_dir _ _ HR a p i Ha ltac:(lia) Hi) as Hdir.
    destruct (t_nodes T !! (a ++ [i])) as [q |] eqn:Eq; [right; exists q | left].
    + split; [exact Hdir |]; split; [by eapply rep_page |]; apply IH; [exact Eq |]; rewrite length_app; simpl; lia.
    + split; [destruct d; cbn [post]; [| rewrite Eq]; reflexivity | exact Hdir].
Qed.

Lemma nodes_prefix m T a b q : pt_rep m T -> t_nodes T !! (a ++ b) = Some q -> is_Some (t_nodes T !! a).
Proof.
  intros HR; revert q; induction b as [| i b IH] using rev_ind; intros q; [rewrite app_nil_r; eauto |].
  rewrite app_assoc; intros [p Hp]%(rep_up _ _ HR); by eapply IH.
Qed.

Lemma elem_of_post m T d a x :
  pt_rep m T -> x ∈ post T d a <-> exists b, (length b < d)%nat /\ path_ok b /\ t_nodes T !! (a ++ b) = Some x.
Proof.
  intros HR; revert a; induction d as [| d IH]; intros a; cbn [post].
  { split; [intros Hx; by apply not_elem_of_nil in Hx | intros (b & Hb & _); lia]. }
  destruct (t_nodes T !! a) as [p |] eqn:Ea.
  - rewrite elem_of_app, list_elem_of_bind, list_elem_of_singleton; split.
    + intros [(i & Hi & Hr%elem_of_seqZ) | ->].
      * apply IH in Hi as (b & Hb & Hok & Hx); exists (i :: b); split; [simpl; lia |].
        split; [constructor; [lia | done] | by rewrite <- app_assoc in Hx].
      * exists []; split; [simpl; lia |]; split; [constructor | by rewrite app_nil_r].
    + intros ([| i b] & Hb & Hok & Hx); [right; rewrite app_nil_r in Hx; congruence | left].
      apply Forall_cons in Hok as [Hi Hok]; exists i; split; [| apply elem_of_seqZ; lia].
      apply IH; exists b; split; [simpl in Hb; lia |]; split; [done | by rewrite <- app_assoc].
  - split; [intros Hx; by apply not_elem_of_nil in Hx |]; intros (b & _ & _ & Hx).
    apply (nodes_prefix _ _ _ _ _ HR) in Hx as [? ?]; congruence.
Qed.

Lemma NoDup_post m T d a : pt_rep m T -> NoDup (post T d a).
Proof.
  intros HR; revert a; induction d as [| d IH]; intros a; cbn [post]; [constructor |].
  destruct (t_nodes T !! a) as [p |] eqn:Ea; [| constructor].
  apply NoDup_app; split; [apply NoDup_bind; [| intros; apply IH | apply NoDup_seqZ] | split; [| apply NoDup_singleton]].
  - intros i j x _ _ (b & _ & _ & Hb)%(elem_of_post _ _ _ _ _ HR) (c & _ & _ & Hc)%(elem_of_post _ _ _ _ _ HR).
    pose proof (rep_inj _ _ HR _ _ _ Hb Hc) as E; rewrite <- !app_assoc in E; by apply app_inv_head in E as [= ->].
  - intros x (i & (b & _ & _ & Hb)%(elem_of_post _ _ _ _ _ HR) & _)%list_elem_of_bind ->%list_elem_of_singleton.
    pose proof (rep_inj _ _ HR _ _ _ Hb Ea) as E; rewrite <- app_assoc in E.
    apply (f_equal length) in E; rewrite !length_app in E; simpl in E; lia.
Qed.

(** freewalk frees every page of the table. *)
Lemma post_all m T : pt_rep m T -> post T 3 [] ≡ₚ t_pages T.
Proof.
  intros HR; apply NoDup_Permutation; [by eapply NoDup_post | by eapply NoDup_t_pages |]; intros x.
  rewrite (elem_of_post _ _ _ _ _ HR), elem_of_t_pages; split.
  - intros (b & _ & _ & Hb); eauto.
  - intros [a Ha]; destruct (rep_nodes _ _ HR _ _ Ha); exists a; split; [lia | done].
Qed.

(** freewalk on a table whose leaf entries are gone gives every page of it back. *)
Lemma freewalk_all root s T l o :
  vm_inv s T l -> t_nodes T !! [] = Some root -> t_leaf T = ∅ ->
  exists s' l', freewalk root s o = Ok tt s' o /\ alloc_inv s' l' /\ l' ≡ₚ t_pages T ++ l /\ rest s' = rest s /\
    forall b, ~ in_pages (t_pages T) b -> mget (k_mem s') b = mget (k_mem s) b.
Proof using Hend.
  intros HI Hroot Hleaf; pose proof HI as [HR HA _ Hlk]; pose proof (post_all _ _ HR) as HP.
  destruct (freewalk_run 3 root (post T 3 []) s l o) as (s' & Hr & [A R F]); try done.
  - by apply post_ptable.
  - rewrite HP; pose proof (vm_pages_ok _ _ _ HI) as Hok; by apply Forall_app in Hok as [? _].
  - rewrite HP; by eapply vm_pages_nodup.
  - exists s', (rev (post T 3 []) ++ l); split; [done |]; split; [done |].
    split; [by rewrite <- (Permutation_rev (post T 3 [])), HP |]; split; [done |].
    intros b Hb; apply F; intros Hc; apply Hb; revert Hc; apply in_pages_sub; intros x; by rewrite HP.
Qed.

(** uvmfree on an address space whose only entries are the user pages below [sz]. *)
Lemma uvmfree_run root sz s T l o :
  vm_inv s T l -> t_nodes T !! [] = Some root -> 0 <= sz <= MAXVA ->
  (forall a, (forall i, (i < npages sz)%nat -> a <> upath i) -> t_leaf T !! a = None) ->
  Forall page_ok (upages (t_leaf T) 0 (npages sz)) -> NoDup (t_pages T ++ upages (t_leaf T) 0 (npages sz) ++ l) ->
  exists s' l', uvmfree root sz s o = Ok tt s' o /\ alloc_inv s' l' /\
    l' ≡ₚ t_pages T ++ upages (t_leaf T) 0 (npages sz) ++ l /\ rest s' = rest s /\
    forall b, ~ in_pages (t_pages T ++ upages (t_leaf T) 0 (npages sz)) b -> mget (k_mem s') b = mget (k_mem s) b.
Proof using Hend.
  intros HI Hroot Hsz Hall Hok Hnd; destruct (npages_spec sz Hsz) as (Hn & HM & _ & Hlt).
  assert (Hun : exists s1, kwhen (0 <? sz) (uvmunmap root 0 (PGROUNDUP sz / PGSIZE) true) s o = Ok tt s1 o /\
    vm_inv s1 (with_leaves T ∅) (rev (upages (t_leaf T) 0 (npages sz)) ++ l) /\ rest s1 = rest s /\
    forall b, ~ in_pages (t_pages T ++ upages (t_leaf T) 0 (npages sz)) b -> mget (k_mem s1) b = mget (k_mem s) b).
  { rewrite <- (unmap_undo 0 (npages sz) (t_leaf T) ∅); [| done | intros a Ha; apply Hall; intros i Hi; apply Ha; lia].
    destruct (Z.ltb_spec 0 sz) as [Hp | Hp]; cbn [kwhen].
    - rewrite <- Hn, Z.div_mul by done; by apply (uvmunmap_run (npages sz) root true 0).
    - assert (npages sz = 0%nat) as -> by (destruct (npages sz); [done |]; pose proof (proj2 (Hlt 0%nat)); lia).
      exists s; split; [done |]; cbn [unmap]; rewrite with_leaves_id; done. }
  destruct Hun as (s1 & Hr1 & HI1 & R1 & F1); unfold uvmfree; erewrite bind_ok by exact Hr1.
  destruct (freewalk_all root s1 _ _ o HI1 Hroot eq_refl) as (s2 & l2 & Hr2 & A2 & P2 & R2 & F2).
  change (t_pages (with_leaves T ∅)) with (t_pages T) in *.
  exists s2, l2; split; [done |]; split; [done |]; split; [| split; [congruence |]].
  - by rewrite P2, <- (Permutation_rev (upages (t_leaf T) 0 (npages sz))).
  - intros b Hb; rewrite F2, F1; [done | done |]; rewrite in_pages_app in Hb; tauto.
Qed.

(** ** uvmalloc *)

(** A fresh page: its entry, and zeros behind it. *)
Definition zeroed (m : mem) (perm : Z) (v : option Z) : Prop :=
  exists q, v = Some (map_pte q perm) /\ page_ok q /\ forall j, 0 <= j < PGSIZE -> mget m (q + j) = 0.

Lemma map_pte_pa q perm : page_ok q -> 0 <= perm < 2 ^ 10 -> PTE2PA (map_pte q perm) = q.
Proof using Hend.
  intros Hq Hp; destruct (page_ok_bound q Hend Hq); by destruct (PTE_roundtrip_aux q perm ltac:(lia) ltac:(done) Hp).
Qed.

Section Alloc.
Context (root perm : Z) (lo n : nat) (s0 : kstate) (T0 : ptree) (l0 : list Z).
Context (HI0 : vm_inv s0 T0 l0) (Hroot : t_nodes T0 !! [] = Some root).
Context (HM : Z.of_nat (lo + n) * PGSIZE <= MAXVA) (Hperm : 0 <= perm < 2 ^ 10).
Context (Hfresh : forall i, (lo <= i < lo + n)%nat -> t_leaf T0 !! upath i = None).

(** After [i] pages from page [lo] on *)
Record growing (i : nat) (s : kstate) (T : ptree) (l : list Z) : Prop := {
  al_grown : grown s0 s T0 T l0 l (upages (t_leaf T) lo i);
  al_zeroed : forall j, (lo <= j < lo + i)%nat -> zeroed (k_mem s) perm (t_leaf T !! upath j);
  al_other : forall a, (forall j, (lo <= j < lo + i)%nat -> a <> upath j) -> t_leaf T !! a = t_leaf T0 !! a
}.

Lemma upath_ne i j : (i < lo + n)%nat -> (j < lo + n)%nat -> i <> j -> upath i <> upath j.
Proof.
  intros Hi Hj Hne E; change MAXVA with (2 ^ 38) in HM.
  apply upath_inj in E; [lia | |]; change MAXVA with (2 ^ 38); plia.
Qed.

Lemma zeroed_keep i s T l s' T' l' own j :
  growing i s T l -> grown s s' T T' l l' own -> (lo <= j < lo + i)%nat -> zeroed (k_mem s') perm (t_leaf T !! upath j).
Proof.
  intros C G Hj; pose proof (al_grown _ _ _ _ C) as G0.
  pose proof (vm_pages_nodup _ _ _ HI0) as Hnd; rewrite <- (gw_pages _ _ _ _ _ _ _ G0) in Hnd.
  destruct (al_zeroed _ _ _ _ C j Hj) as (q & Eq & Hq & Hz); exists q; split; [done |]; split; [done |].
  intros b Hb; transitivity (mget (k_mem s) (q + b)); [| by apply Hz]; apply (gw_frame _ _ _ _ _ _ _ G), (in_pages_apart [q]).
  - by constructor.
  - eapply vm_pages_ok, (gw_inv _ _ _ _ _ _ _ G0).
  - intros x ->%list_elem_of_singleton.
    assert (q ∈ upages (t_leaf T) lo i) by (rewrite <- (map_pte_pa q perm Hq Hperm); by apply (elem_of_upages _ _ _ j)).
    apply NoDup_app in Hnd as (_ & Hd1 & Hd2); apply NoDup_app in Hd2 as (_ & Hd2 & _); set_solver.
  - rewrite in_pages_one; lia.
Qed.

Lemma growing_step i s T l s' T' l' q :
  growing i s T l -> (i < n)%nat -> grown s s' T T' l l' [q] -> page_ok q ->
  t_leaf T' = <[upath (lo + i) := map_pte q perm]> (t_leaf T) ->
  (forall b, q <= b < q + PGSIZE -> mget (k_mem s') b = mget (memset (memset (k_mem s) q 5 PGSIZE) q 0 PGSIZE) b) ->
  growing (S i) s' T' l'.
Proof.
  intros C Hi G Hq EL Hz; pose proof (grown_trans _ _ _ _ _ _ _ _ _ _ _ (al_grown _ _ _ _ C) G) as G'.
  assert (Hne : forall j, (lo <= j < lo + i)%nat -> t_leaf T' !! upath j = t_leaf T !! upath j).
  { intros j Hj; rewrite EL, lookup_insert_ne; [done |]; apply upath_ne; lia. }
  assert (Hself : t_leaf T' !! upath (lo + i) = Some (map_pte q perm)) by (rewrite EL; apply lookup_insert_eq).
  constructor.
  - rewrite upages_snoc, Hself; cbn [fmap option_fmap option_map option_list]; rewrite (map_pte_pa q perm Hq Hperm).
    rewrite (upages_ext _ (t_leaf T)) by (intros; apply Hne; lia); exact G'.
  - intros j Hj; destruct (decide (j = (lo + i)%nat)) as [-> |].
    + rewrite Hself; exists q; split; [done |]; split; [done |]; intros b Hb; rewrite Hz, memset_spec by lia.
      replace (_ && _) with true by plia; done.
    + rewrite Hne by lia; eapply zeroed_keep; [done | done | lia].
  - intros a Ha; rewrite EL, lookup_insert_ne by (intros <-; apply (Ha (lo + i)%nat); [lia | done]).
    apply (al_other _ _ _ _ C); intros j Hj; apply Ha; lia.
Qed.

Lemma growing_none i s T l : growing i s T l -> (i < n)%nat -> t_leaf T !! upath (lo + i) = None.
Proof. intros C Hi; rewrite (al_other _ _ _ _ C); [apply Hfresh; lia |]; intros j Hj; apply upath_ne; lia. Qed.

End Alloc.

Lemma PGROUNDUP_mult k : 0 <= k -> k * PGSIZE <= 2 ^ 38 -> PGROUNDUP (k * PGSIZE) = k * PGSIZE.
Proof.
  intros Hk Hb; destruct (PGROUNDUP_spec (k * PGSIZE) ltac:(plia)) as [Ha Hr].
  apply Z.mod_divide in Ha as [z Ez]; [| done]; rewrite Ez in *; plia.
Qed.

(** uvmdealloc undoes what was grown. *)
Lemma uvmdealloc_undo lo i root perm s0 T0 l0 s T l o :
  vm_inv s0 T0 l0 -> t_nodes T0 !! [] = Some root -> Z.of_nat (lo + i) * PGSIZE <= MAXVA ->
  (forall j, (lo <= j < lo + i)%nat -> t_leaf T0 !! upath j = None) -> growing perm lo s0 T0 l0 i s T l ->
  exists s' T' l' r, uvmdealloc root (Z.of_nat (lo + i) * PGSIZE) (Z.of_nat lo * PGSIZE) s o = Ok r s' o /\
    grown s0 s' T0 T' l0 l' [] /\ t_leaf T' = t_leaf T0.
Proof using Hend.
  intros HI Hroot HM Hfr C; assert (HM' : Z.of_nat (lo + i) * PGSIZE <= 2 ^ 38) by exact HM; unfold uvmdealloc.
  destruct (Z.leb_spec (Z.of_nat (lo + i) * PGSIZE) (Z.of_nat lo * PGSIZE)) as [Hle | Hle].
  - assert (i = 0%nat) as -> by plia; exists s, T, l; eexists; split; [done |].
    split; [apply C |]; apply map_eq; intros a; apply C; lia.
  - rewrite !PGROUNDUP_mult by plia; replace (_ <? _) with true by lia; cbn [kwhen].
    replace ((_ - _) / PGSIZE) with (Z.of_nat i)
      by (rewrite <- Z.mul_sub_distr_r, Z.div_mul by done; lia).
    rewrite i32_small by plia; cbv zeta.
    destruct (grown_unmap lo i root s0 s T0 T l0 l o HI (al_grown _ _ _ _ _ _ _ _ _ C) Hroot HM Hfr (al_other _ _ _ _ _ _ _ _ _ C))
      as (s' & T' & l' & Hu & G & EL).
    erewrite bind_ok by exact Hu; exists s', T', l'; eexists; split; [done | done].
Qed.

Section Uvmalloc.
Context (root xperm newsz : Z) (lo n : nat) (s0 : kstate) (T0 : ptree) (l0 : list Z).
Context (HI0 : vm_inv s0 T0 l0) (Hroot : t_nodes T0 !! [] = Some root).
Context (HM : Z.of_nat (lo + n) * PGSIZE <= MAXVA) (Hx : 0 <= xperm < 2 ^ 10).
Context (Hfresh : forall i, (lo <= i < lo + n)%nat -> t_leaf T0 !! upath i = None).
Context (Hnew : forall i : nat, (lo <= i)%nat -> Z.of_nat i * PGSIZE < newsz <-> (i < lo + n)%nat).

Let perm : Z := Z.lor (Z.lor PTE_R PTE_U) xperm.

Lemma perm_range : 0 <= perm < 2 ^ 10.
Proof. apply lor_bound; [lia | done | done]. Qed.

Lemma uvmalloc_page_spec i s T l o :
  growing perm lo s0 T0 l0 i s T l -> (i < n)%nat ->
  exists s' T' l',
    (uvmalloc_page root (Z.of_nat lo * PGSIZE) newsz xperm (Z.of_nat (lo + i) * PGSIZE) s o =
       Ok (inl (Z.of_nat (lo + S i) * PGSIZE)) s' o /\ growing perm lo s0 T0 l0 (S i) s' T' l') \/
    (uvmalloc_page root (Z.of_nat lo * PGSIZE) newsz xperm (Z.of_nat (lo + i) * PGSIZE) s o = Ok (inr 0) s' o /\
       grown s0 s' T0 T' l0 l' [] /\ t_leaf T' = t_leaf T0).
Proof.
  intros C Hi; assert (HM' : Z.of_nat (lo + n) * PGSIZE <= 2 ^ 38) by exact HM; pose proof perm_range as Hp.
  pose proof (growing_none perm lo n s0 T0 l0 HM Hfresh i s T l C Hi) as Hnone; pose proof (al_grown _ _ _ _ _ _ _ _ _ C) as G.
  unfold uvmalloc_page; replace (_ <? newsz) with true by (symmetry; apply Z.ltb_lt, Hnew; lia); cbn [negb].
  replace (u64 (Z.of_nat (lo + i) * PGSIZE + PGSIZE)) with (Z.of_nat (lo + S i) * PGSIZE) by (rewrite u64_small; plia).
  set (back := (uvmdealloc root (Z.of_nat (lo + i) * PGSIZE) (Z.of_nat lo * PGSIZE) ;; mret (inr 0)) : K (Z + Z)).
  destruct (fresh_page back back (fun _ => mret (inl (Z.of_nat (lo + S i) * PGSIZE) : Z + Z)) root
    (Z.of_nat (lo + i) * PGSIZE) perm (fun q m => memset m q 0 PGSIZE) s T l o) as (s' & T' & l' & Hcase).
  - apply G.
  - by apply (lookup_weaken _ _ _ _ Hroot), G.
  - plia.
  - by apply Z_mod_mult.
  - change MAXVA with (2 ^ 38); plia.
  - done.
  - exact Hnone.
  - intros q m b Hb; rewrite memset_spec; replace (_ && _) with false by plia; done.
  - destruct Hcase as [(Hrun & G' & EL) | (q & Hrun & G' & Hql & Hq & EL & Hz)].
    + pose proof (grown_trans _ _ _ _ _ _ _ _ _ _ _ G G') as G2; rewrite app_nil_r in G2.
      assert (C' : growing perm lo s0 T0 l0 i s' T' l').
      { constructor; rewrite EL; [done | | apply C]; intros j Hj.
        eapply zeroed_keep; eauto. }
      destruct (uvmdealloc_undo lo i root perm s0 T0 l0 s' T' l' o HI0 Hroot ltac:(change MAXVA with (2 ^ 38); plia)
        ltac:(intros; apply Hfresh; lia) C') as (s2 & T2 & l2 & r & Hu & G3 & EL3).
      exists s2, T2, l2; right; split; [| done].
      assert (Hb : back s' o = Ok (inr 0) s2 o) by (unfold back; erewrite bind_ok by exact Hu; done).
      destruct Hrun as [Hrun | Hrun]; rewrite Hb in Hrun; exact Hrun.
    + exists s', T', l'; left; split; [exact Hrun |]; eapply growing_step; eauto.
Qed.

Lemma uvmalloc_loop k i s T l o :
  growing perm lo s0 T0 l0 i s T l -> (i <= n <= i + k)%nat ->
  exists s' T' l' r, kloop (N.of_nat (S k)) (uvmalloc_page root (Z.of_nat lo * PGSIZE) newsz xperm)
      (Z.of_nat (lo + i) * PGSIZE) s o = Ok r s' o /\
    ((r = newsz /\ growing perm lo s0 T0 l0 n s' T' l') \/
     (r = 0 /\ grown s0 s' T0 T' l0 l' [] /\ t_leaf T' = t_leaf T0)).
Proof.
  revert i s T l; induction k as [| k IH]; intros i s T l C Hk; rewrite kloop_first;
    destruct (decide (i = n)) as [-> |]; try lia.
  1, 2: exists s, T, l, newsz; split; [| by left]; unfold uvmalloc_page; replace (_ <? newsz) with false; [done |];
    symmetry; apply Z.ltb_nlt; rewrite Hnew; lia.
  destruct (uvmalloc_page_spec i s T l o C ltac:(lia)) as (s1 & T1 & l1 & [[Hr C1] | [Hr C1]]);
    erewrite bind_ok by exact Hr; cbn iota.
  - apply (IH (S i) s1 T1 l1 C1); lia.
  - exists s1, T1, l1, 0; split; [done | by right].
Qed.

End Uvmalloc.

Lemma npages_mono a b : 0 <= a <= b -> b <= MAXVA -> (npages a <= npages b)%nat.
Proof.
  intros Ha Hb; destruct (npages_spec a ltac:(lia)) as (_ & _ & _ & H1), (npages_spec b ltac:(lia)) as (_ & _ & _ & H2).
  destruct (Nat.le_gt_cases (npages a) (npages b)) as [? | Hc]; [done |]; apply H1 in Hc.
  assert (Hc2 : Z.of_nat (npages b) * PGSIZE < b) by lia; apply H2 in Hc2; lia.
Qed.

Lemma uvmalloc_run root oldsz newsz xperm s T l o :
  vm_inv s T l -> t_nodes T !! [] = Some root -> 0 <= oldsz <= newsz -> newsz <= MAXVA -> 0 <= xperm < 2 ^ 10 ->
  let lo := npages oldsz in let n := (npages newsz - npages oldsz)%nat in
  (forall i, (lo <= i < lo + n)%nat -> t_leaf T !! upath i = None) ->
  exists r s' T' l', uvmalloc root oldsz newsz xperm s o = Ok r s' o /\
    ((r = newsz /\ grown s s' T T' l l' (upages (t_leaf T') lo n) /\
      (forall i, (lo <= i < lo + n)%nat -> zeroed (k_mem s') (Z.lor (Z.lor PTE_R PTE_U) xperm) (t_leaf T' !! upath i)) /\
      (forall a, (forall i, (lo <= i < lo + n)%nat -> a <> upath i) -> t_leaf T' !! a = t_leaf T !! a)) \/
     (r = 0 /\ grown s s' T T' l l' [] /\ t_leaf T' = t_leaf T)).
Proof using Hend.
  intros HI Hroot Hsz HM Hx lo n Hfr; pose proof (npages_mono oldsz newsz Hsz HM) as Hmono.
  destruct (npages_spec oldsz ltac:(lia)) as (E1 & _ & _ & L1), (npages_spec newsz ltac:(lia)) as (E2 & M2 & F2 & L2).
  assert (Hln : (lo + n = npages newsz)%nat) by lia.
  unfold uvmalloc; replace (newsz <? oldsz) with false by lia; cbv zeta; rewrite <- E1; fold lo.
  assert (Hfuel : exists k, (Z.to_N ((newsz - Z.of_nat lo * PGSIZE) / PGSIZE) + 2)%N = N.of_nat (S k) /\ (n <= k)%nat).
  { exists (Z.to_nat ((newsz - Z.of_nat lo * PGSIZE) / PGSIZE) + 1)%nat; split; [lia |].
    rewrite <- Z.add_opp_r, <- Z.mul_opp_l, Z.div_add by done; pose proof (Z.div_pos newsz PGSIZE); lia. }
  destruct Hfuel as (k & -> & Hk).
  destruct (uvmalloc_loop root xperm newsz lo n s T l HI Hroot ltac:(by rewrite Hln) Hx Hfr
    ltac:(intros i Hi; rewrite Hln; apply L2) k 0 s T l o) as (s' & T' & l' & r & Hr & Hc); [| lia |].
  { constructor; [by apply vm_grown_refl | lia | done]. }
  rewrite Nat.add_0_r in Hr; exists r, s', T', l'; split; [done |].
  destruct Hc as [[-> C] | ?]; [left; split; [done |]; split; [apply C | split; apply C] | by right].
Qed.

(** ** The theorems *)

(** C5: uvmcopy gives the child a copy of the parent's memory or nothing.  On success
    every page of the parent below sz has in the child's table an entry with
    the same permissions and a page of its own with the same bytes, pages the parent
    has not touched yet have none, and all other entries are as before; when
    memory runs out it returns -1 and the child's entries are what they were.
    Either way the free list, the child's table and its new pages are together
    exactly the pages they were before: none is lost and none is used twice; and nothing
    outside of them, in particular the parent, changes. *)
Theorem uvmcopy_spec (old new sz : Z) (s : kstate) (To Tn : ptree) (l : list Z) (o : oracle)
  (HI : vm_inv s Tn l) (Hnew : t_nodes Tn !! [] = Some new)
  (HRo : pt_rep (k_mem s) To) (Hold : t_nodes To !! [] = Some old) (Hsz : 0 <= sz <= MAXVA)
  (Hfresh : forall i, (i < npages sz)%nat -> t_leaf Tn !! upath i = None)
  (Hok : Forall page_ok (upages (t_leaf To) 0 (npages sz)))
  (Hapart : forall p, p ∈ t_pages To ++ upages (t_leaf To) 0 (npages sz) -> p ∉ t_pages Tn ++ l) :
  exists r s' T' l', uvmcopy old new sz s o = Ok r s' o /\
    ((r = 0 /\ grown s s' Tn T' l l' (upages (t_leaf T') 0 (npages sz)) /\
      (forall i, (i < npages sz)%nat -> copied (k_mem s') (t_leaf To !! upath i) (t_leaf T' !! upath i)) /\
      (forall a, (forall i, (i < npages sz)%nat -> a <> upath i) -> t_leaf T' !! a = t_leaf Tn !! a)) \/
     (r = -1 /\ grown s s' Tn T' l l' [] /\ t_leaf T' = t_leaf Tn)).
Proof using Hend. exact (uvmcopy_run old new sz s To Tn l o HI Hnew HRo Hold Hsz Hfresh Hok Hapart). Qed.

(** C7: uvmalloc grows an address space from oldsz to newsz bytes with pages of zeros that
    have the given permissions and returns newsz, or returns 0 when memory
    runs out, and then the entries are what they were and every page it had
    taken for the user is free again.  No page is lost or used twice, and no byte outside
    the table and the free list changes. *)
Theorem uvmalloc_spec (root oldsz newsz xperm : Z) (s : kstate) (T : ptree) (l : list Z) (o : oracle)
  (HI : vm_inv s T l) (Hroot : t_nodes T !! [] = Some root)
  (Hsz : 0 <= oldsz <= newsz) (HM : newsz <= MAXVA) (Hx : 0 <= xperm < 2 ^ 10)
  (Hfresh : forall i, (npages oldsz <= i < npages newsz)%nat -> t_leaf T !! upath i = None) :
  let new i := (npages oldsz <= i < npages newsz)%nat in
  exists r s' T' l', uvmalloc root oldsz newsz xperm s o = Ok r s' o /\
    ((r = newsz /\ grown s s' T T' l l' (upages (t_leaf T') (npages oldsz) (npages newsz - npages oldsz)) /\
      (forall i, new i -> zeroed (k_mem s') (Z.lor (Z.lor PTE_R PTE_U) xperm) (t_leaf T' !! upath i)) /\
      (forall a, (forall i, new i -> a <> upath i) -> t_leaf T' !! a = t_leaf T !! a)) \/
     (r = 0 /\ grown s s' T T' l l' [] /\ t_leaf T' = t_leaf T)).
Proof using Hend.
  intros new; pose proof (npages_mono oldsz newsz Hsz HM) as Hmono.
  destruct (uvmalloc_run root oldsz newsz xperm s T l o HI Hroot Hsz HM Hx ltac:(intros; apply Hfresh; lia))
    as (r & s' & T' & l' & Hr & [(E & G & Hz & Ho) | Hf]); exists r, s', T', l'; split; try done; [left | by right].
  split; [done |]; split; [done |]; split; [intros i Hi; apply Hz; unfold new in Hi; lia |].
  intros a Ha; apply Ho; intros i Hi; apply Ha; unfold new; lia.
Qed.

(** C6: uvmfree gives back everything: after it the free list has exactly the pages
    it had, the pages of the table and the user's pages, each once, and no byte
    outside of those changed. *)
Theorem uvmfree_spec (root sz : Z) (s : kstate) (T : ptree) (l : list Z) (o : oracle)
  (HI : vm_inv s T l) (Hroot : t_nodes T !! [] = Some root) (Hsz : 0 <= sz <= MAXVA)
  (Hall : forall a, (forall i, (i < npages sz)%nat -> a <> upath i) -> t_leaf T !! a = None)
  (Hok : Forall page_ok (upages (t_leaf T) 0 (npages sz)))
  (Hnd : NoDup (t_pages T ++ upages (t_leaf T) 0 (npages sz) ++ l)) :
  exists s' l', uvmfree root sz s o = Ok tt s' o /\ alloc_inv s' l' /\
    l' ≡ₚ t_pages T ++ upages (t_leaf T) 0 (npages sz) ++ l /\ rest s' = rest s /\
    forall b, ~ in_pages (t_pages T ++ upages (t_leaf T) 0 (npages sz)) b -> mget (k_mem s') b = mget (k_mem s) b.
Proof using Hend. exact (uvmfree_run root sz s T l o HI Hroot Hsz Hall Hok Hnd). Qed.

End Space.

(** ** A parent and a child on the demonstration machine *)

(** Pages 0 to 2 are the parent's table and page 3 its only page, with an A in it;
    page 4 is the child's table, pages 5 to 7 are free. *)
Definition demo_data_mem : mem :=
  store64 (store64 (store64 (mset ∅ (demo_page 3) 65) (demo_page 5) (demo_page 6)) (demo_page 6) (demo_page 7))
    (demo_page 7) 0.

Definition demo_entry : Z := map_pte (demo_page 3) 22.

Definition demo_pair : kstate :=
  (zero_state <| k_mem := store64 (store64 (store64 demo_data_mem (demo_page 0 + 8 * 0) (dir_pte (demo_page 1)))
      (demo_page 1 + 8 * 0) (dir_pte (demo_page 2))) (demo_page 2 + 8 * 0) demo_entry |>
    <| k_freelist := demo_page 5 |>)%rec.

Definition demo_parent : ptree :=
  mkptree (<[ [0; 0] := demo_page 2 ]> (<[ [0] := demo_page 1 ]> {[ [] := demo_page 0 ]})) (<[ [0; 0; 0] := demo_entry ]> ∅).
Definition demo_child : ptree := mkptree {[ [] := demo_page 4 ]} ∅.

Ltac demo_zero := intros b Hb; unfold demo_data_mem, store64; rewrite ?mget_store_le_ne by (unfold demo_page in *; plia);
  rewrite ?mget_mset_ne by (unfold demo_page in *; plia); done.

Lemma demo_page_ok i : 0 <= i < 8 -> page_ok (H := demo_linker) (demo_page i).
Proof.
  intros Hi; split.
  - replace (demo_page i) with ((557048 + i) * PGSIZE) by (unfold demo_page, PHYSTOP, KERNBASE; plia); by apply Z_mod_mult.
  - unfold demo_page, demo_linker; simpl; plia.
Qed.

Lemma demo_parent_rep : pt_rep (H := demo_linker) (k_mem demo_pair) demo_parent.
Proof.
  assert (H0 : pt_rep (H := demo_linker) demo_data_mem (mkptree {[ [] := demo_page 0 ]} ∅)).
  { apply pt_rep_empty; [by apply demo_page_ok |]; demo_zero. }
  pose proof (pt_rep_set_dir (H := demo_linker) _ _ [] (demo_page 0) 0 (demo_page 1) H0 eq_refl
    ltac:(simpl; lia) ltac:(lia) eq_refl ltac:(by apply demo_page_ok) ltac:(by vm_compute)) as H1.
  assert (H1' : forall b p', t_nodes (mkptree {[ [] := demo_page 0 ]} ∅) !! b = Some p' -> p' <> demo_page 1).
  { intros b p' Hb; simpl in Hb; apply lookup_singleton_Some in Hb as [_ <-]; by vm_compute. }
  specialize (H1 H1' ltac:(demo_zero)); cbn [app t_nodes t_leaf] in H1.
  pose proof (pt_rep_set_dir (H := demo_linker) _ _ [0] (demo_page 1) 0 (demo_page 2) H1 eq_refl
    ltac:(simpl; lia) ltac:(lia) eq_refl ltac:(by apply demo_page_ok) ltac:(by vm_compute)) as H2.
  assert (H2' : forall b p', (<[ [0] := demo_page 1 ]> {[ [] := demo_page 0 ]} : gmap (list Z) Z) !! b = Some p' -> p' <> demo_page 2).
  { intros b p' [[_ <-] | [_ Hb]]%lookup_insert_Some; [by vm_compute |].
    apply lookup_singleton_Some in Hb as [_ <-]; by vm_compute. }
  specialize (H2 H2' ltac:(demo_zero)); cbn [app t_nodes t_leaf] in H2.
  pose proof (pt_rep_set_leaf (H := demo_linker) _ _ [0; 0] (demo_page 2) 0 demo_entry H2 eq_refl eq_refl
    ltac:(lia) eq_refl ltac:(by vm_compute)) as H3.
  exact H3.
Qed.

Lemma demo_child_inv : vm_inv (H := demo_linker) demo_pair demo_child [demo_page 5; demo_page 6; demo_page 7].
Proof.
  constructor.
  - apply pt_rep_empty; [by apply demo_page_ok |]; unfold demo_pair; simpl; demo_zero.
  - split; [| by apply (bool_decide_unpack _); vm_compute].
    split; [done |]; split; [by apply demo_page_ok |]; split; [by vm_compute |]; split; [by apply demo_page_ok |].
    split; [by vm_compute |]; split; [by apply demo_page_ok | by vm_compute].
  - intros a p Ha; unfold demo_child in Ha; simpl in Ha; apply lookup_singleton_Some in Ha as [_ <-].
    by apply (bool_decide_unpack _); vm_compute.
  - set_solver.
Qed.

Lemma demo_parent_pages : upages (t_leaf demo_parent) 0 (npages 4096) = [demo_page 3].
Proof. by vm_compute. Qed.

Lemma uvmcopy_spec_witness :
  exists r s' T' (l' : list Z), uvmcopy (H := demo_linker) (demo_page 0) (demo_page 4) 4096 demo_pair [] = Ok r s' [] /\
    ((r = 0 /\ copied (k_mem s') (Some demo_entry) (t_leaf T' !! upath 0)) \/ (r = -1 /\ t_leaf T' = ∅)).
Proof.
  destruct (uvmcopy_spec (H := demo_linker) ltac:(by vm_compute) (demo_page 0) (demo_page 4) 4096 demo_pair demo_parent
    demo_child [demo_page 5; demo_page 6; demo_page 7] [] demo_child_inv eq_refl demo_parent_rep eq_refl
    ltac:(vm_compute; intuition congruence) ltac:(done)) as (r & s' & T' & l' & Hr & Hc).
  - rewrite demo_parent_pages; constructor; [by apply demo_page_ok | constructor].
  - apply Forall_forall, (bool_decide_unpack _); by vm_compute.
  - exists r, s', T', l'; split; [exact Hr |].
    destruct Hc as [(E & _ & Hcp & _) | (E & _ & El)].
    + left; split; [exact E |]; apply (Hcp 0%nat), Nat.ltb_lt; by vm_compute.
    + right; split; [exact E | exact El].
Defined.

Lemma uvmalloc_spec_witness :
  exists r s' T' (l' : list Z), uvmalloc (H := demo_linker) (demo_page 4) 0 5000 PTE_W demo_pair [] = Ok r s' [] /\
    ((r = 5000 /\ zeroed (H := demo_linker) (k_mem s') 22 (t_leaf T' !! upath 1)) \/ (r = 0 /\ t_leaf T' = ∅)).
Proof.
  destruct (uvmalloc_spec (H := demo_linker) ltac:(by vm_compute) (demo_page 4) 0 5000 PTE_W demo_pair
    demo_child [demo_page 5; demo_page 6; demo_page 7] [] demo_child_inv eq_refl
    ltac:(lia) ltac:(by vm_compute) ltac:(vm_compute; intuition congruence) ltac:(done)) as (r & s' & T' & l' & Hr & Hc).
  exists r, s', T', l'; split; [exact Hr |]; destruct Hc as [(E & _ & Hz & _) | (E & _ & El)].
  - left; split; [exact E |]; apply (Hz 1%nat); split; [apply Nat.leb_le | apply Nat.ltb_lt]; by vm_compute.
  - right; split; [exact E | exact El].
Defined.

Lemma uvmfree_spec_witness :
  exists s' l', uvmfree (H := demo_linker) (demo_page 0) 4096 demo_pair [] = Ok tt s' [] /\
    l' ≡ₚ t_pages demo_parent ++ [demo_page 3] ++ [demo_page 5; demo_page 6; demo_page 7].
Proof.
  destruct (uvmfree_spec (H := demo_linker) ltac:(by vm_compute) (demo_page 0) 4096 demo_pair demo_parent
    [demo_page 5; demo_page 6; demo_page 7] []) as (s' & l' & Hr & _ & HP & _).
  - constructor; [exact demo_parent_rep | apply demo_child_inv | | set_solver].
    intros a p Ha%(ex_intro (fun a => t_nodes demo_parent !! a = Some p) a)%elem_of_t_pages; revert p Ha.
    apply Forall_forall, (bool_decide_unpack _); by vm_compute.
  - reflexivity.
  - vm_compute; intuition congruence.
  - intros a Ha; apply lookup_insert_None; split; [apply lookup_empty |]; intros E.
    apply (Ha 0%nat); [apply Nat.ltb_lt; by vm_compute | by rewrite <- E].
  - rewrite demo_parent_pages; constructor; [by apply demo_page_ok | constructor].
  - apply (bool_decide_unpack _); by vm_compute.
  - exists s', l'; split; [exact Hr |]; rewrite demo_parent_pages in HP; exact HP.
Defined.
