(* ===== verification/Sleeplock.v ===== *)
(** Sleep-locks, kernel/sleeplock.c.  The sleep-locks of the kernel are embedded
    in the buffer and the inode arrays; [slid] names one by its place. *)
From stdpp Require Import base gmap list strings.
From Stdlib Require Import ZArith Lia ZifyBool.
From S2P Require Import Prelude Memory KPrintf State Monad Demo ProcBase.

Local Open Scope Z_scope.

Definition slget (l : slid) : K sleeplock :=
  match l with
  | SlBuf i => bufs ← gets k_bufs; b ← from_option_K (bufs !! i); mret (b_lock b)
  | SlInode i => t ← gets k_itable; ip ← from_option_K (t !! i); mret (i_lock ip)
  end.

Definition slset (l : slid) (v : sleeplock) : K unit :=
  match l with
  | SlBuf i => modify (fun s => (s <| k_bufs ::= upd i (fun b => b <| b_lock := v |>) |>)%rec)
  | SlInode i => modify (fun s => (s <| k_itable ::= upd i (fun p => p <| i_lock := v |>) |>)%rec)
  end.

Definition initsleeplock (l : slid) : K unit :=
  initlock (LSleep l) ;;
  slset l (mksleeplock 0 0).

Definition acquiresleep (l : slid) : K unit :=
  acquire (LSleep l) ;;
  ksleeploop (fun _ : unit =>
    lk ← slget l;
    if negb (sl_locked lk =? 0) then
      sleep (ChSleep l) (LSleep l) ;; mret (inl tt)
    else mret (inr tt)) tt ;;
  p ← curproc;
  pr ← pget p;
  slset l (mksleeplock 1 (p_pid pr)) ;;
  release (LSleep l).

Definition releasesleep (l : slid) : K unit :=
  acquire (LSleep l) ;;
  slset l (mksleeplock 0 0) ;;
  wakeup (ChSleep l) ;;
  release (LSleep l).

Definition holdingsleep (l : slid) : K bool :=
  acquire (LSleep l) ;;
  lk ← slget l;
  p ← curproc;
  pr ← pget p;
  release (LSleep l) ;;
  mret (negb (sl_locked lk =? 0) && (sl_pid lk =? p_pid pr)).
