(* ===== verification/Bio.v ===== *)
(** The buffer cache, kernel/bio.c.

    [k_bufs] is [bcache.buf] followed by [bcache.head] at index [NBUF]; the
    LRU list is threaded through [b_prev] and [b_next] as in the source.  The
    disk driver (kernel/virtio_disk.c) is behind the interface
    [BlockDevice]. *)
From stdpp Require Import base gmap list strings.
From Stdlib Require Import ZArith Lia ZifyBool.
From S2P Require Import Prelude Memory KPrintf State Monad Demo ProcBase Sleeplock.

Local Open Scope Z_scope.

Definition bufget (i : nat) : K buf :=
  bufs ← gets k_bufs; from_option_K (bufs !! i).

Definition bufset (i : nat) (f : buf -> buf) : K unit :=
  _ ← bufget i; modify (fun s => (s <| k_bufs ::= upd i f |>)%rec).

(** virtio_disk_rw(b, write): move the block of buffer [b] to or from the disk. *)
Class BlockDevice := virtio_disk_rw : nat -> bool -> K unit.

(** [&bcache.head] *)
Definition bhead : nat := NBUF.

(** Link [b] in right after the head. *)
Definition binsert (b : nat) : K unit :=
  h ← bufget bhead;
  bufset b (fun r => (r <| b_next := b_next h |>)%rec) ;;
  bufset b (fun r => (r <| b_prev := bhead |>)%rec) ;;
  bufset (b_next h) (fun r => (r <| b_prev := b |>)%rec) ;;
  bufset bhead (fun r => (r <| b_next := b |>)%rec).

(** Unlink [b]: [b->next->prev = b->prev; b->prev->next = b->next;] *)
Definition bunlink (b : nat) : K unit :=
  r ← bufget b;
  bufset (b_next r) (fun x => (x <| b_prev := b_prev r |>)%rec) ;;
  r ← bufget b;
  bufset (b_prev r) (fun x => (x <| b_next := b_next r |>)%rec).

Definition binit : K unit :=
  initlock LBcache ;;
  bufset bhead (fun r => (r <| b_prev := bhead |>)%rec) ;;
  bufset bhead (fun r => (r <| b_next := bhead |>)%rec) ;;
  kfor_ (seq 0 NBUF) (fun b =>
    h ← bufget bhead;
    bufset b (fun r => (r <| b_next := b_next h |>)%rec) ;;
    bufset b (fun r => (r <| b_prev := bhead |>)%rec) ;;
    initsleeplock (SlBuf b) ;;
    h ← bufget bhead;
    bufset (b_next h) (fun r => (r <| b_prev := b |>)%rec) ;;
    bufset bhead (fun r => (r <| b_next := b |>)%rec)).

Section Bio.
Context `{BlockDevice}.

(** A walk of the circular list visits at most NBUF buffers and the head. *)
Definition bget (dev blockno : Z) : K nat :=
  acquire LBcache ;;
  h ← bufget bhead;
  r ← kloop (N.of_nat NBUF + 1) (fun b =>
    if Nat.eqb b bhead then mret (inr None)
    else
      r ← bufget b;
      if (b_dev r =? dev) && (b_blockno r =? blockno) then
        bufset b (fun r => (r <| b_refcnt := u32 (b_refcnt r + 1) |>)%rec) ;;
        release LBcache ;;
        acquiresleep (SlBuf b) ;;
        mret (inr (Some b))
      else mret (inl (b_next r))) (b_next h);
  match r with
  | Some b => mret b
  | None =>
      h ← bufget bhead;
      kloop (N.of_nat NBUF + 1) (fun b =>
        if Nat.eqb b bhead then panic "bget: no buffers"
        else
          r ← bufget b;
          if b_refcnt r =? 0 then
            bufset b (fun r => (r <| b_dev := dev |>)%rec) ;;
            bufset b (fun r => (r <| b_blockno := blockno |>)%rec) ;;
            bufset b (fun r => (r <| b_valid := 0 |>)%rec) ;;
            bufset b (fun r => (r <| b_refcnt := 1 |>)%rec) ;;
            release LBcache ;;
            acquiresleep (SlBuf b) ;;
            mret (inr b)
          else mret (inl (b_prev r))) (b_prev h)
  end.

Definition bread (dev blockno : Z) : K nat :=
  b ← bget dev blockno;
  r ← bufget b;
  kwhen (b_valid r =? 0)
    (virtio_disk_rw b false ;;
     bufset b (fun r => (r <| b_valid := 1 |>)%rec)) ;;
  mret b.

Definition bwrite (b : nat) : K unit :=
  h ← holdingsleep (SlBuf b);
  if negb h then panic "bwrite" else virtio_disk_rw b true.

Definition brelse (b : nat) : K unit :=
  h ← holdingsleep (SlBuf b);
  if negb h then panic "brelse"
  else
    releasesleep (SlBuf b) ;;
    acquire LBcache ;;
    bufset b (fun r => (r <| b_refcnt := u32 (b_refcnt r - 1) |>)%rec) ;;
    r ← bufget b;
    kwhen (b_refcnt r =? 0) (bunlink b ;; binsert b) ;;
    release LBcache.

Definition bpin (b : nat) : K unit :=
  acquire LBcache ;;
  bufset b (fun r => (r <| b_refcnt := u32 (b_refcnt r + 1) |>)%rec) ;;
  release LBcache.

Definition bunpin (b : nat) : K unit :=
  acquire LBcache ;;
  bufset b (fun r => (r <| b_refcnt := u32 (b_refcnt r - 1) |>)%rec) ;;
  release LBcache.

End Bio.

(** The contents of a buffer's data array. *)
Definition bdata (b : nat) : K (list Z) := r ← bufget b; mret (b_data r).
Definition bdata_set (b : nat) (f : list Z -> list Z) : K unit :=
  bufset b (fun r => (r <| b_data ::= f |>)%rec).

(** A disk for examples: a request moves the block at once. *)
Definition demo_disk : BlockDevice := fun b write =>
  r ← bufget b;
  if write then modify (fun s => (s <| k_disk ::= <[b_blockno r := b_data r]> |>)%rec)
  else
    d ← gets k_disk;
    bdata_set b (fun old => default old (d !! b_blockno r)).
