(* ===== verification/BioSpec.v ===== *)
(** What the buffer cache promises: the LRU list stays a circular list of all
    buffers, a block is in at most one buffer, and bread, bwrite and brelse act
    on a map from block numbers to contents and reference counts. *)
From stdpp Require Import functions base gmap list strings.
From Stdlib Require Import ZArith Lia ZifyBool.
From S2P Require Import Prelude Memory KPrintf State Monad Demo ProcBase Sleeplock Bio.

Local Open Scope Z_scope.

(** ** Chains of pointers *)

(** Following [f] from [x] visits [l] and then [y]. *)
Fixpoint chain (f : nat -> nat) (x : nat) (l : list nat) (y : nat) : Prop :=
  match l with
  | [] => f x = y
  | z :: l' => f x = z /\ chain f z l' y
  end.

Lemma chain_ext f g x l y :
  (forall z, z ∈ x :: l -> g z = f z) -> chain f x l y -> chain g x l y.
Proof.
  revert x; induction l as [| z l IH]; intros x Hfg; simpl.
  - intros <-; apply Hfg; set_solver.
  - intros [<- Hc]; split; [apply Hfg; set_solver |]; apply IH; [set_solver | done].
Qed.

Lemma chain_app f x l1 z l2 y :
  chain f x (l1 ++ z :: l2) y <-> chain f x l1 z /\ chain f z l2 y.
Proof.
  revert x; induction l1 as [| a l1 IH]; intros x; simpl; [done |].
  rewrite IH; naive_solver.
Qed.

Lemma chain_head f x l y : chain f x l y -> f x = hd y l.
Proof. destruct l; simpl; naive_solver. Qed.

(** The last element of [x :: l]. *)
Fixpoint final (x : nat) (l : list nat) : nat :=
  match l with [] => x | z :: l' => final z l' end.

Lemma final_elem x l : final x l ∈ x :: l.
Proof. revert x; induction l as [| z l IH]; intros x; simpl; [set_solver |]; specialize (IH z); set_solver. Qed.

Lemma final_app x l z l2 : final x (l ++ z :: l2) = final z l2.
Proof. revert x; induction l as [| a l IH]; intros x; simpl; [done | apply IH]. Qed.

Lemma hd_rev_final x l : hd x (rev l) = final x l.
Proof.
  induction l as [| z l IH] using rev_ind; simpl; [done |].
  rewrite rev_app_distr, final_app; done.
Qed.

(** The last pointer of a chain is redirected. *)
Lemma chain_retarget f x l y z :
  NoDup (x :: l) -> chain f x l y -> chain (<[final x l := z]> f) x l z.
Proof.
  revert x; induction l as [| a l IH]; intros x Hd Hc; simpl.
  - by rewrite fn_lookup_insert.
  - destruct Hc as [Hx Hc]; apply NoDup_cons in Hd as [Hn Hd]; split; [| by apply IH].
    rewrite fn_lookup_insert_ne; [done |]; intros E; pose proof (final_elem a l); congruence.
Qed.

(** The circular list through [h] with nodes [L], and what moving a node to
    the front makes of its pointers. *)
Lemma chain_unlink f h l1 b l2 :
  NoDup (h :: l1 ++ b :: l2) -> chain f h (l1 ++ b :: l2) h ->
  chain (<[final h l1 := f b]> f) h (l1 ++ l2) h.
Proof.
  intros Hd [H1 H2]%chain_app.
  assert (Hd1 : NoDup (h :: l1)) by (apply NoDup_cons in Hd as [? Hd]; apply NoDup_cons; split;
    [set_solver |]; by apply NoDup_app in Hd as (? & _ & _)).
  apply (chain_retarget _ _ _ _ (f b)) in H1; [| done].
  destruct l2 as [| z l2]; [rewrite app_nil_r; simpl in H2; rewrite H2 in *; done |].
  apply chain_app; destruct H2 as [Hz H2]; rewrite Hz in *; split; [done |].
  eapply chain_ext; [| exact H2]; intros y Hy; apply fn_lookup_insert_ne; intros E.
  pose proof (final_elem h l1) as Hf; rewrite E in Hf.
  apply NoDup_cons in Hd as [Hh Hd]; apply NoDup_app in Hd as (_ & Hdis & _).
  apply elem_of_cons in Hf as [-> | Hf]; [set_solver |]; eapply (Hdis y); set_solver.
Qed.

Lemma chain_push f h b l :
  NoDup (h :: b :: l) -> chain f h l h -> chain (<[h := b]> (<[b := f h]> f)) h (b :: l) h.
Proof.
  intros Hd Hc; apply NoDup_cons in Hd as [Hh Hd]; apply NoDup_cons in Hd as [Hb Hd].
  split; [by rewrite fn_lookup_insert |].
  assert (Hbh : chain (<[b := f h]> f) b l h).
  { destruct l as [| z l]; simpl in *; [by rewrite fn_lookup_insert |].
    destruct Hc as [Hz Hc]; rewrite fn_lookup_insert; split; [done |].
    eapply chain_ext; [| exact Hc]; intros y Hy; apply fn_lookup_insert_ne; set_solver. }
  eapply chain_ext; [| exact Hbh]; intros y Hy; apply fn_lookup_insert_ne; set_solver.
Qed.

Lemma chain_append f h b l :
  NoDup (h :: b :: l) -> chain f h l h -> chain (<[final h l := b]> (<[b := h]> f)) h (l ++ [b]) h.
Proof.
  intros Hd Hc; apply NoDup_cons in Hd as [Hh Hd]; apply NoDup_cons in Hd as [Hb Hd].
  apply chain_app; split.
  - assert (Hc' : chain (<[b := h]> f) h l h).
    { eapply chain_ext; [| exact Hc]; intros y Hy; apply fn_lookup_insert_ne; set_solver. }
    eapply chain_retarget; [| exact Hc']; apply NoDup_cons; split; [set_solver | done].
  - simpl; rewrite fn_lookup_insert_ne; [by rewrite fn_lookup_insert |].
    intros E; pose proof (final_elem h l); set_solver.
Qed.

(** ** The LRU list of the buffers *)

Definition nextf (bufs : list buf) (i : nat) : nat := default i (b_next <$> bufs !! i).
Definition prevf (bufs : list buf) (i : nat) : nat := default i (b_prev <$> bufs !! i).

(** [L] is the list from most to least recently used. *)
Definition lru (bufs : list buf) (L : list nat) : Prop :=
  length bufs = S NBUF /\ Permutation L (seq 0 NBUF) /\
  chain (nextf bufs) bhead L bhead /\ chain (prevf bufs) bhead (rev L) bhead.

(** A buffer without its place in the list. *)
Definition core (r : buf) : buf := (r <| b_prev := 0%nat |> <| b_next := 0%nat |>)%rec.

Lemma nextf_upd i f bufs r :
  bufs !! i = Some r -> forall j, nextf (upd i f bufs) j = (<[i := b_next (f r)]> (nextf bufs)) j.
Proof.
  intros Hr j; unfold nextf; rewrite upd_lookup; destruct (decide (i = j)) as [<- |].
  - by rewrite Hr, fn_lookup_insert.
  - by rewrite fn_lookup_insert_ne.
Qed.

Lemma prevf_upd i f bufs r :
  bufs !! i = Some r -> forall j, prevf (upd i f bufs) j = (<[i := b_prev (f r)]> (prevf bufs)) j.
Proof.
  intros Hr j; unfold prevf; rewrite upd_lookup; destruct (decide (i = j)) as [<- |].
  - by rewrite Hr, fn_lookup_insert.
  - by rewrite fn_lookup_insert_ne.
Qed.

(** An update that keeps the pointers keeps the list. *)
Lemma lru_upd i f bufs L :
  (forall r, bufs !! i = Some r -> b_prev (f r) = b_prev r /\ b_next (f r) = b_next r) ->
  lru bufs L -> lru (upd i f bufs) L.
Proof.
  intros Hf (Hl & Hp & Hn & Hv); split; [by rewrite length_upd |]; split; [done |].
  assert (Hsame : forall j, nextf (upd i f bufs) j = nextf bufs j /\ prevf (upd i f bufs) j = prevf bufs j).
  { intros j; unfold nextf, prevf; rewrite upd_lookup; case_decide; [subst j | done].
    destruct (bufs !! i) as [r |]; [| done]; simpl; destruct (Hf r) as [-> ->]; done. }
  split; [eapply chain_ext; [| exact Hn] | eapply chain_ext; [| exact Hv]]; intros; apply Hsame.
Qed.

Lemma lru_nodup bufs L : lru bufs L -> NoDup (bhead :: L).
Proof.
  intros (_ & Hp & _); apply NoDup_cons; split; [| rewrite Hp; apply NoDup_seq].
  rewrite Hp, elem_of_seq; unfold bhead; lia.
Qed.

Lemma lru_elem bufs L b : lru bufs L -> b ∈ L <-> (b < NBUF)%nat.
Proof. intros (_ & Hp & _); rewrite Hp, elem_of_seq; lia. Qed.

Lemma lru_lookup bufs L b : lru bufs L -> (b <= NBUF)%nat -> is_Some (bufs !! b).
Proof. intros (Hl & _) Hb; apply lookup_lt_is_Some; lia. Qed.

(** ** Buffers one at a time *)

Lemma bufget_ok b r s o : k_bufs s !! b = Some r -> bufget b s o = Ok r s o.
Proof. intros H; unfold bufget; rewrite gets_bind, H; done. Qed.

Lemma bufset_ok b r f s o :
  k_bufs s !! b = Some r -> bufset b f s o = Ok tt (s <| k_bufs ::= upd b f |>)%rec o.
Proof. intros H; unfold bufset; erewrite bind_ok by (by apply bufget_ok); done. Qed.

Lemma bufset_bind {A} b r f (m : unit -> K A) s o :
  k_bufs s !! b = Some r -> (bufset b f ≫= m) s o = m tt (s <| k_bufs ::= upd b f |>)%rec o.
Proof. intros H; erewrite bind_ok by (by eapply bufset_ok); done. Qed.

Lemma core_upd i f bufs :
  (forall r, core (f r) = core r) -> core <$> upd i f bufs = core <$> bufs.
Proof.
  intros Hf; apply list_eq; intros j; rewrite !list_lookup_fmap, upd_lookup.
  case_decide; [| done]; destruct (bufs !! j); simpl; [by rewrite Hf | done].
Qed.

(** The buffers after moving [b] to the front of the list. *)
Definition move_front (b : nat) (bufs : list buf) : list buf :=
  let nxt := nextf bufs b in
  let prv := prevf bufs b in
  let bufs2 := upd prv (fun x => x <| b_next := nxt |>)%rec
                 (upd nxt (fun x => x <| b_prev := prv |>)%rec bufs) in
  let hn := nextf bufs2 bhead in
  upd bhead (fun r => r <| b_next := b |>)%rec
    (upd hn (fun r => r <| b_prev := b |>)%rec
      (upd b (fun r => r <| b_prev := bhead |>)%rec
        (upd b (fun r => r <| b_next := hn |>)%rec bufs2))).

Lemma upd_is_Some {A} i f (l : list A) j : is_Some (upd i f l !! j) <-> is_Some (l !! j).
Proof. rewrite upd_lookup; case_decide; [| done]; by rewrite fmap_is_Some. Qed.

Lemma nextf_of bufs b r : bufs !! b = Some r -> b_next r = nextf bufs b.
Proof. intros H; unfold nextf; by rewrite H. Qed.
Lemma prevf_of bufs b r : bufs !! b = Some r -> b_prev r = prevf bufs b.
Proof. intros H; unfold prevf; by rewrite H. Qed.

(** Setting one pointer field. *)
Lemma nextf_next i v bufs j :
  is_Some (bufs !! i) -> nextf (upd i (fun r => r <| b_next := v |>)%rec bufs) j = (<[i := v]> (nextf bufs)) j.
Proof. intros [r Hr]; by rewrite (nextf_upd _ _ _ r Hr). Qed.
Lemma prevf_prev i v bufs j :
  is_Some (bufs !! i) -> prevf (upd i (fun r => r <| b_prev := v |>)%rec bufs) j = (<[i := v]> (prevf bufs)) j.
Proof. intros [r Hr]; by rewrite (prevf_upd _ _ _ r Hr). Qed.
Lemma nextf_prev i v bufs j : nextf (upd i (fun r => r <| b_prev := v |>)%rec bufs) j = nextf bufs j.
Proof. unfold nextf; rewrite upd_lookup; case_decide; [destruct (bufs !! j)|]; done. Qed.
Lemma prevf_next i v bufs j : prevf (upd i (fun r => r <| b_next := v |>)%rec bufs) j = prevf bufs j.
Proof. unfold prevf; rewrite upd_lookup; case_decide; [destruct (bufs !! j)|]; done. Qed.

Lemma fn_insert_ext (f g : nat -> nat) i v j : (forall k, f k = g k) -> (<[i := v]> f) j = (<[i := v]> g) j.
Proof. intros H; unfold insert, fn_insert; case_decide; auto. Qed.

Lemma bufs_set_set f g s :
  (s <| k_bufs ::= f |> <| k_bufs ::= g |> = s <| k_bufs ::= fun l => g (f l) |>)%rec.
Proof. done. Qed.

Section MoveFront.
Context (b : nat) (bufs : list buf) (l1 l2 : list nat).
Context (HL : lru bufs (l1 ++ b :: l2)).

Local Notation L := (l1 ++ b :: l2).

Lemma front_nodup : NoDup (bhead :: l1 ++ b :: l2).
Proof using HL. exact (lru_nodup bufs L HL). Qed.

Lemma front_facts :
  nextf bufs b = hd bhead l2 /\ prevf bufs b = final bhead l1 /\
  (b < NBUF)%nat /\ (hd bhead l2 <= NBUF)%nat /\ (final bhead l1 <= NBUF)%nat /\
  hd bhead l2 <> b /\ final bhead l1 <> b.
Proof using HL.
  pose proof front_nodup as Hd; destruct HL as (Hlen & Hp & Hn & Hv).
  assert (Hin : forall x, x ∈ L -> (x < NBUF)%nat) by (intros x; rewrite Hp, elem_of_seq; lia).
  apply chain_app in Hn as [_ Hn]; apply chain_head in Hn.
  rewrite rev_app_distr in Hv; simpl in Hv; rewrite <- app_assoc in Hv; simpl in Hv.
  apply chain_app in Hv as [_ Hv]; apply chain_head in Hv; rewrite hd_rev_final in Hv.
  assert (Hh : hd bhead l2 = bhead \/ hd bhead l2 ∈ l2) by (destruct l2; simpl; set_solver).
  pose proof (final_elem bhead l1) as Hf.
  assert (Hb : b ∉ bhead :: l1 ++ l2).
  { apply NoDup_cons in Hd as [Hh' Hd]; apply NoDup_app in Hd as (_ & Hdis & Hd).
    apply NoDup_cons in Hd as [Hb _]; specialize (Hdis b); set_solver. }
  assert (Hbh : (bhead <= NBUF)%nat) by done.
  split_and!; [done | done | set_solver | | | |].
  - destruct Hh as [-> | Hh]; [done |]; specialize (Hin (hd bhead l2)); set_solver by lia.
  - apply elem_of_cons in Hf as [-> | Hf]; [done |]; specialize (Hin (final bhead l1)); set_solver by lia.
  - intros E; rewrite E in Hh; set_solver.
  - intros E; rewrite E in Hf; set_solver.
Qed.


Lemma front_next j :
  nextf (move_front b bufs) j =
  (<[bhead := b]> (<[b := hd bhead (l1 ++ l2)]> (<[final bhead l1 := hd bhead l2]> (nextf bufs)))) j.
Proof using HL.
  pose proof front_nodup as Hd; pose proof front_facts as (Hnx & Hpv & Hb & Hnb & Hpb & Hnn & Hpn).
  assert (Hsome : forall i, (i <= NBUF)%nat -> is_Some (bufs !! i)) by (intros; by eapply lru_lookup).
  unfold move_front; cbv zeta; rewrite Hnx, Hpv.
  set (bufs2 := upd (final bhead l1) _ _).
  assert (Hn2 : forall k, nextf bufs2 k = (<[final bhead l1 := hd bhead l2]> (nextf bufs)) k).
  { intros k; unfold bufs2; rewrite nextf_next by (apply upd_is_Some; eauto).
    apply fn_insert_ext; intros; apply nextf_prev. }
  rewrite Hn2; destruct HL as (_ & _ & Hn & _); apply chain_unlink in Hn; [| done].
  rewrite Hnx in Hn; apply chain_head in Hn; rewrite Hn.
  rewrite nextf_next by (repeat (apply upd_is_Some); unfold bufs2; repeat (apply upd_is_Some); auto).
  apply fn_insert_ext; intros k; rewrite !nextf_prev.
  rewrite nextf_next by (unfold bufs2; repeat (apply upd_is_Some); apply Hsome; lia).
  by apply fn_insert_ext.
Qed.

Lemma front_hn :
  nextf (upd (prevf bufs b) (fun x => x <| b_next := nextf bufs b |>)%rec
          (upd (nextf bufs b) (fun x => x <| b_prev := prevf bufs b |>)%rec bufs)) bhead =
    hd bhead (l1 ++ l2) /\ (hd bhead (l1 ++ l2) <= NBUF)%nat.
Proof using HL.
  pose proof front_nodup as Hd; pose proof front_facts as (Hnx & Hpv & Hb & Hnb & Hpb & Hnn & Hpn).
  rewrite Hnx, Hpv; split.
  - rewrite nextf_next by (apply upd_is_Some; by eapply lru_lookup).
    rewrite (fn_insert_ext _ (nextf bufs)) by (intros; apply nextf_prev).
    destruct HL as (_ & _ & Hn & _); apply chain_unlink in Hn; [| done].
    rewrite Hnx in Hn; by apply chain_head in Hn.
  - destruct HL as (_ & Hp & _).
    assert (Hin : forall x, x ∈ l1 ++ b :: l2 -> (x < NBUF)%nat) by (intros x; rewrite Hp, elem_of_seq; lia).
    destruct (l1 ++ l2) as [| z l] eqn:E; [done |]; simpl; apply Nat.lt_le_incl, Hin.
    assert (z ∈ l1 ++ l2) by (rewrite E; set_solver); set_solver.
Qed.

Lemma front_prev j :
  prevf (move_front b bufs) j =
  (<[hd bhead (l1 ++ l2) := b]> (<[b := bhead]> (<[hd bhead l2 := final bhead l1]> (prevf bufs)))) j.
Proof using HL.
  pose proof front_nodup as Hd; pose proof front_facts as (Hnx & Hpv & Hb & Hnb & Hpb & Hnn & Hpn).
  assert (Hsome : forall i, (i <= NBUF)%nat -> is_Some (bufs !! i)) by (intros; by eapply lru_lookup).
  unfold move_front; cbv zeta; rewrite Hnx, Hpv.
  set (bufs2 := upd (final bhead l1) _ _).
  destruct front_hn as [Hhn Hle]; rewrite Hnx, Hpv in Hhn; fold bufs2 in Hhn.
  rewrite Hhn, prevf_next, prevf_prev by (repeat (apply upd_is_Some); unfold bufs2; repeat (apply upd_is_Some); auto).
  apply fn_insert_ext; intros k; rewrite prevf_prev by
    (repeat (apply upd_is_Some); unfold bufs2; repeat (apply upd_is_Some); apply Hsome; lia).
  apply fn_insert_ext; intros k'; unfold bufs2; rewrite !prevf_next; by apply prevf_prev, Hsome.
Qed.

Lemma front_lru : lru (move_front b bufs) (b :: l1 ++ l2).
Proof using HL.
  pose proof front_nodup as Hd; pose proof front_facts as (Hnx & Hpv & Hb & Hnb & Hpb & Hnn & Hpn).
  pose proof HL as (Hlen & Hp & Hn & Hv).
  assert (Hd' : NoDup (bhead :: b :: l1 ++ l2)).
  { rewrite <- (Permutation_middle l1 l2 b) in Hd; done. }
  split; [unfold move_front; cbv zeta; by rewrite !length_upd |].
  split; [rewrite <- Hp; apply Permutation_middle |]; split.
  - apply chain_unlink in Hn; [| done]; pose proof (chain_head _ _ _ _ Hn) as Hh.
    apply (chain_push _ _ b) in Hn; [| done]; rewrite Hh, Hnx in Hn.
    eapply chain_ext; [| exact Hn]; intros z _; apply front_next.
  - rewrite rev_app_distr in Hv; simpl in Hv; rewrite <- app_assoc in Hv; simpl in Hv.
    assert (Hrev : Permutation (rev l2 ++ b :: rev l1) (l1 ++ b :: l2)).
    { rewrite <- !Permutation_middle, <- !Permutation_rev; apply perm_skip, Permutation_app_comm. }
    assert (Hdr : NoDup (bhead :: rev l2 ++ b :: rev l1)) by (by rewrite Hrev).
    pose proof (chain_unlink _ _ (rev l2) b (rev l1) Hdr Hv) as Hv2.
    apply (chain_append _ _ b) in Hv2; [| by rewrite <- (Permutation_middle (rev l2) (rev l1) b) in Hdr].
    rewrite <- rev_app_distr, <- !hd_rev_final, !rev_involutive, Hpv in Hv2.
    eapply chain_ext; [| simpl; exact Hv2]; intros z _; rewrite front_prev; done.
Qed.

Lemma front_core : core <$> move_front b bufs = core <$> bufs.
Proof using. unfold move_front; cbv zeta; by rewrite !core_upd. Qed.

(** [b->next->prev = b->prev; ...; bcache.head.next = b;] *)
Lemma front_run s o :
  k_bufs s = bufs -> (bunlink b ;; binsert b) s o = Ok tt (s <| k_bufs ::= move_front b |>)%rec o.
Proof using HL.
  intros Hs; pose proof front_facts as (Hnx & Hpv & Hb & Hnb & Hpb & Hnn & Hpn).
  assert (Hsome : forall i, (i <= NBUF)%nat -> is_Some (bufs !! i)) by (intros; by eapply lru_lookup).
  destruct (Hsome b ltac:(lia)) as [r Hr], (Hsome (nextf bufs b) ltac:(lia)) as [rn Hrn].
  unfold bunlink; rewrite bind_assoc; erewrite bind_ok by (apply bufget_ok; by rewrite Hs).
  rewrite (nextf_of _ _ _ Hr), (prevf_of _ _ _ Hr), bind_assoc.
  erewrite bufset_bind by (rewrite Hs; exact Hrn); rewrite bind_assoc.
  erewrite bind_ok; [| apply bufget_ok; simpl; rewrite Hs, upd_lookup_ne; [exact Hr | congruence]].
  rewrite (nextf_of _ _ _ Hr), (prevf_of _ _ _ Hr).
  set (bufs1 := upd (nextf bufs b) (fun x => x <| b_prev := prevf bufs b |>)%rec bufs).
  assert (Hsome1 : forall i, (i <= NBUF)%nat -> is_Some (bufs1 !! i)) by (intros; by apply upd_is_Some, Hsome).
  destruct (Hsome1 (prevf bufs b) ltac:(lia)) as [rp Hrp].
  erewrite bufset_bind by (simpl; rewrite Hs; exact Hrp).
  set (bufs2 := upd (prevf bufs b) (fun x => x <| b_next := nextf bufs b |>)%rec bufs1).
  assert (Hsome2 : forall i, (i <= NBUF)%nat -> is_Some (bufs2 !! i)) by (intros; by apply upd_is_Some, Hsome1).
  destruct (Hsome2 bhead ltac:(done)) as [h Hh].
  unfold binsert; erewrite bind_ok by (apply bufget_ok; simpl; rewrite Hs; exact Hh).
  rewrite (nextf_of _ _ _ Hh).
  destruct front_hn as [Hhn Hle]; fold bufs1 bufs2 in Hhn; rewrite Hhn.
  destruct (Hsome2 b ltac:(lia)) as [x Hx].
  erewrite bufset_bind by (simpl; rewrite Hs; exact Hx).
  erewrite bufset_bind by (simpl; rewrite Hs; by apply upd_lookup_eq).
  destruct (Hsome2 (hd bhead (l1 ++ l2)) Hle) as [y Hy].
  set (bufs3 := upd b (fun r => r <| b_prev := bhead |>)%rec
    (upd b (fun r => r <| b_next := hd bhead (l1 ++ l2) |>)%rec bufs2)).
  assert (Hsome3 : forall i, (i <= NBUF)%nat -> is_Some (bufs3 !! i))
    by (intros; by apply upd_is_Some, upd_is_Some, Hsome2).
  destruct (Hsome3 _ Hle) as [z Hz].
  erewrite bufset_bind by (simpl; rewrite Hs; exact Hz).
  assert (Hsome4 : is_Some (upd (hd bhead (l1 ++ l2)) (fun r => r <| b_prev := b |>)%rec bufs3 !! bhead))
    by (by apply upd_is_Some, Hsome3).
  destruct Hsome4 as [w Hw]; erewrite bufset_ok by (simpl; rewrite Hs; exact Hw).
  assert (Hm : move_front b bufs = upd bhead (fun r => r <| b_next := b |>)%rec
    (upd (hd bhead (l1 ++ l2)) (fun r => r <| b_prev := b |>)%rec bufs3)).
  { unfold move_front; cbv zeta; fold bufs1; fold bufs2; rewrite Hhn; done. }
  f_equal; clear - Hm Hs; destruct s; state_norm; simpl in Hs; rewrite Hs, Hm; done.
Qed.

End MoveFront.

(** ** Walking the list *)

Section Walk.
Context {R : Type} (link : buf -> nat) (test : buf -> bool) (found : nat -> K (nat + R)) (stop : K (nat + R)).

Definition linkf (bufs : list buf) (i : nat) : nat := default i (link <$> bufs !! i).

Definition walk_body (b : nat) : K (nat + R) :=
  if Nat.eqb b bhead then stop
  else r ← bufget b; if test r then found b else mret (inl (link r)).

Definition passes (s : kstate) (b : nat) : Prop :=
  b <> bhead /\ exists r, k_bufs s !! b = Some r /\ test r = false.

Lemma walk_body_at b r s o :
  b <> bhead -> k_bufs s !! b = Some r ->
  walk_body b s o = (if test r then found b else mret (inl (link r))) s o.
Proof.
  intros Hb Hr; unfold walk_body; apply Nat.eqb_neq in Hb; rewrite Hb.
  erewrite bind_ok by (by apply bufget_ok); done.
Qed.

Lemma walk_step x b n s o :
  passes s b -> linkf (k_bufs s) b = x -> kloop (N.succ n) walk_body b s o = kloop n walk_body x s o.
Proof.
  intros (Hb & r & Hr & Ht) Hx; rewrite kloop_succ.
  erewrite bind_ok by (by erewrite walk_body_at, Ht by done).
  unfold linkf in Hx; rewrite Hr in Hx; by rewrite <- Hx.
Qed.

(** The first buffer of the chain that passes the test is found. *)
Lemma walk_found x l1 b r l2 n v s s' o o' :
  chain (linkf (k_bufs s)) x (l1 ++ b :: l2) bhead ->
  Forall (passes s) l1 -> b <> bhead -> k_bufs s !! b = Some r -> test r = true ->
  (length l1 < n)%nat -> found b s o = Ok (inr v) s' o' ->
  kloop (N.of_nat n) walk_body (hd bhead (l1 ++ b :: l2)) s o = Ok v s' o'.
Proof.
  revert x n; induction l1 as [| y l1 IH]; intros x n Hc Hp Hb Hr Ht Hn Hf;
    (destruct n as [| n]; [simpl in Hn; lia |]); rewrite Nat2N.inj_succ.
  - rewrite kloop_succ; cbn [app hd].
    erewrite bind_ok by (erewrite walk_body_at, Ht by done; exact Hf); done.
  - inversion_clear Hp as [| ? ? Hy Hp']; destruct Hc as [Hx Hc]; cbn [app hd].
    erewrite walk_step; [| exact Hy | exact (chain_head _ _ _ _ Hc)].
    eapply IH; try done; simpl in Hn; lia.
Qed.

Lemma walk_none x l n v s s' o o' :
  chain (linkf (k_bufs s)) x l bhead -> Forall (passes s) l -> (length l < n)%nat ->
  stop s o = Ok (inr v) s' o' -> kloop (N.of_nat n) walk_body (hd bhead l) s o = Ok v s' o'.
Proof.
  revert x n; induction l as [| y l IH]; intros x n Hc Hp Hn Hs;
    (destruct n as [| n]; [simpl in Hn; lia |]); rewrite Nat2N.inj_succ.
  - rewrite kloop_succ; cbn [hd]; erewrite bind_ok; [| unfold walk_body; rewrite Nat.eqb_refl; exact Hs]; done.
  - inversion_clear Hp as [| ? ? Hy Hp']; destruct Hc as [Hx Hc]; cbn [hd].
    erewrite walk_step; [| exact Hy | exact (chain_head _ _ _ _ Hc)].
    eapply IH; try done; simpl in Hn; lia.
Qed.

End Walk.
