(* ===== verification/CacheSpec.v ===== *)
(** The buffer cache as a map.

    When no other process uses the file system, as during a commit, the cache
    is a finite map from block numbers to contents and reference counts: the
    blocks in use.  bread adds a reference, reading the block from disk when it
    is not in use; bwrite stores the contents on disk; brelse and bunpin drop a
    reference.  A buffer that is not in use holds what the disk holds.

    The disk is [crash_disk stop]: requests are served in order, and the machine
    stops at the first write for which [stop] holds. *)
From stdpp Require Import base gmap list strings.
From Stdlib Require Import ZArith Lia ZifyBool.
From S2P Require Import Prelude Memory KPrintf State Monad Demo ProcBase Sleeplock Bio BioSpec.

Local Open Scope Z_scope.

Definition zero_block : list Z := replicate (Z.to_nat BSIZE) 0.

(** The contents of block [n] of a disk. *)
Definition blk (D : gmap Z (list Z)) (n : Z) : list Z := default zero_block (D !! n).

(** The disk driver of a machine that loses power at a write. *)
Definition crash_write (stop : kstate -> bool) (n : Z) (d : list Z) : K unit := fun s o =>
  if stop s then Blocked s else Ok tt (s <| k_disk ::= <[n := d]> |>)%rec o.

Definition crash_disk (stop : kstate -> bool) : BlockDevice := fun b write =>
  r ← bufget b;
  if write then crash_write stop (b_blockno r) (b_data r)
  else
    d ← gets k_disk;
    bufset b (fun x => (x <| b_data := blk d (b_blockno r) |>)%rec).

(** ** The representation *)

Section Cache.
Context (dev : Z) (pid : Z).

Definition buf_ok (D : gmap Z (list Z)) (C : gmap Z (list Z * Z)) (H : gset Z) (r : buf) : Prop :=
  0 <= b_refcnt r < 2 ^ 32 /\
  (b_refcnt r = 0 -> sl_locked (b_lock r) = 0 /\
     (b_dev r = dev -> C !! b_blockno r = None /\
        (b_valid r <> 0 -> b_data r = blk D (b_blockno r)))) /\
  (b_refcnt r <> 0 -> b_dev r = dev /\ b_valid r <> 0 /\
     C !! b_blockno r = Some (b_data r, b_refcnt r) /\
     (if decide (b_blockno r ∈ H) then b_lock r = mksleeplock 1 pid else sl_locked (b_lock r) = 0)).

Record cache_rep (s : kstate) (C : gmap Z (list Z * Z)) (H : gset Z) : Prop := {
  rep_lru : exists L, lru (k_bufs s) L;
  rep_buf : forall b r, (b < NBUF)%nat -> k_bufs s !! b = Some r -> buf_ok (k_disk s) C H r;
  rep_uniq : forall b b' r r', (b < NBUF)%nat -> (b' < NBUF)%nat ->
    k_bufs s !! b = Some r -> k_bufs s !! b' = Some r' ->
    b_dev r = dev -> b_dev r' = dev -> b_blockno r = b_blockno r' -> b = b';
  rep_dom : forall n x, C !! n = Some x ->
    exists b r, (b < NBUF)%nat /\ k_bufs s !! b = Some r /\ b_refcnt r <> 0 /\ b_blockno r = n;
  rep_held : H ⊆ dom C
}.

(** The buffer of a block in use. *)
Definition buffer_of (s : kstate) (b : nat) (n : Z) : Prop :=
  (b < NBUF)%nat /\ exists r, k_bufs s !! b = Some r /\ b_refcnt r <> 0 /\ b_blockno r = n.

(** A change of the one buffer that holds, or now holds, block [n]. *)
Lemma rep_change s s' C C' H H' b r r' n :
  cache_rep s C H -> (b < NBUF)%nat -> k_bufs s !! b = Some r ->
  k_bufs s' = upd b (fun _ => r') (k_bufs s) -> b_prev r' = b_prev r -> b_next r' = b_next r ->
  b_dev r' = dev -> b_blockno r' = n ->
  (forall b2 r2, (b2 < NBUF)%nat -> b2 <> b -> k_bufs s !! b2 = Some r2 -> b_dev r2 = dev -> b_blockno r2 <> n) ->
  (b_refcnt r <> 0 -> b_blockno r = n) ->
  (forall m, m <> n -> C' !! m = C !! m /\ (m ∈ H' <-> m ∈ H) /\ blk (k_disk s') m = blk (k_disk s) m) ->
  buf_ok (k_disk s') C' H' r' -> (n ∈ H' -> is_Some (C' !! n)) ->
  cache_rep s' C' H'.
Proof.
  intros HR Hb Hr Hbufs Hpv Hnx Hdev Hn Hfresh Hold Hsame Hok Hheld.
  assert (Hother : forall b2 r2, (b2 < NBUF)%nat -> b2 <> b -> k_bufs s !! b2 = Some r2 ->
    buf_ok (k_disk s') C' H' r2).
  { intros b2 r2 Hb2 Hne Hr2; pose proof (rep_buf _ _ _ HR b2 r2 Hb2 Hr2) as (Hrc & H0 & H1).
    split; [done |]; split.
    - intros Hz; destruct (H0 Hz) as [Hl Hd]; split; [done |]; intros Hdv.
      destruct (Hsame (b_blockno r2)) as (HC & _ & HD); [by eapply Hfresh |].
      rewrite HC, HD; auto.
    - intros Hz; destruct (H1 Hz) as (Hdv & Hv & HC1 & HL).
      destruct (Hsame (b_blockno r2)) as (HC & HH & HD); [by eapply Hfresh |].
      rewrite HC; split_and!; try done.
      destruct (decide (b_blockno r2 ∈ H)), (decide (b_blockno r2 ∈ H')); naive_solver. }
  assert (Hlook : forall b2 r2, k_bufs s' !! b2 = Some r2 ->
    (b2 = b /\ r2 = r') \/ (b2 <> b /\ k_bufs s !! b2 = Some r2)).
  { intros b2 r2; rewrite Hbufs, upd_lookup; destruct (decide (b = b2)) as [<- |]; [| auto].
    rewrite Hr; simpl; naive_solver. }
  constructor.
  - destruct (rep_lru _ _ _ HR) as [L HL]; exists L; rewrite Hbufs; apply lru_upd; [| done].
    intros x Hx; split; congruence.
  - intros b2 r2 Hb2 [[-> ->] | [Hne Hr2]]%Hlook; eauto.
  - intros b1 b2 r1 r2 Hb1 Hb2 [[-> ->] | [Hne1 Hr1]]%Hlook [[-> ->] | [Hne2 Hr2]]%Hlook Hd1 Hd2 He; try done.
    + exfalso; eapply (Hfresh b2 r2); try done; congruence.
    + exfalso; eapply (Hfresh b1 r1); try done; congruence.
    + by eapply (rep_uniq _ _ _ HR b1 b2).
  - intros m x HC; destruct (decide (m = n)) as [-> | Hm].
    + exists b, r'; split; [done |]; split; [rewrite Hbufs; by erewrite upd_lookup_eq |].
      split; [| done]; intros Hz; destruct Hok as (_ & H0 & _); destruct (H0 Hz) as [_ Hd].
      destruct (Hd Hdev) as [Hnone _]; rewrite Hn in Hnone; congruence.
    + destruct (Hsame m Hm) as (HC' & _ & _); rewrite HC' in HC.
      destruct (rep_dom _ _ _ HR m x HC) as (b2 & r2 & Hb2 & Hr2 & Hz & Hm2).
      exists b2, r2; split; [done |]; split; [| done]; rewrite Hbufs, upd_lookup_ne; [done |].
      intros <-; rewrite Hr in Hr2; injection Hr2 as <-; specialize (Hold Hz); congruence.
  - intros m Hm; apply elem_of_dom; destruct (decide (m = n)) as [-> | Hne]; [auto |].
    destruct (Hsame m Hne) as (HC' & HH & _); rewrite HC'; apply elem_of_dom, (rep_held _ _ _ HR); by apply HH.
Qed.

(** The buffers of blocks stay theirs. *)
Definition keeps (s s' : kstate) : Prop := forall b n, buffer_of s b n -> buffer_of s' b n.

Lemma keeps_upd s s' b r r' :
  k_bufs s !! b = Some r -> k_bufs s' = upd b (fun _ => r') (k_bufs s) ->
  (b_refcnt r <> 0 -> b_refcnt r' <> 0 /\ b_blockno r' = b_blockno r) -> keeps s s'.
Proof.
  intros Hr Hs Hz b2 n (Hb2 & r2 & Hr2 & Hz2 & Hn2); split; [done |].
  rewrite Hs, upd_lookup; destruct (decide (b = b2)) as [<- |]; [| eauto].
  rewrite Hr in *; injection Hr2 as <-; destruct (Hz Hz2); exists r'; naive_solver.
Qed.

(** Other buffers do not hold a block that is in a buffer already. *)
Lemma rep_fresh s C H b r :
  cache_rep s C H -> (b < NBUF)%nat -> k_bufs s !! b = Some r -> b_dev r = dev ->
  forall b2 r2, (b2 < NBUF)%nat -> b2 <> b -> k_bufs s !! b2 = Some r2 -> b_dev r2 = dev ->
    b_blockno r2 <> b_blockno r.
Proof. intros HR Hb Hr Hd b2 r2 Hb2 Hne Hr2 Hd2 He; apply Hne; by eapply (rep_uniq _ _ _ HR b2 b). Qed.

(** Moving a buffer in the list changes nothing else. *)
Lemma rep_front s C H b :
  cache_rep s C H -> (b < NBUF)%nat -> cache_rep (s <| k_bufs ::= move_front b |>)%rec C H.
Proof.
  intros HR Hb; destruct (rep_lru _ _ _ HR) as [L HL].
  assert (Hin : b ∈ L) by (by eapply lru_elem).
  apply list_elem_of_split in Hin as (l1 & l2 & ->).
  assert (Hlook : forall b2 r2, move_front b (k_bufs s) !! b2 = Some r2 ->
    exists r, k_bufs s !! b2 = Some r /\ core r = core r2).
  { intros b2 r2 H2; pose proof (front_core b (k_bufs s)) as Hc.
    apply (f_equal (fun l => l !! b2)) in Hc; rewrite !list_lookup_fmap, H2 in Hc.
    destruct (k_bufs s !! b2) as [r |]; simpl in Hc; [| done]; exists r; split; [done | congruence]. }
  assert (Hback : forall b2 r2, k_bufs s !! b2 = Some r2 ->
    exists r, move_front b (k_bufs s) !! b2 = Some r /\ core r = core r2).
  { intros b2 r2 H2; pose proof (front_core b (k_bufs s)) as Hc.
    apply (f_equal (fun l => l !! b2)) in Hc; rewrite !list_lookup_fmap, H2 in Hc.
    destruct (move_front b (k_bufs s) !! b2) as [r |]; simpl in Hc; [| done]; exists r; split; [done | congruence]. }
  assert (Hcore : forall x y, core x = core y -> b_refcnt x = b_refcnt y /\ b_dev x = b_dev y /\
    b_blockno x = b_blockno y /\ b_valid x = b_valid y /\ b_data x = b_data y /\ b_lock x = b_lock y).
  { intros x y E; repeat split; [by apply (f_equal b_refcnt) in E | by apply (f_equal b_dev) in E
    | by apply (f_equal b_blockno) in E | by apply (f_equal b_valid) in E
    | by apply (f_equal b_data) in E | by apply (f_equal b_lock) in E]. }
  constructor; simpl.
  - exists (b :: l1 ++ l2); by apply front_lru.
  - intros b2 r2 Hb2 (r & Hr & (E1 & E2 & E3 & E4 & E5 & E6)%Hcore)%Hlook.
    pose proof (rep_buf _ _ _ HR b2 r Hb2 Hr) as Hok; unfold buf_ok in *.
    rewrite <- E1, <- E2, <- E3, <- E4, <- E5, <- E6; done.
  - intros b1 b2 r1 r2 Hb1 Hb2 (x & Hx & (E1 & E2 & E3 & _)%Hcore)%Hlook
      (y & Hy & (F1 & F2 & F3 & _)%Hcore)%Hlook Hd1 Hd2 He.
    eapply (rep_uniq _ _ _ HR b1 b2); eauto; congruence.
  - intros n x HC; destruct (rep_dom _ _ _ HR n x HC) as (b2 & r2 & Hb2 & Hr2 & Hz & Hn).
    destruct (Hback b2 r2 Hr2) as (r & Hr & (E1 & E2 & E3 & _)%Hcore).
    exists b2, r; split_and!; try done; congruence.
  - exact (rep_held _ _ _ HR).
Qed.

(** ** The running process, alone *)

Context (p : nat).

Definition env (s : kstate) : Prop :=
  k_cur s = Some p /\ k_locks s = [] /\ procs_ok s /\
  exists pr, k_procs s !! p = Some pr /\ p_pid pr = pid.

(** Only the cache, the disk and which other processes sleep may differ. *)
Definition only_cache (s s' : kstate) : Prop :=
  exists bufs disk procs, procs !! p = k_procs s !! p /\
    s' = (s <| k_bufs := bufs |> <| k_disk := disk |> <| k_procs := procs |>)%rec.

Lemma only_cache_refl s : only_cache s s.
Proof. exists (k_bufs s), (k_disk s), (k_procs s); destruct s; done. Qed.

Lemma only_cache_trans s1 s2 s3 : only_cache s1 s2 -> only_cache s2 s3 -> only_cache s1 s3.
Proof.
  intros (? & ? & ? & H1 & ->) (bufs & disk & procs & H2 & ->); exists bufs, disk, procs; split; [| reflexivity].
  by rewrite <- H1.
Qed.

Lemma only_cache_bufs f s : only_cache s (s <| k_bufs ::= f |>)%rec.
Proof. exists (f (k_bufs s)), (k_disk s), (k_procs s); destruct s; done. Qed.

Lemma wake_keeps ch s :
  env s -> env (s <| k_procs ::= imap (wake1 (Some p) ch) |>)%rec.
Proof.
  intros (Hc & Hl & Hok & pr & Hpr & Hpid); split_and!; try done.
  - unfold procs_ok; simpl; by rewrite length_imap.
  - exists pr; simpl; rewrite list_lookup_imap, Hpr; simpl; split; [| done].
    unfold wake1; rewrite bool_decide_eq_true_2 by done; done.
Qed.

Lemma slget_ok b r s o : k_bufs s !! b = Some r -> slget (SlBuf b) s o = Ok (b_lock r) s o.
Proof. intros Hr; unfold slget; rewrite gets_bind, Hr; done. Qed.

Lemma acquiresleep_run b r s o :
  env s -> k_bufs s !! b = Some r -> sl_locked (b_lock r) = 0 ->
  acquiresleep (SlBuf b) s o =
  Ok tt (s <| k_bufs ::= upd b (fun x => x <| b_lock := mksleeplock 1 pid |>) |>)%rec o.
Proof.
  intros (Hc & Hl & Hok & pr & Hpr & Hpid) Hr Hlk; unfold acquiresleep.
  erewrite bind_ok by (apply acquire_ok; rewrite Hl; set_solver).
  erewrite bind_ok; [| apply ksleeploop_ret; erewrite bind_ok by (by apply slget_ok); rewrite Hlk; done].
  step_with curproc_ok; step_with pget_ok; unfold slset; rewrite modify_bind.
  rewrite release_ok by (simpl; set_solver).
  subst pid; f_equal; destruct s; state_norm; simpl in *; subst; rewrite decide_True by done; done.
Qed.

Lemma releasesleep_run b s o :
  env s ->
  releasesleep (SlBuf b) s o =
  Ok tt (s <| k_bufs ::= upd b (fun x => x <| b_lock := mksleeplock 0 0 |>) |>
           <| k_procs ::= imap (wake1 (Some p) (ChSleep (SlBuf b))) |>)%rec o.
Proof.
  intros (Hc & Hl & Hok & pr & Hpr & Hpid); unfold releasesleep.
  erewrite bind_ok by (apply acquire_ok; rewrite Hl; set_solver).
  unfold slset; rewrite modify_bind.
  erewrite bind_ok; [| apply wakeup_run; [done |]; intros i; simpl; rewrite Hl; set_solver].
  rewrite release_ok by (simpl; set_solver).
  f_equal; destruct s; state_norm; simpl in *; subst; rewrite decide_True by done; done.
Qed.

Lemma holdingsleep_run b r s o :
  env s -> k_bufs s !! b = Some r -> b_lock r = mksleeplock 1 pid ->
  holdingsleep (SlBuf b) s o = Ok true s o.
Proof.
  intros (Hc & Hl & Hok & pr & Hpr & Hpid) Hr Hlk; unfold holdingsleep.
  erewrite bind_ok by (apply acquire_ok; rewrite Hl; set_solver).
  erewrite bind_ok by (by apply slget_ok).
  step_with curproc_ok; step_with pget_ok; step_with release_ok; rewrite ret_ok, lock_unlock.
  rewrite Hlk, Hpid; simpl; rewrite Z.eqb_refl; done.
Qed.

(** ** bget *)

(** What bget does to the buffer it returns: one more reference to the block's
    buffer, or a free buffer taken over; either way locked. *)
Definition bget_hit (r : buf) : buf :=
  (r <| b_refcnt := u32 (b_refcnt r + 1) |> <| b_lock := mksleeplock 1 pid |>)%rec.
Definition bget_miss (n : Z) (r : buf) : buf :=
  (r <| b_dev := dev |> <| b_blockno := n |> <| b_valid := 0 |> <| b_refcnt := 1 |>
     <| b_lock := mksleeplock 1 pid |>)%rec.

Definition holds (n : Z) (r : buf) : bool := (b_dev r =? dev) && (b_blockno r =? n).

(** A list splits at the first element that passes a test, or has none. *)
Lemma first_split (bufs : list buf) (test : buf -> bool) (l : list nat) :
  (forall b, b ∈ l -> is_Some (bufs !! b)) ->
  (exists l1 b r l2, l = l1 ++ b :: l2 /\ bufs !! b = Some r /\ test r = true /\
     Forall (fun x => exists y, bufs !! x = Some y /\ test y = false) l1) \/
  Forall (fun x => exists y, bufs !! x = Some y /\ test y = false) l.
Proof.
  induction l as [| b l IH]; intros Hs; [by right |].
  destruct (Hs b) as [r Hr]; [set_solver |]; destruct (test r) eqn:Ht.
  { left; exists [], b, r, l; auto. }
  destruct IH as [(l1 & b' & r' & l2 & -> & Hr' & Ht' & Hall) | Hall]; [set_solver | left | right].
  - exists (b :: l1), b', r', l2; split_and!; try done; constructor; eauto.
  - constructor; eauto.
Qed.

Lemma found_run {St R} b r (f : buf -> buf) (v : R) s o :
  env s -> (b < NBUF)%nat -> k_bufs s !! b = Some r -> sl_locked (b_lock (f r)) = 0 ->
  (bufset b f ;; release LBcache ;; acquiresleep (SlBuf b) ;; mret (inr v : St + R))
    (s <| k_locks := [LBcache] |>)%rec o =
  Ok (inr v) (s <| k_bufs ::= upd b (fun _ => (f r) <| b_lock := mksleeplock 1 pid |>) |>)%rec o.
Proof.
  intros He Hb Hr Hl; erewrite bufset_bind by exact Hr.
  step_with release_ok.
  assert (Hs : forall t, (t <| k_locks := [LBcache] |> <| k_bufs ::= upd b f |>
    <| k_locks ::= remove_lock LBcache |> = t <| k_bufs ::= upd b f |> <| k_locks := [] |>)%rec).
  { intros t; state_eq. }
  rewrite Hs; clear Hs.
  replace (s <| k_bufs ::= upd b f |> <| k_locks := [] |>)%rec with (s <| k_bufs ::= upd b f |>)%rec.
  2:{ destruct He as (_ & Hlk & _); destruct s; simpl in *; by subst. }
  erewrite bind_ok; [| eapply acquiresleep_run; [| simpl; by apply upd_lookup_eq | done]].
  - rewrite ret_ok; f_equal; destruct s; state_norm; simpl in *; rewrite upd_upd.
    by rewrite (upd_const _ _ _ r).
  - destruct He as (? & ? & ? & ?); done.
Qed.

Lemma bufset_bufset {A} b r f g (m : unit -> K A) s o :
  k_bufs s !! b = Some r ->
  (bufset b f ≫= fun _ => bufset b g ≫= m) s o = (bufset b (fun x => g (f x)) ≫= m) s o.
Proof.
  intros Hr; erewrite !bufset_bind; [| exact Hr | simpl; by apply upd_lookup_eq | exact Hr].
  f_equal; destruct s; state_norm; by rewrite upd_upd.
Qed.

(** Some buffer is free when fewer than NBUF blocks are in use. *)
Lemma rep_free s C H :
  cache_rep s C H -> (size C < NBUF)%nat ->
  exists b r, (b < NBUF)%nat /\ k_bufs s !! b = Some r /\ b_refcnt r = 0.
Proof.
  intros HR Hsz; destruct (rep_lru _ _ _ HR) as [L HL].
  assert (Hs : forall b, (b < NBUF)%nat -> is_Some (k_bufs s !! b)) by (intros; eapply lru_lookup; [done | lia]).
  destruct (first_split (k_bufs s) (fun r => b_refcnt r =? 0) (seq 0 NBUF)) as
    [(l1 & b & r & l2 & Hl & Hr & Ht & _) | Hall].
  { intros b Hb; apply Hs; apply elem_of_seq in Hb; lia. }
  { exists b, r; split; [| split; [done | lia]].
    assert (b ∈ seq 0 NBUF) as Hb by (rewrite Hl; set_solver); apply elem_of_seq in Hb; lia. }
  exfalso; rewrite Forall_forall in Hall.
  set (key := fun b => default 0 (b_blockno <$> k_bufs s !! b)).
  assert (Hsub : list_to_set (key <$> seq 0 NBUF) ⊆ dom C).
  { intros n Hn; apply elem_of_list_to_set, list_elem_of_fmap in Hn as (b & -> & Hb).
    destruct (Hall b Hb) as (r & Hr & Ht); apply elem_of_seq in Hb; unfold key; rewrite Hr; simpl.
    destruct (rep_buf _ _ _ HR b r) as (_ & _ & H1); [lia | done |]; destruct H1 as (_ & _ & HC & _); [lia |].
    by eapply elem_of_dom_2. }
  apply subseteq_size in Hsub; rewrite size_dom, size_list_to_set, length_fmap, length_seq in Hsub; [lia |].
  apply NoDup_fmap_2_strong; [| apply NoDup_seq]; intros x y Hx Hy E.
  destruct (Hall x Hx) as (rx & Hrx & Hnx), (Hall y Hy) as (ry & Hry & Hny).
  apply elem_of_seq in Hx, Hy; unfold key in E; rewrite Hrx, Hry in E; simpl in E.
  destruct (rep_buf _ _ _ HR x rx) as (_ & _ & H1); [lia | done |]; destruct H1 as (Hdx & _); [lia |].
  destruct (rep_buf _ _ _ HR y ry) as (_ & _ & H2); [lia | done |]; destruct H2 as (Hdy & _); [lia |].
  eapply (rep_uniq _ _ _ HR x y); eauto; lia.
Qed.

Lemma bget_run n s o C H :
  env s -> cache_rep s C H -> n ∉ H -> (C !! n = None -> (size C < NBUF)%nat) ->
  exists b r, (b < NBUF)%nat /\ k_bufs s !! b = Some r /\
    ((holds n r = true /\
      bget dev n s o = Ok b (s <| k_bufs ::= upd b (fun _ => bget_hit r) |>)%rec o) \/
     ((forall b2 r2, (b2 < NBUF)%nat -> k_bufs s !! b2 = Some r2 -> holds n r2 = false) /\
      b_refcnt r = 0 /\
      bget dev n s o = Ok b (s <| k_bufs ::= upd b (fun _ => bget_miss n r) |>)%rec o)).
Proof.
  intros He HR Hn Hsz; destruct (rep_lru _ _ _ HR) as [L HL].
  assert (Hlk : k_locks s = []) by apply He.
  assert (Hs1 : (s <| k_locks ::= cons LBcache |> = s <| k_locks := [LBcache] |>)%rec)
    by (destruct s; simpl in *; by subst).
  assert (HsL : forall b, b ∈ L -> is_Some (k_bufs s !! b))
    by (intros b Hb; apply (lru_elem _ _ _ HL) in Hb; eapply lru_lookup; [done | lia]).
  assert (HinL : forall b, b ∈ L -> (b < NBUF)%nat) by (intros b; apply (lru_elem _ _ _ HL)).
  assert (HlenL : length L = NBUF) by (destruct HL as (_ & Hp & _); by rewrite Hp, length_seq).
  destruct (lru_lookup _ _ bhead HL) as [h Hh]; [done |].
  pose proof HL as (_ & _ & Hnext & Hprev).
  assert (Hst : forall b, (b < NBUF)%nat -> b <> bhead) by (unfold bhead; lia).
  assert (Hfree : forall b r, (b < NBUF)%nat -> k_bufs s !! b = Some r ->
    holds n r = true \/ b_refcnt r = 0 -> sl_locked (b_lock r) = 0).
  { intros b r Hb Hr Hor; destruct (rep_buf _ _ _ HR b r Hb Hr) as (_ & H0 & H1).
    destruct (Z.eq_dec (b_refcnt r) 0) as [Hz | Hz]; [by apply H0 |].
    destruct Hor as [Hho | ?]; [| done]; unfold holds in Hho; bools.
    destruct (H1 Hz) as (_ & _ & _ & Hl); rewrite decide_False in Hl by congruence; done. }
  unfold bget; erewrite bind_ok by (apply acquire_ok; rewrite Hlk; set_solver); rewrite Hs1.
  erewrite bind_ok by (apply bufget_ok; exact Hh).
  replace (b_next h) with (hd bhead L) by (rewrite (nextf_of _ _ _ Hh); symmetry; by apply chain_head).
  change (N.of_nat NBUF + 1)%N with (N.of_nat (S NBUF)).
  destruct (first_split (k_bufs s) (holds n) L HsL) as [(l1 & b & r & l2 & -> & Hr & Ht & Hall) | Hall].
  - exists b, r; assert (Hb : (b < NBUF)%nat) by (apply HinL; set_solver).
    split; [done |]; split; [done |]; left; split; [done |].
    set (found := fun b => bufset b (fun r => (r <| b_refcnt := u32 (b_refcnt r + 1) |>)%rec) ;;
      release LBcache ;; acquiresleep (SlBuf b) ;; mret (inr (Some b) : nat + option nat)).
    assert (Hloop : kloop (N.of_nat (S NBUF)) (walk_body b_next (holds n) found (mret (inr None)))
      (hd bhead (l1 ++ b :: l2)) (s <| k_locks := [LBcache] |>)%rec o =
      Ok (Some b) (s <| k_bufs ::= upd b (fun _ => bget_hit r) |>)%rec o).
    { eapply (walk_found _ _ _ _ bhead l1 b r l2); [exact Hnext | | by apply Hst | exact Hr | exact Ht | |].
      - apply Forall_forall; intros x Hx; rewrite Forall_forall in Hall; split; [apply Hst, HinL; set_solver |].
        exact (Hall x Hx).
      - rewrite <- HlenL, length_app; lia.
      - unfold found; erewrite found_run; [reflexivity | done | done | exact Hr |].
        simpl; eapply Hfree; eauto. }
    erewrite bind_ok by exact Hloop; done.
  - destruct (C !! n) as [x |] eqn:EC.
    { exfalso; destruct (rep_dom _ _ _ HR n x EC) as (b & r & Hb & Hr & Hz & Hbn).
      rewrite Forall_forall in Hall; destruct (Hall b) as (y & Hy & Hty); [by apply (lru_elem _ _ _ HL) |].
      destruct (rep_buf _ _ _ HR b r Hb Hr) as (_ & _ & H1); destruct (H1 Hz) as (Hd & _).
      rewrite Hr in Hy; injection Hy as <-; unfold holds in Hty; lia. }
    assert (Hmiss : forall b2 r2, (b2 < NBUF)%nat -> k_bufs s !! b2 = Some r2 -> holds n r2 = false).
    { intros b2 r2 Hb2 Hr2; rewrite Forall_forall in Hall.
      destruct (Hall b2) as (y & Hy & Hty); [by apply (lru_elem _ _ _ HL) | congruence]. }
    set (found1 := fun b => bufset b (fun r => (r <| b_refcnt := u32 (b_refcnt r + 1) |>)%rec) ;;
      release LBcache ;; acquiresleep (SlBuf b) ;; mret (inr (Some b) : nat + option nat)).
    assert (Hloop : kloop (N.of_nat (S NBUF)) (walk_body b_next (holds n) found1 (mret (inr None)))
      (hd bhead L) (s <| k_locks := [LBcache] |>)%rec o = Ok None (s <| k_locks := [LBcache] |>)%rec o).
    { eapply (walk_none _ _ _ _ bhead L); [exact Hnext | | rewrite HlenL; lia | done].
      apply Forall_forall; intros x Hx; rewrite Forall_forall in Hall; split; [by apply Hst, HinL |].
      exact (Hall x Hx). }
    erewrite bind_ok by exact Hloop; cbv iota; erewrite bind_ok by (apply bufget_ok; exact Hh).
    replace (b_prev h) with (hd bhead (rev L)) by (rewrite (prevf_of _ _ _ Hh); symmetry; by apply chain_head).
    destruct (first_split (k_bufs s) (fun r => b_refcnt r =? 0) (rev L)) as
      [(l1 & b & r & l2 & Hl & Hr & Ht & Hall2) | Hall2].
    { intros b Hb; apply HsL; by rewrite <- Permutation_rev in Hb. }
    + assert (Hrev : forall x, x ∈ rev L -> (x < NBUF)%nat)
        by (intros x Hx; apply HinL; by rewrite <- Permutation_rev in Hx).
      assert (Hb : (b < NBUF)%nat) by (apply Hrev; rewrite Hl; set_solver).
      exists b, r; split; [done |]; split; [done |]; right; split; [done |]; split; [lia |].
      set (found := fun b => bufset b (fun r => (r <| b_dev := dev |>)%rec) ;;
        bufset b (fun r => (r <| b_blockno := n |>)%rec) ;; bufset b (fun r => (r <| b_valid := 0 |>)%rec) ;;
        bufset b (fun r => (r <| b_refcnt := 1 |>)%rec) ;; release LBcache ;; acquiresleep (SlBuf b) ;;
        mret (inr b : nat + nat)).
      assert (Hw : kloop (N.of_nat (S NBUF)) (walk_body b_prev (fun r => b_refcnt r =? 0) found
        (panic "bget: no buffers")) (hd bhead (rev L)) (s <| k_locks := [LBcache] |>)%rec o =
        Ok b (s <| k_bufs ::= upd b (fun _ => bget_miss n r) |>)%rec o); [| exact Hw].
      rewrite Hl in *.
      eapply (walk_found _ _ _ _ bhead l1 b r l2); [exact Hprev | | by apply Hst | exact Hr | exact Ht | |].
      * apply Forall_forall; intros x Hx; rewrite Forall_forall in Hall2; split; [apply Hst, Hrev; set_solver |].
        exact (Hall2 x Hx).
      * apply (f_equal length) in Hl; rewrite length_rev, length_app in Hl; simpl in Hl; lia.
      * unfold found; rewrite !(bufset_bufset _ r) by exact Hr; erewrite found_run; [reflexivity | done | done | exact Hr |].
        simpl; apply (Hfree b r); auto; lia.
    + exfalso; destruct (rep_free s C H HR (Hsz eq_refl)) as (b & r & Hb & Hr & Hz).
      rewrite Forall_forall in Hall2; destruct (Hall2 b) as (y & Hy & Hty).
      { rewrite <- Permutation_rev; by apply (lru_elem _ _ _ HL). }
      rewrite Hr in Hy; injection Hy as <-; lia.
Qed.

(** ** bread, bwrite, brelse, bpin and bunpin on the map *)

Section Ops.
Context (stop : kstate -> bool).
#[local] Instance dsk : BlockDevice := crash_disk stop.

Lemma env_bufs f s : env s -> env (s <| k_bufs ::= f |>)%rec.
Proof. done. Qed.

(** The block read by bread, and the references to it afterwards. *)
Definition read_entry (s : kstate) (C : gmap Z (list Z * Z)) (n : Z) : list Z * Z :=
  match C !! n with Some (d, k) => (d, k + 1) | None => (blk (k_disk s) n, 1) end.

Definition filled (D : gmap Z (list Z)) (r : buf) : buf :=
  if b_valid r =? 0 then (r <| b_data := blk D (b_blockno r) |> <| b_valid := 1 |>)%rec else r.

Lemma read_valid b r s o :
  k_bufs s !! b = Some r ->
  (kwhen (b_valid r =? 0)
    (virtio_disk_rw b false ;; bufset b (fun r => (r <| b_valid := 1 |>)%rec)) ;;
   mret b) s o = Ok b (s <| k_bufs ::= upd b (fun _ => filled (k_disk s) r) |>)%rec o.
Proof.
  intros Hr; unfold filled; destruct (b_valid r =? 0); cbn [kwhen].
  - unfold virtio_disk_rw, dsk, crash_disk; rewrite bind_assoc, bind_assoc.
    erewrite bind_ok by (by apply bufget_ok); rewrite bind_assoc, gets_bind.
    erewrite bufset_bind by exact Hr; erewrite bufset_bind by (simpl; by apply upd_lookup_eq).
    rewrite ret_ok; f_equal; destruct s; state_norm; simpl in *; rewrite upd_upd.
    by rewrite (upd_const _ _ _ r).
  - erewrite bind_ok by apply ret_ok; rewrite ret_ok; f_equal; destruct s; state_norm; simpl in *.
    rewrite upd_id; [done |]; congruence.
Qed.

Lemma bread_spec n s o C H :
  env s -> cache_rep s C H -> n ∉ H ->
  (C !! n = None -> (size C < NBUF)%nat) -> (forall d k, C !! n = Some (d, k) -> k + 1 < 2 ^ 32) ->
  exists b s', bread dev n s o = Ok b s' o /\
    env s' /\ only_cache s s' /\ k_disk s' = k_disk s /\
    cache_rep s' (<[n := read_entry s C n]> C) ({[n]} ∪ H) /\ buffer_of s' b n /\ keeps s s'.
Proof.
  intros He HR Hn Hsz Hk; unfold bread.
  destruct (bget_run n s o C H He HR Hn Hsz) as (b & r & Hb & Hr & Hcase).
  assert (Hlook : forall x, upd b (fun _ : buf => x) (k_bufs s) !! b = Some x)
    by (intros; by erewrite upd_lookup_eq).
  assert (Hgo : forall r1, bget dev n s o = Ok b (s <| k_bufs ::= upd b (fun _ => r1) |>)%rec o ->
    b_prev r1 = b_prev r -> b_next r1 = b_next r -> b_dev r1 = dev -> b_blockno r1 = n ->
    (b_refcnt r <> 0 -> b_blockno r = n) ->
    (forall b2 r2, (b2 < NBUF)%nat -> b2 <> b -> k_bufs s !! b2 = Some r2 -> b_dev r2 = dev -> b_blockno r2 <> n) ->
    b_lock r1 = mksleeplock 1 pid -> 0 < b_refcnt r1 < 2 ^ 32 ->
    read_entry s C n = (b_data (filled (k_disk s) r1), b_refcnt r1) ->
    exists b s', (bget dev n ≫= fun b => r ← bufget b;
      kwhen (b_valid r =? 0)
        (virtio_disk_rw b false ;; bufset b (fun r => (r <| b_valid := 1 |>)%rec)) ;;
      mret b) s o = Ok b s' o /\
      env s' /\ only_cache s s' /\ k_disk s' = k_disk s /\
      cache_rep s' (<[n := read_entry s C n]> C) ({[n]} ∪ H) /\ buffer_of s' b n /\ keeps s s').
  { intros r1 Hg Hpv Hnx Hdv Hbn Hold Hfr Hlk Hrc Hent.
    set (r2 := filled (k_disk s) r1).
    assert (H2 : b_prev r2 = b_prev r /\ b_next r2 = b_next r /\ b_dev r2 = dev /\ b_blockno r2 = n /\
      b_refcnt r2 = b_refcnt r1 /\ b_lock r2 = b_lock r1 /\ b_valid r2 <> 0).
    { unfold r2, filled; destruct (Z.eqb_spec (b_valid r1) 0); simpl; split_and!; done. }
    destruct H2 as (P1 & P2 & P3 & P4 & P5 & P6 & P7).
    exists b, (s <| k_bufs ::= upd b (fun _ => r2) |>)%rec.
    erewrite bind_ok by exact Hg; erewrite bind_ok by (apply bufget_ok; simpl; apply Hlook).
    rewrite read_valid by (simpl; apply Hlook); split_and!.
    - f_equal; destruct s; state_norm; simpl in *; rewrite upd_upd; done.
    - done.
    - apply only_cache_bufs.
    - done.
    - eapply (rep_change s _ C _ H _ b r r2 n); try done.
      + intros m Hm; rewrite lookup_insert_ne by done; set_solver.
      + split; [lia |]; split; [lia |]; intros _; split_and!; try done.
        * rewrite P4, lookup_insert_eq, Hent; fold r2; by rewrite P5.
        * rewrite decide_True by set_solver; congruence.
      + rewrite lookup_insert_eq; eauto.
    - split; [done |]; exists r2; simpl; rewrite Hlook; split_and!; try done; lia.
    - eapply keeps_upd; [exact Hr | done |]; intros Hz; split; [lia |]; rewrite P4; symmetry; auto. }
  destruct (rep_buf _ _ _ HR b r Hb Hr) as (Hrc & H0 & H1).
  destruct Hcase as [[Hho Hg] | (Hmiss & Hz & Hg)].
  - unfold holds in Hho; apply andb_true_iff in Hho as [Hd1%Z.eqb_eq Hn1%Z.eqb_eq].
    apply (Hgo (bget_hit r) Hg); try done.
    + intros b2 r2 Hb2 Hne Hr2 Hd2; rewrite <- Hn1.
      exact (rep_fresh s C H b r HR Hb Hr Hd1 b2 r2 Hb2 Hne Hr2 Hd2).
    + simpl; destruct (Z.eq_dec (b_refcnt r) 0) as [Hz | Hz]; [rewrite Hz; rewrite u32_small; lia |].
      destruct (H1 Hz) as (_ & _ & HC & _); specialize (Hk (b_data r) (b_refcnt r)).
      rewrite u32_small; subst n; specialize (Hk HC); lia.
    + unfold read_entry; destruct (Z.eq_dec (b_refcnt r) 0) as [Hz | Hz].
      * destruct (H0 Hz) as [_ Hd]; destruct (Hd ltac:(done)) as [HC Hv]; subst n; rewrite HC.
        unfold filled; simpl; rewrite Hz; destruct (Z.eqb_spec (b_valid r) 0); simpl; [done |].
        f_equal; symmetry; by apply Hv.
      * destruct (H1 Hz) as (_ & Hv & HC & _); specialize (Hk (b_data r) (b_refcnt r)).
        subst n; rewrite HC; specialize (Hk HC); unfold filled; simpl.
        destruct (Z.eqb_spec (b_valid r) 0); [done |]; simpl; f_equal; rewrite u32_small; lia.
  - apply (Hgo (bget_miss n r) Hg); try done.
    + intros b2 r2 Hb2 Hne Hr2 Hd2; specialize (Hmiss b2 r2 Hb2 Hr2); unfold holds in Hmiss; lia.
    + unfold read_entry; destruct (C !! n) as [[d k] |] eqn:EC; [| done].
      exfalso; destruct (rep_dom _ _ _ HR n _ EC) as (b2 & r2 & Hb2 & Hr2 & Hz2 & Hn2).
      destruct (rep_buf _ _ _ HR b2 r2 Hb2 Hr2) as (_ & _ & G); destruct (G Hz2) as (Hd2 & _).
      specialize (Hmiss b2 r2 Hb2 Hr2); unfold holds in Hmiss; lia.
Qed.

(** The buffer of a block in use. *)
Lemma buffer_facts s C H b n d k :
  cache_rep s C H -> buffer_of s b n -> C !! n = Some (d, k) ->
  exists r, (b < NBUF)%nat /\ k_bufs s !! b = Some r /\ b_dev r = dev /\ b_blockno r = n /\ b_data r = d /\
    b_refcnt r = k /\ b_valid r <> 0 /\ 0 < k < 2 ^ 32 /\
    (n ∈ H -> b_lock r = mksleeplock 1 pid) /\ (n ∉ H -> sl_locked (b_lock r) = 0).
Proof.
  intros HR (Hb & r & Hr & Hz & Hn) HC; exists r.
  destruct (rep_buf _ _ _ HR b r Hb Hr) as (Hrc & _ & H1); destruct (H1 Hz) as (Hd & Hv & HC' & Hl).
  rewrite Hn in HC', Hl; rewrite HC in HC'; injection HC' as -> ->.
  split_and!; try done; try lia; intros; [rewrite decide_True in Hl | rewrite decide_False in Hl]; done.
Qed.

(** One buffer of a block in use changes: its contents, its reference count
    (not to 0), its lock. *)
Lemma rep_update s s' C H H' b n d k r r' :
  cache_rep s C H -> buffer_of s b n -> C !! n = Some (d, k) -> k_bufs s !! b = Some r ->
  k_bufs s' = upd b (fun _ => r') (k_bufs s) ->
  b_prev r' = b_prev r -> b_next r' = b_next r -> b_dev r' = b_dev r -> b_blockno r' = b_blockno r ->
  b_valid r' = b_valid r -> 0 < b_refcnt r' < 2 ^ 32 ->
  (forall m, m <> n -> (m ∈ H' <-> m ∈ H) /\ blk (k_disk s') m = blk (k_disk s) m) ->
  (if decide (n ∈ H') then b_lock r' = mksleeplock 1 pid else sl_locked (b_lock r') = 0) ->
  cache_rep s' (<[n := (b_data r', b_refcnt r')]> C) H'.
Proof.
  intros HR Hbuf HC Hr Hbufs Hp Hn Hd Hbn Hv Hrc Hsame Hl.
  destruct (buffer_facts _ _ _ _ _ _ _ HR Hbuf HC) as (x & Hb & Hx & Xd & Xn & _ & _ & Xv & _ & _).
  rewrite Hr in Hx; injection Hx as <-.
  eapply (rep_change s s' C _ H H' b r r' n); try done; try congruence.
  - rewrite <- Xn; exact (rep_fresh s C H b r HR Hb Hr Xd).
  - intros m Hm; rewrite lookup_insert_ne by done; split; [done |]; by apply Hsame.
  - assert (Hbn' : b_blockno r' = n) by congruence.
    split; [lia |]; split; [lia |]; intros _; rewrite Hbn'; split_and!; try congruence.
    by rewrite lookup_insert_eq.
  - intros _; rewrite lookup_insert_eq; eauto.
Qed.

Lemma bdata_spec s C H b n d k o :
  cache_rep s C H -> buffer_of s b n -> C !! n = Some (d, k) -> bdata b s o = Ok d s o.
Proof.
  intros HR Hbuf HC; destruct (buffer_facts _ _ _ _ _ _ _ HR Hbuf HC) as (r & _ & Hr & _ & _ & Hd & _).
  unfold bdata; erewrite bind_ok by (by apply bufget_ok); by rewrite ret_ok, Hd.
Qed.

Lemma bdata_set_spec s C H b n d k f o :
  env s -> cache_rep s C H -> buffer_of s b n -> C !! n = Some (d, k) ->
  exists s', bdata_set b f s o = Ok tt s' o /\ env s' /\ only_cache s s' /\ k_disk s' = k_disk s /\
    cache_rep s' (<[n := (f d, k)]> C) H /\ keeps s s'.
Proof.
  intros He HR Hbuf HC; destruct (buffer_facts _ _ _ _ _ _ _ HR Hbuf HC)
    as (r & Hb & Hr & Hd & Hn & Hdt & Hk & Hv & Hrc & Hl1 & Hl2).
  exists (s <| k_bufs ::= upd b (fun _ => r <| b_data ::= f |>) |>)%rec.
  unfold bdata_set; erewrite bufset_ok by exact Hr; split_and!.
  - f_equal; destruct s; state_norm; simpl in *; by rewrite (upd_const _ _ _ r).
  - done.
  - apply only_cache_bufs.
  - done.
  - replace (f d, k) with (b_data (r <| b_data ::= f |>)%rec, b_refcnt (r <| b_data ::= f |>)%rec)
      by (simpl; congruence).
    eapply rep_update; try done; [simpl; lia |]; case_decide; simpl; auto.
  - eapply keeps_upd; [exact Hr | done |]; done.
Qed.

(** bwrite of a held buffer: the machine stops here, or the disk has the block. *)
Lemma bwrite_spec s C H b n d k o :
  env s -> cache_rep s C H -> buffer_of s b n -> n ∈ H -> C !! n = Some (d, k) ->
  let s' := (s <| k_disk ::= <[n := d]> |>)%rec in
  bwrite b s o = (if stop s then Blocked s else Ok tt s' o) /\
  env s' /\ cache_rep s' C H /\ keeps s s'.
Proof.
  intros He HR Hbuf Hn HC s'; destruct (buffer_facts _ _ _ _ _ _ _ HR Hbuf HC)
    as (r & Hb & Hr & Hd & Hbn & Hdt & Hk & Hv & Hrc & Hl1 & Hl2).
  split.
  { unfold bwrite; erewrite bind_ok by (eapply holdingsleep_run; [done | exact Hr | auto]); cbn [negb].
    unfold virtio_disk_rw, dsk, crash_disk; erewrite bind_ok by (by apply bufget_ok).
    unfold crash_write; rewrite Hbn, Hdt; done. }
  split; [done |]; split.
  - assert (HR' : cache_rep s' (<[n := (b_data r, b_refcnt r)]> C) H).
    { eapply (rep_update s s' C H H b n d k r r); try done; try lia.
      - simpl; symmetry; apply upd_id; congruence.
      - intros m Hm; split; [done |]; unfold blk; simpl; by rewrite lookup_insert_ne.
      - case_decide; auto. }
    rewrite insert_id in HR'; congruence.
  - intros b2 m Hm; exact Hm.
Qed.

(** What is left of a block's entry when a reference is dropped. *)
Definition drop_ref (C : gmap Z (list Z * Z)) (n : Z) : gmap Z (list Z * Z) :=
  match C !! n with
  | Some (d, k) => if k =? 1 then delete n C else <[n := (d, k - 1)]> C
  | None => C
  end.

(** Dropping the last reference: the buffer must hold what the disk holds. *)
Lemma rep_drop s s' C H H' b n d r r' :
  cache_rep s C H -> buffer_of s b n -> C !! n = Some (d, 1) -> k_bufs s !! b = Some r ->
  k_bufs s' = upd b (fun _ => r') (k_bufs s) -> k_disk s' = k_disk s ->
  b_prev r' = b_prev r -> b_next r' = b_next r -> b_dev r' = b_dev r -> b_blockno r' = b_blockno r ->
  b_data r' = b_data r -> b_refcnt r' = 0 -> sl_locked (b_lock r') = 0 ->
  H' = H ∖ {[n]} -> d = blk (k_disk s) n ->
  cache_rep s' (delete n C) H'.
Proof.
  intros HR Hbuf HC Hr Hbufs Hdisk Hp Hn Hd Hbn Hdt Hrc Hl HH Hclean.
  destruct (buffer_facts _ _ _ _ _ _ _ HR Hbuf HC) as (x & Hb & Hx & Xd & Xn & Xdt & Xk & Xv & _ & _).
  rewrite Hr in Hx; injection Hx as <-; subst H'.
  eapply (rep_change s s' C _ H _ b r r' n); try done; try congruence.
  - rewrite <- Xn; exact (rep_fresh s C H b r HR Hb Hr Xd).
  - intros m Hm; rewrite lookup_delete_ne by done; rewrite Hdisk; set_solver.
  - split; [lia |]; split; [| lia]; intros _; split; [done |]; intros _.
    replace (b_blockno r') with n by congruence.
    rewrite lookup_delete_eq, Hdisk; split; [done |]; congruence.
  - set_solver.
Qed.

Lemma brelse_spec s C H b n d k o :
  env s -> cache_rep s C H -> buffer_of s b n -> n ∈ H -> C !! n = Some (d, k) ->
  (k = 1 -> d = blk (k_disk s) n) ->
  exists s', brelse b s o = Ok tt s' o /\ env s' /\ only_cache s s' /\ k_disk s' = k_disk s /\
    cache_rep s' (drop_ref C n) (H ∖ {[n]}) /\
    (forall b2 m, m <> n -> buffer_of s b2 m -> buffer_of s' b2 m).
Proof.
  intros He HR Hbuf Hn HC Hclean; destruct (buffer_facts _ _ _ _ _ _ _ HR Hbuf HC)
    as (r & Hb & Hr & Hd & Hbn & Hdt & Hk & Hv & Hrc & Hl1 & Hl2).
  unfold brelse; erewrite bind_ok by (eapply holdingsleep_run; [done | exact Hr | auto]); cbn [negb].
  erewrite bind_ok by (by apply releasesleep_run).
  pose proof (wake_keeps (ChSleep (SlBuf b)) s He) as He1.
  set (r' := (r <| b_lock := mksleeplock 0 0 |> <| b_refcnt := u32 (k - 1) |>)%rec).
  set (s1 := (s <| k_bufs ::= upd b (fun _ => r') |>
                <| k_procs ::= imap (wake1 (Some p) (ChSleep (SlBuf b))) |>)%rec).
  erewrite bind_ok by (apply acquire_ok; simpl; rewrite (proj1 (proj2 He)); set_solver).
  erewrite bufset_bind by (simpl; by apply upd_lookup_eq).
  erewrite bind_ok by (apply bufget_ok; simpl; erewrite upd_lookup_eq by (by apply upd_lookup_eq); done).
  match goal with |- context [kwhen (?x =? 0)] => change x with (u32 (b_refcnt r - 1)) end.
  replace (b_refcnt r - 1) with (k - 1) by lia.
  assert (Hk32 : u32 (k - 1) = k - 1) by (apply u32_small; lia).
  match goal with |- context [(kwhen _ _ ≫= _) ?t _] => replace t with (s1 <| k_locks := [LBcache] |>)%rec end.
  2:{ unfold s1; destruct He as (_ & Hlk & _); clear - Hlk Hr Hk; destruct s; state_norm; simpl in *; subst.
      rewrite upd_upd, (upd_const b (_ ∘ _) _ r) by done; unfold r'; subst; done. }
  assert (Hoc : only_cache s s1).
  { exists (k_bufs s1), (k_disk s), (k_procs s1); split; [| unfold s1; destruct s; done].
    unfold s1; simpl; rewrite list_lookup_imap; destruct (k_procs s !! p); [| done]; simpl.
    unfold wake1; by rewrite bool_decide_eq_true_2. }
  assert (Hkeep : forall b2 m, m <> n -> buffer_of s b2 m -> buffer_of s1 b2 m).
  { intros b2 m Hm (Hb2 & r2 & Hr2 & Hz2 & Hm2); split; [done |]; exists r2; split; [| done].
    simpl; rewrite upd_lookup_ne; [done |]; intros <-; congruence. }
  assert (Hunl : forall t, k_locks t = [] -> (t <| k_locks := [LBcache] |> <| k_locks ::= remove_lock LBcache |> = t)%rec).
  { intros t Ht; destruct t; state_norm; simpl in *; subst; done. }
  destruct (Z.eqb_spec (u32 (k - 1)) 0) as [Hz | Hz]; cbn [kwhen].
  - assert (Hk1 : k = 1) by lia; specialize (Hclean Hk1); rewrite Hk1 in HC.
    assert (HR1 : cache_rep s1 (delete n C) (H ∖ {[n]})).
    { eapply (rep_drop s s1 C H _ b n d r r'); done. }
    destruct (rep_lru _ _ _ HR1) as [L HL].
    assert (Hin : b ∈ L) by (by apply (lru_elem _ _ _ HL)); apply list_elem_of_split in Hin as (l1 & l2 & ->).
    erewrite bind_ok by (eapply (front_run b _ l1 l2 HL); done).
    exists (s1 <| k_bufs ::= move_front b |>)%rec.
    rewrite release_ok by (simpl; set_solver); split_and!.
    + f_equal; refine (eq_trans _ (Hunl (s1 <| k_bufs ::= move_front b |>)%rec _)); [reflexivity | apply He].
    + done.
    + eapply only_cache_trans; [exact Hoc | apply only_cache_bufs].
    + done.
    + unfold drop_ref; rewrite HC; simpl; by apply rep_front.
    + intros b2 m Hm Hb2; destruct (Hkeep b2 m Hm Hb2) as (Hlt & r2 & Hr2 & Hz2 & Hm2).
      split; [done |]; pose proof (front_core b (k_bufs s1)) as Hc.
      apply (f_equal (fun l => l !! b2)) in Hc; rewrite !list_lookup_fmap, Hr2 in Hc.
      change (k_bufs (s1 <| k_bufs ::= move_front b |>)%rec) with (move_front b (k_bufs s1)).
      destruct (move_front b (k_bufs s1) !! b2) as [x |]; [| done]; exists x; split; [done |].
      injection Hc; intros; split; congruence.
  - exists s1; erewrite bind_ok by apply ret_ok; rewrite release_ok by (simpl; set_solver); split_and!; try done.
    + f_equal; apply Hunl, He.
    + unfold drop_ref; rewrite HC; replace (k =? 1) with false by lia.
      replace (d, k - 1) with (b_data r', b_refcnt r') by (simpl; congruence).
      eapply rep_update; try done; [simpl; lia | set_solver |].
      rewrite decide_False by set_solver; done.
Qed.

Lemma bunpin_spec s C H b n d k o :
  env s -> cache_rep s C H -> buffer_of s b n -> C !! n = Some (d, k) -> 1 < k ->
  exists s', bunpin b s o = Ok tt s' o /\ env s' /\ only_cache s s' /\ k_disk s' = k_disk s /\
    cache_rep s' (drop_ref C n) H /\ keeps s s'.
Proof.
  intros He HR Hbuf HC Hk1; destruct (buffer_facts _ _ _ _ _ _ _ HR Hbuf HC)
    as (r & Hb & Hr & Hd & Hbn & Hdt & Hk & Hv & Hrc & Hl1 & Hl2).
  set (r' := (r <| b_refcnt := u32 (k - 1) |>)%rec).
  assert (Hk32 : u32 (k - 1) = k - 1) by (apply u32_small; lia).
  exists (s <| k_bufs ::= upd b (fun _ => r') |>)%rec; split_and!; try done.
  - unfold bunpin; erewrite bind_ok by (apply acquire_ok; rewrite (proj1 (proj2 He)); set_solver).
    erewrite bufset_bind by (simpl; exact Hr); rewrite release_ok by (simpl; set_solver).
    f_equal; destruct He as (_ & Hlk & _); destruct s; state_norm; simpl in *; subst.
    by rewrite (upd_const _ _ _ r).
  - apply only_cache_bufs.
  - unfold drop_ref; rewrite HC; replace (k =? 1) with false by lia.
    replace (d, k - 1) with (b_data r', b_refcnt r') by (simpl; congruence).
    eapply rep_update; try done; [simpl; lia |]; case_decide; simpl; auto.
  - eapply keeps_upd; [exact Hr | done |]; simpl; lia.
Qed.

End Ops.

End Cache.
