(* ===== verification/Virtio.v ===== *)
(** The virtio disk driver, kernel/virtio_disk.c with kernel/virtio.h.

    The descriptor table and the two rings, which the C code keeps in pages it
    shares with the device, are the fields of [k_vdisk]; an address handed to
    the device is named by the object it points to.  The device itself acts
    while the driver sleeps, through the oracle. *)
From stdpp Require Import base gmap list strings.
From Stdlib Require Import ZArith Lia ZifyBool.
From S2P Require Import Prelude Memory KPrintf State Monad Demo Kalloc ProcBase Vm Sleeplock Bio.

Local Open Scope Z_scope.

Definition VIRTIO_MMIO_MAGIC_VALUE : Z := 0x000.
Definition VIRTIO_MMIO_VERSION : Z := 0x004.
Definition VIRTIO_MMIO_DEVICE_ID : Z := 0x008.
Definition VIRTIO_MMIO_VENDOR_ID : Z := 0x00c.
Definition VIRTIO_MMIO_DEVICE_FEATURES : Z := 0x010.
Definition VIRTIO_MMIO_DRIVER_FEATURES : Z := 0x020.
Definition VIRTIO_MMIO_QUEUE_SEL : Z := 0x030.
Definition VIRTIO_MMIO_QUEUE_NUM_MAX : Z := 0x034.
Definition VIRTIO_MMIO_QUEUE_NUM : Z := 0x038.
Definition VIRTIO_MMIO_QUEUE_READY : Z := 0x044.
Definition VIRTIO_MMIO_QUEUE_NOTIFY : Z := 0x050.
Definition VIRTIO_MMIO_INTERRUPT_STATUS : Z := 0x060.
Definition VIRTIO_MMIO_INTERRUPT_ACK : Z := 0x064.
Definition VIRTIO_MMIO_STATUS : Z := 0x070.
Definition VIRTIO_MMIO_QUEUE_DESC_LOW : Z := 0x080.
Definition VIRTIO_MMIO_QUEUE_DESC_HIGH : Z := 0x084.
Definition VIRTIO_MMIO_DRIVER_DESC_LOW : Z := 0x090.
Definition VIRTIO_MMIO_DRIVER_DESC_HIGH : Z := 0x094.
Definition VIRTIO_MMIO_DEVICE_DESC_LOW : Z := 0x0a0.
Definition VIRTIO_MMIO_DEVICE_DESC_HIGH : Z := 0x0a4.
Definition VIRTIO_CONFIG_S_ACKNOWLEDGE : Z := 1.
Definition VIRTIO_CONFIG_S_DRIVER : Z := 2.
Definition VIRTIO_CONFIG_S_DRIVER_OK : Z := 4.
Definition VIRTIO_CONFIG_S_FEATURES_OK : Z := 8.
Definition VIRTIO_BLK_F_RO : Z := 5.
Definition VIRTIO_BLK_F_SCSI : Z := 7.
Definition VIRTIO_BLK_F_CONFIG_WCE : Z := 11.
Definition VIRTIO_BLK_F_MQ : Z := 12.
Definition VIRTIO_F_ANY_LAYOUT : Z := 27.
Definition VIRTIO_RING_F_INDIRECT_DESC : Z := 28.
Definition VIRTIO_RING_F_EVENT_IDX : Z := 29.
Definition NUM : nat := 8.
Definition VRING_DESC_F_NEXT : Z := 1.
Definition VRING_DESC_F_WRITE : Z := 2.
Definition VIRTIO_BLK_T_IN : Z := 0.
Definition VIRTIO_BLK_T_OUT : Z := 1.
Definition sizeof_blk_req : Z := 16.

Definition vd_mod (f : vdisk -> vdisk) : K unit :=
  modify (fun s => (s <| k_vdisk ::= f |>)%rec).

(** [disk.desc[i]], [disk.free[i]]: accesses within the arrays. *)
Definition desc_get (i : nat) : K vdesc :=
  d ← gets k_vdisk; from_option_K (vd_desc d !! i).
Definition desc_set (i : nat) (f : vdesc -> vdesc) : K unit :=
  _ ← desc_get i; vd_mod (fun d => (d <| vd_desc ::= upd i f |>)%rec).
Definition free_get (i : nat) : K Z :=
  d ← gets k_vdisk; from_option_K (vd_free d !! i).
Definition free_set (i : nat) (v : Z) : K unit :=
  vd_mod (fun d => (d <| vd_free ::= <[i := v]> |>)%rec).

(** The index allocated; [None] is -1. *)
Definition alloc_desc : K (option nat) :=
  r ← kfor (seq 0 NUM) (fun i (_ : unit) =>
    f ← free_get i;
    if negb (f =? 0) then free_set i 0 ;; mret (inr i) else mret (inl tt)) tt;
  match r with inr i => mret (Some i) | inl _ => mret None end.

Definition free_desc (i : nat) : K unit :=
  if (NUM <=? i)%nat then panic "free_desc 1"
  else
    f ← free_get i;
    if negb (f =? 0) then panic "free_desc 2"
    else
      desc_set i (fun d => (d <| vq_addr := DmaNull |>)%rec) ;;
      desc_set i (fun d => (d <| vq_len := 0 |>)%rec) ;;
      desc_set i (fun d => (d <| vq_flags := 0 |>)%rec) ;;
      desc_set i (fun d => (d <| vq_next := 0 |>)%rec) ;;
      free_set i 1 ;;
      wakeup ChVdisk.

(** Every iteration frees a descriptor that was in use, or panics. *)
Definition free_chain (i : nat) : K unit :=
  kloop (N.of_nat NUM + 1) (fun i =>
    d ← desc_get i;
    free_desc i ;;
    if negb (Z.land (vq_flags d) VRING_DESC_F_NEXT =? 0)
    then mret (inl (Z.to_nat (vq_next d))) else mret (inr tt)) i.

(** idx[0], idx[1], idx[2]; [None] is -1, with nothing allocated. *)
Definition alloc3_desc : K (option (nat * nat * nat)) :=
  a ← alloc_desc;
  match a with
  | None => mret None
  | Some i0 =>
      b ← alloc_desc;
      match b with
      | None => free_desc i0 ;; mret None
      | Some i1 =>
          c ← alloc_desc;
          match c with
          | None => free_desc i0 ;; free_desc i1 ;; mret None
          | Some i2 => mret (Some (i0, i1, i2))
          end
      end
  end.

Section Virtio.
Context `{Linker} `{Mmio}.

(** The register R(r). *)
Definition vreg_read (r : Z) : K Z := mmio_read (VIRTIO0 + r).
Definition vreg_write (r v : Z) : K unit := mmio_write (VIRTIO0 + r) (u32 v).

(** [features &= ~(1 << bit);] *)
Definition clear_bit (features bit : Z) : Z := Z.land features (Z.lnot (Z.shiftl 1 bit)).

(** The three pages become the descriptor table and the rings, all zero. *)
Definition virtq_zero : K unit :=
  vd_mod (fun d => (d <| vd_desc := replicate NUM (mkvdesc DmaNull 0 0 0) |>
    <| vd_avail_idx := 0 |> <| vd_avail_ring := replicate NUM 0 |>
    <| vd_dev_idx := 0 |> <| vd_used_ring := replicate NUM 0 |>)%rec).

Definition virtio_disk_init : K unit :=
  initlock LVdisk ;;
  magic ← vreg_read VIRTIO_MMIO_MAGIC_VALUE;
  version ← vreg_read VIRTIO_MMIO_VERSION;
  device ← vreg_read VIRTIO_MMIO_DEVICE_ID;
  vendor ← vreg_read VIRTIO_MMIO_VENDOR_ID;
  if negb (magic =? 0x74726976) || negb (version =? 2) || negb (device =? 2)
     || negb (vendor =? 0x554d4551)
  then panic "could not find virtio disk"
  else
    vreg_write VIRTIO_MMIO_STATUS 0 ;;
    let status := VIRTIO_CONFIG_S_ACKNOWLEDGE in
    vreg_write VIRTIO_MMIO_STATUS status ;;
    let status := Z.lor status VIRTIO_CONFIG_S_DRIVER in
    vreg_write VIRTIO_MMIO_STATUS status ;;
    features ← vreg_read VIRTIO_MMIO_DEVICE_FEATURES;
    vreg_write VIRTIO_MMIO_DRIVER_FEATURES (foldl clear_bit features
      [VIRTIO_BLK_F_RO; VIRTIO_BLK_F_SCSI; VIRTIO_BLK_F_CONFIG_WCE; VIRTIO_BLK_F_MQ;
       VIRTIO_F_ANY_LAYOUT; VIRTIO_RING_F_EVENT_IDX; VIRTIO_RING_F_INDIRECT_DESC]) ;;
    vreg_write VIRTIO_MMIO_STATUS (Z.lor status VIRTIO_CONFIG_S_FEATURES_OK) ;;
    status ← vreg_read VIRTIO_MMIO_STATUS;
    if Z.land status VIRTIO_CONFIG_S_FEATURES_OK =? 0 then panic "virtio disk FEATURES_OK unset"
    else
      vreg_write VIRTIO_MMIO_QUEUE_SEL 0 ;;
      ready ← vreg_read VIRTIO_MMIO_QUEUE_READY;
      if negb (ready =? 0) then panic "virtio disk should not be ready"
      else
        max ← vreg_read VIRTIO_MMIO_QUEUE_NUM_MAX;
        if max =? 0 then panic "virtio disk has no queue 0"
        else if max <? Z.of_nat NUM then panic "virtio disk max queue too short"
        else
          desc ← kalloc;
          avail ← kalloc;
          used ← kalloc;
          if (desc =? 0) || (avail =? 0) || (used =? 0) then panic "virtio disk kalloc"
          else
            set_mem (fun m => memset m desc 0 PGSIZE) ;;
            set_mem (fun m => memset m avail 0 PGSIZE) ;;
            set_mem (fun m => memset m used 0 PGSIZE) ;;
            virtq_zero ;;
            vreg_write VIRTIO_MMIO_QUEUE_NUM (Z.of_nat NUM) ;;
            vreg_write VIRTIO_MMIO_QUEUE_DESC_LOW desc ;;
            vreg_write VIRTIO_MMIO_QUEUE_DESC_HIGH (Z.shiftr desc 32) ;;
            vreg_write VIRTIO_MMIO_DRIVER_DESC_LOW avail ;;
            vreg_write VIRTIO_MMIO_DRIVER_DESC_HIGH (Z.shiftr avail 32) ;;
            vreg_write VIRTIO_MMIO_DEVICE_DESC_LOW used ;;
            vreg_write VIRTIO_MMIO_DEVICE_DESC_HIGH (Z.shiftr used 32) ;;
            vreg_write VIRTIO_MMIO_QUEUE_READY 1 ;;
            kfor_ (seq 0 NUM) (fun i => free_set i 1) ;;
            vreg_write VIRTIO_MMIO_STATUS (Z.lor status VIRTIO_CONFIG_S_DRIVER_OK).

(** Format the three descriptors of a request. *)
Definition format_desc (i0 i1 i2 b : nat) (sector : Z) (write : bool) : K unit :=
  vd_mod (fun d => (d <| vd_ops ::= <[i0 := mkblk_req
    (if write then VIRTIO_BLK_T_OUT else VIRTIO_BLK_T_IN) 0 sector]> |>)%rec) ;;
  desc_set i0 (fun _ => mkvdesc (DmaOp i0) sizeof_blk_req VRING_DESC_F_NEXT (Z.of_nat i1)) ;;
  desc_set i1 (fun _ => mkvdesc (DmaData b) BSIZE
    (Z.lor (if write then 0 else VRING_DESC_F_WRITE) VRING_DESC_F_NEXT) (Z.of_nat i2)) ;;
  vd_mod (fun d => (d <| vd_info_status ::= <[i0 := 0xff]> |>)%rec) ;;
  desc_set i2 (fun _ => mkvdesc (DmaStatus i0) 1 VRING_DESC_F_WRITE 0).

Definition virtio_disk_rw (b : nat) (write : bool) : K unit :=
  r ← bufget b;
  let sector := u32 (b_blockno r * (BSIZE / 512)) in
  acquire LVdisk ;;
  idx ← ksleeploop (fun _ : unit =>
    a ← alloc3_desc;
    match a with
    | Some idx => mret (inr idx)
    | None => sleep ChVdisk LVdisk ;; mret (inl tt)
    end) tt;
  let '(i0, i1, i2) := (idx : nat * nat * nat) in
  format_desc i0 i1 i2 b sector write ;;
  bufset b (fun r => (r <| b_disk := 1 |>)%rec) ;;
  vd_mod (fun d => (d <| vd_info_b ::= <[i0 := Some b]> |>)%rec) ;;
  vd_mod (fun d => (d <| vd_avail_ring ::=
    <[Z.to_nat (vd_avail_idx d mod Z.of_nat NUM) := Z.of_nat i0]> |>)%rec) ;;
  vd_mod (fun d => (d <| vd_avail_idx := u16 (vd_avail_idx d + 1) |>)%rec) ;;
  vreg_write VIRTIO_MMIO_QUEUE_NOTIFY 0 ;;
  ksleeploop (fun _ : unit =>
    r ← bufget b;
    if b_disk r =? 1 then sleep (ChBuf b) LVdisk ;; mret (inl tt) else mret (inr tt)) tt ;;
  vd_mod (fun d => (d <| vd_info_b ::= <[i0 := None]> |>)%rec) ;;
  free_chain i0 ;;
  release LVdisk.

#[export] Instance virtio_device : BlockDevice := virtio_disk_rw.

(** One completion: the entry of the used ring at used_idx. *)
Definition complete_one : K unit :=
  d ← gets k_vdisk;
  id ← from_option_K (vd_used_ring d !! Z.to_nat (vd_used_idx d mod Z.of_nat NUM));
  st ← from_option_K (vd_info_status d !! Z.to_nat id);
  if negb (st =? 0) then panic "virtio_disk_intr status"
  else
    ob ← from_option_K (vd_info_b d !! Z.to_nat id);
    b ← from_option_K ob;
    bufset b (fun r => (r <| b_disk := 0 |>)%rec) ;;
    wakeup (ChBuf b) ;;
    vd_mod (fun d => (d <| vd_used_idx := u16 (vd_used_idx d + 1) |>)%rec).

(** The loop handles the entries between used_idx and used->idx. *)
Definition virtio_disk_intr : K unit :=
  acquire LVdisk ;;
  st ← vreg_read VIRTIO_MMIO_INTERRUPT_STATUS;
  vreg_write VIRTIO_MMIO_INTERRUPT_ACK (Z.land st 0x3) ;;
  d ← gets k_vdisk;
  kloop (Z.to_N (u16 (vd_dev_idx d - vd_used_idx d)) + 1) (fun _ : unit =>
    d ← gets k_vdisk;
    if vd_used_idx d =? vd_dev_idx d then mret (inr tt)
    else complete_one ;; mret (inl tt)) tt ;;
  release LVdisk.

End Virtio.
