(* ===== verification/VirtioSpec.v ===== *)
(** The disk driver carries out a request, kernel/virtio_disk.c.

    The driver shares its descriptors and rings with a device that works while
    the driver sleeps.  [DiskAnswers] is what the virtio specification promises of
    the device: it follows the chain of descriptors of the one request
    that is pending, moves the data, and puts the chain on the used ring.  The
    interrupt that follows is virtio_disk_intr() itself.  Together they
    implement the block device the buffer cache is verified against. *)
From stdpp Require Import base gmap list strings.
From Stdlib Require Import ZArith Lia ZifyBool.
From S2P Require Import Prelude Memory KPrintf State Monad Demo Kalloc ProcBase Vm Sleeplock Bio BioSpec CacheSpec Virtio.

Local Open Scope Z_scope.

(** ** The device *)

(** The chain of three descriptors at [i0]: the header, the data of buffer [b], the
    status byte; the data is for the device to write if the request is a read. *)
Record chain (d : vdisk) (i0 i1 i2 b : nat) (rq : blk_req) : Prop := {
  ch_op : vd_desc d !! i0 = Some (mkvdesc (DmaOp i0) sizeof_blk_req VRING_DESC_F_NEXT (Z.of_nat i1));
  ch_data : vd_desc d !! i1 = Some (mkvdesc (DmaData b) BSIZE
    (Z.lor (if rq_type rq =? VIRTIO_BLK_T_OUT then 0 else VRING_DESC_F_WRITE) VRING_DESC_F_NEXT) (Z.of_nat i2));
  ch_status : vd_desc d !! i2 = Some (mkvdesc (DmaStatus i0) 1 VRING_DESC_F_WRITE 0);
  ch_rq : vd_ops d !! i0 = Some rq;
  ch_type : rq_type rq = VIRTIO_BLK_T_IN \/ rq_type rq = VIRTIO_BLK_T_OUT
}.

(** The chain is the only one on the available ring that was not answered yet. *)
Definition pending (d : vdisk) (i0 : nat) : Prop :=
  0 <= vd_dev_idx d < 2 ^ 16 /\ vd_avail_idx d = u16 (vd_dev_idx d + 1) /\
  vd_avail_ring d !! Z.to_nat (vd_dev_idx d mod Z.of_nat NUM) = Some (Z.of_nat i0).

(** The chain [i0] is done: its status is 0 and it is the next entry of the used ring. *)
Definition put_used (i0 : nat) (d : vdisk) : vdisk :=
  (d <| vd_info_status ::= <[i0 := 0]> |>
     <| vd_used_ring ::= <[Z.to_nat (vd_dev_idx d mod Z.of_nat NUM) := Z.of_nat i0]> |>
     <| vd_dev_idx := u16 (vd_dev_idx d + 1) |>)%rec.

(** A sector has 512 bytes. *)
Definition block_of (rq : blk_req) : Z := rq_sector rq / (BSIZE / 512).

Definition answered (i0 b : nat) (r : buf) (rq : blk_req) (s : kstate) : kstate :=
  let s := (s <| k_vdisk ::= put_used i0 |>)%rec in
  if rq_type rq =? VIRTIO_BLK_T_OUT then (s <| k_disk ::= <[block_of rq := b_data r]> |>)%rec
  else (s <| k_bufs ::= upd b (fun x => x <| b_data := blk (k_disk s) (block_of rq) |>) |>)%rec.

Class DiskAnswers (dev : kstate -> kstate) : Prop :=
  disk_answers : forall s i0 i1 i2 b r rq,
    pending (k_vdisk s) i0 -> chain (k_vdisk s) i0 i1 i2 b rq -> k_bufs s !! b = Some r ->
    dev s = answered i0 b r rq s.

(** The registers used after the initialisation: the doorbell, and the state of
    the interrupt with its acknowledgement. *)
Class DiskRegs `{Mmio} : Prop := {
  regs_notify : forall v s o, mmio_write (VIRTIO0 + VIRTIO_MMIO_QUEUE_NOTIFY) v s o = Ok tt s o;
  regs_status : forall s o, exists v, mmio_read (VIRTIO0 + VIRTIO_MMIO_INTERRUPT_STATUS) s o = Ok v s o;
  regs_ack : forall v s o, mmio_write (VIRTIO0 + VIRTIO_MMIO_INTERRUPT_ACK) v s o = Ok tt s o
}.

(** ** The driver between requests *)

Record vd_idle (d : vdisk) : Prop := {
  vi_desc : length (vd_desc d) = NUM;
  vi_avail : length (vd_avail_ring d) = NUM;
  vi_used : length (vd_used_ring d) = NUM;
  vi_free : vd_free d = replicate NUM 1;
  vi_b : length (vd_info_b d) = NUM;
  vi_status : length (vd_info_status d) = NUM;
  vi_ops : length (vd_ops d) = NUM;
  vi_idx : 0 <= vd_dev_idx d < 2 ^ 16;
  vi_avail_idx : vd_avail_idx d = vd_dev_idx d;
  vi_used_idx : vd_used_idx d = vd_dev_idx d
}.

(** The machine while process [p] waits for its request: the scheduler drops the
    lock of [p], the device answers, the interrupt is handled, and [p] is scheduled
    again if the handler made it runnable. *)
Definition io_turn `{Mmio} (dev : kstate -> kstate) (p : nat) : kstate -> kstate := fun s =>
  match virtio_disk_intr (dev (s <| k_locks := [] |> <| k_cur := None |>)%rec) [] with
  | Ok _ s _ =>
      match k_procs s !! p with
      | Some q =>
          if decide (p_state q = RUNNABLE)
          then (s <| k_cur := Some p |> <| k_locks := [LProc p] |>
                  <| k_procs ::= upd p (fun q => q <| p_state := RUNNING |>) |>)%rec
          else s
      | None => s
      end
  | _ => s
  end.

(** A time the process is woken up for another reason. *)
Definition other_turn (p : nat) (e : kstate -> kstate) : Prop := forall s,
  k_vdisk (e s) = k_vdisk s /\ k_bufs (e s) = k_bufs s /\ k_disk (e s) = k_disk s /\
  k_cur (e s) = k_cur s /\ k_locks (e s) = k_locks s /\ length (k_procs (e s)) = length (k_procs s).

(** ** A view of the state *)

Definition dst (s : kstate) (L : list lockid) (P : list proc) (B : list buf) (D : gmap Z (list Z)) (V : vdisk) : kstate :=
  (s <| k_locks := L |> <| k_procs := P |> <| k_bufs := B |> <| k_disk := D |> <| k_vdisk := V |>)%rec.

Lemma dst_self s : s = dst s (k_locks s) (k_procs s) (k_bufs s) (k_disk s) (k_vdisk s).
Proof. by destruct s. Qed.

Lemma dst_vd_mod f s L P B D V o : vd_mod f (dst s L P B D V) o = Ok tt (dst s L P B D (f V)) o.
Proof. unfold vd_mod, modify, dst; destruct s; state_norm; reflexivity. Qed.

Lemma dst_ext {A} (a : A) s L P B D V V' (o : oracle) :
  V = V' -> Ok a (dst s L P B D V) o = Ok a (dst s L P B D V') o.
Proof. by intros ->. Qed.

Lemma dst_vdisk s L P B D V : k_vdisk (dst s L P B D V) = V.
Proof. by destruct s. Qed.

Lemma dst_procs s L P B D V : k_procs (dst s L P B D V) = P.
Proof. by destruct s. Qed.

Lemma dst_bufs s L P B D V : k_bufs (dst s L P B D V) = B.
Proof. by destruct s. Qed.

Lemma dst_desc_set i f s L P B D V o x :
  vd_desc V !! i = Some x -> desc_set i f (dst s L P B D V) o = Ok tt (dst s L P B D (V <| vd_desc ::= upd i f |>)%rec) o.
Proof.
  intros Hx; unfold desc_set, desc_get; rewrite bind_assoc, gets_bind, dst_vdisk, Hx; apply dst_vd_mod.
Qed.

Lemma dst_desc_get i s L P B D V o x :
  vd_desc V !! i = Some x -> desc_get i (dst s L P B D V) o = Ok x (dst s L P B D V) o.
Proof. intros Hx; unfold desc_get; rewrite gets_bind, dst_vdisk, Hx; reflexivity. Qed.

Lemma dst_free_get i s L P B D V o x :
  vd_free V !! i = Some x -> free_get i (dst s L P B D V) o = Ok x (dst s L P B D V) o.
Proof.
  intros Hx; unfold free_get; rewrite gets_bind, dst_vdisk, Hx; reflexivity.
Qed.

Lemma dst_bufset b r f s L P B D V o :
  B !! b = Some r -> bufset b f (dst s L P B D V) o = Ok tt (dst s L P (upd b f B) D V) o.
Proof. intros Hr; erewrite bufset_ok by (rewrite dst_bufs; exact Hr); by destruct s. Qed.

(** ** A request is put on the ring *)

Definition free_from (k : nat) : list Z := replicate k 0 ++ replicate (NUM - k) 1.

Ltac alloc_step Hf := cbn [seq NUM]; rewrite kfor_cons;
  erewrite bind_ok by (erewrite bind_ok by (eapply dst_free_get; rewrite Hf; reflexivity); cbn [negb Z.eqb];
    first [apply ret_ok | erewrite bind_ok by apply dst_vd_mod; apply ret_ok]); cbn beta iota.

Lemma alloc_desc_run k s L P B D V o :
  (k < 3)%nat -> vd_free V = free_from k ->
  alloc_desc (dst s L P B D V) o = Ok (Some k) (dst s L P B D (V <| vd_free := free_from (S k) |>)%rec) o.
Proof.
  intros Hk Hf; unfold alloc_desc.
  rewrite (bind_ok _ _ _ _ (inr k) (dst s L P B D (V <| vd_free := free_from (S k) |>)%rec) o); [reflexivity |].
  destruct k as [| [| [| k]]]; [.. | lia]; repeat alloc_step Hf; rewrite ?ret_ok.
  all: apply dst_ext; destruct V; simpl in Hf; subst; reflexivity.
Qed.

Lemma alloc3_desc_run s L P B D V o :
  vd_free V = replicate NUM 1 ->
  alloc3_desc (dst s L P B D V) o =
  Ok (Some (0, 1, 2)%nat) (dst s L P B D (V <| vd_free := free_from 3 |>)%rec) o.
Proof.
  intros Hf; unfold alloc3_desc.
  erewrite bind_ok by (apply (alloc_desc_run 0); [lia | done]); cbn beta iota.
  erewrite bind_ok by (apply (alloc_desc_run 1); [lia | done]); cbn beta iota.
  erewrite bind_ok by (apply (alloc_desc_run 2); [lia | done]).
  by destruct V.
Qed.

(** The request as virtio_disk_rw() leaves it on the available ring. *)
Definition req_of (sector : Z) (write : bool) : blk_req :=
  mkblk_req (if write then VIRTIO_BLK_T_OUT else VIRTIO_BLK_T_IN) 0 sector.

Definition submitted (b : nat) (rq : blk_req) (d : vdisk) : vdisk :=
  (d <| vd_free := free_from 3 |>
     <| vd_ops ::= <[0%nat := rq]> |>
     <| vd_desc ::= fun l => mkvdesc (DmaOp 0) sizeof_blk_req VRING_DESC_F_NEXT 1
          :: mkvdesc (DmaData b) BSIZE (Z.lor (if rq_type rq =? VIRTIO_BLK_T_OUT then 0 else VRING_DESC_F_WRITE) VRING_DESC_F_NEXT) 2
          :: mkvdesc (DmaStatus 0) 1 VRING_DESC_F_WRITE 0 :: drop 3 l |>
     <| vd_info_status ::= <[0%nat := 0xff]> |>
     <| vd_info_b ::= <[0%nat := Some b]> |>
     <| vd_avail_ring ::= <[Z.to_nat (vd_avail_idx d mod Z.of_nat NUM) := 0]> |>
     <| vd_avail_idx := u16 (vd_avail_idx d + 1) |>)%rec.

Lemma format_desc_run b sector (write : bool) s L P B D V o :
  length (vd_desc V) = NUM ->
  format_desc 0 1 2 b sector write (dst s L P B D V) o =
  Ok tt (dst s L P B D (V <| vd_ops ::= <[0%nat := req_of sector write]> |>
     <| vd_desc ::= fun l => mkvdesc (DmaOp 0) sizeof_blk_req VRING_DESC_F_NEXT 1
          :: mkvdesc (DmaData b) BSIZE (Z.lor (if write then 0 else VRING_DESC_F_WRITE) VRING_DESC_F_NEXT) 2
          :: mkvdesc (DmaStatus 0) 1 VRING_DESC_F_WRITE 0 :: drop 3 l |>
     <| vd_info_status ::= <[0%nat := 0xff]> |>)%rec) o.
Proof.
  intros Hl; destruct V as [ds ? ? ? ? ? ? ? ? ?]; simpl in Hl.
  destruct ds as [| d0 [| d1 [| d2 ds]]]; try discriminate Hl.
  unfold format_desc; erewrite bind_ok by apply dst_vd_mod.
  erewrite bind_ok by (eapply dst_desc_set; reflexivity).
  erewrite bind_ok by (eapply dst_desc_set; reflexivity).
  erewrite bind_ok by apply dst_vd_mod.
  erewrite dst_desc_set by reflexivity; done.
Qed.

(** ** The device's answer and the interrupt *)

Lemma submitted_pending b rq d : vd_idle d -> pending (submitted b rq d) 0.
Proof.
  intros [H1 H2 H3 H4 H5 H6 H7 H8 H9 H10]; destruct d as [ds ai ar di ur fr ui bs sts ops]; simpl in *.
  rewrite H9; split; [done |]; split; [done |]; simpl; apply list_lookup_insert_eq; rewrite H2.
  pose proof (Z.mod_pos_bound di 8); unfold NUM; lia.
Qed.

Lemma submitted_chain b sector write d :
  vd_idle d -> chain (submitted b (req_of sector write) d) 0 1 2 b (req_of sector write).
Proof.
  intros [H1 H2 H3 H4 H5 H6 H7 H8 H9 H10]; destruct d; simpl in *; split; try done.
  - simpl; apply list_lookup_insert_eq; rewrite H7; unfold NUM; lia.
  - destruct write; [by right | by left].
Qed.

Lemma dst_acquire lk s L P B D V o :
  lk ∉ L -> acquire lk (dst s L P B D V) o = Ok tt (dst s (lk :: L) P B D V) o.
Proof. intros Hl; rewrite acquire_ok by (by destruct s); unfold dst; destruct s; state_norm; reflexivity. Qed.

Lemma dst_release lk s L P B D V o :
  release lk (dst s (lk :: L) P B D V) o = Ok tt (dst s L P B D V) o.
Proof.
  rewrite release_ok by (destruct s; apply list_elem_of_here); unfold dst; destruct s; state_norm.
  rewrite remove_lock_cons; reflexivity.
Qed.

Lemma dst_wakeup ch s L P B D V o :
  length P = NPROC -> (forall i, LProc i ∉ L) ->
  wakeup ch (dst s L P B D V) o = Ok tt (dst s L (imap (wake1 (k_cur s) ch) P) B D V) o.
Proof.
  intros HP HL; rewrite wakeup_run; [| by destruct s | by destruct s].
  unfold dst; destruct s; state_norm; reflexivity.
Qed.

Lemma dst_sleep_state p ch s L P B D V :
  sleep_state p ch (dst s L P B D V) = dst s [LProc p] (upd p (asleep ch) P) B D V.
Proof. unfold sleep_state, dst; destruct s; state_norm; reflexivity. Qed.

Lemma u16_succ_ne x : 0 <= x < 2 ^ 16 -> u16 (x + 1) <> x.
Proof. intros Hx; unfold u16; destruct (decide (x = 2 ^ 16 - 1)) as [-> | ]; [done |]; rewrite Z.mod_small; lia. Qed.

Lemma u16_succ_sub x : 0 <= x < 2 ^ 16 -> u16 (u16 (x + 1) - x) = 1.
Proof. intros Hx; unfold u16; rewrite Zminus_mod_idemp_l; replace (x + 1 - x) with 1 by lia; done. Qed.

Definition undisk (r : buf) : buf := (r <| b_disk := 0 |>)%rec.

(** The handler takes one entry off the used ring: the owner of the buffer is woken up. *)
Lemma complete_one_run i b r s L P B D V o :
  vd_used_ring V !! Z.to_nat (vd_used_idx V mod Z.of_nat NUM) = Some (Z.of_nat i) ->
  vd_info_status V !! i = Some 0 -> vd_info_b V !! i = Some (Some b) -> B !! b = Some r ->
  length P = NPROC -> (forall i, LProc i ∉ L) ->
  complete_one (dst s L P B D V) o =
  Ok tt (dst s L (imap (wake1 (k_cur s) (ChBuf b)) P) (upd b undisk B) D
           (V <| vd_used_idx := u16 (vd_used_idx V + 1) |>)%rec) o.
Proof.
  intros Hu Hst Hb Hr HP HL; unfold complete_one; rewrite gets_bind, dst_vdisk, Hu.
  erewrite bind_ok by apply ret_ok; rewrite Nat2Z.id, Hst; erewrite bind_ok by apply ret_ok.
  cbn [negb Z.eqb]; rewrite Hb; do 2 erewrite bind_ok by apply ret_ok.
  erewrite bind_ok by (by eapply dst_bufset); erewrite bind_ok by (by apply dst_wakeup).
  by rewrite dst_vd_mod.
Qed.

Section Driver.
Context `{DiskRegs}.

Lemma virtio_disk_intr_run i b r s P B D V o :
  0 <= vd_used_idx V < 2 ^ 16 -> vd_dev_idx V = u16 (vd_used_idx V + 1) ->
  vd_used_ring V !! Z.to_nat (vd_used_idx V mod Z.of_nat NUM) = Some (Z.of_nat i) ->
  vd_info_status V !! i = Some 0 -> vd_info_b V !! i = Some (Some b) -> B !! b = Some r ->
  length P = NPROC ->
  virtio_disk_intr (dst s [] P B D V) o =
  Ok tt (dst s [] (imap (wake1 (k_cur s) (ChBuf b)) P) (upd b undisk B) D
           (V <| vd_used_idx := u16 (vd_used_idx V + 1) |>)%rec) o.
Proof.
  intros Hui Hdi Hu Hst Hb Hr HP; unfold virtio_disk_intr.
  erewrite bind_ok by (apply dst_acquire; set_solver).
  destruct (regs_status (dst s [LVdisk] P B D V) o) as [v Hv].
  erewrite bind_ok by exact Hv; erewrite bind_ok by apply regs_ack.
  rewrite gets_bind, dst_vdisk, Hdi, u16_succ_sub by done.
  erewrite bind_ok; [apply dst_release |].
  change (Z.to_N 1 + 1)%N with (N.succ (N.succ 0)); rewrite kloop_succ, bind_assoc, gets_bind, dst_vdisk.
  rewrite (proj2 (Z.eqb_neq _ _)) by (rewrite Hdi; intros E; by apply (u16_succ_ne (vd_used_idx V))).
  rewrite bind_assoc; erewrite bind_ok by (eapply complete_one_run; try done; set_solver).
  erewrite bind_ok by apply ret_ok; cbn beta iota; rewrite kloop_succ, bind_assoc, gets_bind, dst_vdisk.
  rewrite (proj2 (Z.eqb_eq _ _)) by (by destruct V); erewrite bind_ok by apply ret_ok; done.
Qed.

Context (dev : kstate -> kstate) `{!DiskAnswers dev}.

(** What a request does to the buffers and to the disk. *)
Definition io_bufs (write : bool) (b : nat) (n : Z) (B : list buf) (D : gmap Z (list Z)) : list buf :=
  if write then B else upd b (fun x => x <| b_data := blk D n |>)%rec B.
Definition io_disk (write : bool) (r : buf) (n : Z) (D : gmap Z (list Z)) : gmap Z (list Z) :=
  if write then <[n := b_data r]> D else D.

Lemma answered_dst i b r sector (write : bool) s L P B D V :
  answered i b r (req_of sector write) (dst s L P B D V) =
  dst s L P (io_bufs write b (sector / 2) B D) (io_disk write r (sector / 2) D) (put_used i V).
Proof.
  unfold answered, block_of, req_of; destruct write; cbn [rq_type rq_sector Z.eqb VIRTIO_BLK_T_OUT VIRTIO_BLK_T_IN].
  all: change (BSIZE / 512) with 2; unfold dst, io_bufs, io_disk; destruct s; state_norm; reflexivity.
Qed.

(** The rings after the answer and the interrupt. *)
Definition served (b : nat) (rq : blk_req) (d : vdisk) : vdisk :=
  let V := put_used 0 (submitted b rq d) in (V <| vd_used_idx := u16 (vd_used_idx V + 1) |>)%rec.

Lemma used_ready b rq d : vd_idle d ->
  let V := put_used 0 (submitted b rq d) in
  0 <= vd_used_idx V < 2 ^ 16 /\ vd_dev_idx V = u16 (vd_used_idx V + 1) /\
  vd_used_ring V !! Z.to_nat (vd_used_idx V mod Z.of_nat NUM) = Some (Z.of_nat 0) /\
  vd_info_status V !! 0%nat = Some 0 /\ vd_info_b V !! 0%nat = Some (Some b).
Proof.
  intros [H1 H2 H3 H4 H5 H6 H7 H8 H9 H10]; destruct d as [ds ai ar di ur fr ui bs sts ops]; simpl in *; subst ui ai.
  split; [done |]; split; [done |]; split; [| split].
  - apply list_lookup_insert_eq; rewrite H3; pose proof (Z.mod_pos_bound di 8); unfold NUM; lia.
  - apply list_lookup_insert_eq; rewrite length_insert, H6; unfold NUM; lia.
  - apply list_lookup_insert_eq; rewrite H5; unfold NUM; lia.
Qed.

Lemma io_turn_run p q b r sector (write : bool) s P B D d :
  vd_idle d -> k_cur s = Some p -> length P = NPROC -> P !! p = Some q -> p_state q = SLEEPING -> p_chan q = ChBuf b ->
  B !! b = Some r ->
  io_turn dev p (dst s [LProc p] P B D (submitted b (req_of sector write) d)) =
  dst s [LProc p] (upd p (fun q => q <| p_state := RUNNING |>)%rec (imap (wake1 None (ChBuf b)) P))
    (upd b undisk (io_bufs write b (sector / 2) B D)) (io_disk write r (sector / 2) D)
    (served b (req_of sector write) d).
Proof.
  intros Hd Hc HP Hq Hst Hch Hr; unfold io_turn.
  set (V := submitted b (req_of sector write) d); set (s0 := (s <| k_cur := None |>)%rec).
  replace (dst s [LProc p] P B D V <| k_locks := [] |> <| k_cur := None |>)%rec with (dst s0 [] P B D V)
    by (unfold s0, dst; destruct s; state_norm; reflexivity).
  rewrite (disk_answers _ 0 1 2 b r (req_of sector write));
    [| by rewrite dst_vdisk; apply submitted_pending | by rewrite dst_vdisk; apply submitted_chain | by rewrite dst_bufs].
  rewrite answered_dst.
  destruct (used_ready b (req_of sector write) d Hd) as (H1 & H2 & H3 & H4 & H5).
  assert (Hr' : exists r', io_bufs write b (sector / 2) B D !! b = Some r')
    by (destruct write; eexists; [exact Hr | by apply upd_lookup_eq]).
  destruct Hr' as [r' Hr'].
  rewrite (virtio_disk_intr_run 0 b r') by done.
  assert (Hp : imap (wake1 None (ChBuf b)) P !! p = Some (q <| p_state := RUNNABLE |>)%rec).
  { rewrite list_lookup_imap, Hq; simpl; unfold wake1; rewrite (bool_decide_eq_false_2 (Some p = None)) by done.
    by rewrite Hst, Hch, !bool_decide_eq_true_2. }
  change (k_cur s0) with (@None nat); rewrite dst_procs, Hp, decide_True by done.
  unfold served, dst, s0; clear - Hc; destruct s; simpl in Hc; subst; state_norm; reflexivity.
Qed.

(** ** The driver waits *)

Definition unchan (q : proc) : proc := (q <| p_chan := ChNull |>)%rec.

Lemma dst_sleep ch p q q' e s P B D V s' P' B' D' V' o :
  k_cur s = Some p -> P !! p = Some q ->
  e (dst s [LProc p] (upd p (asleep ch) P) B D V) = dst s' [LProc p] P' B' D' V' -> P' !! p = Some q' ->
  sleep ch LVdisk (dst s [LVdisk] P B D V) (e :: o) = Ok tt (dst s' [LVdisk] (upd p unchan P') B' D' V') o.
Proof.
  intros Hc Hq He Hq'; rewrite (sleep_woken p q q'); rewrite ?dst_sleep_state, ?He; [| by destruct s | by destruct s | by destruct s | done | by destruct s' | by destruct s'].
  unfold dst; destruct s'; state_norm; reflexivity.
Qed.

Definition wait_turn (b : nat) (_ : unit) : K (unit + unit) :=
  r ← bufget b;
  if b_disk r =? 1 then sleep (ChBuf b) LVdisk ;; mret (inl tt) else mret (inr tt).

Lemma wait_run p b r sector (write : bool) d D es o : vd_idle d -> Forall (other_turn p) es ->
  forall s P B, k_cur s = Some p -> length P = NPROC -> (p < NPROC)%nat -> B !! b = Some r -> b_disk r = 1 ->
  exists s' P', k_cur s' = Some p /\ length P' = NPROC /\
    ksleeploop (wait_turn b) tt (dst s [LVdisk] P B D (submitted b (req_of sector write) d)) (es ++ io_turn dev p :: o) =
    Ok tt (dst s' [LVdisk] P' (upd b undisk (io_bufs write b (sector / 2) B D)) (io_disk write r (sector / 2) D)
             (served b (req_of sector write) d)) o.
Proof.
  intros Hd; induction 1 as [| e es He Hes IH]; intros s P B Hc HP Hp Hr Hdk.
  all: destruct (lookup_lt_is_Some_2 P p ltac:(lia)) as [q Hq].
  - exists s; eexists; split; [done |]; split; [| cbn [app]].
    2:{ erewrite ksleeploop_again.
        2:{ unfold wait_turn; erewrite bind_ok by (apply bufget_ok; rewrite dst_bufs; exact Hr); rewrite Hdk; cbn [Z.eqb Pos.eqb].
            erewrite bind_ok; [apply ret_ok |]; eapply dst_sleep; [done | exact Hq | |].
            - eapply io_turn_run; try done; [by rewrite length_upd | by apply upd_lookup_eq | done | done].
            - apply upd_lookup_eq; rewrite list_lookup_imap, (upd_lookup_eq _ _ _ q) by done; reflexivity. }
        apply ksleeploop_ret; unfold wait_turn.
        assert (Hr' : exists r', io_bufs write b (sector / 2) B D !! b = Some r')
          by (destruct write; eexists; [exact Hr | by apply upd_lookup_eq]).
        destruct Hr' as [r' Hr'].
        erewrite bind_ok by (apply bufget_ok; rewrite dst_bufs; by apply upd_lookup_eq); reflexivity. }
    by rewrite !length_upd, length_imap, length_upd.
  - destruct (He (dst s [LProc p] (upd p (asleep (ChBuf b)) P) B D (submitted b (req_of sector write) d)))
      as (E1 & E2 & E3 & E4 & E5 & E6).
    set (t := e _) in *.
    assert (Ht : t = dst t [LProc p] (k_procs t) B D (submitted b (req_of sector write) d)).
    { rewrite (dst_self t) at 1; rewrite E1, E2, E3, E5; by destruct s. }
    rewrite dst_procs, length_upd, HP in E6.
    destruct (lookup_lt_is_Some_2 (k_procs t) p ltac:(lia)) as [q' Hq'].
    destruct (IH t (upd p unchan (k_procs t)) B) as (s' & P' & Hc' & HP' & Hrun); try done.
    { rewrite E4; by destruct s. }
    { by rewrite length_upd. }
    exists s', P'; split; [done |]; split; [done |]; cbn [app].
    erewrite ksleeploop_again; [exact Hrun |].
    unfold wait_turn; erewrite bind_ok by (apply bufget_ok; rewrite dst_bufs; exact Hr); rewrite Hdk; cbn [Z.eqb Pos.eqb].
    erewrite bind_ok; [apply ret_ok |]; eapply dst_sleep; [done | exact Hq | exact Ht | exact Hq'].
Qed.

(** ** The descriptors are freed *)

Definition no_desc : vdesc := mkvdesc DmaNull 0 0 0.

Lemma free_desc_run i x s L P B D V o :
  (i < NUM)%nat -> vd_free V !! i = Some 0 -> vd_desc V !! i = Some x -> length P = NPROC -> (forall j, LProc j ∉ L) ->
  free_desc i (dst s L P B D V) o =
  Ok tt (dst s L (imap (wake1 (k_cur s) ChVdisk) P) B D
           (V <| vd_desc ::= upd i (fun _ => no_desc) |> <| vd_free ::= <[i := 1]> |>)%rec) o.
Proof.
  intros Hi Hf Hx HP HL; unfold free_desc; rewrite (proj2 (Nat.leb_gt _ _)) by done.
  erewrite bind_ok by (by apply dst_free_get); cbn [negb Z.eqb].
  erewrite bind_ok by (by eapply dst_desc_set).
  do 3 (erewrite bind_ok by (eapply dst_desc_set; cbn; repeat (apply upd_lookup_eq); exact Hx)).
  erewrite bind_ok by apply dst_vd_mod; rewrite dst_wakeup by done.
  apply dst_ext; destruct V as [ds ai ar di ur fr ui bs sts ops].
  assert (Hds : upd i (fun d => d <| vq_next := 0 |>)%rec (upd i (fun d => d <| vq_flags := 0 |>)%rec
     (upd i (fun d => d <| vq_len := 0 |>)%rec (upd i (fun d => d <| vq_addr := DmaNull |>)%rec ds))) = upd i (fun _ => no_desc) ds)
    by (rewrite !upd_upd; reflexivity).
  exact (f_equal (fun l => mkvdisk l ai ar di ur (<[i := 1]> fr) ui bs sts ops) Hds).
Qed.

Ltac chain_step := rewrite kloop_succ, bind_assoc; erewrite bind_ok by (eapply dst_desc_get; reflexivity);
  rewrite bind_assoc; erewrite bind_ok by (eapply free_desc_run; [unfold NUM; lia | reflexivity | reflexivity |
    by rewrite ?length_imap | done]); cbn [vq_flags];
  match goal with |- context [Z.land ?a ?b =? 0] => let v := eval vm_compute in (Z.land a b =? 0) in
    change (Z.land a b =? 0) with v end; cbn [negb vq_next];
  erewrite bind_ok by apply ret_ok; cbn beta iota.

Lemma free_chain_run b (write : bool) rest s L P B D V o :
  vd_desc V = mkvdesc (DmaOp 0) sizeof_blk_req VRING_DESC_F_NEXT 1
    :: mkvdesc (DmaData b) BSIZE (Z.lor (if write then 0 else VRING_DESC_F_WRITE) VRING_DESC_F_NEXT) 2
    :: mkvdesc (DmaStatus 0) 1 VRING_DESC_F_WRITE 0 :: rest ->
  vd_free V = free_from 3 -> length P = NPROC -> (forall j, LProc j ∉ L) ->
  exists P', length P' = NPROC /\
  free_chain 0 (dst s L P B D V) o =
  Ok tt (dst s L P' B D (V <| vd_desc := replicate 3 no_desc ++ rest |> <| vd_free := replicate NUM 1 |>)%rec) o.
Proof.
  intros Hd Hf HP HL; destruct V as [ds ai ar di ur fr ui bs sts ops]; simpl in Hd, Hf; subst ds fr.
  eexists; split; [| unfold free_chain; change (N.of_nat NUM + 1)%N with (N.succ (N.succ (N.succ 6)))].
  2:{ destruct write; do 3 chain_step; reflexivity. }
  by rewrite !length_imap.
Qed.

(** ** The whole request *)

(** The rings when the request is over. *)
Lemma served_idle b rq d : vd_idle d ->
  vd_idle ((served b rq d) <| vd_info_b ::= <[0%nat := None]> |>
    <| vd_desc := replicate 3 no_desc ++ drop 3 (vd_desc d) |> <| vd_free := replicate NUM 1 |>)%rec.
Proof.
  intros [H1 H2 H3 H4 H5 H6 H7 H8 H9 H10]; destruct d as [ds ai ar di ur fr ui bs sts ops]; simpl in *; subst ui ai.
  constructor; simpl; rewrite ?length_insert; try done.
  - rewrite length_drop, H1; done.
  - unfold u16; apply Z.mod_pos_bound; lia.
Qed.

Lemma io_bufs_done (write : bool) b n r B D : B !! b = Some r -> b_disk r = 0 ->
  upd b undisk (io_bufs write b n (upd b (fun r => r <| b_disk := 1 |>)%rec B) D) = io_bufs write b n B D.
Proof.
  intros Hr Hd; destruct write; simpl; rewrite !upd_upd.
  - apply upd_id; intros x Hx; rewrite Hr in Hx; injection Hx as <-; destruct r; simpl in *; by subst.
  - eapply upd_ext; [exact Hr |]; destruct r; simpl in *; by subst.
Qed.

Lemma virtio_disk_rw_run p b r (write : bool) s es o :
  vd_idle (k_vdisk s) -> k_cur s = Some p -> k_locks s = [] -> procs_ok s -> (p < NPROC)%nat ->
  k_bufs s !! b = Some r -> b_disk r = 0 -> 0 <= b_blockno r < 2 ^ 31 -> Forall (other_turn p) es ->
  exists s' P' V', Virtio.virtio_disk_rw b write s (es ++ io_turn dev p :: o) =
    Ok tt (dst s' [] P' (io_bufs write b (b_blockno r) (k_bufs s) (k_disk s)) (io_disk write r (b_blockno r) (k_disk s)) V') o /\
    k_cur s' = Some p /\ length P' = NPROC /\ vd_idle V'.
Proof.
  intros Hd Hc Hl HP Hp Hr Hdk Hn Hes; unfold Virtio.virtio_disk_rw.
  erewrite bind_ok by (by apply bufget_ok).
  change (BSIZE / 512) with 2; rewrite u32_small by lia.
  rewrite (dst_self s), Hl.
  set (B := k_bufs s) in *; set (D := k_disk s); set (d := k_vdisk s) in *; set (P := k_procs s).
  erewrite bind_ok by (apply dst_acquire; set_solver).
  erewrite bind_ok; [| apply ksleeploop_ret; erewrite bind_ok by (apply alloc3_desc_run, Hd); apply ret_ok]; cbn beta iota.
  erewrite bind_ok by (apply format_desc_run; destruct d; apply Hd).
  erewrite bind_ok by (by eapply dst_bufset).
  do 3 (erewrite bind_ok by apply dst_vd_mod); erewrite bind_ok by apply regs_notify.
  set (B1 := upd b _ B).
  match goal with |- context [dst s [LVdisk] P B1 D ?V] =>
    replace V with (submitted b (req_of (b_blockno r * 2) write) d) by (by destruct d, write) end.
  destruct (wait_run p b (r <| b_disk := 1 |>)%rec (b_blockno r * 2) write d D es o Hd Hes s P B1)
    as (s' & P' & Hc' & HP' & Hrun); try done; [by apply upd_lookup_eq |].
  erewrite bind_ok by exact Hrun; erewrite bind_ok by apply dst_vd_mod.
  rewrite Z.div_mul by done; unfold B1; rewrite (io_bufs_done write b _ r) by done.
  set (V := (served _ _ d <| vd_info_b ::= _ |>)%rec).
  destruct (free_chain_run b write (drop 3 (vd_desc d)) s' [LVdisk] P' (io_bufs write b (b_blockno r) B D)
    (io_disk write (r <| b_disk := 1 |>)%rec (b_blockno r) D) V o) as (P2 & HP2 & Hfree);
    [by destruct d, write | by destruct d | done | set_solver |].
  erewrite bind_ok by exact Hfree; rewrite dst_release.
  eexists s', P2, _; split; [by destruct write |]; split; [done |]; split; [done |].
  by apply served_idle.
Qed.

Lemma crash_disk_io b r (write : bool) s o :
  k_bufs s !! b = Some r ->
  crash_disk (fun _ => false) b write s o =
  Ok tt (s <| k_bufs := io_bufs write b (b_blockno r) (k_bufs s) (k_disk s) |>
           <| k_disk := io_disk write r (b_blockno r) (k_disk s) |>)%rec o.
Proof.
  intros Hr; unfold crash_disk; erewrite bind_ok by (by apply bufget_ok); destruct write; [by destruct s |].
  rewrite gets_bind; erewrite bufset_ok by exact Hr; by destruct s.
Qed.

(** C11: the driver carries out a request.  With the rings idle, virtio_disk_rw puts
    its request on the available ring, sleeps until the device has answered and
    the interrupt was handled, however often it is woken up before for other
    reasons, and returns with the buffers and the disk exactly as the block
    device of the buffer cache's specification leaves them: a read has stored the
    block in the buffer, a write has put the buffer on the disk, and nothing
    else changed.  The rings are idle again with their 16-bit indices advanced, wrap-around
    included, so that the next request finds three free descriptors. *)
Theorem virtio_disk_rw_refines (p b : nat) (r : buf) (write : bool) (s : kstate) (es o : oracle)
  (Hidle : vd_idle (k_vdisk s)) (Hcur : k_cur s = Some p) (Hlk : k_locks s = []) (Hprocs : procs_ok s)
  (Hp : (p < NPROC)%nat) (Hr : k_bufs s !! b = Some r) (Hdisk : b_disk r = 0) (Hn : 0 <= b_blockno r < 2 ^ 31)
  (Hes : Forall (other_turn p) es) :
  exists s' t, Virtio.virtio_disk_rw b write s (es ++ io_turn dev p :: o) = Ok tt s' o /\
    crash_disk (fun _ => false) b write s o = Ok tt t o /\
    k_bufs s' = k_bufs t /\ k_disk s' = k_disk t /\
    vd_idle (k_vdisk s') /\ k_locks s' = [] /\ k_cur s' = Some p /\ procs_ok s'.
Proof.
  destruct (virtio_disk_rw_run p b r write s es o Hidle Hcur Hlk Hprocs Hp Hr Hdisk Hn Hes)
    as (s' & P' & V' & Hrun & Hc' & HP' & HV').
  pose proof (crash_disk_io b r write s o Hr) as Ht.
  eexists _, _; split; [exact Hrun |]; split; [exact Ht |].
  rewrite dst_bufs, dst_vdisk; unfold procs_ok; rewrite dst_procs; by split_and!.
Qed.

Lemma rep_same (bdev pid : Z) s s' C H' :
  k_bufs s' = k_bufs s -> k_disk s' = k_disk s -> cache_rep bdev pid s C H' -> cache_rep bdev pid s' C H'.
Proof. intros Eb Ed [H1 H2 H3 H4 H5]; constructor; rewrite ?Eb, ?Ed; done. Qed.

(** bread() of the buffer cache with this driver below it: the buffer it returns
    has the block that is cached or on the disk. *)
Theorem bread_virtio (bdev pid : Z) (p : nat) (n : Z) (s : kstate) (es o : oracle) (C : gmap Z (list Z * Z)) (H' : gset Z)
  (Henv : env pid p s) (HR : cache_rep bdev pid s C H') (Hn : n ∉ H') (Hroom : C !! n = None -> (size C < NBUF)%nat)
  (Hcnt : forall d k, C !! n = Some (d, k) -> k + 1 < 2 ^ 32) (Hn31 : 0 <= n < 2 ^ 31)
  (Hidle : vd_idle (k_vdisk s)) (Hdisk : Forall (fun r => b_disk r = 0) (k_bufs s)) (Hes : Forall (other_turn p) es) :
  let os := es ++ io_turn dev p :: o in
  exists b s' o', (o' = os \/ o' = o) /\
    @bread virtio_device bdev n s os = Ok b s' o' /\
    cache_rep bdev pid s' (<[n := read_entry s C n]> C) ({[n]} ∪ H') /\ buffer_of s' b n /\
    k_disk s' = k_disk s /\ vd_idle (k_vdisk s').
Proof.
  intros os; destruct (bread_spec bdev pid p (fun _ => false) n s os C H' Henv HR Hn Hroom Hcnt)
    as (b & s1 & Hread & _ & _ & Hd1 & HR1 & Hbuf & _).
  enough (Hsim : exists s' o', (o' = os \/ o' = o) /\
    @bread virtio_device bdev n s os = Ok b s' o' /\ k_bufs s' = k_bufs s1 /\ k_disk s' = k_disk s1 /\ vd_idle (k_vdisk s')).
  { destruct Hsim as (s' & o' & Ho & Hrun & Eb & Ed & HV); exists b, s', o'; split_and!; try done; [| | congruence].
    - by apply (rep_same bdev pid s1).
    - unfold buffer_of; by rewrite Eb. }
  destruct (bget_run bdev pid p n s os C H' Henv HR Hn Hroom) as (b1 & r & Hb1 & Hr & Hcase).
  assert (Hdk : b_disk r = 0) by (eapply Forall_lookup_1 in Hdisk; [exact Hdisk | exact Hr]).
  assert (Hg : exists r1, b_blockno r1 = n /\ b_disk r1 = 0 /\
    bget bdev n s os = Ok b1 (s <| k_bufs ::= upd b1 (fun _ => r1) |>)%rec os).
  { destruct Hcase as [[Hh Hg] | (_ & _ & Hg)]; [exists (bget_hit pid r) | exists (bget_miss bdev pid n r)]; split_and!; try done.
    unfold holds in Hh; simpl; lia. }
  destruct Hg as (r1 & Hbn & Hdk1 & Hg); set (s2 := (s <| k_bufs ::= upd b1 (fun _ => r1) |>)%rec) in Hg.
  assert (Hr1 : k_bufs s2 !! b1 = Some r1) by (by apply (upd_lookup_eq b1 (fun _ => r1) _ r)).
  unfold bread in Hread |- *; erewrite bind_ok in Hread by exact Hg; erewrite bind_ok in Hread by (by apply bufget_ok).
  erewrite bind_ok by exact Hg; erewrite bind_ok by (by apply bufget_ok).
  destruct (b_valid r1 =? 0); cbn [kwhen] in Hread |- *.
  - assert (Hrd : exists r2, io_bufs false b1 n (k_bufs s2) (k_disk s2) !! b1 = Some r2) by (eexists; by apply upd_lookup_eq).
    destruct Hrd as [r2 Hr2]; destruct Henv as (Hc & Hl & HP & pr & Hpr & _).
    rewrite bind_assoc in Hread |- *; unfold Bio.virtio_disk_rw in Hread.
    erewrite bind_ok in Hread by (eapply crash_disk_io; exact Hr1); rewrite Hbn in Hread.
    erewrite bufset_bind, ret_ok in Hread by exact Hr2; injection Hread as <- <-.
    destruct (virtio_disk_rw_run p b1 r1 false s2 es o) as (s' & P' & V' & Hrun & Hc' & HP' & HV'); try done; [| lia |].
    { apply lookup_lt_Some in Hpr; unfold procs_ok in HP; lia. }
    rewrite Hbn in Hrun; erewrite bind_ok by exact Hrun; erewrite bind_ok by (by eapply dst_bufset).
    eexists _, o; split; [by right |]; split; [apply ret_ok |]; rewrite dst_bufs, dst_vdisk; by split_and!.
  - erewrite bind_ok, ret_ok in Hread by apply ret_ok; injection Hread as <- <-.
    erewrite bind_ok by apply ret_ok; exists s2, os; split; [by left |]; by split_and!.
Qed.
End Driver.

(** ** A device that follows the chain of descriptors *)

Definition chain_device (s : kstate) : kstate :=
  let d := k_vdisk s in
  if vd_avail_idx d =? vd_dev_idx d then s
  else default s (
    id ← vd_avail_ring d !! Z.to_nat (vd_dev_idx d mod Z.of_nat NUM);
    d0 ← vd_desc d !! Z.to_nat id;
    d1 ← vd_desc d !! Z.to_nat (vq_next d0);
    match vq_addr d0, vq_addr d1 with
    | DmaOp i, DmaData b =>
        rq ← vd_ops d !! i;
        r ← k_bufs s !! b;
        Some (answered (Z.to_nat id) b r rq s)
    | _, _ => None
    end).

#[export] Instance chain_device_answers : DiskAnswers chain_device.
Proof.
  intros s i0 i1 i2 b r rq (Hd & Hi & Ha) [H0 H1 H2 H3 _] Hr; unfold chain_device.
  rewrite (proj2 (Z.eqb_neq _ _)) by (rewrite Hi; by apply u16_succ_ne).
  rewrite Ha; simpl; rewrite Nat2Z.id, H0; simpl; rewrite Nat2Z.id, H1; simpl; rewrite H3; simpl; by rewrite Hr.
Qed.

(** Registers that only ring the bell. *)
Definition bell_mmio : Mmio := {| mmio_read := fun _ => mret 1; mmio_write := fun _ _ => mret tt; mmio_polls := 1 |}.

#[local] Instance bell_regs : @DiskRegs bell_mmio.
Proof. split; intros; [done | by exists 1 | done]. Qed.

(** Block 5 of the disk holds the letter A, the indices of the rings are about to wrap
    around, and buffer 0 is for block 5. *)
Definition demo_io : kstate :=
  (zero_state <| k_cur := Some 0%nat |> <| k_disk := {[ 5 := replicate (Z.to_nat BSIZE) 65 ]} |>
    <| k_bufs ::= upd 0 (fun r => r <| b_blockno := 5 |>) |>
    <| k_vdisk ::= fun d => d <| vd_free := replicate 8 1 |> <| vd_avail_idx := 65535 |> <| vd_dev_idx := 65535 |>
         <| vd_used_idx := 65535 |> |>)%rec.

Lemma virtio_disk_rw_refines_witness :
  exists s', @Virtio.virtio_disk_rw bell_mmio 0 false demo_io [id; @io_turn bell_mmio chain_device 0] = Ok tt s' [] /\
    b_data <$> (k_bufs s' !! 0%nat) = Some (replicate (Z.to_nat BSIZE) 65) /\ vd_idle (k_vdisk s').
Proof.
  destruct (@virtio_disk_rw_refines bell_mmio bell_regs chain_device chain_device_answers 0 0
    (zero_buf <| b_blockno := 5 |>)%rec false demo_io [id] []) as (s' & t & Hrun & Ht & Hb & Hd & HV & _).
  - by split.
  - reflexivity.
  - reflexivity.
  - reflexivity.
  - unfold NPROC; lia.
  - reflexivity.
  - reflexivity.
  - simpl; lia.
  - by repeat constructor.
  - exists s'; split; [exact Hrun |]; split; [| exact HV].
    rewrite Hb; injection Ht as <-; reflexivity.
Defined.
