(* ===== verification/Log.v ===== *)
(** The redo log, kernel/log.c.

    The log header is [log.lh] in memory and the block [log.start] on disk:
    [n] in its first word and the block numbers after it. *)
From stdpp Require Import base gmap list strings.
From Stdlib Require Import ZArith Lia ZifyBool.
From S2P Require Import Prelude Memory KPrintf State Monad Demo ProcBase Sleeplock Bio.

Local Open Scope Z_scope.

(** ** Words in a byte array *)

Definition sub (l : list Z) (off n : nat) : list Z := take n (drop off l).
Definition splice (l : list Z) (off : nat) (bs : list Z) : list Z :=
  take off l ++ bs ++ drop (off + length bs) l.

Definition get16 (l : list Z) (off : nat) : Z := le_bytes (sub l off 2).
Definition get32 (l : list Z) (off : nat) : Z := le_bytes (sub l off 4).
Definition put16 (off : nat) (v : Z) (l : list Z) : list Z := splice l off (bytes_le 2 v).
Definition put32 (off : nat) (v : Z) (l : list Z) : list Z := splice l off (bytes_le 4 v).

(** [hb->n] and [hb->block[i]] in a header block. *)
Definition hdr_n (l : list Z) : Z := i32 (get32 l 0).
Definition hdr_block (l : list Z) (i : nat) : Z := i32 (get32 l (4 + 4 * i)).

Definition log_mod (f : logstate -> logstate) : K unit :=
  modify (fun s => (s <| k_log ::= f |>)%rec).
Definition lh_mod (f : logheader -> logheader) : K unit :=
  log_mod (fun l => (l <| l_lh ::= f |>)%rec).

(** [log.lh.block[i]]; the array has LOGBLOCKS entries. *)
Definition lh_block_get (i : nat) : K Z :=
  lg ← gets k_log; from_option_K (lh_block (l_lh lg) !! i).
Definition lh_block_set (i : nat) (v : Z) : K unit :=
  _ ← lh_block_get i;
  lh_mod (fun h => (h <| lh_block ::= <[i := v]> |>)%rec).

Section Log.
Context `{BlockDevice}.

(** The header does not change while this runs: between the start of a commit
    and its end log.committing keeps begin_op() and so log_write() out, and
    recovery runs before them.  So the bound of the loop is read once. *)
Definition install_trans (recovering : bool) : K unit :=
  lg ← gets k_log;
  kfor_ (seqZ 0 (lh_n (l_lh lg))) (fun tail =>
    kwhen recovering
      (dst ← lh_block_get (Z.to_nat tail);
       printf "recovering tail %d dst %d\n" [VInt tail; VInt dst]) ;;
    lbuf ← bread (l_dev lg) (u32 (l_start lg + tail + 1));
    dst ← lh_block_get (Z.to_nat tail);
    dbuf ← bread (l_dev lg) (u32 dst);
    d ← bdata lbuf;
    bdata_set dbuf (fun _ => d) ;;
    bwrite dbuf ;;
    kwhen (negb recovering) (bunpin dbuf) ;;
    brelse lbuf ;;
    brelse dbuf).

Definition read_head : K unit :=
  lg ← gets k_log;
  b ← bread (l_dev lg) (u32 (l_start lg));
  d ← bdata b;
  lh_mod (fun h => (h <| lh_n := hdr_n d |>)%rec) ;;
  kfor_ (seqZ 0 (hdr_n d)) (fun i =>
    lh_block_set (Z.to_nat i) (hdr_block d (Z.to_nat i))) ;;
  brelse b.

Definition write_head : K unit :=
  lg ← gets k_log;
  b ← bread (l_dev lg) (u32 (l_start lg));
  lh ← gets (fun s => l_lh (k_log s));
  bdata_set b (put32 0 (lh_n lh)) ;;
  kfor_ (seqZ 0 (lh_n lh)) (fun i =>
    v ← lh_block_get (Z.to_nat i);
    bdata_set b (put32 (4 + 4 * Z.to_nat i) v)) ;;
  bwrite b ;;
  brelse b.

Definition recover_from_log : K unit :=
  read_head ;;
  install_trans true ;;
  lh_mod (fun h => (h <| lh_n := 0 |>)%rec) ;;
  write_head.

(** [sizeof(struct logheader)] *)
Definition sizeof_logheader : Z := 4 + 4 * LOGBLOCKS.

Definition initlog (dev : Z) (sb : superblock) : K unit :=
  if BSIZE <=? sizeof_logheader then panic "initlog: too big logheader"
  else
    initlock LLog ;;
    log_mod (fun l => (l <| l_start := i32 (sb_logstart sb) |>)%rec) ;;
    log_mod (fun l => (l <| l_dev := dev |>)%rec) ;;
    recover_from_log.

Definition begin_op : K unit :=
  acquire LLog ;;
  ksleeploop (fun _ : unit =>
    lg ← gets k_log;
    if negb (l_committing lg =? 0) then
      sleep ChLog LLog ;; mret (inl tt)
    else if LOGBLOCKS <? lh_n (l_lh lg) + (l_outstanding lg + 1) * MAXOPBLOCKS then
      sleep ChLog LLog ;; mret (inl tt)
    else
      log_mod (fun l => (l <| l_outstanding := l_outstanding l + 1 |>)%rec) ;;
      release LLog ;;
      mret (inr tt)) tt.

Definition write_log : K unit :=
  lg ← gets k_log;
  kfor_ (seqZ 0 (lh_n (l_lh lg))) (fun tail =>
    to ← bread (l_dev lg) (u32 (l_start lg + tail + 1));
    src ← lh_block_get (Z.to_nat tail);
    from ← bread (l_dev lg) (u32 src);
    d ← bdata from;
    bdata_set to (fun _ => d) ;;
    bwrite to ;;
    brelse from ;;
    brelse to).

Definition commit : K unit :=
  lg ← gets k_log;
  kwhen (0 <? lh_n (l_lh lg))
    (write_log ;;
     write_head ;;
     install_trans false ;;
     lh_mod (fun h => (h <| lh_n := 0 |>)%rec) ;;
     write_head).

Definition end_op : K unit :=
  acquire LLog ;;
  log_mod (fun l => (l <| l_outstanding := l_outstanding l - 1 |>)%rec) ;;
  lg ← gets k_log;
  if negb (l_committing lg =? 0) then panic "log.committing"
  else
    let do_commit := l_outstanding lg =? 0 in
    (if do_commit : bool then log_mod (fun l => (l <| l_committing := 1 |>)%rec)
     else wakeup ChLog) ;;
    release LLog ;;
    kwhen do_commit
      (commit ;;
       acquire LLog ;;
       log_mod (fun l => (l <| l_committing := 0 |>)%rec) ;;
       wakeup ChLog ;;
       release LLog).

(** The index at which [blockno] already is in the header, or [n]. *)
Definition log_slot (lh : logheader) (blockno : Z) : nat :=
  match list_find (fun x => x = i32 blockno) (take (Z.to_nat (lh_n lh)) (lh_block lh)) with
  | Some (i, _) => i
  | None => Z.to_nat (lh_n lh)
  end.

Definition log_write (b : nat) : K unit :=
  acquire LLog ;;
  lg ← gets k_log;
  if LOGBLOCKS <=? lh_n (l_lh lg) then panic "too big a transaction"
  else if l_outstanding lg <? 1 then panic "log_write outside of trans"
  else
    r ← bufget b;
    let i := log_slot (l_lh lg) (b_blockno r) in
    lh_block_set i (i32 (b_blockno r)) ;;
    kwhen (Z.of_nat i =? lh_n (l_lh lg))
      (bpin b ;;
       lh_mod (fun h => (h <| lh_n := lh_n h + 1 |>)%rec)) ;;
    release LLog.

End Log.
