(* ===== verification/LogSpec.v ===== *)
(** The redo log: transactions fit in it, a block is recorded once, and the
    header block on disk says what the header in memory says. *)
From stdpp Require Import base gmap list strings.
From Stdlib Require Import ZArith Lia ZifyBool.
From S2P Require Import Prelude Memory KPrintf State Monad Demo Kalloc ProcBase Vm Frame Sleeplock Bio BioSpec Log.

Local Open Scope Z_scope.

(** ** Words in a byte array *)

Lemma sub_app_l l r off n : (off + n <= length l)%nat -> sub (l ++ r) off n = sub l off n.
Proof.
  intros H; unfold sub; rewrite drop_app_le by lia; rewrite take_app_le; [done |].
  rewrite length_drop; lia.
Qed.

Lemma sub_app_r l r off n : sub (l ++ r) (length l + off) n = sub r off n.
Proof. unfold sub; rewrite drop_app_add; done. Qed.

Lemma sub_whole l : sub l 0 (length l) = l.
Proof. unfold sub; simpl; apply take_ge; lia. Qed.

Lemma splice_inside d o bs k n :
  (o + length bs <= length d)%nat -> (k + n <= length bs)%nat ->
  sub (splice d o bs) (o + k) n = sub bs k n.
Proof.
  intros Hd Hk; unfold splice.
  transitivity (sub (take o d ++ bs ++ drop (o + length bs) d) (length (take o d) + k) n).
  - f_equal; rewrite length_take; lia.
  - rewrite sub_app_r, sub_app_l by lia; done.
Qed.

Lemma splice_outside d o bs k n :
  (o + length bs <= length d)%nat -> (k + n <= o)%nat \/ (o + length bs <= k)%nat ->
  sub (splice d o bs) k n = sub d k n.
Proof.
  intros Hd [Hk | Hk]; unfold splice.
  - rewrite sub_app_l by (rewrite length_take; lia); unfold sub.
    rewrite <- (take_drop o d) at 2; rewrite drop_app_le, take_app_le;
      [done | rewrite length_drop, length_take; lia | rewrite length_take; lia].
  - rewrite app_assoc.
    replace k with (length (take o d ++ bs) + (k - (o + length bs)))%nat
      by (rewrite length_app, length_take; lia).
    rewrite sub_app_r, length_app, length_take; unfold sub; rewrite drop_drop; do 2 f_equal; lia.
Qed.

Lemma length_splice d o bs : (o + length bs <= length d)%nat -> length (splice d o bs) = length d.
Proof. intros; unfold splice; rewrite !length_app, length_take, length_drop; lia. Qed.

(** The word at [o'] of an array in which a word was stored at [o]. *)
Lemma get_put32 d o o' v :
  (o + 4 <= length d)%nat -> (o' = o \/ o' + 4 <= o \/ o + 4 <= o')%nat ->
  - 2 ^ 31 <= v < 2 ^ 31 ->
  i32 (get32 (put32 o v d) o') = if decide (o' = o) then v else i32 (get32 d o').
Proof.
  intros Hd Ho Hv; unfold get32, put32; case_decide as Heq.
  - subst o'; replace o with (o + 0)%nat at 2 by lia.
    rewrite splice_inside by (rewrite bytes_le_length; lia).
    replace 4%nat with (length (bytes_le 4 v)) at 2 by apply bytes_le_length; rewrite sub_whole, le_bytes_bytes_le.
    change (256 ^ Z.of_nat 4) with (2 ^ 32); unfold i32; rewrite Zplus_mod_idemp_l.
    exact (i32_small v Hv).
  - rewrite splice_outside by (rewrite bytes_le_length; lia); done.
Qed.

Lemma length_put32 d o v : (o + 4 <= length d)%nat -> length (put32 o v d) = length d.
Proof. intros; apply length_splice; rewrite bytes_le_length; lia. Qed.

(** ** Space *)

(** Every operation that is running can still write MAXOPBLOCKS blocks. *)
Definition log_space (lg : logstate) : Prop :=
  0 <= lh_n (l_lh lg) /\ 0 <= l_outstanding lg /\
  lh_n (l_lh lg) + l_outstanding lg * MAXOPBLOCKS <= LOGBLOCKS.

(** begin_op lets the next operation start. *)
Definition log_admits (lg : logstate) : bool :=
  (l_committing lg =? 0) && negb (LOGBLOCKS <? lh_n (l_lh lg) + (l_outstanding lg + 1) * MAXOPBLOCKS).

Section Space.
Context `{BlockDevice}.

(** begin_op() reserves log space.  It admits the operation at once, as one
    more outstanding, when no commit is running and MAXOPBLOCKS more blocks
    fit beside what is logged and what the running operations may still log;
    otherwise the caller sleeps on the log with log.lock free.  At most three
    operations run at a time. *)
Theorem begin_op_spec (i : nat) (p : proc) (s : kstate) (o : oracle)
  (Hcur : k_cur s = Some i) (Hp : k_procs s !! i = Some p) (Hl : k_locks s = [])
  (Hsp : log_space (k_log s)) :
  if log_admits (k_log s) then
    let s' := (s <| k_log ::= fun l => l <| l_outstanding ::= Z.succ |> |>)%rec in
    begin_op s o = Ok tt s' o /\ log_space (k_log s') /\ l_outstanding (k_log s') <= 3
  else begin_op s [] = Blocked (sleep_state i ChLog s).
Proof.
  set (s1 := (s <| k_locks := [LLog] |>)%rec).
  assert (Hs1 : (s <| k_locks ::= cons LLog |>)%rec = s1)
    by (unfold s1; destruct s; simpl in *; subst; done).
  unfold log_admits; destruct (Z.eqb_spec (l_committing (k_log s)) 0) as [Hc | Hc]; cbn [andb].
  - destruct (Z.ltb_spec LOGBLOCKS (lh_n (l_lh (k_log s)) + (l_outstanding (k_log s) + 1) * MAXOPBLOCKS));
      cbn [negb].
    + unfold begin_op; step_with acquire_ok; [| rewrite Hl; set_solver]; rewrite Hs1.
      apply ksleeploop_blocked; rewrite gets_bind; simpl; rewrite Hc; cbn [negb Z.eqb].
      replace (LOGBLOCKS <? _) with true by lia.
      unfold mbind, K_bind; erewrite sleep_blocked by done; done.
    + cbv zeta; split; [| unfold log_space, LOGBLOCKS, MAXOPBLOCKS in *; simpl; lia].
      unfold begin_op; step_with acquire_ok; [| rewrite Hl; set_solver]; rewrite Hs1.
      apply ksleeploop_ret; rewrite gets_bind; simpl; rewrite Hc; cbn [negb Z.eqb].
      replace (LOGBLOCKS <? _) with false by lia.
      unfold log_mod; rewrite modify_bind; step_with release_ok.
      rewrite ret_ok; f_equal; destruct s; simpl in *; subst; done.
  - unfold begin_op; step_with acquire_ok; [| rewrite Hl; set_solver]; rewrite Hs1.
    apply ksleeploop_blocked; rewrite gets_bind; simpl.
    replace (l_committing (k_log s) =? 0) with false by lia; cbn [negb].
    unfold mbind, K_bind; erewrite sleep_blocked by done; done.
Qed.

End Space.

Lemma begin_op_spec_witness :
  begin_op (zero_state <| k_cur := Some 0%nat |>)%rec [] =
    Ok tt (zero_state <| k_cur := Some 0%nat |>
             <| k_log ::= fun l => l <| l_outstanding ::= Z.succ |> |>)%rec [] /\
  begin_op (zero_state <| k_cur := Some 0%nat |>
              <| k_log ::= fun l => l <| l_outstanding := 3 |> |>)%rec [] =
    Blocked (sleep_state 0 ChLog (zero_state <| k_cur := Some 0%nat |>
              <| k_log ::= fun l => l <| l_outstanding := 3 |> |>)%rec).
Proof.
  split.
  - exact (proj1 (begin_op_spec 0 zero_proc (zero_state <| k_cur := Some 0%nat |>)%rec []
      eq_refl eq_refl eq_refl ltac:(vm_compute; intuition congruence))).
  - exact (begin_op_spec 0 zero_proc (zero_state <| k_cur := Some 0%nat |>
              <| k_log ::= fun l => l <| l_outstanding := 3 |> |>)%rec []
      eq_refl eq_refl eq_refl ltac:(vm_compute; intuition congruence)).
Defined.

(** ** Recording a block *)

(** The blocks of the transaction, in the order they were first written. *)
Definition logged (lh : logheader) : list Z := take (Z.to_nat (lh_n lh)) (lh_block lh).

Definition header_ok (lh : logheader) : Prop :=
  0 <= lh_n lh <= LOGBLOCKS /\ length (lh_block lh) = Z.to_nat LOGBLOCKS /\ NoDup (logged lh).

Lemma length_logged lh : header_ok lh -> length (logged lh) = Z.to_nat (lh_n lh).
Proof. intros (? & Hl & _); unfold logged; rewrite length_take, Hl; lia. Qed.

Lemma log_slot_in lh b i :
  header_ok lh -> log_slot lh b = i -> (i < Z.to_nat (lh_n lh))%nat ->
  logged lh !! i = Some (i32 b).
Proof.
  intros Hok; unfold log_slot; fold (logged lh).
  destruct (list_find _ _) as [[j x] |] eqn:E; [| lia].
  apply list_find_Some in E as (Hj & -> & _); intros <- _; done.
Qed.

Lemma log_slot_cases lh b :
  header_ok lh ->
  (i32 b ∈ logged lh /\ (log_slot lh b < Z.to_nat (lh_n lh))%nat) \/
  (i32 b ∉ logged lh /\ log_slot lh b = Z.to_nat (lh_n lh)).
Proof.
  intros Hok; unfold log_slot; fold (logged lh).
  destruct (list_find _ _) as [[j x] |] eqn:E.
  - apply list_find_Some in E as (Hj & -> & _); left; split.
    + by eapply list_elem_of_lookup_2.
    + rewrite <- (length_logged lh) by done; by eapply lookup_lt_Some.
  - right; split; [| done]; apply list_find_None in E; rewrite Forall_forall in E.
    intros Hin; by apply (E _ Hin).
Qed.

(** The header after log_write of block number [b]. *)
Definition logged_write (b : Z) (lh : logheader) : logheader :=
  if bool_decide (i32 b ∈ logged lh) then lh
  else mklogheader (lh_n lh + 1) (<[Z.to_nat (lh_n lh) := i32 b]> (lh_block lh)).

Lemma logged_write_ok b lh :
  header_ok lh -> lh_n lh < LOGBLOCKS ->
  header_ok (logged_write b lh) /\
  logged (logged_write b lh) =
    if bool_decide (i32 b ∈ logged lh) then logged lh else logged lh ++ [i32 b].
Proof.
  intros Hok Hlt; unfold logged_write; case_bool_decide as Hin; [done |].
  pose proof Hok as (Hn & Hl & Hd).
  assert (E : logged (mklogheader (lh_n lh + 1) (<[Z.to_nat (lh_n lh) := i32 b]> (lh_block lh))) =
              logged lh ++ [i32 b]).
  { unfold logged; simpl; replace (Z.to_nat (lh_n lh + 1)) with (S (Z.to_nat (lh_n lh))) by lia.
    erewrite take_S_r by (apply list_lookup_insert_eq; rewrite Hl; lia).
    rewrite take_insert_ge by lia; done. }
  split; [| exact E]; split; [simpl; lia |]; split; [simpl; by rewrite length_insert |].
  rewrite E; apply NoDup_app; split; [done |]; split; [set_solver | apply NoDup_singleton].
Qed.

Lemma bpin_run b r s o :
  k_bufs s !! b = Some r -> LBcache ∉ k_locks s ->
  bpin b s o =
  Ok tt (s <| k_bufs ::= upd b (fun r => r <| b_refcnt := u32 (b_refcnt r + 1) |>) |>)%rec o.
Proof.
  intros Hb Hl; unfold bpin; step_with acquire_ok; step_with bufset_ok.
  rewrite release_ok by (simpl; set_solver); f_equal; state_eq; rewrite decide_True by done; done.
Qed.

Lemma lh_block_set_run i v s o :
  (i < length (lh_block (l_lh (k_log s))))%nat ->
  lh_block_set i v s o =
  Ok tt (s <| k_log ::= fun l => l <| l_lh ::= fun h => h <| lh_block ::= <[i := v]> |> |> |>)%rec o.
Proof.
  intros Hi; unfold lh_block_set, lh_block_get.
  destruct (lookup_lt_is_Some_2 _ _ Hi) as [x Hx].
  rewrite bind_assoc, gets_bind, Hx; done.
Qed.

(** The state after log_write of buffer [b], which caches block [n]. *)
Definition log_written (b : nat) (n : Z) (s : kstate) : kstate :=
  let new := negb (bool_decide (i32 n ∈ logged (l_lh (k_log s)))) in
  let s' := (s <| k_log ::= fun l => l <| l_lh ::= logged_write n |> |>)%rec in
  if new then (s' <| k_bufs ::= upd b (fun r => r <| b_refcnt := u32 (b_refcnt r + 1) |>) |>)%rec
  else s'.

(** C30: log_write(b) records the buffer's block in the header of the current
    transaction exactly once: a block that is already there is absorbed and
    nothing changes; a new one goes to the end of the list and the buffer is
    pinned in the cache by one more reference.  The header stays well formed:
    within LOGBLOCKS entries and without duplicates.  With a full log, or
    outside of a transaction, it panics. *)
Theorem log_write_spec (b : nat) (r : buf) (s : kstate) (o : oracle)
  (Hl : k_locks s = []) (Hb : k_bufs s !! b = Some r) (Hok : header_ok (l_lh (k_log s))) :
  if LOGBLOCKS <=? lh_n (l_lh (k_log s)) then log_write b s o = Panic "too big a transaction"
  else if l_outstanding (k_log s) <? 1 then log_write b s o = Panic "log_write outside of trans"
  else
    let s' := log_written b (b_blockno r) s in
    log_write b s o = Ok tt s' o /\ header_ok (l_lh (k_log s')) /\
    logged (l_lh (k_log s')) =
      (if bool_decide (i32 (b_blockno r) ∈ logged (l_lh (k_log s))) then logged (l_lh (k_log s))
       else logged (l_lh (k_log s)) ++ [i32 (b_blockno r)]).
Proof.
  unfold log_write; step_with acquire_ok; [| rewrite Hl; set_solver]; rewrite gets_bind; simpl.
  destruct (Z.leb_spec LOGBLOCKS (lh_n (l_lh (k_log s)))) as [| Hlt]; [done |].
  destruct (Z.ltb_spec (l_outstanding (k_log s)) 1); [done |].
  destruct (logged_write_ok (b_blockno r) _ Hok Hlt) as [Hok' Hlog].
  cbv zeta; split; [| unfold log_written; destruct (negb _); done].
  pose proof Hok as (Hn & Hlen & _); step_with bufget_ok; cbv zeta.
  set (lh := l_lh (k_log s)) in *.
  destruct (log_slot_cases lh (b_blockno r) Hok) as [[Hin Hi] | [Hin Hi]].
  - erewrite bind_ok by (apply lh_block_set_run; simpl; fold lh; rewrite Hlen; lia).
    replace (Z.of_nat (log_slot lh (b_blockno r)) =? lh_n lh) with false by lia; cbn [kwhen].
    step_with @ret_ok; rewrite release_ok by set_solver; f_equal.
    pose proof (log_slot_in lh (b_blockno r) _ Hok eq_refl Hi) as Hsl.
    apply lookup_take_Some in Hsl as [Hsl _].
    unfold log_written, logged_write; rewrite bool_decide_eq_true_2 by done; cbn [negb].
    destruct s; state_norm; simpl in *; subst; f_equal.
    unfold lh in Hsl, Hin |- *; destruct k_log as [? ? ? ? [n bl]]; simpl in *.
    unfold set_field, set_l_lh, set_lh_block; simpl; rewrite list_insert_id by done.
    f_equal; unfold logged_write; rewrite bool_decide_eq_true_2 by done; done.
  - erewrite bind_ok by (apply lh_block_set_run; simpl; fold lh; rewrite Hlen; lia).
    replace (Z.of_nat (log_slot lh (b_blockno r)) =? lh_n lh) with true by lia; cbn [kwhen].
    rewrite bind_assoc; erewrite bind_ok by (apply bpin_run with (r := r); simpl; [done | rewrite Hl; set_solver]).
    unfold lh_mod, log_mod; rewrite modify_bind; rewrite release_ok by (simpl; set_solver); f_equal.
    unfold log_written; rewrite bool_decide_eq_false_2 by done; cbn [negb].
    unfold lh in Hin, Hi |- *; destruct s; state_norm; simpl in *; subst.
    destruct k_log as [? ? ? ? [n bl]]; simpl in *; f_equal.
    unfold set_field, set_l_lh, set_lh_block, set_lh_n; simpl; f_equal.
    unfold logged_write; rewrite bool_decide_eq_false_2 by done; rewrite Hi; done.
Qed.

Lemma log_write_spec_witness :
  let s := (zero_state <| k_log ::= fun l => l <| l_outstanding := 1 |> |>
              <| k_bufs ::= upd 4 (fun r => r <| b_blockno := 77 |> <| b_refcnt := 1 |>) |>)%rec in
  log_write 4 s [] = Ok tt (log_written 4 77 s) [] /\
  logged (l_lh (k_log (log_written 4 77 s))) = [77].
Proof.
  intros s.
  destruct (log_write_spec 4 (zero_buf <| b_blockno := 77 |> <| b_refcnt := 1 |>)%rec s [] eq_refl
    eq_refl ltac:(split; [vm_compute; intuition congruence |]; split; [reflexivity | constructor]))
    as (H1 & _ & H2).
  split; [exact H1 | exact H2].
Defined.
