(* ===== verification/CrashSpec.v ===== *)
(** Crash safety of the redo log, kernel/log.c.

    The machine may lose power before any write to the disk.  What recovery
    will make of a disk is [after_recovery]; a commit that is interrupted
    anywhere leaves a disk from which recovery makes either the blocks before
    the transaction or the blocks after it, and an interrupted recovery loses
    nothing. *)
From stdpp Require Import base gmap list strings.
From Stdlib Require Import ZArith Lia ZifyBool.
From S2P Require Import Prelude Memory KPrintf State Monad Demo ProcBase Sleeplock Bio BioSpec CacheSpec Log LogSpec.

Local Open Scope Z_scope.

(** ** What recovery makes of a disk *)

(** [B] with the first [n] logged blocks written over it: number [i] goes to
    block [home i] and has the contents [L i]. *)
Fixpoint replayed (L : nat -> list Z) (home : nat -> Z) (B : Z -> list Z) (n : nat) (m : Z) : list Z :=
  match n with
  | O => B m
  | S n' => if decide (home n' = m) then L n' else replayed L home B n' m
  end.

(** Block [m] once the log of disk [D], which starts at block [start], has been
    replayed. *)
Definition after_recovery (start : Z) (D : gmap Z (list Z)) (m : Z) : list Z :=
  let h := blk D start in
  replayed (fun i => blk D (start + Z.of_nat i + 1)) (hdr_block h) (blk D) (Z.to_nat (hdr_n h)) m.

Lemma replayed_ext L L' home home' B B' n m :
  (forall i, (i < n)%nat -> L i = L' i /\ home i = home' i) -> B m = B' m ->
  replayed L home B n m = replayed L' home' B' n m.
Proof.
  intros H HB; induction n as [| n IH]; simpl; [done |].
  destruct (H n) as [-> ->]; [lia |]; case_decide; [done |]; apply IH; intros; apply H; lia.
Qed.

Lemma replayed_cases L home B n m :
  (forall B', replayed L home B' n m = replayed L home B n m) \/
  (forall k, (k <= n)%nat -> replayed L home B k m = B m).
Proof.
  induction n as [| n IH]; simpl; [right; intros k Hk; by replace k with 0%nat by lia |].
  case_decide; [by left |]; destruct IH as [IH | IH]; [by left |]; right.
  intros k Hk; destruct (decide (k = S n)) as [-> |]; [| apply IH; lia].
  simpl; rewrite decide_False by done; apply IH; lia.
Qed.

(** Replaying again what was replayed in part. *)
Lemma replayed_again L home B B' n k m :
  (k <= n)%nat -> B' m = replayed L home B k m -> replayed L home B' n m = replayed L home B n m.
Proof.
  intros Hk HB; destruct (replayed_cases L home B n m) as [H | H]; [apply H |].
  rewrite H in HB by lia; by apply replayed_ext.
Qed.

(** ** The header block *)

(** [hb->n = log.lh.n] and the block numbers after it. *)
Definition header_block (lh : logheader) (n : nat) (d : list Z) : list Z :=
  foldl (fun h i => put32 (4 + 4 * i) (lh_block lh !!! i) h) (put32 0 (lh_n lh) d) (seq 0 n).

Lemma header_block_S lh n d :
  header_block lh (S n) d = put32 (4 + 4 * n) (lh_block lh !!! n) (header_block lh n d).
Proof. unfold header_block; rewrite seq_S, foldl_app; done. Qed.

Definition word_ok (v : Z) : Prop := - 2 ^ 31 <= v < 2 ^ 31.

Lemma header_block_spec lh n d :
  length d = Z.to_nat BSIZE -> (n <= 30)%nat -> word_ok (lh_n lh) ->
  (forall i, (i < n)%nat -> word_ok (lh_block lh !!! i)) ->
  length (header_block lh n d) = Z.to_nat BSIZE /\ hdr_n (header_block lh n d) = lh_n lh /\
  forall i, (i < n)%nat -> hdr_block (header_block lh n d) i = lh_block lh !!! i.
Proof.
  intros Hd Hn Hw Hb; assert (HB : Z.to_nat BSIZE = 1024%nat) by done.
  induction n as [| n IH].
  - change (header_block lh 0 d) with (put32 0 (lh_n lh) d).
    unfold hdr_n; rewrite get_put32, length_put32 by (try done; lia).
    rewrite decide_True by done; split_and!; [done | done | lia].
  - destruct IH as (IH1 & IH2 & IH3); [lia | intros; apply Hb; lia |].
    rewrite header_block_S; unfold hdr_n, hdr_block in *.
    rewrite length_put32 by lia; split; [done |]; split.
    + rewrite get_put32 by (try apply Hb; lia); rewrite decide_False by lia; done.
    + intros i Hi; rewrite get_put32 by (try apply Hb; lia).
      case_decide; [by replace i with n by lia | apply IH3; lia].
Qed.

(** ** Runs that a power failure may cut short *)

Section Crash.
Context (dev pid : Z) (p : nat) (stop : kstate -> bool).
#[local] Instance crash_dsk : BlockDevice := crash_disk stop.

(** The run of [m] from [s] returns and then [Q] holds, or the machine stops
    at a write and [E] holds of the disk. *)
Definition wp {A} (m : K A) (s : kstate) (Q : A -> kstate -> Prop) (E : gmap Z (list Z) -> Prop) : Prop :=
  forall o, (exists a s', m s o = Ok a s' o /\ Q a s') \/
            (exists s', m s o = Blocked s' /\ E (k_disk s') /\ exists t, stop t = true).

Lemma wp_bind {A B} (m : K A) (f : A -> K B) s Q E :
  wp m s (fun a s' => wp (f a) s' Q E) E -> wp (m ≫= f) s Q E.
Proof.
  intros H o; destruct (H o) as [(a & s' & Hm & Hf) | (s' & Hm & HE)].
  - destruct (Hf o) as [(b & s2 & Hf' & HQ) | (s2 & Hf' & HE)]; [left | right].
    + exists b, s2; split; [by erewrite bind_ok by exact Hm | done].
    + exists s2; split; [by erewrite bind_ok by exact Hm | done].
  - right; exists s'; split; [unfold mbind, K_bind; by rewrite Hm | done].
Qed.

Lemma wp_mono {A} (m : K A) s (Q Q' : A -> kstate -> Prop) (E E' : gmap Z (list Z) -> Prop) :
  wp m s Q E -> (forall a s', Q a s' -> Q' a s') -> (forall D, E D -> E' D) -> wp m s Q' E'.
Proof. intros H HQ HE o; destruct (H o); naive_solver. Qed.

Lemma wp_ok {A} (m : K A) s (Q : A -> kstate -> Prop) E :
  (forall o, exists a s', m s o = Ok a s' o /\ Q a s') -> wp m s Q E.
Proof. intros H o; left; apply H. Qed.

Lemma wp_ret {A} (a : A) s (Q : A -> kstate -> Prop) E : Q a s -> wp (mret a) s Q E.
Proof. intros; apply wp_ok; intros o; by exists a, s. Qed.

Lemma wp_gets {A} (f : kstate -> A) s (Q : A -> kstate -> Prop) E : Q (f s) s -> wp (gets f) s Q E.
Proof. intros; apply wp_ok; intros o; by exists (f s), s. Qed.

Lemma wp_for {A} (l : list A) (body : A -> K unit) (I : nat -> kstate -> Prop) s E :
  (forall i x s, l !! i = Some x -> I i s -> wp (body x) s (fun _ => I (S i)) E) -> I 0%nat s ->
  wp (kfor_ l body) s (fun _ => I (length l)) E.
Proof.
  revert I s; induction l as [| x l IH]; intros I s Hb H0.
  - by apply wp_ret.
  - change (kfor_ (x :: l) body) with (body x ;; kfor_ l body); apply wp_bind.
    eapply wp_mono; [by apply (Hb 0%nat x) | simpl; intros _ s1 H1 | done].
    apply (IH (fun i => I (S i))); [| done]; intros i y s2 Hy; by apply (Hb (S i)).
Qed.

(** ** The cache operations *)

(** Process [p] runs alone, with the blocks [C] in use, the blocks [H] held, the
    log [lg] and the disk [D]. *)
Definition st (lg : logstate) (D : gmap Z (list Z)) (C : gmap Z (list Z * Z)) (H : gset Z) (s : kstate) : Prop :=
  env pid p s /\ cache_rep dev pid s C H /\ k_log s = lg /\ k_disk s = D.

Lemma only_cache_log s s' : only_cache p s s' -> k_log s' = k_log s.
Proof. intros (? & ? & ? & _ & ->); done. Qed.

Section Rules.
Context (lg : logstate) (D : gmap Z (list Z)) (C : gmap Z (list Z * Z)) (H : gset Z).

Lemma wp_bread n s (Q : nat -> kstate -> Prop) E e :
  st lg D C H s -> n ∉ H -> (C !! n = None -> (size C < NBUF)%nat) ->
  e = match C !! n with Some (d, k) => (d, k + 1) | None => (blk D n, 1) end -> e.2 < 2 ^ 32 ->
  (forall b s', st lg D (<[n := e]> C) ({[n]} ∪ H) s' -> buffer_of s' b n -> keeps s s' -> Q b s') ->
  wp (bread dev n) s Q E.
Proof.
  intros (He & HR & Hlg & HD) Hn Hsz -> Hk HQ; apply wp_ok; intros o.
  destruct (bread_spec dev pid p stop n s o C H He HR Hn Hsz) as (b & s' & Hrun & He' & Ho & HD' & HR' & Hb & Hkp).
  { intros d k HC; rewrite HC in Hk; done. }
  exists b, s'; split; [done |]; apply HQ; [| done | done].
  split; [done |]; split; [| split; [by rewrite (only_cache_log _ _ Ho) | congruence]].
  unfold read_entry in HR'; by rewrite HD in HR'.
Qed.

Lemma wp_bdata n d k b s (Q : list Z -> kstate -> Prop) E :
  st lg D C H s -> buffer_of s b n -> C !! n = Some (d, k) -> Q d s -> wp (bdata b) s Q E.
Proof.
  intros (He & HR & _) Hb HC HQ; apply wp_ok; intros o; exists d, s; split; [| done].
  by eapply bdata_spec.
Qed.

Lemma wp_bdata_set n d k b f s (Q : unit -> kstate -> Prop) E :
  st lg D C H s -> buffer_of s b n -> C !! n = Some (d, k) ->
  (forall s', st lg D (<[n := (f d, k)]> C) H s' -> keeps s s' -> Q tt s') -> wp (bdata_set b f) s Q E.
Proof.
  intros (He & HR & Hlg & HD) Hb HC HQ; apply wp_ok; intros o.
  destruct (bdata_set_spec dev pid p s C H b n d k f o He HR Hb HC) as (s' & Hrun & He' & Ho & HD' & HR' & Hkp).
  exists tt, s'; split; [done |]; apply HQ; [| done].
  split_and!; try done; [by rewrite (only_cache_log _ _ Ho) | congruence].
Qed.

Lemma wp_bwrite n d k b s (Q : unit -> kstate -> Prop) E :
  st lg D C H s -> buffer_of s b n -> n ∈ H -> C !! n = Some (d, k) -> E D ->
  (forall s', st lg (<[n := d]> D) C H s' -> keeps s s' -> Q tt s') -> wp (bwrite b) s Q E.
Proof.
  intros (He & HR & Hlg & HD) Hb Hn HC HE HQ o.
  destruct (bwrite_spec dev pid p stop s C H b n d k o He HR Hb Hn HC) as (Hrun & He' & HR' & Hkp).
  change (@bwrite crash_dsk b s o) with (@bwrite (dsk stop) b s o); rewrite Hrun.
  destruct (stop s) eqn:Hs; [right; exists s; subst D; eauto | left].
  do 2 eexists; split; [reflexivity |]; apply HQ; [| done].
  split_and!; try done; simpl; congruence.
Qed.

Lemma wp_bunpin n d k b s (Q : unit -> kstate -> Prop) E :
  st lg D C H s -> buffer_of s b n -> C !! n = Some (d, k) -> 1 < k ->
  (forall s', st lg D (<[n := (d, k - 1)]> C) H s' -> keeps s s' -> Q tt s') -> wp (bunpin b) s Q E.
Proof.
  intros (He & HR & Hlg & HD) Hb HC Hk HQ; apply wp_ok; intros o.
  destruct (bunpin_spec dev pid p stop s C H b n d k o He HR Hb HC Hk) as (s' & Hrun & He' & Ho & HD' & HR' & Hkp).
  exists tt, s'; split; [done |]; apply HQ; [| done].
  unfold drop_ref in HR'; rewrite HC in HR'; replace (k =? 1) with false in HR' by lia.
  split_and!; try done; [by rewrite (only_cache_log _ _ Ho) | congruence].
Qed.

Lemma wp_brelse n d k b s (Q : unit -> kstate -> Prop) E :
  st lg D C H s -> buffer_of s b n -> n ∈ H -> C !! n = Some (d, k) -> (k = 1 -> d = blk D n) ->
  (forall s', st lg D (if k =? 1 then delete n C else <[n := (d, k - 1)]> C) (H ∖ {[n]}) s' ->
     (forall b2 m, m <> n -> buffer_of s b2 m -> buffer_of s' b2 m) -> Q tt s') ->
  wp (brelse b) s Q E.
Proof.
  intros (He & HR & Hlg & HD) Hb Hn HC Hcl HQ; apply wp_ok; intros o.
  destruct (brelse_spec dev pid p stop s C H b n d k o He HR Hb Hn HC) as (s' & Hrun & He' & Ho & HD' & HR' & Hkp).
  { by rewrite HD. }
  exists tt, s'; split; [done |]; apply HQ; [| done].
  unfold drop_ref in HR'; rewrite HC in HR'.
  split_and!; try done; [by rewrite (only_cache_log _ _ Ho) | congruence].
Qed.

End Rules.

Lemma st_eq lg D C H s C' H' : st lg D C H s -> C = C' -> H = H' -> st lg D C' H' s.
Proof. by intros ? <- <-. Qed.

(** ** The loops of the log *)

Definition in_log (start m : Z) : Prop := start <= m <= start + LOGBLOCKS.

(** The block that entry [i] of the header in memory names. *)
Definition home (lg : logstate) (i : nat) : Z := lh_block (l_lh lg) !!! i.
Definition entries (lg : logstate) : nat := Z.to_nat (lh_n (l_lh lg)).

(** The log is where the superblock says, and the header in memory names blocks
    outside of it. *)
Record log_ok (lg : logstate) : Prop := {
  log_dev : l_dev lg = dev;
  log_start : 0 <= l_start lg /\ l_start lg + LOGBLOCKS < 2 ^ 31;
  log_n : 0 <= lh_n (l_lh lg) <= LOGBLOCKS;
  log_len : length (lh_block (l_lh lg)) = Z.to_nat LOGBLOCKS;
  log_home : forall i, (i < entries lg)%nat -> 0 <= home lg i < 2 ^ 31 /\ ~ in_log (l_start lg) (home lg i)
}.

Section Loops.
Context (lg : logstate) (Hok : log_ok lg).

Lemma u32_start i : (i <= entries lg)%nat -> u32 (l_start lg + Z.of_nat i) = l_start lg + Z.of_nat i.
Proof.
  intros Hi; apply u32_small; destruct (log_start _ Hok), (log_n _ Hok); unfold entries, LOGBLOCKS, MAXOPBLOCKS in *; lia.
Qed.

Lemma wp_lh_block i D C H s (Q : Z -> kstate -> Prop) E :
  st lg D C H s -> (i < entries lg)%nat -> Q (home lg i) s -> wp (lh_block_get i) s Q E.
Proof.
  intros (_ & _ & Hlg & _) Hi HQ; apply wp_ok; intros o; exists (home lg i), s; split; [| done].
  unfold lh_block_get; rewrite gets_bind, Hlg, list_lookup_lookup_total_lt; [done |].
  rewrite (log_len _ Hok); destruct (log_n _ Hok); unfold entries in Hi; lia.
Qed.

Lemma home_fresh i j : (i < entries lg)%nat -> (j <= entries lg)%nat -> home lg i <> l_start lg + Z.of_nat j.
Proof.
  intros Hi Hj E; destruct (log_home _ Hok i Hi) as [_ Hn]; apply Hn; unfold in_log.
  destruct (log_n _ Hok); unfold entries in *; lia.
Qed.

Ltac look :=
  repeat first [ rewrite lookup_insert_eq | rewrite lookup_delete_eq
               | rewrite lookup_insert_ne by lia | rewrite lookup_delete_ne by lia ]; try done.
Ltac same_map a m :=
  apply map_eq; intros x;
  destruct (decide (x = a)) as [-> | ?]; [look; congruence |];
  destruct (decide (x = m)) as [-> | ?]; [look; congruence |]; look.

(** One turn of write_log: the cached block [home i] goes to log block [i]. *)
Lemma write_log_turn i d D C s E :
  (i < entries lg)%nat -> st lg D C ∅ s -> C !! home lg i = Some (d, 1) ->
  C !! (l_start lg + Z.of_nat (S i)) = None -> (size C < NBUF)%nat -> E D ->
  wp (to ← bread (l_dev lg) (u32 (l_start lg + Z.of_nat i + 1));
      src ← lh_block_get (Z.to_nat (Z.of_nat i));
      from ← bread (l_dev lg) (u32 src);
      d ← bdata from;
      bdata_set to (fun _ => d) ;; bwrite to ;; brelse from ;; brelse to)
    s (fun _ => st lg (<[l_start lg + Z.of_nat (S i) := d]> D) C ∅) E.
Proof.
  intros Hi Hst HC HL Hsz HE; rewrite (log_dev _ Hok), Nat2Z.id.
  replace (l_start lg + Z.of_nat i + 1) with (l_start lg + Z.of_nat (S i)) by lia; rewrite u32_start by lia.
  pose proof (home_fresh i (S i) Hi Hi) as Hne; destruct (log_home _ Hok i Hi) as [Hr _].
  set (a := l_start lg + Z.of_nat (S i)) in *; set (m := home lg i) in *.
  apply wp_bind; eapply wp_bread with (e := (blk D a, 1)); [done | set_solver | done | by rewrite HL | done | intros bt s1 H1 B1 _].
  apply wp_bind; eapply wp_lh_block; [done | done |]; fold m; rewrite u32_small by lia.
  apply wp_bind; eapply wp_bread with (e := (d, 2)); [done | set_solver | look; by rewrite HC | look; by rewrite HC | done |].
  intros bf s2 H2 B2 K2; apply wp_bind; eapply (wp_bdata _ _ _ _ m); [done | done | look |].
  apply wp_bind; eapply (wp_bdata_set _ _ _ _ a); [done | by apply K2 | look | intros s3 H3 K3].
  apply wp_bind; eapply (wp_bwrite _ _ _ _ a); [done | by apply K3, K2 | set_solver | look | done | intros s4 H4 K4].
  apply wp_bind; eapply (wp_brelse _ _ _ _ m); [done | by apply K4, K3 | set_solver | look | done | intros s5 H5 K5].
  cbn [Z.eqb Pos.eqb] in H5.
  eapply (wp_brelse _ _ _ _ a); [done | apply K5; [done | by apply K4, K3, K2] | set_solver | look | |].
  - intros _; unfold blk; look.
  - intros s6 H6 _; eapply st_eq; [exact H6 | | set_solver].
    cbn [Z.eqb Pos.eqb Z.sub]; same_map a m.
Qed.

Lemma wp_printf fmt ap D C H s (Q : unit -> kstate -> Prop) E :
  st lg D C H s -> is_Some (sprintf (lit fmt) ap) ->
  (forall s', st lg D C H s' -> Q tt s') -> wp (printf fmt ap) s Q E.
Proof.
  intros (He & HR & Hlg & HD) [out Ho] HQ; apply wp_ok; intros o; unfold printf; rewrite Ho.
  do 2 eexists; split; [reflexivity |]; apply HQ.
  split_and!; try done; destruct HR; split; done.
Qed.

Lemma recovering_prints a b : is_Some (sprintf (lit "recovering tail %d dst %d\n") [VInt a; VInt b]).
Proof. apply format_prints; reflexivity. Qed.

(** One turn of install_trans: log block [i] goes home, and the cache lets go
    of the block. *)
Lemma install_turn rec i D C s E :
  (i < entries lg)%nat -> st lg D C ∅ s -> C !! (l_start lg + Z.of_nat (S i)) = None ->
  (if rec : bool then C !! home lg i = None else exists d, C !! home lg i = Some (d, 1)) ->
  (S (size C) < NBUF \/ rec = false /\ size C < NBUF)%nat -> E D ->
  wp (kwhen rec
        (dst ← lh_block_get (Z.to_nat (Z.of_nat i));
         printf "recovering tail %d dst %d\n" [VInt (Z.of_nat i); VInt dst]) ;;
      lbuf ← bread (l_dev lg) (u32 (l_start lg + Z.of_nat i + 1));
      dst ← lh_block_get (Z.to_nat (Z.of_nat i));
      dbuf ← bread (l_dev lg) (u32 dst);
      d ← bdata lbuf;
      bdata_set dbuf (fun _ => d) ;;
      bwrite dbuf ;;
      kwhen (negb rec) (bunpin dbuf) ;;
      brelse lbuf ;;
      brelse dbuf)
    s (fun _ => st lg (<[home lg i := blk D (l_start lg + Z.of_nat (S i))]> D) (delete (home lg i) C) ∅) E.
Proof.
  intros Hi Hst HL HC Hsz HE; rewrite (log_dev _ Hok), Nat2Z.id.
  replace (l_start lg + Z.of_nat i + 1) with (l_start lg + Z.of_nat (S i)) by lia; rewrite u32_start by lia.
  pose proof (home_fresh i (S i) Hi Hi) as Hne; destruct (log_home _ Hok i Hi) as [Hr _].
  set (a := l_start lg + Z.of_nat (S i)) in *; set (m := home lg i) in *.
  apply wp_bind; apply wp_mono with (Q := fun _ => st lg D C ∅) (E := E); [| clear s Hst; intros _ s Hst | done].
  { destruct rec; cbn [kwhen]; [| by apply wp_ret]; apply wp_bind; eapply wp_lh_block; [done | done |].
    eapply wp_printf; [done | apply recovering_prints | done]. }
  set (k := if rec then 1 else 2).
  assert (He : exists d, (d, k) = match C !! m with Some (d, k) => (d, k + 1) | None => (blk D m, 1) end).
  { unfold k; destruct rec; [rewrite HC; eauto |]; destruct HC as [d ->]; eauto. }
  destruct He as [d He].
  apply wp_bind; eapply wp_bread with (e := (blk D a, 1)); [done | set_solver | lia | by rewrite HL | done | intros bl s1 H1 B1 _].
  apply wp_bind; eapply wp_lh_block; [done | done |]; fold m; rewrite u32_small by lia.
  apply wp_bind; eapply wp_bread with (e := (d, k)); [done | set_solver | | look | simpl; destruct rec; lia |].
  { look; intros Hm; rewrite map_size_insert_None by done; destruct rec; [lia |]; destruct HC; congruence. }
  intros bd s2 H2 B2 K2; apply wp_bind; eapply (wp_bdata _ _ _ _ a); [done | by apply K2 | look |].
  apply wp_bind; eapply (wp_bdata_set _ _ _ _ m); [done | done | look | intros s3 H3 K3].
  apply wp_bind; eapply (wp_bwrite _ _ _ _ m); [done | by apply K3 | set_solver | look | done | intros s4 H4 K4].
  apply wp_bind; apply wp_mono with (E := E) (Q := fun _ s5 => keeps s4 s5 /\
    st lg (<[m := blk D a]> D) (<[m := (blk D a, 1)]> (<[a := (blk D a, 1)]> C)) ({[m]} ∪ ({[a]} ∪ ∅)) s5);
    [| intros _ s5 [K5 H5] | done].
  { destruct rec; cbn [kwhen negb].
    - apply wp_ret; split; [by intros ? |]; eapply st_eq; [exact H4 | | done]; same_map a m.
    - eapply (wp_bunpin _ _ _ _ m); [done | by apply K4, K3 | look | done | intros s5 H5 K5].
      split; [done |]; eapply st_eq; [exact H5 | | done]; same_map a m. }
  apply wp_bind; eapply (wp_brelse _ _ _ _ a); [done | by apply K5, K4, K3, K2 | set_solver | look | | intros s6 H6 K6].
  { intros _; unfold blk; look. }
  cbn [Z.eqb Pos.eqb] in H6.
  eapply (wp_brelse _ _ _ _ m); [done | apply K6; [done | by apply K5, K4, K3] | set_solver | look | |].
  - intros _; unfold blk; look.
  - intros s7 H7 _; eapply st_eq; [exact H7 | | set_solver]; cbn [Z.eqb Pos.eqb]; same_map a m.
Qed.

(** A loop [for(i = 0; i < log.lh.n; i++)]. *)
Lemma wp_for_entries (body : Z -> K unit) (I : nat -> kstate -> Prop) s E :
  (forall i s, (i < entries lg)%nat -> I i s -> wp (body (Z.of_nat i)) s (fun _ => I (S i)) E) -> I 0%nat s ->
  wp (kfor_ (seqZ 0 (lh_n (l_lh lg))) body) s (fun _ => I (entries lg)) E.
Proof.
  intros Hb H0; eapply wp_mono; [apply (wp_for _ _ I); [| done] | | done].
  - intros i x s1 Hx Hs; apply lookup_seqZ in Hx; destruct Hx as [Hx Hi]; subst x.
    apply Hb; [unfold entries; lia | done].
  - intros ? s1; simpl; by rewrite length_seqZ.
Qed.

Lemma wp_write_head D C s E :
  st lg D C ∅ s -> C !! l_start lg = None -> (size C < NBUF)%nat -> E D ->
  wp write_head s
    (fun _ => st lg (<[l_start lg := header_block (l_lh lg) (entries lg) (blk D (l_start lg))]> D) C ∅) E.
Proof.
  intros Hst HC Hsz HE; unfold write_head; set (a := l_start lg) in *; set (d := blk D a).
  apply wp_bind, wp_gets; pose proof Hst as (_ & _ & -> & _); rewrite (log_dev _ Hok); fold a.
  replace (u32 a) with a by (pose proof (u32_start 0 ltac:(lia)) as Hu; rewrite Z.add_0_r in Hu; fold a in Hu; done).
  apply wp_bind; eapply wp_bread with (e := (d, 1)); [done | set_solver | done | by rewrite HC | done | intros b s1 H1 B1 _].
  apply wp_bind, wp_gets; pose proof H1 as (_ & _ & -> & _).
  apply wp_bind; eapply (wp_bdata_set _ _ _ _ a); [done | done | look | intros s2 H2 K2].
  apply wp_bind; eapply wp_mono; [apply (wp_for_entries _ (fun j s => buffer_of s b a /\
    st lg D (<[a := (header_block (l_lh lg) j d, 1)]> C) {[a]} s)) | | done].
  - intros i s3 Hi [B3 H3]; apply wp_bind; eapply wp_lh_block; rewrite ?Nat2Z.id; [done | done |].
    eapply (wp_bdata_set _ _ _ _ a); [done | done | look | intros s4 H4 K4]; split; [by apply K4 |].
    eapply st_eq; [exact H4 | | done]; rewrite header_block_S; same_map a a.
  - split; [by apply K2 |]; eapply st_eq; [exact H2 | | set_solver]; same_map a a.
  - simpl; intros _ s3 [B3 H3]; apply wp_bind.
    eapply (wp_bwrite _ _ _ _ a); [done | done | set_solver | look | done | intros s4 H4 K4].
    eapply (wp_brelse _ _ _ _ a); [done | by apply K4 | set_solver | look | |].
    + intros _; unfold blk; look.
    + intros s5 H5 _; eapply st_eq; [exact H5 | | set_solver]; cbn [Z.eqb Pos.eqb]; same_map a a.
Qed.

(** ** write_log and install_trans *)

(** What the blocks hold when the transaction in the cache is done. *)
Definition committed (D : gmap Z (list Z)) (C : gmap Z (list Z * Z)) (m : Z) : list Z :=
  match C !! m with Some (d, _) => d | None => blk D m end.

(** The entries from [j] on are pinned in the cache, unless this is recovery, and
    nothing else is in use. *)
Definition pinned (rec : bool) (j : nat) (C : gmap Z (list Z * Z)) : Prop :=
  (size C < NBUF)%nat /\ (forall m d k, C !! m = Some (d, k) -> k = 1) /\
  forall m, is_Some (C !! m) <-> rec = false /\ exists i, (j <= i < entries lg)%nat /\ home lg i = m.

Lemma pinned_log rec j C i : pinned rec j C -> (i <= entries lg)%nat -> C !! (l_start lg + Z.of_nat i) = None.
Proof.
  intros (_ & _ & Hp) Hi; apply eq_None_not_Some; intros Hs.
  apply Hp in Hs as (_ & k & Hk & Hh); revert Hh; apply home_fresh; lia.
Qed.

Lemma pinned_home j C i : pinned false j C -> (j <= i < entries lg)%nat -> exists d, C !! home lg i = Some (d, 1).
Proof.
  intros (_ & H1 & Hp) Hi; destruct (proj2 (Hp (home lg i))) as [[d k] Hd]; [eauto |].
  exists d; by rewrite Hd, (H1 _ _ _ Hd).
Qed.

Lemma wp_write_log D C s E :
  st lg D C ∅ s -> pinned false 0 C ->
  (forall D', (forall m, m <= l_start lg \/ l_start lg + LOGBLOCKS < m -> blk D' m = blk D m) -> E D') ->
  wp write_log s (fun _ s' => exists D', st lg D' C ∅ s' /\
    (forall i, (i < entries lg)%nat -> blk D' (l_start lg + Z.of_nat (S i)) = committed D C (home lg i)) /\
    (forall m, m <= l_start lg \/ l_start lg + LOGBLOCKS < m -> blk D' m = blk D m)) E.
Proof.
  intros Hst Hp HE; unfold write_log; apply wp_bind, wp_gets; pose proof Hst as (_ & _ & -> & _).
  apply (wp_for_entries _ (fun j s' => exists D', st lg D' C ∅ s' /\
    (forall i, (i < j)%nat -> blk D' (l_start lg + Z.of_nat (S i)) = committed D C (home lg i)) /\
    (forall m, m <= l_start lg \/ l_start lg + LOGBLOCKS < m -> blk D' m = blk D m)));
    [| exists D; split_and!; [done | lia | done]].
  intros i s1 Hi (D' & H1 & Hlog & Hout); destruct (pinned_home 0 C i Hp) as [d Hd]; [lia |].
  eapply wp_mono; [apply (write_log_turn i d D' C); [done | done | done | | apply Hp | by apply HE] | | done].
  - by eapply pinned_log.
  - intros ? s2 H2; eexists; split; [exact H2 |]; unfold blk; split.
    + intros j Hj; destruct (decide (j = i)) as [-> |]; [look; unfold committed; by rewrite Hd |].
      rewrite lookup_insert_ne by lia; apply Hlog; lia.
    + intros m Hm; rewrite lookup_insert_ne; [by apply Hout |].
      destruct (log_n _ Hok); unfold entries in Hi; lia.
Qed.

(** Entry [j] is installed and unpinned. *)
Lemma pinned_step rec j C :
  NoDup (logged (l_lh lg)) \/ rec = true -> (j < entries lg)%nat -> pinned rec j C ->
  pinned rec (S j) (delete (home lg j) C).
Proof.
  intros Hd Hj (Hs & H1 & Hp); split; [| split].
  - pose proof (map_size_delete (home lg j) C) as Hz; destruct (C !! home lg j); simpl in Hz; lia.
  - intros m d k Hm; apply lookup_delete_Some in Hm as [_ Hm]; eauto.
  - intros m; rewrite lookup_delete_is_Some, Hp; split.
    + intros (Hne & -> & i & Hi & Hh); split; [done |]; exists i; split; [| done].
      assert (i <> j) by congruence; lia.
    + intros (-> & i & Hi & Hh); split; [| split; [done |]; exists i; split; [lia | done]].
      intros Heq; destruct Hd as [Hd |]; [| done]; enough (j = i) by lia.
      assert (HL : forall k, (k < entries lg)%nat -> logged (l_lh lg) !! k = Some (home lg k)).
      { intros k Hk; unfold logged; rewrite lookup_take_lt by done; apply list_lookup_lookup_total_lt.
        rewrite (log_len _ Hok); destruct (log_n _ Hok); unfold entries in Hk; lia. }
      apply (NoDup_lookup _ _ _ (home lg j) Hd); rewrite HL by lia; congruence.
Qed.

Lemma pinned_done rec C : pinned rec (entries lg) C -> C = ∅.
Proof.
  intros (_ & _ & Hp); apply map_empty; intros m; apply eq_None_not_Some; rewrite Hp.
  intros (_ & i & Hi & _); lia.
Qed.

(** The log itself is not overwritten. *)
Lemma replayed_log L B n j :
  (n <= entries lg)%nat -> (j <= entries lg)%nat ->
  replayed L (home lg) B n (l_start lg + Z.of_nat j) = B (l_start lg + Z.of_nat j).
Proof.
  intros Hn Hj; induction n as [| n IH]; simpl; [done |].
  rewrite decide_False by (apply home_fresh; lia); apply IH; lia.
Qed.

Lemma wp_install rec D C s E :
  let log := fun i => blk D (l_start lg + Z.of_nat i + 1) in
  st lg D C ∅ s -> pinned rec 0 C -> NoDup (logged (l_lh lg)) \/ rec = true ->
  (forall D' j, (j <= entries lg)%nat -> (forall m, blk D' m = replayed log (home lg) (blk D) j m) -> E D') ->
  wp (install_trans rec) s (fun _ s' => exists D', st lg D' ∅ ∅ s' /\
    forall m, blk D' m = replayed log (home lg) (blk D) (entries lg) m) E.
Proof.
  intros log Hst Hp Hd HE; unfold install_trans; apply wp_bind, wp_gets; pose proof Hst as (_ & _ & -> & _).
  eapply wp_mono; [apply (wp_for_entries _ (fun j s' => exists D' C', st lg D' C' ∅ s' /\ pinned rec j C' /\
    forall m, blk D' m = replayed log (home lg) (blk D) j m)) | | done].
  - intros i s1 Hi (D' & C' & H1 & Hp' & Hv).
    eapply wp_mono; [eapply (install_turn rec i D' C'); [done | done | | | | eapply (HE D' i); [lia | done]] | | done].
    + by eapply pinned_log.
    + destruct rec; [| eapply pinned_home; [done | lia]].
      apply eq_None_not_Some; intros Hs; apply Hp' in Hs; naive_solver.
    + destruct rec; [left | right; split; [done | apply Hp']].
      replace C' with (∅ : gmap Z (list Z * Z)); [rewrite map_size_empty; vm_compute; lia |].
      symmetry; apply map_empty; intros m; apply eq_None_not_Some; intros Hs; apply Hp' in Hs; naive_solver.
    + intros ? s2 H2; do 2 eexists; split; [exact H2 |]; split; [by apply pinned_step |].
      intros m; simpl; unfold blk; case_decide as Hm.
      * subst m; look; simpl; unfold log; fold (blk D' (l_start lg + Z.of_nat (S i))).
        rewrite Hv, replayed_log by lia; f_equal; lia.
      * rewrite lookup_insert_ne by done; apply Hv.
  - by exists D, C.
  - simpl; intros ? s1 (D' & C' & H1 & Hp' & Hv); exists D'; split; [| done].
    eapply st_eq; [exact H1 | by eapply pinned_done | done].
Qed.

End Loops.

(** ** commit *)

(** The header on disk can be replayed. *)
Record header_valid (start : Z) (D : gmap Z (list Z)) : Prop := {
  valid_len : length (blk D start) = Z.to_nat BSIZE;
  valid_n : 0 <= hdr_n (blk D start) <= LOGBLOCKS;
  valid_home : forall i, Z.of_nat i < hdr_n (blk D start) ->
    0 <= hdr_block (blk D start) i < 2 ^ 31 /\ ~ in_log start (hdr_block (blk D start) i)
}.

Lemma header_valid_ext start D D' :
  blk D' start = blk D start -> header_valid start D -> header_valid start D'.
Proof. intros E [? ? ?]; split; by rewrite E. Qed.

Lemma header_valid_write lg D D1 :
  log_ok lg -> length (blk D (l_start lg)) = Z.to_nat BSIZE ->
  blk D1 (l_start lg) = header_block (l_lh lg) (entries lg) (blk D (l_start lg)) ->
  header_valid (l_start lg) D1 /\ hdr_n (blk D1 (l_start lg)) = lh_n (l_lh lg) /\
  forall i, (i < entries lg)%nat -> hdr_block (blk D1 (l_start lg)) i = home lg i.
Proof.
  intros Hok Hl E; assert (Hn30 : (entries lg <= 30)%nat).
  { pose proof (log_n _ Hok) as Hn; change LOGBLOCKS with 30 in Hn; unfold entries; lia. }
  destruct (header_block_spec (l_lh lg) (entries lg) (blk D (l_start lg)) Hl Hn30) as (E1 & E2 & E3).
  { pose proof (log_n _ Hok) as Hn; change LOGBLOCKS with 30 in Hn; unfold word_ok; lia. }
  { intros i Hi; destruct (log_home _ Hok i Hi); unfold word_ok, home in *; lia. }
  rewrite E; split_and!; try done; split; rewrite E; [done | rewrite E2; apply Hok |].
  intros i Hi; rewrite E2 in Hi; rewrite E3 by (unfold entries; lia); apply Hok; unfold entries; lia.
Qed.

(** With the header of [lg] on disk [D], recovery installs the entries of [lg]. *)
Lemma after_recovery_entries lg D m :
  hdr_n (blk D (l_start lg)) = lh_n (l_lh lg) ->
  (forall i, (i < entries lg)%nat -> hdr_block (blk D (l_start lg)) i = home lg i) ->
  after_recovery (l_start lg) D m =
  replayed (fun i => blk D (l_start lg + Z.of_nat i + 1)) (home lg) (blk D) (entries lg) m.
Proof.
  intros Hn Hh; unfold after_recovery; rewrite Hn; fold (entries lg); apply replayed_ext; [| done].
  intros i Hi; split; [done | by apply Hh].
Qed.

(** Nothing is lost while the entries are being installed. *)
Lemma after_recovery_install lg D D' j m :
  log_ok lg -> (j <= entries lg)%nat ->
  hdr_n (blk D (l_start lg)) = lh_n (l_lh lg) ->
  (forall i, (i < entries lg)%nat -> hdr_block (blk D (l_start lg)) i = home lg i) ->
  (forall m, blk D' m = replayed (fun i => blk D (l_start lg + Z.of_nat i + 1)) (home lg) (blk D) j m) ->
  blk D' (l_start lg) = blk D (l_start lg) /\
  after_recovery (l_start lg) D' m = after_recovery (l_start lg) D m.
Proof.
  intros Hok Hj Hn Hh Hv.
  assert (Hlog : forall i, (i <= entries lg)%nat -> blk D' (l_start lg + Z.of_nat i) = blk D (l_start lg + Z.of_nat i)).
  { intros i Hi; rewrite Hv; by apply replayed_log. }
  assert (Hs : blk D' (l_start lg) = blk D (l_start lg)).
  { specialize (Hlog 0%nat ltac:(lia)); by rewrite Z.add_0_r in Hlog. }
  split; [done |]; rewrite !after_recovery_entries by (rewrite ?Hs; done).
  rewrite <- (replayed_again _ _ (blk D) (blk D') _ j m Hj (Hv m)).
  apply replayed_ext; [| done]; intros i Hi; split; [| done].
  replace (l_start lg + Z.of_nat i + 1) with (l_start lg + Z.of_nat (S i)) by lia; by apply Hlog.
Qed.

Lemma wp_lh_mod f lg D C H s (Q : unit -> kstate -> Prop) E :
  st lg D C H s -> (forall s', st (lg <| l_lh ::= f |>)%rec D C H s' -> keeps s s' -> Q tt s') ->
  wp (lh_mod f) s Q E.
Proof.
  intros (He & HR & Hlg & HD) HQ; apply wp_ok; intros o; do 2 eexists; split; [reflexivity |].
  apply HQ; [| by intros ?].
  split_and!; [done | destruct HR; split; done | simpl; by rewrite Hlg | done].
Qed.

Lemma wp_lh_block_set i v lg D C H s (Q : unit -> kstate -> Prop) E :
  st lg D C H s -> (i < length (lh_block (l_lh lg)))%nat ->
  (forall s', st (lg <| l_lh ::= fun h => h <| lh_block ::= <[i := v]> |> |>)%rec D C H s' -> keeps s s' -> Q tt s') ->
  wp (lh_block_set i v) s Q E.
Proof.
  intros Hst Hi HQ; unfold lh_block_set; apply wp_bind; pose proof Hst as (_ & _ & Hlg & _).
  eapply wp_mono with (Q := fun _ s' => s' = s) (E := E); [| intros ? ? ->; by eapply wp_lh_mod | done].
  apply wp_ok; intros o; unfold lh_block_get.
  rewrite gets_bind, Hlg, list_lookup_lookup_total_lt by done; by do 2 eexists.
Qed.

(** The two outcomes of a transaction. *)
Definition atomic (lg : logstate) (D : gmap Z (list Z)) (C : gmap Z (list Z * Z)) (D' : gmap Z (list Z)) : Prop :=
  header_valid (l_start lg) D' /\
  ((forall m, ~ in_log (l_start lg) m -> after_recovery (l_start lg) D' m = blk D m) \/
   (forall m, ~ in_log (l_start lg) m -> after_recovery (l_start lg) D' m = committed D C m)).

(** The last write of commit and of recovery: an empty header. *)
Lemma wp_clear_head lg D s E :
  log_ok lg -> st lg D ∅ ∅ s -> length (blk D (l_start lg)) = Z.to_nat BSIZE -> E D ->
  wp (lh_mod (fun h => (h <| lh_n := 0 |>)%rec) ;; write_head) s (fun _ s' => exists D',
    st (lg <| l_lh ::= fun h => h <| lh_n := 0 |> |>)%rec D' ∅ ∅ s' /\
    header_valid (l_start lg) D' /\ hdr_n (blk D' (l_start lg)) = 0 /\
    (forall m, m <> l_start lg -> blk D' m = blk D m)) E.
Proof.
  intros Hok Hst Hl HE; apply wp_bind; eapply wp_lh_mod; [done |]; intros s1 H1 _.
  set (lg' := (lg <| l_lh ::= fun h => h <| lh_n := 0 |> |>)%rec) in *.
  assert (Hok' : log_ok lg').
  { destruct Hok; split; try done; intros i Hi; unfold entries in Hi; simpl in Hi; lia. }
  eapply wp_mono; [apply (wp_write_head lg' Hok' D ∅ s1 E); [done | done | vm_compute; lia | done] | | done].
  intros ? s2 H2; eexists; split; [exact H2 |].
  destruct (header_valid_write lg' D (<[l_start lg' := header_block (l_lh lg') (entries lg') (blk D (l_start lg'))]> D)
    Hok' Hl) as (V1 & V2 & _); [unfold blk at 1; by rewrite lookup_insert_eq |].
  split; [destruct V1; split; done |]; split; [exact V2 |].
  intros m Hm; unfold blk at 1; by rewrite lookup_insert_ne.
Qed.

Lemma not_in_log lg m :
  ~ in_log (l_start lg) m -> m <> l_start lg /\ (m <= l_start lg \/ l_start lg + LOGBLOCKS < m).
Proof. unfold in_log; change LOGBLOCKS with 30; lia. Qed.

(** The disk after the header was written: the transaction is committed. *)
Lemma replayed_committed lg D C D1 D2 m :
  log_ok lg -> pinned lg false 0 C -> ~ in_log (l_start lg) m -> 
  (forall i, (i < entries lg)%nat -> blk D1 (l_start lg + Z.of_nat (S i)) = committed D C (home lg i)) ->
  (forall m, m <= l_start lg \/ l_start lg + LOGBLOCKS < m -> blk D1 m = blk D m) ->
  (forall m, m <> l_start lg -> blk D2 m = blk D1 m) ->
  replayed (fun i => blk D2 (l_start lg + Z.of_nat i + 1)) (home lg) (blk D2) (entries lg) m = committed D C m.
Proof.
  intros Hok Hp Hm Hlog Hout H2; assert (Hall : forall n, (n <= entries lg)%nat ->
    (forall i, (n <= i < entries lg)%nat -> home lg i <> m) ->
    replayed (fun i => blk D2 (l_start lg + Z.of_nat i + 1)) (home lg) (blk D2) n m = committed D C m).
  2:{ apply Hall; lia. }
  induction n as [| n IH]; intros Hn Hnone; simpl.
  - rewrite H2, Hout by (by apply not_in_log); unfold committed.
    destruct (C !! m) as [x |] eqn:E; [| done]; exfalso.
    destruct (proj1 (proj2 (proj2 Hp) m)) as (_ & i & Hi & Hh); [eauto |]; by apply (Hnone i).
  - case_decide as E.
    + rewrite H2 by (pose proof (log_start _ Hok); lia).
      replace (l_start lg + Z.of_nat n + 1) with (l_start lg + Z.of_nat (S n)) by lia.
      rewrite Hlog, E by lia; done.
    + apply IH; [lia |]; intros i Hi; destruct (decide (i = n)) as [-> |]; [done | apply Hnone; lia].
Qed.

(** From here on the transaction survives, however far its installation got. *)
Lemma header_written lg D C D1 D2 :
  log_ok lg -> pinned lg false 0 C -> header_valid (l_start lg) D ->
  (forall i, (i < entries lg)%nat -> blk D1 (l_start lg + Z.of_nat (S i)) = committed D C (home lg i)) ->
  (forall m, m <= l_start lg \/ l_start lg + LOGBLOCKS < m -> blk D1 m = blk D m) ->
  D2 = <[l_start lg := header_block (l_lh lg) (entries lg) (blk D1 (l_start lg))]> D1 ->
  let installed := replayed (fun i => blk D2 (l_start lg + Z.of_nat i + 1)) (home lg) (blk D2) in
  (forall m, ~ in_log (l_start lg) m -> installed (entries lg) m = committed D C m) /\
  forall D' j, (j <= entries lg)%nat -> (forall m, blk D' m = installed j m) ->
    atomic lg D C D' /\ blk D' (l_start lg) = blk D2 (l_start lg).
Proof.
  intros Hok Hp Hv Hlog Hout E installed.
  assert (E1 : blk D1 (l_start lg) = blk D (l_start lg)) by (apply Hout; lia).
  assert (E2 : forall m, m <> l_start lg -> blk D2 m = blk D1 m)
    by (intros m Hm; rewrite E; unfold blk; by rewrite lookup_insert_ne).
  destruct (header_valid_write lg D1 D2 Hok) as (V1 & V2 & V3).
  { rewrite E1; apply Hv. }
  { rewrite E; unfold blk at 1; by rewrite lookup_insert_eq. }
  assert (Hinst : forall m, ~ in_log (l_start lg) m -> installed (entries lg) m = committed D C m)
    by (intros m Hm; by eapply replayed_committed).
  split; [exact Hinst |]; intros D' j Hj HD'.
  pose proof (fun m => after_recovery_install lg D2 D' j m Hok Hj V2 V3 HD') as Hkeep.
  split; [split; [eapply header_valid_ext; [apply (Hkeep 0) | done] | right] | apply (Hkeep 0)].
  intros m Hm; rewrite (proj2 (Hkeep m)), after_recovery_entries by done; by apply Hinst.
Qed.

Lemma wp_commit lg D C s :
  log_ok lg -> NoDup (logged (l_lh lg)) -> pinned lg false 0 C -> st lg D C ∅ s ->
  header_valid (l_start lg) D -> hdr_n (blk D (l_start lg)) = 0 ->
  wp commit s (fun _ s' => exists D', st (lg <| l_lh ::= fun h => h <| lh_n := 0 |> |>)%rec D' ∅ ∅ s' /\
    header_valid (l_start lg) D' /\ hdr_n (blk D' (l_start lg)) = 0 /\
    (forall m, ~ in_log (l_start lg) m -> blk D' m = committed D C m)) (atomic lg D C).
Proof.
  intros Hok Hd Hp Hst Hv H0; unfold commit; apply wp_bind, wp_gets; pose proof Hst as (_ & _ & Hlg & _).
  rewrite Hlg; destruct (Z.ltb_spec 0 (lh_n (l_lh lg))) as [Hn | Hn]; cbn [kwhen].
  2:{ assert (HC : C = ∅). { apply (pinned_done lg false); replace (entries lg) with 0%nat; [done |]; unfold entries; lia. }
      apply wp_ret; exists D; subst C; split_and!; try done.
      assert (lh_n (l_lh lg) = 0) by (pose proof (log_n _ Hok); lia).
      destruct lg as [? ? ? ? []]; simpl in *; subst; done. }
  assert (Hold : forall D', (forall m, m <= l_start lg \/ l_start lg + LOGBLOCKS < m -> blk D' m = blk D m) ->
    atomic lg D C D').
  { intros D' Hout; assert (E : blk D' (l_start lg) = blk D (l_start lg)) by (apply Hout; lia).
    split; [by eapply header_valid_ext | left]; intros m Hm; unfold after_recovery; rewrite E, H0; simpl.
    by apply Hout, not_in_log. }
  apply wp_bind; eapply wp_mono; [eapply (wp_write_log lg Hok D C s); eassumption | | done].
  simpl; intros _ s1 (D1 & H1 & Hlog & Hout).
  apply wp_bind; eapply wp_mono; [eapply (wp_write_head lg Hok D1 C s1); [exact H1 | | apply Hp | apply (Hold D1 Hout)] | | done].
  { pose proof (pinned_log lg Hok false 0 C 0 Hp ltac:(lia)) as HN; by rewrite Z.add_0_r in HN. }
  simpl; intros _ s2 H2; destruct (header_written _ D C D1 _ Hok Hp Hv Hlog Hout eq_refl) as [Hinst Hnew].
  set (D2 := <[l_start lg := _]> D1) in *.
  apply wp_bind; eapply wp_mono; [eapply (wp_install lg Hok false D2 C s2); [done | done | by left |] | | done].
  { intros D' j Hj HD'; by apply (Hnew D' j). }
  simpl; intros _ s3 (D3 & H3 & HD3); destruct (Hnew D3 (entries lg) (Nat.le_refl _) HD3) as [A3 B3].
  eapply wp_mono; [eapply (wp_clear_head lg D3 s3); [done | done | apply A3 | exact A3] | | done].
  simpl; intros _ s4 (D4 & H4 & W1 & W2 & W3); exists D4; split_and!; try done; intros m Hm.
  rewrite W3, HD3 by (by apply not_in_log); by apply Hinst.
Qed.

(** ** Recovery *)

(** The header in memory as read_head reads it. *)
Lemma wp_read_head lg D s E :
  l_dev lg = dev -> 0 <= l_start lg /\ l_start lg + LOGBLOCKS < 2 ^ 31 ->
  length (lh_block (l_lh lg)) = Z.to_nat LOGBLOCKS -> header_valid (l_start lg) D -> st lg D ∅ ∅ s ->
  wp read_head s (fun _ s' => exists lg', st lg' D ∅ ∅ s' /\ log_ok lg' /\ l_start lg' = l_start lg /\
    lh_n (l_lh lg') = hdr_n (blk D (l_start lg)) /\
    forall i, (i < entries lg')%nat -> hdr_block (blk D (l_start lg)) i = home lg' i) E.
Proof.
  intros Hdev Hs Hlen Hv Hst; pose proof (valid_n _ _ Hv) as Hn; change LOGBLOCKS with 30 in *.
  set (a := l_start lg) in *; set (h := blk D a) in *.
  unfold read_head; apply wp_bind, wp_gets; pose proof Hst as (_ & _ & -> & _); rewrite Hdev; fold a.
  rewrite u32_small by lia; apply wp_bind; eapply wp_bread with (e := (h, 1));
    [done | set_solver | vm_compute; lia | done | done | intros b s1 H1 B1 _].
  apply wp_bind; eapply (wp_bdata _ _ _ _ a); [done | done | by rewrite lookup_insert_eq |].
  apply wp_bind; eapply wp_lh_mod; [done | intros s2 H2 K2].
  set (lg1 := fun bl => (lg <| l_lh := mklogheader (hdr_n h) bl |>)%rec).
  apply wp_bind; eapply wp_mono; [apply (wp_for _ _ (fun j s => buffer_of s b a /\ exists bl,
    st (lg1 bl) D (<[a := (h, 1)]> ∅) ({[a]} ∪ ∅) s /\ length bl = 30%nat /\
    forall i, (i < j)%nat -> hdr_block h i = bl !!! i)) | | done].
  - intros j x s3 Hx; apply lookup_seqZ in Hx; destruct Hx as [-> Hj]; rewrite Z.add_0_l, Nat2Z.id.
    intros (B3 & bl & H3 & L3 & F3).
    assert (Hj30 : (j < length bl)%nat) by (revert Hn Hj; fold a h; lia).
    eapply wp_lh_block_set; [done | exact Hj30 | intros s4 H4 K4].
    split; [by apply K4 |]; exists (<[j := hdr_block h j]> bl); split; [exact H4 |].
    split; [by rewrite length_insert |]; intros i Hi; destruct (decide (i = j)) as [-> |].
    + rewrite list_lookup_total_insert_eq by lia; done.
    + rewrite list_lookup_total_insert_ne by done; apply F3; lia.
  - split; [by apply K2 |]; exists (lh_block (l_lh lg)); split; [| split; [done | lia]].
    unfold lg1; destruct lg as [? ? ? ? []]; exact H2.
  - simpl; intros _ s3 (B3 & bl & H3 & L3 & F3); rewrite length_seqZ in F3.
    eapply (wp_brelse _ _ _ _ a); [done | done | set_solver | by rewrite lookup_insert_eq | done | intros s4 H4 _].
    exists (lg1 bl); split; [eapply st_eq; [exact H4 | | set_solver]; simpl; by rewrite delete_insert_id |].
    split; [| split; [done | split; [done |]]].
    + split; try done; intros i Hi; unfold home; simpl.
      rewrite <- F3 by exact Hi; apply Hv; change (Z.of_nat i < hdr_n h).
      change (i < Z.to_nat (hdr_n h))%nat in Hi; lia.
    + intros i Hi; unfold home; simpl; apply F3; exact Hi.
Qed.

(** Recovery installs the transaction on disk, if there is one; recovery that is
    cut short can be repeated. *)
Lemma wp_recover lg D s :
  l_dev lg = dev -> 0 <= l_start lg /\ l_start lg + LOGBLOCKS < 2 ^ 31 ->
  length (lh_block (l_lh lg)) = Z.to_nat LOGBLOCKS -> header_valid (l_start lg) D -> st lg D ∅ ∅ s ->
  wp recover_from_log s
    (fun _ s' => exists lg' D', st lg' D' ∅ ∅ s' /\ l_start lg' = l_start lg /\ lh_n (l_lh lg') = 0 /\
       header_valid (l_start lg) D' /\ hdr_n (blk D' (l_start lg)) = 0 /\
       forall m, ~ in_log (l_start lg) m -> blk D' m = after_recovery (l_start lg) D m)
    (fun D' => header_valid (l_start lg) D' /\
       forall m, ~ in_log (l_start lg) m -> after_recovery (l_start lg) D' m = after_recovery (l_start lg) D m).
Proof.
  intros Hdev Hs Hlen Hv Hst; unfold recover_from_log.
  apply wp_bind; eapply wp_mono; [apply (wp_read_head lg D s); assumption | | intros ? HE; exact HE].
  simpl; intros _ s1 (lg1 & H1 & Hok & Hst1 & Hn1 & Hh1); rewrite <- Hst1 in *.
  assert (Hkeep : forall D' j, (j <= entries lg1)%nat -> (forall m, blk D' m =
    replayed (fun i => blk D (l_start lg1 + Z.of_nat i + 1)) (home lg1) (blk D) j m) ->
    header_valid (l_start lg1) D' /\
    forall m, ~ in_log (l_start lg1) m -> after_recovery (l_start lg1) D' m = after_recovery (l_start lg1) D m).
  { intros D' j Hj HD'; pose proof (fun m => after_recovery_install lg1 D D' j m Hok Hj (eq_sym Hn1) Hh1 HD') as Hk.
    split; [eapply header_valid_ext; [apply (Hk 0) | done] | intros m _; apply Hk]. }
  apply wp_bind; eapply wp_mono; [eapply (wp_install lg1 Hok true D ∅ s1); [done | | by right | exact Hkeep] | | done].
  { split; [vm_compute; lia |]; split; [done |]; intros m; rewrite lookup_empty.
    split; [by intros [? [=]] | by intros [[=] _]]. }
  simpl; intros _ s2 (D2 & H2 & HD2); destruct (Hkeep D2 (entries lg1) (Nat.le_refl _) HD2) as [V2 R2].
  eapply wp_mono; [eapply (wp_clear_head lg1 D2 s2 _ Hok H2 (valid_len _ _ V2) (conj V2 R2)) | | intros ? HE; exact HE].
  simpl; intros _ s3 (D3 & H3 & W1 & W2 & W3); do 2 eexists; split; [exact H3 |]; split_and!; try done.
  intros m Hm; rewrite W3, HD2 by (by apply not_in_log).
  symmetry; by apply after_recovery_entries.
Qed.

End Crash.

(** ** Starting again *)

(** The machine has started, with disk [D] and nothing in the buffer cache yet:
    the state in which initlog() calls recover_from_log(). *)
Record booted (dev start : Z) (D : gmap Z (list Z)) (s : kstate) : Prop := {
  boot_env : exists pid p, env pid p s /\ cache_rep dev pid s ∅ ∅;
  boot_disk : k_disk s = D;
  boot_dev : l_dev (k_log s) = dev;
  boot_start : l_start (k_log s) = start;
  boot_len : length (lh_block (l_lh (k_log s))) = Z.to_nat LOGBLOCKS
}.

(** Some number of recoveries, each cut short by a power failure. *)
Inductive interrupted (dev start : Z) : gmap Z (list Z) -> gmap Z (list Z) -> Prop :=
| int_none D : interrupted dev start D D
| int_again stop D s o s' D' :
    booted dev start D s -> @recover_from_log (crash_disk stop) s o = Blocked s' ->
    interrupted dev start (k_disk s') D' -> interrupted dev start D D'.

Definition log_place (start : Z) : Prop := 0 <= start /\ start + LOGBLOCKS < 2 ^ 31.

Lemma recover_booted dev start D s stop :
  log_place start -> header_valid start D -> booted dev start D s ->
  wp stop (@recover_from_log (crash_disk stop)) s
    (fun _ s' => header_valid start (k_disk s') /\ hdr_n (blk (k_disk s') start) = 0 /\
       forall m, ~ in_log start m -> blk (k_disk s') m = after_recovery start D m)
    (fun D' => header_valid start D' /\
       forall m, ~ in_log start m -> after_recovery start D' m = after_recovery start D m).
Proof.
  intros Hs Hv [(pid & p & He & HR) HD Hdev Hst Hlen].
  pose proof (wp_recover dev pid p stop (k_log s) D s Hdev) as Hw; rewrite Hst in Hw.
  eapply wp_mono; [apply Hw; try done | | done].
  intros [] s' (lg' & D' & (_ & _ & _ & ->) & _ & _ & H1 & H2 & H3); done.
Qed.

Lemma interrupted_keeps dev start D D' :
  log_place start -> interrupted dev start D D' -> header_valid start D ->
  header_valid start D' /\ forall m, ~ in_log start m -> after_recovery start D' m = after_recovery start D m.
Proof.
  intros Hs; induction 1 as [D | stop D s o s' D' Hb Hrun _ IH]; intros Hv; [done |].
  destruct (recover_booted dev start D s stop Hs Hv Hb o) as [(? & ? & Hr & _) | (s2 & Hr & [Hv2 Hk] & _)];
    rewrite Hr in Hrun; [done |]; injection Hrun as ->.
  destruct (IH Hv2) as [H1 H2]; split; [done |]; intros m Hm; by rewrite H2, Hk.
Qed.

(** C21: Recovery replays the log.  Started on a disk whose log header is valid,
    recover_from_log() returns with the logged blocks copied to where they
    belong, every other block as it was, and an empty log; if the power fails
    at any of its writes, the disk it leaves gives the same result when
    recovery is run again. *)
Theorem recover_from_log_spec (dev start : Z) (D : gmap Z (list Z)) (s : kstate) (stop : kstate -> bool) (o : oracle)
  (Hs : log_place start) (Hv : header_valid start D) (Hb : booted dev start D s) :
  match @recover_from_log (crash_disk stop) s o with
  | Ok tt s' _ => hdr_n (blk (k_disk s') start) = 0 /\
      forall m, ~ in_log start m -> blk (k_disk s') m = after_recovery start D m
  | Blocked s' => (exists t, stop t = true) /\ header_valid start (k_disk s') /\
      forall m, ~ in_log start m -> after_recovery start (k_disk s') m = after_recovery start D m
  | _ => False
  end.
Proof.
  destruct (recover_booted dev start D s stop Hs Hv Hb o) as [([] & s' & -> & H1 & H2) | (s' & -> & H1 & H2)]; done.
Qed.

(** The state in which end_op() calls commit(): the caller runs alone, the blocks of
    the transaction and only these are in use, each pinned once, they leave a
    buffer free, and the last transaction is complete. *)
Record committing (dev pid : Z) (p : nat) (C : gmap Z (list Z * Z)) (s : kstate) : Prop := {
  com_env : env pid p s;
  com_rep : cache_rep dev pid s C ∅;
  com_log : log_ok dev (k_log s);
  com_nodup : NoDup (logged (l_lh (k_log s)));
  com_pinned : pinned (k_log s) false 0 C;
  com_header : header_valid (l_start (k_log s)) (k_disk s);
  com_empty : hdr_n (blk (k_disk s) (l_start (k_log s))) = 0
}.

Lemma commit_run (dev pid : Z) (p : nat) (C : gmap Z (list Z * Z)) (s : kstate) (stop : kstate -> bool) (o : oracle)
  (Hc : committing dev pid p C s) :
  let start := l_start (k_log s) in
  match @commit (crash_disk stop) s o with
  | Ok tt s' _ => committing dev pid p ∅ s' /\ lh_n (l_lh (k_log s')) = 0 /\
      forall m, ~ in_log start m -> blk (k_disk s') m = committed (k_disk s) C m
  | Blocked s' => (exists t, stop t = true) /\
      forall D r o', interrupted dev start (k_disk s') D -> booted dev start D r ->
      exists r', @recover_from_log (crash_disk (fun _ => false)) r o' = Ok tt r' o' /\
        ((forall m, ~ in_log start m -> blk (k_disk r') m = blk (k_disk s) m) \/
         (forall m, ~ in_log start m -> blk (k_disk r') m = committed (k_disk s) C m))
  | _ => False
  end.
Proof.
  intros start; destruct Hc as [He HR Hok Hd Hp Hv H0].
  assert (Hst : st dev pid p (k_log s) (k_disk s) C ∅ s) by done.
  pose proof (log_start _ _ Hok) as Hs; change (@commit (crash_disk stop)) with (@commit (crash_dsk stop)).
  destruct (wp_commit dev pid p stop _ _ _ _ Hok Hd Hp Hst Hv H0 o) as
    [([] & s' & -> & D' & (He' & HR' & Hlg & <-) & V1 & V2 & V3) | (s' & -> & [Hv' Hat] & Hstop)].
  - split; [| by rewrite Hlg].
    split; rewrite ?Hlg; try done.
    + destruct Hok; split; try done; intros i Hi; unfold entries in Hi; simpl in Hi; lia.
    + constructor.
    + split; [vm_compute; lia |]; split; [done |]; intros m; rewrite lookup_empty; split; [by intros [? [=]] |].
      intros (_ & i & Hi & _); unfold entries in Hi; simpl in Hi; lia.
  - split; [done |]; intros D r o' Hint Hb; destruct (interrupted_keeps _ _ _ _ Hs Hint Hv') as [Hv2 Hk].
    destruct (recover_booted dev start D r (fun _ => false) Hs Hv2 Hb o') as
      [([] & r' & Hr & _ & _ & Hdisk) | (? & _ & _ & ? & [=])].
    exists r'; split; [done |].
    destruct Hat as [Hat | Hat]; [left | right]; intros m Hm; by rewrite Hdisk, Hk, Hat.
Qed.

(** C1: Transactions are atomic.  commit() either returns, with all blocks of the
    transaction at their places on disk, all other blocks unchanged and the
    log empty, or the power fails at one of its writes.  In that case, after
    any number of recoveries that fail as well, the first recovery that
    completes gives a disk that holds either what it held before the
    transaction, in every block outside of the log, or what it holds after
    it.  The transaction does not fill the log: it has fewer than
    NBUF, that is LOGBLOCKS, blocks, so that the cache has a buffer left for the log blocks. *)
Theorem commit_atomic (dev pid : Z) (p : nat) (C : gmap Z (list Z * Z)) (s : kstate) (stop : kstate -> bool) (o : oracle)
  (Hc : committing dev pid p C s) :
  let start := l_start (k_log s) in
  match @commit (crash_disk stop) s o with
  | Ok tt s' _ => committing dev pid p ∅ s' /\ lh_n (l_lh (k_log s')) = 0 /\
      forall m, ~ in_log start m -> blk (k_disk s') m = committed (k_disk s) C m
  | Blocked s' => (exists t, stop t = true) /\
      forall D r o', interrupted dev start (k_disk s') D -> booted dev start D r ->
      exists r', @recover_from_log (crash_disk (fun _ => false)) r o' = Ok tt r' o' /\
        ((forall m, ~ in_log start m -> blk (k_disk r') m = blk (k_disk s) m) \/
         (forall m, ~ in_log start m -> blk (k_disk r') m = committed (k_disk s) C m))
  | _ => False
  end.
Proof. by apply commit_run. Qed.

(** ** A machine to try it on *)

Lemma rep_boot dev pid s L :
  lru (k_bufs s) L ->
  Forall (fun r => b_refcnt r = 0 /\ sl_locked (b_lock r) = 0 /\ b_dev r <> dev) (k_bufs s) ->
  cache_rep dev pid s ∅ ∅.
Proof.
  intros HL HF; rewrite Forall_lookup in HF; split; [by exists L | | | done | set_solver].
  - intros b r _ Hr; destruct (HF b r Hr) as (H1 & H2 & H3); split; [lia |]; split; [| lia]; done.
  - intros b b' r r' _ _ Hr _ Hd; destruct (HF b r Hr) as (_ & _ & H3); done.
Qed.

(** One block, held by no one else, is in use. *)
Lemma rep_one dev pid s s' b r r' :
  cache_rep dev pid s ∅ ∅ -> (b < NBUF)%nat -> k_bufs s !! b = Some r ->
  Forall (fun r => b_dev r <> dev) (k_bufs s) -> b_refcnt r = 0 ->
  b_prev r' = b_prev r -> b_next r' = b_next r -> b_dev r' = dev -> b_valid r' <> 0 -> b_refcnt r' = 1 ->
  sl_locked (b_lock r') = 0 -> k_bufs s' = upd b (fun _ => r') (k_bufs s) -> k_disk s' = k_disk s ->
  cache_rep dev pid s' {[ b_blockno r' := (b_data r', 1) ]} ∅.
Proof.
  intros HR Hb Hr HF Hz Hp Hn Hd Hv Hk Hl Hbufs Hdisk; rewrite Forall_lookup in HF.
  eapply (rep_change dev pid s s' ∅ _ ∅ ∅ b r r' (b_blockno r')); try done.
  - intros b2 r2 _ _ Hr2 Hd2; by destruct (HF b2 r2 Hr2).
  - intros m Hm; rewrite lookup_singleton_ne, Hdisk by done; done.
  - split; [lia |]; split; [lia |]; intros _; rewrite lookup_singleton_eq, Hk; split_and!; done.
Qed.

(** Device 1 with the log at block 2, after binit(). *)
Definition demo_bufs : list buf :=
  match binit zero_state [] with Ok _ s _ => k_bufs s | _ => [] end.
Definition demo_boot : kstate :=
  (zero_state <| k_cur := Some 0%nat |> <| k_bufs := demo_bufs |>
     <| k_log := mklogstate 2 0 0 1 (mklogheader 0 (replicate 30 0)) |>)%rec.

(** A transaction that writes block 50. *)
Definition demo_data : list Z := replicate 1024 7.
Definition demo_write (r : buf) : buf :=
  (r <| b_valid := 1 |> <| b_dev := 1 |> <| b_blockno := 50 |> <| b_refcnt := 1 |> <| b_data := demo_data |>)%rec.
Definition demo_commit : kstate :=
  (demo_boot <| k_bufs ::= upd 0 demo_write |>
     <| k_log := mklogstate 2 0 1 1 (mklogheader 1 (50 :: replicate 29 0)) |>)%rec.

Lemma demo_rep : cache_rep 1 0 demo_boot ∅ ∅.
Proof.
  apply (rep_boot 1 0 demo_boot (rev (seq 0 NBUF))).
  - split; [reflexivity |]; split; [symmetry; apply Permutation_rev |].
    split; vm_compute; repeat split.
  - apply (bool_decide_unpack _); vm_compute; reflexivity.
Qed.

Lemma demo_env s : k_cur s = Some 0%nat -> k_locks s = [] -> k_procs s = k_procs demo_boot -> env 0 0 s.
Proof.
  intros Hc Hl Hp; split; [done |]; split; [done |]; split; [unfold procs_ok; rewrite Hp; reflexivity |].
  rewrite Hp; eexists; split; reflexivity.
Qed.

Lemma demo_booted : booted 1 2 ∅ demo_boot.
Proof. split; try reflexivity; exists 0, 0%nat; split; [by apply demo_env | exact demo_rep]. Qed.

Lemma demo_valid : header_valid 2 ∅.
Proof. split; [reflexivity | vm_compute; split; discriminate |]; intros i Hi; change (Z.of_nat i < 0) in Hi; lia. Qed.

Lemma demo_entry i : (i < entries (k_log demo_commit))%nat -> i = 0%nat.
Proof. change (entries (k_log demo_commit)) with 1%nat; lia. Qed.

Lemma demo_pinned : pinned (k_log demo_commit) false 0 {[ 50 := (demo_data, 1) ]}.
Proof.
  split; [vm_compute; lia |]; split.
  - intros m d k Hm; apply lookup_singleton_Some in Hm as [_ [=]]; done.
  - intros m; rewrite lookup_singleton_is_Some; split.
    + intros <-; split; [done |]; exists 0%nat; split; [vm_compute; lia | reflexivity].
    + intros (_ & i & Hi & Hh); rewrite (demo_entry i) in Hh by lia; exact Hh.
Qed.

Lemma demo_committing : committing 1 0 0 {[ 50 := (demo_data, 1) ]} demo_commit.
Proof.
  assert (El : l_start (k_log demo_commit) = 2) by reflexivity.
  assert (Ed : k_disk demo_commit = ∅) by reflexivity.
  split; rewrite ?El, ?Ed; [apply demo_env; vm_compute; reflexivity | | | | exact demo_pinned | exact demo_valid | vm_compute; reflexivity].
  - assert (Hr : exists r, k_bufs demo_boot !! 0%nat = Some r /\ b_refcnt r = 0 /\ sl_locked (b_lock r) = 0)
      by (eexists; split; [reflexivity |]; split; reflexivity).
    destruct Hr as (r & Hr & Hz & Hl).
    pose proof (rep_one 1 0 demo_boot demo_commit 0 r (demo_write r) demo_rep ltac:(vm_compute; lia) Hr) as H1.
    apply H1; [apply (bool_decide_unpack _); vm_compute; reflexivity | exact Hz | reflexivity | reflexivity
      | reflexivity | done | reflexivity | exact Hl | by apply upd_const | vm_compute; reflexivity].
  - split; [reflexivity | vm_compute; split; [discriminate | reflexivity] | vm_compute; split; discriminate | reflexivity |].
    intros i Hi; rewrite (demo_entry i Hi); vm_compute; intuition discriminate.
  - apply NoDup_singleton.
Qed.

Lemma recover_from_log_spec_witness :
  match @recover_from_log (crash_disk (fun _ => true)) demo_boot [] with
  | Blocked s' => header_valid 2 (k_disk s')
  | _ => False
  end.
Proof.
  pose proof (recover_from_log_spec 1 2 ∅ demo_boot (fun _ => true) []
    ltac:(split; [lia | vm_compute; reflexivity]) demo_valid demo_booted) as H.
  destruct (@recover_from_log _ demo_boot []) as [[] s' o' | | s' | |] eqn:E; [| exact H | apply H | exact H | exact H].
  vm_compute in E; discriminate.
Defined.

Lemma commit_atomic_witness :
  match @commit (crash_disk (fun _ => false)) demo_commit [] with
  | Ok tt s' _ => blk (k_disk s') 50 = demo_data
  | _ => False
  end.
Proof.
  pose proof (commit_atomic 1 0 0 _ demo_commit (fun _ => false) [] demo_committing) as H; cbv zeta in H.
  destruct (@commit _ demo_commit []) as [[] s' o' | | s' | |]; [| exact H | destruct H as [[? [=]] _] | exact H | exact H].
  destruct H as (_ & _ & H); rewrite (H 50) by (vm_compute; intuition discriminate); reflexivity.
Defined.

(** A transaction that fills the log: LOGBLOCKS blocks, and all NBUF buffers of
    the cache hold one of them. *)
Definition demo_full : kstate :=
  (demo_boot <| k_bufs ::= imap (fun i r => if Nat.eqb i NBUF then r else
                  r <| b_valid := 1 |> <| b_dev := 1 |> <| b_blockno := 50 + Z.of_nat i |> <| b_refcnt := 1 |>) |>
     <| k_log := mklogstate 2 0 1 1 (mklogheader 30 (seqZ 50 30)) |>)%rec.

(** LOGBLOCKS equals NBUF, so that commit() finds no buffer for the log block and
    panics, although log_write() accepted every block. *)
Lemma commit_full_panics :
  @commit (crash_disk (fun _ => false)) demo_full [] = Panic "bget: no buffers" /\
  lh_n (l_lh (k_log demo_full)) = LOGBLOCKS /\ Z.of_nat NBUF = LOGBLOCKS.
Proof. vm_compute; done. Qed.
