(* ===== verification/Fs.v ===== *)
(** The file system, kernel/fs.c with the on-disk layout of kernel/fs.h:
    block allocator, inodes, file contents, directories and path names.

    A pointer into the inode table is an index.  The on-disk inode [inum] is
    the 64 bytes at [(inum % IPB) * 64] of the block [IBLOCK(inum)]. *)
From stdpp Require Import base gmap list strings.
From Stdlib Require Import ZArith Lia ZifyBool.
From S2P Require Import Prelude Fcntl Memory KPrintf State Monad Demo Kalloc ProcBase Vm Sleeplock Bio Log.

Local Open Scope Z_scope.

(** ** fs.h, stat.h *)

Definition FSMAGIC : Z := 0x10203040.
Definition ROOTINO : Z := 1.
Definition sizeof_dinode : nat := 64.
Definition sizeof_dirent : Z := 16.
Definition IPB : Z := BSIZE / Z.of_nat sizeof_dinode.
Definition IBLOCK (i : Z) (sb : superblock) : Z := u32 (i / IPB + sb_inodestart sb).
Definition BPB : Z := BSIZE * 8.
Definition BBLOCK (b : Z) (sb : superblock) : Z := u32 (b / BPB + sb_bmapstart sb).

(** Fields of struct dinode at byte offset [o] of a block. *)
Definition dip_off (inum : Z) : nat := Z.to_nat (inum mod IPB) * sizeof_dinode.
Definition dip_type (d : list Z) (o : nat) : Z := i16 (get16 d o).
Definition dip_major (d : list Z) (o : nat) : Z := i16 (get16 d (o + 2)).
Definition dip_minor (d : list Z) (o : nat) : Z := i16 (get16 d (o + 4)).
Definition dip_nlink (d : list Z) (o : nat) : Z := i16 (get16 d (o + 6)).
Definition dip_size (d : list Z) (o : nat) : Z := get32 d (o + 8).
Definition dip_addrs (d : list Z) (o : nat) : list Z :=
  (fun i => get32 d (o + 12 + 4 * i)) <$> seq 0 13.

(** The bytes of a struct dinode with the fields of [ip]. *)
Definition dinode_bytes (ip : inode) : list Z :=
  bytes_le 2 (i_type ip) ++ bytes_le 2 (i_major ip) ++ bytes_le 2 (i_minor ip) ++
  bytes_le 2 (i_nlink ip) ++ bytes_le 4 (i_size ip) ++ concat (bytes_le 4 <$> i_addrs ip).

(** struct dirent *)
Definition dirent_inum (de : list Z) : Z := get16 de 0.
Definition dirent_name (de : list Z) : list Z := sub de 2 14.

Definition iget_ (i : nat) : K inode :=
  t ← gets k_itable; from_option_K (t !! i).
Definition iset (i : nat) (f : inode -> inode) : K unit :=
  _ ← iget_ i; modify (fun s => (s <| k_itable ::= upd i f |>)%rec).

(** The zero bytes a block or an inode is cleared with. *)
Definition zeros (n : nat) : list Z := replicate n 0.

Section Fs.
Context `{Linker} `{BlockDevice}.

(** ** Super block *)

Definition sb_load (d : list Z) : superblock :=
  mksuperblock (get32 d 0) (get32 d 4) (get32 d 8) (get32 d 12) (get32 d 16) (get32 d 20)
    (get32 d 24) (get32 d 28).

Definition readsb (dev : Z) : K unit :=
  bp ← bread dev 1;
  d ← bdata bp;
  modify (fun s => (s <| k_sb := sb_load d |>)%rec) ;;
  brelse bp.

(** ** Blocks *)

Definition bzero (dev bno : Z) : K unit :=
  bp ← bread dev (u32 bno);
  bdata_set bp (fun _ => zeros (Z.to_nat BSIZE)) ;;
  log_write bp ;;
  brelse bp.

(** [bp->data[bi/8] & m] with [m = 1 << (bi % 8)]. *)
Definition bit_get (d : list Z) (bi : Z) : bool :=
  negb (Z.land (nth (Z.to_nat (bi / 8)) d 0) (Z.shiftl 1 (bi mod 8)) =? 0).
Definition bit_set (bi : Z) (d : list Z) : list Z :=
  upd (Z.to_nat (bi / 8)) (fun x => Z.lor x (Z.shiftl 1 (bi mod 8))) d.
Definition bit_clear (bi : Z) (d : list Z) : list Z :=
  upd (Z.to_nat (bi / 8)) (fun x => u8 (Z.land x (Z.lnot (Z.shiftl 1 (bi mod 8))))) d.

Definition balloc (dev : Z) : K Z :=
  sb ← gets k_sb;
  kloop (Z.to_N (sb_size sb / BPB) + 2) (fun b =>
    if negb (b <? sb_size sb) then
      printf "balloc: out of blocks\n" [] ;; mret (inr 0)
    else
      bp ← bread dev (BBLOCK b sb);
      r ← kloop (Z.to_N BPB + 1) (fun bi =>
        if negb ((bi <? BPB) && (b + bi <? sb_size sb)) then mret (inr None)
        else
          d ← bdata bp;
          if negb (bit_get d bi) then
            bdata_set bp (bit_set bi) ;;
            log_write bp ;;
            brelse bp ;;
            bzero dev (b + bi) ;;
            mret (inr (Some (b + bi)))
          else mret (inl (bi + 1))) 0;
      match r with
      | Some n => mret (inr n)
      | None => brelse bp ;; mret (inl (b + BPB))
      end) 0.

Definition bfree (dev b : Z) : K unit :=
  sb ← gets k_sb;
  bp ← bread dev (BBLOCK b sb);
  let bi := b mod BPB in
  d ← bdata bp;
  if negb (bit_get d bi) then panic "freeing free block"
  else
    bdata_set bp (bit_clear bi) ;;
    log_write bp ;;
    brelse bp.

(** ** Inodes *)

Definition iinit : K unit :=
  initlock LItable ;;
  kfor_ (seq 0 NINODE) (fun i => initsleeplock (SlInode i)).

Definition iget (dev inum : Z) : K nat :=
  acquire LItable ;;
  r ← kfor (seq 0 NINODE) (fun ip (empty : option nat) =>
    x ← iget_ ip;
    if (0 <? i_ref x) && (i_dev x =? dev) && (i_inum x =? inum) then
      iset ip (fun x => (x <| i_ref := i_ref x + 1 |>)%rec) ;;
      release LItable ;;
      mret (inr ip)
    else
      mret (inl (match empty with
                 | None => if i_ref x =? 0 then Some ip else None
                 | Some _ => empty
                 end))) None;
  match r with
  | inr ip => mret ip
  | inl None => panic "iget: no inodes"
  | inl (Some ip) =>
      iset ip (fun x => (x <| i_dev := dev |>)%rec) ;;
      iset ip (fun x => (x <| i_inum := inum |>)%rec) ;;
      iset ip (fun x => (x <| i_ref := 1 |>)%rec) ;;
      iset ip (fun x => (x <| i_valid := 0 |>)%rec) ;;
      release LItable ;;
      mret ip
  end.

Definition ialloc (dev type : Z) : K (option nat) :=
  sb ← gets k_sb;
  kloop (Z.to_N (sb_ninodes sb) + 1) (fun inum =>
    if negb (inum <? sb_ninodes sb) then
      printf "ialloc: no inodes\n" [] ;; mret (inr None)
    else
      bp ← bread dev (IBLOCK inum sb);
      d ← bdata bp;
      if dip_type d (dip_off inum) =? 0 then
        bdata_set bp (fun d => splice d (dip_off inum) (zeros sizeof_dinode)) ;;
        bdata_set bp (put16 (dip_off inum) type) ;;
        log_write bp ;;
        brelse bp ;;
        ip ← iget dev inum;
        mret (inr (Some ip))
      else
        brelse bp ;;
        mret (inl (inum + 1))) 1.

Definition iupdate (ip : nat) : K unit :=
  x ← iget_ ip;
  sb ← gets k_sb;
  bp ← bread (i_dev x) (IBLOCK (i_inum x) sb);
  bdata_set bp (fun d => splice d (dip_off (i_inum x)) (dinode_bytes x)) ;;
  log_write bp ;;
  brelse bp.

Definition idup (ip : nat) : K nat :=
  acquire LItable ;;
  iset ip (fun x => (x <| i_ref := i_ref x + 1 |>)%rec) ;;
  release LItable ;;
  mret ip.

Definition ilock (ip : nat) : K unit :=
  x ← iget_ ip;
  if i_ref x <? 1 then panic "ilock"
  else
    acquiresleep (SlInode ip) ;;
    x ← iget_ ip;
    kwhen (i_valid x =? 0)
      (sb ← gets k_sb;
       bp ← bread (i_dev x) (IBLOCK (i_inum x) sb);
       d ← bdata bp;
       let o := dip_off (i_inum x) in
       iset ip (fun x => (x <| i_type := dip_type d o |> <| i_major := dip_major d o |>
                            <| i_minor := dip_minor d o |> <| i_nlink := dip_nlink d o |>
                            <| i_size := dip_size d o |> <| i_addrs := dip_addrs d o |>)%rec) ;;
       brelse bp ;;
       iset ip (fun x => (x <| i_valid := 1 |>)%rec) ;;
       x ← iget_ ip;
       if i_type x =? 0 then panic "ilock: no type" else mret tt).

Definition iunlock (ip : nat) : K unit :=
  h ← holdingsleep (SlInode ip);
  x ← iget_ ip;
  if negb h || (i_ref x <? 1) then panic "iunlock"
  else releasesleep (SlInode ip).

Definition itrunc (ip : nat) : K unit :=
  kfor_ (seq 0 (Z.to_nat NDIRECT)) (fun i =>
    x ← iget_ ip;
    let a := nth i (i_addrs x) 0 in
    kwhen (negb (a =? 0))
      (bfree (i_dev x) a ;;
       iset ip (fun x => (x <| i_addrs ::= <[i := 0]> |>)%rec))) ;;
  x ← iget_ ip;
  let ind := nth (Z.to_nat NDIRECT) (i_addrs x) 0 in
  kwhen (negb (ind =? 0))
    (bp ← bread (i_dev x) ind;
     d ← bdata bp;
     kfor_ (seq 0 (Z.to_nat NINDIRECT)) (fun j =>
       let a := get32 d (4 * j) in
       kwhen (negb (a =? 0)) (bfree (i_dev x) a)) ;;
     brelse bp ;;
     bfree (i_dev x) ind ;;
     iset ip (fun x => (x <| i_addrs ::= <[Z.to_nat NDIRECT := 0]> |>)%rec)) ;;
  iset ip (fun x => (x <| i_size := 0 |>)%rec) ;;
  iupdate ip.

Definition iput (ip : nat) : K unit :=
  acquire LItable ;;
  x ← iget_ ip;
  kwhen ((i_ref x =? 1) && negb (i_valid x =? 0) && (i_nlink x =? 0))
    (acquiresleep (SlInode ip) ;;
     release LItable ;;
     itrunc ip ;;
     iset ip (fun x => (x <| i_type := 0 |>)%rec) ;;
     iupdate ip ;;
     iset ip (fun x => (x <| i_valid := 0 |>)%rec) ;;
     releasesleep (SlInode ip) ;;
     acquire LItable) ;;
  iset ip (fun x => (x <| i_ref := i_ref x - 1 |>)%rec) ;;
  release LItable.

Definition iunlockput (ip : nat) : K unit :=
  iunlock ip ;; iput ip.

Definition ireclaim (dev : Z) : K unit :=
  sb ← gets k_sb;
  kfor_ (seqZ 1 (sb_ninodes sb - 1)) (fun inum =>
    bp ← bread dev (IBLOCK inum sb);
    d ← bdata bp;
    let o := dip_off inum in
    ip ← (if negb (dip_type d o =? 0) && (dip_nlink d o =? 0) then
            printf "ireclaim: orphaned inode %d\n" [VInt inum] ;;
            ip ← iget dev inum; mret (Some ip)
          else mret None);
    brelse bp ;;
    match ip with
    | Some ip => begin_op ;; ilock ip ;; iunlock ip ;; iput ip ;; end_op
    | None => mret tt
    end).

Definition fsinit (dev : Z) : K unit :=
  readsb dev ;;
  sb ← gets k_sb;
  if negb (sb_magic sb =? FSMAGIC) then panic "invalid file system"
  else initlog dev sb ;; ireclaim dev.

(** ** Inode content *)

Definition bmap (ip : nat) (bn : Z) : K Z :=
  x ← iget_ ip;
  if bn <? NDIRECT then
    let addr := nth (Z.to_nat bn) (i_addrs x) 0 in
    if addr =? 0 then
      addr ← balloc (i_dev x);
      if addr =? 0 then mret 0
      else iset ip (fun x => (x <| i_addrs ::= <[Z.to_nat bn := addr]> |>)%rec) ;; mret addr
    else mret addr
  else
    let bn := bn - NDIRECT in
    if bn <? NINDIRECT then
      let addr := nth (Z.to_nat NDIRECT) (i_addrs x) 0 in
      addr ← (if addr =? 0 then
                addr ← balloc (i_dev x);
                kwhen (negb (addr =? 0))
                  (iset ip (fun x => (x <| i_addrs ::= <[Z.to_nat NDIRECT := addr]> |>)%rec)) ;;
                mret addr
              else mret addr);
      if addr =? 0 then mret 0
      else
        bp ← bread (i_dev x) addr;
        d ← bdata bp;
        let a := get32 d (4 * Z.to_nat bn) in
        addr ← (if a =? 0 then
                  addr ← balloc (i_dev x);
                  kwhen (negb (addr =? 0))
                    (bdata_set bp (put32 (4 * Z.to_nat bn) addr) ;; log_write bp) ;;
                  mret addr
                else mret a);
        brelse bp ;;
        mret addr
    else panic "bmap: out of range".

(** struct stat: int dev; uint ino; short type; short nlink; uint64 size. *)
Record stat := mkstat { st_dev : Z; st_ino : Z; st_type : Z; st_nlink : Z; st_size : Z }.

Definition stati (ip : nat) : K stat :=
  x ← iget_ ip;
  mret (mkstat (i_dev x) (i_inum x) (i_type x) (i_nlink x) (i_size x)).

(** The destination or source after [m] bytes. *)
Definition dst_add (d : iodst) (m : Z) : iodst :=
  match d with
  | DUser va => DUser (u64 (va + m))
  | DPhys pa => DPhys (u64 (pa + m))
  | DLocal => DLocal
  end.
Definition src_add (s : iosrc) (m : Z) : iosrc :=
  match s with
  | SUser va => SUser (u64 (va + m))
  | SLocal bs => SLocal (drop (Z.to_nat m) bs)
  end.

(** The body of the loop of readi on [tot], [off], [dst] and the bytes delivered so far;
    [x] is the inode. *)
Definition readi_turn (ip : nat) (x : inode) (n : Z) (st : Z * Z * iodst * list Z) :
    K (Z * Z * iodst * list Z + Z * list Z) :=
  let '(tot, off, dst, acc) := st in
  if negb (tot <? n) then mret (inr (i32 tot, acc))
  else
    addr ← bmap ip (off / BSIZE);
    if addr =? 0 then mret (inr (i32 tot, acc))
    else
      bp ← bread (i_dev x) addr;
      let m := Z.min (n - tot) (BSIZE - off mod BSIZE) in
      d ← bdata bp;
      let bytes := sub d (Z.to_nat (off mod BSIZE)) (Z.to_nat m) in
      r ← either_copyout dst bytes m;
      if r =? -1 then
        brelse bp ;; mret (inr (-1, acc))
      else
        brelse bp ;;
        mret (inl (u32 (tot + m), u32 (off + m), dst_add dst m, acc ++ bytes)).

(** readi returns the C result and the bytes it delivered, in order. *)
Definition readi (ip : nat) (dst : iodst) (off n : Z) : K (Z * list Z) :=
  x ← iget_ ip;
  if (i_size x <? off) || (u32 (off + n) <? off) then mret (0, [])
  else
    let n := if i_size x <? u32 (off + n) then u32 (i_size x - off) else n in
    kloop (Z.to_N (n / BSIZE) + 3) (readi_turn ip x n) (0, off, dst, ([] : list Z)).

(** The body of the loop of writei on [tot], [off] and [src] *)
Definition writei_turn (ip : nat) (x : inode) (n : Z) (st : Z * Z * iosrc) : K (Z * Z * iosrc + Z * Z) :=
  let '(tot, off, src) := st in
  if negb (tot <? n) then mret (inr (tot, off))
  else
    addr ← bmap ip (off / BSIZE);
    if addr =? 0 then mret (inr (tot, off))
    else
      bp ← bread (i_dev x) addr;
      let m := Z.min (n - tot) (BSIZE - off mod BSIZE) in
      r ← either_copyin src m;
      let '(code, bytes) := (r : Z * list Z) in
      bdata_set bp (fun d => splice d (Z.to_nat (off mod BSIZE)) bytes) ;;
      if code =? -1 then
        brelse bp ;; mret (inr (tot, off))
      else
        log_write bp ;;
        brelse bp ;;
        mret (inl (u32 (tot + m), u32 (off + m), src_add src m)).

Definition writei (ip : nat) (src : iosrc) (off n : Z) : K Z :=
  x ← iget_ ip;
  if (i_size x <? off) || (u32 (off + n) <? off) then mret (-1)
  else if MAXFILE * BSIZE <? u32 (off + n) then mret (-1)
  else
    r ← kloop (Z.to_N (n / BSIZE) + 3) (writei_turn ip x n) (0, off, src);
    let '(tot, off) := (r : Z * Z) in
    x ← iget_ ip;
    kwhen (i_size x <? off) (iset ip (fun x => (x <| i_size := off |>)%rec)) ;;
    iupdate ip ;;
    mret (i32 tot).

(** ** Directories *)

Definition namecmp (s t : list Z) : Z := strncmp s t (Z.to_nat DIRSIZ).

(** dirlookup returns the inode and the offset of its entry ([*poff]). *)
Definition dirlookup (dp : nat) (name : list Z) : K (option (nat * Z)) :=
  x ← iget_ dp;
  if negb (i_type x =? T_DIR) then panic "dirlookup not DIR"
  else
    kloop (Z.to_N (i_size x / sizeof_dirent) + 2) (fun off =>
      if negb (off <? i_size x) then mret (inr None)
      else
        r ← readi dp DLocal off sizeof_dirent;
        let '(cnt, de) := (r : Z * list Z) in
        if negb (cnt =? sizeof_dirent) then panic "dirlookup read"
        else if dirent_inum de =? 0 then mret (inl (off + sizeof_dirent))
        else if namecmp name (dirent_name de) =? 0 then
          ip ← iget (i_dev x) (dirent_inum de);
          mret (inr (Some (ip, off)))
        else mret (inl (off + sizeof_dirent))) 0.

Definition dirlink (dp : nat) (name : list Z) (inum : Z) : K Z :=
  r ← dirlookup dp name;
  match r with
  | Some (ip, _) => iput ip ;; mret (-1)
  | None =>
      x ← iget_ dp;
      r ← kloop (Z.to_N (i_size x / sizeof_dirent) + 2) (fun '(off, de) =>
        if negb (off <? i_size x) then mret (inr (off, de))
        else
          r ← readi dp DLocal off sizeof_dirent;
          let '(cnt, de) := (r : Z * list Z) in
          if negb (cnt =? sizeof_dirent) then panic "dirlink read"
          else if dirent_inum de =? 0 then mret (inr (off, de))
          else mret (inl (off + sizeof_dirent, de))) (0, zeros 16);
      let '(off, de) := (r : Z * list Z) in
      let de := bytes_le 2 inum ++ strncpy (dirent_name de) name (Z.to_nat DIRSIZ) in
      w ← writei dp (SLocal de) off sizeof_dirent;
      if negb (w =? sizeof_dirent) then mret (-1) else mret 0
  end.

(** ** Paths *)

Definition slash : Z := 47.

Fixpoint skip_slashes (path : list Z) : list Z :=
  match path with
  | c :: path' => if c =? slash then skip_slashes path' else path
  | [] => []
  end.

(** [while( *path != '/' && *path != 0) path++]: the element and the rest. *)
Fixpoint span_elem (path : list Z) : list Z * list Z :=
  match path with
  | c :: path' =>
      if (c =? slash) || (c =? 0) then ([], path)
      else let '(e, rest) := span_elem path' in (c :: e, rest)
  | [] => ([], [])
  end.

(** skipelem returns the rest of the path and the new contents of [name];
    [None] is the NULL result. *)
Definition skipelem (path name : list Z) : option (list Z * list Z) :=
  let path := skip_slashes path in
  if chr path =? 0 then None
  else
    let '(s, path) := span_elem path in
    let len := length s in
    let name := if (Z.to_nat DIRSIZ <=? len)%nat then splice name 0 (take (Z.to_nat DIRSIZ) s)
                else splice name 0 (s ++ [0]) in
    Some (skip_slashes path, name).

(** The loop of namex takes an element off the path in every iteration. *)
Definition namex (path : list Z) (nameiparent : bool) (name : list Z)
  : K (option nat * list Z) :=
  ip ← (if chr path =? slash then iget ROOTDEV ROOTINO
        else
          p ← curproc;
          pr ← pget p;
          cwd ← from_option_K (p_cwd pr);
          idup cwd);
  kloop (N.of_nat (length path) + 1) (fun '(ip, path, name) =>
    match skipelem path name with
    | None =>
        if nameiparent then iput ip ;; mret (inr (None, name))
        else mret (inr (Some ip, name))
    | Some (path, name) =>
        ilock ip ;;
        x ← iget_ ip;
        if negb (i_type x =? T_DIR) then
          iunlockput ip ;; mret (inr (None, name))
        else if nameiparent && (chr path =? 0) then
          iunlock ip ;; mret (inr (Some ip, name))
        else
          r ← dirlookup ip name;
          match r with
          | None => iunlockput ip ;; mret (inr (None, name))
          | Some (next, _) => iunlockput ip ;; mret (inl (next, path, name))
          end
    end) (ip, path, name).

Definition namei (path : list Z) : K (option nat) :=
  r ← namex path false (zeros 14); mret (fst (r : option nat * list Z)).

Definition nameiparent (path name : list Z) : K (option nat * list Z) :=
  namex path true name.

End Fs.
