(* ===== verification/Mkfs.v ===== *)
(** The builder of the file system image, mkfs/mkfs.c.

    The program runs on the host that builds the system: [files] is what its
    open() finds, [m_faults] says which of the host's calls on the image fail
    (none, when the list is used up), [m_sizes] how much a read() of a file
    returns.  A C object that is copied to the image as bytes (struct dinode,
    struct dirent, an indirect block) is its bytes; [be] is the host's byte
    order.  The messages the program prints are not modelled. *)
From stdpp Require Import base list strings.
From Stdlib Require Import ZArith Lia ZifyBool Ascii.
From S2P Require Import Prelude Fcntl Memory KPrintf State Monad Log Fs.

Local Open Scope Z_scope.
Local Open Scope record_scope.

Definition FSSIZE : Z := 2000.
Definition NINODES : Z := 200.
Definition nbitmap : Z := FSSIZE / BPB + 1.
Definition ninodeblocks : Z := NINODES / IPB + 1.
Definition nlog : Z := LOGBLOCKS + 1.
Definition nmeta : Z := 2 + nlog + ninodeblocks + nbitmap.
Definition nblocks : Z := FSSIZE - nmeta.

(** The globals, and the host *)
Record mkst := mkmkst {
  m_img : list (list Z);  (** the sectors of the file [fsfd] *)
  m_sb : superblock;
  m_freeinode : Z;
  m_freeblock : Z;
  m_faults : list bool;
  m_sizes : list nat;
}.

#[export] Instance Eta_mkst : Eta mkst :=
  fun r => mkmkst (m_img r) (m_sb r) (m_freeinode r) (m_freeblock r) (m_faults r) (m_sizes r).
#[export] Instance set_m_img : SetField m_img. Proof. setter. Defined.
#[export] Instance set_m_sb : SetField m_sb. Proof. setter. Defined.
#[export] Instance set_m_freeinode : SetField m_freeinode. Proof. setter. Defined.
#[export] Instance set_m_freeblock : SetField m_freeblock. Proof. setter. Defined.
#[export] Instance set_m_faults : SetField m_faults. Proof. setter. Defined.
#[export] Instance set_m_sizes : SetField m_sizes. Proof. setter. Defined.

Inductive mkres (A : Type) :=
| MOk (a : A) (st : mkst)
| MExit (status : Z) (st : mkst)   (** exit(), with the image as it is then *)
| MAssert                          (** an assertion failed *)
| MNoFuel.
Arguments MOk {_} _ _.
Arguments MExit {_} _ _.
Arguments MAssert {_}.
Arguments MNoFuel {_}.

Definition MK (A : Type) := mkst -> mkres A.
#[export] Instance MK_ret : MRet MK := fun A a st => MOk a st.
#[export] Instance MK_bind : MBind MK := fun A B f m st =>
  match m st with
  | MOk a st' => f a st'
  | MExit s st' => MExit s st'
  | MAssert => MAssert
  | MNoFuel => MNoFuel
  end.

Definition mget_ : MK mkst := fun st => MOk st st.
Definition mmod (f : mkst -> mkst) : MK unit := fun st => MOk tt (f st).
Definition mexit {A} (s : Z) : MK A := fun st => MExit s st.
Definition massert (b : bool) : MK unit := fun st => if b then MOk tt st else MAssert.

(** perror() and exit(1) *)
Definition die {A} : MK A := mexit 1.

(** Does the next call of the host succeed? *)
Definition host : MK bool := fun st =>
  match m_faults st with
  | [] => MOk true st
  | b :: l => MOk b (st <| m_faults := l |>)
  end.

Fixpoint mfor_ {A} (l : list A) (body : A -> MK unit) : MK unit :=
  match l with [] => mret tt | a :: l' => body a ;; mfor_ l' body end.

Fixpoint mloop {St R} (fuel : nat) (body : St -> MK (St + R)) (x : St) : MK R :=
  match fuel with
  | O => fun _ => MNoFuel
  | S fuel' => r ← body x; match r with inl x' => mloop fuel' body x' | inr r => mret r end
  end.

(** An object of [k] bytes with value [v] in the host's memory, and its value *)
Definition hbytes (be : bool) (k : nat) (v : Z) : list Z := if be then rev (bytes_le k v) else bytes_le k v.
Definition hval (be : bool) (l : list Z) : Z := if be then le_bytes (rev l) else le_bytes l.
Definition hget (be : bool) (k : nat) (d : list Z) (o : nat) : Z := hval be (sub d o k).
Definition hput (be : bool) (k o : nat) (v : Z) (d : list Z) : list Z := splice d o (hbytes be k v).

(** [a[0] = x; a[1] = x >> 8; ...] on the bytes of the result *)
Definition xshort (be : bool) (x : Z) : Z := hval be (bytes_le 2 x).
Definition xint (be : bool) (x : Z) : Z := hval be (bytes_le 4 x).

Definition zero_sector : list Z := zeros (Z.to_nat BSIZE).

(** lseek() and write() of one sector; a write past the end leaves a hole. *)
Definition write_sector (sec : nat) (buf : list Z) (img : list (list Z)) : list (list Z) :=
  if (sec <? length img)%nat then <[sec := buf]> img
  else img ++ replicate (sec - length img) zero_sector ++ [buf].

Definition wsect (sec : Z) (buf : list Z) : MK unit :=
  ok ← host;
  if negb ok then die
  else
    ok ← host;
    if negb ok then die
    else mmod (fun st => st <| m_img ::= write_sector (Z.to_nat sec) buf |>).

Definition rsect (sec : Z) : MK (list Z) :=
  ok ← host;
  if negb ok then die
  else
    ok ← host;
    if negb ok then die
    else
      st ← mget_;
      match m_img st !! Z.to_nat sec with
      | Some buf => mret buf
      | None => die
      end.

(** struct dinode: the offsets of [type], [nlink], [size] and [addrs] *)
Definition din_type : nat := 0.
Definition din_nlink : nat := 6.
Definition din_size : nat := 8.
Definition din_addr (i : Z) : nat := 12 + 4 * Z.to_nat i.

Section Mkfs.
Variable be : bool.
Variable files : list Z -> option (list Z).

Definition winode (inum : Z) (ip : list Z) : MK unit :=
  st ← mget_;
  let bn := IBLOCK inum (m_sb st) in
  buf ← rsect bn;
  wsect bn (splice buf (dip_off inum) ip).

Definition rinode (inum : Z) : MK (list Z) :=
  st ← mget_;
  let bn := IBLOCK inum (m_sb st) in
  buf ← rsect bn;
  mret (sub buf (dip_off inum) sizeof_dinode).

Definition ialloc (type : Z) : MK Z :=
  st ← mget_;
  let inum := m_freeinode st in
  mmod (fun st => st <| m_freeinode ::= fun i => u32 (i + 1) |>) ;;
  let din := zeros sizeof_dinode in
  let din := hput be 2 din_type (xshort be type) din in
  let din := hput be 2 din_nlink (xshort be 1) din in
  let din := hput be 4 din_size (xint be 0) din in
  winode inum din ;;
  mret inum.

Definition balloc (used : Z) : MK unit :=
  massert (used <? BPB) ;;
  let buf := foldl (fun buf i => bit_set i buf) zero_sector (seqZ 0 used) in
  st ← mget_;
  wsect (sb_bmapstart (m_sb st)) buf.

(** [freeblock++] *)
Definition next_block : MK Z :=
  st ← mget_;
  mmod (fun st => st <| m_freeblock ::= fun b => u32 (b + 1) |>) ;;
  mret (m_freeblock st).

(** The block [x] that holds the bytes from [fbn * BSIZE] on, allocated where there is
    none, and [din] as it is then. *)
Definition file_block (fbn : Z) (din : list Z) : MK (Z * list Z) :=
  if fbn <? NDIRECT then
    din ← (if xint be (hget be 4 din (din_addr fbn)) =? 0 then
             b ← next_block; mret (hput be 4 (din_addr fbn) (xint be b) din)
           else mret din);
    mret (xint be (hget be 4 din (din_addr fbn)), din)
  else
    din ← (if xint be (hget be 4 din (din_addr NDIRECT)) =? 0 then
             b ← next_block; mret (hput be 4 (din_addr NDIRECT) (xint be b) din)
           else mret din);
    indirect ← rsect (xint be (hget be 4 din (din_addr NDIRECT)));
    let o := (4 * Z.to_nat (fbn - NDIRECT))%nat in
    indirect ← (if hget be 4 indirect o =? 0 then
                  b ← next_block;
                  let indirect := hput be 4 o (xint be b) indirect in
                  wsect (xint be (hget be 4 din (din_addr NDIRECT))) indirect ;;
                  mret indirect
                else mret indirect);
    mret (xint be (hget be 4 indirect o), din).

(** The body of the loop of iappend(), on [p] (the [n] bytes left), [off] and [din] *)
Definition iappend_turn (s : list Z * Z * list Z) : MK (list Z * Z * list Z + Z * list Z) :=
  let '(p, off, din) := s in
  let n := Z.of_nat (length p) in
  if negb (0 <? n) then mret (inr (off, din))
  else
    let fbn := off / BSIZE in
    massert (fbn <? MAXFILE) ;;
    xd ← file_block fbn din;
    let '(x, din) := (xd : Z * list Z) in
    let n1 := Z.to_nat (Z.min n ((fbn + 1) * BSIZE - off)) in
    buf ← rsect x;
    wsect x (splice buf (Z.to_nat (off - fbn * BSIZE)) (take n1 p)) ;;
    mret (inl (drop n1 p, u32 (off + Z.of_nat n1), din)).

Definition iappend (inum : Z) (xp : list Z) : MK unit :=
  din ← rinode inum;
  let off := xint be (hget be 4 din din_size) in
  r ← mloop (S (length xp)) iappend_turn (xp, off, din);
  let '(off, din) := (r : Z * list Z) in
  winode inum (hput be 4 din_size (xint be off) din).

(** struct dirent *)
Definition dirent (inum : Z) (name : list Z) : list Z :=
  hbytes be 2 (xshort be inum) ++ strncpy (zeros (Z.to_nat DIRSIZ)) name (Z.to_nat DIRSIZ).

Definition index_of (c : Z) (s : list Z) : bool := bool_decide (c ∈ cstr s).

(** The name a file has on the image *)
Definition after_user (arg : list Z) : list Z :=
  if strncmp arg (lit "user/") 5 =? 0 then drop 5 arg else arg.
Definition skip_underscore (s : list Z) : list Z := if chr s =? ch "_" then tl s else s.

(** [while((cc = read(fd, buf, sizeof(buf))) > 0) iappend(inum, buf, cc);] *)
Definition copy_turn (inum : Z) (data : list Z) : MK (list Z + unit) :=
  st ← mget_;
  let cc := Nat.min (Nat.max 1 (hd (Z.to_nat BSIZE) (m_sizes st))) (Nat.min (Z.to_nat BSIZE) (length data)) in
  mmod (fun st => st <| m_sizes ::= fun l => tl l |>) ;;
  if negb (0 <? cc)%nat then mret (inr tt)
  else iappend inum (take cc data) ;; mret (inl (drop cc data)).

(** One file of the command line *)
Definition add_file (rootino : Z) (arg : list Z) : MK unit :=
  let shortname := after_user arg in
  massert (negb (index_of (ch "/") shortname)) ;;
  match files arg with
  | None => die
  | Some data =>
      let shortname := skip_underscore shortname in
      massert (strlen shortname <=? DIRSIZ) ;;
      inum ← ialloc T_FILE;
      iappend rootino (dirent inum shortname) ;;
      mloop (S (length data)) (copy_turn inum) data
  end.

Definition the_sb : superblock :=
  mksuperblock FSMAGIC (xint be FSSIZE) (xint be nblocks) (xint be NINODES) (xint be nlog) (xint be 2)
    (xint be (2 + nlog)) (xint be (2 + nlog + ninodeblocks)).

(** The bytes of [sb] *)
Definition sb_bytes (sb : superblock) : list Z :=
  concat (hbytes be 4 <$> [sb_magic sb; sb_size sb; sb_nblocks sb; sb_ninodes sb; sb_nlog sb;
                           sb_logstart sb; sb_inodestart sb; sb_bmapstart sb]).

(** Zeros everywhere, and the superblock *)
Definition format : MK unit :=
  mfor_ (seqZ 0 FSSIZE) (fun i => wsect i zero_sector) ;;
  st ← mget_;
  wsect 1 (splice zero_sector 0 (sb_bytes (m_sb st))).

(** The root directory with its entries "." and ".." *)
Definition make_root : MK Z :=
  rootino ← ialloc T_DIR;
  massert (rootino =? ROOTINO) ;;
  iappend rootino (dirent rootino (lit ".")) ;;
  iappend rootino (dirent rootino (lit "..")) ;;
  mret rootino.

(** "fix size of root inode dir" *)
Definition fix_root (rootino : Z) : MK unit :=
  din ← rinode rootino;
  let off := xint be (hget be 4 din din_size) in
  let off := u32 ((off / BSIZE + 1) * BSIZE) in
  winode rootino (hput be 4 din_size (xint be off) din).

Definition main (argv : list (list Z)) : MK unit :=
  if (length argv <? 2)%nat then mexit 1
  else
    massert (BSIZE mod Z.of_nat sizeof_dinode =? 0) ;;
    massert (BSIZE mod sizeof_dirent =? 0) ;;
    ok ← host;
    if negb ok then die
    else
      mmod (fun st => st <| m_img := [] |> <| m_sb := the_sb |> <| m_freeblock := nmeta |>) ;;
      format ;;
      rootino ← make_root;
      mfor_ (drop 2 argv) (add_file rootino) ;;
      fix_root rootino ;;
      st ← mget_;
      balloc (i32 (m_freeblock st)) ;;
      mexit 0.

End Mkfs.

(** The globals' initial values *)
Definition mkst0 (faults : list bool) (sizes : list nat) : mkst :=
  mkmkst [] (mksuperblock 0 0 0 0 0 0 0 0) 1 0 faults sizes.
