(* ===== verification/FsSpec.v ===== *)
(** The file system's data on disk and in names: the free-block bitmap, the
    on-disk inodes, path elements, and the inode table. *)
From stdpp Require Import base gmap list strings.
From Stdlib Require Import ZArith Lia ZifyBool.
From S2P Require Import Prelude Fcntl Memory KPrintf State Monad Demo Kalloc ProcBase Vm Frame Sleeplock Bio Log LogSpec Fs.

Local Open Scope Z_scope.

(** ** Path elements *)

Definition flush (e : list Z) : list (list Z) := match e with [] => [] | _ => [e] end.

(** The elements of a path by splitting it at every slash. *)
Fixpoint split_path (e l : list Z) : list (list Z) :=
  match l with
  | [] => flush e
  | c :: l' => if c =? slash then flush e ++ split_path [] l' else split_path (e ++ [c]) l'
  end.

Definition path_elems (path : list Z) : list (list Z) := split_path [] (cstr path).

Lemma path_elems_skip p : path_elems (skip_slashes p) = path_elems p.
Proof.
  unfold path_elems; induction p as [| c p IH]; simpl; [done |].
  destruct (Z.eqb_spec c slash) as [-> |]; [| done]; rewrite IH; done.
Qed.

Lemma length_skip_slashes p : (length (skip_slashes p) <= length p)%nat.
Proof. induction p as [| c p IH]; simpl; [done |]; destruct (c =? slash); simpl; lia. Qed.

Lemma skip_slashes_hd p : chr (skip_slashes p) <> slash.
Proof.
  induction p as [| c p IH]; simpl; [done |]; destruct (Z.eqb_spec c slash); [done | done].
Qed.

(** The scan of one element splits off its characters. *)
Lemma span_elem_spec p e :
  let '(s, r) := span_elem p in
  p = s ++ r /\ split_path e (cstr p) = split_path (e ++ s) (cstr r) /\
  (chr r = slash \/ chr r = 0) /\ 0 ∉ s /\ slash ∉ s.
Proof.
  revert e; induction p as [| c p IH]; intros e; simpl.
  - rewrite app_nil_r; split_and!; try done; [by right | set_solver | set_solver].
  - destruct (Z.eqb_spec c slash) as [-> | Hc]; simpl.
    { rewrite app_nil_r; split_and!; try done; [by left | set_solver | set_solver]. }
    destruct (Z.eqb_spec c 0) as [-> | Hz]; simpl.
    { rewrite app_nil_r; split_and!; try done; [by right | set_solver | set_solver]. }
    specialize (IH (e ++ [c])); destruct (span_elem p) as [s r].
    destruct IH as (-> & H2 & H3 & H4 & H5); split; [done |].
    replace (c =? slash) with false by lia; rewrite H2, <- app_assoc; simpl.
    split; [done |]; split; [done |]; split; set_solver.
Qed.

(** A rest that starts with a slash or ends the path begins a new element. *)
Lemma split_path_rest s r :
  s <> [] -> chr r = slash \/ chr r = 0 -> split_path s (cstr r) = s :: path_elems r.
Proof.
  intros Hs Hr; unfold path_elems; destruct r as [| c r]; simpl in *; [by destruct s |].
  destruct (Z.eqb_spec c 0) as [-> |]; simpl; [by destruct s |].
  destruct Hr as [-> | ?]; [| done]; simpl; destruct s; done.
Qed.

(** The bytes of an element in a name array of DIRSIZ bytes. *)
Definition name_of (name : list Z) : list Z := cstr (take (Z.to_nat DIRSIZ) name).

Lemma splice_0 l bs : splice l 0 bs = bs ++ drop (length bs) l.
Proof. done. Qed.

(** skipelem takes path names apart as splitting at slashes does.  It
    returns NULL exactly when no element is left; otherwise the name array
    holds the first element, cut to 14 characters, and the rest of the path has
    the other elements and is shorter, so that the loop of namex ends. *)
Theorem skipelem_spec (path name : list Z) (Hname : length name = Z.to_nat DIRSIZ) :
  match skipelem path name with
  | None => path_elems path = []
  | Some (rest, name') =>
      exists e, path_elems path = e :: path_elems rest /\ e <> [] /\
        length name' = Z.to_nat DIRSIZ /\ name_of name' = take (Z.to_nat DIRSIZ) e /\
        (length rest < length path)%nat
  end.
Proof.
  unfold skipelem; rewrite <- path_elems_skip; pose proof (length_skip_slashes path) as Hlen.
  pose proof (skip_slashes_hd path) as Hhd; set (p := skip_slashes path) in *.
  destruct (Z.eqb_spec (chr p) 0) as [Hz | Hz].
  - unfold path_elems; destruct p as [| c p]; [done |]; simpl in Hz; subst; done.
  - pose proof (span_elem_spec p []) as Hs; destruct (span_elem p) as [s r] eqn:E.
    destruct Hs as (Hp & Hsplit & Hr & H0 & Hsl).
    assert (Hne : s <> []) by (intros ->; simpl in Hp; subst r; naive_solver).
    exists s; rewrite path_elems_skip; split.
    { unfold path_elems at 1; rewrite Hsplit; by apply split_path_rest. }
    split; [done |]; split; [| split].
    + destruct (Nat.leb_spec (Z.to_nat DIRSIZ) (length s)); rewrite splice_0, length_app, length_drop;
        rewrite ?length_take, ?length_app; cbn [length]; lia.
    + unfold name_of; destruct (Nat.leb_spec (Z.to_nat DIRSIZ) (length s)); rewrite splice_0.
      * rewrite take_app_le, take_take, Nat.min_id by (rewrite length_take; lia).
        apply cstr_take_no_nul; intros (i & Hi & _)%elem_of_take; apply H0.
        by eapply list_elem_of_lookup_2.
      * rewrite (take_ge s) by lia; rewrite <- app_assoc; simpl.
        rewrite take_app_ge by lia.
        destruct (Z.to_nat DIRSIZ - length s)%nat eqn:Ed; [lia |]; simpl; by apply cstr_app_nul.
    + pose proof (length_skip_slashes r); apply (f_equal length) in Hp; rewrite length_app in Hp.
      destruct s; [done | simpl in *; lia].
Qed.

(** "//ab/c" and a name array with old contents. *)
Lemma skipelem_spec_witness :
  skipelem [47; 47; 97; 98; 47; 99] (replicate 14 1) =
    Some ([99], [97; 98; 0] ++ replicate 11 1) /\
  exists e, path_elems [47; 47; 97; 98; 47; 99] = e :: path_elems [99] /\ e = [97; 98].
Proof.
  split; [reflexivity |].
  destruct (skipelem_spec [47; 47; 97; 98; 47; 99] (replicate 14 1) eq_refl) as (e & He & _).
  exists e; split; [exact He |]; vm_compute in He; injection He as <-; reflexivity.
Defined.

(** ** The bitmap *)

Lemma bit_of_byte x k : 0 <= k < 8 -> negb (Z.land x (Z.shiftl 1 k) =? 0) = Z.testbit x k.
Proof.
  intros Hk; rewrite Z.shiftl_1_l; destruct (Z.testbit x k) eqn:E.
  - apply negb_true_iff, Z.eqb_neq; intros Hz; apply (f_equal (fun z => Z.testbit z k)) in Hz.
    rewrite Z.land_spec, Z.pow2_bits_true, E, Z.testbit_0_l in Hz by lia; done.
  - apply negb_false_iff, Z.eqb_eq, Z.bits_inj'; intros i Hi; rewrite Z.land_spec, Z.testbit_0_l.
    destruct (Z.eq_dec i k) as [-> | Hne]; [by rewrite E |].
    rewrite Z.pow2_bits_false by lia; apply andb_false_r.
Qed.

Lemma bit_get_testbit d bi : 0 <= bi -> bit_get d bi = Z.testbit (nth (Z.to_nat (bi / 8)) d 0) (bi mod 8).
Proof. intros; apply bit_of_byte, Z.mod_pos_bound; lia. Qed.

Lemma nth_upd {A} i j (f : A -> A) l d :
  (i < length l)%nat -> nth j (upd i f l) d = if decide (i = j) then f (nth j l d) else nth j l d.
Proof.
  intros Hi; rewrite !nth_lookup, upd_lookup; case_decide; subst; [| done].
  destruct (lookup_lt_is_Some_2 l j Hi) as [x ->]; done.
Qed.

(** The bitmap.  Setting or clearing the bit of a block changes that bit
    and no other, so balloc and bfree keep the state of all other blocks; the
    block keeps its size and its bytes their range. *)
Theorem bitmap_spec (d : list Z) (bi bj : Z)
  (Hlen : length d = Z.to_nat BSIZE) (Hd : Forall (fun b => 0 <= b < 256) d)
  (Hi : 0 <= bi < BPB) (Hj : 0 <= bj < BPB) :
  bit_get (bit_set bi d) bj = (bj =? bi) || bit_get d bj /\
  bit_get (bit_clear bi d) bj = negb (bj =? bi) && bit_get d bj /\
  length (bit_set bi d) = length d /\ length (bit_clear bi d) = length d /\
  Forall (fun b => 0 <= b < 256) (bit_set bi d) /\ Forall (fun b => 0 <= b < 256) (bit_clear bi d).
Proof.
  assert (Hbi : (Z.to_nat (bi / 8) < length d)%nat).
  { rewrite Hlen; unfold BPB in Hi; pose proof (Z.div_lt_upper_bound bi 8 BSIZE); lia. }
  assert (Hbit : 0 <= Z.shiftl 1 (bi mod 8) < 256).
  { pose proof (Z.mod_pos_bound bi 8 ltac:(lia)); rewrite Z.shiftl_1_l; split; [lia |].
    change 256 with (2 ^ 8); apply Z.pow_lt_mono_r; lia. }
  assert (Hsame : Z.to_nat (bi / 8) = Z.to_nat (bj / 8) -> bi mod 8 = bj mod 8 -> bj = bi).
  { intros H1 H2; apply Z2Nat.inj in H1; [| apply Z.div_pos; lia..].
    rewrite (Z.div_mod bi 8), (Z.div_mod bj 8) by lia; lia. }
  pose proof (Z.mod_pos_bound bj 8 ltac:(lia)); pose proof (Z.mod_pos_bound bi 8 ltac:(lia)).
  assert (Hp2 : Z.testbit (Z.shiftl 1 (bi mod 8)) (bj mod 8) = (bj mod 8 =? bi mod 8)).
  { rewrite Z.shiftl_1_l, Z.pow2_bits_eqb by lia; apply Z.eqb_sym. }
  split_and!; unfold bit_set, bit_clear; rewrite ?length_upd; try done.
  - rewrite !bit_get_testbit, nth_upd by (done || lia); case_decide as E.
    + rewrite Z.lor_spec, Hp2, orb_comm; destruct (Z.eqb_spec bj bi) as [-> |]; [by rewrite Z.eqb_refl |].
      destruct (Z.eqb_spec (bj mod 8) (bi mod 8)); [lia | done].
    + destruct (Z.eqb_spec bj bi); [congruence | done].
  - rewrite !bit_get_testbit, nth_upd by (done || lia); case_decide as E.
    + unfold u8; rewrite Z.mod_pow2_bits_low, Z.land_spec, Z.lnot_spec, Hp2, andb_comm by lia.
      destruct (Z.eqb_spec bj bi) as [-> |]; [by rewrite Z.eqb_refl |].
      destruct (Z.eqb_spec (bj mod 8) (bi mod 8)); [lia | done].
    + destruct (Z.eqb_spec bj bi); [congruence | done].
  - apply Forall_alter; [done |]; intros x _ Hx; change 256 with (2 ^ 8); apply lor_bound; lia.
  - apply Forall_alter; [done |]; intros x _ Hx; apply u8_range.
Qed.

Lemma bitmap_spec_witness :
  bit_get (bit_set 1000 (replicate (Z.to_nat BSIZE) 0)) 1000 = true /\
  bit_get (bit_set 1000 (replicate (Z.to_nat BSIZE) 0)) 1001 = false.
Proof.
  assert (Hz : Forall (fun b => 0 <= b < 256) (replicate (Z.to_nat BSIZE) 0))
    by (apply Forall_replicate; lia).
  split.
  - exact (proj1 (bitmap_spec (replicate (Z.to_nat BSIZE) 0) 1000 1000 eq_refl Hz
      ltac:(vm_compute; intuition congruence) ltac:(vm_compute; intuition congruence))).
  - exact (proj1 (bitmap_spec (replicate (Z.to_nat BSIZE) 0) 1000 1001 eq_refl Hz
      ltac:(vm_compute; intuition congruence) ltac:(vm_compute; intuition congruence))).
Defined.

(** ** On-disk inodes *)

Definition short_ok (v : Z) : Prop := - 2 ^ 15 <= v < 2 ^ 15.
Definition uint_ok (v : Z) : Prop := 0 <= v < 2 ^ 32.

Lemma short_roundtrip v : short_ok v -> i16 (le_bytes (bytes_le 2 v)) = v.
Proof.
  intros Hv; rewrite le_bytes_bytes_le; change (256 ^ Z.of_nat 2) with (2 ^ 16); unfold i16.
  rewrite Zplus_mod_idemp_l, Z.mod_small by (unfold short_ok in Hv; lia); lia.
Qed.

Lemma uint_roundtrip v : uint_ok v -> le_bytes (bytes_le 4 v) = v.
Proof. intros Hv; rewrite le_bytes_bytes_le; apply Z.mod_small; exact Hv. Qed.

(** Word [i] of an array of words. *)
Lemma sub_words l i v :
  l !! i = Some v -> sub (concat (bytes_le 4 <$> l)) (4 * i) 4 = bytes_le 4 v.
Proof.
  revert i; induction l as [| x l IH]; intros i Hi; [done |].
  destruct i as [| i]; [injection Hi as ->; done |].
  replace (4 * S i)%nat with (length (bytes_le 4 x) + 4 * i)%nat by (rewrite bytes_le_length; lia).
  cbn [fmap list_fmap concat]; rewrite sub_app_r; by apply IH.
Qed.

Lemma length_words l : length (concat (bytes_le 4 <$> l)) = (4 * length l)%nat.
Proof.
  induction l as [| x l IH]; [done |]; cbn [fmap list_fmap concat]; rewrite length_app, IH, bytes_le_length.
  simpl; lia.
Qed.

(** An inode whose fields fit their on-disk widths. *)
Definition inode_ok (x : inode) : Prop :=
  short_ok (i_type x) /\ short_ok (i_major x) /\ short_ok (i_minor x) /\ short_ok (i_nlink x) /\
  uint_ok (i_size x) /\ length (i_addrs x) = 13%nat /\ Forall uint_ok (i_addrs x).

Lemma length_dinode_bytes x : inode_ok x -> length (dinode_bytes x) = sizeof_dinode.
Proof.
  intros (_ & _ & _ & _ & _ & Ha & _); unfold dinode_bytes.
  rewrite !length_app, !bytes_le_length, length_words, Ha; done.
Qed.

(** The inode read back from the bytes at [o]. *)
Definition dinode_at (x : inode) (d : list Z) (o : nat) : Prop :=
  dip_type d o = i_type x /\ dip_major d o = i_major x /\ dip_minor d o = i_minor x /\
  dip_nlink d o = i_nlink x /\ dip_size d o = i_size x /\ dip_addrs d o = i_addrs x.

Lemma dip_off_bound inum : 0 <= inum -> (dip_off inum + sizeof_dinode <= Z.to_nat BSIZE)%nat.
Proof.
  intros; unfold dip_off, IPB, sizeof_dinode, BSIZE.
  change (1024 / Z.of_nat 64) with 16; pose proof (Z.mod_pos_bound inum 16 ltac:(lia)); lia.
Qed.

(** on-disk inodes.  What iupdate stores at the place of an inode is what
    ilock reads from it, field by field, and the other inodes of the block keep
    their bytes. *)
Theorem dinode_roundtrip (x : inode) (d : list Z) (inum : Z)
  (Hlen : length d = Z.to_nat BSIZE) (Hinum : 0 <= inum) (Hx : inode_ok x) :
  let d' := splice d (dip_off inum) (dinode_bytes x) in
  dinode_at x d' (dip_off inum) /\ length d' = length d /\
  forall inum', 0 <= inum' -> inum' mod IPB <> inum mod IPB ->
    sub d' (dip_off inum') sizeof_dinode = sub d (dip_off inum') sizeof_dinode.
Proof.
  intros d'; pose proof (dip_off_bound inum Hinum) as Ho; rewrite <- Hlen in Ho.
  pose proof (length_dinode_bytes x Hx) as Hb.
  pose proof Hx as (H1 & H2 & H3 & H4 & H5 & H6 & H7).
  assert (Hin : forall k n, (k + n <= sizeof_dinode)%nat ->
    sub d' (dip_off inum + k) n = sub (dinode_bytes x) k n).
  { intros k n Hk; apply splice_inside; lia. }
  split; [| split].
  - unfold dinode_at, dip_type, dip_major, dip_minor, dip_nlink, dip_size, get16, get32.
    rewrite <- (Nat.add_0_r (dip_off inum)) at 1; rewrite !Hin by (unfold sizeof_dinode; lia).
    split_and!; [apply (short_roundtrip _ H1) | apply (short_roundtrip _ H2)
      | apply (short_roundtrip _ H3) | apply (short_roundtrip _ H4) | apply (uint_roundtrip _ H5) |].
    unfold dip_addrs; apply list_eq; intros i; rewrite list_lookup_fmap.
    destruct (decide (i < 13)%nat) as [Hi | Hi].
    + rewrite lookup_seq_lt by done; simpl.
      destruct (lookup_lt_is_Some_2 (i_addrs x) i) as [v Hv]; [lia |]; rewrite Hv; f_equal.
      unfold get32; rewrite <- Nat.add_assoc, Hin by (unfold sizeof_dinode; lia).
      set (h := bytes_le 2 (i_type x) ++ bytes_le 2 (i_major x) ++ bytes_le 2 (i_minor x) ++
                bytes_le 2 (i_nlink x) ++ bytes_le 4 (i_size x)).
      change (dinode_bytes x) with (h ++ concat (bytes_le 4 <$> i_addrs x)).
      change (12 + 4 * i)%nat with (length h + 4 * i)%nat; rewrite sub_app_r.
      etransitivity; [exact (f_equal le_bytes (sub_words _ _ v Hv)) |].
      apply uint_roundtrip; by eapply Forall_lookup in H7.
    + rewrite lookup_seq_ge, lookup_ge_None_2 by lia; done.
  - apply length_splice; lia.
  - intros inum' Hi' Hne; apply splice_outside; [lia |]; rewrite Hb; unfold dip_off, IPB, sizeof_dinode in *.
    change (BSIZE / Z.of_nat 64) with 16 in *.
    pose proof (Z.mod_pos_bound inum 16 ltac:(lia)); pose proof (Z.mod_pos_bound inum' 16 ltac:(lia)); lia.
Qed.

Lemma dinode_roundtrip_witness :
  let x := (zero_inode <| i_type := T_FILE |> <| i_nlink := 1 |> <| i_size := 70000 |>)%rec in
  let d' := splice (zeros (Z.to_nat BSIZE)) (dip_off 35) (dinode_bytes x) in
  dinode_at x d' (dip_off 35).
Proof.
  intros x.
  assert (Hx : inode_ok x).
  { unfold inode_ok, short_ok, uint_ok, x, T_FILE; cbn; split_and!; try lia.
    repeat constructor; lia. }
  destruct (dinode_roundtrip x (zeros (Z.to_nat BSIZE)) 35 (length_replicate _ _) ltac:(lia) Hx)
    as [Hd _].
  exact Hd.
Defined.

(** ** The inode table *)

Definition cached (dev inum : Z) (x : inode) : Prop :=
  0 < i_ref x /\ i_dev x = dev /\ i_inum x = inum.

#[export] Instance cached_dec dev inum x : Decision (cached dev inum x).
Proof. unfold cached; apply _. Defined.

(** An inode in use is in the table once, and counts are not negative. *)
Definition itable_ok (t : list inode) : Prop :=
  length t = NINODE /\
  (forall i x, t !! i = Some x -> 0 <= i_ref x) /\
  (forall i j x y, t !! i = Some x -> t !! j = Some y ->
     0 < i_ref x -> cached (i_dev x) (i_inum x) y -> i = j).

Definition ref_up (x : inode) : inode := (x <| i_ref := i_ref x + 1 |>)%rec.
Definition recycled (dev inum : Z) (x : inode) : inode :=
  (x <| i_dev := dev |> <| i_inum := inum |> <| i_ref := 1 |> <| i_valid := 0 |>)%rec.

Lemma iget__ok i x s o : k_itable s !! i = Some x -> iget_ i s o = Ok x s o.
Proof. intros H; unfold iget_; rewrite gets_bind, H; done. Qed.

Lemma iset_ok i x f s o :
  k_itable s !! i = Some x -> iset i f s o = Ok tt (s <| k_itable ::= upd i f |>)%rec o.
Proof. intros H; unfold iset; erewrite bind_ok by (by apply iget__ok); done. Qed.

Lemma fold_first_free (l : list inode) e f :
  fold_left (fun (e : option nat) '(i, x) =>
    match e with None => if i_ref x =? 0 then Some i else None | Some _ => e end)
    (imap (fun i x => (f i, x)) l) e =
  match e with Some _ => e | None => (fun '(i, _) => f i) <$> list_find (fun x => i_ref x = 0) l end.
Proof.
  revert e f; induction l as [| x l IH]; intros e f; [by destruct e |]; simpl.
  rewrite (IH _ (f ∘ S)); destruct e as [e |]; [done |].
  destruct (Z.eqb_spec (i_ref x) 0); [rewrite decide_True by done; done |].
  rewrite decide_False by done; destruct (list_find _ l) as [[] |]; done.
Qed.

(** The whole of iget, by what it finds. *)
Lemma iget_run dev inum s o :
  length (k_itable s) = NINODE -> k_locks s = [] ->
  iget dev inum s o =
  match list_find (cached dev inum) (k_itable s) with
  | Some (i, _) => Ok i (s <| k_itable ::= upd i ref_up |>)%rec o
  | None =>
      match list_find (fun x => i_ref x = 0) (k_itable s) with
      | Some (i, _) => Ok i (s <| k_itable ::= upd i (recycled dev inum) |>)%rec o
      | None => Panic "iget: no inodes"
      end
  end.
Proof.
  intros Hlen Hl; unfold iget; step_with acquire_ok; [| rewrite Hl; set_solver].
  set (s1 := (s <| k_locks ::= cons LItable |>)%rec); unfold mbind at 1, K_bind at 1.
  rewrite <- Hlen; change (k_itable s) with (k_itable s1) at 1.
  rewrite (kfor_scan_list (k_itable s1) None (cached dev inum)
    (fun i x e => match e with None => if i_ref x =? 0 then Some i else None | Some _ => e end) _
    (fun i _ => Ok (inr i) (s <| k_itable ::= upd i ref_up |>)%rec o)).
  - change (k_itable s1) with (k_itable s).
    destruct (list_find (cached dev inum) (k_itable s)) as [[i x] |]; [done |].
    rewrite (fold_first_free _ None (fun i => i)).
    destruct (list_find (fun x => i_ref x = 0) (k_itable s)) as [[i x] |] eqn:E; simpl; [| done].
    apply list_find_Some in E as (Hi & _).
    erewrite bind_ok by (by eapply iset_ok).
    erewrite bind_ok; [| eapply iset_ok; simpl; by apply upd_lookup_eq].
    erewrite bind_ok; [| eapply iset_ok; simpl; apply upd_lookup_eq; by apply upd_lookup_eq].
    erewrite bind_ok; [| eapply iset_ok; simpl; do 2 apply upd_lookup_eq; by apply upd_lookup_eq].
    step_with release_ok; rewrite ret_ok; f_equal; unfold s1; destruct s; state_norm; simpl in *; subst.
    f_equal; rewrite !upd_upd; done.
  - intros i x e Hx; step_with iget__ok.
    destruct (decide (cached dev inum x)) as [(Hr & Hd & Hn) | Hc].
    + replace (_ && _ && _) with true by lia; step_with iset_ok; step_with release_ok.
      rewrite ret_ok; f_equal; unfold s1; destruct s; simpl in *; subst; done.
    + replace (_ && _ && _) with false; [done |]; unfold cached in Hc; lia.
  - intros i x s' y o' [= <- _ _]; eauto.
Qed.

(** Replacing one entry keeps the table in order. *)
Lemma itable_ok_upd t i x f :
  itable_ok t -> t !! i = Some x -> 0 <= i_ref (f x) ->
  (forall j z, j <> i -> t !! j = Some z -> ~ cached (i_dev (f x)) (i_inum (f x)) z) ->
  itable_ok (upd i f t).
Proof.
  intros (Hlen & Hpos & Huniq) Hi Hr Hne; split; [by rewrite length_upd |]; split.
  - intros j z; rewrite upd_lookup; case_decide; subst; [rewrite Hi; intros [= <-]; done | apply Hpos].
  - intros j k z w; rewrite !upd_lookup; repeat case_decide; subst; try done.
    + rewrite Hi; intros [= <-] Hw _ Hcw; destruct (Hne k w); done.
    + intros Hz; rewrite Hi; intros [= <-] Hrz (_ & E1 & E2).
      destruct (Hne j z); [done | done |]; unfold cached; rewrite E1, E2; done.
    + apply Huniq.
Qed.

(** C35: iget returns the one table entry of an inode.  When the inode is in use
    the result is its entry with one more reference, otherwise a free entry
    claimed for it, not yet valid; either way the inode is in the table exactly
    once afterwards, all other entries are unchanged, and only a table without
    a free entry makes it panic. *)
Theorem iget_spec (dev inum : Z) (s : kstate) (o : oracle)
  (Hok : itable_ok (k_itable s)) (Hl : k_locks s = [])
  (Hfree : exists i x, k_itable s !! i = Some x /\ i_ref x = 0) :
  exists i x y s', iget dev inum s o = Ok i s' o /\ itable_ok (k_itable s') /\
    k_itable s !! i = Some x /\ k_itable s' !! i = Some y /\ cached dev inum y /\
    (if decide (cached dev inum x) then y = ref_up x
     else i_ref x = 0 /\ i_valid y = 0 /\ i_ref y = 1 /\
       forall j z, k_itable s !! j = Some z -> ~ cached dev inum z) /\
    (forall j, j <> i -> k_itable s' !! j = k_itable s !! j).
Proof.
  pose proof Hok as (Hlen & Hpos & Huniq); rewrite iget_run by done.
  destruct (list_find (cached dev inum) (k_itable s)) as [[i x] |] eqn:Ec.
  - apply list_find_Some in Ec as (Hi & Hc & _); exists i, x, (ref_up x).
    eexists; split; [done |]; simpl.
    pose proof Hc as (Hr & Hd & Hn).
    split; [| split; [done |]; split; [by apply upd_lookup_eq |]; split; [unfold cached; simpl; lia |]].
    + apply (itable_ok_upd _ _ x); [done | done | simpl; lia |].
      intros j z Hj Hz Hcz; apply Hj; symmetry; by eapply (Huniq _ _ _ _ Hi Hz).
    + rewrite decide_True by done; split; [done |]; intros j Hj; by apply upd_lookup_ne.
  - apply list_find_None in Ec; rewrite Forall_lookup in Ec.
    destruct (list_find (fun x => i_ref x = 0) (k_itable s)) as [[i x] |] eqn:Ef.
    2:{ apply list_find_None in Ef; rewrite Forall_lookup in Ef; destruct Hfree as (? & ? & ? & ?); naive_solver. }
    apply list_find_Some in Ef as (Hi & Hz & _); exists i, x, (recycled dev inum x).
    eexists; split; [done |]; simpl.
    split; [| split; [done |]; split; [by apply upd_lookup_eq |]; split; [done |]].
    + apply (itable_ok_upd _ _ x); [done | done | done |].
      intros j z _ Hz'; by eapply Ec.
    + rewrite decide_False by (by eapply Ec); split_and!; try done.
      intros j Hj; by apply upd_lookup_ne.
Qed.

Lemma iget_spec_witness :
  exists i s', iget 1 1 zero_state [] = Ok i s' [] /\ itable_ok (k_itable s').
Proof.
  assert (Hz : itable_ok (k_itable zero_state)).
  { split; [reflexivity |]; split.
    - intros i x Hx; change (replicate NINODE zero_inode !! i = Some x) in Hx.
      apply lookup_replicate in Hx as [-> _]; simpl; lia.
    - intros i j x y Hx; change (replicate NINODE zero_inode !! i = Some x) in Hx.
      apply lookup_replicate in Hx as [-> _]; simpl; lia. }
  destruct (iget_spec 1 1 zero_state [] Hz eq_refl) as (i & x & y & s' & Hr & Hok & _).
  - exists 0%nat, zero_inode; split; reflexivity.
  - exists i, s'; split; [exact Hr | exact Hok].
Defined.
