(* ===== verification/ReadSpec.v ===== *)
(** Reading a file: readi() delivers the bytes the file has on disk.

    The file's blocks are seen through the buffer cache ([committed]): a block in use
    has the contents of its buffer, any other those of the disk.  The bytes go to user
    memory through the page table, to physical memory or to a local variable of
    the caller. *)
From stdpp Require Import base gmap list strings.
From Stdlib Require Import ZArith Lia ZifyBool.
From S2P Require Import Prelude Fcntl Memory KPrintf State Monad Demo Kalloc ProcBase Vm VmSpec Sleeplock Bio BioSpec CacheSpec Log LogSpec CrashSpec Fs FsSpec.

Local Open Scope Z_scope.

(** ** The file *)

Section File.
Context (D : gmap Z (list Z)) (C : gmap Z (list Z * Z)) (x : inode).

(** The block that holds block [bn] of the file *)
Definition seen (bn : Z) : Z :=
  if bn <? NDIRECT then nth (Z.to_nat bn) (i_addrs x) 0
  else get32 (committed D C (nth (Z.to_nat NDIRECT) (i_addrs x) 0)) (4 * Z.to_nat (bn - NDIRECT)).

(** Byte [i] of the file, and the [n] bytes from [off] on *)
Definition file_byte (i : Z) : Z := nth (Z.to_nat (i mod BSIZE)) (committed D C (seen (i / BSIZE))) 0.
Definition file_bytes (off n : Z) : list Z := (fun i => file_byte (off + i)) <$> seqZ 0 n.

(** Every block of the file is allocated. *)
Definition backed : Prop :=
  0 <= i_size x <= MAXFILE * BSIZE /\
  (NDIRECT * BSIZE < i_size x -> nth (Z.to_nat NDIRECT) (i_addrs x) 0 <> 0) /\
  (forall bn, 0 <= bn -> bn * BSIZE < i_size x -> seen bn <> 0) /\
  (forall n, length (committed D C n) = Z.to_nat BSIZE).

(** Block [bn] of the file has a block on disk. *)
Definition allocated (bn : Z) : Prop :=
  0 <= bn < MAXFILE /\ (NDIRECT <= bn -> nth (Z.to_nat NDIRECT) (i_addrs x) 0 <> 0) /\ seen bn <> 0.

Lemma backed_allocated bn : backed -> 0 <= bn -> bn * BSIZE < i_size x -> allocated bn.
Proof.
  intros (Hsz & Hind & Hall & _) H0 Hbn; split_and!; [done | | | by apply Hall].
  - change MAXFILE with 268 in *; change BSIZE with 1024 in *; lia.
  - intros Hn; apply Hind; change NDIRECT with 12 in *; change BSIZE with 1024 in *; lia.
Qed.

Lemma file_bytes_app off a b :
  0 <= a -> 0 <= b -> file_bytes off (a + b) = file_bytes off a ++ file_bytes (off + a) b.
Proof.
  intros; unfold file_bytes; rewrite seqZ_app, fmap_app by lia; f_equal.
  rewrite Z.add_0_l; apply list_eq; intros i; rewrite !list_lookup_fmap.
  destruct (decide (i < Z.to_nat b)%nat).
  - rewrite !lookup_seqZ_lt by lia; simpl; f_equal; f_equal; lia.
  - rewrite !lookup_seqZ_ge by lia; done.
Qed.

Lemma length_file_bytes off n : length (file_bytes off n) = Z.to_nat n.
Proof. unfold file_bytes; by rewrite length_fmap, length_seqZ. Qed.

(** Inside a block they are consecutive bytes of it. *)
Lemma file_bytes_block off m :
  backed -> 0 <= off -> 0 <= m <= BSIZE - off mod BSIZE ->
  sub (committed D C (seen (off / BSIZE))) (Z.to_nat (off mod BSIZE)) (Z.to_nat m) = file_bytes off m.
Proof.
  intros (_ & _ & _ & Hl) Ho Hm; pose proof (Z.mod_pos_bound off BSIZE ltac:(done)).
  specialize (Hl (seen (off / BSIZE))); set (d := committed D C (seen (off / BSIZE))) in *.
  apply list_eq; intros i; unfold sub, file_bytes; rewrite list_lookup_fmap.
  destruct (decide (i < Z.to_nat m)%nat) as [Hi | Hi].
  - rewrite lookup_take_lt, lookup_drop, lookup_seqZ_lt by lia; simpl; unfold file_byte.
    assert (E : (off + (0 + Z.of_nat i)) / BSIZE = off / BSIZE /\ (off + (0 + Z.of_nat i)) mod BSIZE = off mod BSIZE + Z.of_nat i).
    { pose proof (Z.div_mod off BSIZE ltac:(done)).
      split; [symmetry; apply (Z.div_unique _ _ _ (off mod BSIZE + Z.of_nat i)) | symmetry; apply (Z.mod_unique _ _ (off / BSIZE))]; lia. }
    destruct E as [-> ->]; fold d; rewrite nth_lookup.
    replace (Z.to_nat (off mod BSIZE + Z.of_nat i)) with (Z.to_nat (off mod BSIZE) + i)%nat by lia.
    destruct (lookup_lt_is_Some_2 d (Z.to_nat (off mod BSIZE) + i)%nat) as [b ->]; [lia | done].
  - rewrite lookup_take_ge, lookup_seqZ_ge by lia; done.
Qed.

End File.

(** ** The destination *)

(** Memory after the bytes [bs] were delivered *)
Definition delivered (pt : Z) (dst : iodst) (m : mem) (bs : list Z) (m' : mem) : Prop :=
  match dst with
  | DUser va => user_store m pt va bs m'
  | DPhys pa => m' = store_bytes m pa bs
  | DLocal => m' = m
  end.

(** There is room for [len] bytes. *)
Definition dst_fits (pt : Z) (dst : iodst) (m : mem) (len : Z) : Prop :=
  match dst with
  | DUser va => user_range m pt PTE_W va len /\ user_separate m pt va len
  | DPhys pa => 0 <= pa /\ pa + len < 2 ^ 64
  | DLocal => True
  end.

Lemma delivered_nil pt dst m : delivered pt dst m [] m.
Proof. destruct dst; [split; [intros i b; by rewrite lookup_nil | done] | done | done]. Qed.

Lemma store_bytes_app m a l1 l2 : store_bytes m a (l1 ++ l2) = store_bytes (store_bytes m a l1) (a + Z.of_nat (length l1)) l2.
Proof.
  revert m a; induction l1 as [| b l1 IH]; intros m a; simpl; [by rewrite Z.add_0_r |].
  rewrite IH; f_equal; lia.
Qed.

(** Where the next byte goes after [n] bytes *)
Definition dst_at (dst : iodst) (n : Z) : iodst :=
  match dst with DUser va => DUser (va + n) | DPhys pa => DPhys (pa + n) | DLocal => DLocal end.

Lemma dst_at_add pt dst m len n k :
  dst_fits pt dst m len -> 0 <= n -> 0 < k -> n + k <= len -> dst_add (dst_at dst n) k = dst_at dst (n + k).
Proof.
  intros Hf Hn Hk Hl; destruct dst as [va | pa |]; simpl in *; [| | done].
  - destruct Hf as [Hr _]; destruct (Hr va) as [[? _] _]; [lia |].
    destruct (Hr (va + n + k - 1)) as [[_ Hm] _]; [lia |].
    rewrite u64_small, Z.add_assoc by (change MAXVA with 274877906944 in Hm; lia); done.
  - rewrite u64_small, Z.add_assoc by lia; done.
Qed.

Section Read.
Context {LK : Linker}.

Lemma copyout_from pt dst m0 len acc bytes s o pr p :
  k_cur s = Some p -> k_procs s !! p = Some pr -> p_pagetable pr = pt ->
  dst_fits pt dst m0 len -> delivered pt dst m0 acc (k_mem s) ->
  Z.of_nat (length acc) + Z.of_nat (length bytes) <= len ->
  exists m', either_copyout (dst_at dst (Z.of_nat (length acc))) bytes (Z.of_nat (length bytes)) s o =
      Ok 0 (s <| k_mem := m' |>)%rec o /\ delivered pt dst m0 (acc ++ bytes) m'.
Proof.
  intros Hc Hpr <- Hfit Hd Hl; unfold either_copyout.
  erewrite bind_ok by (by apply curproc_ok); erewrite bind_ok by (by apply pget_ok).
  destruct dst as [va | pa |]; simpl in *.
  - destruct Hfit as [Hr Hs].
    destruct (user_store_translation m0 (p_pagetable pr) PTE_W va len acc (k_mem s) va) as (Hr1 & Hs1 & Hpa); [done.. | lia | lia |].
    destruct (copyout_run (p_pagetable pr) (va + Z.of_nat (length acc)) bytes (Z.of_nat (length bytes)) s o) as (m' & Hrun & Hst).
    + intros a Ha; apply Hr1; lia.
    + destruct Hs1 as [H1 H2]; split; intros a b Ha Hb; [apply H1; lia | apply H2; lia].
    + lia.
    + exists m'; split; [exact Hrun |]; rewrite Nat2Z.id, take_ge in Hst by lia.
      apply (user_store_app m0 (p_pagetable pr) va acc bytes (k_mem s) m'); [| | done | done].
      * destruct Hs as [H1 H2]; split; intros a b Ha Hb; [apply H1; lia | apply H2; lia].
      * intros a Ha; apply Hpa; lia.
  - exists (store_bytes (k_mem s) (pa + Z.of_nat (length acc)) bytes); split.
    + rewrite Nat2Z.id, take_ge by lia; destruct s; done.
    + by rewrite store_bytes_app, Hd.
  - exists (k_mem s); split; [destruct s; done | done].
Qed.

(** ** One block *)

Context (dev pid : Z) (p : nat) (stop : kstate -> bool).
#[local] Instance read_disk : BlockDevice := crash_disk stop.
Context (D : gmap Z (list Z)) (C : gmap Z (list Z * Z)).

(** Process [p] alone uses the file system, with the blocks [C] in use and none held. *)
Definition reading (s : kstate) : Prop := env pid p s /\ cache_rep dev pid s C ∅ /\ k_disk s = D.

(** A buffer is free for one more block. *)
Definition cache_room : Prop :=
  (size C < NBUF)%nat /\ (forall n d k, C !! n = Some (d, k) -> 0 < k /\ k + 1 < 2 ^ 32).

Lemma cache_rep_mem s m H C' : cache_rep dev pid s C' H -> cache_rep dev pid (s <| k_mem := m |>)%rec C' H.
Proof. intros []; split; done. Qed.

Lemma cache_rep_itable s t H C' : cache_rep dev pid s C' H -> cache_rep dev pid (s <| k_itable := t |>)%rec C' H.
Proof. intros []; split; done. Qed.

(** Block [n] is held in buffer [b]. *)
Definition holding_block (s : kstate) (b : nat) (n : Z) : Prop :=
  env pid p s /\ cache_rep dev pid s (<[n := match C !! n with Some (d, k) => (d, k + 1) | None => (blk D n, 1) end]> C) {[n]} /\
  k_disk s = D /\ buffer_of s b n.

Lemma bread_view n s o :
  reading s -> cache_room ->
  exists b s', bread dev n s o = Ok b s' o /\ holding_block s' b n /\ only_cache p s s' /\
    forall o', bdata b s' o' = Ok (committed D C n) s' o'.
Proof.
  intros (He & Hr & Hd) (Hsz & Hk).
  destruct (bread_spec dev pid p stop n s o C ∅ He Hr) as (b & s' & Hrun & He' & Ho & Hd' & Hr' & Hb & _);
    [set_solver | done | intros d k HC; apply (Hk _ _ _ HC) |].
  unfold read_entry in Hr'; rewrite Hd, right_id_L in Hr' by apply _.
  exists b, s'; split_and!; [done | unfold holding_block; split_and!; try done; congruence | done |]; intros o'.
  eapply (bdata_spec dev pid s' _ {[n]} b n _ (match C !! n with Some (_, k) => k + 1 | None => 1 end) o' Hr' Hb).
  rewrite lookup_insert_eq.
  unfold committed; by destruct (C !! n) as [[] |].
Qed.

Lemma brelse_view b n s o :
  holding_block s b n -> cache_room ->
  exists s', brelse b s o = Ok tt s' o /\ reading s' /\ only_cache p s s'.
Proof.
  intros (He & Hr & Hd & Hb) (_ & Hk).
  destruct (C !! n) as [[d k] |] eqn:HC.
  - pose proof (Hk _ _ _ HC) as Hk'.
    destruct (brelse_spec dev pid p stop s _ {[n]} b n d (k + 1) o He Hr Hb) as (s' & Hrun & He' & Ho & Hd' & Hr' & _);
      [set_solver | by rewrite lookup_insert_eq | lia |].
    exists s'; split_and!; [done | unfold reading; split_and!; try done; [| congruence] | done].
    unfold drop_ref in Hr'; rewrite lookup_insert_eq in Hr'; replace (k + 1 =? 1) with false in Hr' by lia.
    rewrite insert_insert_eq, Z.add_simpl_r, insert_id, difference_diag_L in Hr' by done; done.
  - destruct (brelse_spec dev pid p stop s _ {[n]} b n (blk D n) 1 o He Hr Hb) as (s' & Hrun & He' & Ho & Hd' & Hr' & _);
      [set_solver | by rewrite lookup_insert_eq | congruence |].
    exists s'; split_and!; [done | unfold reading; split_and!; try done; [| congruence] | done].
    unfold drop_ref in Hr'; rewrite lookup_insert_eq in Hr'; cbn [Z.eqb Pos.eqb] in Hr'.
    rewrite delete_insert_id, difference_diag_L in Hr' by done; done.
Qed.

Lemma holding_mem s b n m : holding_block s b n -> holding_block (s <| k_mem := m |>)%rec b n.
Proof. intros (He & Hr & Hd & Hb); unfold holding_block; split_and!; try done; by apply cache_rep_mem. Qed.

Lemma only_cache_frame s s' :
  only_cache p s s' ->
  k_itable s' = k_itable s /\ k_mem s' = k_mem s /\ k_cur s' = k_cur s /\ k_procs s' !! p = k_procs s !! p.
Proof. intros (? & ? & ? & Hp & ->); done. Qed.

(** bmap() of a block that is allocated *)
Lemma bmap_seen ip x bn s o :
  reading s -> cache_room -> k_itable s !! ip = Some x -> i_dev x = dev -> allocated D C x bn ->
  exists s', bmap ip bn s o = Ok (seen D C x bn) s' o /\ reading s' /\ only_cache p s s'.
Proof.
  intros Hr Hroom Hx Hdev (H0 & Hind & Hnz); unfold bmap.
  erewrite bind_ok by (by apply iget__ok); unfold seen in *.
  destruct (bn <? NDIRECT) eqn:E.
  - replace (nth (Z.to_nat bn) (i_addrs x) 0 =? 0) with false by lia.
    exists s; split_and!; [done | done | apply only_cache_refl].
  - cbv zeta; replace (bn - NDIRECT <? NINDIRECT) with true
      by (change NINDIRECT with 256; change NDIRECT with 12 in *; change MAXFILE with 268 in *; lia).
    assert (Hi : nth (Z.to_nat NDIRECT) (i_addrs x) 0 <> 0) by (apply Hind; lia).
    set (a := nth (Z.to_nat NDIRECT) (i_addrs x) 0) in *.
    replace (a =? 0) with false by lia; erewrite bind_ok by apply ret_ok; replace (a =? 0) with false by lia.
    rewrite Hdev; destruct (bread_view a s o Hr Hroom) as (b & s1 & Hrun & Hh & Ho & Hdata).
    erewrite bind_ok by exact Hrun; erewrite bind_ok by apply Hdata.
    replace (get32 (committed D C a) (4 * Z.to_nat (bn - NDIRECT)) =? 0) with false by lia.
    erewrite bind_ok by apply ret_ok.
    destruct (brelse_view b a s1 o Hh Hroom) as (s2 & Hrun2 & Hr2 & Ho2); erewrite bind_ok by exact Hrun2.
    exists s2; split_and!; [done | done |]; by eapply only_cache_trans.
Qed.

(** Only the cache, which other processes sleep and memory differ. *)
Definition only_read (s s' : kstate) : Prop := only_cache p (s <| k_mem := k_mem s' |>)%rec s'.

Lemma only_read_cache s s' : only_cache p s s' -> only_read s s'.
Proof. intros (bufs & disk & procs & Hp & ->); exists bufs, disk, procs; split; [done |]; destruct s; done. Qed.

Lemma only_read_mem m s : only_read s (s <| k_mem := m |>)%rec.
Proof. apply only_cache_refl. Qed.

Lemma only_read_trans s1 s2 s3 : only_read s1 s2 -> only_read s2 s3 -> only_read s1 s3.
Proof.
  intros (? & ? & ? & H1 & E1) (bufs & disk & procs & H2 & E2); exists bufs, disk, procs; split.
  - rewrite H2, E1; simpl; done.
  - rewrite E2 at 1; rewrite E1; destruct s1; done.
Qed.

Lemma only_read_frame s s' :
  only_read s s' -> k_itable s' = k_itable s /\ k_cur s' = k_cur s /\ k_procs s' !! p = k_procs s !! p.
Proof. intros (? & ? & ? & Hp & E); rewrite E; done. Qed.

Context (ip : nat) (x : inode) (pr : proc) (dst : iodst) (m0 : mem) (off n : Z).
Context (Hdev : i_dev x = dev) (Hback : backed D C x) (Hroom : cache_room).
Context (Hfit : dst_fits (p_pagetable pr) dst m0 n) (Hoff : 0 <= off) (Hend : off + n <= i_size x).

(** After [tot] bytes *)
Definition read_upto (tot : Z) (s : kstate) : Prop :=
  reading s /\ k_itable s !! ip = Some x /\ k_procs s !! p = Some pr /\
  delivered (p_pagetable pr) dst m0 (file_bytes D C x off tot) (k_mem s).

Definition chunk (tot : Z) : Z := Z.min (n - tot) (BSIZE - (off + tot) mod BSIZE).

Lemma readi_turn_run tot s o :
  read_upto tot s -> 0 <= tot < n ->
  exists s', readi_turn ip x n (tot, off + tot, dst_at dst tot, file_bytes D C x off tot) s o =
      Ok (inl (tot + chunk tot, off + (tot + chunk tot), dst_at dst (tot + chunk tot), file_bytes D C x off (tot + chunk tot))) s' o /\
    read_upto (tot + chunk tot) s' /\ only_read s s'.
Proof.
  intros (Hr & Hx & Hpr & Hd) Htot; pose proof Hback as (Hsz & _ & Hall & _).
  pose proof (Z.mod_pos_bound (off + tot) BSIZE ltac:(done)) as Hmod.
  pose proof (Z.div_mod (off + tot) BSIZE ltac:(done)) as Hdiv.
  assert (Hm : 0 < chunk tot <= n - tot /\ chunk tot <= BSIZE - (off + tot) mod BSIZE) by (unfold chunk; lia).
  assert (Hbn : (off + tot) / BSIZE * BSIZE < i_size x) by lia.
  assert (H0 : 0 <= (off + tot) / BSIZE) by (apply Z.div_pos; [lia | done]).
  assert (Hbig : i_size x <= 268 * 1024) by (change (MAXFILE * BSIZE) with 274432 in Hsz; lia).
  unfold readi_turn; rewrite (proj2 (Z.ltb_lt tot n)) by lia; cbn [negb].
  destruct (bmap_seen ip x _ s o Hr Hroom Hx Hdev (backed_allocated _ _ _ _ Hback H0 Hbn)) as (s1 & Hrun1 & Hr1 & Ho1).
  erewrite bind_ok by exact Hrun1; rewrite (proj2 (Z.eqb_neq _ 0) (Hall _ H0 Hbn)), Hdev.
  destruct (bread_view (seen D C x ((off + tot) / BSIZE)) s1 o Hr1 Hroom) as (b & s2 & Hrun2 & Hh & Ho2 & Hdata).
  erewrite bind_ok by exact Hrun2; fold (chunk tot); cbv zeta; erewrite bind_ok by apply Hdata.
  rewrite file_bytes_block by (done || lia).
  set (bytes := file_bytes D C x (off + tot) (chunk tot)).
  assert (Hlb : Z.of_nat (length bytes) = chunk tot) by (unfold bytes; rewrite length_file_bytes; lia).
  assert (Hla : Z.of_nat (length (file_bytes D C x off tot)) = tot) by (rewrite length_file_bytes; lia).
  assert (Ho12 : only_read s s2) by (eapply only_read_trans; by apply only_read_cache).
  destruct (only_read_frame _ _ Ho12) as (Hi2 & Hc2 & Hp2).
  destruct (copyout_from (p_pagetable pr) dst m0 n (file_bytes D C x off tot) bytes s2 o pr p)
    as (m' & Hrun3 & Hd3); try done; try lia.
  { apply Hh. }
  { by rewrite Hp2. }
  { destruct (only_cache_frame _ _ Ho1) as (_ & Hm1 & _), (only_cache_frame _ _ Ho2) as (_ & Hm2 & _).
    by rewrite Hm2, Hm1. }
  rewrite Hla, Hlb in Hrun3; erewrite bind_ok by exact Hrun3; change (0 =? -1) with false; cbv iota.
  destruct (brelse_view b _ _ o (holding_mem _ _ _ m' Hh) Hroom) as (s4 & Hrun4 & Hr4 & Ho4).
  erewrite bind_ok by exact Hrun4.
  assert (Ho24 : only_read s2 s4) by (eapply only_read_trans; [apply only_read_mem | by apply only_read_cache]).
  destruct (only_read_frame _ _ Ho24) as (Hi4 & _ & Hp4), (only_cache_frame _ _ Ho4) as (_ & Hm4 & _).
  assert (Hcat : file_bytes D C x off tot ++ bytes = file_bytes D C x off (tot + chunk tot))
    by (rewrite file_bytes_app by lia; done).
  exists s4; split_and!.
  - rewrite ret_ok, Hcat, (u32_small (tot + _)), (u32_small (off + tot + _)), Z.add_assoc by lia.
    erewrite dst_at_add by (exact Hfit || lia); done.
  - unfold read_upto; rewrite Hi4, Hi2, Hp4, Hp2, Hm4, <- Hcat; done.
  - by eapply only_read_trans.
Qed.

(** A turn that does not finish ends at the end of a block. *)
Lemma chunk_block tot : 0 <= tot -> tot + chunk tot < n -> (off + (tot + chunk tot)) / BSIZE = (off + tot) / BSIZE + 1.
Proof.
  intros H0 Hlt; pose proof (Z.div_mod (off + tot) BSIZE ltac:(done)).
  symmetry; apply (Z.div_unique _ _ _ 0); [left; done |]; unfold chunk in *; lia.
Qed.

Lemma readi_loop k tot s o :
  read_upto tot s -> 0 <= tot <= n ->
  (tot < n -> (off + n - 1) / BSIZE - (off + tot) / BSIZE < Z.of_nat k) ->
  exists s', kloop (N.succ (N.of_nat k)) (readi_turn ip x n) (tot, off + tot, dst_at dst tot, file_bytes D C x off tot) s o =
      Ok (n, file_bytes D C x off n) s' o /\ read_upto n s' /\ only_read s s'.
Proof.
  revert tot s; induction k as [| k IH]; intros tot s Hs Htot Hk; rewrite kloop_succ; destruct (decide (tot < n)) as [Hlt | Hge].
  1: { pose proof (Z.div_le_mono (off + tot) (off + n - 1) BSIZE ltac:(done) ltac:(lia)); lia. }
  2: { pose proof (Z.mod_pos_bound (off + tot) BSIZE ltac:(done)).
       destruct (readi_turn_run tot s o Hs ltac:(lia)) as (s1 & Hrun & Hs1 & Ho1); erewrite bind_ok by exact Hrun.
       replace (N.of_nat (S k)) with (N.succ (N.of_nat k)) by lia.
       destruct (IH (tot + chunk tot) s1) as (s2 & Hrun2 & Hs2 & Ho2); [done | unfold chunk; lia | |].
       - intros Hlt2; rewrite chunk_block by lia; specialize (Hk Hlt); lia.
       - exists s2; split_and!; [done | done |]; by eapply only_read_trans. }
  all: assert (tot = n) as -> by lia; pose proof Hback as (Hsz & _); change (MAXFILE * BSIZE) with 274432 in Hsz.
  all: unfold readi_turn; rewrite Z.ltb_irrefl; cbn [negb]; erewrite bind_ok by apply ret_ok.
  all: cbv beta iota; rewrite ret_ok, i32_small by lia; exists s; split_and!; [done | done |].
  all: apply only_read_cache, only_cache_refl.
Qed.

End Read.

(** The number of blocks a range of [n] bytes can span *)
Lemma span_turns off n : (off + n - 1) / BSIZE < off / BSIZE + n / BSIZE + 2.
Proof.
  pose proof (Z.div_mod n BSIZE ltac:(done)); pose proof (Z.mod_pos_bound n BSIZE ltac:(done)).
  pose proof (Z.div_mod off BSIZE ltac:(done)); pose proof (Z.mod_pos_bound off BSIZE ltac:(done)).
  apply Z.div_lt_upper_bound; [done |]; change BSIZE with 1024 in *; lia.
Qed.

Section Readi.
Context {LK : Linker} (dev pid : Z) (p : nat) (stop : kstate -> bool).
#[local] Instance readi_disk : BlockDevice := crash_disk stop.

Lemma readi_run D C ip x pr dst off n s o :
  reading dev pid p D C s -> cache_room C -> k_itable s !! ip = Some x -> i_dev x = dev -> backed D C x ->
  k_procs s !! p = Some pr -> 0 <= off -> 0 <= n -> off + n < 2 ^ 32 ->
  let len := Z.max 0 (Z.min n (i_size x - off)) in
  dst_fits (p_pagetable pr) dst (k_mem s) len ->
  exists s', readi ip dst off n s o = Ok (len, file_bytes D C x off len) s' o /\
    delivered (p_pagetable pr) dst (k_mem s) (file_bytes D C x off len) (k_mem s') /\
    reading dev pid p D C s' /\ only_read p s s'.
Proof.
  intros Hr Hroom Hx Hdev Hback Hpr Hoff Hn Hwrap len Hfit; unfold readi.
  pose proof Hback as (Hsz & _); change (MAXFILE * BSIZE) with 274432 in Hsz.
  erewrite bind_ok by (by apply iget__ok); rewrite (u32_small (off + n)) by lia.
  destruct (Z.ltb_spec (i_size x) off) as [Hpast | Hin]; cbn [orb].
  - assert (len = 0) as -> by (unfold len; lia).
    exists s; split_and!; [done | apply delivered_nil | done | apply only_read_cache, only_cache_refl].
  - rewrite (proj2 (Z.ltb_ge (off + n) off)) by lia.
    assert ((if i_size x <? off + n then u32 (i_size x - off) else n) = len) as ->
      by (unfold len; destruct (Z.ltb_spec (i_size x) (off + n)); [rewrite u32_small |]; lia).
    cbv zeta; assert (Hlen : 0 <= len /\ off + len <= i_size x) by (unfold len; lia).
    assert (Hup : read_upto dev pid p D C ip x pr dst (k_mem s) off 0 s) by (split_and!; try done; apply delivered_nil).
    destruct (readi_loop dev pid p stop D C ip x pr dst (k_mem s) off len Hdev Hback Hroom Hfit Hoff (proj2 Hlen)
                (Z.to_nat (len / BSIZE) + 2) 0 s o Hup) as (s' & Hrun & (Hr' & _ & _ & Hd') & Ho); [lia | |].
    + intros _; pose proof (Z.div_pos len BSIZE ltac:(lia) ltac:(done)); pose proof (span_turns off len); rewrite Z.add_0_r; lia.
    + exists s'; split_and!; [| done | done | done].
      replace (Z.to_N (len / BSIZE) + 3)%N with (N.succ (N.of_nat (Z.to_nat (len / BSIZE) + 2)))
        by (pose proof (Z.div_pos len BSIZE ltac:(lia) ltac:(done)); lia).
      rewrite Z.add_0_r in Hrun; rewrite <- Hrun; f_equal; f_equal.
      destruct dst; simpl; by rewrite ?Z.add_0_r.
Qed.

(** C12: readi() reads the file: of the bytes from [off] on it delivers those that the file has, at most [n]
    of them, to user memory through the page table, to physical memory or to
    the caller, whatever blocks are in the cache and wherever the range starts
    and ends in its blocks; it changes no other byte of memory and leaves the
    same blocks in use and none held. *)
Theorem readi_spec D C ip x pr dst off n s o :
  reading dev pid p D C s -> cache_room C -> k_itable s !! ip = Some x -> i_dev x = dev -> backed D C x ->
  k_procs s !! p = Some pr -> 0 <= off -> 0 <= n -> off + n < 2 ^ 32 ->
  let len := Z.max 0 (Z.min n (i_size x - off)) in
  dst_fits (p_pagetable pr) dst (k_mem s) len ->
  exists s', readi ip dst off n s o = Ok (len, file_bytes D C x off len) s' o /\
    delivered (p_pagetable pr) dst (k_mem s) (file_bytes D C x off len) (k_mem s') /\
    reading dev pid p D C s' /\ only_read p s s'.
Proof. apply readi_run. Qed.

End Readi.

(** A file of 1500 bytes whose first block is in the cache *)
Definition demo_inode : inode :=
  mkinode 1 7 1 (mksleeplock 0 0) 1 T_FILE 0 0 1 1500 (50 :: 60 :: replicate 11 0).
Definition demo_reading : kstate := (demo_commit <| k_itable := [demo_inode] |>)%rec.

Lemma demo_backed : backed (k_disk demo_reading) {[ 50 := (demo_data, 1) ]} demo_inode.
Proof.
  split; [vm_compute; split; discriminate |]; split; [vm_compute; discriminate |]; split.
  - intros bn H0 Hlt; change (i_size demo_inode) with 1500 in Hlt; change BSIZE with 1024 in Hlt.
    assert (bn = 0 \/ bn = 1) as [-> | ->] by lia; vm_compute; discriminate.
  - intros n; unfold committed; change (k_disk demo_reading) with (∅ : gmap Z (list Z)); destruct (_ !! n) as [[d k] |] eqn:E.
    + apply lookup_singleton_Some in E as [_ [= <- _]]; reflexivity.
    + unfold blk; rewrite lookup_empty; reflexivity.
Qed.

Lemma readi_spec_witness :
  exists s', @readi demo_linker (crash_disk (fun _ => true)) 0 (DPhys 2147483648) 1000 100 demo_reading [] =
      Ok (100, replicate 24 7 ++ replicate 76 0) s' [] /\
    k_mem s' = store_bytes ∅ 2147483648 (replicate 24 7 ++ replicate 76 0).
Proof.
  assert (H1 : reading 1 0 0 (k_disk demo_reading) {[ 50 := (demo_data, 1) ]} demo_reading).
  { unfold reading; split; [apply demo_env; vm_compute; reflexivity |]; split; [| reflexivity].
    exact (cache_rep_itable 1 0 demo_commit [demo_inode] ∅ _ (com_rep _ _ _ _ _ demo_committing)). }
  assert (H2 : cache_room {[ 50 := (demo_data, 1) ]}).
  { split; [rewrite map_size_singleton; vm_compute; lia |].
    intros n d k E; apply lookup_singleton_Some in E as [_ [= _ <-]]; lia. }
  assert (H3 : exists pr, k_procs demo_reading !! 0%nat = Some pr) by (eexists; reflexivity); destruct H3 as [pr Hpr].
  assert (H4 : Z.max 0 (Z.min 100 (i_size demo_inode - 1000)) = 100) by reflexivity.
  assert (H5 : dst_fits (p_pagetable pr) (DPhys 2147483648) (k_mem demo_reading) (Z.max 0 (Z.min 100 (i_size demo_inode - 1000))))
    by (rewrite H4; simpl; lia).
  destruct (@readi_spec demo_linker 1 0 0 (fun _ => true) _ _ 0 demo_inode pr (DPhys 2147483648) 1000 100 demo_reading []
    H1 H2 eq_refl eq_refl demo_backed Hpr ltac:(lia) ltac:(lia) ltac:(lia) H5) as (s' & Hrun & Hd & _).
  assert (Hb : file_bytes (k_disk demo_reading) {[ 50 := (demo_data, 1) ]} demo_inode 1000 100 = replicate 24 7 ++ replicate 76 0)
    by (vm_compute; reflexivity).
  rewrite H4, Hb in Hrun, Hd; exists s'; split; [exact Hrun | exact Hd].
Defined.
