(* ===== verification/WriteSpec.v ===== *)
(** Writing a file: writei() in a transaction.

    The blocks of the transaction are those the log header names; each is pinned
    in the cache with its new contents until the commit.  [tx C s] says that [s] is
    inside a transaction with the blocks [C] written so far: it is the state in
    which commit() works. *)
From stdpp Require Import base gmap list strings.
From Stdlib Require Import ZArith Lia ZifyBool.
From S2P Require Import Prelude Fcntl Memory KPrintf State Monad Demo Kalloc ProcBase Vm VmSpec Sleeplock Bio BioSpec CacheSpec Log LogSpec CrashSpec Fs FsSpec ReadSpec.

Local Open Scope Z_scope.

(** ** The transaction *)

Lemma logged_home lg m : header_ok (l_lh lg) -> (exists i, (0 <= i < entries lg)%nat /\ home lg i = m) <-> m ∈ logged (l_lh lg).
Proof.
  intros Hok; pose proof (length_logged _ Hok) as Hl; destruct Hok as (Hn & Hlen & _).
  unfold home, entries, logged in *; split.
  - intros (i & Hi & <-); apply list_elem_of_lookup; exists i; rewrite lookup_take_lt by lia.
    apply list_lookup_lookup_total_lt; lia.
  - intros Hm; apply list_elem_of_lookup in Hm as (i & Hi); exists i; apply lookup_take_Some in Hi as (Hi & Hlt).
    split; [lia |]; by apply list_lookup_total_correct.
Qed.

Lemma length_list_to_set_logged lh : header_ok lh -> size (list_to_set (logged lh) : gset Z) = Z.to_nat (lh_n lh).
Proof. intros Hok; rewrite size_list_to_set by apply Hok; by apply length_logged. Qed.

Section Write.
Context {LK : Linker} (dev pid : Z) (p : nat) (stop : kstate -> bool) (D : gmap Z (list Z)).
#[local] Instance write_disk : BlockDevice := crash_disk stop.

Record tx (C : gmap Z (list Z * Z)) (s : kstate) : Prop := {
  tx_reading : reading dev pid p D C s;
  tx_log : log_ok dev (k_log s);
  tx_header : header_ok (l_lh (k_log s));
  tx_pinned : pinned (k_log s) false 0 C;
  tx_open : 1 <= l_outstanding (k_log s)
}.

(** Block numbers that may be written *)
Definition home_block (start n : Z) : Prop := 0 <= n < 2 ^ 31 /\ ~ in_log start n.

(** What a write leaves alone: all but the cache, memory and the blocks of the transaction *)
Definition only_write (s s' : kstate) : Prop :=
  k_itable s' = k_itable s /\ k_sb s' = k_sb s /\ k_mem s' = k_mem s /\ k_procs s' !! p = k_procs s !! p /\
  l_start (k_log s') = l_start (k_log s) /\
  lh_n (l_lh (k_log s)) <= lh_n (l_lh (k_log s')) <= lh_n (l_lh (k_log s)) + 1.

Lemma tx_room C s : tx C s -> cache_room C.
Proof.
  intros [_ _ _ (Hs & Hk & _) _]; split; [done |]; intros n d k HC; rewrite (Hk _ _ _ HC); lia.
Qed.

(** The pinned blocks are the logged ones. *)
Lemma tx_logged C s m : tx C s -> is_Some (C !! m) <-> m ∈ logged (l_lh (k_log s)).
Proof.
  intros [_ _ Hh (_ & _ & Hp) _]; rewrite Hp, <- logged_home by done; naive_solver.
Qed.
Lemma cache_rep_log s g H C : cache_rep dev pid s C H -> cache_rep dev pid (s <| k_log ::= g |>)%rec C H.
Proof. intros []; split; done. Qed.

(** The pinned blocks after one more was written *)
Lemma pinned_add lg lg' C n d :
  header_ok (l_lh lg) -> header_ok (l_lh lg') -> lh_n (l_lh lg') < LOGBLOCKS -> pinned lg false 0 C ->
  (forall m, m ∈ logged (l_lh lg') <-> m = n \/ m ∈ logged (l_lh lg)) ->
  pinned lg' false 0 (<[n := (d, 1)]> C).
Proof.
  intros Hh Hh' Hn (_ & Hk & Hp) Hl.
  assert (Hdom : forall m, is_Some (<[n := (d, 1)]> C !! m) <-> m ∈ logged (l_lh lg')).
  { intros m; rewrite lookup_insert_is_Some, Hl, Hp, <- logged_home by done; destruct (decide (n = m)); naive_solver. }
  split_and!.
  - rewrite <- size_dom; change LOGBLOCKS with 30 in Hn; change NBUF with 30%nat; destruct Hh' as (Hpos & Hh').
    replace (dom (<[n := (d, 1)]> C)) with (list_to_set (logged (l_lh lg')) : gset Z); [rewrite length_list_to_set_logged by (by split); lia |].
    apply set_eq; intros m; rewrite elem_of_list_to_set, elem_of_dom, Hdom; done.
  - intros m d' k; rewrite lookup_insert_Some; intros [[_ [= _ <-]] | [_ HC]]; [done | by eapply Hk].
  - intros m; rewrite Hdom, <- logged_home by done; naive_solver.
Qed.

(** The buffer is in the transaction after log_write(), with a reference of its own. *)
Lemma log_written_rep C b n d s :
  env pid p s -> buffer_of s b n -> i32 n = n ->
  cache_rep dev pid s (<[n := (d, if bool_decide (n ∈ logged (l_lh (k_log s))) then 2 else 1)]> C) {[n]} ->
  let s' := log_written b n s in
  env pid p s' /\ cache_rep dev pid s' (<[n := (d, 2)]> C) {[n]} /\ buffer_of s' b n /\ k_disk s' = k_disk s /\
  k_itable s' = k_itable s /\ k_sb s' = k_sb s /\ k_mem s' = k_mem s /\ k_procs s' = k_procs s /\
  k_log s' = (k_log s <| l_lh ::= logged_write n |>)%rec.
Proof.
  intros He Hb Hi Hr s'; unfold s', log_written; rewrite Hi; case_bool_decide as Hin; cbn [negb].
  - split_and!; try done; by apply cache_rep_log.
  - destruct (buffer_facts dev pid s _ {[n]} b n d 1 Hr Hb) as (r & Hbn & Hbr & Hbd & Hbno & Hdata & Href & Hv & _ & Hlk & _);
      [by rewrite lookup_insert_eq |].
    set (s1 := (s <| k_log ::= _ |>)%rec); set (g := fun r : buf => (r <| b_refcnt := u32 (b_refcnt r + 1) |>)%rec).
    assert (Hr1 : cache_rep dev pid s1 (<[n := (d, 1)]> C) {[n]}) by (by apply cache_rep_log).
    assert (Hg : b_refcnt (g r) = 2) by (unfold g; simpl; rewrite Href; reflexivity).
    split_and!; try done.
    + rewrite <- (insert_insert_eq C n (d, 2) (d, 1)).
      replace (d, 2) with (b_data (g r), b_refcnt (g r)) by (rewrite Hg; unfold g; simpl; congruence).
      eapply (rep_update dev pid s1 _ _ {[n]} {[n]} b n d 1 r (g r)); try done; [by rewrite lookup_insert_eq | | lia |].
      * simpl; by apply upd_const.
      * rewrite decide_True by set_solver; apply Hlk; set_solver.
    + split; [done |]; exists (g r); split; [simpl; by erewrite upd_lookup_eq |]; rewrite Hg; done.
Qed.

(** The log after block [n] was recorded *)
Lemma log_ok_add lg n :
  log_ok dev lg -> header_ok (l_lh lg) -> home_block (l_start lg) n -> lh_n (l_lh lg) + 1 < LOGBLOCKS ->
  let lg' := (lg <| l_lh ::= logged_write n |>)%rec in
  log_ok dev lg' /\ header_ok (l_lh lg') /\ (forall m, m ∈ logged (l_lh lg') <-> m = n \/ m ∈ logged (l_lh lg)) /\
  lh_n (l_lh lg) <= lh_n (l_lh lg') <= lh_n (l_lh lg) + 1.
Proof.
  intros Hlo Hh (Hn & Hnl) Hroom lg'.
  assert (Hi : i32 n = n) by (apply i32_small; lia).
  destruct (logged_write_ok n (l_lh lg) Hh ltac:(lia)) as [Hh' Hl]; rewrite Hi in Hl.
  assert (Hmem : forall m, m ∈ logged (l_lh lg') <-> m = n \/ m ∈ logged (l_lh lg)).
  { intros m; simpl; rewrite Hl; case_bool_decide; set_solver. }
  assert (Hc : lh_n (l_lh lg) <= lh_n (l_lh lg') <= lh_n (l_lh lg) + 1) by (simpl; unfold logged_write; destruct (bool_decide (i32 n ∈ _)); simpl; lia).
  split_and!; try done; try lia; destruct Hlo as [H1 H2 H3 H4 H5].
  split; try done; try apply Hh'.
  intros i Hii; assert (Hin : home lg' i ∈ logged (l_lh lg')).
  { apply (logged_home lg' (home lg' i) Hh'); exists i; split; [lia | done]. }
  apply Hmem in Hin as [-> | Hin]; [done |].
  apply (logged_home lg _ Hh) in Hin as (j & Hj & <-); apply H5; lia.
Qed.

(** bread() took the block; its new contents are put into the transaction. *)
Lemma write_block C s s1 b n f o :
  tx C s -> holding_block dev pid p D C s1 b n -> k_log s1 = k_log s -> home_block (l_start (k_log s)) n ->
  lh_n (l_lh (k_log s)) + 1 < LOGBLOCKS ->
  exists s2 s3 s4, bdata_set b f s1 o = Ok tt s2 o /\ log_write b s2 o = Ok tt s3 o /\ brelse b s3 o = Ok tt s4 o /\
    tx (<[n := (f (committed D C n), 1)]> C) s4 /\ only_write s1 s4.
Proof.
  intros Htx (He & Hr & Hd & Hb) Hlg (Hn & Hlog) Hroom.
  pose proof (tx_room _ _ Htx) as Hcr; destruct Htx as [Hrd Hlo Hh Hpin Hop]; pose proof Hpin as (_ & Hk1 & _).
  set (k0 := if bool_decide (n ∈ logged (l_lh (k_log s))) then 2 else 1).
  assert (Hent : match C !! n with Some (d, k) => (d, k + 1) | None => (blk D n, 1) end = (committed D C n, k0)).
  { unfold committed, k0; destruct (C !! n) as [[d k] |] eqn:E.
    - rewrite (Hk1 _ _ _ E), bool_decide_true; [done |]; eapply (tx_logged C s n); [by split | eauto].
    - rewrite bool_decide_false; [done |]; intros Hin; apply (tx_logged C s n) in Hin as [? Hin]; [congruence | by split]. }
  rewrite Hent in Hr; set (d := committed D C n) in *.
  destruct (bdata_set_spec dev pid p s1 _ {[n]} b n d k0 f o He Hr Hb) as (s2 & Hrun2 & He2 & Ho2 & Hd2 & Hr2 & Hkeep);
    [by rewrite lookup_insert_eq |].
  rewrite insert_insert_eq in Hr2; pose proof (Hkeep b n Hb) as Hb2.
  destruct (buffer_facts dev pid s2 _ {[n]} b n (f d) k0 Hr2 Hb2) as (r & Hbn & Hbr & Hbd & Hbno & Hdata & Href & _ & Hk0 & Hlk & _);
    [by rewrite lookup_insert_eq |].
  assert (Hlg2 : k_log s2 = k_log s) by (destruct Ho2 as (? & ? & ? & _ & ->); done).
  assert (Hi32 : i32 n = n) by (apply i32_small; lia).
  pose proof (log_write_spec b r s2 o ltac:(apply He2) Hbr ltac:(by rewrite Hlg2)) as Hlw.
  rewrite Hlg2, Hbno, Hi32 in Hlw; replace (LOGBLOCKS <=? lh_n (l_lh (k_log s))) with false in Hlw by lia.
  replace (l_outstanding (k_log s) <? 1) with false in Hlw by lia; destruct Hlw as (Hrun3 & Hh3 & Hlog3).
  assert (Hr2' : cache_rep dev pid s2 (<[n := (f d, if bool_decide (n ∈ logged (l_lh (k_log s2))) then 2 else 1)]> C) {[n]})
    by (rewrite Hlg2; exact Hr2).
  destruct (log_written_rep C b n (f d) s2 He2 Hb2 Hi32 Hr2') as (He3 & Hr3 & Hb3 & Hd3 & Hit3 & Hsb3 & Hm3 & Hp3 & Hlg3).
  set (s3 := log_written b n s2) in *.
  destruct (brelse_spec dev pid p stop s3 _ {[n]} b n (f d) 2 o He3 Hr3 Hb3) as (s4 & Hrun4 & He4 & Ho4 & Hd4 & Hr4 & _);
    [set_solver | by rewrite lookup_insert_eq | lia |].
  unfold drop_ref in Hr4; rewrite lookup_insert_eq in Hr4; cbn [Z.eqb Pos.eqb] in Hr4.
  rewrite insert_insert_eq, difference_diag_L in Hr4; change (2 - 1) with 1 in Hr4.
  assert (Hlg4 : k_log s4 = (k_log s <| l_lh ::= logged_write n |>)%rec)
    by (destruct Ho4 as (? & ? & ? & _ & ->); simpl; by rewrite Hlg3, Hlg2).
  destruct (log_ok_add (k_log s) n Hlo Hh (conj Hn Hlog) Hroom) as (Hlo' & Hh' & Hmem & Hcnt); rewrite <- Hlg4 in *.
  exists s2, s3, s4; split_and!; [done | done | done | |].
  - split; try done; [split; [done |]; split; [done | congruence] | | rewrite Hlg4; done].
    exact (pinned_add (k_log s) (k_log s4) C n (f d) Hh Hh' ltac:(lia) Hpin Hmem).
  - destruct Ho2 as (? & ? & ? & Hpp2 & E2), Ho4 as (? & ? & ? & Hpp4 & E4).
    unfold only_write; rewrite Hlg, Hlg4; split_and!; try done; try (rewrite <- Hlg4; lia).
    all: rewrite E4; simpl; rewrite ?Hit3, ?Hsb3, ?Hm3, ?Hpp4, ?Hp3; rewrite E2; simpl; done.
Qed.

Lemma tx_cache C s s' : tx C s -> reading dev pid p D C s' -> only_cache p s s' -> tx C s'.
Proof. intros [] Hr (? & ? & ? & _ & ->); split; done. Qed.

End Write.

(** ** The source *)

Definition src_fits (pt : Z) (src : iosrc) (m : mem) (n : Z) : Prop :=
  match src with SUser va => user_range m pt PTE_V va n | SLocal bs => n <= Z.of_nat (length bs) end.

(** The bytes to be written *)
Definition src_bytes (pt : Z) (src : iosrc) (m : mem) (n : Z) : list Z :=
  match src with SUser va => user_bytes m pt va n | SLocal bs => take (Z.to_nat n) bs end.

Definition src_at (src : iosrc) (n : Z) : iosrc :=
  match src with SUser va => SUser (va + n) | SLocal bs => SLocal (drop (Z.to_nat n) bs) end.

Lemma src_at_add pt src m n k l :
  src_fits pt src m n -> 0 <= k -> 0 < l -> k + l <= n -> src_add (src_at src k) l = src_at src (k + l).
Proof.
  intros Hf Hk Hl Hn; destruct src as [va | bs]; simpl in *.
  - destruct (Hf va) as [[? _] _]; [lia |]; destruct (Hf (va + k + l - 1)) as [[_ Hm] _]; [lia |].
    rewrite u64_small, Z.add_assoc by (change MAXVA with 274877906944 in Hm; lia); done.
  - rewrite drop_drop; do 2 f_equal; lia.
Qed.

Lemma length_src_bytes pt src m n : src_fits pt src m n -> 0 <= n -> length (src_bytes pt src m n) = Z.to_nat n.
Proof.
  intros Hf Hn; destruct src; simpl in *; [unfold user_bytes; by rewrite length_fmap, length_seqZ |].
  rewrite length_take; lia.
Qed.

Lemma copyin_from {LK : Linker} pt src n k l s o pr p :
  k_cur s = Some p -> k_procs s !! p = Some pr -> p_pagetable pr = pt -> src_fits pt src (k_mem s) n ->
  0 <= k -> 0 <= l -> k + l <= n ->
  either_copyin (src_at src k) l s o = Ok (0, sub (src_bytes pt src (k_mem s) n) (Z.to_nat k) (Z.to_nat l)) s o.
Proof.
  intros Hc Hpr <- Hf Hk Hl Hn; unfold either_copyin.
  erewrite bind_ok by (by apply curproc_ok); erewrite bind_ok by (by apply pget_ok).
  destruct src as [va | bs]; simpl in *.
  - rewrite copyin_run by (done || (intros a Ha; apply Hf; lia)); do 2 f_equal.
    replace n with (k + (l + (n - k - l))) by lia; rewrite !user_bytes_app by lia.
    assert (Hlen : forall a c, 0 <= c -> length (user_bytes (k_mem s) (p_pagetable pr) a c) = Z.to_nat c)
      by (intros; unfold user_bytes; by rewrite length_fmap, length_seqZ).
    unfold sub; rewrite drop_app_length', take_app_length' by (rewrite Hlen; lia); done.
  - rewrite ret_ok; do 2 f_equal; unfold sub; rewrite !take_drop_commute, take_take; do 2 f_equal; lia.
Qed.

(** ** The contents *)

Lemma nth_splice d o bs j :
  (o + length bs <= length d)%nat ->
  nth j (splice d o bs) 0 = if decide (o <= j < o + length bs)%nat then nth (j - o) bs 0 else nth j d 0.
Proof.
  intros Hl; unfold splice; rewrite !nth_lookup; case_decide as E.
  - rewrite lookup_app_r by (rewrite length_take; lia); rewrite length_take, lookup_app_l by lia; do 2 f_equal; lia.
  - destruct (decide (j < o)%nat).
    + rewrite lookup_app_l, lookup_take_lt by (rewrite ?length_take; lia); done.
    + rewrite lookup_app_r by (rewrite length_take; lia); rewrite length_take, lookup_app_r, lookup_drop by lia.
      do 2 f_equal; lia.
Qed.

Section Contents.
Context (D : gmap Z (list Z)) (C : gmap Z (list Z * Z)) (x : inode) (off : Z) (bytes : list Z) (lim : Z).

(** The file has a block of its own for every byte up to [lim]. *)
Definition own_blocks : Prop :=
  (forall bn, 0 <= bn -> bn * BSIZE < lim -> allocated D C x bn) /\
  (forall bn bn', 0 <= bn -> bn * BSIZE < lim -> 0 <= bn' -> bn' * BSIZE < lim -> seen D C x bn = seen D C x bn' -> bn = bn') /\
  (forall bn, 0 <= bn -> bn * BSIZE < lim -> NDIRECT * BSIZE < lim -> seen D C x bn <> nth (Z.to_nat NDIRECT) (i_addrs x) 0) /\
  (forall n, length (committed D C n) = Z.to_nat BSIZE).

(** Block [bn] of the file has one of the bytes from [off] to [off + tot]. *)
Definition touched (tot bn : Z) : Prop := off / BSIZE <= bn /\ bn * BSIZE < off + tot.

(** The first [tot] bytes are written, and nothing else. *)
Definition wrote (C1 : gmap Z (list Z * Z)) (tot : Z) : Prop :=
  (forall n, length (committed D C1 n) = Z.to_nat BSIZE) /\
  (forall bn j, 0 <= bn -> bn * BSIZE < lim -> 0 <= j < BSIZE ->
    nth (Z.to_nat j) (committed D C1 (seen D C x bn)) 0 =
    if decide (off <= bn * BSIZE + j < off + tot) then nth (Z.to_nat (bn * BSIZE + j - off)) bytes 0
    else nth (Z.to_nat j) (committed D C (seen D C x bn)) 0) /\
  (forall m, (forall bn, touched tot bn -> m <> seen D C x bn) -> committed D C1 m = committed D C m).

Lemma wrote_nil : own_blocks -> wrote C 0.
Proof. intros (_ & _ & _ & Hl); split_and!; [done | | done]; intros bn j _ _ _; by rewrite decide_False by lia. Qed.

(** The block map does not change. *)
Lemma wrote_seen C1 tot bn :
  own_blocks -> wrote C1 tot -> 0 <= off -> off + tot <= lim -> 0 <= bn -> bn * BSIZE < lim -> seen D C1 x bn = seen D C x bn.
Proof.
  intros (_ & _ & Hi & _) (_ & _ & Hw) Ho Hl H0 Hbn; unfold seen; destruct (Z.ltb_spec bn NDIRECT); [done |].
  rewrite Hw; [done |]; intros bn' [H1 H2] E.
  pose proof (Z.div_pos off BSIZE Ho ltac:(done)).
  apply (Hi bn'); [lia | lia | change NDIRECT with 12 in *; change BSIZE with 1024 in *; lia | done].
Qed.

Lemma committed_insert C1 n d k m : committed D (<[n := (d, k)]> C1) m = if decide (n = m) then d else committed D C1 m.
Proof. unfold committed; destruct (decide (n = m)) as [-> |]; [by rewrite lookup_insert_eq | by rewrite lookup_insert_ne]. Qed.

(** One more piece, inside a block *)
Lemma wrote_chunk C1 tot m :
  own_blocks -> wrote C1 tot -> 0 <= off -> 0 <= tot -> 0 < m -> m <= BSIZE - (off + tot) mod BSIZE ->
  off + tot + m <= lim -> tot + m <= Z.of_nat (length bytes) ->
  let n := seen D C x ((off + tot) / BSIZE) in
  let d := splice (committed D C1 n) (Z.to_nat ((off + tot) mod BSIZE)) (sub bytes (Z.to_nat tot) (Z.to_nat m)) in
  wrote (<[n := (d, 1)]> C1) (tot + m).
Proof.
  intros (_ & Hinj & _ & _) (Hl & Hb & Hw) Ho Ht Hm Hroom Hlim Hbytes n d.
  pose proof (Z.mod_pos_bound (off + tot) BSIZE ltac:(done)) as Hmod.
  pose proof (Z.div_mod (off + tot) BSIZE ltac:(done)) as Hdiv.
  set (b0 := (off + tot) / BSIZE) in *; set (o := (off + tot) mod BSIZE) in *.
  assert (H0 : 0 <= b0) by (apply Z.div_pos; [lia | done]).
  assert (Hs : length (sub bytes (Z.to_nat tot) (Z.to_nat m)) = Z.to_nat m) by (unfold sub; rewrite length_take, length_drop; lia).
  assert (Hfit : (Z.to_nat o + length (sub bytes (Z.to_nat tot) (Z.to_nat m)) <= length (committed D C1 n))%nat) by (rewrite Hs, Hl; lia).
  split_and!.
  - intros k; rewrite committed_insert; case_decide; [unfold d; rewrite length_splice; [apply Hl | done] | apply Hl].
  - intros bn j Hbn Hbl Hj; rewrite committed_insert; case_decide as E.
    + apply Hinj in E as <-; [| lia | lia | lia | lia].
      unfold d; rewrite nth_splice by done; rewrite Hs; fold n; specialize (Hb b0 j H0 Hbl Hj); fold n in Hb.
      destruct (decide (Z.to_nat o <= Z.to_nat j < Z.to_nat o + Z.to_nat m)%nat) as [E1 | E1];
        destruct (decide (off <= b0 * BSIZE + j < off + (tot + m))) as [E2 | E2]; try lia.
      * unfold sub; rewrite !nth_lookup, lookup_take_lt, lookup_drop by lia; do 2 f_equal; lia.
      * rewrite Hb, decide_True by lia; done.
      * rewrite Hb, decide_False by lia; done.
    + rewrite (Hb bn j Hbn Hbl Hj).
      assert (bn <> b0) by (intros ->; by apply E).
      repeat case_decide; try done; exfalso; change BSIZE with 1024 in *; lia.
  - intros k Hk; rewrite committed_insert, decide_False.
    + apply Hw; intros bn [H1 H2]; apply Hk; split; lia.
    + intros <-; apply (Hk b0); [split; [apply Z.div_le_mono; [done | lia] | lia] | done].
Qed.

End Contents.

(** ** writei *)

Section Writei.
Context {LK : Linker} (dev pid : Z) (p : nat) (stop : kstate -> bool) (D : gmap Z (list Z)).
#[local] Instance writei_disk : BlockDevice := crash_disk stop.
Context (C0 : gmap Z (list Z * Z)) (ip : nat) (x : inode) (pr : proc) (src : iosrc) (off n lim : Z) (s0 : kstate).
Let bytes : list Z := src_bytes (p_pagetable pr) src (k_mem s0) n.
Context (Hdev : i_dev x = dev) (Hown : own_blocks D C0 x lim) (Hoff : 0 <= off) (Hn : 0 <= n) (Hlim : off + n <= lim).
Context (Hsrc : src_fits (p_pagetable pr) src (k_mem s0) n) (Hip : k_itable s0 !! ip = Some x) (Hpr : k_procs s0 !! p = Some pr).
Context (Hmax : lim <= MAXFILE * BSIZE).
Context (Hhome : forall bn, touched off n bn -> home_block (l_start (k_log s0)) (seen D C0 x bn)).

(** How many more blocks are written *)
Definition blocks_left (tot : Z) : Z := if tot <? n then (off + n - 1) / BSIZE - (off + tot) / BSIZE + 1 else 0.

(** After [tot] bytes, with a place in the log for the inode *)
Definition write_upto (tot : Z) (C1 : gmap Z (list Z * Z)) (s : kstate) : Prop :=
  tx dev pid p D C1 s /\ wrote D C0 x off bytes lim C1 tot /\
  k_itable s = k_itable s0 /\ k_sb s = k_sb s0 /\ k_mem s = k_mem s0 /\ k_procs s !! p = k_procs s0 !! p /\
  l_start (k_log s) = l_start (k_log s0) /\ lh_n (l_lh (k_log s)) + blocks_left tot + 1 < LOGBLOCKS.

Lemma blocks_left_step tot : 0 <= tot < n -> 1 <= blocks_left tot /\ blocks_left (tot + chunk off n tot) <= blocks_left tot - 1.
Proof.
  intros Ht; unfold blocks_left; rewrite (proj2 (Z.ltb_lt tot n)) by lia.
  pose proof (Z.div_le_mono (off + tot) (off + n - 1) BSIZE ltac:(done) ltac:(lia)).
  destruct (Z.ltb_spec (tot + chunk off n tot) n); [rewrite chunk_block by lia |]; lia.
Qed.

(** Up to log_write(): the block is in a buffer, and the bytes are fetched. *)
Lemma fetch_block tot C1 s o :
  write_upto tot C1 s -> 0 <= tot < n ->
  let bn := (off + tot) / BSIZE in
  let m := chunk off n tot in
  exists b s1 s2, bmap ip bn s o = Ok (seen D C0 x bn) s1 o /\ seen D C0 x bn <> 0 /\
    bread dev (seen D C0 x bn) s1 o = Ok b s2 o /\
    either_copyin (src_at src tot) m s2 o = Ok (0, sub bytes (Z.to_nat tot) (Z.to_nat m)) s2 o /\
    tx dev pid p D C1 s1 /\ holding_block dev pid p D C1 s2 b (seen D C0 x bn) /\ k_log s2 = k_log s1 /\
    k_log s1 = k_log s /\ k_sb s2 = k_sb s /\ only_cache p s s2.
Proof.
  intros (Htx & Hw & Hit & Hsb & Hmem & Hp & Hst & Hlog) Ht bn m.
  pose proof (Z.mod_pos_bound (off + tot) BSIZE ltac:(done)) as Hmod.
  pose proof (Z.div_mod (off + tot) BSIZE ltac:(done)) as Hdiv; fold bn in Hdiv.
  assert (H0 : 0 <= bn) by (apply Z.div_pos; [lia | done]).
  assert (Hbn : bn * BSIZE < lim) by lia.
  pose proof (wrote_seen D C0 x off bytes lim C1 tot bn Hown Hw Hoff ltac:(lia) H0 Hbn) as Hseen.
  assert (Hal : allocated D C1 x bn) by (unfold allocated; rewrite Hseen; by apply Hown).
  pose proof (tx_room _ _ _ _ _ _ Htx) as Hroom.
  destruct (bmap_seen dev pid p stop D C1 ip x bn s o (tx_reading _ _ _ _ _ _ Htx) Hroom ltac:(by rewrite Hit) Hdev Hal)
    as (s1 & Hrun1 & Hr1 & Ho1).
  destruct (bread_view dev pid p stop D C1 (seen D C1 x bn) s1 o Hr1 Hroom) as (b & s2 & Hrun2 & Hh & Ho2 & _).
  assert (Ho12 : only_cache p s s2) by (by eapply only_cache_trans).
  assert (F12 : k_log s2 = k_log s1 /\ k_log s1 = k_log s /\ k_sb s2 = k_sb s)
    by (destruct Ho1 as (? & ? & ? & _ & ->), Ho2 as (? & ? & ? & _ & ->); done).
  destruct F12 as (Hlg2 & Hlg1 & Hsb2), (only_cache_frame p s s2 Ho12) as (Hit2 & Hm2 & Hc2 & Hp2).
  rewrite Hseen in *; exists b, s1, s2; split_and!; try done; [rewrite <- Hseen; apply Hal | | by eapply tx_cache].
  unfold bytes; rewrite <- Hmem, <- Hm2; eapply (copyin_from _ src n tot m s2 o pr p); try done; try (unfold m, chunk; lia).
  - apply Hh.
  - by rewrite Hp2, Hp.
  - by rewrite Hm2, Hmem.
Qed.

Lemma writei_turn_run tot C1 s o :
  write_upto tot C1 s -> 0 <= tot < n ->
  exists C2 s', writei_turn ip x n (tot, off + tot, src_at src tot) s o =
      Ok (inl (tot + chunk off n tot, off + (tot + chunk off n tot), src_at src (tot + chunk off n tot))) s' o /\
    write_upto (tot + chunk off n tot) C2 s'.
Proof.
  intros Hup Ht; destruct (fetch_block tot C1 s o Hup Ht) as (b & s1 & s2 & Hr1 & Hnz & Hr2 & Hr3 & Htx1 & Hh & Hl2 & Hl1 & Hsb2 & Ho).
  destruct Hup as (Htx & Hw & Hit & Hsb & Hmem & Hp & Hst & Hlog).
  pose proof (Z.mod_pos_bound (off + tot) BSIZE ltac:(done)) as Hmod.
  pose proof (Z.div_mod (off + tot) BSIZE ltac:(done)) as Hdiv.
  pose proof (blocks_left_step tot Ht) as Hleft; change (MAXFILE * BSIZE) with 274432 in Hmax.
  assert (Hm : 0 < chunk off n tot <= n - tot /\ chunk off n tot <= BSIZE - (off + tot) mod BSIZE) by (unfold chunk; lia).
  set (m := chunk off n tot) in *; set (bn := (off + tot) / BSIZE) in *.
  set (f := fun d => splice d (Z.to_nat ((off + tot) mod BSIZE)) (sub bytes (Z.to_nat tot) (Z.to_nat m))).
  destruct (write_block dev pid p stop D C1 s1 s2 b _ f o Htx1 Hh Hl2) as (s3 & s4 & s5 & Hr4 & Hr5 & Hr6 & Htx5 & Hfr);
    [rewrite Hl1, Hst; apply Hhome; split; [apply Z.div_le_mono; [done | lia] | lia] | rewrite Hl1; lia |].
  destruct Hfr as (Hit5 & Hsb5 & Hm5 & Hp5 & Hst5 & Hlh5), (only_cache_frame p s s2 Ho) as (Hit2 & Hm2 & _ & Hp2).
  eexists _, s5; split.
  - unfold writei_turn; rewrite (proj2 (Z.ltb_lt tot n)) by lia; cbn [negb]; fold bn.
    erewrite bind_ok by exact Hr1; rewrite (proj2 (Z.eqb_neq _ 0) Hnz), Hdev.
    erewrite bind_ok by exact Hr2; change (Z.min (n - tot) (BSIZE - (off + tot) mod BSIZE)) with m; cbv zeta.
    erewrite bind_ok by exact Hr3; cbv beta iota.
    erewrite bind_ok by exact Hr4; change (0 =? -1) with false; cbv iota.
    erewrite bind_ok by exact Hr5; erewrite bind_ok by exact Hr6.
    rewrite ret_ok, (u32_small (tot + m)), (u32_small (off + tot + m)), Z.add_assoc by lia.
    erewrite src_at_add by (exact Hsrc || lia); done.
  - split; [exact Htx5 |]; split.
    + apply wrote_chunk; try done; try lia; unfold bytes; rewrite length_src_bytes by done; lia.
    + rewrite Hit5, Hit2, Hsb5, Hsb2, Hm5, Hm2, Hp5, Hp2, Hst5, Hl2, Hl1; split_and!; try done.
      rewrite Hl2, Hl1 in Hlh5; lia.
Qed.

Lemma writei_loop k tot C1 s o :
  write_upto tot C1 s -> 0 <= tot <= n -> blocks_left tot <= Z.of_nat k ->
  exists C2 s', kloop (N.succ (N.of_nat k)) (writei_turn ip x n) (tot, off + tot, src_at src tot) s o = Ok (n, off + n) s' o /\
    write_upto n C2 s'.
Proof.
  revert tot C1 s; induction k as [| k IH]; intros tot C1 s Hs Ht Hk; rewrite kloop_succ;
    (destruct (decide (tot < n)) as [Hlt | Hge]; [destruct (blocks_left_step tot ltac:(lia)) as [H1 H2] |]).
  1: lia.
  2: { destruct (writei_turn_run tot C1 s o Hs ltac:(lia)) as (C2 & s2 & Hrun & Hs2); erewrite bind_ok by exact Hrun.
       replace (N.of_nat (S k)) with (N.succ (N.of_nat k)) by lia.
       pose proof (Z.mod_pos_bound (off + tot) BSIZE ltac:(done)).
       apply (IH _ C2 s2); [done | unfold chunk; lia | lia]. }
  all: assert (tot = n) as -> by lia; unfold writei_turn; rewrite Z.ltb_irrefl; cbn [negb]; erewrite bind_ok by apply ret_ok.
  all: cbv beta iota; rewrite ret_ok; by exists C1, s.
Qed.

(** The inode after the write *)
Definition grown : inode := if i_size x <? off + n then (x <| i_size := off + n |>)%rec else x.

Context (Hib : home_block (l_start (k_log s0)) (IBLOCK (i_inum x) (k_sb s0))).

(** Storing the inode *)
Lemma iupdate_run C1 s o :
  write_upto n C1 s ->
  let ib := IBLOCK (i_inum x) (k_sb s0) in
  exists s', (x0 ← iget_ ip; kwhen (i_size x0 <? off + n) (iset ip (fun x => (x <| i_size := off + n |>)%rec)) ;;
      iupdate ip ;; mret (i32 n)) s o = Ok n s' o /\
    tx dev pid p D (<[ib := (splice (committed D C1 ib) (dip_off (i_inum x)) (dinode_bytes grown), 1)]> C1) s' /\
    k_itable s' = upd ip (fun _ => grown) (k_itable s0) /\ k_mem s' = k_mem s0 /\ k_procs s' !! p = k_procs s0 !! p /\
    l_start (k_log s') = l_start (k_log s0).
Proof.
  intros (Htx & Hw & Hit & Hsb & Hmem & Hp & Hst & Hlog) ib.
  unfold blocks_left in Hlog; rewrite Z.ltb_irrefl in Hlog.
  erewrite bind_ok by (apply iget__ok; by rewrite Hit).
  set (s1 := (s <| k_itable ::= upd ip (fun _ => grown) |>)%rec).
  assert (Hset : kwhen (i_size x <? off + n) (iset ip (fun x => (x <| i_size := off + n |>)%rec)) s o = Ok tt s1 o).
  { unfold s1, grown; destruct (i_size x <? off + n); cbn [kwhen].
    - erewrite iset_ok by (by rewrite Hit); f_equal; destruct s; state_norm; simpl in *; f_equal.
      apply upd_const; by rewrite Hit.
    - rewrite ret_ok; f_equal; destruct s; state_norm; simpl in *; f_equal; symmetry; apply upd_id; rewrite Hit, Hip; congruence. }
  erewrite bind_ok by exact Hset.
  assert (Htx1 : tx dev pid p D C1 s1).
  { destruct Htx as [(He & Hr & Hd) ? ? ? ?]; split; try done; split_and!; try done; by apply cache_rep_itable. }
  assert (Hg : i_dev grown = dev /\ i_inum grown = i_inum x /\ i_addrs grown = i_addrs x)
    by (unfold grown; destruct (_ <? _); done); destruct Hg as (Hgd & Hgi & _).
  destruct (bread_view dev pid p stop D C1 ib s1 o (tx_reading _ _ _ _ _ _ Htx1) (tx_room _ _ _ _ _ _ Htx1)) as (b & s2 & Hr2 & Hh & Ho & _).
  assert (Hl2 : k_log s2 = k_log s1) by (destruct Ho as (? & ? & ? & _ & ->); done).
  destruct (write_block dev pid p stop D C1 s1 s2 b ib (fun d => splice d (dip_off (i_inum x)) (dinode_bytes grown)) o Htx1 Hh Hl2)
    as (s3 & s4 & s5 & Hr3 & Hr4 & Hr5 & Htx5 & Hfr);
    [change (k_log s1) with (k_log s); by rewrite Hst | change (k_log s1) with (k_log s); lia |].
  destruct Hfr as (Hit5 & _ & Hm5 & Hp5 & Hst5 & _), (only_cache_frame p s1 s2 Ho) as (Hit2 & Hm2 & _ & Hp2).
  assert (Hiu : iupdate ip s1 o = Ok tt s5 o).
  { unfold iupdate; erewrite bind_ok by (apply iget__ok; simpl; rewrite Hit; by erewrite upd_lookup_eq).
    rewrite gets_bind, Hgd, Hgi; change (k_sb s1) with (k_sb s); rewrite Hsb; fold ib.
    erewrite bind_ok by exact Hr2; erewrite bind_ok by exact Hr3; erewrite bind_ok by exact Hr4; exact Hr5. }
  erewrite bind_ok by exact Hiu; change (MAXFILE * BSIZE) with 274432 in Hmax.
  rewrite ret_ok, i32_small by lia; exists s5; split_and!; [done | done | | | | by rewrite Hst5, Hl2].
  - rewrite Hit5, Hit2; simpl; by rewrite Hit.
  - by rewrite Hm5, Hm2.
  - by rewrite Hp5, Hp2.
Qed.

End Writei.

(** The blocks of the file, up to [lim] bytes, and the block of its inode are apart, and those
    that are written are outside of the log. *)
Record writable (dev : Z) (D : gmap Z (list Z)) (C : gmap Z (list Z * Z)) (x : inode) (start ib off n lim : Z) : Prop := {
  wr_dev : i_dev x = dev;
  wr_own : own_blocks D C x lim;
  wr_home : forall bn, touched off n bn -> home_block start (seen D C x bn);
  wr_ib : home_block start ib;
  wr_apart : forall bn, 0 <= bn -> bn * BSIZE < lim -> seen D C x bn <> ib;
  wr_ind : NDIRECT * BSIZE < lim -> nth (Z.to_nat NDIRECT) (i_addrs x) 0 <> ib
}.

Section WriteRead.
Context {LK : Linker} (dev pid : Z) (p : nat) (stop : kstate -> bool) (D : gmap Z (list Z)).
#[local] Instance wr_disk : BlockDevice := crash_disk stop.
Context (C : gmap Z (list Z * Z)) (ip : nat) (x : inode) (pr : proc) (src : iosrc) (off n : Z) (s : kstate).
Let lim : Z := Z.max (i_size x) (off + n).
Let ib : Z := IBLOCK (i_inum x) (k_sb s).
Let bytes : list Z := src_bytes (p_pagetable pr) src (k_mem s) n.
Let x' : inode := grown x off n.

(** The contents after the write, byte by byte *)
Definition written (C1 : gmap Z (list Z * Z)) : Prop :=
  (forall i, 0 <= i < lim ->
     file_byte D C1 x' i = if decide (off <= i < off + n) then nth (Z.to_nat (i - off)) bytes 0 else file_byte D C x i) /\
  committed D C1 ib = splice (committed D C ib) (dip_off (i_inum x)) (dinode_bytes x') /\
  (forall m, m <> ib -> (forall bn, touched off n bn -> m <> seen D C x bn) -> committed D C1 m = committed D C m) /\
  (forall m, m <> ib -> length (committed D C1 m) = Z.to_nat BSIZE).

Lemma written_seen C1 C2 bn :
  writable dev D C x (l_start (k_log s)) ib off n lim -> 0 <= off -> 0 <= n ->
  wrote D C x off bytes lim C1 n -> 0 <= bn -> bn * BSIZE < lim ->
  (forall m, m <> ib -> committed D C2 m = committed D C1 m) -> seen D C2 x' bn = seen D C x bn.
Proof.
  intros [_ Hown _ _ _ Hi] Ho Hn Hw H0 Hbn H2.
  rewrite <- (wrote_seen D C x off bytes lim C1 n bn Hown Hw Ho ltac:(lia) H0 Hbn).
  assert (Ha : i_addrs x' = i_addrs x) by (unfold x', grown; destruct (_ <? _); done).
  unfold seen; rewrite Ha; destruct (Z.ltb_spec bn NDIRECT); [done |].
  rewrite H2; [done |]; apply Hi; change NDIRECT with 12 in *; change BSIZE with 1024 in *; lia.
Qed.

Lemma writei_contents C1 :
  writable dev D C x (l_start (k_log s)) ib off n lim -> 0 <= off -> 0 <= n -> wrote D C x off bytes lim C1 n ->
  written (<[ib := (splice (committed D C1 ib) (dip_off (i_inum x)) (dinode_bytes x'), 1)]> C1).
Proof.
  intros Hwr Ho Hn Hw; pose proof Hwr as [_ _ _ _ Hapart _]; set (C2 := <[ib := _]> C1).
  assert (H2 : forall m, m <> ib -> committed D C2 m = committed D C1 m)
    by (intros m Hm; unfold C2; by rewrite committed_insert, decide_False by congruence).
  assert (Ht : forall bn, touched off n bn -> 0 <= bn /\ bn * BSIZE < lim)
    by (intros bn [H H']; pose proof (Z.div_pos off BSIZE Ho ltac:(done)); lia).
  split_and!.
  - intros i Hi; pose proof (Z.div_mod i BSIZE ltac:(done)); pose proof (Z.mod_pos_bound i BSIZE ltac:(done)) as Hmod.
    pose proof (Z.div_pos i BSIZE ltac:(lia) ltac:(done)) as Hbn.
    unfold file_byte; rewrite (written_seen C1 C2) by (done || lia); rewrite H2 by (apply Hapart; lia).
    rewrite (proj1 (proj2 Hw) (i / BSIZE) (i mod BSIZE)) by lia.
    replace (i / BSIZE * BSIZE + i mod BSIZE) with i by lia; done.
  - unfold C2; rewrite committed_insert, decide_True by done; f_equal; apply Hw.
    intros bn Hb E; destruct (Ht bn Hb); by apply (Hapart bn).
  - intros m Hm Hno; rewrite H2 by done; by apply Hw.
  - intros m Hm; rewrite H2 by done; apply Hw.
Qed.

Lemma writei_run o :
  tx dev pid p D C s -> k_itable s !! ip = Some x -> k_procs s !! p = Some pr ->
  writable dev D C x (l_start (k_log s)) ib off n lim ->
  src_fits (p_pagetable pr) src (k_mem s) n -> 0 <= off <= i_size x -> 0 <= n -> lim <= MAXFILE * BSIZE ->
  lh_n (l_lh (k_log s)) + blocks_left off n 0 + 1 < LOGBLOCKS ->
  exists C1 s', writei ip src off n s o = Ok n s' o /\ tx dev pid p D C1 s' /\ written C1 /\
    k_itable s' = upd ip (fun _ => x') (k_itable s) /\ k_mem s' = k_mem s /\ k_procs s' !! p = k_procs s !! p /\
    l_start (k_log s') = l_start (k_log s).
Proof.
  intros Htx Hip Hpr Hwr Hsrc Hoff Hn Hmax Hroom.
  pose proof Hwr as [Hdev Hown Hhome Hib Hapart _]; unfold writei.
  pose proof Hmax as Hmax'; change (MAXFILE * BSIZE) with 274432 in Hmax'; unfold lim in Hmax'.
  erewrite bind_ok by (by apply iget__ok); rewrite (u32_small (off + n)) by lia.
  replace (i_size x <? off) with false by lia; replace (off + n <? off) with false by lia; cbn [orb].
  replace (MAXFILE * BSIZE <? off + n) with false by (change (MAXFILE * BSIZE) with 274432; lia).
  assert (Hup : write_upto dev pid p D C x pr src off n lim s 0 C s).
  { split_and!; try done; by apply wrote_nil. }
  destruct (writei_loop dev pid p stop D C ip x pr src off n lim s Hdev Hown ltac:(lia) Hn ltac:(lia) Hsrc Hip Hpr Hmax Hhome
              (Z.to_nat (n / BSIZE) + 2) 0 C s o Hup) as (C1 & s1 & Hrun & Hup1); [lia | |].
  { pose proof (span_turns off n); pose proof (Z.div_pos n BSIZE Hn ltac:(done)).
    unfold blocks_left; rewrite Z.add_0_r; destruct (_ <? _); lia. }
  destruct (iupdate_run dev pid p stop D C ip x pr src off n lim s Hdev (proj1 Hoff) Hn ltac:(lia) Hip Hmax Hib C1 s1 o Hup1)
     as (s2 & Hrun2 & Htx2 & Hit2 & Hm2 & Hp2 & Hst2).
  eexists _, s2; split_and!; [| exact Htx2 | | done | done | done | done].
  - replace (Z.to_N (n / BSIZE) + 3)%N with (N.succ (N.of_nat (Z.to_nat (n / BSIZE) + 2)))
      by (pose proof (Z.div_pos n BSIZE Hn ltac:(done)); lia).
    replace (0, off, src) with (0, off + 0, src_at src 0) by (destruct src; simpl; by rewrite !Z.add_0_r).
    erewrite bind_ok by exact Hrun; exact Hrun2.
  - exact (writei_contents C1 Hwr (proj1 Hoff) Hn (proj1 (proj2 Hup1))).
Qed.

(** C13: writei() in a transaction, on a file whose blocks are allocated up to the end of the write: it
    writes all [n] bytes, which come from user memory or from the caller, at
    [off], makes the file longer when it ends after the old size, and stores the inode;
    every other byte of the file, and every other block, keeps its contents,
    and all blocks written are in the log header and pinned in the cache, as
    the commit needs them. *)
Theorem writei_spec o :
  tx dev pid p D C s -> k_itable s !! ip = Some x -> k_procs s !! p = Some pr ->
  writable dev D C x (l_start (k_log s)) ib off n lim ->
  src_fits (p_pagetable pr) src (k_mem s) n -> 0 <= off <= i_size x -> 0 <= n -> lim <= MAXFILE * BSIZE ->
  lh_n (l_lh (k_log s)) + blocks_left off n 0 + 1 < LOGBLOCKS ->
  exists C1 s', writei ip src off n s o = Ok n s' o /\ tx dev pid p D C1 s' /\ written C1 /\
    k_itable s' = upd ip (fun _ => x') (k_itable s) /\ k_mem s' = k_mem s /\ k_procs s' !! p = k_procs s !! p /\
    l_start (k_log s') = l_start (k_log s).
Proof. apply writei_run. Qed.

Lemma grown_fields : i_addrs x' = i_addrs x /\ i_dev x' = i_dev x /\ (0 <= i_size x -> i_size x' = lim).
Proof. unfold x', grown, lim; destruct (Z.ltb_spec (i_size x) (off + n)); simpl; split_and!; done || lia. Qed.

(** The file keeps its blocks. *)
Lemma written_blocks C1 :
  writable dev D C x (l_start (k_log s)) ib off n lim -> 0 <= off -> 0 <= n -> written C1 ->
  forall bn, 0 <= bn -> bn * BSIZE < lim -> seen D C1 x' bn = seen D C x bn.
Proof.
  intros [_ (Hal & _ & Hind & Hlen) _ _ _ Hi] Ho Hn (_ & Hib & Hother & Hl) bn H0 Hbn.
  unfold seen; rewrite (proj1 grown_fields); destruct (Z.ltb_spec bn NDIRECT) as [| H12]; [done |].
  assert (Hbig : NDIRECT * BSIZE < lim) by (change NDIRECT with 12 in *; change BSIZE with 1024 in *; lia).
  rewrite Hother; [done | by apply Hi |]; intros bn' [H1 H2] E; pose proof (Z.div_pos off BSIZE Ho ltac:(done)).
  apply (Hind bn'); [lia | lia | done | done].
Qed.

Lemma written_backed C1 :
  writable dev D C x (l_start (k_log s)) ib off n lim -> 0 <= off -> 0 <= n -> 0 <= i_size x -> lim <= MAXFILE * BSIZE ->
  0 <= i_inum x -> length (i_addrs x) = 13%nat -> written C1 -> i_size x' = lim /\ backed D C1 x'.
Proof.
  intros Hwr Ho Hn Hsz Hmax Hinum Haddr Hw; pose proof (written_blocks C1 Hwr Ho Hn Hw) as Hseen.
  destruct Hwr as [_ (Hal & _ & Hind & Hlen) _ _ _ Hi], Hw as (_ & Hib & Hother & Hl).
  destruct grown_fields as (Ha & _ & Hs); specialize (Hs Hsz); split; [done |].
  unfold backed; rewrite Hs, Ha; split_and!; [lia | done | | |].
  - intros Hbig; apply (proj1 (proj2 (Hal 12 ltac:(lia) Hbig))); done.
  - intros bn H0 Hbn; rewrite Hseen by done; by apply Hal.
  - intros m; destruct (decide (m = ib)) as [-> |]; [| by apply Hl].
    rewrite Hib, length_splice; [apply Hlen |]; rewrite Hlen.
    pose proof (dip_off_bound (i_inum x) Hinum); unfold dinode_bytes; rewrite !length_app, !bytes_le_length, length_words, Ha, Haddr.
    unfold sizeof_dinode in *; lia.
Qed.

(** C10: What was written is read back, on a file whose blocks are allocated up to the end of the
    write: after writei() of [n] bytes at [off], readi() of the same range
    returns those bytes, also when the write starts and ends inside blocks, goes through
    the indirect block, or moves the end of the file, as long as it stays within the allocated blocks. *)
Theorem write_read_roundtrip o :
  tx dev pid p D C s -> k_itable s !! ip = Some x -> k_procs s !! p = Some pr ->
  writable dev D C x (l_start (k_log s)) ib off n lim ->
  src_fits (p_pagetable pr) src (k_mem s) n -> 0 <= off <= i_size x -> 0 <= n -> lim <= MAXFILE * BSIZE ->
  lh_n (l_lh (k_log s)) + blocks_left off n 0 + 1 < LOGBLOCKS -> 0 <= i_inum x -> length (i_addrs x) = 13%nat ->
  exists s1 s2, writei ip src off n s o = Ok n s1 o /\ readi ip DLocal off n s1 o = Ok (n, bytes) s2 o.
Proof.
  intros Htx Hip Hpr Hwr Hsrc Hoff Hn Hmax Hroom Hinum Haddr.
  destruct (writei_run o Htx Hip Hpr Hwr Hsrc Hoff Hn Hmax Hroom) as (C1 & s1 & Hrun & Htx1 & Hw & Hit & Hm & Hp & _).
  destruct (written_backed C1 Hwr ltac:(lia) Hn ltac:(lia) Hmax Hinum Haddr Hw) as [Hsz Hback].
  change (MAXFILE * BSIZE) with 274432 in Hmax; unfold lim in Hmax, Hsz.
  assert (Hx' : i_dev x' = dev) by (rewrite (proj1 (proj2 grown_fields)); apply Hwr).
  destruct (readi_run dev pid p stop D C1 ip x' pr DLocal off n s1 o (tx_reading _ _ _ _ _ _ Htx1) (tx_room _ _ _ _ _ _ Htx1))
    as (s2 & Hrd & _); try done; try lia; [rewrite Hit; by erewrite upd_lookup_eq | by rewrite Hp |].
  rewrite Hsz in Hrd; replace (Z.max 0 _) with n in Hrd by lia.
  exists s1, s2; split; [done |]; etransitivity; [exact Hrd |]; do 2 f_equal.
  apply list_eq; intros i; unfold file_bytes; rewrite list_lookup_fmap.
  assert (Hlb : length bytes = Z.to_nat n) by (by apply length_src_bytes).
  destruct (decide (i < Z.to_nat n)%nat) as [Hlt | Hge].
  - rewrite lookup_seqZ_lt by lia; simpl; rewrite (proj1 Hw) by (unfold lim; lia); rewrite decide_True by lia.
    replace (Z.to_nat (off + (0 + Z.of_nat i) - off)) with i by lia.
    rewrite nth_lookup; destruct (lookup_lt_is_Some_2 bytes i) as [v ->]; [lia | done].
  - rewrite lookup_seqZ_ge, lookup_ge_None_2 by lia; done.
Qed.

(** The file's blocks are outside of the log. *)
Definition file_home (start : Z) : Prop :=
  (forall bn, 0 <= bn -> bn * BSIZE < lim -> ~ in_log start (seen D C x bn)) /\
  (NDIRECT * BSIZE < lim -> ~ in_log start (nth (Z.to_nat NDIRECT) (i_addrs x) 0)).

(** The file depends on its blocks only. *)
Lemma file_byte_ext D1 C1 y i start :
  file_home start -> i_addrs y = i_addrs x -> (forall bn, 0 <= bn -> bn * BSIZE < lim -> seen D C1 y bn = seen D C x bn) ->
  (forall m, ~ in_log start m -> blk D1 m = committed D C1 m) -> 0 <= i < lim ->
  file_byte D1 ∅ y i = file_byte D C1 y i.
Proof.
  intros [Hb Hi] Hy Hseen Heq Hlim; unfold file_byte.
  pose proof (Z.div_mod i BSIZE ltac:(done)); pose proof (Z.mod_pos_bound i BSIZE ltac:(done)).
  pose proof (Z.div_pos i BSIZE ltac:(lia) ltac:(done)) as Hpos; set (bn := i / BSIZE) in *.
  assert (Hbn : bn * BSIZE < lim) by lia.
  assert (Hc : forall m, ~ in_log start m -> committed D1 ∅ m = committed D C1 m).
  { intros m Hm; rewrite <- Heq by done; unfold committed; by rewrite lookup_empty. }
  assert (Hs : seen D1 ∅ y bn = seen D C1 y bn).
  { unfold seen; destruct (Z.ltb_spec bn NDIRECT); [done |]; rewrite Hc; [done |]; rewrite Hy; apply Hi.
    change NDIRECT with 12 in *; change BSIZE with 1024 in *; lia. }
  rewrite Hs, Hc; [done |]; rewrite Hseen by done; by apply Hb.
Qed.

Lemma tx_committing C1 s1 :
  tx dev pid p D C1 s1 -> header_valid (l_start (k_log s1)) D -> hdr_n (blk D (l_start (k_log s1))) = 0 ->
  committing dev pid p C1 s1.
Proof. intros [(He & Hr & Hd) Hl Hh Hp _] Hv H0; rewrite <- Hd in Hv, H0; split; try done; apply Hh. Qed.

End WriteRead.

(** ** Power failure *)

Section Crash.
Context {LK : Linker} (dev pid : Z) (p : nat) (ip : nat) (x : inode) (pr : proc) (src : iosrc) (off n : Z) (s : kstate).
Let D : gmap Z (list Z) := k_disk s.
Let start : Z := l_start (k_log s).
Let lim : Z := Z.max (i_size x) (off + n).

(** The inode as ilock() loads it from the dinode that disk [D'] has. *)
Definition loaded (D' : gmap Z (list Z)) : inode :=
  let d := blk D' (IBLOCK (i_inum x) (k_sb s)) in
  let o := dip_off (i_inum x) in
  (x <| i_type := dip_type d o |> <| i_major := dip_major d o |> <| i_minor := dip_minor d o |> <| i_nlink := dip_nlink d o |>
     <| i_size := dip_size d o |> <| i_addrs := dip_addrs d o |>)%rec.

(** The file on disk [D'], found through its dinode there, has inode [y], so its
    size, and bytes [f]. *)
Definition file_on_disk (D' : gmap Z (list Z)) (y : inode) (f : Z -> Z) : Prop :=
  loaded D' = y /\ forall i, 0 <= i < i_size (loaded D') -> file_byte D' ∅ (loaded D') i = f i.

(** It has the new size and the bytes of the write, or is what it was before. *)
Definition has_new (D' : gmap Z (list Z)) : Prop :=
  file_on_disk D' (grown x off n) (fun i =>
    if decide (off <= i < off + n) then nth (Z.to_nat (i - off)) (src_bytes (p_pagetable pr) src (k_mem s) n) 0
    else file_byte D ∅ x i).
Definition has_old (D' : gmap Z (list Z)) : Prop := file_on_disk D' x (file_byte D ∅ x).

Lemma loaded_dinode D' y :
  dinode_at y (blk D' (IBLOCK (i_inum x) (k_sb s))) (dip_off (i_inum x)) -> i_dev y = i_dev x -> i_inum y = i_inum x ->
  i_ref y = i_ref x -> i_lock y = i_lock x -> i_valid y = i_valid x -> loaded D' = y.
Proof.
  intros (H1 & H2 & H3 & H4 & H5 & H6) ? ? ? ? ?; unfold loaded; rewrite H1, H2, H3, H4, H5, H6.
  destruct x, y; simpl in *; by subst.
Qed.

Lemma inode_ok_grown : inode_ok x -> lim <= MAXFILE * BSIZE -> 0 <= i_size x -> inode_ok (grown x off n).
Proof.
  intros (H1 & H2 & H3 & H4 & H5 & H6 & H7) Hmax Hs; change (MAXFILE * BSIZE) with 274432 in Hmax; unfold lim in Hmax.
  unfold inode_ok, grown, uint_ok in *; destruct (Z.ltb_spec (i_size x) (off + n)); simpl; split_and!; done || lia.
Qed.

(** A disk whose home blocks are those of the transaction *)
Lemma new_on_disk D' C1 :
  writable dev D ∅ x start (IBLOCK (i_inum x) (k_sb s)) off n lim -> file_home D ∅ x off n start ->
  written D ∅ x pr src off n s C1 -> 0 <= off <= i_size x -> 0 <= n -> lim <= MAXFILE * BSIZE -> 0 <= i_inum x -> inode_ok x ->
  (forall m, ~ in_log start m -> blk D' m = committed D C1 m) -> has_new D'.
Proof.
  intros Hwr Hfh Hw Hoff Hn Hmax Hinum Hok HD; pose proof Hwr as [_ (_ & _ & _ & Hlen) _ [_ Hib] _ _].
  pose proof (written_blocks dev D ∅ x pr src off n s C1 Hwr ltac:(lia) Hn Hw) as Hblocks.
  pose proof (inode_ok_grown Hok Hmax ltac:(lia)) as Hokg.
  assert (HL : loaded D' = grown x off n).
  { apply loaded_dinode; try (unfold grown; destruct (_ <? _); done).
    rewrite HD by done; rewrite (proj1 (proj2 Hw)); apply dinode_roundtrip; [apply Hlen | done | done]. }
  unfold has_new, file_on_disk; rewrite HL; split; [done |]; intros i Hi.
  destruct (grown_fields x off n s) as (Ha & _ & Hsz); rewrite Hsz in Hi by lia.
  rewrite (file_byte_ext D ∅ x off n s D' C1 (grown x off n) i start Hfh) by done; by apply Hw.
Qed.

Lemma old_on_disk D' :
  writable dev D ∅ x start (IBLOCK (i_inum x) (k_sb s)) off n lim -> file_home D ∅ x off n start -> loaded D = x ->
  (forall m, ~ in_log start m -> blk D' m = blk D m) -> has_old D'.
Proof.
  intros [_ _ _ [_ Hib] _ _] Hfh HL HD; assert (HL' : loaded D' = x) by (etransitivity; [| exact HL]; unfold loaded; by rewrite HD).
  unfold has_old, file_on_disk; rewrite HL'; split; [done |]; intros i Hi.
  apply (file_byte_ext D ∅ x off n s D' ∅ x i start Hfh); try done; unfold lim; lia.
Qed.

(** C2: A write survives a power failure as a whole or not at all, size included.
    The file's blocks are allocated up to the end of the write, and its dinode
    on disk is the inode in memory.  After writei() in a
    transaction, the commit either returns, or the power fails at one of
    its writes; then, however often recovery is cut short as well, the first
    recovery that completes leaves one of two files, as ilock() and readi() find them through the dinode on
    the recovered disk: the old inode with the old bytes, or the inode with the new size
    and all bytes of the write in their place.  A commit that returns leaves the
    second. *)
Theorem write_crash_atomic stop o o' :
  tx dev pid p D ∅ s -> k_itable s !! ip = Some x -> k_procs s !! p = Some pr ->
  writable dev D ∅ x start (IBLOCK (i_inum x) (k_sb s)) off n lim -> file_home D ∅ x off n start ->
  src_fits (p_pagetable pr) src (k_mem s) n -> 0 <= off <= i_size x -> 0 <= n -> lim <= MAXFILE * BSIZE ->
  lh_n (l_lh (k_log s)) + blocks_left off n 0 + 1 < LOGBLOCKS -> header_valid start D -> hdr_n (blk D start) = 0 ->
  0 <= i_inum x -> inode_ok x -> loaded D = x ->
  exists s1, @writei LK (crash_disk stop) ip src off n s o = Ok n s1 o /\
  match @commit (crash_disk stop) s1 o' with
  | Ok tt s2 _ => has_new (k_disk s2)
  | Blocked s2 => (exists t, stop t = true) /\
      forall D' r o'', interrupted dev start (k_disk s2) D' -> booted dev start D' r ->
      exists r', @recover_from_log (crash_disk (fun _ => false)) r o'' = Ok tt r' o'' /\
        (has_old (k_disk r') \/ has_new (k_disk r'))
  | _ => False
  end.
Proof.
  intros Htx Hip Hpr Hwr Hfh Hsrc Hoff Hn Hmax Hroom Hv H0 Hinum Hok HL.
  destruct (writei_run dev pid p stop D ∅ ip x pr src off n s o Htx Hip Hpr Hwr Hsrc Hoff Hn Hmax Hroom)
    as (C1 & s1 & Hrun & Htx1 & Hw & _ & _ & _ & Hst); exists s1; split; [exact Hrun |].
  assert (Hd1 : k_disk s1 = D) by apply (tx_reading _ _ _ _ _ _ Htx1).
  assert (Hnew : forall D', (forall m, ~ in_log start m -> blk D' m = committed (k_disk s1) C1 m) -> has_new D')
    by (intros D' HD; rewrite Hd1 in HD; by apply (new_on_disk D' C1)).
  assert (Hold : forall D', (forall m, ~ in_log start m -> blk D' m = blk (k_disk s1) m) -> has_old D')
    by (intros D' HD; rewrite Hd1 in HD; by apply (old_on_disk D')).
  assert (Hcom : committing dev pid p C1 s1) by (apply (tx_committing dev pid p D); rewrite ?Hst; done).
  pose proof (commit_run dev pid p C1 s1 stop o' Hcom) as Hc; cbv zeta in Hc; rewrite Hst in Hc; fold start in Hc.
  destruct (@commit (crash_disk stop) s1 o') as [[] s2 o2 | | s2 | |]; try done.
  - by apply Hnew, Hc.
  - split; [apply Hc |]; intros D' r o'' Hint Hb; destruct (proj2 Hc D' r o'' Hint Hb) as (r' & Hrec & [Ho | Hn']); exists r'; split; auto.
Qed.

End Crash.

(** ** A write that makes a file longer *)

Definition demo_writing : kstate :=
  (demo_commit <| k_itable := [demo_inode] |> <| k_log ::= fun l => l <| l_outstanding := 1 |> |>)%rec.
Definition demo_pins : gmap Z (list Z * Z) := {[ 50 := (demo_data, 1) ]}.
Definition demo_src : iosrc := SLocal (replicate 600 5).

Lemma demo_tx : tx 1 0 0 ∅ demo_pins demo_writing.
Proof.
  split.
  - unfold reading; split; [apply demo_env; vm_compute; reflexivity |]; split; [| reflexivity].
    exact (cache_rep_log 1 0 (demo_commit <| k_itable := [demo_inode] |>)%rec _ ∅ _
             (cache_rep_itable 1 0 demo_commit [demo_inode] ∅ _ (com_rep _ _ _ _ _ demo_committing))).
  - pose proof (com_log _ _ _ _ _ demo_committing) as [H1 H2 H3 H4 H5]; split; [exact H1 | exact H2 | exact H3 | exact H4 | exact H5].
  - split; [vm_compute; split; discriminate |]; split; [reflexivity | exact (com_nodup _ _ _ _ _ demo_committing)].
  - exact demo_pinned.
  - vm_compute; discriminate.
Qed.

Lemma demo_block D C bn : 0 <= bn -> bn * BSIZE < 1600 -> bn = 0 /\ seen D C demo_inode bn = 50 \/ bn = 1 /\ seen D C demo_inode bn = 60.
Proof.
  intros H0 Hlt; change BSIZE with 1024 in Hlt; assert (bn = 0 \/ bn = 1) as [-> | ->] by lia; [left | right]; split; reflexivity.
Qed.

Lemma demo_writable D C :
  (forall n, length (committed D C n) = Z.to_nat BSIZE) -> writable 1 D C demo_inode 2 0 1000 600 1600.
Proof.
  intros Hlen.
  assert (Hh : forall m, m = 50 \/ m = 60 \/ m = 0 -> home_block 2 m)
    by (intros m Hm; split; [lia |]; unfold in_log; change LOGBLOCKS with 30; lia).
  split; [reflexivity | split_and! | | by apply Hh; auto | | intros E; vm_compute in E; discriminate].
  - intros bn H0 Hlt; destruct (demo_block D C bn H0 Hlt) as [[-> E] | [-> E]]; unfold allocated; rewrite E;
      (split; [change MAXFILE with 268; lia |]; split; [change NDIRECT with 12; lia | done]).
  - intros bn bn' H0 Hlt H0' Hlt'; destruct (demo_block D C bn H0 Hlt) as [[-> ->] | [-> ->]],
      (demo_block D C bn' H0' Hlt') as [[-> ->] | [-> ->]]; done.
  - intros bn _ _ E; vm_compute in E; discriminate.
  - exact Hlen.
  - intros bn [H1 H2]; change (1000 / BSIZE) with 0 in H1; apply Hh; destruct (demo_block D C bn H1 ltac:(lia)) as [[_ ->] | [_ ->]]; auto.
  - intros bn H0 Hlt; destruct (demo_block D C bn H0 Hlt) as [[_ ->] | [_ ->]]; done.
Qed.

Lemma demo_len n : length (committed ∅ demo_pins n) = Z.to_nat BSIZE.
Proof.
  unfold committed; destruct (demo_pins !! n) as [[d k] |] eqn:E; [| unfold blk; rewrite lookup_empty; reflexivity].
  unfold demo_pins in E; apply lookup_singleton_Some in E as [_ [= <- _]]; reflexivity.
Qed.

Lemma write_read_roundtrip_witness :
  exists s1 s2, @writei demo_linker (crash_disk (fun _ => true)) 0 demo_src 1000 600 demo_writing [] = Ok 600 s1 [] /\
    @readi demo_linker (crash_disk (fun _ => true)) 0 DLocal 1000 600 s1 [] = Ok (600, replicate 600 5) s2 [].
Proof.
  assert (H1 : exists pr, k_procs demo_writing !! 0%nat = Some pr) by (eexists; reflexivity); destruct H1 as [pr Hpr].
  assert (H2 : src_fits (p_pagetable pr) demo_src (k_mem demo_writing) 600) by (vm_compute; discriminate).
  exact (@write_read_roundtrip demo_linker 1 0 0 (fun _ => true) ∅ demo_pins 0 demo_inode pr demo_src 1000 600 demo_writing []
    demo_tx eq_refl Hpr (demo_writable ∅ demo_pins demo_len) H2 ltac:(vm_compute; split; discriminate) ltac:(lia) ltac:(vm_compute; discriminate)
    ltac:(vm_compute; reflexivity) ltac:(vm_compute; discriminate) eq_refl).
Defined.

Lemma writei_spec_witness :
  exists C1 s1, @writei demo_linker (crash_disk (fun _ => true)) 0 demo_src 1000 600 demo_writing [] = Ok 600 s1 [] /\
    file_byte ∅ C1 (grown demo_inode 1000 600) 999 = 7 /\ file_byte ∅ C1 (grown demo_inode 1000 600) 1599 = 5.
Proof.
  assert (H1 : exists pr, k_procs demo_writing !! 0%nat = Some pr) by (eexists; reflexivity); destruct H1 as [pr Hpr].
  assert (H2 : src_fits (p_pagetable pr) demo_src (k_mem demo_writing) 600) by (vm_compute; discriminate).
  destruct (@writei_spec demo_linker 1 0 0 (fun _ => true) ∅ demo_pins 0 demo_inode pr demo_src 1000 600 demo_writing []
    demo_tx eq_refl Hpr (demo_writable ∅ demo_pins demo_len) H2 ltac:(vm_compute; split; discriminate) ltac:(lia) ltac:(vm_compute; discriminate)
    ltac:(vm_compute; reflexivity)) as (C1 & s1 & Hrun & _ & (Hb & _) & _).
  exists C1, s1; split; [exact Hrun |]; split.
  - etransitivity; [exact (Hb 999 ltac:(vm_compute; split; [discriminate | reflexivity])) |]; vm_compute; reflexivity.
  - etransitivity; [exact (Hb 1599 ltac:(vm_compute; split; [discriminate | reflexivity])) |]; vm_compute; reflexivity.
Defined.

(** The same write as the only one of its transaction, on a disk that has the
    dinode *)
Definition demo_disk : gmap Z (list Z) :=
  {[ 0 := splice (replicate 1024 0) (dip_off 7) (dinode_bytes demo_inode); 50 := demo_data; 60 := replicate 1024 9 ]}.
Definition demo_fresh : kstate :=
  (demo_boot <| k_itable := [demo_inode] |> <| k_disk := demo_disk |>
     <| k_log := mklogstate 2 1 0 1 (mklogheader 0 (replicate 30 0)) |>)%rec.

Lemma demo_fresh_tx : tx 1 0 0 demo_disk ∅ demo_fresh.
Proof.
  split.
  - unfold reading; split; [apply demo_env; vm_compute; reflexivity |]; split; [| reflexivity].
    apply (rep_boot 1 0 demo_fresh (rev (seq 0 NBUF))).
    + split; [reflexivity |]; split; [symmetry; apply Permutation_rev |]; split; vm_compute; repeat split.
    + apply (bool_decide_unpack _); vm_compute; reflexivity.
  - split; [reflexivity | vm_compute; split; [discriminate | reflexivity] | vm_compute; split; discriminate | reflexivity |].
    intros i Hi; change (entries (k_log demo_fresh)) with 0%nat in Hi; lia.
  - split; [vm_compute; split; discriminate |]; split; [reflexivity | constructor].
  - split; [vm_compute; lia |]; split; [done |]; intros m; rewrite lookup_empty; split; [by intros [? [=]] |].
    intros (_ & i & Hi & _); change (entries (k_log demo_fresh)) with 0%nat in Hi; lia.
  - vm_compute; discriminate.
Qed.

Lemma demo_fresh_len n : length (committed demo_disk ∅ n) = Z.to_nat BSIZE.
Proof.
  unfold committed; rewrite lookup_empty; unfold blk, demo_disk; rewrite !lookup_insert, lookup_singleton.
  repeat case_decide; vm_compute; reflexivity.
Qed.

Lemma demo_fresh_home : file_home demo_disk ∅ demo_inode 1000 600 2.
Proof.
  split; [| intros E; vm_compute in E; discriminate].
  intros bn H0 Hlt; unfold in_log; change LOGBLOCKS with 30; destruct (demo_block demo_disk ∅ bn H0 Hlt) as [[_ ->] | [_ ->]]; lia.
Qed.

Lemma demo_fresh_valid : header_valid 2 demo_disk.
Proof. split; [reflexivity | vm_compute; split; discriminate |]; intros i Hi; change (Z.of_nat i < 0) in Hi; lia. Qed.

Lemma demo_inode_ok : inode_ok demo_inode.
Proof. unfold inode_ok, short_ok, uint_ok, demo_inode, T_FILE; cbn; split_and!; try lia; repeat constructor; lia. Qed.

Lemma write_crash_atomic_witness :
  match @writei demo_linker (crash_disk (fun _ => false)) 0 demo_src 1000 600 demo_fresh [] with
  | Ok _ s1 _ =>
      match @commit (crash_disk (fun _ => false)) s1 [] with
      | Ok _ s2 _ => i_size (loaded demo_inode demo_fresh (k_disk s2)) = 1600 /\
          file_byte (k_disk s2) ∅ (loaded demo_inode demo_fresh (k_disk s2)) 1599 = 5 /\
          file_byte (k_disk s2) ∅ (loaded demo_inode demo_fresh (k_disk s2)) 999 = 7
      | _ => False
      end
  | _ => False
  end.
Proof.
  assert (H1 : exists pr, k_procs demo_fresh !! 0%nat = Some pr) by (eexists; reflexivity); destruct H1 as [pr Hpr].
  assert (H2 : src_fits (p_pagetable pr) demo_src (k_mem demo_fresh) 600) by (vm_compute; discriminate).
  destruct (@write_crash_atomic demo_linker 1 0 0 0 demo_inode pr demo_src 1000 600 demo_fresh (fun _ => false) [] []
    demo_fresh_tx eq_refl Hpr (demo_writable demo_disk ∅ demo_fresh_len) demo_fresh_home H2 ltac:(vm_compute; split; discriminate) ltac:(lia)
    ltac:(vm_compute; discriminate) ltac:(vm_compute; reflexivity) demo_fresh_valid ltac:(vm_compute; reflexivity)
    ltac:(vm_compute; discriminate) demo_inode_ok ltac:(vm_compute; reflexivity)) as (s1 & Hrun & Hc).
  rewrite Hrun; destruct (@commit (crash_disk (fun _ => false)) s1 []) as [[] s2 o2 | | s2 | |] eqn:E; try exact Hc.
  - destruct Hc as [HL Hb]; rewrite HL in *; split; [reflexivity |]; split.
    + etransitivity; [exact (Hb 1599 ltac:(vm_compute; split; [discriminate | reflexivity])) |]; vm_compute; reflexivity.
    + etransitivity; [exact (Hb 999 ltac:(vm_compute; split; [discriminate | reflexivity])) |]; vm_compute; reflexivity.
  - destruct Hc as [[t Ht] _]; discriminate Ht.
Defined.
