(* ===== verification/MkfsSpec.v ===== *)
(** The image mkfs builds holds the files: what iappend() has appended to an inode
    is what a reader of the on-disk format finds there.

    [rep] ties an on-disk inode to the bytes of its file and to the blocks that
    hold them; the proofs are for a little-endian host. *)
From stdpp Require Import base list strings.
From Stdlib Require Import ZArith Lia ZifyBool Ascii.
From S2P Require Import Prelude Fcntl Memory KPrintf State Monad Log LogSpec Fs FsSpec Mkfs.

Local Open Scope Z_scope.
Local Open Scope record_scope.

(** ** Running the builder *)

Lemma mk_bind {A B} (m : MK A) (f : A -> MK B) st a st' : m st = MOk a st' -> (m ≫= f) st = f a st'.
Proof. intros E; unfold mbind, MK_bind; by rewrite E. Qed.

Lemma rsect_run st sec buf :
  m_faults st = [] -> m_img st !! Z.to_nat sec = Some buf -> rsect sec st = MOk buf st.
Proof.
  intros Hf Hb; unfold rsect, mbind, MK_bind, host; rewrite Hf; simpl; rewrite Hf; simpl.
  unfold mget_; simpl; by rewrite Hb.
Qed.

Lemma wsect_run st sec buf :
  m_faults st = [] -> (Z.to_nat sec < length (m_img st))%nat ->
  wsect sec buf st = MOk tt (st <| m_img ::= <[Z.to_nat sec := buf]> |>).
Proof.
  intros Hf Hs; assert (E : write_sector (Z.to_nat sec) buf (m_img st) = <[Z.to_nat sec := buf]> (m_img st))
    by (unfold write_sector; by rewrite (proj2 (Nat.ltb_lt _ _) Hs)).
  unfold wsect, mbind, MK_bind, host; rewrite Hf; cbn -[write_sector]; rewrite Hf; cbn -[write_sector].
  unfold mmod; cbn -[write_sector]; unfold set_m_img; by rewrite E.
Qed.

Lemma next_block_run st :
  next_block st = MOk (m_freeblock st) (st <| m_freeblock ::= fun b => u32 (b + 1) |>).
Proof. done. Qed.

Lemma nmeta_val : nmeta = 47.
Proof. reflexivity. Qed.

(** Arithmetic with the sizes of the layout *)
Ltac sizes := rewrite ?nmeta_val in *; unfold FSSIZE, BSIZE in *; lia.

(** Words of a little-endian host *)
Lemma xint_small v : uint_ok v -> xint false v = v.
Proof. apply uint_roundtrip. Qed.

Lemma get32_put32 d o v : (o + 4 <= length d)%nat -> uint_ok v -> get32 (put32 o v d) o = v.
Proof.
  intros Ho Hv; unfold get32, put32; rewrite <- (Nat.add_0_r o) at 2.
  rewrite splice_inside by (rewrite bytes_le_length; lia).
  change (sub (bytes_le 4 v) 0 4) with (bytes_le 4 v); by apply uint_roundtrip.
Qed.

Lemma get32_put32_ne d o o' v : (o + 4 <= length d)%nat -> (o' + 4 <= o \/ o + 4 <= o')%nat ->
  get32 (put32 o v d) o' = get32 d o'.
Proof. intros Ho Hd; unfold get32, put32; rewrite splice_outside; rewrite ?bytes_le_length; done || lia. Qed.

(** ** Blocks of a file *)

(** A block with the bytes [l] first *)
Definition pad (l : list Z) : list Z := l ++ zeros (1024 - length l).

(** [bl] are the blocks of the file with contents [c] in order, [ind] is its indirect
    block; [din] is the inode without its size. *)
Record rep (img : list (list Z)) (din c bl : list Z) (ind : Z) : Prop := {
  rp_len : length din = sizeof_dinode;
  rp_max : (length bl <= 268)%nat;
  rp_direct : forall i, (i < 12)%nat -> get32 din (12 + 4 * i) = nth i bl 0;
  rp_ind : get32 din 60 = ind;
  rp_ind0 : (length bl <= 12)%nat -> ind = 0;
  rp_indir : (12 < length bl)%nat -> exists sec, img !! Z.to_nat ind = Some sec /\
    length sec = Z.to_nat BSIZE /\ forall j, (j < 256)%nat -> get32 sec (4 * j) = nth (12 + j) bl 0;
  rp_data : forall i b, bl !! i = Some b -> exists sec, img !! Z.to_nat b = Some sec /\
    length sec = Z.to_nat BSIZE /\ sec = pad (sub c (1024 * i) 1024);
}.

Definition owned (bl : list Z) (ind : Z) : list Z :=
  bl ++ if (12 <? length bl)%nat then [ind] else [].

(** A number of blocks, indirect one included, for [n] blocks of data *)
Definition with_ind (n : nat) : Z := Z.of_nat n + (if (12 <? n)%nat then 1 else 0).

Lemma length_owned bl ind : Z.of_nat (length (owned bl ind)) = with_ind (length bl).
Proof. unfold owned, with_ind; rewrite length_app; destruct (12 <? length bl)%nat; simpl; lia. Qed.

Lemma owned_ind bl ind : (12 < length bl)%nat -> ind ∈ owned bl ind.
Proof. intros H; unfold owned; rewrite (proj2 (Nat.ltb_lt _ _) H); apply elem_of_app; right; left. Qed.

Lemma rep_frame img img' din c bl ind :
  rep img din c bl ind -> (forall b, b ∈ owned bl ind -> img' !! Z.to_nat b = img !! Z.to_nat b) ->
  rep img' din c bl ind.
Proof.
  intros [H1 H2 H3 H4 H5 H6 H7] Hf; split; try done.
  - intros Hl; destruct (H6 Hl) as (sec & ? & ?); exists sec; rewrite Hf; [done | by apply owned_ind].
  - intros i b Hb; destruct (H7 i b Hb) as (sec & ? & ?); exists sec; rewrite Hf; [done |].
    apply elem_of_app; left; by eapply list_elem_of_lookup_2.
Qed.

(** The image between two steps: no call of the host fails, and the blocks from
    [m_freeblock] on are still zero. *)
Record img_ok (st : mkst) : Prop := {
  io_faults : m_faults st = [];
  io_sb : m_sb st = the_sb false;
  io_len : length (m_img st) = Z.to_nat FSSIZE;
  io_sec : Forall (fun s => length s = Z.to_nat BSIZE) (m_img st);
  io_fb : nmeta <= m_freeblock st <= FSSIZE;
  io_zero : forall b, m_freeblock st <= b < FSSIZE -> m_img st !! Z.to_nat b = Some zero_sector;
}.

Lemma io_sector st b : img_ok st -> 0 <= b < FSSIZE -> exists sec, m_img st !! Z.to_nat b = Some sec /\
  length sec = Z.to_nat BSIZE.
Proof.
  intros [_ _ Hl Hs _ _] Hb; destruct (lookup_lt_is_Some_2 (m_img st) (Z.to_nat b)) as [sec E]; [lia |].
  exists sec; split; [done |]; exact (Forall_lookup_1 _ _ _ _ Hs E).
Qed.

(** A write to a block that is in use *)
Lemma wsect_ok st b buf :
  img_ok st -> 0 <= b < m_freeblock st -> length buf = Z.to_nat BSIZE ->
  exists st', wsect b buf st = MOk tt st' /\ img_ok st' /\
    st' = st <| m_img ::= <[Z.to_nat b := buf]> |>.
Proof.
  intros Hok Hb Hbuf; pose proof Hok as [Hf Hsb Hl Hs Hfb Hz].
  eexists; split; [apply wsect_run; [done | lia] |]; split; [| done].
  split; simpl; try done.
  - by rewrite length_insert.
  - by apply Forall_insert.
  - intros b' Hb'; rewrite list_lookup_insert_ne by lia; by apply Hz.
Qed.

Lemma next_block_ok st :
  img_ok st -> m_freeblock st < FSSIZE ->
  exists st', next_block st = MOk (m_freeblock st) st' /\ img_ok st' /\
    m_freeblock st' = m_freeblock st + 1 /\ m_img st' = m_img st /\
    m_freeinode st' = m_freeinode st /\ m_sizes st' = m_sizes st.
Proof.
  intros [Hf Hsb Hl Hs Hfb Hz] Hb; rewrite next_block_run.
  assert (E : u32 (m_freeblock st + 1) = m_freeblock st + 1)
    by (apply u32_small; sizes).
  eexists; split; [done |]; split; [| done].
  split; simpl; try done; rewrite E; [lia |]; intros; apply Hz; lia.
Qed.

(** The blocks of a file are distinct and in use. *)
Definition own_ok (fb : Z) (bl : list Z) (ind : Z) : Prop :=
  NoDup (owned bl ind) /\ Forall (fun b => nmeta <= b < fb) (owned bl ind).

(** What a step does to the image: it may use new blocks, and it writes only to the
    blocks [own]. *)
Definition grown (st st' : mkst) (own : list Z) : Prop :=
  img_ok st' /\ m_freeblock st <= m_freeblock st' /\
  m_freeinode st' = m_freeinode st /\ m_sizes st' = m_sizes st /\
  forall k, (forall b, b ∈ own -> Z.to_nat b <> k) -> m_img st' !! k = m_img st !! k.

Lemma own_nth fb bl ind k b : own_ok fb bl ind -> bl !! k = Some b -> nmeta <= b < fb.
Proof.
  intros [_ Ho] Hb; rewrite Forall_forall in Ho; apply Ho, elem_of_app; left; by eapply list_elem_of_lookup_2.
Qed.

Lemma nth_lookup_0 (l : list Z) k b : l !! k = Some b -> nth k l 0 = b.
Proof. intros Hb; by rewrite nth_lookup, Hb. Qed.

Lemma nth_ge_0 (l : list Z) k : (length l <= k)%nat -> nth k l 0 = 0.
Proof. apply nth_overflow. Qed.

(** [nth] of a list with one more element *)
Lemma nth_snoc (l : list Z) x k : nth k (l ++ [x]) 0 = if decide (k = length l) then x else nth k l 0.
Proof.
  case_decide as Hk; [subst; by rewrite nth_middle |].
  destruct (decide (k < length l)%nat); [by rewrite app_nth1 |].
  rewrite !nth_overflow; [done | lia | rewrite length_app; simpl; lia].
Qed.

Lemma sub_past (c : list Z) o n : (length c <= o)%nat -> sub c o n = [].
Proof. intros; unfold sub; by rewrite drop_ge, take_nil by lia. Qed.

(** A file with one more block, which is still zero *)
Lemma rep_data_snoc (img : list (list Z)) (c bl : list Z) x :
  (length c <= 1024 * length bl)%nat -> img !! Z.to_nat x = Some zero_sector ->
  (forall i b, bl !! i = Some b -> exists sec, img !! Z.to_nat b = Some sec /\
    length sec = Z.to_nat BSIZE /\ sec = pad (sub c (1024 * i) 1024)) ->
  forall i b, (bl ++ [x]) !! i = Some b -> exists sec, img !! Z.to_nat b = Some sec /\
    length sec = Z.to_nat BSIZE /\ sec = pad (sub c (1024 * i) 1024).
Proof.
  intros Hc Hx Hd i b Hi; apply lookup_snoc_Some in Hi as [[_ Hi] | [-> ->]]; [by apply Hd |].
  exists zero_sector; split; [done |]; split; [apply length_replicate |].
  by rewrite sub_past by lia.
Qed.

Lemma owned_snoc fb bl ind x ind' b :
  fb <= x -> ind' = ind /\ length bl <> 12%nat \/ fb <= ind' ->
  b ∈ owned (bl ++ [x]) ind' -> b ∈ owned bl ind \/ fb <= b.
Proof.
  intros Hx Hi; unfold owned; rewrite length_app; simpl.
  intros [[Hb | ->%list_elem_of_singleton]%elem_of_app | Hb]%elem_of_app.
  - left; apply elem_of_app; by left.
  - by right.
  - destruct (Nat.ltb_spec 12 (length bl + 1)); [| by apply elem_of_nil in Hb].
    apply list_elem_of_singleton in Hb; subst b; destruct Hi as [[-> Hl] | Hi]; [left | by right].
    rewrite (proj2 (Nat.ltb_lt 12 (length bl))) by lia; apply elem_of_app; right; left.
Qed.

Lemma own_snoc fb bl ind x ind' :
  own_ok fb bl ind -> fb <= x -> nmeta <= fb ->
  (length bl <> 12%nat /\ ind' = ind \/ (length bl = 12%nat /\ fb <= ind' < x)) ->
  own_ok (x + 1) (bl ++ [x]) ind'.
Proof.
  intros [Hnd Hin] Hx Hfb Hi; unfold own_ok, owned in *.
  assert (Hlt : forall b, b ∈ owned bl ind -> nmeta <= b < fb) by (by rewrite Forall_forall in Hin).
  unfold owned in Hlt; rewrite length_app; simpl; destruct Hi as [[Hl ->] | [Hl Hi]].
  - replace (12 <? length bl + 1)%nat with (12 <? length bl)%nat
      by (destruct (Nat.ltb_spec 12 (length bl)), (Nat.ltb_spec 12 (length bl + 1)); lia).
    set (t := if (12 <? length bl)%nat then [ind] else []) in *.
    assert (Hp : (bl ++ [x]) ++ t ≡ₚ x :: bl ++ t) by solve_Permutation.
    rewrite Hp; split.
    + apply NoDup_cons; split; [intros Hb%Hlt; lia | done].
    + apply Forall_cons; split; [lia |]; eapply Forall_impl; [exact Hin |]; simpl; lia.
  - rewrite Hl in *; simpl in *; rewrite app_nil_r in *.
    assert (Hp : (bl ++ [x]) ++ [ind'] ≡ₚ x :: ind' :: bl) by solve_Permutation.
    rewrite Hp; split.
    + rewrite !NoDup_cons; split_and!; [| intros Hb%Hlt; lia | done].
      intros [-> | Hb%Hlt]%elem_of_cons; lia.
    + rewrite !Forall_cons; split_and!; [lia.. |]; eapply Forall_impl; [exact Hin |]; simpl; lia.
Qed.

Lemma hget_le d o : hget false 4 d o = get32 d o.
Proof. done. Qed.
Lemma hput_le d o v : hput false 4 o v d = put32 o v d.
Proof. done. Qed.

(** file_block() has found or made block [k] of the file: [bl'], [ind'] and [din'] are
    then its blocks and its inode. *)
Definition block_found (st st' : mkst) (din din' c bl bl' : list Z) (ind ind' : Z) (k : nat) (x : Z) : Prop :=
  grown st st' (owned bl' ind') /\ rep (m_img st') din' c bl' ind' /\
  own_ok (m_freeblock st') bl' ind' /\ bl' !! k = Some x /\ length bl' = S k /\
  m_freeblock st' = m_freeblock st + with_ind (S k) - with_ind (length bl) /\
  sub din' 0 12 = sub din 0 12 /\
  forall b, b ∈ owned bl' ind' -> b ∈ owned bl ind \/ m_freeblock st <= b.

Lemma grown_refl st own : img_ok st -> grown st st own.
Proof. intros; split_and!; try done; lia. Qed.

Lemma found_old st din c bl ind k :
  img_ok st -> rep (m_img st) din c bl ind -> own_ok (m_freeblock st) bl ind -> length bl = S k ->
  block_found st st din din c bl bl ind ind k (nth k bl 0).
Proof.
  intros Hok Hr Ho Hl; destruct (lookup_lt_is_Some_2 bl k) as [b Hb]; [lia |].
  rewrite (nth_lookup_0 _ _ _ Hb); split; [by apply grown_refl |].
  split_and!; try done; [rewrite Hl; lia | by left].
Qed.

Lemma file_block_direct st din c bl ind k :
  img_ok st -> rep (m_img st) din c bl ind -> own_ok (m_freeblock st) bl ind ->
  (length c <= 1024 * length bl)%nat -> (k < 12)%nat -> (k = length bl \/ S k = length bl) ->
  m_freeblock st + with_ind (S k) - with_ind (length bl) <= FSSIZE ->
  exists x din' st' bl' ind', file_block false (Z.of_nat k) din st = MOk (x, din') st' /\
    block_found st st' din din' c bl bl' ind ind' k x.
Proof.
  intros Hok Hr Ho Hc Hk Hbl Hroom; pose proof Hr as [H1 H2 H3 H4 H5 H6 H7].
  unfold file_block; rewrite (proj2 (Z.ltb_lt (Z.of_nat k) NDIRECT)) by (unfold NDIRECT; lia).
  unfold din_addr; rewrite Nat2Z.id, !hget_le, (H3 k Hk).
  pose proof (io_fb _ Hok) as Hfb; destruct Hbl as [-> | Hbl].
  - rewrite (nth_ge_0 bl) by lia; change (xint false 0 =? 0) with true; cbv iota.
    assert (Hw : with_ind (S (length bl)) = with_ind (length bl) + 1).
    { unfold with_ind; destruct (Nat.ltb_spec 12 (length bl)), (Nat.ltb_spec 12 (S (length bl))); lia. }
    destruct (next_block_ok st Hok) as (st' & Hn & Hok' & Hfb' & Hi & Hfi & Hsz); [lia |].
    set (x := m_freeblock st) in *; set (o := (12 + 4 * length bl)%nat).
    assert (Hx : uint_ok x) by (unfold uint_ok; sizes).
    assert (Ho64 : (o + 4 <= length din)%nat) by (rewrite H1; unfold o, sizeof_dinode; lia).
    exists x, (put32 o x din), st', (bl ++ [x]), ind; split.
    { erewrite mk_bind; [| by erewrite mk_bind by exact Hn].
      rewrite (xint_small x Hx), hget_le, hput_le; fold o; rewrite get32_put32 by done.
      by rewrite (xint_small x Hx). }
    split_and!.
    + split_and!; try done; [lia | by rewrite Hi].
    + split.
      * by rewrite length_put32.
      * rewrite length_app; simpl; lia.
      * intros i Hi12; rewrite nth_snoc; case_decide as Hil; [subst; by apply get32_put32 |].
        unfold o; rewrite get32_put32_ne by lia; by apply H3.
      * unfold o; rewrite get32_put32_ne by lia; done.
      * intros _; apply H5; lia.
      * rewrite length_app; simpl; lia.
      * apply rep_data_snoc; [done | rewrite Hi; apply (io_zero _ Hok); lia | by rewrite Hi].
    + rewrite Hfb'; eapply own_snoc; [done | lia | lia |]; left; split; [lia | done].
    + by rewrite lookup_app_r, Nat.sub_diag by lia.
    + rewrite length_app; simpl; lia.
    + lia.
    + unfold put32; rewrite splice_outside; [done | by rewrite bytes_le_length | unfold o; lia].
    + intros b; apply owned_snoc; [lia |]; left; split; [done | lia].
  - exists (nth k bl 0), din, st, bl, ind; split; [| by apply found_old].
    destruct (lookup_lt_is_Some_2 bl k) as [b Hb]; [lia |]; rewrite (nth_lookup_0 _ _ _ Hb).
    pose proof (own_nth _ _ _ _ _ Ho Hb); assert (uint_ok b) by (unfold uint_ok; sizes).
    rewrite xint_small by done; rewrite (proj2 (Z.eqb_neq b 0)) by sizes.
    unfold mbind, MK_bind, mret, MK_ret; rewrite hget_le, (H3 k Hk), (nth_lookup_0 _ _ _ Hb), xint_small by done; done.
Qed.

Lemma zero_word j : (j < 256)%nat -> get32 zero_sector (4 * j) = 0.
Proof.
  intros Hj; unfold get32, sub, zero_sector, zeros; rewrite drop_replicate, take_replicate.
  replace (4 `min` (Z.to_nat BSIZE - 4 * j))%nat with 4%nat by (unfold BSIZE; lia); done.
Qed.

(** The indirect block, made where there is none *)
Lemma ensure_ind st din c bl ind :
  img_ok st -> rep (m_img st) din c bl ind -> own_ok (m_freeblock st) bl ind ->
  (12 <= length bl)%nat -> m_freeblock st < FSSIZE \/ (12 < length bl)%nat ->
  exists din1 st1 ind1 sec1,
    (if xint false (hget false 4 din (din_addr NDIRECT)) =? 0 then
       b ← next_block; mret (hput false 4 (din_addr NDIRECT) (xint false b) din)
     else mret din) st = MOk din1 st1 /\
    img_ok st1 /\ m_img st1 = m_img st /\ m_freeinode st1 = m_freeinode st /\ m_sizes st1 = m_sizes st /\
    length din1 = sizeof_dinode /\ (forall i, (i < 12)%nat -> get32 din1 (12 + 4 * i) = nth i bl 0) /\
    get32 din1 60 = ind1 /\ sub din1 0 12 = sub din 0 12 /\
    m_img st !! Z.to_nat ind1 = Some sec1 /\ length sec1 = Z.to_nat BSIZE /\
    (forall j, (j < 256)%nat -> get32 sec1 (4 * j) = nth (12 + j) bl 0) /\
    nmeta <= ind1 < m_freeblock st1 /\
    (length bl = 12%nat /\ ind1 = m_freeblock st /\ m_freeblock st1 = m_freeblock st + 1 \/
     (12 < length bl)%nat /\ ind1 = ind /\ st1 = st /\ din1 = din).
Proof.
  intros Hok Hr Ho Hbl Hroom; pose proof Hr as [H1 H2 H3 H4 H5 H6 H7]; pose proof (io_fb _ Hok) as Hfb.
  change (din_addr NDIRECT) with 60%nat; rewrite hget_le, H4.
  destruct (decide (length bl = 12%nat)) as [Hl | Hl].
  - rewrite (H5 ltac:(lia)); change (xint false 0 =? 0) with true; cbv iota.
    destruct (next_block_ok st Hok) as (st' & Hn & Hok' & Hfb' & Hi & Hfi & Hsz); [destruct Hroom; lia |].
    set (x := m_freeblock st) in *; assert (Hx : uint_ok x) by (unfold uint_ok; sizes).
    assert (Ho64 : (60 + 4 <= length din)%nat) by (rewrite H1; unfold sizeof_dinode; lia).
    exists (put32 60 x din), st', x, zero_sector; rewrite (mk_bind _ _ _ _ _ Hn), (xint_small x Hx).
    split_and!; try done; try lia.
    + by rewrite length_put32.
    + intros i Hi12; rewrite get32_put32_ne by lia; by apply H3.
    + by apply get32_put32.
    + unfold put32; rewrite splice_outside; [done | by rewrite bytes_le_length | lia].
    + apply (io_zero _ Hok); destruct Hroom; lia.
    + intros j Hj; rewrite zero_word, nth_ge_0 by lia; done.
  - destruct (H6 ltac:(lia)) as (sec & Hsec & Hlen & Hent).
    destruct Ho as [_ Hin]; rewrite Forall_forall in Hin; pose proof (Hin ind (owned_ind bl ind ltac:(lia))).
    exists din, st, ind, sec; rewrite xint_small by (unfold uint_ok; sizes).
    rewrite (proj2 (Z.eqb_neq ind 0)) by sizes.
    split_and!; try done; try lia; right; split_and!; try done; lia.
Qed.

(** A new data block behind an indirect block *)
Lemma found_new st st1 st2 st3 din din1 c bl ind ind1 sec1 :
  let x := m_freeblock st1 in
  img_ok st -> rep (m_img st) din c bl ind -> own_ok (m_freeblock st) bl ind ->
  (length c <= 1024 * length bl)%nat -> (12 <= length bl < 268)%nat ->
  m_img st1 = m_img st -> m_freeinode st1 = m_freeinode st -> m_sizes st1 = m_sizes st ->
  length din1 = sizeof_dinode -> (forall i, (i < 12)%nat -> get32 din1 (12 + 4 * i) = nth i bl 0) ->
  get32 din1 60 = ind1 -> sub din1 0 12 = sub din 0 12 -> length sec1 = Z.to_nat BSIZE ->
  (forall j, (j < 256)%nat -> get32 sec1 (4 * j) = nth (12 + j) bl 0) ->
  nmeta <= ind1 < x -> x < FSSIZE ->
  (length bl = 12%nat /\ ind1 = m_freeblock st /\ x = m_freeblock st + 1 \/
   (12 < length bl)%nat /\ ind1 = ind /\ x = m_freeblock st) ->
  m_freeblock st2 = x + 1 -> m_img st2 = m_img st1 -> m_freeinode st2 = m_freeinode st1 -> m_sizes st2 = m_sizes st1 ->
  img_ok st3 -> st3 = st2 <| m_img ::= <[Z.to_nat ind1 := put32 (4 * (length bl - 12)) x sec1]> |> ->
  block_found st st3 din din1 c bl (bl ++ [x]) ind ind1 (length bl) x.
Proof.
  intros x Hok Hr Ho Hc Hk Hi1 Hfi1 Hsz1 Hd1 Hd2 Hd3 Hd4 Hs2 Hs3 Hin1 Hx Hcase Hfb2 Hi2 Hfi2 Hsz2 Hok3 E3.
  pose proof Hr as [H1 H2 H3 H4 H5 H6 H7]; pose proof (io_fb _ Hok) as Hfb.
  assert (Hux : uint_ok x) by (unfold uint_ok; sizes).
  assert (Hlen : length (bl ++ [x]) = S (length bl)) by (rewrite length_app; simpl; lia).
  assert (Hi3 : m_img st3 = <[Z.to_nat ind1 := put32 (4 * (length bl - 12)) x sec1]> (m_img st))
    by (rewrite E3; simpl; by rewrite Hi2, Hi1).
  assert (Hf3 : m_freeblock st3 = x + 1) by (by rewrite E3).
  assert (Hl : (Z.to_nat ind1 < length (m_img st))%nat) by (rewrite (io_len _ Hok); sizes).
  assert (Hold : forall b, b ∈ bl -> b <> ind1 /\ nmeta <= b).
  { intros b Hb; destruct Ho as [Hnd Hin]; rewrite Forall_forall in Hin.
    pose proof (Hin b ltac:(apply elem_of_app; by left)); split; [| lia].
    destruct Hcase as [(? & ? & _) | (Hlt & -> & _)]; [lia |]; intros ->.
    unfold owned in Hnd; rewrite (proj2 (Nat.ltb_lt _ _) Hlt) in Hnd.
    apply NoDup_app in Hnd as (_ & Hn & _); apply (Hn ind Hb); left. }
  split_and!; [split_and! | ..].
  - done.
  - rewrite Hf3; destruct Hcase; lia.
  - by rewrite E3; simpl; rewrite Hfi2, Hfi1.
  - by rewrite E3; simpl; rewrite Hsz2, Hsz1.
  - intros k' Hk'; rewrite Hi3, list_lookup_insert_ne; [done |]; apply Hk', owned_ind; lia.
  - split; try done.
    + lia.
    + intros i Hi; rewrite nth_snoc, decide_False by lia; by apply Hd2.
    + lia.
    + intros _; eexists; split; [by rewrite Hi3, list_lookup_insert_eq |].
      assert (Hb4 : (4 * (length bl - 12) + 4 <= length sec1)%nat) by (rewrite Hs2; unfold BSIZE; lia).
      split; [by rewrite length_put32 |]; intros j Hj; rewrite nth_snoc; case_decide as Hjl.
      * replace j with (length bl - 12)%nat by lia; by apply get32_put32.
      * rewrite get32_put32_ne by lia; by apply Hs3.
    + apply rep_data_snoc; [done | |].
      * rewrite Hi3, list_lookup_insert_ne by sizes; apply (io_zero _ Hok); destruct Hcase; lia.
      * intros i b Hb; destruct (H7 i b Hb) as (sec & ? & ?); exists sec.
        destruct (Hold b ltac:(by eapply list_elem_of_lookup_2)).
        rewrite Hi3, list_lookup_insert_ne by sizes; done.
  - rewrite Hf3; eapply own_snoc; [done | destruct Hcase; lia | lia |].
    destruct Hcase as [? | ?]; [right | left]; lia.
  - by rewrite lookup_app_r, Nat.sub_diag by lia.
  - done.
  - rewrite Hf3; unfold with_ind; destruct Hcase; destruct (Nat.ltb_spec 12 (length bl)), (Nat.ltb_spec 12 (S (length bl))); lia.
  - done.
  - intros b; apply owned_snoc; [destruct Hcase; lia |]; destruct Hcase as [(_ & ? & _) | (? & ? & _)]; [right; lia | left; split; [done | lia]].
Qed.

Lemma file_block_indirect st din c bl ind k :
  img_ok st -> rep (m_img st) din c bl ind -> own_ok (m_freeblock st) bl ind ->
  (length c <= 1024 * length bl)%nat -> (12 <= k < 268)%nat -> (k = length bl \/ S k = length bl) ->
  m_freeblock st + with_ind (S k) - with_ind (length bl) <= FSSIZE ->
  exists x din' st' bl' ind', file_block false (Z.of_nat k) din st = MOk (x, din') st' /\
    block_found st st' din din' c bl bl' ind ind' k x.
Proof.
  intros Hok Hr Ho Hc Hk Hbl Hroom; pose proof Hr as [H1 H2 H3 H4 H5 H6 H7]; pose proof (io_fb _ Hok) as Hfb.
  unfold file_block; rewrite (proj2 (Z.ltb_ge (Z.of_nat k) NDIRECT)) by (unfold NDIRECT; lia).
  assert (Hw : k = length bl -> with_ind (S k) = with_ind (length bl) + if decide (k = 12)%nat then 2 else 1).
  { intros ->; unfold with_ind; case_decide; destruct (Nat.ltb_spec 12 (length bl)), (Nat.ltb_spec 12 (S (length bl))); lia. }
  destruct (ensure_ind st din c bl ind) as (din1 & st1 & ind1 & sec1 & Hrun & Hok1 & Hi1 & Hfi1 & Hsz1 & Hd1 & Hd2
    & Hd3 & Hd4 & Hs1 & Hs2 & Hs3 & Hin1 & Hcase); try done; [lia | |].
  { destruct Hbl as [Hbl | Hbl]; [| lia]; specialize (Hw Hbl); destruct (decide (k = 12)%nat); lia. }
  rewrite (mk_bind _ _ _ _ _ Hrun); change (din_addr NDIRECT) with 60%nat; rewrite hget_le, Hd3.
  rewrite (xint_small ind1) by (unfold uint_ok; pose proof (io_fb _ Hok1); sizes).
  erewrite mk_bind by (apply rsect_run; [apply Hok1 | rewrite Hi1; exact Hs1]).
  replace (Z.to_nat (Z.of_nat k - NDIRECT)) with (k - 12)%nat by (unfold NDIRECT; lia).
  set (o := (4 * (k - 12))%nat); rewrite !hget_le.
  assert (Hent : get32 sec1 o = nth k bl 0) by (unfold o; rewrite Hs3 by lia; f_equal; lia).
  rewrite Hent; destruct Hbl as [Hkb | Hbl].
  - specialize (Hw Hkb); rewrite (nth_ge_0 bl) by lia; change (0 =? 0) with true; cbv iota.
    destruct (next_block_ok st1 Hok1) as (st2 & Hn & Hok2 & Hfb2 & Hi2 & Hfi2 & Hsz2).
    { destruct Hcase as [(? & _ & ->) | (? & _ & -> & _)]; case_decide; lia. }
    set (x := m_freeblock st1) in *; pose proof (io_fb _ Hok2).
    assert (Hx : uint_ok x) by (unfold uint_ok; sizes).
    assert (Ho1 : (o + 4 <= length sec1)%nat) by (rewrite Hs2; unfold o, BSIZE; lia).
    destruct (wsect_ok st2 ind1 (put32 o x sec1)) as (st3 & Hw3 & Hok3 & E3); [done | sizes | by rewrite length_put32 |].
    exists x, din1, st3, (bl ++ [x]), ind1; split.
    { erewrite mk_bind; [| erewrite mk_bind by exact Hn; cbv zeta; rewrite hput_le, (xint_small x Hx);
        by erewrite mk_bind by exact Hw3].
      rewrite hget_le, get32_put32, (xint_small x Hx) by done; done. }
    subst k; unfold x, o in *; eapply found_new; try done; try lia.
    destruct Hcase as [? | (? & ? & -> & _)]; [left; lia | right; lia].
  - destruct Hcase as [(? & _) | (_ & -> & -> & ->)]; [lia |].
    exists (nth k bl 0), din, st, bl, ind; split; [| by apply found_old].
    destruct (lookup_lt_is_Some_2 bl k) as [b Hb]; [lia |]; rewrite (nth_lookup_0 _ _ _ Hb).
    pose proof (own_nth _ _ _ _ _ Ho Hb); rewrite (proj2 (Z.eqb_neq b 0)) by sizes.
    unfold mbind, MK_bind, mret, MK_ret; rewrite hget_le, Hent, (nth_lookup_0 _ _ _ Hb), xint_small; [done |].
    unfold uint_ok; sizes.
Qed.

Lemma file_block_ok st din c bl ind k :
  img_ok st -> rep (m_img st) din c bl ind -> own_ok (m_freeblock st) bl ind ->
  (length c <= 1024 * length bl)%nat -> (k < 268)%nat -> (k = length bl \/ S k = length bl) ->
  m_freeblock st + with_ind (S k) - with_ind (length bl) <= FSSIZE ->
  exists x din' st' bl' ind', file_block false (Z.of_nat k) din st = MOk (x, din') st' /\
    block_found st st' din din' c bl bl' ind ind' k x.
Proof.
  intros; destruct (decide (k < 12)%nat); [by apply file_block_direct | apply file_block_indirect; try done; lia].
Qed.

(** Bytes put behind the contents, in the file's last block *)
Lemma rep_write img din c bl ind fb k x sec q :
  rep img din c bl ind -> own_ok fb bl ind -> bl !! k = Some x -> length bl = S k ->
  (1024 * k <= length c)%nat -> (length c + length q <= 1024 * S k)%nat ->
  img !! Z.to_nat x = Some sec ->
  rep (<[Z.to_nat x := splice sec (length c - 1024 * k) q]> img) din (c ++ q) bl ind.
Proof.
  intros [H1 H2 H3 H4 H5 H6 H7] [Hnd Hin] Hx Hl Hc Hq Hsec.
  destruct (H7 k x Hx) as (sec' & Hs' & Hlen & Hpre); rewrite Hsec in Hs'; injection Hs' as <-.
  assert (Hxb : x ∈ bl) by (by eapply list_elem_of_lookup_2).
  rewrite Forall_forall in Hin; pose proof (Hin x ltac:(apply elem_of_app; by left)).
  assert (Hpos : forall b, b ∈ owned bl ind -> b <> x -> Z.to_nat x <> Z.to_nat b)
    by (intros b Hb Hne; pose proof (Hin b Hb); sizes).
  split; try done.
  - intros H12; destruct (H6 H12) as (s & ? & ?); exists s; rewrite list_lookup_insert_ne; [done |].
    apply Hpos; [by apply owned_ind |]; intros ->; unfold owned in Hnd.
    rewrite (proj2 (Nat.ltb_lt _ _) H12) in Hnd; apply NoDup_app in Hnd as (_ & Hn & _); apply (Hn x Hxb); left.
  - intros i b Hb; destruct (decide (i = k)) as [-> | Hne].
    + rewrite Hx in Hb; injection Hb as <-; eexists; split.
      { apply list_lookup_insert_eq; by eapply lookup_lt_Some. }
      assert (Ht : sub c (1024 * k) 1024 = drop (1024 * k) c) by (unfold sub; apply take_ge; rewrite length_drop; lia).
      rewrite Ht in Hpre; set (t := drop (1024 * k) c) in *.
      assert (Hlt : length t = (length c - 1024 * k)%nat) by (unfold t; by rewrite length_drop).
      assert (Hsp : splice sec (length c - 1024 * k) q = pad (t ++ q)).
      { unfold splice, pad; rewrite <- Hlt, length_app, Hpre; unfold pad, zeros; rewrite take_app_length.
        rewrite drop_app_ge, drop_replicate, <- (assoc_L (++)) by lia; do 3 f_equal; lia. }
      split; [rewrite length_splice; [done |]; rewrite Hlen; unfold BSIZE; lia |].
      rewrite Hsp; unfold sub; rewrite drop_app_le by lia; fold t.
      by rewrite take_ge by (rewrite length_app; lia).
    + assert (Hi : (i < S k)%nat) by (rewrite <- Hl; by eapply lookup_lt_Some).
      destruct (H7 i b Hb) as (s & ? & ? & ?); exists s; rewrite list_lookup_insert_ne.
      { split_and!; try done; rewrite sub_app_l; [done | lia]. }
      apply Hpos; [apply elem_of_app; left; by eapply list_elem_of_lookup_2 |].
      intros ->; apply Hne; unfold owned in Hnd; apply NoDup_app in Hnd as (Hnd & _); by eapply NoDup_lookup.
Qed.

(** The blocks for [n] bytes *)
Definition nblk (n : nat) : nat := (n + 1023) / 1024.

Lemma nblk_spec n : (n <= 1024 * nblk n < n + 1024)%nat.
Proof. unfold nblk; pose proof (Nat.div_mod (n + 1023) 1024 ltac:(lia)); pose proof (Nat.mod_upper_bound (n + 1023) 1024); lia. Qed.

Lemma with_ind_mono a b : (a <= b)%nat -> with_ind a <= with_ind b.
Proof. intros; unfold with_ind; destruct (Nat.ltb_spec 12 a), (Nat.ltb_spec 12 b); lia. Qed.

(** A file while it grows *)
Definition file_ok (st : mkst) (din c bl : list Z) (ind : Z) : Prop :=
  rep (m_img st) din c bl ind /\ own_ok (m_freeblock st) bl ind /\ length bl = nblk (length c).

Record extends (st st' : mkst) (din din' bl bl' : list Z) (ind ind' : Z) : Prop := {
  ex_ok : img_ok st';
  ex_fb : m_freeblock st' = m_freeblock st + with_ind (length bl') - with_ind (length bl);
  ex_len : (length bl <= length bl')%nat;
  ex_fi : m_freeinode st' = m_freeinode st;
  ex_sz : m_sizes st' = m_sizes st;
  ex_own : forall b, b ∈ owned bl' ind' -> b ∈ owned bl ind \/ m_freeblock st <= b;
  ex_frame : forall k, Z.of_nat k < m_freeblock st -> (forall b, b ∈ owned bl ind -> Z.to_nat b <> k) ->
    m_img st' !! k = m_img st !! k;
  ex_din : sub din' 0 12 = sub din 0 12;
}.

Lemma extends_trans st1 st2 st3 din1 din2 din3 bl1 bl2 bl3 ind1 ind2 ind3 :
  extends st1 st2 din1 din2 bl1 bl2 ind1 ind2 -> extends st2 st3 din2 din3 bl2 bl3 ind2 ind3 ->
  extends st1 st3 din1 din3 bl1 bl3 ind1 ind3.
Proof.
  intros [A1 A2 A3 A4 A5 A6 A7 A8] [B1 B2 B3 B4 B5 B6 B7 B8].
  pose proof (with_ind_mono _ _ A3); split; try congruence; [lia | lia | |].
  - intros b [Hb%A6 | ?]%B6; [done | right; lia].
  - intros k Hk Hb; rewrite B7, A7; try done; [lia |].
    intros b [Hb1 | ?]%A6; [by apply Hb | lia].
Qed.

Lemma nblk_cases n : let k := (n / 1024)%nat in
  (1024 * k <= n < 1024 * S k)%nat /\ (k = nblk n \/ S k = nblk n).
Proof.
  intros k; pose proof (nblk_spec n); pose proof (Nat.div_mod n 1024 ltac:(lia)).
  pose proof (Nat.mod_upper_bound n 1024); unfold k; lia.
Qed.

Lemma nblk_in n k : (1024 * k < n <= 1024 * S k)%nat -> nblk n = S k.
Proof. intros; pose proof (nblk_spec n); lia. Qed.

Lemma nblk_mono a b : (a <= b)%nat -> (nblk a <= nblk b)%nat.
Proof. intros; apply Nat.Div0.div_le_mono; lia. Qed.

(** One turn of the loop of iappend() *)
Lemma turn_ok st p din c bl ind :
  img_ok st -> file_ok st din c bl ind -> p <> [] -> (length c + length p <= 268 * 1024)%nat ->
  m_freeblock st + with_ind (nblk (length c + length p)) - with_ind (length bl) <= FSSIZE ->
  exists n1 st' din' bl' ind', (0 < n1 <= length p)%nat /\
    iappend_turn false (p, Z.of_nat (length c), din) st =
      MOk (inl (drop n1 p, Z.of_nat (length (c ++ take n1 p)), din')) st' /\
    file_ok st' din' (c ++ take n1 p) bl' ind' /\ extends st st' din din' bl bl' ind ind'.
Proof.
  intros Hok (Hr & Ho & Hl) Hp Hmax Hroom; assert (Hp0 : (0 < length p)%nat) by (destruct p; [done | simpl; lia]).
  destruct (nblk_cases (length c)) as [Hk Hcase]; rewrite <- Hl in Hcase; set (k := (length c / 1024)%nat) in *.
  pose proof (nblk_spec (length c)) as Hn.
  set (n1 := Nat.min (length p) (1024 * S k - length c)).
  assert (Hn1 : (0 < n1 <= length p)%nat) by (unfold n1; lia).
  assert (Hq : length (take n1 p) = n1) by (rewrite length_take; lia).
  assert (HL : length (c ++ take n1 p) = (length c + n1)%nat) by (rewrite length_app; lia).
  assert (Hblk : nblk (length c + n1) = S k) by (apply nblk_in; unfold n1; lia).
  assert (Hsk : (S k <= nblk (length c + length p))%nat) by (rewrite <- Hblk; apply nblk_mono; lia).
  pose proof (with_ind_mono _ _ Hsk).
  destruct (file_block_ok st din c bl ind k) as (x & din1 & st1 & bl1 & ind1 & Hrun & Hg & Hr1 & Ho1 & Hx & Hl1 & Hfb1 & Hd1 & Hown1);
    try done; [lia.. |].
  destruct Hg as (Hok1 & Hfb & Hfi & Hsz & Hfr).
  destruct (rp_data _ _ _ _ _ Hr1 k x Hx) as (sec & Hsec & Hlen & _).
  pose proof (own_nth _ _ _ _ _ Ho1 Hx) as Hxr.
  destruct (wsect_ok st1 x (splice sec (length c - 1024 * k) (take n1 p))) as (st2 & Hw & Hok2 & E2); [done | sizes | |].
  { rewrite length_splice; [done |]; rewrite Hlen, Hq; unfold BSIZE, n1; lia. }
  exists n1, st2, din1, bl1, ind1; split_and!; [lia | lia | | |].
  - unfold iappend_turn; rewrite (proj2 (Z.ltb_lt 0 (Z.of_nat (length p)))) by lia; cbn [negb].
    replace (Z.of_nat (length c) / BSIZE) with (Z.of_nat k) by (unfold k, BSIZE; rewrite Nat2Z.inj_div; done).
    erewrite mk_bind by (unfold massert; by rewrite (proj2 (Z.ltb_lt (Z.of_nat k) MAXFILE)) by (change MAXFILE with 268; lia)).
    rewrite (mk_bind _ _ _ _ _ Hrun).
    replace (Z.to_nat (Z.min (Z.of_nat (length p)) ((Z.of_nat k + 1) * BSIZE - Z.of_nat (length c)))) with n1
      by (unfold n1, BSIZE; lia).
    replace (Z.to_nat (Z.of_nat (length c) - Z.of_nat k * BSIZE)) with (length c - 1024 * k)%nat by (unfold BSIZE; lia).
    erewrite mk_bind by (apply rsect_run; [apply Hok1 | exact Hsec]).
    rewrite (mk_bind _ _ _ _ _ Hw), HL, u32_small by lia; do 4 f_equal; lia.
  - split_and!.
    + rewrite E2; simpl; eapply rep_write; try done; rewrite ?Hq; unfold n1; lia.
    + replace (m_freeblock st2) with (m_freeblock st1) by (by rewrite E2); done.
    + by rewrite HL, Hblk.
  - split; try done.
    + rewrite E2; simpl; rewrite Hl1; lia.
    + rewrite Hl1; lia.
    + rewrite E2; done.
    + rewrite E2; done.
    + intros k' Hk' Hb'; rewrite E2; simpl; rewrite list_lookup_insert_ne; [apply Hfr |].
      * intros b [? | ?]%Hown1; [by apply Hb' | lia].
      * assert (Hxo : x ∈ owned bl1 ind1) by (apply elem_of_app; left; by eapply list_elem_of_lookup_2).
        destruct (Hown1 x Hxo); [by apply Hb' | lia].
Qed.

Lemma extends_refl st din bl ind : img_ok st -> extends st st din din bl bl ind ind.
Proof. intros; split; try done; [lia | by left]. Qed.

(** The loop of iappend() *)
Lemma append_loop fuel st p din c bl ind :
  (length p < fuel)%nat ->
  img_ok st -> file_ok st din c bl ind -> (length c + length p <= 268 * 1024)%nat ->
  m_freeblock st + with_ind (nblk (length c + length p)) - with_ind (length bl) <= FSSIZE ->
  exists st' din' bl' ind',
    mloop fuel (iappend_turn false) (p, Z.of_nat (length c), din) st =
      MOk (Z.of_nat (length (c ++ p)), din') st' /\
    file_ok st' din' (c ++ p) bl' ind' /\ extends st st' din din' bl bl' ind ind'.
Proof.
  revert st p din c bl ind; induction fuel as [| fuel IH]; intros st p din c bl ind Hf Hok Hfile Hmax Hroom; [lia |].
  cbn [mloop]; destruct (decide (p = [])) as [-> | Hp].
  - rewrite app_nil_r; exists st, din, bl, ind; split_and!; try done; by apply extends_refl.
  - destruct (turn_ok st p din c bl ind) as (n1 & st1 & din1 & bl1 & ind1 & Hn1 & Hrun & Hfile1 & Hex); try done.
    rewrite (mk_bind _ _ _ _ _ Hrun).
    assert (Hlen : length (c ++ take n1 p) = (length c + n1)%nat) by (rewrite length_app, length_take; lia).
    destruct (IH st1 (drop n1 p) din1 (c ++ take n1 p) bl1 ind1) as (st2 & din2 & bl2 & ind2 & Hrun2 & Hfile2 & Hex2);
      try (apply Hex || done).
    + rewrite length_drop; lia.
    + rewrite Hlen, length_drop; lia.
    + rewrite Hlen, length_drop, (ex_fb _ _ _ _ _ _ _ _ Hex).
      replace (length c + n1 + (length p - n1))%nat with (length c + length p)%nat by lia; lia.
    + rewrite <- (assoc_L (++)), take_drop in Hrun2, Hfile2.
      exists st2, din2, bl2, ind2; split_and!; try apply Hfile2; [done |]; by eapply extends_trans.
Qed.

(** ** Inodes *)

Definition inode_block (inum : nat) : nat := (33 + inum / 16)%nat.

(** The 64 bytes of inode [inum] *)
Definition din_at (img : list (list Z)) (inum : nat) : option (list Z) :=
  (fun sec => sub sec (dip_off (Z.of_nat inum)) sizeof_dinode) <$> img !! inode_block inum.

Lemma IBLOCK_val inum : (inum < 208)%nat -> Z.to_nat (IBLOCK (Z.of_nat inum) (the_sb false)) = inode_block inum.
Proof.
  intros Hi; unfold IBLOCK, inode_block; change IPB with 16; change (sb_inodestart (the_sb false)) with 33.
  assert (0 <= Z.of_nat inum / 16 < 13) by (split; [apply Z.div_pos; lia | apply Z.div_lt_upper_bound; lia]).
  rewrite u32_small by lia; change 16 with (Z.of_nat 16); rewrite <- Nat2Z.inj_div; lia.
Qed.

Lemma inode_block_bound inum : (inum < 208)%nat -> (33 <= inode_block inum < 46)%nat.
Proof. intros; unfold inode_block; assert (inum / 16 < 13)%nat by (apply Nat.Div0.div_lt_upper_bound; lia); lia. Qed.

Lemma rinode_ok st inum din :
  img_ok st -> (inum < 208)%nat -> din_at (m_img st) inum = Some din -> rinode (Z.of_nat inum) st = MOk din st.
Proof.
  intros Hok Hi Hd; unfold din_at in Hd; apply fmap_Some in Hd as (sec & Hsec & ->).
  unfold rinode; rewrite (mk_bind _ _ _ st st) by done; rewrite (io_sb _ Hok).
  erewrite mk_bind by (apply rsect_run; [apply Hok | rewrite IBLOCK_val by done; exact Hsec]); done.
Qed.

Lemma dip_off_apart i j : (i <> j)%nat -> inode_block i = inode_block j ->
  (dip_off (Z.of_nat i) + 64 <= dip_off (Z.of_nat j) \/ dip_off (Z.of_nat j) + 64 <= dip_off (Z.of_nat i))%nat.
Proof.
  unfold inode_block, dip_off, sizeof_dinode; change IPB with 16; intros Hne Hb.
  pose proof (Z.div_mod (Z.of_nat i) 16 ltac:(lia)); pose proof (Z.div_mod (Z.of_nat j) 16 ltac:(lia)).
  pose proof (Z.mod_pos_bound (Z.of_nat i) 16 ltac:(lia)); pose proof (Z.mod_pos_bound (Z.of_nat j) 16 ltac:(lia)).
  assert (Z.of_nat i / 16 = Z.of_nat j / 16).
  { change 16 with (Z.of_nat 16); rewrite <- !Nat2Z.inj_div; lia. }
  lia.
Qed.

Lemma winode_ok st inum din :
  img_ok st -> (inum < 208)%nat -> length din = sizeof_dinode ->
  exists st', winode (Z.of_nat inum) din st = MOk tt st' /\ img_ok st' /\
    m_freeblock st' = m_freeblock st /\ m_freeinode st' = m_freeinode st /\ m_sizes st' = m_sizes st /\
    din_at (m_img st') inum = Some din /\
    (forall j, j <> inum -> din_at (m_img st') j = din_at (m_img st) j) /\
    (forall k, k <> inode_block inum -> m_img st' !! k = m_img st !! k).
Proof.
  intros Hok Hi Hd; pose proof (inode_block_bound _ Hi) as Hb.
  destruct (io_sector st (Z.of_nat (inode_block inum)) Hok) as (sec & Hsec & Hlen); [sizes |].
  rewrite Nat2Z.id in Hsec; pose proof (dip_off_bound (Z.of_nat inum) ltac:(lia)) as Hob.
  unfold winode; rewrite (mk_bind _ _ _ st st) by done; rewrite (io_sb _ Hok); cbv zeta.
  erewrite mk_bind by (apply rsect_run; [apply Hok | rewrite IBLOCK_val by done; exact Hsec]).
  destruct (wsect_ok st (IBLOCK (Z.of_nat inum) (the_sb false)) (splice sec (dip_off (Z.of_nat inum)) din))
    as (st' & -> & Hok' & E); [done | | rewrite length_splice; [done | rewrite Hd, Hlen; lia] |].
  { pose proof (IBLOCK_val inum Hi); pose proof (io_fb _ Hok); split; [apply u32_range | sizes]. }
  rewrite IBLOCK_val in E by done.
  assert (Hsec' : m_img st' !! inode_block inum = Some (splice sec (dip_off (Z.of_nat inum)) din)).
  { rewrite E; simpl; apply list_lookup_insert_eq; rewrite (io_len _ Hok); sizes. }
  exists st'; split_and!; try done; try (by rewrite E).
  - unfold din_at; rewrite Hsec'; simpl; f_equal; rewrite <- (Nat.add_0_r (dip_off _)) at 2.
    rewrite splice_inside by (rewrite Hd, ?Hlen; lia); rewrite <- Hd; apply sub_whole.
  - intros j Hj; unfold din_at; destruct (decide (inode_block inum = inode_block j)) as [Eb | Nb].
    + rewrite <- Eb, Hsec', Hsec; simpl; f_equal; apply splice_outside; rewrite Hd; [lia |].
      pose proof (dip_off_apart j inum Hj ltac:(done)); unfold sizeof_dinode; lia.
    + rewrite E; simpl; by rewrite list_lookup_insert_ne by done.
  - intros k Hk; rewrite E; simpl; by rewrite list_lookup_insert_ne by done.
Qed.
