(* ===== verification/MkfsImage.v ===== *)
(** The file system image as a whole: every inode mkfs has allocated keeps its file,
    the blocks of different files are disjoint, and the image the program leaves
    has the root directory, the files of the command line and the bitmap. *)
From stdpp Require Import base list strings.
From Stdlib Require Import ZArith Lia ZifyBool Ascii.
From S2P Require Import Prelude Fcntl Memory KPrintf State Monad Log LogSpec Fs FsSpec Mkfs MkfsSpec.

Local Open Scope Z_scope.
Local Open Scope record_scope.

(** What inode [i + 1] stands for: its type, its contents, and the blocks they are in *)
Record finfo := mkfinfo { f_type : Z; f_data : list Z; f_bl : list Z; f_ind : Z }.

Definition f_owned (f : finfo) : list Z := owned (f_bl f) (f_ind f).
Definition f_blocks (f : finfo) : Z := with_ind (nblk (length (f_data f))).
Definition total (fs : list finfo) : Z := foldr (fun f n => f_blocks f + n) 0 fs.

(** The on-disk inode of a file *)
Definition din_ok (st : mkst) (i : nat) (f : finfo) : Prop :=
  exists din, din_at (m_img st) (i + 1) = Some din /\
    file_ok st din (f_data f) (f_bl f) (f_ind f) /\
    get32 din 8 = Z.of_nat (length (f_data f)) /\ (length (f_data f) <= 268 * 1024)%nat /\
    sub din 0 8 = bytes_le 2 (f_type f) ++ zeros 4 ++ bytes_le 2 1.

Record fs_ok (st : mkst) (fs : list finfo) : Prop := {
  fo_img : img_ok st;
  fo_sb : m_img st !! 1%nat = Some (splice zero_sector 0 (sb_bytes false (the_sb false)));
  fo_len : (length fs < 208)%nat;
  fo_next : m_freeinode st = Z.of_nat (length fs + 1);
  fo_fb : m_freeblock st = nmeta + total fs;
  fo_din : forall i f, fs !! i = Some f -> din_ok st i f;
  fo_disj : forall i j f g b, fs !! i = Some f -> fs !! j = Some g ->
    b ∈ f_owned f -> b ∈ f_owned g -> i = j;
}.

Lemma total_insert fs i f g : fs !! i = Some f -> total (<[i := g]> fs) = total fs - f_blocks f + f_blocks g.
Proof.
  revert i; induction fs as [| x fs IH]; intros [| i] Hf; simpl in *; try done; [injection Hf as ->; lia |].
  rewrite (IH i Hf); lia.
Qed.

Lemma total_app fs gs : total (fs ++ gs) = total fs + total gs.
Proof. induction fs; simpl; lia. Qed.

Lemma f_blocks_nonneg f : 0 <= f_blocks f.
Proof. unfold f_blocks, with_ind; destruct (12 <? _)%nat; lia. Qed.

(** A file that a step does not touch *)
Lemma din_ok_frame st st' i g :
  din_ok st i g -> m_freeblock st <= m_freeblock st' ->
  din_at (m_img st') (i + 1) = din_at (m_img st) (i + 1) ->
  (forall b, b ∈ f_owned g -> m_img st' !! Z.to_nat b = m_img st !! Z.to_nat b) ->
  din_ok st' i g.
Proof.
  intros (din & Hd & (Hr & [Hnd Hin] & Hl) & Hrest) Hfb Hda Hf; exists din; split; [by rewrite Hda |].
  split; [| done]; split_and!; try done; [by eapply rep_frame |].
  split; [done |]; eapply Forall_impl; [exact Hin |]; simpl; lia.
Qed.

Lemma own_range st i f b : din_ok st i f -> b ∈ f_owned f -> nmeta <= b < m_freeblock st.
Proof. intros (din & _ & (_ & [_ Hin] & _) & _) Hb; rewrite Forall_forall in Hin; by apply Hin. Qed.

Lemma sub_sub_prefix d d' n : sub d' 0 12 = sub d 0 12 -> (n <= 12)%nat -> sub d' 0 n = sub d 0 n.
Proof.
  unfold sub; rewrite !drop_0; intros E Hn.
  rewrite <- (Nat.min_l n 12) by lia; rewrite <- !take_take; by rewrite E.
Qed.

Lemma rep_size img din c bl ind n : rep img din c bl ind -> rep img (put32 8 n din) c bl ind.
Proof.
  intros [H1 H2 H3 H4 H5 H6 H7]; assert (Hd : (8 + 4 <= length din)%nat) by (rewrite H1; unfold sizeof_dinode; lia).
  split; try done; [by rewrite length_put32 | |].
  - intros i Hi; rewrite get32_put32_ne by lia; by apply H3.
  - by rewrite get32_put32_ne by lia.
Qed.

(** Sectors below the data blocks are not touched by a file that grows. *)
Lemma extends_meta st st' din din' bl bl' ind ind' k :
  img_ok st -> own_ok (m_freeblock st) bl ind -> extends st st' din din' bl bl' ind ind' -> (k < 47)%nat ->
  m_img st' !! k = m_img st !! k.
Proof.
  intros Hok [_ Hin] Hex Hk; pose proof (io_fb _ Hok) as Hfb; apply (ex_frame _ _ _ _ _ _ _ _ Hex); [sizes |].
  intros b Hb; rewrite Forall_forall in Hin; pose proof (Hin b Hb); sizes.
Qed.

(** iappend() appends to one file and leaves the others as they are. *)
Lemma iappend_ok st fs i f p :
  fs_ok st fs -> fs !! i = Some f -> (length (f_data f) + length p <= 268 * 1024)%nat ->
  total fs - f_blocks f + with_ind (nblk (length (f_data f) + length p)) <= nblocks ->
  exists st' f', iappend false (Z.of_nat (i + 1)) p st = MOk tt st' /\
    fs_ok st' (<[i := f']> fs) /\ f_type f' = f_type f /\ f_data f' = f_data f ++ p /\
    m_sizes st' = m_sizes st.
Proof.
  intros Hfs Hf Hmax Hroom; pose proof Hfs as [Hok Hsb Hlen Hnext Hfb Hdin Hdisj].
  assert (Hi : (i + 1 < 208)%nat) by (pose proof (lookup_lt_Some _ _ _ Hf); lia).
  destruct (Hdin i f Hf) as (din & Hd & Hfile & Hsize & _ & Hhead).
  pose proof Hfile as (Hr & Ho & Hl).
  destruct (append_loop (S (length p)) st p din (f_data f) (f_bl f) (f_ind f))
    as (st1 & din1 & bl1 & ind1 & Hrun & (Hr1 & Ho1 & Hl1) & [E1 E2 E3 E4 E5 E6 E7 E8]); try done; [lia | |].
  { rewrite Hfb, Hl; unfold f_blocks, nblocks in Hroom; lia. }
  set (n := Z.of_nat (length (f_data f ++ p))) in *.
  assert (Hn : uint_ok n) by (unfold uint_ok, n; rewrite length_app; lia).
  pose proof (rp_len _ _ _ _ _ Hr1) as Hd64; change sizeof_dinode with 64%nat in Hd64.
  set (din2 := put32 8 n din1).
  destruct (winode_ok st1 (i + 1) din2) as (st2 & Hw & Hok2 & W1 & W2 & W3 & W4 & W5 & W6); [done | done | |].
  { unfold din2; rewrite length_put32; [done | lia]. }
  assert (Hex : extends st st1 din din1 (f_bl f) bl1 (f_ind f) ind1) by done.
  assert (Hmeta : forall k, (k < 47)%nat -> m_img st1 !! k = m_img st !! k) by (intros; by eapply extends_meta).
  set (f' := mkfinfo (f_type f) (f_data f ++ p) bl1 ind1); exists st2, f'.
  split_and!; try done.
  - unfold iappend; rewrite (mk_bind _ _ _ _ _ (rinode_ok _ _ _ Hok Hi Hd)); cbv zeta.
    change din_size with 8%nat; rewrite hget_le, Hsize, xint_small by (unfold uint_ok; lia).
    rewrite (mk_bind _ _ _ _ _ Hrun), hput_le, xint_small by done; exact Hw.
  - assert (Hdata : forall b, nmeta <= b -> m_img st2 !! Z.to_nat b = m_img st1 !! Z.to_nat b).
    { intros b Hb; apply W6; pose proof (inode_block_bound _ Hi); sizes. }
    assert (Hnew : din_ok st2 i f').
    { exists din2; split; [done |]; split; [split_and! | split_and!].
      - apply rep_size; eapply rep_frame; [exact Hr1 |]; intros b Hb; apply Hdata.
        destruct Ho1 as [_ Hin]; rewrite Forall_forall in Hin; by apply Hin.
      - by rewrite W1.
      - done.
      - apply get32_put32; [lia | done].
      - unfold f'; cbn [f_data]; rewrite length_app; lia.
      - unfold f'; cbn [f_type]; rewrite <- Hhead; transitivity (sub din1 0 8); [| apply (sub_sub_prefix din); [done | lia]].
        unfold din2, put32; rewrite splice_outside; rewrite ?bytes_le_length; [done | lia | lia]. }
    split.
    + done.
    + rewrite W6, Hmeta; [done | lia |]; pose proof (inode_block_bound _ Hi); lia.
    + by rewrite length_insert.
    + by rewrite length_insert, W2, E4.
    + rewrite W1, E2, Hfb, (total_insert _ _ _ _ Hf), Hl, Hl1; unfold f_blocks; simpl; lia.
    + intros j g Hg; apply list_lookup_insert_Some in Hg as [(-> & <- & _) | [Hne Hg]]; [done |].
      pose proof (Hdin j g Hg) as Hgok.
      eapply din_ok_frame; [exact Hgok | rewrite W1, E2; pose proof (with_ind_mono _ _ E3); lia | |].
      * rewrite W5 by lia; unfold din_at; rewrite Hmeta; [done |].
        pose proof (lookup_lt_Some _ _ _ Hg); pose proof (inode_block_bound (j + 1)); lia.
      * intros b Hb; pose proof (own_range _ _ _ _ Hgok Hb); rewrite Hdata by lia; apply E7; [sizes |].
        intros b' Hb' Eb; assert (b = b') as ->.
        { destruct Ho as [_ Hin]; rewrite Forall_forall in Hin; pose proof (Hin b' Hb'); sizes. }
        apply Hne; by apply (Hdisj i j f g b').
    + assert (Hone : forall j g b, fs !! j = Some g -> i <> j -> b ∈ f_owned f' -> b ∈ f_owned g -> False).
      { intros j g b Hg Hne Hb Hb'; pose proof (own_range _ _ _ _ (Hdin j g Hg) Hb').
        apply E6 in Hb as [Hb | Hb]; [apply Hne; by apply (Hdisj i j f g b) | lia]. }
      intros j k g g' b Hg Hg' Hb Hb'.
      apply list_lookup_insert_Some in Hg as [(-> & <- & _) | [Hne Hg]];
        apply list_lookup_insert_Some in Hg' as [(-> & <- & _) | [Hne' Hg']]; try done.
      * exfalso; by apply (Hone k g' b).
      * exfalso; by apply (Hone j g b).
      * by apply (Hdisj j k g g' b).
  - by rewrite W3.
Qed.

(** ** New inodes *)

Definition new_din (type : Z) : list Z :=
  hput false 4 din_size (xint false 0)
    (hput false 2 din_nlink (xshort false 1)
      (hput false 2 din_type (xshort false type) (zeros sizeof_dinode))).

Lemma new_din_spec type : type = T_DIR \/ type = T_FILE ->
  length (new_din type) = sizeof_dinode /\ get32 (new_din type) 8 = 0 /\
  sub (new_din type) 0 8 = bytes_le 2 type ++ zeros 4 ++ bytes_le 2 1 /\
  forall i, (i < 13)%nat -> get32 (new_din type) (12 + 4 * i) = 0.
Proof.
  intros [-> | ->]; split_and!; try reflexivity;
    intros i Hi; do 13 (destruct i as [| i]; [reflexivity |]); lia.
Qed.

Lemma ialloc_ok st fs type :
  fs_ok st fs -> type = T_DIR \/ type = T_FILE -> (length fs + 1 < 208)%nat ->
  exists st', ialloc false type st = MOk (Z.of_nat (length fs + 1)) st' /\
    fs_ok st' (fs ++ [mkfinfo type [] [] 0]) /\ m_sizes st' = m_sizes st.
Proof.
  intros [Hok Hsb Hlen Hnext Hfb Hdin Hdisj] Ht Hl; pose proof (new_din_spec type Ht) as (D1 & D2 & D3 & D4).
  unfold ialloc; rewrite (mk_bind _ _ _ st st) by done; cbv zeta.
  set (st0 := st <| m_freeinode ::= fun i => u32 (i + 1) |>).
  rewrite (mk_bind _ _ _ tt st0) by done; rewrite Hnext.
  assert (Hok0 : img_ok st0) by (by destruct Hok).
  destruct (winode_ok st0 (length fs + 1) (new_din type)) as (st1 & Hw & Hok1 & W1 & W2 & W3 & W4 & W5 & W6); [done.. |].
  exists st1; split; [by rewrite (mk_bind _ _ _ _ _ Hw) |]; split; [| done].
  pose proof (inode_block_bound _ Hl) as Hib.
  split; try done.
  - rewrite W6 by lia; done.
  - rewrite length_app; simpl; lia.
  - rewrite W2; simpl; rewrite Hnext, u32_small by lia; rewrite length_app; simpl; lia.
  - rewrite W1; simpl; rewrite Hfb, total_app; simpl; unfold f_blocks; simpl; change (with_ind (nblk 0)) with 0; lia.
  - intros i f Hf; apply lookup_snoc_Some in Hf as [[Hi Hf] | [-> <-]].
    + eapply din_ok_frame; [by apply Hdin | by rewrite W1 | apply W5; lia |].
      intros b Hb; apply W6; pose proof (own_range _ _ _ _ (Hdin i f Hf) Hb); sizes.
    + exists (new_din type); split; [done |]; split; [split_and! |].
      * split; try done; try (simpl; lia).
        intros i Hi; rewrite D4 by lia; by destruct i.
      * split; constructor.
      * done.
      * split_and!; [done | cbn [f_data length]; lia | done].
  - intros i j f g b Hf Hg Hb Hb'.
    apply lookup_snoc_Some in Hf as [[_ Hf] | [-> <-]], Hg as [[_ Hg] | [-> <-]]; try done;
      [by apply (Hdisj i j f g b) | by apply elem_of_nil in Hb' | by apply elem_of_nil in Hb].
Qed.

(** ** The files of the command line *)

Lemma fs_ok_sizes st fs g : fs_ok st fs -> fs_ok (st <| m_sizes ::= g |>) fs.
Proof. intros [[] ? ? ? ? ? ?]; split; try done; by split. Qed.

(** The blocks after a file was extended grow with its length. *)
Lemma room_mono n a b : (a <= b)%nat -> with_ind (nblk (n + a)) <= with_ind (nblk (n + b)).
Proof. intros; apply with_ind_mono, nblk_mono; lia. Qed.

(** What a read() returns *)
Definition chunk (st : mkst) (data : list Z) : nat :=
  Nat.min (Nat.max 1 (hd (Z.to_nat BSIZE) (m_sizes st))) (Nat.min (Z.to_nat BSIZE) (length data)).

Lemma copy_turn_end inum st : copy_turn false inum [] st = MOk (inr tt) (st <| m_sizes ::= fun l => tl l |>).
Proof.
  unfold copy_turn, mbind, MK_bind, mget_, mmod; cbv beta iota zeta.
  fold (chunk st []); replace (chunk st []) with 0%nat by (unfold chunk; simpl; lia); done.
Qed.

Lemma copy_turn_more inum st data st1 : (0 < chunk st data)%nat ->
  iappend false inum (take (chunk st data) data) (st <| m_sizes ::= fun l => tl l |>) = MOk tt st1 ->
  copy_turn false inum data st = MOk (inl (drop (chunk st data) data)) st1.
Proof.
  intros Hc Hrun; unfold copy_turn, mbind, MK_bind, mget_, mmod; cbv beta iota zeta.
  fold (chunk st data); rewrite (proj2 (Nat.ltb_lt _ _) Hc); cbn [negb]; by rewrite Hrun.
Qed.

(** A file is copied whatever the sizes of the reads are. *)
Lemma copy_ok fuel st fs i f data :
  (length data < fuel)%nat ->
  fs_ok st fs -> fs !! i = Some f -> (length (f_data f) + length data <= 268 * 1024)%nat ->
  total fs - f_blocks f + with_ind (nblk (length (f_data f) + length data)) <= nblocks ->
  exists st' f', mloop fuel (copy_turn false (Z.of_nat (i + 1))) data st = MOk tt st' /\
    fs_ok st' (<[i := f']> fs) /\ f_type f' = f_type f /\ f_data f' = f_data f ++ data.
Proof.
  revert st fs f data; induction fuel as [| fuel IH]; intros st fs f data Hfu Hfs Hf Hmax Hroom; [lia |].
  cbn [mloop]; set (cc := chunk st data).
  pose proof (fs_ok_sizes st fs (fun l => tl l) Hfs) as Hfs0; set (st0 := st <| m_sizes ::= fun l => tl l |>) in *.
  destruct (decide (data = [])) as [-> | Hne].
  - rewrite (mk_bind _ _ _ _ _ (copy_turn_end _ st)).
    exists st0, f; split; [done |]; rewrite app_nil_r; split; [| done]; by rewrite list_insert_id.
  - assert (Hcc : (0 < cc <= length data)%nat) by (unfold cc, chunk, BSIZE; destruct data; [done | cbn [length]; lia]).
    assert (Htl : length (take cc data) = cc) by (rewrite length_take; lia).
    destruct (iappend_ok st0 fs i f (take cc data)) as (st1 & f1 & Hrun & Hfs1 & Ht1 & Hd1 & _); try done.
    { rewrite Htl; lia. }
    { rewrite Htl; pose proof (room_mono (length (f_data f)) cc (length data) ltac:(lia)); lia. }
    rewrite (mk_bind _ _ _ _ _ (copy_turn_more _ st data st1 (proj1 Hcc) Hrun)); fold cc.
    assert (Hi : (i < length fs)%nat) by (by eapply lookup_lt_Some).
    destruct (IH st1 (<[i := f1]> fs) f1 (drop cc data)) as (st2 & f2 & Hrun2 & Hfs2 & Ht2 & Hd2); try done.
    + rewrite length_drop; lia.
    + by apply list_lookup_insert_eq.
    + rewrite Hd1, length_app, Htl, length_drop; lia.
    + rewrite (total_insert _ _ _ _ Hf), Hd1, length_app, Htl, length_drop.
      replace (length (f_data f) + cc + (length data - cc))%nat with (length (f_data f) + length data)%nat by lia; lia.
    + exists st2, f2; split; [done |]; rewrite list_insert_insert_eq in Hfs2; split; [done |].
      split; [by rewrite Ht2 |]; rewrite Hd2, Hd1, <- (assoc_L (++)); by rewrite take_drop.
Qed.

(** Types and contents *)
Definition contents (fs : list finfo) : list (Z * list Z) := (fun f => (f_type f, f_data f)) <$> fs.

Definition need (ds : list (list Z)) : Z := foldr (fun d n => with_ind (nblk (length d)) + n) 0 ds.

Lemma total_need fs : total fs = need (snd <$> contents fs).
Proof. induction fs as [| f fs IH]; [done |]; simpl; unfold f_blocks; rewrite IH; done. Qed.

Lemma need_app l1 l2 : need (l1 ++ l2) = need l1 + need l2.
Proof. induction l1; simpl; lia. Qed.

Lemma need_nonneg l : 0 <= need l.
Proof. induction l as [| d l IH]; simpl; [lia |]; unfold with_ind; destruct (12 <? _)%nat; lia. Qed.

Definition name_on_image (arg : list Z) : list Z := skip_underscore (after_user arg).

(** The directory entry of a file *)
Definition entry (inum : nat) (name : list Z) : list Z := dirent false (Z.of_nat inum) name.

Lemma length_zero_fill l n : length (zero_fill l n) = length l.
Proof. revert l; induction n; intros [| x l]; simpl; auto. Qed.
Lemma length_strncpy l t n : length (strncpy l t n) = length l.
Proof.
  revert l t; induction n as [| n IH]; intros [| x l] t; simpl; auto.
  destruct (chr t =? 0); [by rewrite length_zero_fill | by rewrite IH].
Qed.
Lemma length_entry inum name : length (entry inum name) = 16%nat.
Proof. unfold entry, dirent; rewrite length_app, length_strncpy; done. Qed.

(** A command line argument that mkfs accepts *)
Definition arg_ok (files : list Z -> option (list Z)) (arg data : list Z) : Prop :=
  files arg = Some data /\ index_of (ch "/") (after_user arg) = false /\
  strlen (name_on_image arg) <= DIRSIZ /\ (length data <= 268 * 1024)%nat.

Lemma add_file_ok files st fs root rest arg data :
  fs_ok st fs -> contents fs = (T_DIR, root) :: rest -> arg_ok files arg data ->
  (length fs + 1 < 208)%nat -> (length root + 16 <= 268 * 1024)%nat ->
  let root' := root ++ entry (length fs + 1) (name_on_image arg) in
  need (root' :: (snd <$> rest) ++ [data]) <= nblocks ->
  exists st' fs', add_file false files 1 arg st = MOk tt st' /\ fs_ok st' fs' /\
    contents fs' = (T_DIR, root') :: rest ++ [(T_FILE, data)].
Proof.
  intros Hfs Hc (Ha1 & Ha2 & Ha3 & Ha4) Hl Hr root' Hneed.
  unfold add_file; cbv zeta; erewrite mk_bind by (unfold massert; by rewrite Ha2); rewrite Ha1; fold (name_on_image arg).
  erewrite mk_bind by (unfold massert; by rewrite (proj2 (Z.leb_le _ _) Ha3)).
  destruct (ialloc_ok st fs T_FILE) as (st1 & Hrun1 & Hfs1 & _); [done | by right | done |].
  rewrite (mk_bind _ _ _ _ _ Hrun1).
  destruct fs as [| f0 fs]; [done |]; unfold contents in Hc; cbn [fmap list_fmap] in Hc; injection Hc as Ht0 Hd0 Hrest.
  assert (Ht : total ((f0 :: fs) ++ [mkfinfo T_FILE [] [] 0]) = f_blocks f0 + need (snd <$> rest)).
  { rewrite total_app; simpl; rewrite total_need; unfold contents; rewrite Hrest.
    change (f_blocks _) with 0 at 2; lia. }
  unfold root' in Hneed; cbn [need foldr] in Hneed; fold need in Hneed; change (foldr _ 0 ?l) with (need l) in Hneed.
  rewrite need_app in Hneed; cbn [need foldr] in Hneed; rewrite length_app, length_entry in Hneed.
  pose proof (need_nonneg [data]) as Hdn; cbn [need foldr] in Hdn.
  destruct (iappend_ok st1 ((f0 :: fs) ++ [mkfinfo T_FILE [] [] 0]) 0 f0 (entry (length (f0 :: fs) + 1) (name_on_image arg)))
    as (st2 & f0' & Hrun2 & Hfs2 & Ht2 & Hd2 & _); try done.
  { rewrite length_entry, Hd0; done. }
  { rewrite Ht, length_entry, Hd0; lia. }
  change (Z.of_nat (0 + 1)) with 1 in Hrun2; rewrite (mk_bind _ _ _ _ _ Hrun2).
  set (k := length (f0 :: fs)) in *.
  assert (Hk : (<[0%nat := f0']> ((f0 :: fs) ++ [mkfinfo T_FILE [] [] 0])) = (f0' :: fs) ++ [mkfinfo T_FILE [] [] 0]) by done.
  rewrite Hk in Hfs2.
  destruct (copy_ok (S (length data)) st2 ((f0' :: fs) ++ [mkfinfo T_FILE [] [] 0]) k (mkfinfo T_FILE [] [] 0) data)
    as (st3 & f3 & Hrun3 & Hfs3 & Ht3 & Hd3); try done; [lia | | |].
  { unfold k; rewrite lookup_app_r by done; by rewrite Nat.sub_diag. }
  { rewrite total_app; cbn [total foldr]; change (f_blocks (mkfinfo T_FILE [] [] 0)) with 0.
    change (foldr _ 0 fs) with (total fs); rewrite total_need; unfold contents; rewrite Hrest.
    unfold f_blocks; rewrite Hd2, length_app, length_entry, Hd0; cbn [f_data length]; simpl (0 + _)%nat; lia. }
  exists st3, ((f0' :: fs) ++ [f3]); split; [exact Hrun3 |].
  assert (Hins : <[k := f3]> ((f0' :: fs) ++ [mkfinfo T_FILE [] [] 0]) = (f0' :: fs) ++ [f3]).
  { unfold k; change (length (f0 :: fs)) with (length (f0' :: fs)).
    rewrite insert_app_r_alt by done; by rewrite Nat.sub_diag. }
  rewrite Hins in Hfs3; split; [done |]; unfold contents; rewrite fmap_app; cbn [fmap list_fmap].
  rewrite Ht2, Hd2, Ht3, Hd3, Ht0, Hd0, Hrest; done.
Qed.

(** The directory entries of files with consecutive inode numbers *)
Fixpoint entries (inum : nat) (args : list (list Z)) : list Z :=
  match args with [] => [] | a :: l => entry inum (name_on_image a) ++ entries (S inum) l end.

Lemma length_entries inum args : length (entries inum args) = (16 * length args)%nat.
Proof.
  revert inum; induction args as [| a l IH]; intros inum; [done |]; cbn [entries length].
  rewrite length_app, length_entry, IH; lia.
Qed.

Lemma need_cons_mono a b l : (length a <= length b)%nat -> need (a :: l) <= need (b :: l).
Proof. intros H; simpl; pose proof (with_ind_mono _ _ (nblk_mono _ _ H)); lia. Qed.

Lemma files_ok files args datas st fs root rest :
  Forall2 (arg_ok files) args datas ->
  fs_ok st fs -> contents fs = (T_DIR, root) :: rest ->
  (length fs + length args < 208)%nat -> (length root + 16 * length args <= 268 * 1024)%nat ->
  let root' := root ++ entries (length fs + 1) args in
  need (root' :: (snd <$> rest) ++ datas) <= nblocks ->
  exists st' fs', mfor_ args (add_file false files 1) st = MOk tt st' /\ fs_ok st' fs' /\
    contents fs' = (T_DIR, root') :: rest ++ ((fun d => (T_FILE, d)) <$> datas).
Proof.
  intros Hargs; revert st fs root rest; induction Hargs as [| a d args datas Ha Hargs IH];
    intros st fs root rest Hfs Hc Hl Hr root' Hneed.
  - exists st, fs; split; [done |]; split; [done |]; unfold root'; cbn [entries fmap list_fmap]; by rewrite !app_nil_r.
  - cbn [length] in Hl, Hr; unfold root' in *; cbn [entries] in *.
    assert (Hlen : length (contents fs) = length fs) by (apply length_fmap).
    destruct (add_file_ok files st fs root rest a d) as (st1 & fs1 & Hrun1 & Hfs1 & Hc1); try done; [lia | lia | |].
    { etransitivity; [| exact Hneed]; etransitivity; [apply need_cons_mono with (b := root ++ entry (length fs + 1) (name_on_image a) ++ entries (S (length fs + 1)) args) |].
      - rewrite !length_app; lia.
      - pose proof (need_nonneg datas); cbn [need foldr]; change (foldr _ 0 ?l) with (need l).
        rewrite !need_app; cbn [need foldr]; change (foldr _ 0 ?l) with (need l); lia. }
    assert (Hlen1 : length fs1 = (length fs + 1)%nat).
    { pose proof (length_fmap (fun f => (f_type f, f_data f)) fs1) as E; fold (contents fs1) in E.
      rewrite Hc1 in E; rewrite Hc in Hlen; cbn [length] in *; rewrite length_app in E; cbn [length] in E; lia. }
    destruct (IH st1 fs1 (root ++ entry (length fs + 1) (name_on_image a)) (rest ++ [(T_FILE, d)]))
      as (st2 & fs2 & Hrun2 & Hfs2 & Hc2); try done.
    + lia.
    + rewrite length_app, length_entry; lia.
    + rewrite Hlen1; replace (length fs + 1 + 1)%nat with (S (length fs + 1)) by lia.
      rewrite fmap_app; cbn [fmap list_fmap snd]; rewrite <- !(assoc_L (++)); exact Hneed.
    + exists st2, fs2; split; [cbn [mfor_]; by rewrite (mk_bind _ _ _ _ _ Hrun1) |]; split; [done |].
      rewrite Hc2, Hlen1; replace (length fs + 1 + 1)%nat with (S (length fs + 1)) by lia.
      rewrite <- !(assoc_L (++)); done.
Qed.

(** ** An empty image *)

Lemma wsect_append st buf :
  m_faults st = [] -> wsect (Z.of_nat (length (m_img st))) buf st = MOk tt (st <| m_img ::= fun l => l ++ [buf] |>).
Proof.
  intros Hf; assert (E : write_sector (length (m_img st)) buf (m_img st) = m_img st ++ [buf]).
  { unfold write_sector; rewrite Nat.ltb_irrefl, Nat.sub_diag; done. }
  unfold wsect, mbind, MK_bind, host; rewrite Hf; cbn -[write_sector]; rewrite Hf; cbn -[write_sector].
  unfold mmod; rewrite Nat2Z.id; cbn -[write_sector]; unfold set_m_img; by rewrite E.
Qed.

Lemma format_run n st : m_faults st = [] ->
  mfor_ (seqZ (Z.of_nat (length (m_img st))) (Z.of_nat n)) (fun i => wsect i zero_sector) st =
  MOk tt (st <| m_img ::= fun l => l ++ replicate n zero_sector |>).
Proof.
  revert st; induction n as [| n IH]; intros st Hf.
  - destruct st; simpl; unfold set_m_img; simpl; by rewrite app_nil_r.
  - rewrite seqZ_cons by lia; cbn [mfor_]; rewrite (mk_bind _ _ _ _ _ (wsect_append st zero_sector Hf)).
    set (st1 := st <| m_img ::= fun l => l ++ [zero_sector] |>).
    replace (Z.succ (Z.of_nat (length (m_img st)))) with (Z.of_nat (length (m_img st1)))
      by (simpl; rewrite length_app; simpl; lia).
    replace (Z.pred (Z.of_nat (S n))) with (Z.of_nat n) by lia.
    rewrite IH by done; f_equal; destruct st; unfold st1; simpl; unfold set_m_img; simpl.
    by rewrite <- (assoc_L (++)).
Qed.
