(* ===== verification/MkfsRead.v ===== *)
(** What the kernel reads from the image mkfs leaves: the superblock, the inodes and
    the blocks decoded as kernel/fs.c decodes them. *)
From stdpp Require Import base list strings.
From Stdlib Require Import ZArith Lia ZifyBool Ascii.
From S2P Require Import Prelude Fcntl Memory KPrintf State Monad Log LogSpec Fs FsSpec Mkfs MkfsSpec MkfsImage.

Local Open Scope Z_scope.
Local Open Scope record_scope.

(** ** Reading an image *)

(** The inode block of [inum] by the superblock on the image, as ilock() finds it *)
Definition inode_sector (img : list (list Z)) (inum : Z) : option (list Z) :=
  s ← img !! 1%nat; img !! Z.to_nat (IBLOCK inum (sb_load s)).

(** type, nlink and size *)
Definition stat_img (img : list (list Z)) (inum : Z) : option (Z * Z * Z) :=
  d ← inode_sector img inum;
  Some (dip_type d (dip_off inum), dip_nlink d (dip_off inum), dip_size d (dip_off inum)).

(** Block [k] of a file as bmap() finds it; a block that is missing reads as zeros, since
    bmap() would allocate a zeroed one.  mkfs leaves one such block when the root directory
    has a multiple of 64 entries: fix_root() rounds its size up to a block that
    was not allocated.  The kernel gets past it only inside of a transaction: from read(), bmap() reaches
    log_write() outside of one, which panics. *)
Definition block_img (img : list (list Z)) (d : list Z) (o k : nat) : option (list Z) :=
  b ← (if (k <? 12)%nat then dip_addrs d o !! k
       else ind ← dip_addrs d o !! 12%nat; sec ← img !! Z.to_nat ind; Some (get32 sec (4 * (k - 12))));
  if b =? 0 then Some zero_sector else img !! Z.to_nat b.

(** The first [n] bytes of a file *)
Definition read_img (img : list (list Z)) (inum : Z) (n : nat) : option (list Z) :=
  d ← inode_sector img inum;
  bs ← mapM (block_img img d (dip_off inum)) (seq 0 (nblk n));
  Some (take n (concat bs)).

(** ** From the invariant *)

Lemma sub_sub d o n o' n' : (o' + n' <= n)%nat -> sub (sub d o n) o' n' = sub d (o + o') n'.
Proof. intros H; unfold sub; rewrite skipn_firstn_comm, take_take, drop_drop; f_equal; lia. Qed.

Lemma dip_addrs_lookup d o k : (k < 13)%nat -> dip_addrs d o !! k = Some (get32 (sub d o 64) (12 + 4 * k)).
Proof.
  intros Hk; unfold dip_addrs; rewrite list_lookup_fmap, lookup_seq_lt by done; simpl; f_equal.
  unfold get32; rewrite sub_sub by lia; do 2 f_equal; lia.
Qed.

Lemma block_img_ok img sec o c bl ind fb k :
  rep img (sub sec o 64) c bl ind -> own_ok fb bl ind -> (length c <= 1024 * length bl)%nat ->
  (k < length bl \/ k < 12)%nat -> block_img img sec o k = Some (pad (sub c (1024 * k) 1024)).
Proof.
  intros [H1 H2 H3 H4 H5 H6 H7] Ho Hc Hk; unfold block_img.
  destruct (decide (k < length bl)%nat) as [Hkb | Hkb].
  - destruct (lookup_lt_is_Some_2 bl k Hkb) as [b Hb]; pose proof (own_nth _ _ _ _ _ Ho Hb).
    destruct (H7 k b Hb) as (s & Hs & _ & ->).
    assert (Hnz : (b =? 0) = false) by (apply Z.eqb_neq; sizes).
    destruct (Nat.ltb_spec k 12).
    + rewrite dip_addrs_lookup by lia; cbn [mbind option_bind]; rewrite H3, (nth_lookup_0 _ _ _ Hb) by done; by rewrite Hnz.
    + destruct (H6 ltac:(lia)) as (s' & Hs' & _ & Hent).
      rewrite dip_addrs_lookup by lia; cbn [mbind option_bind]; change (12 + 4 * 12)%nat with 60%nat; rewrite H4, Hs'.
      cbn [mbind option_bind]; rewrite Hent by lia; replace (12 + (k - 12))%nat with k by lia.
      by rewrite (nth_lookup_0 _ _ _ Hb), Hnz.
  - destruct (Nat.ltb_spec k 12); [| lia].
    rewrite dip_addrs_lookup by lia; cbn [mbind option_bind]; rewrite H3, nth_ge_0 by lia.
    by rewrite sub_past by lia.
Qed.

Lemma concat_pad m c : (length c <= 1024 * m)%nat ->
  concat ((fun k => pad (sub c (1024 * k) 1024)) <$> seq 0 m) = c ++ zeros (1024 * m - length c).
Proof.
  revert c; induction m as [| m IH]; intros c Hc.
  - destruct c; [done | simpl in Hc; lia].
  - cbn [seq fmap list_fmap concat]; rewrite <- fmap_S_seq, <- list_fmap_compose.
    rewrite (list_fmap_ext _ (fun k => pad (sub (drop 1024 c) (1024 * k) 1024)))
      by (intros i k _; unfold compose, sub; rewrite drop_drop; do 4 f_equal; lia).
    rewrite IH by (rewrite length_drop; lia); unfold pad, sub, zeros; rewrite Nat.mul_0_r, drop_0.
    rewrite length_drop, length_take, <- (assoc_L (++)).
    destruct (decide (length c <= 1024)%nat) as [Hl | Hl].
    + rewrite (take_ge c), (drop_ge c) by lia; rewrite app_nil_l, <- replicate_add; do 2 f_equal; lia.
    + replace (1024 - 1024 `min` length c)%nat with 0%nat by lia; rewrite app_nil_l.
      rewrite (app_assoc (take 1024 c)), take_drop; do 2 f_equal; lia.
Qed.

(** An inode and the file it stands for, read back *)
Lemma read_back img inum sec din type n c bl ind fb :
  inode_sector img (Z.of_nat inum) = Some sec -> sub sec (dip_off (Z.of_nat inum)) 64 = din ->
  rep img din c bl ind -> own_ok fb bl ind -> length bl = nblk (length c) ->
  get32 din 8 = Z.of_nat n -> sub din 0 8 = bytes_le 2 type ++ zeros 4 ++ bytes_le 2 1 ->
  type = T_DIR \/ type = T_FILE -> (length c <= n)%nat -> (nblk n <= length bl \/ nblk n <= 12)%nat ->
  stat_img img (Z.of_nat inum) = Some (type, 1, Z.of_nat n) /\
  read_img img (Z.of_nat inum) n = Some (c ++ zeros (n - length c)).
Proof.
  intros Hsec <- Hr Ho Hl Hn Hhead Ht Hcn Hk; set (o := dip_off (Z.of_nat inum)) in *.
  assert (Hf : forall k j, (k + j <= 8)%nat -> sub sec (o + k) j = sub (bytes_le 2 type ++ zeros 4 ++ bytes_le 2 1) k j).
  { intros k j Hkj; rewrite <- Hhead, sub_sub, sub_sub by lia; done. }
  split.
  - unfold stat_img; rewrite Hsec; cbn [mbind option_bind]; fold o; unfold dip_type, dip_nlink, dip_size, get16.
    rewrite <- (Nat.add_0_r o) at 1; rewrite !Hf by lia.
    unfold get32 in Hn |- *; rewrite sub_sub in Hn by lia; rewrite Hn; by destruct Ht as [-> | ->].
  - unfold read_img; rewrite Hsec; cbn [mbind option_bind]; fold o.
    pose proof (nblk_spec (length c)); pose proof (nblk_spec n).
    assert (Hm : mapM (block_img img sec o) (seq 0 (nblk n)) =
                 Some ((fun k => pad (sub c (1024 * k) 1024)) <$> seq 0 (nblk n))).
    { apply mapM_Some, Forall2_fmap_r, Forall_Forall2_diag, Forall_forall; intros k Hin.
      apply elem_of_seq in Hin; eapply block_img_ok; try done; [lia |]; lia. }
    rewrite Hm; cbn [mbind option_bind]; rewrite concat_pad by lia; f_equal.
    rewrite take_app_ge by lia; unfold zeros; rewrite take_replicate; do 2 f_equal; lia.
Qed.

(** ** The bitmap *)

Lemma nth_zeros i n : nth i (zeros n) 0 = 0.
Proof.
  rewrite nth_lookup; destruct (zeros n !! i) eqn:E; [| done]; by apply lookup_replicate in E as [-> _].
Qed.

Lemma used_bits n : (n <= Z.to_nat BPB)%nat ->
  let buf := foldl (fun buf i => bit_set i buf) zero_sector (seqZ 0 (Z.of_nat n)) in
  length buf = Z.to_nat BSIZE /\ Forall (fun b => 0 <= b < 256) buf /\
  forall b, 0 <= b < BPB -> bit_get buf b = (b <? Z.of_nat n).
Proof.
  intros Hn buf; subst buf; induction n as [| n IH].
  - split_and!; [done | by apply Forall_replicate |]; intros b Hb; simpl.
    rewrite bit_get_testbit by lia; unfold zero_sector; rewrite nth_zeros.
    rewrite Z.testbit_0_l; lia.
  - replace (Z.of_nat (S n)) with (Z.of_nat n + 1) by lia; rewrite seqZ_app, foldl_app by lia.
    set (buf := foldl _ zero_sector (seqZ 0 (Z.of_nat n))) in *.
    replace (seqZ (0 + Z.of_nat n) 1) with [Z.of_nat n] by (unfold seqZ; cbn; f_equal; lia); cbn [foldl].
    destruct IH as (Hl & Hr & Hb); [lia |].
    destruct (bitmap_spec buf (Z.of_nat n) 0 Hl Hr) as (_ & _ & Hl' & _ & Hr' & _); [lia | change BPB with 8192; lia |].
    split_and!; [by rewrite Hl' | done |]; intros b Hbr.
    destruct (bitmap_spec buf (Z.of_nat n) b Hl Hr) as (-> & _); [lia | done |].
    rewrite Hb by done; lia.
Qed.

(** ** The whole program *)

(** "." and ".." *)
Definition dots : list Z := entry 1 (lit ".") ++ entry 1 (lit "..").

Definition root_size (n : nat) : nat := (n / 1024 + 1) * 1024.

Definition sb_sector : list Z := splice zero_sector 0 (sb_bytes false (the_sb false)).

Lemma length_sb_sector : length sb_sector = Z.to_nat BSIZE.
Proof. vm_compute; reflexivity. Qed.

Lemma empty_ok st :
  m_faults st = [] -> m_sb st = the_sb false -> m_freeblock st = nmeta -> m_freeinode st = 1 ->
  m_img st = <[1%nat := sb_sector]> (replicate (Z.to_nat FSSIZE) zero_sector) -> fs_ok st [].
Proof.
  intros Hf Hsb Hfb Hfi Hi; constructor; [constructor | ..].
  - exact Hf.
  - exact Hsb.
  - rewrite Hi, length_insert; apply length_replicate.
  - rewrite Hi; apply Forall_insert; [apply Forall_replicate, length_replicate | exact length_sb_sector].
  - rewrite Hfb; sizes.
  - intros b Hb; rewrite Hfb in Hb; rewrite Hi, list_lookup_insert_ne by sizes; apply lookup_replicate_2; sizes.
  - rewrite Hi; apply list_lookup_insert_eq; rewrite length_replicate; sizes.
  - cbn [length]; lia.
  - by rewrite Hfi.
  - rewrite Hfb; simpl; lia.
  - intros i f Hf'; by rewrite lookup_nil in Hf'.
  - intros i j f g b Hf'; by rewrite lookup_nil in Hf'.
Qed.

Lemma lookup_contents fs i t d : contents fs !! i = Some (t, d) ->
  exists f, fs !! i = Some f /\ f_type f = t /\ f_data f = d.
Proof.
  unfold contents; rewrite list_lookup_fmap; destruct (fs !! i) as [f |]; [| done]; intros [= <- <-]; by exists f.
Qed.

(** The root directory of an empty file system *)
Lemma root_ok st : fs_ok st [] ->
  exists st' f, make_root false st = MOk 1 st' /\
    fs_ok st' [f] /\ f_type f = T_DIR /\ f_data f = dots.
Proof.
  intros H0; destruct (ialloc_ok st [] T_DIR H0) as (st1 & Hr1 & H1 & _); [by left | cbn [length]; lia |].
  unfold make_root; rewrite (mk_bind _ _ _ _ _ Hr1); change (Z.of_nat (length [] + 1)) with 1.
  rewrite (mk_bind _ _ _ tt st1) by done; cbn [app] in H1.
  destruct (iappend_ok st1 [mkfinfo T_DIR [] [] 0] 0 (mkfinfo T_DIR [] [] 0) (entry 1 (lit ".")))
    as (st2 & f2 & Hr2 & H2 & Ht2 & Hd2 & _); [done | done | rewrite length_entry; cbn [length f_data]; lia | rewrite length_entry; vm_compute; done |].
  change (Z.of_nat (0 + 1)) with 1 in Hr2; rewrite (mk_bind _ _ _ _ _ Hr2); cbn [list_insert insert] in H2.
  destruct (iappend_ok st2 [f2] 0 f2 (entry 1 (lit "..")))
    as (st3 & f3 & Hr3 & H3 & Ht3 & Hd3 & _); [done | done | rewrite Hd2, length_entry; cbn [f_data app]; rewrite length_entry; lia | |].
  { simpl total; unfold f_blocks; rewrite Hd2; cbn [f_data app]; rewrite !length_entry; vm_compute; done. }
  exists st3, f3; split; [by rewrite (mk_bind _ _ _ _ _ Hr3) |]; split; [exact H3 |]; split; [by rewrite Ht3, Ht2 |].
  by rewrite Hd3, Hd2.
Qed.

Lemma m_img_set g st : m_img (st <| m_img ::= g |>) = g (m_img st).
Proof. done. Qed.

Lemma format_ok st : m_faults st = [] -> m_sb st = the_sb false -> m_freeblock st = nmeta -> m_freeinode st = 1 ->
  m_img st = [] -> exists st', format false st = MOk tt st' /\ fs_ok st' [] /\ m_sizes st' = m_sizes st.
Proof.
  intros Hf Hsb Hfb Hfi Hi; unfold format.
  pose proof (format_run (Z.to_nat FSSIZE) st Hf) as Hfmt; rewrite Hi in Hfmt.
  change (Z.of_nat (length [])) with 0 in Hfmt; rewrite Z2Nat.id in Hfmt by sizes.
  rewrite (mk_bind _ _ _ _ _ Hfmt).
  remember (st <| m_img ::= fun l => l ++ replicate (Z.to_nat FSSIZE) zero_sector |>) as st1 eqn:E1.
  assert (Hi1 : m_img st1 = replicate (Z.to_nat FSSIZE) zero_sector) by (rewrite E1, m_img_set; by rewrite Hi).
  rewrite (mk_bind _ _ _ st1 st1) by done.
  exists (st1 <| m_img ::= <[1%nat := sb_sector]> |>); split; [| split].
  - unfold sb_sector; replace (the_sb false) with (m_sb st1) by (by rewrite E1).
    change 1%nat with (Z.to_nat 1); apply wsect_run; [by rewrite E1 | rewrite Hi1, length_replicate; sizes].
  - apply empty_ok; [by rewrite E1 | by rewrite E1 | by rewrite E1 | by rewrite E1 |]; by rewrite m_img_set, Hi1.
  - by rewrite E1.
Qed.

(** An inode on the image, with the size field [n] *)
Definition inode_ok_n (st : mkst) (i : nat) (f : finfo) (n : nat) : Prop :=
  exists din, din_at (m_img st) (i + 1) = Some din /\
    file_ok st din (f_data f) (f_bl f) (f_ind f) /\ get32 din 8 = Z.of_nat n /\
    sub din 0 8 = bytes_le 2 (f_type f) ++ zeros 4 ++ bytes_le 2 1.

Lemma fix_root_ok st f fs :
  fs_ok st (f :: fs) -> (length (f_data f) < 11 * 1024)%nat ->
  exists st', fix_root false 1 st = MOk tt st' /\ img_ok st' /\ m_freeblock st' = m_freeblock st /\
    m_img st' !! 1%nat = m_img st !! 1%nat /\ inode_ok_n st' 0 f (root_size (length (f_data f))) /\
    forall i g, fs !! i = Some g -> din_ok st' (S i) g.
Proof.
  intros [Hok Hsb Hlen Hnext Hfb Hdin Hdisj] Hmax; pose proof (Hdin 0%nat f eq_refl) as Hroot.
  pose proof Hroot as (din & Hd & (Hr & Ho & Hl) & Hsz & _ & Hhead).
  set (n := Z.of_nat (root_size (length (f_data f)))).
  assert (Hn : uint_ok n).
  { unfold uint_ok, n, root_size; pose proof (Nat.Div0.div_le_mono (length (f_data f)) (11 * 1024) 1024 ltac:(lia)).
    rewrite Nat.div_mul in H by lia; lia. }
  pose proof (rp_len _ _ _ _ _ Hr) as Hd64; change sizeof_dinode with 64%nat in Hd64.
  destruct (winode_ok st 1 (put32 8 n din)) as (st1 & Hw & Hok1 & W1 & W2 & W3 & W4 & W5 & W6); [done | lia | |].
  { rewrite length_put32; [done | lia]. }
  assert (Hblk : forall i g b, (f :: fs) !! i = Some g -> b ∈ f_owned g -> m_img st1 !! Z.to_nat b = m_img st !! Z.to_nat b).
  { intros i g b Hg Hb; apply W6; pose proof (own_range _ _ _ _ (Hdin i g Hg) Hb).
    pose proof (inode_block_bound 1 ltac:(lia)); sizes. }
  exists st1; split_and!; try done.
  - unfold fix_root; rewrite (mk_bind _ _ _ _ _ (rinode_ok st 1 din Hok ltac:(lia) Hd)); cbv zeta.
    change din_size with 8%nat; rewrite hget_le, Hsz, (xint_small (Z.of_nat _)) by (unfold uint_ok; lia).
    replace ((Z.of_nat (length (f_data f)) / BSIZE + 1) * BSIZE) with n
      by (unfold n, root_size, BSIZE; rewrite Nat2Z.inj_mul, Nat2Z.inj_add, Nat2Z.inj_div; lia).
    rewrite u32_small, xint_small, hput_le by exact Hn; exact Hw.
  - apply W6; pose proof (inode_block_bound 1 ltac:(lia)); lia.
  - exists (put32 8 n din); split; [done |]; split; [split_and! |]; [| by rewrite W1 | done | split].
    + apply rep_size; eapply rep_frame; [exact Hr |]; intros b Hb; by apply (Hblk 0%nat f).
    + apply get32_put32; [lia | done].
    + rewrite <- Hhead; unfold put32; rewrite splice_outside; rewrite ?bytes_le_length; [done | lia | lia].
  - intros i g Hg; eapply din_ok_frame; [exact (Hdin (S i) g Hg) | by rewrite W1 | apply W5; lia |].
    intros b Hb; by apply (Hblk (S i) g).
Qed.

Lemma sb_load_sector : sb_load sb_sector = mksuperblock FSMAGIC 2000 1953 200 31 2 33 46.
Proof. vm_compute; reflexivity. Qed.

Lemma inode_sector_val img inum : img !! 1%nat = Some sb_sector -> (inum < 208)%nat ->
  inode_sector img (Z.of_nat inum) = img !! inode_block inum.
Proof.
  intros Hs Hi; unfold inode_sector; rewrite Hs; cbn [mbind option_bind].
  rewrite <- IBLOCK_val by done; unfold IBLOCK; rewrite sb_load_sector; done.
Qed.

(** Reading an inode of the image *)
Lemma inode_read st i f n :
  m_img st !! 1%nat = Some sb_sector -> inode_ok_n st i f n -> (i + 1 < 208)%nat ->
  f_type f = T_DIR \/ f_type f = T_FILE -> (length (f_data f) <= n)%nat ->
  (nblk n <= nblk (length (f_data f)) \/ nblk n <= 12)%nat ->
  stat_img (m_img st) (Z.of_nat (i + 1)) = Some (f_type f, 1, Z.of_nat n) /\
  read_img (m_img st) (Z.of_nat (i + 1)) n = Some (f_data f ++ zeros (n - length (f_data f))).
Proof.
  intros Hs (din & Hd & (Hr & Ho & Hl) & Hn & Hh) Hi Ht Hle Hk.
  unfold din_at in Hd; apply fmap_Some in Hd as (sec & Hsec & ->).
  eapply read_back; try done; [rewrite inode_sector_val by done; exact Hsec | by rewrite Hl].
Qed.

Lemma inode_ok_frame st st' i f n :
  inode_ok_n st i f n -> (i + 1 < 208)%nat -> m_freeblock st' = m_freeblock st ->
  (forall k, k <> 46%nat -> m_img st' !! k = m_img st !! k) -> inode_ok_n st' i f n.
Proof.
  intros (din & Hd & (Hr & Ho & Hl) & Hn & Hh) Hi Hfb Hf; exists din.
  pose proof (inode_block_bound _ Hi).
  split; [unfold din_at in *; rewrite Hf by lia; done |]; split; [| done]; split_and!; [| by rewrite Hfb | done].
  eapply rep_frame; [exact Hr |]; intros b Hb; apply Hf.
  destruct Ho as [_ Hin]; rewrite Forall_forall in Hin; pose proof (Hin b Hb); sizes.
Qed.

Lemma balloc_ok st : img_ok st -> exists st' bm, balloc (i32 (m_freeblock st)) st = MOk tt st' /\
  m_freeblock st' = m_freeblock st /\ length (m_img st') = Z.to_nat FSSIZE /\
  m_img st' !! 46%nat = Some bm /\ (forall b, 0 <= b < BPB -> bit_get bm b = (b <? m_freeblock st)) /\
  (forall k, k <> 46%nat -> m_img st' !! k = m_img st !! k).
Proof.
  intros Hok; pose proof (io_fb _ Hok) as Hfb.
  destruct (used_bits (Z.to_nat (m_freeblock st))) as (Hl & _ & Hb); [change BPB with 8192; sizes |].
  rewrite Z2Nat.id in Hl, Hb by sizes; set (bm := foldl _ _ _) in *.
  destruct (wsect_ok st 46 bm) as (st' & Hw & Hok' & E); [done | sizes | done |].
  exists st', bm; split_and!.
  - unfold balloc; rewrite i32_small by sizes.
    erewrite mk_bind by (unfold massert; rewrite (proj2 (Z.ltb_lt _ _)); [done | change BPB with 8192; sizes]).
    cbv zeta; rewrite (mk_bind _ _ _ st st) by done; rewrite (io_sb _ Hok).
    change (sb_bmapstart (the_sb false)) with 46; exact Hw.
  - by rewrite E.
  - apply Hok'.
  - rewrite E, m_img_set; apply list_lookup_insert_eq; rewrite (io_len _ Hok); sizes.
  - done.
  - intros k Hk; rewrite E, m_img_set; by rewrite list_lookup_insert_ne by done.
Qed.

(** The inodes of the image that main() leaves *)
Lemma main_run files prog imgname args datas st0 :
  m_faults st0 = [] -> m_freeinode st0 = 1 -> Forall2 (arg_ok files) args datas -> (length args < 207)%nat ->
  need ((dots ++ entries 2 args) :: datas) <= nblocks ->
  let root := dots ++ entries 2 args in
  exists st f fs bm, main false files (prog :: imgname :: args) st0 = MExit 0 st /\
    contents (f :: fs) = (T_DIR, root) :: ((fun d => (T_FILE, d)) <$> datas) /\
    length (m_img st) = Z.to_nat FSSIZE /\ m_img st !! 1%nat = Some sb_sector /\
    inode_ok_n st 0 f (root_size (length root)) /\
    (forall i g, fs !! i = Some g -> (S i + 1 < 208)%nat /\ inode_ok_n st (S i) g (length (f_data g))) /\
    m_img st !! 46%nat = Some bm /\
    forall b, 0 <= b < BPB -> bit_get bm b = (b <? nmeta + need (root :: datas)).
Proof.
  intros Hf Hfi Hargs Hlen Hneed root.
  set (st1 := st0 <| m_img := [] |> <| m_sb := the_sb false |> <| m_freeblock := nmeta |>).
  destruct (format_ok st1) as (st2 & Hr2 & H2 & _); [done.. |].
  destruct (root_ok st2 H2) as (st3 & f3 & Hr3 & H3 & Ht3 & Hd3).
  destruct (files_ok files args datas st3 [f3] dots []) as (st4 & fs4 & Hr4 & H4 & Hc4); try done.
  { unfold contents; cbn [fmap list_fmap]; by rewrite Ht3, Hd3. }
  { cbn [length]; lia. }
  { unfold dots; rewrite length_app, !length_entry; lia. }
  cbn [length fmap list_fmap app] in Hc4; change (1 + 1)%nat with 2%nat in Hc4; fold root in Hc4.
  destruct fs4 as [| f fs]; [done |].
  assert (Hfd : f_data f = root) by (unfold contents in *; by injection Hc4).
  destruct (fix_root_ok st4 f fs H4) as (st5 & Hr5 & Hok5 & Hfb5 & Hs5 & Hroot5 & Hfiles5).
  { rewrite Hfd; unfold root, dots; rewrite !length_app, !length_entry, length_entries; lia. }
  destruct (balloc_ok st5 Hok5) as (st6 & bm & Hr6 & Hfb6 & Hl6 & Hbm & Hbits & Hfr6).
  exists st6, f, fs, bm; split_and!; try done.
  - unfold main; cbn [length Nat.ltb Nat.leb]; do 2 (rewrite (mk_bind _ _ _ tt st0) by done).
    rewrite (mk_bind _ _ _ true st0) by (unfold host; by rewrite Hf); cbn [negb].
    rewrite (mk_bind _ _ _ tt st1), (mk_bind _ _ _ _ _ Hr2), (mk_bind _ _ _ _ _ Hr3) by done; cbn [drop].
    rewrite (mk_bind _ _ _ _ _ Hr4), (mk_bind _ _ _ _ _ Hr5), (mk_bind _ _ _ st5 st5) by done.
    by rewrite (mk_bind _ _ _ _ _ Hr6).
  - rewrite Hfr6, Hs5 by lia; apply H4.
  - rewrite <- Hfd; apply (inode_ok_frame st5); try done; lia.
  - intros i g Hg; pose proof (lookup_lt_Some _ _ _ Hg); pose proof (fo_len _ _ H4) as Hl4; cbn [length] in Hl4.
    split; [lia |]; destruct (Hfiles5 i g Hg) as (din & D1 & D2 & D3 & _ & D4).
    apply (inode_ok_frame st5); [by exists din | lia | done | done].
  - intros b Hb; rewrite Hbits by done; f_equal.
    rewrite Hfb5, (fo_fb _ _ H4), total_need, Hc4; do 2 f_equal; cbn [fmap list_fmap snd]; f_equal.
    rewrite <- list_fmap_compose; apply list_fmap_id.
Qed.

Lemma root_size_bounds n : (n < 11 * 1024)%nat -> (n <= root_size n)%nat /\ (nblk (root_size n) <= 12)%nat.
Proof.
  intros Hn; unfold root_size; pose proof (Nat.div_mod n 1024 ltac:(lia)); pose proof (Nat.mod_upper_bound n 1024).
  pose proof (nblk_spec ((n / 1024 + 1) * 1024)); pose proof (Nat.Div0.div_lt_upper_bound n 1024 11 ltac:(lia)); lia.
Qed.

(** C16: mkfs builds the file system it was asked for.  For every list of files with
    names and sizes it accepts, whose blocks fit on the disk, and however their
    contents arrive in reads, it exits with status 0; on the image, decoded as
    the kernel does, there are the superblock, the root directory with ".", ".."
    and one entry per file followed by free entries up to a whole number of blocks, every
    file with its contents, and a bitmap that marks the blocks in use and no
    others.  The host is little-endian and there are fewer than 207 files; a block that is not
    allocated, which ends a root directory with a multiple of 64 entries, is read as zeros. *)
Theorem mkfs_spec files prog imgname args datas st0 :
  m_faults st0 = [] -> m_freeinode st0 = 1 -> Forall2 (arg_ok files) args datas -> (length args < 207)%nat ->
  need ((dots ++ entries 2 args) :: datas) <= nblocks ->
  let root := dots ++ entries 2 args in
  exists st, main false files (prog :: imgname :: args) st0 = MExit 0 st /\
    length (m_img st) = Z.to_nat FSSIZE /\
    sb_load <$> (m_img st !! 1%nat) = Some (mksuperblock FSMAGIC 2000 1953 200 31 2 33 46) /\
    stat_img (m_img st) ROOTINO = Some (T_DIR, 1, Z.of_nat (root_size (length root))) /\
    read_img (m_img st) ROOTINO (root_size (length root)) =
      Some (root ++ zeros (root_size (length root) - length root)) /\
    (forall k d, datas !! k = Some d ->
       stat_img (m_img st) (Z.of_nat (k + 2)) = Some (T_FILE, 1, Z.of_nat (length d)) /\
       read_img (m_img st) (Z.of_nat (k + 2)) (length d) = Some d) /\
    exists bm, m_img st !! 46%nat = Some bm /\
      forall b, 0 <= b < BPB -> bit_get bm b = (b <? nmeta + need (root :: datas)).
Proof.
  intros Hf Hfi Hargs Hlen Hneed root.
  destruct (main_run files prog imgname args datas st0 Hf Hfi Hargs Hlen Hneed)
    as (st & f & fs & bm & Hrun & Hc & Hl & Hs & Hroot & Hfiles & Hbm & Hbits); fold root in Hc, Hroot, Hbits.
  unfold contents in Hc; injection Hc as Hft Hfd Hfs.
  change (contents fs = ((fun d => (T_FILE, d)) <$> datas)) in Hfs.
  assert (Hrl : (length root < 11 * 1024)%nat).
  { unfold root, dots; rewrite !length_app, !length_entry, length_entries; lia. }
  destruct (root_size_bounds _ Hrl) as [Hrs Hrb].
  destruct (inode_read st 0 f (root_size (length root))) as [Hr1 Hr2]; try done; [lia | by left | by rewrite Hfd | by right |].
  rewrite Hft in Hr1; rewrite Hfd in Hr2.
  exists st; split_and!; try done; [by rewrite Hs; simpl; rewrite sb_load_sector | | by exists bm].
  intros k d Hd; destruct (lookup_contents fs k T_FILE d) as (g & Hg & Hgt & Hgd).
  { rewrite Hfs, list_lookup_fmap, Hd; done. }
  destruct (Hfiles k g Hg) as [Hk Hin].
  destruct (inode_read st (S k) g (length (f_data g))) as [E1 E2]; try done; [by right | by left |].
  replace (S k + 1)%nat with (k + 2)%nat in E1, E2 by lia.
  rewrite Hgt, Hgd in E1; rewrite Hgd, Nat.sub_diag, app_nil_r in E2; done.
Qed.

(** Two files, "cat" and "README", read in pieces of different sizes *)
Definition demo_files (path : list Z) : option (list Z) :=
  if bool_decide (path = lit "README") then Some (replicate 4000 66) else Some (replicate 2500 65).

Lemma mkfs_spec_witness :
  exists st, main false demo_files [lit "mkfs"; lit "fs.img"; lit "user/_cat"; lit "README"] (mkst0 [] [7%nat; 1000%nat]) = MExit 0 st /\
    read_img (m_img st) 2 2500 = Some (replicate 2500 65) /\ read_img (m_img st) 3 4000 = Some (replicate 4000 66).
Proof.
  assert (H1 : Forall2 (arg_ok demo_files) [lit "user/_cat"; lit "README"] [replicate 2500 65; replicate 4000 66]).
  { apply Forall2_cons; split; [| apply Forall2_cons; split; [| apply Forall2_nil; exact I]];
      (split; [vm_compute; reflexivity | split; [vm_compute; reflexivity | split; [vm_compute; discriminate |]]]);
      rewrite length_replicate; apply Nat.leb_le; vm_compute; reflexivity. }
  assert (H2 : need ((dots ++ entries 2 [lit "user/_cat"; lit "README"]) :: [replicate 2500 65; replicate 4000 66]) <= nblocks)
    by (vm_compute; done).
  assert (H3 : (length [lit "user/_cat"; lit "README"] < 207)%nat) by (cbn [length]; lia).
  destruct (mkfs_spec demo_files (lit "mkfs") (lit "fs.img") _ _ (mkst0 [] [7%nat; 1000%nat]) eq_refl eq_refl H1 H3 H2)
    as (st & Hrun & _ & _ & _ & _ & Hfiles & _).
  exists st; split; [exact Hrun |].
  destruct (Hfiles 0%nat _ eq_refl) as [_ E1]; destruct (Hfiles 1%nat _ eq_refl) as [_ E2].
  rewrite length_replicate in E1, E2; split; [exact E1 | exact E2].
Defined.

(** On a big-endian host the magic number, alone among the fields, is not converted,
    and the kernel finds another number in its place. *)
Theorem mkfs_magic_order :
  sb_magic (sb_load (splice zero_sector 0 (sb_bytes true (the_sb true)))) = 0x40302010 /\
  sb_size (sb_load (splice zero_sector 0 (sb_bytes true (the_sb true)))) = FSSIZE.
Proof. vm_compute; done. Qed.
