(* ===== verification/Pipe.v ===== *)
(** Pipes, kernel/pipe.c (pipealloc is in File, next to filealloc and
    fileclose which it calls).

    [nread] and [nwrite] are free-running 32-bit counters; the buffer holds the
    bytes numbered [nread] to [nwrite - 1], byte [k] at index [k % PIPESIZE]. *)
From stdpp Require Import base gmap list strings.
From Stdlib Require Import ZArith Lia ZifyBool.
From S2P Require Import Prelude Memory KPrintf State Monad Demo Kalloc ProcBase Vm.

Local Open Scope Z_scope.

Definition piget (pi : Z) : K pipe :=
  m ← gets k_pipes; from_option_K (m !! pi).

Definition piset (pi : Z) (f : pipe -> pipe) : K unit :=
  x ← piget pi;
  modify (fun s => (s <| k_pipes ::= fun m => <[pi := f x]> m |>)%rec).

(** [pi->data[pi->nwrite++ % PIPESIZE] = ch;] *)
Definition pipe_put (ch : Z) (p : pipe) : pipe :=
  (p <| pi_data ::= <[Z.to_nat (pi_nwrite p mod PIPESIZE) := ch]> |>
     <| pi_nwrite := u32 (pi_nwrite p + 1) |>)%rec.

(** [ch = pi->data[pi->nread % PIPESIZE];] *)
Definition pipe_peek (p : pipe) : Z := nth (Z.to_nat (pi_nread p mod PIPESIZE)) (pi_data p) 0.

(** [pi->nread++;] *)
Definition pipe_drop (p : pipe) : pipe := (p <| pi_nread := u32 (pi_nread p + 1) |>)%rec.

Definition pipe_full (p : pipe) : bool := pi_nwrite p =? u32 (pi_nread p + PIPESIZE).
Definition pipe_empty (p : pipe) : bool := pi_nread p =? pi_nwrite p.

Section Pipe.
Context `{Linker}.

Definition pipeclose (pi : Z) (writable : bool) : K unit :=
  acquire (LPipe pi) ;;
  (if writable then
     piset pi (fun p => (p <| pi_writeopen := 0 |>)%rec) ;; wakeup (ChNread pi)
   else
     piset pi (fun p => (p <| pi_readopen := 0 |>)%rec) ;; wakeup (ChNwrite pi)) ;;
  p ← piget pi;
  if (pi_readopen p =? 0) && (pi_writeopen p =? 0) then
    release (LPipe pi) ;;
    modify (fun s => (s <| k_pipes ::= delete pi |>)%rec) ;;
    kfree pi
  else release (LPipe pi).

(** Every iteration stores a byte or sleeps. *)
Definition pipewrite (pi addr n : Z) : K Z := fun s o =>
  (pr ← curproc;
   acquire (LPipe pi) ;;
   r ← kloop (Z.to_N n + N.of_nat (length o) + 1) (fun i =>
     if negb (i <? n) then mret (inr (Some i))
     else
       p ← piget pi;
       k ← (if pi_readopen p =? 0 then mret 1 else killed pr);
       if negb (k =? 0) then
         release (LPipe pi) ;; mret (inr None)
       else if pipe_full p then
         wakeup (ChNread pi) ;;
         sleep (ChNwrite pi) (LPipe pi) ;;
         mret (inl i)
       else
         proc ← pget pr;
         x ← copyin (p_pagetable proc) (u64 (addr + i)) 1;
         let '(c, bytes) := (x : Z * list Z) in
         if c =? -1 then mret (inr (Some i))
         else
           piset pi (pipe_put (chr bytes)) ;;
           mret (inl (i + 1))) 0;
   match r with
   | None => mret (-1)
   | Some i => wakeup (ChNread pi) ;; release (LPipe pi) ;; mret i
   end) s o.

Definition piperead (pi addr n : Z) : K Z :=
  pr ← curproc;
  acquire (LPipe pi) ;;
  w ← ksleeploop (fun _ : unit =>
    p ← piget pi;
    if pipe_empty p && negb (pi_writeopen p =? 0) then
      k ← killed pr;
      if negb (k =? 0) then release (LPipe pi) ;; mret (inr false)
      else sleep (ChNread pi) (LPipe pi) ;; mret (inl tt)
    else mret (inr true)) tt;
  if negb w then mret (-1)
  else
    i ← kloop (Z.to_N n + 1) (fun i =>
      if negb (i <? n) then mret (inr i)
      else
        p ← piget pi;
        if pipe_empty p then mret (inr i)
        else
          let ch := pipe_peek p in
          proc ← pget pr;
          c ← copyout (p_pagetable proc) (u64 (addr + i)) [ch] 1;
          if c =? -1 then mret (inr (if i =? 0 then -1 else i))
          else
            piset pi pipe_drop ;;
            mret (inl (i + 1))) 0;
    wakeup (ChNwrite pi) ;;
    release (LPipe pi) ;;
    mret i.

End Pipe.
