(* ===== verification/PipeSpec.v ===== *)
(** A pipe is a bounded queue of bytes: what put, peek and drop do to its
    contents although the counters wrap, and what pipewrite and piperead move
    between it and user memory. *)
From stdpp Require Import base gmap list strings.
From Stdlib Require Import ZArith Lia ZifyBool.
From S2P Require Import Prelude Memory KPrintf State Monad Demo Kalloc ProcBase Vm Frame VmSpec Pipe.

Local Open Scope Z_scope.

(** ** The queue *)

Definition pipe_len (p : pipe) : Z := u32 (pi_nwrite p - pi_nread p).

Definition pipe_byte (p : pipe) (k : Z) : Z :=
  nth (Z.to_nat (u32 (pi_nread p + k) mod PIPESIZE)) (pi_data p) 0.

(** The bytes in the pipe, oldest first. *)
Definition pipe_contents (p : pipe) : list Z := pipe_byte p <$> seqZ 0 (pipe_len p).

Definition pipe_wf (p : pipe) : Prop :=
  length (pi_data p) = Z.to_nat PIPESIZE /\
  0 <= pi_nread p < 2 ^ 32 /\ 0 <= pi_nwrite p < 2 ^ 32 /\ pipe_len p <= PIPESIZE.

(** What a queue of at most [PIPESIZE] bytes promises. *)
Class Queue (Q : Type) := {
  q_wf : Q -> Prop;
  q_list : Q -> list Z;
  q_put : Z -> Q -> Q;
  q_peek : Q -> Z;
  q_drop : Q -> Q;
  q_isfull : Q -> bool;
  q_isempty : Q -> bool;
  q_bound : forall q, q_wf q -> Z.of_nat (length (q_list q)) <= PIPESIZE;
  q_full_iff : forall q, q_wf q -> q_isfull q = true <-> Z.of_nat (length (q_list q)) = PIPESIZE;
  q_empty_iff : forall q, q_wf q -> q_isempty q = true <-> q_list q = [];
  q_put_spec : forall q b, q_wf q -> q_isfull q = false ->
    q_wf (q_put b q) /\ q_list (q_put b q) = q_list q ++ [b];
  q_drop_spec : forall q, q_wf q -> q_isempty q = false ->
    q_wf (q_drop q) /\ q_list q = q_peek q :: q_list (q_drop q)
}.

Lemma u32_mod_pipesize x : u32 x mod PIPESIZE = x mod PIPESIZE.
Proof.
  unfold u32, PIPESIZE; rewrite <- Znumtheory.Zmod_div_mod; [done | lia | lia |].
  exists (2 ^ 23); done.
Qed.

Lemma u32_cong x y : (exists k, x = y + k * 2 ^ 32) -> u32 x = u32 y.
Proof. intros [k ->]; unfold u32; apply Z_mod_plus_full. Qed.

Lemma u32_wrap x : exists k, u32 x = x + k * 2 ^ 32.
Proof. exists (- (x / 2 ^ 32)); unfold u32; rewrite Z.mod_eq by lia; lia. Qed.

Lemma pipe_byte_mod p k : pipe_byte p k = nth (Z.to_nat ((pi_nread p + k) mod PIPESIZE)) (pi_data p) 0.
Proof. unfold pipe_byte; rewrite u32_mod_pipesize; done. Qed.

Lemma pipe_len_range p : 0 <= pipe_len p.
Proof. apply u32_range. Qed.

Lemma length_pipe_contents p : Z.of_nat (length (pipe_contents p)) = pipe_len p.
Proof.
  unfold pipe_contents; rewrite length_fmap, length_seqZ; pose proof (pipe_len_range p); lia.
Qed.

(** The write counter, as a number of bytes after the read counter. *)
Lemma pipe_nwrite p : pipe_wf p -> exists k, pi_nwrite p = pi_nread p + pipe_len p + k * 2 ^ 32.
Proof.
  intros _; unfold pipe_len; destruct (u32_wrap (pi_nwrite p - pi_nread p)) as [k ->].
  exists (- k); lia.
Qed.

Lemma pipe_full_len p : pipe_wf p -> pipe_full p = true <-> pipe_len p = PIPESIZE.
Proof.
  intros Hwf; pose proof Hwf as (_ & Hr & Hw & Hl); unfold pipe_full; rewrite Z.eqb_eq.
  pose proof (pipe_len_range p); destruct (pipe_nwrite p Hwf) as [k Hk].
  destruct (u32_wrap (pi_nread p + PIPESIZE)) as [j Hj].
  pose proof (u32_range (pi_nread p + PIPESIZE)); unfold PIPESIZE in *; lia.
Qed.

Lemma pipe_empty_len p : pipe_wf p -> pipe_empty p = true <-> pipe_len p = 0.
Proof.
  intros Hwf; pose proof Hwf as (_ & Hr & Hw & Hl); unfold pipe_empty; rewrite Z.eqb_eq.
  pose proof (pipe_len_range p); destruct (pipe_nwrite p Hwf) as [k Hk]; unfold PIPESIZE in *; lia.
Qed.

Lemma pipe_put_spec p b :
  pipe_wf p -> pipe_full p = false ->
  pipe_wf (pipe_put b p) /\ pipe_contents (pipe_put b p) = pipe_contents p ++ [b].
Proof.
  intros Hwf Hf; pose proof Hwf as (Hd & Hr & Hw & Hl); pose proof (pipe_len_range p).
  assert (Hlt : pipe_len p < PIPESIZE).
  { pose proof (proj2 (pipe_full_len p Hwf)); destruct (Z.eq_dec (pipe_len p) PIPESIZE); [| lia].
    intuition congruence. }
  destruct (pipe_nwrite p Hwf) as [k Hk].
  assert (Hlen : pipe_len (pipe_put b p) = pipe_len p + 1).
  { unfold pipe_len at 1; simpl; destruct (u32_wrap (pi_nwrite p + 1)) as [j ->].
    rewrite (u32_cong _ (pipe_len p + 1)) by (exists (k + j); lia).
    apply u32_small; unfold PIPESIZE in *; lia. }
  assert (Hidx : pi_nwrite p mod PIPESIZE = (pi_nread p + pipe_len p) mod PIPESIZE).
  { rewrite Hk, <- u32_mod_pipesize, (u32_cong _ (pi_nread p + pipe_len p)) by eauto.
    apply u32_mod_pipesize. }
  split.
  - split; [simpl; rewrite length_insert; done |]; simpl; split; [done |].
    split; [apply u32_range |]; rewrite Hlen; lia.
  - unfold pipe_contents; rewrite Hlen, seqZ_app, fmap_app by lia; f_equal.
    + apply list_fmap_ext; intros i j Hi; apply lookup_seqZ in Hi as [-> Hi].
      rewrite !pipe_byte_mod; simpl; rewrite !nth_lookup, list_lookup_insert_ne; [done |].
      rewrite Hidx; intros E; apply Z2Nat.inj in E; [| apply Z.mod_pos_bound; done..].
      rewrite !Z.mod_eq in E by done; unfold PIPESIZE in *; lia.
    + rewrite Z.add_0_l, seqZ_cons, seqZ_nil by lia; simpl; f_equal.
      rewrite pipe_byte_mod; simpl; rewrite <- Hidx; apply nth_lookup_Some, list_lookup_insert_eq.
      rewrite Hd; pose proof (Z.mod_pos_bound (pi_nwrite p) PIPESIZE ltac:(done)); lia.
Qed.

Lemma pipe_drop_spec p :
  pipe_wf p -> pipe_empty p = false ->
  pipe_wf (pipe_drop p) /\ pipe_contents p = pipe_peek p :: pipe_contents (pipe_drop p).
Proof.
  intros Hwf He; pose proof Hwf as (Hd & Hr & Hw & Hl); pose proof (pipe_len_range p).
  assert (Hpos : 0 < pipe_len p).
  { pose proof (proj2 (pipe_empty_len p Hwf)); destruct (Z.eq_dec (pipe_len p) 0); [| lia].
    intuition congruence. }
  destruct (pipe_nwrite p Hwf) as [k Hk].
  assert (Hlen : pipe_len (pipe_drop p) = pipe_len p - 1).
  { unfold pipe_len at 1; simpl; destruct (u32_wrap (pi_nread p + 1)) as [j ->].
    rewrite (u32_cong _ (pipe_len p - 1)) by (exists (k - j); lia).
    apply u32_small; unfold PIPESIZE in *; lia. }
  split.
  - split; [done |]; simpl; split; [apply u32_range |]; split; [done |]; rewrite Hlen; lia.
  - unfold pipe_contents; rewrite Hlen.
    rewrite seqZ_cons by lia; cbn [fmap list_fmap]; f_equal.
    + rewrite pipe_byte_mod, Z.add_0_r; done.
    + apply list_eq; intros i; rewrite !list_lookup_fmap.
      destruct (decide (i < Z.to_nat (pipe_len p - 1))%nat).
      * rewrite !lookup_seqZ_lt by lia; simpl; f_equal; rewrite !pipe_byte_mod; simpl.
        do 2 f_equal; rewrite <- (u32_mod_pipesize (u32 _ + _)).
        destruct (u32_wrap (pi_nread p + 1)) as [j ->].
        rewrite (u32_cong _ (pi_nread p + (Z.succ 0 + Z.of_nat i))) by (exists j; lia).
        rewrite u32_mod_pipesize; done.
      * rewrite !lookup_seqZ_ge by lia; done.
Qed.

#[export] Instance pipe_queue : Queue pipe.
Proof.
  refine {| q_wf := pipe_wf; q_list := pipe_contents; q_put := pipe_put; q_peek := pipe_peek;
            q_drop := pipe_drop; q_isfull := pipe_full; q_isempty := pipe_empty |}.
  - intros p (_ & _ & _ & Hl); rewrite length_pipe_contents; done.
  - intros p Hp; rewrite length_pipe_contents; by apply pipe_full_len.
  - intros p Hp; rewrite pipe_empty_len by done; rewrite <- length_pipe_contents.
    rewrite <- length_zero_iff_nil; lia.
  - intros p b; apply pipe_put_spec.
  - intros p; apply pipe_drop_spec.
Defined.

(** a pipe is a FIFO queue of at most 512 bytes.  Its 32-bit counters wrap
    without harm: starting from any well-formed state, a byte put into a pipe
    that is not full comes last, and the byte read next is the oldest one;
    nwrite == nread + PIPESIZE tells a full pipe and nread == nwrite an empty
    one. *)
Theorem pipe_fifo (p : pipe) (b : Z) (Hwf : pipe_wf p) :
  (pipe_full p = true <-> Z.of_nat (length (pipe_contents p)) = PIPESIZE) /\
  (pipe_empty p = true <-> pipe_contents p = []) /\
  (pipe_full p = false ->
     pipe_wf (pipe_put b p) /\ pipe_contents (pipe_put b p) = pipe_contents p ++ [b]) /\
  (pipe_empty p = false ->
     pipe_wf (pipe_drop p) /\ pipe_contents p = pipe_peek p :: pipe_contents (pipe_drop p)).
Proof.
  pose proof (q_full_iff (Queue := pipe_queue) p Hwf); pose proof (q_empty_iff (Queue := pipe_queue) p Hwf).
  pose proof (q_put_spec (Queue := pipe_queue) p b Hwf); pose proof (q_drop_spec (Queue := pipe_queue) p Hwf).
  done.
Qed.

(** Counters about to wrap: two bytes written, numbered 2^32 - 1 and 0. *)
Definition demo_pipe : pipe := mkpipe (replicate (Z.to_nat PIPESIZE) 0) (2 ^ 32 - 1) (2 ^ 32 - 1) 1 1.

Lemma pipe_fifo_witness :
  pipe_contents (pipe_put 8 (pipe_put 7 demo_pipe)) = [7; 8] /\
  pi_nwrite (pipe_put 8 (pipe_put 7 demo_pipe)) = 1.
Proof.
  assert (Hwf : pipe_wf demo_pipe) by (vm_compute; intuition congruence).
  destruct (pipe_fifo demo_pipe 7 Hwf) as (_ & _ & H7 & _).
  destruct (H7 eq_refl) as [Hwf7 Hc7].
  destruct (pipe_fifo (pipe_put 7 demo_pipe) 8 Hwf7) as (_ & _ & H8 & _).
  destruct (H8 eq_refl) as [_ Hc8].
  split; [rewrite Hc8, Hc7; reflexivity | reflexivity].
Defined.

(** ** Moving bytes *)

Lemma piget_ok pi p s o : k_pipes s !! pi = Some p -> piget pi s o = Ok p s o.
Proof. intros H; unfold piget; rewrite gets_bind, H; done. Qed.

Lemma piset_ok pi p f s o :
  k_pipes s !! pi = Some p -> piset pi f s o = Ok tt (s <| k_pipes ::= <[pi := f p]> |>)%rec o.
Proof. intros H; unfold piset; erewrite bind_ok by (by apply piget_ok); done. Qed.

(** The ends of a pipe that are open. *)
Definition same_ends (p p' : pipe) : Prop :=
  pi_readopen p' = pi_readopen p /\ pi_writeopen p' = pi_writeopen p.

(** A state inside pipewrite or piperead: the pipe and memory have changed. *)
Definition in_pipe (pi : Z) (p : pipe) (m : mem) (s : kstate) : kstate :=
  (s <| k_locks := [LPipe pi] |> <| k_mem := m |> <| k_pipes ::= <[pi := p]> |>)%rec.

Lemma in_pipe_set pi p q m s :
  (in_pipe pi p m s <| k_pipes ::= <[pi := q]> |> = in_pipe pi q m s)%rec.
Proof. unfold in_pipe; destruct s; state_norm; simpl; by rewrite insert_insert_eq. Qed.

Lemma in_pipe_start pi p s :
  k_locks s = [] -> k_pipes s !! pi = Some p ->
  (s <| k_locks ::= cons (LPipe pi) |>)%rec = in_pipe pi p (k_mem s) s.
Proof. unfold in_pipe; destruct s; simpl; intros -> Hp; state_norm; by rewrite insert_id. Qed.

Section PipeIO.
Context `{Linker}.

Lemma killed_in_pipe pr proc pi p m s o :
  k_procs s !! pr = Some proc -> killed pr (in_pipe pi p m s) o = Ok (p_killed proc) (in_pipe pi p m s) o.
Proof. intros Hp; apply killed_run; [done | set_solver]. Qed.

(** Leaving the pipe's lock after waking the other end. *)
Lemma pipe_leave {A} pr ch pi p m s (v : A) o :
  procs_ok s -> k_cur s = Some pr -> k_locks s = [] ->
  (wakeup ch ;; release (LPipe pi) ;; mret v) (in_pipe pi p m s) o =
  Ok v (s <| k_mem := m |> <| k_pipes ::= <[pi := p]> |>
          <| k_procs ::= imap (wake1 (Some pr) ch) |>)%rec o.
Proof.
  intros Hlen Hcur Hl; erewrite bind_ok by (apply wakeup_run; [done | intros i; set_solver]).
  step_with release_ok; rewrite ret_ok; f_equal; unfold in_pipe; destruct s; state_norm.
  simpl in *; subst; rewrite decide_True by done; done.
Qed.

Lemma user_range_addr m pt perm va len i :
  user_range m pt perm va len -> 0 <= i < len -> u64 (va + i) = va + i.
Proof.
  intros Hr Hi; destruct (Hr (va + i)) as [Hb _]; [lia |].
  change MAXVA with (2 ^ 38) in Hb; apply u64_small; lia.
Qed.

(** C33: write(n) by a process that was not killed, from a buffer it has mapped, to a pipe with room for n bytes and an open read end appends
    the n bytes of the caller's buffer to the contents of the pipe in order,
    wakes the readers and returns n. *)
Theorem pipewrite_spec (pr : nat) (proc : proc) (pi addr n : Z) (p : pipe) (s : kstate) (o : oracle)
  (Hlen : procs_ok s) (Hcur : k_cur s = Some pr) (Hl : k_locks s = [])
  (Hpr : k_procs s !! pr = Some proc) (Hk : p_killed proc = 0)
  (Hp : k_pipes s !! pi = Some p) (Hwf : pipe_wf p) (Hopen : pi_readopen p <> 0)
  (Hn : 0 <= n) (Hroom : Z.of_nat (length (pipe_contents p)) + n <= PIPESIZE)
  (Hmap : user_range (k_mem s) (p_pagetable proc) PTE_V addr n) :
  exists p', pipewrite pi addr n s o =
      Ok n (s <| k_pipes ::= <[pi := p']> |> <| k_procs ::= imap (wake1 (Some pr) (ChNread pi)) |>)%rec o /\
    pipe_wf p' /\ same_ends p p' /\
    pipe_contents p' = pipe_contents p ++ user_bytes (k_mem s) (p_pagetable proc) addr n.
Proof.
  unfold pipewrite; step_with curproc_ok; step_with acquire_ok; [| rewrite Hl; set_solver].
  set (P := fun i (s' : kstate) => exists p', s' = in_pipe pi p' (k_mem s) s /\ pipe_wf p' /\
    same_ends p p' /\ pipe_contents p' = pipe_contents p ++ user_bytes (k_mem s) (p_pagetable proc) addr i).
  match goal with |- context [kloop ?m ?body 0] =>
    destruct (kloop_count body P (P n) n (Some n) m (s <| k_locks ::= cons (LPipe pi) |>)%rec o)
      as (s' & Hr & p' & -> & Hwf' & Hends & Hc) end.
  - done.
  - lia.
  - intros i s' Hi (p' & -> & Hwf' & [Hro Hwo] & Hc); replace (i <? n) with true by lia; cbn [negb].
    erewrite bind_ok by (apply piget_ok; simpl; apply lookup_insert_eq).
    rewrite Hro; replace (pi_readopen p =? 0) with false by lia.
    erewrite bind_ok by (by apply killed_in_pipe); rewrite Hk; cbn [negb Z.eqb].
    assert (Hnf : pipe_full p' = false).
    { apply not_true_is_false; rewrite pipe_full_len by done; rewrite <- length_pipe_contents, Hc.
      rewrite length_app; unfold user_bytes; rewrite length_fmap, length_seqZ; lia. }
    rewrite Hnf; erewrite bind_ok by (by apply pget_ok).
    rewrite (user_range_addr _ _ _ _ _ _ Hmap Hi).
    erewrite bind_ok by (apply copyin_run; [lia |]; intros a Ha; apply Hmap; lia); cbn [Z.eqb].
    erewrite bind_ok by (apply piset_ok; simpl; apply lookup_insert_eq).
    eexists; split; [done |].
    destruct (pipe_put_spec p' (chr (user_bytes (k_mem s) (p_pagetable proc) (addr + i) 1)) Hwf' Hnf)
      as [Hw2 Hc2].
    eexists; split; [apply in_pipe_set |].
    split; [exact Hw2 |]; split; [done |].
    etransitivity; [exact Hc2 |]; rewrite Hc, <- app_assoc, user_bytes_app by lia; done.
  - intros s' HP; exists s'; replace (n <? n) with false by lia; done.
  - exists p; split; [by apply in_pipe_start |].
    split; [done |]; split; [done |]; rewrite app_nil_r; done.
  - erewrite bind_ok by exact Hr; cbn iota; exists p'; rewrite (pipe_leave pr) by done.
    split; [f_equal; destruct s; done | done].
Qed.

(** One more byte stored by copyout after [bs]. *)
Lemma copyout_next pt va len bs b m s o :
  user_range (k_mem s) pt PTE_W va len -> user_separate (k_mem s) pt va len ->
  user_store (k_mem s) pt va bs m -> Z.of_nat (length bs) < len ->
  exists m', copyout pt (va + Z.of_nat (length bs)) [b] 1 (s <| k_mem := m |>)%rec o =
      Ok 0 (s <| k_mem := m' |>)%rec o /\
    user_store (k_mem s) pt va (bs ++ [b]) m'.
Proof.
  intros Hr Hs Hst Hlt; set (n := Z.of_nat (length bs)) in *.
  destruct (user_store_translation _ _ _ _ _ bs m va Hr Hs Hst) as (Hr1 & Hs1 & Hp1); [lia | lia |].
  destruct (copyout_run pt (va + n) [b] 1 (s <| k_mem := m |>)%rec o) as (m' & Hc & Hst').
  - intros a Ha; apply Hr1; lia.
  - split; intros x y Hx Hy; apply Hs1; lia.
  - simpl; lia.
  - exists m'; split; [rewrite Hc; destruct s; done |].
    eapply user_store_app; [| | exact Hst | exact Hst'].
    + split; intros x y Hx Hy; apply Hs; simpl in *; lia.
    + intros x Hx; apply Hp1; simpl in *; lia.
Qed.

(** C34: read(n) into a writable user buffer from a pipe that is not empty, or whose write end is closed,
    returns k = min(n, bytes in the pipe): the k oldest bytes are in the
    caller's buffer, in order, and are gone from the pipe; an empty pipe gives
    0, end of file; the writers are woken. *)
Theorem piperead_spec (pr : nat) (proc : proc) (pi addr n : Z) (p : pipe) (s : kstate) (o : oracle)
  (Hlen : procs_ok s) (Hcur : k_cur s = Some pr) (Hl : k_locks s = [])
  (Hpr : k_procs s !! pr = Some proc)
  (Hp : k_pipes s !! pi = Some p) (Hwf : pipe_wf p)
  (Hready : pipe_contents p <> [] \/ pi_writeopen p = 0) (Hn : 0 <= n)
  (Hmap : user_range (k_mem s) (p_pagetable proc) PTE_W addr n)
  (Hsep : user_separate (k_mem s) (p_pagetable proc) addr n) :
  let k := Z.min n (Z.of_nat (length (pipe_contents p))) in
  exists p' m', piperead pi addr n s o =
      Ok k (s <| k_mem := m' |> <| k_pipes ::= <[pi := p']> |>
              <| k_procs ::= imap (wake1 (Some pr) (ChNwrite pi)) |>)%rec o /\
    pipe_wf p' /\ same_ends p p' /\
    pipe_contents p = take (Z.to_nat k) (pipe_contents p) ++ pipe_contents p' /\
    user_store (k_mem s) (p_pagetable proc) addr (take (Z.to_nat k) (pipe_contents p)) m'.
Proof.
  intros k; unfold piperead; step_with curproc_ok; step_with acquire_ok; [| rewrite Hl; set_solver].
  rewrite (in_pipe_start pi p) by done.
  erewrite bind_ok.
  2:{ apply ksleeploop_ret; erewrite bind_ok by (apply piget_ok; simpl; apply lookup_insert_eq).
      replace (pipe_empty p && negb (pi_writeopen p =? 0)) with false; [done |].
      destruct Hready as [Hne | ->]; [| by rewrite andb_false_r].
      destruct (pipe_empty p) eqn:E; [| done]; apply (q_empty_iff (Queue := pipe_queue) p Hwf) in E; done. }
  cbn [negb].
  set (P := fun i (s' : kstate) => exists p' m', s' = in_pipe pi p' m' s /\ pipe_wf p' /\
    same_ends p p' /\ pipe_contents p = take (Z.to_nat i) (pipe_contents p) ++ pipe_contents p' /\
    user_store (k_mem s) (p_pagetable proc) addr (take (Z.to_nat i) (pipe_contents p)) m').
  match goal with |- context [kloop ?m ?body 0] =>
    destruct (kloop_count body P (P k) k k m (in_pipe pi p (k_mem s) s) o)
      as (s' & Hr & p' & m' & -> & Hwf' & Hends & Hc & Hst) end.
  - lia.
  - lia.
  - intros i s' Hi (p' & m' & -> & Hwf' & Hends & Hc & Hst).
    replace (i <? n) with true by lia; cbn [negb].
    erewrite bind_ok by (apply piget_ok; simpl; apply lookup_insert_eq).
    assert (Hlt : length (take (Z.to_nat i) (pipe_contents p)) = Z.to_nat i) by (rewrite length_take; lia).
    assert (Hne : pipe_empty p' = false).
    { apply not_true_is_false; intros E; apply (q_empty_iff (Queue := pipe_queue) p' Hwf') in E.
      change (pipe_contents p' = []) in E.
      apply (f_equal length) in Hc; rewrite E, length_app in Hc; simpl in Hc; lia. }
    destruct (pipe_drop_spec p' Hwf' Hne) as [Hw2 Hc2].
    rewrite Hne; erewrite bind_ok by (by apply pget_ok).
    rewrite (user_range_addr _ _ _ _ _ i Hmap) by lia.
    destruct (copyout_next (p_pagetable proc) addr n (take (Z.to_nat i) (pipe_contents p))
      (pipe_peek p') m' (in_pipe pi p' (k_mem s) s) o Hmap Hsep Hst) as (m2 & Hco & Hst2); [lia |].
    rewrite Hlt, Z2Nat.id in Hco by lia.
    assert (Hco' : copyout (p_pagetable proc) (addr + i) [pipe_peek p'] 1 (in_pipe pi p' m' s) o =
      Ok 0 (in_pipe pi p' m2 s) o) by (destruct s; exact Hco).
    erewrite bind_ok by exact Hco'; cbn [Z.eqb].
    erewrite bind_ok by (apply piset_ok; simpl; apply lookup_insert_eq).
    eexists; split; [done |]; exists (pipe_drop p'), m2; split; [apply in_pipe_set |].
    assert (Htake : take (Z.to_nat (i + 1)) (pipe_contents p) =
      take (Z.to_nat i) (pipe_contents p) ++ [pipe_peek p']).
    { replace (Z.to_nat (i + 1)) with (S (Z.to_nat i)) by lia; apply take_S_r.
      rewrite Hc, Hc2, lookup_app_r by lia; rewrite Hlt, Nat.sub_diag; done. }
    rewrite Htake; split; [done |]; split; [done |]; split; [| done].
    rewrite <- app_assoc; simpl; rewrite <- Hc2; exact Hc.
  - intros s' (p' & m' & -> & Hwf' & Hends & Hc & Hst).
    eexists; split; [| exists p', m'; done].
    destruct (Z.ltb_spec k n); cbn [negb]; [| done].
    erewrite bind_ok by (apply piget_ok; simpl; apply lookup_insert_eq).
    replace (pipe_empty p') with true; [done |]; symmetry.
    apply (q_empty_iff (Queue := pipe_queue) p' Hwf'); change (pipe_contents p' = []).
    apply (f_equal length) in Hc; rewrite length_app, length_take in Hc; apply nil_length_inv; lia.
  - exists p, (k_mem s); split_and!; done.
  - erewrite bind_ok by exact Hr; exists p', m'; rewrite (pipe_leave pr) by done; done.
Qed.

End PipeIO.

(** Process 1 on the demonstration page table and an open pipe. *)
Definition demo_pipe_state (p : pipe) : kstate :=
  (demo_user <| k_procs ::= upd 1 (fun _ => zero_proc <| p_state := RUNNING |>
                                              <| p_pagetable := demo_page 0 |>) |>
             <| k_cur := Some 1%nat |> <| k_pipes := {[ 0x87000000 := p ]} |>)%rec.

Lemma pipewrite_spec_witness :
  exists p', pipewrite (H := demo_linker) 0x87000000 4100 3 (demo_pipe_state demo_pipe) [] =
    Ok 3 (demo_pipe_state demo_pipe <| k_pipes ::= <[0x87000000 := p']> |>
            <| k_procs ::= imap (wake1 (Some 1%nat) (ChNread 0x87000000)) |>)%rec [] /\
    length (pipe_contents p') = 3%nat.
Proof.
  destruct (pipewrite_spec (H := demo_linker) 1
    (zero_proc <| p_state := RUNNING |> <| p_pagetable := demo_page 0 |>)%rec 0x87000000 4100 3
    demo_pipe (demo_pipe_state demo_pipe) [] ltac:(by vm_compute) eq_refl eq_refl eq_refl eq_refl
    eq_refl ltac:(vm_compute; intuition congruence) ltac:(done) ltac:(lia)
    ltac:(vm_compute; congruence)
    ltac:(intros a Ha; eapply user_mapped_weaken, (demo_user_mapped 4100 3); plia))
    as (p' & Hw & _ & _ & Hc).
  exists p'; split; [exact Hw | rewrite Hc; reflexivity].
Defined.

Lemma piperead_spec_witness :
  exists p' m', piperead (H := demo_linker) 0x87000000 4100 10
      (demo_pipe_state (pipe_put 8 (pipe_put 7 demo_pipe))) [] =
    Ok 2 (demo_pipe_state (pipe_put 8 (pipe_put 7 demo_pipe)) <| k_mem := m' |>
            <| k_pipes ::= <[0x87000000 := p']> |>
            <| k_procs ::= imap (wake1 (Some 1%nat) (ChNwrite 0x87000000)) |>)%rec [] /\
    pipe_contents p' = [].
Proof.
  destruct (piperead_spec (H := demo_linker) 1
    (zero_proc <| p_state := RUNNING |> <| p_pagetable := demo_page 0 |>)%rec 0x87000000 4100 10
    (pipe_put 8 (pipe_put 7 demo_pipe)) (demo_pipe_state (pipe_put 8 (pipe_put 7 demo_pipe))) []
    ltac:(by vm_compute) eq_refl eq_refl eq_refl
    eq_refl ltac:(vm_compute; intuition congruence) ltac:(left; done) ltac:(lia)
    (demo_user_mapped 4100 10 ltac:(plia) ltac:(plia))
    (demo_user_separate 4100 10 ltac:(plia) ltac:(plia))) as (p' & m' & Hr & _ & _ & Hc & _).
  assert (E : pipe_contents (pipe_put 8 (pipe_put 7 demo_pipe)) = [7; 8]) by (by vm_compute).
  rewrite E in Hr, Hc; exists p', m'; split; [exact Hr |].
  apply (app_inv_head [7; 8]); rewrite app_nil_r; symmetry; exact Hc.
Defined.
