(* ===== verification/File.v ===== *)
(** Open files, kernel/file.c, and pipealloc of kernel/pipe.c.

    A pointer into [ftable.file] is an index.  The device switch [devsw] holds
    function pointers filled in at boot (console.c); it is an interface here. *)
From stdpp Require Import base gmap list strings.
From Stdlib Require Import ZArith Lia ZifyBool.
From S2P Require Import Prelude Memory KPrintf State Monad Demo Kalloc ProcBase Vm Sleeplock Bio Log Fs Pipe.

Local Open Scope Z_scope.

(** [devsw[major].read(1, addr, n)] and [.write]; [None] is a NULL pointer. *)
Class DevSwitch := {
  devsw_read : Z -> option (Z -> Z -> K Z);
  devsw_write : Z -> option (Z -> Z -> K Z)
}.

Definition fget (i : nat) : K file :=
  t ← gets k_ftable; from_option_K (t !! i).
Definition fset (i : nat) (f : file -> file) : K unit :=
  _ ← fget i; modify (fun s => (s <| k_ftable ::= upd i f |>)%rec).

Definition fileinit : K unit := initlock LFtable.

Definition filealloc : K (option nat) :=
  acquire LFtable ;;
  r ← kfor (seq 0 NFILE) (fun f (_ : unit) =>
    x ← fget f;
    if f_ref x =? 0 then
      fset f (fun x => (x <| f_ref := 1 |>)%rec) ;;
      release LFtable ;;
      mret (inr f)
    else mret (inl tt)) tt;
  match r with
  | inr f => mret (Some f)
  | inl _ => release LFtable ;; mret None
  end.

Definition filedup (f : nat) : K nat :=
  acquire LFtable ;;
  x ← fget f;
  if f_ref x <? 1 then panic "filedup"
  else
    fset f (fun x => (x <| f_ref := f_ref x + 1 |>)%rec) ;;
    release LFtable ;;
    mret f.

Section File.
Context `{Linker} `{BlockDevice} `{DevSwitch}.

Definition fileclose (f : nat) : K unit :=
  acquire LFtable ;;
  x ← fget f;
  if f_ref x <? 1 then panic "fileclose"
  else
    fset f (fun x => (x <| f_ref := f_ref x - 1 |>)%rec) ;;
    ff ← fget f;
    if 0 <? f_ref ff then release LFtable
    else
      fset f (fun x => (x <| f_ref := 0 |>)%rec) ;;
      fset f (fun x => (x <| f_type := FD_NONE |>)%rec) ;;
      release LFtable ;;
      match f_type ff with
      | FD_PIPE => pipeclose (f_pipe ff) (negb (f_writable ff =? 0))
      | FD_INODE | FD_DEVICE =>
          ip ← from_option_K (f_ip ff);
          begin_op ;; iput ip ;; end_op
      | FD_NONE => mret tt
      end.

(** The bytes of a struct stat: 4 bytes of padding precede the size. *)
Definition stat_bytes (st : stat) : list Z :=
  bytes_le 4 (st_dev st) ++ bytes_le 4 (st_ino st) ++ bytes_le 2 (st_type st) ++
  bytes_le 2 (st_nlink st) ++ zeros 4 ++ bytes_le 8 (st_size st).

Definition filestat (f : nat) (addr : Z) : K Z :=
  p ← curproc;
  x ← fget f;
  match f_type x with
  | FD_INODE | FD_DEVICE =>
      ip ← from_option_K (f_ip x);
      ilock ip ;;
      st ← stati ip;
      iunlock ip ;;
      pr ← pget p;
      c ← copyout (p_pagetable pr) addr (stat_bytes st) 24;
      if c <? 0 then mret (-1) else mret 0
  | _ => mret (-1)
  end.

Definition fileread (f : nat) (addr n : Z) : K Z :=
  x ← fget f;
  if f_readable x =? 0 then mret (-1)
  else
    match f_type x with
    | FD_PIPE => piperead (f_pipe x) addr n
    | FD_DEVICE =>
        if (f_major x <? 0) || (NDEV <=? f_major x) then mret (-1)
        else match devsw_read (f_major x) with
             | None => mret (-1)
             | Some rd => rd addr n
             end
    | FD_INODE =>
        ip ← from_option_K (f_ip x);
        ilock ip ;;
        x ← fget f;
        r ← readi ip (DUser addr) (f_off x) (u32 n);
        let r := fst (r : Z * list Z) in
        kwhen (0 <? r) (fset f (fun x => (x <| f_off := u32 (f_off x + r) |>)%rec)) ;;
        iunlock ip ;;
        mret r
    | FD_NONE => panic "fileread"
    end.

(** [((MAXOPBLOCKS-1-1-2) / 2) * BSIZE] *)
Definition filewrite_max : Z := ((MAXOPBLOCKS - 1 - 1 - 2) / 2) * BSIZE.

Definition filewrite (f : nat) (addr n : Z) : K Z :=
  x ← fget f;
  if f_writable x =? 0 then mret (-1)
  else
    match f_type x with
    | FD_PIPE => pipewrite (f_pipe x) addr n
    | FD_DEVICE =>
        if (f_major x <? 0) || (NDEV <=? f_major x) then mret (-1)
        else match devsw_write (f_major x) with
             | None => mret (-1)
             | Some wr => wr addr n
             end
    | FD_INODE =>
        ip ← from_option_K (f_ip x);
        i ← kloop (Z.to_N (n / filewrite_max) + 2) (fun i =>
          if negb (i <? n) then mret (inr i)
          else
            let n1 := Z.min (n - i) filewrite_max in
            begin_op ;;
            ilock ip ;;
            x ← fget f;
            r ← writei ip (SUser (u64 (addr + i))) (f_off x) n1;
            kwhen (0 <? r) (fset f (fun x => (x <| f_off := u32 (f_off x + r) |>)%rec)) ;;
            iunlock ip ;;
            end_op ;;
            if negb (r =? n1) then mret (inr i)
            else mret (inl (i + r))) 0;
        mret (if i =? n then n else -1)
    | FD_NONE => panic "filewrite"
    end.

(** ** pipealloc *)

(** The struct pipe a fresh page is used as: its data array keeps the bytes
    of the page, 24 bytes after the spinlock at its start. *)
Definition pipe_of_page (m : mem) (pi : Z) : pipe :=
  mkpipe (load_bytes (Z.to_nat PIPESIZE) m (pi + 24)) 0 0 1 1.

(** The label bad: of pipealloc, with [pi] still NULL there. *)
Definition pipealloc_bad (f0 f1 : option nat) : K (option (nat * nat)) :=
  match f0 with Some f => fileclose f | None => mret tt end ;;
  match f1 with Some f => fileclose f | None => mret tt end ;;
  mret None.

(** The two files on success, [None] for the result -1. *)
Definition pipealloc : K (option (nat * nat)) :=
  f0 ← filealloc;
  match f0 with
  | None => pipealloc_bad None None
  | Some f0 =>
      f1 ← filealloc;
      match f1 with
      | None => pipealloc_bad (Some f0) None
      | Some f1 =>
          pi ← kalloc;
          if pi =? 0 then pipealloc_bad (Some f0) (Some f1)
          else
            modify (fun s => (s <| k_pipes ::= fun m => <[pi := pipe_of_page (k_mem s) pi]> m |>)%rec) ;;
            initlock (LPipe pi) ;;
            fset f0 (fun x => (x <| f_type := FD_PIPE |> <| f_readable := 1 |>
                                 <| f_writable := 0 |> <| f_pipe := pi |>)%rec) ;;
            fset f1 (fun x => (x <| f_type := FD_PIPE |> <| f_readable := 0 |>
                                 <| f_writable := 1 |> <| f_pipe := pi |>)%rec) ;;
            mret (Some (f0, f1))
      end
  end.

End File.

(** A machine without devices, for examples. *)
Definition demo_devsw : DevSwitch := {| devsw_read := fun _ => None; devsw_write := fun _ => None |}.
