(* ===== verification/Proc.v ===== *)
(** The life of a process, kernel/proc.c: allocation, fork, threads, exit, wait,
    waitpid, getchildren, process information, signals and messages. *)
From stdpp Require Import base gmap list strings.
From Stdlib Require Import ZArith Lia ZifyBool.
From S2P Require Import Prelude Memory KPrintf State Monad Demo Kalloc ProcBase Vm Sleeplock Bio Log Fs Pipe File.

Local Open Scope Z_scope.

(** [(uint64)-1], the handler of a signal that has none. *)
Definition NOHANDLER : Z := u64 (-1).

(** [fork_count >= 10] refuses a fork. *)
Definition FORK_LIMIT : Z := 10.

(** struct procinfo *)
Record procinfo := mkprocinfo { pi_pid : Z; pi_state : Z; pi_sz : Z; pi_name : list Z }.

Definition procinfo_bytes (i : procinfo) : list Z :=
  bytes_le 4 (pi_pid i) ++ bytes_le 4 (pi_state i) ++ bytes_le 4 (pi_sz i) ++ pi_name i.

(** [static char *states[]] of procdump *)
Definition states (st : procstate) : list Z :=
  match st with
  | UNUSED => lit "unused" | USED => lit "used" | SLEEPING => lit "sleep "
  | RUNNABLE => lit "runble" | RUNNING => lit "run   " | ZOMBIE => lit "zombie"
  end.

Definition procdump : K unit :=
  printf "\n" [] ;;
  kfor_ (seq 0 NPROC) (fun p =>
    pr ← pget p;
    kwhen (negb (bool_decide (p_state pr = UNUSED)))
      (printf "%d %s %s" [VInt (p_pid pr); VStr (Some (states (p_state pr))); VStr (Some (p_name pr))] ;;
       printf "\n" [])).

Section Proc.
Context `{Linker} `{BlockDevice} `{DevSwitch}.

Definition procinit : K unit :=
  initlock LPid ;;
  initlock LWait ;;
  kfor_ (seq 0 NPROC) (fun p =>
    initlock (LProc p) ;;
    pset p (fun pr => (pr <| p_state := UNUSED |>)%rec) ;;
    pset p (fun pr => (pr <| p_kstack := KSTACK (Z.of_nat p) |>)%rec)).

(** ** Page tables of processes *)

Definition proc_pagetable (tf : Z) : K Z :=
  pagetable ← uvmcreate;
  if pagetable =? 0 then mret 0
  else
    r ← mappages pagetable TRAMPOLINE PGSIZE trampoline (Z.lor PTE_R PTE_X);
    if r <? 0 then uvmfree pagetable 0 ;; mret 0
    else
      r ← mappages pagetable TRAPFRAME PGSIZE tf (Z.lor PTE_R PTE_W);
      if r <? 0 then
        uvmunmap pagetable TRAMPOLINE 1 false ;;
        uvmfree pagetable 0 ;;
        mret 0
      else mret pagetable.

Definition proc_freepagetable (pagetable sz : Z) : K unit :=
  uvmunmap pagetable TRAMPOLINE 1 false ;;
  uvmunmap pagetable TRAPFRAME 1 false ;;
  uvmfree pagetable sz.

(** ** Allocation *)

Definition freeproc (p : nat) : K unit :=
  pr ← pget p;
  kwhen (negb (p_trapframe pr =? 0))
    (modify (fun s => (s <| k_tf ::= delete (p_trapframe pr) |>)%rec) ;;
     kfree (p_trapframe pr)) ;;
  pset p (fun pr => (pr <| p_trapframe := 0 |>)%rec) ;;
  kwhen (negb (p_pagetable pr =? 0)) (proc_freepagetable (p_pagetable pr) (p_sz pr)) ;;
  pset p (fun pr => (pr <| p_pagetable := 0 |> <| p_sz := 0 |> <| p_pid := 0 |>
                        <| p_parent := None |> <| p_name ::= <[0%nat := 0]> |>
                        <| p_chan := ChNull |> <| p_killed := 0 |> <| p_xstate := 0 |>
                        <| p_ipc_ready := 0 |> <| p_ipc_len := 0 |>
                        <| p_state := UNUSED |>)%rec).

(** The fields allocproc sets under the label found:, before it allocates. *)
Definition alloc_fields (pid : Z) (pr : proc) : proc :=
  (pr <| p_pid := pid |> <| p_state := USED |>
      <| p_pending_signals := 0 |> <| p_handling_signal := 0 |>
      <| p_ipc_ready := 0 |> <| p_ipc_len := 0 |>
      <| p_signal_handlers := replicate NSIG NOHANDLER |>
      <| p_ipc_msg := replicate (Z.to_nat IPC_MAX_MSG) 0 |>
      <| p_fork_count := 0 |>)%rec.

(** The statements after the label found: of allocproc. *)
Definition allocproc_found (p : nat) : K (option nat) :=
  pid ← allocpid;
  pset p (alloc_fields pid) ;;
  tf ← kalloc;
  pset p (fun pr => (pr <| p_trapframe := tf |>)%rec) ;;
  if tf =? 0 then
    freeproc p ;; release (LProc p) ;; mret None
  else
    modify (fun s => (s <| k_tf ::= fun m => <[tf := tf_load (k_mem s) tf]> m |>)%rec) ;;
    pt ← proc_pagetable tf;
    pset p (fun pr => (pr <| p_pagetable := pt |>)%rec) ;;
    if pt =? 0 then
      freeproc p ;; release (LProc p) ;; mret None
    else
      pset p (fun pr => (pr <| p_context :=
        mkcontext forkret_addr (u64 (p_kstack pr + PGSIZE)) (replicate 12 0) |>)%rec) ;;
      mret (Some p).

(** The result holds its own lock. *)
Definition allocproc : K (option nat) :=
  r ← kfor (seq 0 NPROC) (fun p (_ : unit) =>
    acquire (LProc p) ;;
    pr ← pget p;
    if bool_decide (p_state pr = UNUSED) then mret (inr p)
    else release (LProc p) ;; mret (inl tt)) tt;
  match r with
  | inl _ => mret None
  | inr p => allocproc_found p
  end.

Definition growproc (n : Z) : K Z :=
  p ← curproc;
  pr ← pget p;
  let sz := p_sz pr in
  if 0 <? n then
    if TRAPFRAME <? u64 (sz + n) then mret (-1)
    else
      sz ← uvmalloc (p_pagetable pr) sz (u64 (sz + n)) PTE_W;
      if sz =? 0 then mret (-1)
      else pset p (fun pr => (pr <| p_sz := sz |>)%rec) ;; mret 0
  else
    sz ← (if n <? 0 then uvmdealloc (p_pagetable pr) sz (u64 (sz + n)) else mret sz);
    pset p (fun pr => (pr <| p_sz := sz |>)%rec) ;;
    mret 0.

(** ** fork and thread_create *)

(** [for(i = 0; i < NOFILE; i++) if(p->ofile[i]) np->ofile[i] = filedup(p->ofile[i]);] *)
Definition dup_files (p np : nat) : K unit :=
  kfor_ (seq 0 NOFILE) (fun i =>
    pr ← pget p;
    match p_ofile pr !! i with
    | None => fault
    | Some None => mret tt
    | Some (Some f) =>
        f' ← filedup f;
        pset np (fun pr => (pr <| p_ofile ::= <[i := Some f']> |>)%rec)
    end).

(** The body kfork and thread_fork share; [settf] is what they do to the new
    trapframe after copying the parent's. *)
Definition fork_body (settf : trapframe -> trapframe) : K Z :=
  p ← curproc;
  pr ← pget p;
  if FORK_LIMIT <=? p_fork_count pr then mret (-1)
  else
    np ← allocproc;
    match np with
    | None => mret (-1)
    | Some np =>
        npr ← pget np;
        r ← uvmcopy (p_pagetable pr) (p_pagetable npr) (p_sz pr);
        if r <? 0 then
          freeproc np ;; release (LProc np) ;; mret (-1)
        else
          pset np (fun npr => (npr <| p_sz := p_sz pr |>)%rec) ;;
          tf ← tfget (p_trapframe pr);
          tfset (p_trapframe npr) (fun _ => tf) ;;
          tfset (p_trapframe npr) settf ;;
          dup_files p np ;;
          cwd ← from_option_K (p_cwd pr);
          cwd' ← idup cwd;
          pset np (fun npr => (npr <| p_cwd := Some cwd' |>)%rec) ;;
          pset np (fun npr => (npr <| p_name ::= fun n => safestrcpy n (p_name pr) 16 |>)%rec) ;;
          npr ← pget np;
          let pid := p_pid npr in
          release (LProc np) ;;
          acquire LWait ;;
          pset np (fun npr => (npr <| p_parent := Some p |>)%rec) ;;
          release LWait ;;
          acquire (LProc np) ;;
          pset np (fun npr => (npr <| p_state := RUNNABLE |>)%rec) ;;
          release (LProc np) ;;
          pset p (fun pr => (pr <| p_fork_count := i32 (p_fork_count pr + 1) |>)%rec) ;;
          mret pid
    end.

Definition kfork : K Z := fork_body (tf_set Ta0 0).

Definition thread_fork (func arg : Z) : K Z :=
  fork_body (fun tf => tf_set Ta0 arg (tf_set Tepc func tf)).

(** ** Inspection *)

(** The loop variables of a loop without early exit. *)
Definition from_inl {A} (r : A + Empty_set) : A :=
  match r with inl a => a | inr e => match e with end end.

Definition kgetproccount : K Z :=
  r ← kfor (seq 0 NPROC) (fun p (count : Z) =>
    acquire (LProc p) ;;
    pr ← pget p;
    release (LProc p) ;;
    mret (inl (B := Z) (if negb (bool_decide (p_state pr = UNUSED)) then count + 1 else count))) 0;
  mret (match r with inl c => c | inr c => c end).

(** [info] is the struct as the caller passes it; the second result is the
    struct after the call. *)
Definition kgetprocinfo (pid : Z) (info : procinfo) : K (Z * procinfo) :=
  r ← kfor (seq 0 NPROC) (fun p (_ : unit) =>
    acquire (LProc p) ;;
    pr ← pget p;
    if (p_pid pr =? pid) && negb (bool_decide (p_state pr = UNUSED)) then
      let info := mkprocinfo (p_pid pr) (procstate_Z (p_state pr)) (i32 (p_sz pr))
                    (safestrcpy (pi_name info) (p_name pr) PROC_NAME_MAX) in
      release (LProc p) ;;
      mret (inr (0, info))
    else
      release (LProc p) ;;
      mret (inl tt)) tt;
  mret (match r with inr x => x | inl _ => (-1, info) end).

Definition kgetchildren (addr maxn : Z) : K Z :=
  p ← curproc;
  acquire LWait ;;
  r ← kfor (seq 0 NPROC) (fun pp '(pids, n) =>
    ppr ← pget pp;
    if bool_decide (p_parent ppr = Some p) && negb (bool_decide (p_state ppr = UNUSED))
       && negb (bool_decide (p_state ppr = ZOMBIE)) then
      mret (inl (B := Empty_set) (if n <? maxn then (pids ++ [p_pid ppr], n + 1) else (pids, n + 1)))
    else mret (inl (pids, n))) ([], 0);
  release LWait ;;
  let '(pids, n) := from_inl r in
  let tocopy := if n <? maxn then n else maxn in
  pr ← pget p;
  if negb (addr =? 0) then
    c ← copyout (p_pagetable pr) addr (concat (bytes_le 4 <$> pids)) (u64 (tocopy * 4));
    if c <? 0 then mret (-1) else mret n
  else mret n.

(** ** exit and wait *)

(** The address of a process as a channel. *)
Definition proc_chan (p : option nat) : chan :=
  match p with Some i => ChProc i | None => ChNull end.

Definition reparent (p : nat) : K unit :=
  kfor_ (seq 0 NPROC) (fun pp =>
    ppr ← pget pp;
    kwhen (bool_decide (p_parent ppr = Some p))
      (init ← gets k_initproc;
       pset pp (fun ppr => (ppr <| p_parent := init |>)%rec) ;;
       wakeup (proc_chan init))).

Definition close_files (p : nat) : K unit :=
  kfor_ (seq 0 NOFILE) (fun fd =>
    pr ← pget p;
    match p_ofile pr !! fd with
    | None => fault
    | Some None => mret tt
    | Some (Some f) =>
        fileclose f ;;
        pset p (fun pr => (pr <| p_ofile ::= <[fd := None]> |>)%rec)
    end).

(** From acquire(&wait_lock) on. *)
Definition kexit_tail (p : nat) (status : Z) : K unit :=
  acquire LWait ;;
  reparent p ;;
  pr ← pget p;
  wakeup (proc_chan (p_parent pr)) ;;
  acquire (LProc p) ;;
  pset p (fun pr => (pr <| p_xstate := status |>)%rec) ;;
  pset p (fun pr => (pr <| p_state := ZOMBIE |>)%rec) ;;
  release LWait ;;
  sched ;;
  panic "zombie exit".

Definition kexit (status : Z) : K unit :=
  p ← curproc;
  pr ← pget p;
  match p_parent pr with
  | Some pa => pset pa (fun x => (x <| p_fork_count := i32 (p_fork_count x - 1) |>)%rec)
  | None => mret tt
  end ;;
  init ← gets k_initproc;
  if bool_decide (Some p = init) then panic "init exiting"
  else
    close_files p ;;
    begin_op ;;
    pr ← pget p;
    cwd ← from_option_K (p_cwd pr);
    iput cwd ;;
    end_op ;;
    pset p (fun pr => (pr <| p_cwd := None |>)%rec) ;;
    kexit_tail p status.

(** Collect the zombie [pp]: copy its status out and free it. *)
Definition reap (p pp : nat) (addr : Z) (ret : Z) : K Z :=
  ppr ← pget pp;
  pr ← pget p;
  c ← (if negb (addr =? 0) then copyout (p_pagetable pr) addr (bytes_le 4 (p_xstate ppr)) 4
       else mret 0);
  if c <? 0 then
    release (LProc pp) ;; release LWait ;; mret (-1)
  else
    freeproc pp ;; release (LProc pp) ;; release LWait ;; mret ret.

(** One scan of the table by kwaitpid: [inr (Some v)] returns [v], [inr None]
    is the break after a child that has not exited. *)
Definition waitpid_scan (p : nat) (pid addr : Z) : K (unit + option Z) :=
  kfor (seq 0 NPROC) (fun pp (_ : unit) =>
    ppr ← pget pp;
    if bool_decide (p_parent ppr = Some p) && (p_pid ppr =? pid) then
      acquire (LProc pp) ;;
      ppr ← pget pp;
      if bool_decide (p_state ppr = ZOMBIE) then
        v ← reap p pp addr pid; mret (inr (Some v))
      else
        release (LProc pp) ;; mret (inr None)
    else mret (inl tt)) tt.

(** One iteration of the for(;;) loop of kwaitpid. *)
Definition waitpid_body (p : nat) (pid addr : Z) (_ : unit) : K (unit + Z) :=
  r ← waitpid_scan p pid addr;
  match r with
  | inr (Some v) => mret (inr v)
  | _ =>
      let found_child := match r with inr _ => true | inl _ => false end in
      k ← (if found_child then killed p else mret 1);
      if negb (k =? 0) then release LWait ;; mret (inr (-1))
      else sleep (ChProc p) LWait ;; mret (inl tt)
  end.

Definition kwaitpid (pid addr : Z) : K Z :=
  p ← curproc;
  acquire LWait ;;
  ksleeploop (waitpid_body p pid addr) tt.

(** One scan by kwait: [inl havekids] when no child has exited. *)
Definition wait_scan (p : nat) (addr : Z) : K (bool + Z) :=
  kfor (seq 0 NPROC) (fun pp (havekids : bool) =>
    ppr ← pget pp;
    if bool_decide (p_parent ppr = Some p) then
      acquire (LProc pp) ;;
      ppr ← pget pp;
      if bool_decide (p_state ppr = ZOMBIE) then
        v ← reap p pp addr (p_pid ppr); mret (inr v)
      else
        release (LProc pp) ;; mret (inl true)
    else mret (inl havekids)) false.

(** One iteration of the for(;;) loop of kwait. *)
Definition wait_body (p : nat) (addr : Z) (_ : unit) : K (unit + Z) :=
  r ← wait_scan p addr;
  match r with
  | inr v => mret (inr v)
  | inl havekids =>
      k ← (if (havekids : bool) then killed p else mret 1);
      if negb (k =? 0) then release LWait ;; mret (inr (-1))
      else sleep (ChProc p) LWait ;; mret (inl tt)
  end.

Definition kwait (addr : Z) : K Z :=
  p ← curproc;
  acquire LWait ;;
  ksleeploop (wait_body p addr) tt.

(** ** Signals *)

Definition ksigsend (pid signum : Z) : K Z :=
  r ← kfor (seq 0 NPROC) (fun p (_ : unit) =>
    acquire (LProc p) ;;
    pr ← pget p;
    if p_pid pr =? pid then
      pset p (fun pr => (pr <| p_pending_signals :=
        Z.lor (p_pending_signals pr) (u32 (Z.shiftl 1 signum)) |>)%rec) ;;
      release (LProc p) ;;
      mret (inr 0)
    else
      release (LProc p) ;;
      mret (inl tt)) tt;
  mret (match r with inr v => v | inl _ => -1 end).

(** ** Messages *)

(** Overwrite the first bytes of an array. *)
Definition fill (bs l : list Z) : list Z := bs ++ drop (length bs) l.

Definition kipc_send (pid src n : Z) : K Z :=
  sender ← curproc;
  if n <? 0 then mret (-1)
  else
    let n := if IPC_MAX_MSG <? n then IPC_MAX_MSG else n in
    spr ← pget sender;
    x ← (if 0 <? n then copyin (p_pagetable spr) src n else mret (0, []));
    let '(c, msg) := (x : Z * list Z) in
    if c <? 0 then mret (-1)
    else
      acquire LWait ;;
      r ← kfor (seq 0 NPROC) (fun target (_ : unit) =>
        tpr ← pget target;
        if (p_pid tpr =? pid) && negb (bool_decide (p_state tpr = UNUSED)) then
          if negb (p_ipc_ready tpr =? 0) then
            release LWait ;; mret (inr (-1))
          else
            kwhen (0 <? n) (pset target (fun t => (t <| p_ipc_msg ::= fill msg |>)%rec)) ;;
            pset target (fun t => (t <| p_ipc_len := n |>)%rec) ;;
            pset target (fun t => (t <| p_ipc_ready := 1 |>)%rec) ;;
            wakeup (ChProc target) ;;
            release LWait ;;
            mret (inr n)
        else mret (inl tt)) tt;
      match r with
      | inr v => mret v
      | inl _ => release LWait ;; mret (-1)
      end.

Definition kipc_recv (dst n : Z) : K Z :=
  p ← curproc;
  if n <? 0 then mret (-1)
  else
    acquire LWait ;;
    ksleeploop (fun _ : unit =>
      pr ← pget p;
      if negb (p_ipc_ready pr =? 0) then
        let m := if n <? p_ipc_len pr then n else p_ipc_len pr in
        c ← (if 0 <? m then copyout (p_pagetable pr) dst (p_ipc_msg pr) m else mret 0);
        if c <? 0 then release LWait ;; mret (inr (-1))
        else
          pset p (fun pr => (pr <| p_ipc_ready := 0 |>)%rec) ;;
          pset p (fun pr => (pr <| p_ipc_len := 0 |>)%rec) ;;
          release LWait ;;
          mret (inr m)
      else
        k ← killed p;
        if negb (k =? 0) then release LWait ;; mret (inr (-1))
        else sleep (ChProc p) LWait ;; mret (inl tt)) tt.

(** ** Boot *)

Definition userinit : K unit :=
  p ← allocproc;
  modify (fun s => (s <| k_initproc := p |>)%rec) ;;
  p ← from_option_K p;
  cwd ← namei [slash];
  pset p (fun pr => (pr <| p_cwd := cwd |>)%rec) ;;
  pset p (fun pr => (pr <| p_state := RUNNABLE |>)%rec) ;;
  release (LProc p).

End Proc.
