(* ===== verification/ProcVmSpec.v ===== *)
(** The address space of a process: proc_pagetable and proc_freepagetable of
    kernel/proc.c on the trees of PtSpec.v. *)
From stdpp Require Import base gmap list strings.
From Stdlib Require Import ZArith Lia ZifyBool.
From S2P Require Import Prelude Memory KPrintf State Monad Demo Kalloc ProcBase Vm Frame VmSpec PtSpec UvmSpec Sleeplock Bio Log Fs Pipe File Proc.

Local Open Scope Z_scope.

(** ** Page tables of processes *)

(** No table at all *)
Definition t_none : ptree := mkptree ∅ ∅.

Lemma t_pages_none : t_pages t_none = [].
Proof. unfold t_pages, t_none; cbn [t_nodes]; by rewrite map_to_list_empty. Qed.

(** The pages of the trampoline and the trapframe by their number *)
Lemma high_pages : exists t : nat, Z.of_nat (t + 1) * PGSIZE = TRAMPOLINE /\ Z.of_nat t * PGSIZE = TRAPFRAME.
Proof. exists (Z.to_nat 67108862); split; [rewrite Nat2Z.inj_add |]; rewrite Z2Nat.id by lia; done. Qed.

Lemma high_paths t :
  Z.of_nat (t + 1) * PGSIZE = TRAMPOLINE -> Z.of_nat t * PGSIZE = TRAPFRAME ->
  upath (t + 1) = vpath TRAMPOLINE /\ upath t = vpath TRAPFRAME.
Proof. unfold upath; by intros -> ->. Qed.

Lemma high_bound t : Z.of_nat (t + 1) * PGSIZE = TRAMPOLINE -> Z.of_nat (t + 1 + 1) * PGSIZE <= MAXVA.
Proof. change TRAMPOLINE with (2 ^ 38 - 4096); change MAXVA with (2 ^ 38); plia. Qed.

Section ProcVm.
Context `{Linker} (Hend : 0 < kend).

Lemma none_inv s l : alloc_inv s l -> LKmem ∉ k_locks s -> vm_inv s t_none l.
Proof.
  intros HA Hlk; constructor; [constructor | done | | done]; unfold t_none; cbn [t_nodes t_leaf];
    intros *; rewrite ?lookup_empty; try done.
Qed.

(** A fresh table *)
Lemma uvmcreate_run s l o :
  vm_inv s t_none l ->
  (l = [] /\ uvmcreate s o = Ok 0 s o) \/
  exists q l' s', uvmcreate s o = Ok q s' o /\ q <> 0 /\ page_ok q /\
    grown s s' t_none (mkptree {[ [] := q ]} ∅) l l' [].
Proof using Hend.
  intros HI; pose proof HI as [_ HA _ Hlk]; destruct l as [| q l].
  - left; split; [done |]; unfold uvmcreate; destruct HA as [Hf _].
    erewrite bind_ok by (by apply kalloc_run_empty); done.
  - right; destruct (kalloc_inv Hend q l s HA) as (Hfl & Hq0 & Hq & _).
    pose proof (alloc_fill Hend q (fun m => memset m q 0 PGSIZE) s t_none l HI
      ltac:(intros m b Hb; cbv beta; rewrite memset_spec; replace (_ && _) with false by plia; done)) as G; cbv zeta in G.
    exists q, l, (kalloc_result q s <| k_mem ::= fun m => memset m q 0 PGSIZE |>)%rec; split.
    { unfold uvmcreate; erewrite bind_ok by (apply kalloc_run_page; [lia | done]); rewrite Hfl.
      replace (q =? 0) with false by lia; unfold set_mem; by rewrite modify_bind. }
    split; [done |]; split; [done |]; set (s' := (_ <| k_mem ::= _ |>)%rec) in *.
    assert (Hz : forall b, q <= b < q + PGSIZE -> mget (k_mem s') b = 0).
    { intros b Hb; unfold s'; rewrite fill_mem, memset_spec; replace (_ && _) with true by plia; done. }
    destruct G as [[_ HA' _ Hlk'] _ HP Hrs Hf]; clearbody s'; constructor; [constructor | | | done | done].
    + by apply pt_rep_empty.
    + done.
    + intros a p Ha; cbn [t_nodes] in Ha; apply lookup_singleton_Some in Ha as [_ <-].
      destruct HA as [_ [Hn _]%NoDup_cons]; done.
    + done.
    + apply map_empty_subseteq.
    + unfold t_pages; cbn [t_nodes]; rewrite !map_to_list_singleton; unfold t_none; cbn [t_nodes]; rewrite map_to_list_empty; done.
Qed.

(** The entries of a process's table that are not the user's *)
Definition kernel_leaves (tf : Z) : gmap (list Z) Z :=
  <[vpath TRAPFRAME := map_pte tf (Z.lor PTE_R PTE_W)]>
    (<[vpath TRAMPOLINE := map_pte trampoline (Z.lor PTE_R PTE_X)]> ∅).

(** Freeing a table without entries *)
Lemma uvmfree_none root s0 l0 s T l o :
  grown s0 s t_none T l0 l [] -> t_nodes T !! [] = Some root -> t_leaf T = ∅ ->
  exists s' l', uvmfree root 0 s o = Ok tt s' o /\ grown s0 s' t_none t_none l0 l' [].
Proof using Hend.
  intros G Hroot Hleaf; pose proof (gw_inv _ _ _ _ _ _ _ G) as HI; assert (Hn : npages 0 = 0%nat) by done.
  destruct (uvmfree_run Hend root 0 s T l o HI Hroot) as (s' & l' & Hr & HA & HP & Hrs & Hf); rewrite ?Hn.
  - split; [done | by vm_compute].
  - intros a _; by rewrite Hleaf, lookup_empty.
  - constructor.
  - by eapply vm_pages_nodup.
  - exists s', l'; split; [done |]; rewrite Hn in HP, Hf; change (upages (t_leaf T) 0 0) with (@nil Z) in *.
    rewrite app_nil_l in HP; rewrite app_nil_r in Hf; constructor.
    + apply none_inv; [done |]; rewrite (rest_locks _ _ Hrs); apply HI.
    + done.
    + rewrite <- (gw_pages _ _ _ _ _ _ _ G), HP; done.
    + rewrite Hrs; apply G.
    + intros b Hb; rewrite Hf; [by apply G |]; intros Hc; apply Hb; revert Hc; apply in_pages_sub; intros p Hp.
      rewrite <- (gw_pages _ _ _ _ _ _ _ G); set_solver.
Qed.

(** Unmapping pages that are kept *)
Lemma grown_unmap_keep lo n root s0 s T0 T l0 l own o :
  grown s0 s T0 T l0 l own -> t_nodes T !! [] = Some root -> Z.of_nat (lo + n) * PGSIZE <= MAXVA ->
  exists s', uvmunmap root (Z.of_nat lo * PGSIZE) (Z.of_nat n) false s o = Ok tt s' o /\
    grown s0 s' T0 (with_leaves T (unmap lo n (t_leaf T))) l0 l own.
Proof using Hend.
  intros G Hroot HM; pose proof (gw_inv _ _ _ _ _ _ _ G) as HI.
  destruct (uvmunmap_run Hend n root false lo s T l o HI Hroot HM) as (s' & Hr & HI' & Hrs & Hf).
  - constructor.
  - by eapply vm_pages_nodup.
  - exists s'; split; [done |]; constructor; [done | apply G | apply G | rewrite Hrs; apply G |].
    intros b Hb; rewrite Hf; [by apply G |]; intros Hc; apply Hb; revert Hc; apply in_pages_sub; intros p Hp.
    rewrite <- (gw_pages _ _ _ _ _ _ _ G); cbn [freed] in Hp; set_solver.
Qed.

(** The linker puts the trampoline on a page of its own. *)
Context (Htr : 0 <= trampoline < 2 ^ 56 /\ trampoline mod PGSIZE = 0).

Lemma high_ne : vpath TRAPFRAME <> vpath TRAMPOLINE.
Proof. by vm_compute. Qed.

(** proc_pagetable: a table with the trampoline and the trapframe, or none. *)
Lemma proc_pagetable_run tf s l o :
  vm_inv s t_none l -> page_ok tf ->
  exists r s' T' l', proc_pagetable tf s o = Ok r s' o /\
    ((r <> 0 /\ grown s s' t_none T' l l' [] /\ t_nodes T' !! [] = Some r /\ t_leaf T' = kernel_leaves tf) \/
     (r = 0 /\ grown s s' t_none t_none l l' [])).
Proof using Hend Htr.
  intros HI Htf; destruct (page_ok_bound tf Hend Htf) as [Htb Hta], Htr as [Hrb Hra].
  unfold proc_pagetable; destruct (uvmcreate_run s l o HI) as [[-> Hc] | (q & l1 & s1 & Hc & Hq0 & Hq & G1)];
    erewrite bind_ok by exact Hc; [exists 0, s, t_none, []; split; [done |]; right; split; [done | by apply vm_grown_refl] |].
  replace (q =? 0) with false by lia.
  destruct (mappages_one Hend q TRAMPOLINE trampoline (Z.lor PTE_R PTE_X) s1 _ l1 o (gw_inv _ _ _ _ _ _ _ G1) eq_refl
    ltac:(by vm_compute) eq_refl ltac:(by vm_compute) Hrb Hra ltac:(by vm_compute) eq_refl)
    as (r2 & s2 & T2 & l2 & H2 & G2 & Hr2); erewrite bind_ok by exact H2.
  assert (Hroot2 : t_nodes T2 !! [] = Some q) by (by apply (lookup_weaken {[ [] := q ]}), G2).
  pose proof (grows_grown Hend _ _ _ _ _ _ G2) as G2'; pose proof (grown_trans Hend _ _ _ _ _ _ _ _ _ _ _ G1 G2') as G12.
  destruct Hr2 as [[-> EL2] | (-> & -> & EL2)]; cbn [Z.ltb Z.compare t_leaf] in *.
  2:{ destruct (uvmfree_none q s l s2 T2 [] o G12 Hroot2 EL2) as (s3 & l3 & H3 & G3).
      erewrite bind_ok by exact H3; exists 0, s3, t_none, l3; split; [done | by right]. }
  destruct (mappages_one Hend q TRAPFRAME tf (Z.lor PTE_R PTE_W) s2 _ l2 o (gw_inv _ _ _ _ _ _ _ G12) Hroot2
    ltac:(by vm_compute) eq_refl ltac:(by vm_compute) ltac:(lia) Hta ltac:(by vm_compute)
    ltac:(rewrite EL2, lookup_insert_ne by (symmetry; apply high_ne); apply lookup_empty))
    as (r3 & s3 & T3 & l3 & H3 & G3 & Hr3); erewrite bind_ok by exact H3.
  assert (Hroot3 : t_nodes T3 !! [] = Some q) by (by apply (lookup_weaken (t_nodes T2)), G3).
  pose proof (grows_grown Hend _ _ _ _ _ _ G3) as G3'; pose proof (grown_trans Hend _ _ _ _ _ _ _ _ _ _ _ G12 G3') as G13.
  destruct Hr3 as [[-> EL3] | (-> & -> & EL3)]; cbn [Z.ltb Z.compare] in *.
  - exists q, s3, T3, l3; split; [done |]; left; split; [done |]; split; [done |]; split; [done |].
    rewrite EL3, EL2; done.
  - destruct high_pages as (t & E1 & E2); destruct (high_paths t E1 E2) as [P1 _].
    destruct (grown_unmap_keep (t + 1) 1 q s s3 t_none T3 l [] [] o G13 Hroot3 (high_bound t E1)) as (s4 & H4 & G4).
    rewrite E1 in H4; change (Z.of_nat 1) with 1 in H4; erewrite bind_ok by exact H4.
    destruct (uvmfree_none q s l s4 _ [] o G4 Hroot3) as (s5 & l5 & H5 & G5).
    { cbn [with_leaves t_leaf unmap]; rewrite EL3, EL2, P1; apply delete_insert_id, lookup_empty. }
    erewrite bind_ok by exact H5; exists 0, s5, t_none, l5; split; [done | by right].
Qed.

(** The address space of a process: user pages below [sz], the trampoline and the trapframe *)
Record aspace (s : kstate) (T : ptree) (l : list Z) (root sz : Z) : Prop := {
  as_vm : vm_inv s T l;
  as_root : t_nodes T !! [] = Some root;
  as_sz : 0 <= sz <= TRAPFRAME;
  as_leaf : forall a, (forall i, (i < npages sz)%nat -> a <> upath i) ->
    a <> vpath TRAMPOLINE -> a <> vpath TRAPFRAME -> t_leaf T !! a = None;
  as_ok : Forall page_ok (upages (t_leaf T) 0 (npages sz));
  as_nodup : NoDup (t_pages T ++ upages (t_leaf T) 0 (npages sz) ++ l)
}.

(** The user's pages are below the trapframe. *)
Lemma user_below sz t :
  0 <= sz <= TRAPFRAME -> Z.of_nat t * PGSIZE = TRAPFRAME ->
  0 <= sz <= MAXVA /\ forall i, (i < npages sz)%nat -> upath i <> upath t /\ upath i <> upath (t + 1).
Proof.
  change TRAPFRAME with (2 ^ 38 - 8192); intros Hsz Ht; assert (Hsz' : 0 <= sz <= MAXVA) by (change MAXVA with (2 ^ 38); lia).
  split; [done |]; destruct (npages_spec sz Hsz') as (_ & _ & _ & Hlt); intros i Hi; pose proof (proj2 (Hlt i) Hi) as Hb.
  split; intros E; apply upath_inj in E; try plia; change MAXVA with (2 ^ 38); plia.
Qed.

Lemma proc_freepagetable_run root sz s T l o :
  aspace s T l root sz ->
  exists s' l', proc_freepagetable root sz s o = Ok tt s' o /\ alloc_inv s' l' /\
    l' ≡ₚ t_pages T ++ upages (t_leaf T) 0 (npages sz) ++ l /\ rest s' = rest s /\
    forall b, ~ in_pages (t_pages T ++ upages (t_leaf T) 0 (npages sz) ++ l) b -> mget (k_mem s') b = mget (k_mem s) b.
Proof using Hend Htr.
  intros [HI Hroot Hsz Hleaf Hok Hnd]; destruct high_pages as (t & E1 & E2); destruct (high_paths t E1 E2) as [P1 P2].
  destruct (user_below sz t Hsz E2) as [Hsz' Hu]; pose proof (high_bound t E1) as HM.
  unfold proc_freepagetable.
  destruct (grown_unmap_keep (t + 1) 1 root s s T T l l [] o (vm_grown_refl _ _ _ HI) Hroot HM) as (s1 & H1 & G1).
  rewrite E1 in H1; change (Z.of_nat 1) with 1 in H1; erewrite bind_ok by exact H1.
  destruct (grown_unmap_keep t 1 root s s1 T _ l l [] o G1 Hroot ltac:(plia)) as (s2 & H2 & G2).
  rewrite E2 in H2; change (Z.of_nat 1) with 1 in H2; erewrite bind_ok by exact H2.
  cbn [with_leaves t_leaf t_nodes unmap] in G2; rewrite P1, P2 in G2.
  set (L := delete (vpath TRAPFRAME) (delete (vpath TRAMPOLINE) (t_leaf T))) in *.
  assert (EU : upages L 0 (npages sz) = upages (t_leaf T) 0 (npages sz)).
  { apply upages_ext; intros i Hi; destruct (Hu i ltac:(lia)) as [Hn1 Hn2]; rewrite P1 in Hn2; rewrite P2 in Hn1.
    unfold L; by rewrite !lookup_delete_ne by done. }
  destruct (uvmfree_run Hend root sz s2 _ l o (gw_inv _ _ _ _ _ _ _ G2) Hroot Hsz') as (s3 & l3 & H3 & HA & HP & Hrs & Hf);
    cbn [with_leaves t_leaf]; rewrite ?EU; try done.
  - intros a Ha; unfold L; rewrite !lookup_delete_None.
    destruct (decide (vpath TRAPFRAME = a)) as [| Hn1]; [by left | right].
    destruct (decide (vpath TRAMPOLINE = a)) as [| Hn2]; [by left | right]; auto.
  - exists s3, l3; cbn [with_leaves t_leaf] in HP, Hf; rewrite EU in HP, Hf; split; [done |]; split; [done |]; split; [done |].
    split; [rewrite Hrs; apply G2 |]; intros b Hb; rewrite Hf, (gw_frame _ _ _ _ _ _ _ G2); [done | |];
      intros Hc; apply Hb; revert Hc; apply in_pages_sub; change (t_pages (mkptree (t_nodes T) L)) with (t_pages T); set_solver.
Qed.

(** proc_pagetable makes an address space of no user pages. *)
Lemma aspace_fresh s T l r tf :
  vm_inv s T l -> t_nodes T !! [] = Some r -> t_leaf T = kernel_leaves tf -> aspace s T l r 0.
Proof.
  intros HI Hroot EL; constructor; [done | done | split; [done | by vm_compute] | | constructor |].
  - intros a _ Hn1 Hn2; rewrite EL; unfold kernel_leaves; by rewrite !lookup_insert_ne by done.
  - by eapply vm_pages_nodup.
Qed.

End ProcVm.
