(* ===== verification/Uart.v ===== *)
(** The 16550a serial line, kernel/uart.c, but its interrupt handler, which is in
    Console next to consoleintr.  Registers are read and written through the
    class [Mmio].  [panicking] and [panicked] are 0: after a panic the model
    stops. *)
From stdpp Require Import base gmap list strings.
From Stdlib Require Import ZArith Lia ZifyBool.
From S2P Require Import Prelude Memory KPrintf State Monad Demo Kalloc ProcBase Vm.

Local Open Scope Z_scope.

Definition RHR : Z := 0.
Definition THR : Z := 0.
Definition IER : Z := 1.
Definition IER_RX_ENABLE : Z := Z.shiftl 1 0.
Definition IER_TX_ENABLE : Z := Z.shiftl 1 1.
Definition FCR : Z := 2.
Definition FCR_FIFO_ENABLE : Z := Z.shiftl 1 0.
Definition FCR_FIFO_CLEAR : Z := Z.shiftl 3 1.
Definition ISR : Z := 2.
Definition LCR : Z := 3.
Definition LCR_EIGHT_BITS : Z := Z.shiftl 3 0.
Definition LCR_BAUD_LATCH : Z := Z.shiftl 1 7.
Definition LSR : Z := 5.
Definition LSR_RX_READY : Z := Z.shiftl 1 0.
Definition LSR_TX_IDLE : Z := Z.shiftl 1 5.

Section Uart.
Context `{Mmio}.

Definition Reg (reg : Z) : Z := UART0 + reg.
Definition ReadReg (reg : Z) : K Z := mmio_read (Reg reg).
Definition WriteReg (reg v : Z) : K unit := mmio_write (Reg reg) (u8 v).

Definition tx_busy_set (v : Z) : K unit := modify (fun s => (s <| k_tx_busy := v |>)%rec).

Definition uartinit : K unit :=
  WriteReg IER 0x00 ;;
  WriteReg LCR LCR_BAUD_LATCH ;;
  WriteReg 0 0x03 ;;
  WriteReg 1 0x00 ;;
  WriteReg LCR LCR_EIGHT_BITS ;;
  WriteReg FCR (Z.lor FCR_FIFO_ENABLE FCR_FIFO_CLEAR) ;;
  WriteReg IER (Z.lor IER_TX_ENABLE IER_RX_ENABLE) ;;
  initlock LTx.

(** [buf] is the n bytes to send. *)
Definition uartwrite (buf : list Z) : K unit :=
  acquire LTx ;;
  kfor_ buf (fun c =>
    ksleeploop (fun _ : unit =>
      busy ← gets k_tx_busy;
      if negb (busy =? 0) then sleep ChTx LTx ;; mret (inl tt) else mret (inr tt)) tt ;;
    WriteReg THR c ;;
    tx_busy_set 1) ;;
  release LTx.

(** The polling loop ends as soon as the transmitter is idle; [mmio_polls]
    bounds how long the device takes. *)
Definition uartputc_sync (c : Z) : K unit :=
  kloop mmio_polls (fun _ : unit =>
    lsr ← ReadReg LSR;
    if Z.land lsr LSR_TX_IDLE =? 0 then mret (inl tt) else mret (inr tt)) tt ;;
  WriteReg THR c.

Definition uartgetc : K Z :=
  lsr ← ReadReg LSR;
  if negb (Z.land lsr LSR_RX_READY =? 0) then ReadReg RHR else mret (-1).

End Uart.
