(* ===== verification/Console.v ===== *)
(** The console, kernel/console.c, and the interrupt handler of kernel/uart.c.

    The input buffer is a ring with three free-running 32-bit indices: bytes
    [r] to [w - 1] are complete lines for consoleread, bytes [w] to [e - 1] are
    the line being edited.  A [char] is unsigned on RISC-V. *)
From stdpp Require Import base gmap list strings.
From Stdlib Require Import ZArith Lia ZifyBool Ascii.
From S2P Require Import Prelude Fcntl Memory KPrintf State Monad Demo Kalloc ProcBase Vm Sleeplock Bio Log Fs Pipe File Proc Uart.

Local Open Scope Z_scope.

Definition BACKSPACE : Z := 0x100.
(** The macro C(x): Control-x. *)
Definition Ctrl (x : Z) : Z := x - ch "@".
Definition INPUT_BUF_SIZE : Z := 128.

Definition cons_mod (f : consbuf -> consbuf) : K unit :=
  modify (fun s => (s <| k_console ::= f |>)%rec).

(** [cons.buf[i % INPUT_BUF_SIZE]] *)
Definition cons_at (c : consbuf) (i : Z) : Z :=
  nth (Z.to_nat (u32 i mod INPUT_BUF_SIZE)) (cs_buf c) 0.

(** [cons.buf[cons.e++ % INPUT_BUF_SIZE] = c] *)
Definition cons_put (c : Z) (x : consbuf) : consbuf :=
  (x <| cs_buf ::= <[Z.to_nat (cs_e x mod INPUT_BUF_SIZE) := u8 c]> |>
     <| cs_e := u32 (cs_e x + 1) |>)%rec.

Section Console.
Context `{Linker} `{Mmio}.

Definition consputc (c : Z) : K unit :=
  if c =? BACKSPACE then
    uartputc_sync 8 ;; uartputc_sync (ch " ") ;; uartputc_sync 8
  else uartputc_sync c.

(** The loop moves up to 32 bytes at a time. *)
Definition consolewrite (src n : Z) : K Z :=
  kloop (Z.to_N n / 32 + 2) (fun i =>
    if negb (i <? n) then mret (inr i)
    else
      let nn := if n - i <? 32 then n - i else 32 in
      x ← either_copyin (SUser (u64 (src + i))) nn;
      let '(c, buf) := (x : Z * list Z) in
      if c =? -1 then mret (inr i)
      else
        uartwrite buf ;;
        mret (inl (i + nn))) 0.

(** [while(cons.r == cons.w) ...]: true when killed while waiting. *)
Definition cons_wait : K bool :=
  ksleeploop (fun _ : unit =>
    c ← gets k_console;
    if cs_r c =? cs_w c then
      p ← curproc;
      k ← killed p;
      if negb (k =? 0) then mret (inr true)
      else sleep ChCons LCons ;; mret (inl tt)
    else mret (inr false)) tt.

(** The loop variables are [dst] and [n]; [inr None] is the return of -1. *)
Definition consoleread (dst n : Z) : K Z :=
  let target := u32 n in
  acquire LCons ;;
  r ← kloop (Z.to_N n + 1) (fun '(dst, n) =>
    if negb (0 <? n) then mret (inr (Some n))
    else
      dead ← cons_wait;
      if dead : bool then release LCons ;; mret (inr None)
      else
        x ← gets k_console;
        let c := cons_at x (cs_r x) in
        cons_mod (fun x => (x <| cs_r := u32 (cs_r x + 1) |>)%rec) ;;
        if c =? Ctrl (ch "D") then
          kwhen (n <? target) (cons_mod (fun x => (x <| cs_r := u32 (cs_r x - 1) |>)%rec)) ;;
          mret (inr (Some n))
        else
          e ← either_copyout (DUser dst) [c] 1;
          if e =? -1 then mret (inr (Some n))
          else if c =? 10 then mret (inr (Some (n - 1)))
          else mret (inl (u64 (dst + 1), n - 1))) (dst, n);
  match r with
  | None => mret (-1)
  | Some n => release LCons ;; mret (i32 (target - n))
  end.

Definition consoleintr (c : Z) : K unit :=
  acquire LCons ;;
  (if c =? Ctrl (ch "P") then procdump
   else if c =? Ctrl (ch "U") then
     x ← gets k_console;
     kloop (Z.to_N (u32 (cs_e x - cs_w x)) + 1) (fun _ : unit =>
       x ← gets k_console;
       if negb (cs_e x =? cs_w x) && negb (cons_at x (cs_e x - 1) =? 10) then
         cons_mod (fun x => (x <| cs_e := u32 (cs_e x - 1) |>)%rec) ;;
         consputc BACKSPACE ;;
         mret (inl tt)
       else mret (inr tt)) tt
   else if (c =? Ctrl (ch "H")) || (c =? 0x7f) then
     x ← gets k_console;
     kwhen (negb (cs_e x =? cs_w x))
       (cons_mod (fun x => (x <| cs_e := u32 (cs_e x - 1) |>)%rec) ;;
        consputc BACKSPACE)
   else
     x ← gets k_console;
     kwhen (negb (c =? 0) && (u32 (cs_e x - cs_r x) <? INPUT_BUF_SIZE))
       (let c := if c =? 13 then 10 else c in
        consputc c ;;
        cons_mod (cons_put c) ;;
        x ← gets k_console;
        kwhen ((c =? 10) || (c =? Ctrl (ch "D")) || (u32 (cs_e x - cs_r x) =? INPUT_BUF_SIZE))
          (cons_mod (fun x => (x <| cs_w := cs_e x |>)%rec) ;;
           wakeup ChCons))) ;;
  release LCons.

(** The characters waiting in the receiver are handed over one by one. *)
Definition uartintr : K unit :=
  _ ← ReadReg ISR;
  acquire LTx ;;
  lsr ← ReadReg LSR;
  kwhen (negb (Z.land lsr LSR_TX_IDLE =? 0))
    (tx_busy_set 0 ;; wakeup ChTx) ;;
  release LTx ;;
  kloop mmio_polls (fun _ : unit =>
    c ← uartgetc;
    if c =? -1 then mret (inr tt)
    else consoleintr c ;; mret (inl tt)) tt.

Definition consoleinit : K unit := initlock LCons ;; uartinit.

#[export] Instance console_devsw : DevSwitch := {|
  devsw_read := fun major => if major =? CONSOLE then Some consoleread else None;
  devsw_write := fun major => if major =? CONSOLE then Some consolewrite else None
|}.

End Console.
