(* ===== verification/ConsoleSpec.v ===== *)
(** The console's line editor, kernel/console.c.

    The circular buffer [cons] stands for two character lists: the lines that
    are ready to be read and the line that is being typed.  consoleintr() edits
    the latter and moves it to the former when it is complete. *)
From stdpp Require Import base gmap list strings.
From Stdlib Require Import ZArith Lia ZifyBool Ascii.
From S2P Require Import Prelude Memory KPrintf State Monad Demo Kalloc ProcBase Vm Sleeplock Bio Log Fs Pipe File Proc Uart Console.

Local Open Scope Z_scope.

(** The serial line as the kernel polls it: the transmitter is idle and sends
    what is written to it. *)
Class UartSends `{Mmio} : Prop := {
  uart_idle : forall s o, exists v, mmio_read (Reg LSR) s o = Ok v s o /\ Z.land v LSR_TX_IDLE <> 0;
  uart_thr : forall v s o, mmio_write (Reg THR) v s o = Ok tt (s <| k_cons ::= fun c => c ++ [v] |>)%rec o;
  uart_polls : (0 < mmio_polls)%N
}.

(** ** The two lists *)

Record console_rep (x : consbuf) (ready line : list Z) : Prop := {
  cr_len : length (cs_buf x) = 128%nat;
  cr_r : 0 <= cs_r x < 2 ^ 32;
  cr_w : cs_w x = u32 (cs_r x + Z.of_nat (length ready));
  cr_e : cs_e x = u32 (cs_r x + Z.of_nat (length ready + length line));
  cr_max : (length ready + length line <= 128)%nat;
  cr_at : forall i c, (ready ++ line) !! i = Some c ->
    cs_buf x !! Z.to_nat ((cs_r x + Z.of_nat i) mod 128) = Some c;
  cr_line : 10 ∉ line
}.

(** What a typed character does to them. *)
Definition typed (c : Z) (ready line : list Z) : list Z * list Z :=
  if c =? Ctrl (ch "P") then (ready, line)
  else if c =? Ctrl (ch "U") then (ready, [])
  else if (c =? Ctrl (ch "H")) || (c =? 0x7f) then (ready, removelast line)
  else if (c =? 0) || (128 <=? Z.of_nat (length ready + length line)) then (ready, line)
  else
    let c := if c =? 13 then 10 else c in
    let line := line ++ [c] in
    if (c =? 10) || (c =? Ctrl (ch "D")) || (Z.of_nat (length ready + length line) =? 128)
    then (ready ++ line, []) else (ready, line).

(** What the terminal shows for it, but for the process list of ^P. *)
Definition erase : list Z := [8; 32; 8].
Definition echo (c : Z) (ready line : list Z) : list Z :=
  if c =? Ctrl (ch "U") then concat (replicate (length line) erase)
  else if (c =? Ctrl (ch "H")) || (c =? 0x7f) then match line with [] => [] | _ => erase end
  else if (c =? 0) || (128 <=? Z.of_nat (length ready + length line)) then []
  else [if c =? 13 then 10 else c].

Lemma u32_sub_add a n : 0 <= n < 2 ^ 32 -> u32 (u32 (a + n) - a) = n.
Proof.
  intros Hn; unfold u32; rewrite Zminus_mod_idemp_l.
  replace (a + n - a) with n by lia; by apply Z.mod_small.
Qed.

Lemma rep_used x ready line :
  console_rep x ready line -> u32 (cs_e x - cs_r x) = Z.of_nat (length ready + length line).
Proof. intros [? ? ? He ? ? ?]; rewrite He; apply u32_sub_add; lia. Qed.

Lemma rep_typed x ready line :
  console_rep x ready line -> u32 (cs_e x - cs_w x) = Z.of_nat (length line).
Proof.
  intros [? ? Hw He ? ? ?]; rewrite Hw, He; unfold u32; rewrite <- Zminus_mod.
  replace (cs_r x + Z.of_nat (length ready + length line) - (cs_r x + Z.of_nat (length ready)))
    with (Z.of_nat (length line)) by lia.
  apply Z.mod_small; lia.
Qed.

Lemma rep_editing x ready line :
  console_rep x ready line -> (cs_e x =? cs_w x) = match line with [] => true | _ => false end.
Proof.
  intros H; pose proof (rep_typed _ _ _ H) as Hd.
  destruct (Z.eqb_spec (cs_e x) (cs_w x)) as [E | E]; [rewrite E, Z.sub_diag in Hd; change (u32 0) with 0 in Hd; by destruct line |].
  destruct line; [| done]; exfalso; apply E.
  destruct H as [? ? Hw He ? ? ?]; rewrite Hw, He; simpl; by rewrite Nat.add_0_r.
Qed.

Lemma mod_128_u32 a : u32 a mod 128 = a mod 128.
Proof. symmetry; apply Znumtheory.Zmod_div_mod; [lia | lia | by exists (2 ^ 25)]. Qed.

(** The last character typed. *)
Lemma rep_last x ready line c :
  console_rep x ready (line ++ [c]) -> cons_at x (cs_e x - 1) = c.
Proof.
  intros [Hl Hr Hw He Hm Hat Hn]; unfold cons_at.
  specialize (Hat (length ready + length line)%nat c).
  rewrite app_assoc, lookup_app_r, length_app, Nat.sub_diag in Hat by (rewrite length_app; lia).
  specialize (Hat eq_refl).
  erewrite nth_lookup_Some; [done |]; rewrite <- Hat; do 2 f_equal.
  change INPUT_BUF_SIZE with 128; rewrite He, mod_128_u32, length_app; simpl.
  rewrite <- (mod_128_u32 (_ - 1)); unfold u32; rewrite Zminus_mod_idemp_l; fold (u32 (cs_r x + Z.of_nat (length ready + (length line + 1)) - 1)).
  rewrite mod_128_u32; f_equal; lia.
Qed.

(** Backspace. *)
Lemma rep_back x ready line c :
  console_rep x ready (line ++ [c]) ->
  console_rep (x <| cs_e := u32 (cs_e x - 1) |>)%rec ready line.
Proof.
  intros [Hl Hr Hw He Hm Hat Hn]; rewrite length_app in *; simpl in *; split; simpl; try done.
  - rewrite He; unfold u32; rewrite Zminus_mod_idemp_l; f_equal; lia.
  - lia.
  - intros i d Hi; apply Hat; rewrite app_assoc; by apply lookup_app_l_Some.
  - set_solver.
Qed.

(** A character is added at the end. *)
Lemma rep_put x ready line c :
  console_rep x ready line -> (length ready + length line < 128)%nat -> 0 <= c < 256 ->
  (c <> 10 -> console_rep (cons_put c x) ready (line ++ [c])) /\
  console_rep (cons_put c x <| cs_w := cs_e (cons_put c x) |>)%rec (ready ++ line ++ [c]) [].
Proof.
  intros [Hl Hr Hw He Hm Hat Hn] Hlt Hc.
  assert (Hat' : forall i d, (ready ++ line ++ [c]) !! i = Some d ->
    cs_buf (cons_put c x) !! Z.to_nat ((cs_r x + Z.of_nat i) mod 128) = Some d).
  { intros i d Hi; unfold cons_put; simpl; change INPUT_BUF_SIZE with 128; rewrite He, mod_128_u32.
    rewrite app_assoc in Hi; apply lookup_app_Some in Hi as [Hi | [Hge Hi]].
    - pose proof (lookup_lt_Some _ _ _ Hi) as Hlen; rewrite length_app in Hlen.
      rewrite list_lookup_insert_ne; [by apply Hat |]; intros E; apply Z2Nat.inj in E; try (apply Z.mod_pos_bound; lia).
      apply (f_equal (fun z => (z - cs_r x) mod 128)) in E; rewrite !Zminus_mod_idemp_l in E.
      revert E; rewrite !Z.add_simpl_l, !Z.mod_small by lia; lia.
    - rewrite length_app in Hge, Hi; apply list_lookup_singleton_Some in Hi as [Hi <-].
      replace i with (length ready + length line)%nat by lia.
      rewrite list_lookup_insert_eq; [by rewrite u8_small |].
      pose proof (Z.mod_pos_bound (cs_r x + Z.of_nat (length ready + length line)) 128); lia. }
  assert (He' : cs_e (cons_put c x) = u32 (cs_r x + Z.of_nat (length ready + (length line + 1)))).
  { unfold cons_put; simpl; rewrite He; unfold u32; rewrite Zplus_mod_idemp_l; f_equal; lia. }
  split.
  - intros Hnl; split; rewrite ?length_app; simpl; try done; [by rewrite length_insert | lia |].
    rewrite elem_of_app; intros [? | ?%list_elem_of_singleton]; congruence.
  - split; rewrite ?length_app, ?Nat.add_0_r; simpl; try done; [by rewrite length_insert | lia | | set_solver].
    intros i d; rewrite app_nil_r; apply Hat'.
Qed.

(** ** Running consoleintr *)

(** Only console output is added. *)
Definition prints (s s' : kstate) : Prop := exists out, s' = (s <| k_cons ::= fun c => c ++ out |>)%rec.

Lemma prints_refl s : prints s s.
Proof. exists []; destruct s; state_norm; simpl; by rewrite app_nil_r. Qed.

Lemma prints_trans s1 s2 s3 : prints s1 s2 -> prints s2 s3 -> prints s1 s3.
Proof. intros [a ->] [b ->]; exists (a ++ b); destruct s1; state_norm; simpl; by rewrite app_assoc. Qed.

Lemma printf_prints fmt ap s o :
  is_Some (sprintf (lit fmt) ap) -> exists s', printf fmt ap s o = Ok tt s' o /\ prints s s'.
Proof. intros [out H]; unfold printf; rewrite H; eexists; split; [reflexivity | by exists out]. Qed.

Lemma procdump_prints s o : procs_ok s -> exists s', procdump s o = Ok tt s' o /\ prints s s'.
Proof.
  intros Hlen; unfold procdump.
  destruct (printf_prints "\n" [] s o) as (s1 & H1 & P1); [apply format_prints; reflexivity |].
  erewrite bind_ok by exact H1.
  assert (Hgo : forall l, Forall (fun i => (i < NPROC)%nat) l -> forall t, prints s t ->
    exists s', kfor_ l (fun p =>
      pr ← pget p;
      kwhen (negb (bool_decide (p_state pr = UNUSED)))
        (printf "%d %s %s" [VInt (p_pid pr); VStr (Some (states (p_state pr))); VStr (Some (p_name pr))] ;;
         printf "\n" [])) t o = Ok tt s' o /\ prints s s').
  2:{ apply Hgo; [apply Forall_forall; intros i Hi; apply elem_of_seq in Hi; lia | done]. }
  induction l as [| i l IH]; intros HF t Ht; [by exists t |].
  apply Forall_cons in HF as [Hi HF]; rewrite kfor__cons.
  assert (Hp : k_procs t = k_procs s) by (destruct Ht as [? ->]; done).
  destruct (lookup_lt_is_Some_2 (k_procs t) i) as [pr Hpr]; [rewrite Hp, Hlen; lia |].
  assert (Hbody : exists t', (pr ← pget i;
      kwhen (negb (bool_decide (p_state pr = UNUSED)))
        (printf "%d %s %s" [VInt (p_pid pr); VStr (Some (states (p_state pr))); VStr (Some (p_name pr))] ;;
         printf "\n" [])) t o = Ok tt t' o /\ prints s t').
  { erewrite bind_ok by (by apply pget_ok); destruct (negb _); cbn [kwhen]; [| by exists t].
    destruct (printf_prints "%d %s %s" [VInt (p_pid pr); VStr (Some (states (p_state pr))); VStr (Some (p_name pr))] t o)
      as (t1 & R1 & Q1); [apply format_prints; reflexivity |].
    destruct (printf_prints "\n" [] t1 o) as (t2 & R2 & Q2); [apply format_prints; reflexivity |].
    exists t2; split; [by erewrite bind_ok by exact R1 |]; eauto using prints_trans. }
  destruct Hbody as (t' & R & P); erewrite bind_ok by exact R; by apply IH.
Qed.

Section Editing.
Context `{Linker} `{UartSends}.

Lemma uartputc_run c s o : uartputc_sync c s o = Ok tt (s <| k_cons ::= fun l => l ++ [u8 c] |>)%rec o.
Proof.
  unfold uartputc_sync; pose proof uart_polls as Hp; destruct mmio_polls as [| n _] using N.peano_ind; [done |].
  assert (Hloop : kloop (N.succ n) (fun _ : unit => lsr ← ReadReg LSR;
    if Z.land lsr LSR_TX_IDLE =? 0 then mret (inl tt) else mret (inr tt)) tt s o = Ok tt s o).
  { rewrite kloop_succ, bind_assoc; destruct (uart_idle s o) as (v & Hv & Hz).
    unfold ReadReg; erewrite bind_ok by exact Hv; replace (Z.land v LSR_TX_IDLE =? 0) with false by lia; done. }
  erewrite bind_ok by exact Hloop; apply uart_thr.
Qed.

Lemma erase_run s o : consputc BACKSPACE s o = Ok tt (s <| k_cons ::= fun l => l ++ erase |>)%rec o.
Proof.
  unfold consputc; rewrite Z.eqb_refl; erewrite !bind_ok by apply uartputc_run; rewrite uartputc_run.
  f_equal; destruct s; state_norm; simpl; by rewrite <- !app_assoc.
Qed.

Lemma echo_run c s o : 0 <= c < 256 -> consputc c s o = Ok tt (s <| k_cons ::= fun l => l ++ [c] |>)%rec o.
Proof.
  intros Hc; unfold consputc; replace (c =? BACKSPACE) with false by (unfold BACKSPACE; lia).
  rewrite uartputc_run, u8_small by lia; done.
Qed.

(** ^U erases the line. *)
Lemma kill_line_run ready line n s o :
  console_rep (k_console s) ready line -> (N.of_nat (length line) < n)%N ->
  exists x, kloop n (fun _ : unit =>
       x ← gets k_console;
       if negb (cs_e x =? cs_w x) && negb (cons_at x (cs_e x - 1) =? 10) then
         cons_mod (fun x => (x <| cs_e := u32 (cs_e x - 1) |>)%rec) ;;
         consputc BACKSPACE ;;
         mret (inl tt)
       else mret (inr tt)) tt s o =
    Ok tt (s <| k_console := x |> <| k_cons ::= fun l => l ++ concat (replicate (length line) erase) |>)%rec o /\
    console_rep x ready [].
Proof.
  revert n s; induction line as [| c line IH] using rev_ind; intros n s Hrep Hn;
    (destruct n as [| n _] using N.peano_ind; [lia |]); rewrite kloop_succ, bind_assoc, gets_bind;
    rewrite (rep_editing _ _ _ Hrep).
  - cbn [negb andb]; exists (k_console s); split; [| done]; erewrite bind_ok by apply ret_ok.
    rewrite ret_ok; f_equal; destruct s; state_norm; simpl; by rewrite app_nil_r.
  - rewrite length_app in *; simpl in Hn; assert (Hc : c <> 10) by (pose proof (cr_line _ _ _ Hrep); set_solver).
    replace (match line ++ [c] with [] => true | _ => false end) with false by (by destruct line).
    rewrite (rep_last _ _ _ _ Hrep); replace (c =? 10) with false by lia; cbn [negb andb].
    unfold cons_mod; rewrite bind_assoc, modify_bind, bind_assoc; erewrite bind_ok by apply erase_run.
    erewrite bind_ok by apply ret_ok; cbv iota; set (s1 := (s <| k_console ::= _ |> <| k_cons ::= _ |>)%rec).
    destruct (IH n s1) as (x & Hrun & Hx); [exact (rep_back _ _ _ _ Hrep) | lia |].
    exists x; split; [| done]; refine (eq_trans Hrun _); f_equal; unfold s1; destruct s; state_norm; simpl.
    rewrite Nat.add_comm; simpl; by rewrite <- app_assoc.
Qed.

(** The state with the console lock free again. *)
Definition edited (s : kstate) (x : consbuf) (out : list Z) (procs : list proc) : kstate :=
  (s <| k_console := x |> <| k_cons := out |> <| k_procs := procs |>)%rec.

Lemma release_edited s x out procs o :
  LCons ∉ k_locks s ->
  release LCons (edited (s <| k_locks ::= cons LCons |>)%rec x out procs) o = Ok tt (edited s x out procs) o.
Proof.
  intros Hl; rewrite release_ok by (simpl; set_solver); f_equal; destruct s; unfold edited; state_norm; simpl.
Qed.

Lemma locked_run (m : K unit) s x out procs o :
  LCons ∉ k_locks s ->
  m (s <| k_locks ::= cons LCons |>)%rec o = Ok tt (edited (s <| k_locks ::= cons LCons |>)%rec x out procs) o ->
  (acquire LCons ;; m ;; release LCons) s o = Ok tt (edited s x out procs) o.
Proof.
  intros Hl Hm; step_with acquire_ok; erewrite bind_ok by exact Hm; by apply release_edited.
Qed.

Lemma no_plock_cons s : no_plock s -> no_plock (s <| k_locks ::= cons LCons |>)%rec.
Proof. intros Hn i; simpl; rewrite not_elem_of_cons; split; [done | apply Hn]. Qed.

(** The character that completes a line. *)
Definition completes (c : Z) (ready line : list Z) : bool :=
  (c =? 10) || (c =? Ctrl (ch "D")) || (Z.of_nat (length ready + (length line + 1)) =? 128).

Lemma put_run c ready line s o :
  0 <= c < 256 -> console_rep (k_console s) ready line -> (length ready + length line < 128)%nat ->
  procs_ok s -> no_plock s ->
  (consputc c ;; cons_mod (cons_put c) ;;
   x ← gets k_console;
   kwhen ((c =? 10) || (c =? Ctrl (ch "D")) || (u32 (cs_e x - cs_r x) =? INPUT_BUF_SIZE))
     (cons_mod (fun x => (x <| cs_w := cs_e x |>)%rec) ;; wakeup ChCons)) s o =
  Ok tt (if completes c ready line
    then edited s (cons_put c (k_console s) <| cs_w := cs_e (cons_put c (k_console s)) |>)%rec (k_cons s ++ [c])
           (imap (wake1 (k_cur s) ChCons) (k_procs s))
    else edited s (cons_put c (k_console s)) (k_cons s ++ [c]) (k_procs s)) o.
Proof.
  intros Hc Hrep Hlt Hp Hn; erewrite bind_ok by (by apply echo_run).
  unfold cons_mod; rewrite modify_bind, gets_bind.
  assert (Hu : u32 (cs_e (cons_put c (k_console s)) - cs_r (k_console s)) = Z.of_nat (length ready + (length line + 1))).
  { destruct (rep_put _ _ _ c Hrep Hlt Hc) as [_ Hd]; pose proof (rep_used _ _ _ Hd) as Hu.
    rewrite !length_app in Hu; simpl in Hu; rewrite Nat.add_0_r in Hu; exact Hu. }
  match goal with |- context [u32 ?a =? INPUT_BUF_SIZE] =>
    change a with (cs_e (cons_put c (k_console s)) - cs_r (k_console s)) end.
  rewrite Hu; change INPUT_BUF_SIZE with 128; fold (completes c ready line).
  destruct (completes c ready line); cbn [kwhen].
  - rewrite modify_bind, wakeup_run by done; f_equal; by destruct s.
  - rewrite ret_ok; f_equal; by destruct s.
Qed.

(** C15: consoleintr(c) is a line editor.  On a console whose buffer holds the
    lines [ready] and the line [line] being typed, ^P leaves both as they are and only
    adds to the output (the list of procdump(), whose text is not specified here), ^U erases the line, ^H and
    DEL its last character, NUL does nothing, and any other character is appended (a
    carriage return as a newline) if the buffer has room for it; a newline, ^D
    or the last free place completes the line and wakes the readers, and only
    then.  But for ^P the terminal shows exactly what was typed and the erasures; the buffer stays
    well formed, and nothing else changes.  The serial line is taken to be idle
    whenever the kernel polls it. *)
Theorem consoleintr_spec (c : Z) (ready line : list Z) (s : kstate) (o : oracle)
  (Hc : 0 <= c < 256) (Hrep : console_rep (k_console s) ready line)
  (Hl : LCons ∉ k_locks s) (Hp : procs_ok s) (Hn : no_plock s) :
  let '(ready', line') := typed c ready line in
  exists x shown,
    consoleintr c s o = Ok tt (edited s x (k_cons s ++ shown)
      (if bool_decide (ready' = ready) then k_procs s
       else imap (wake1 (k_cur s) ChCons) (k_procs s))) o /\
    console_rep x ready' line' /\ (c <> Ctrl (ch "P") -> shown = echo c ready line).
Proof.
  set (s1 := (s <| k_locks ::= cons LCons |>)%rec).
  assert (Hrep1 : console_rep (k_console s1) ready line) by done.
  destruct (typed c ready line) as [ready' line'] eqn:Ht; unfold typed in Ht; unfold consoleintr, echo.
  destruct (Z.eqb_spec c (Ctrl (ch "P"))) as [-> | HcP].
  { injection Ht as <- <-; destruct (procdump_prints s1 o) as (s2 & Hrun & out & ->); [done |].
    exists (k_console s), out; split; [| done]; rewrite bool_decide_eq_true_2 by done.
    apply locked_run; [done |]; refine (eq_trans Hrun _); f_equal; by destruct s. }
  destruct (c =? Ctrl (ch "U")).
  { injection Ht as <- <-; destruct (kill_line_run ready line
      (Z.to_N (u32 (cs_e (k_console s1) - cs_w (k_console s1))) + 1) s1 o Hrep1) as (x & Hrun & Hx).
    { rewrite (rep_typed _ _ _ Hrep1); lia. }
    do 2 eexists; split; [| split; [exact Hx | done]]; rewrite bool_decide_eq_true_2 by done.
    apply locked_run; [done |]; rewrite gets_bind; refine (eq_trans Hrun _); f_equal; by destruct s. }
  destruct ((c =? Ctrl (ch "H")) || (c =? 0x7f)).
  { injection Ht as <- <-; rewrite bool_decide_eq_true_2 by done.
    destruct line as [| d line _] using rev_ind.
    - exists (k_console s), []; rewrite app_nil_r; split; [| done].
      apply locked_run; [done |]; rewrite gets_bind; change (k_console (s <| k_locks ::= cons LCons |>)%rec) with (k_console s).
      rewrite (rep_editing _ _ _ Hrep); cbn [negb kwhen]; rewrite ret_ok; f_equal; by destruct s.
    - do 2 eexists; split; [| split; [rewrite removelast_last; exact (rep_back _ _ _ _ Hrep) | reflexivity]].
      apply locked_run; [done |]; rewrite gets_bind; fold s1; rewrite (rep_editing _ _ _ Hrep1).
      replace (match line ++ [d] with [] => true | _ => false end) with false by (by destruct line).
      replace (match line ++ [d] with [] => [] | _ => erase end) with erase by (by destruct line).
      cbn [negb kwhen]; unfold cons_mod; rewrite modify_bind, erase_run; f_equal; by destruct s. }
  rewrite <- (rep_used _ _ _ Hrep) in Ht |- *; change (k_console s) with (k_console s1) in Ht |- *.
  destruct (Z.eqb_spec c 0) as [-> | Hc0]; [| destruct (Z.leb_spec 128 (u32 (cs_e (k_console s1) - cs_r (k_console s1)))) as [Hfull | Hroom]].
  1, 2: injection Ht as <- <-; exists (k_console s), [];
    rewrite app_nil_r; split; [| done]; rewrite bool_decide_eq_true_2 by done;
    apply locked_run; [done |]; rewrite gets_bind; fold s1; unfold INPUT_BUF_SIZE.
  1: cbn [negb andb Z.eqb kwhen]; rewrite ret_ok; f_equal; by destruct s.
  1: replace (_ <? 128) with false by lia; rewrite andb_false_r; cbn [kwhen]; rewrite ret_ok; f_equal; by destruct s.
  cbn [orb] in Ht |- *; rewrite (rep_used _ _ _ Hrep1) in Hroom.
  assert (Hcond : (u32 (cs_e (k_console s1) - cs_r (k_console s1)) <? INPUT_BUF_SIZE) = true)
    by (unfold INPUT_BUF_SIZE; rewrite (rep_used _ _ _ Hrep1); lia).
  set (c' := if c =? 13 then 10 else c) in *; assert (Hc' : 0 <= c' < 256) by (unfold c'; destruct (c =? 13); lia).
  destruct (rep_put _ _ _ c' Hrep1 ltac:(lia) Hc') as [Hput Hdone].
  pose proof (put_run c' ready line s1 o Hc' Hrep1 ltac:(lia) Hp (no_plock_cons _ Hn)) as Hrun.
  destruct (completes c' ready line) eqn:Hcomp; unfold completes in Hcomp.
  - rewrite length_app in Ht; simpl in Ht; rewrite Hcomp in Ht; injection Ht as <- <-.
    do 2 eexists; split; [| split; [exact Hdone | reflexivity]].
    rewrite bool_decide_eq_false_2 by (intros E; apply (f_equal length) in E; rewrite !length_app in E; simpl in E; lia).
    apply locked_run; [done |]; rewrite gets_bind; fold s1.
    rewrite Hcond; cbn [negb andb kwhen]; refine (eq_trans Hrun _); f_equal; by destruct s.
  - rewrite length_app in Ht; simpl in Ht; rewrite Hcomp in Ht; injection Ht as <- <-.
    do 2 eexists; split; [| split; [apply Hput; lia | reflexivity]].
    rewrite bool_decide_eq_true_2 by done; apply locked_run; [done |]; rewrite gets_bind; fold s1.
    rewrite Hcond; cbn [negb andb kwhen]; refine (eq_trans Hrun _); f_equal; by destruct s.
Qed.

End Editing.

(** A serial line that is always idle. *)
Definition demo_mmio : Mmio := {|
  mmio_read := fun a => mret (if a =? Reg LSR then LSR_TX_IDLE else 0);
  mmio_write := fun a v =>
    kwhen (a =? Reg THR) (modify (fun s => (s <| k_cons ::= fun c => c ++ [v] |>)%rec));
  mmio_polls := 1 |}.

Lemma demo_uart : @UartSends demo_mmio.
Proof. split; [intros s o; exists LSR_TX_IDLE; split; [reflexivity | done] | done | done]. Qed.

(** "ls" has been typed. *)
Definition demo_typing : kstate :=
  (zero_state <| k_console := mkconsbuf (108 :: 115 :: replicate 126 0) 0 0 2 |>)%rec.

Lemma demo_typing_rep : console_rep (k_console demo_typing) [] [108; 115].
Proof.
  split; try reflexivity; [split; [discriminate | reflexivity] | simpl; lia | | set_solver].
  intros [| [| i]] c Hi; simpl in Hi; [injection Hi as <-; reflexivity .. | done].
Qed.

Lemma consoleintr_spec_witness :
  exists x out,
    @consoleintr demo_mmio 13 demo_typing [] =
      Ok tt (edited demo_typing x out (imap (wake1 None ChCons) (k_procs zero_state))) [] /\
    console_rep x [108; 115; 10] [] /\ out = [10].
Proof.
  destruct (@consoleintr_spec demo_mmio demo_uart 13 [] [108; 115] demo_typing [] ltac:(lia) demo_typing_rep
    ltac:(set_solver) eq_refl ltac:(intros i; set_solver)) as (x & out & H1 & H2 & H3).
  exists x, out; split; [exact H1 | split; [exact H2 |]]; apply H3; discriminate.
Defined.
