(* ===== verification/Exec.v ===== *)
(** exec, kernel/exec.c, with the ELF structures of kernel/elf.h as byte
    offsets.  Strings of [argv] are given as their bytes. *)
From stdpp Require Import base gmap list strings.
From Stdlib Require Import ZArith Lia ZifyBool.
From S2P Require Import Prelude Memory KPrintf State Monad Demo Kalloc ProcBase Vm Sleeplock Bio Log Fs Pipe File Proc.

Local Open Scope Z_scope.

Definition USERSTACK : Z := 1.
Definition ELF_MAGIC : Z := 0x464C457F.
Definition ELF_PROG_LOAD : Z := 1.
Definition sizeof_elfhdr : Z := 64.
Definition sizeof_proghdr : Z := 56.

Definition get64 (l : list Z) (off : nat) : Z := le_bytes (sub l off 8).

(** struct elfhdr *)
Definition elf_magic (h : list Z) : Z := get32 h 0.
Definition elf_entry (h : list Z) : Z := get64 h 24.
Definition elf_phoff (h : list Z) : Z := get64 h 32.
Definition elf_phnum (h : list Z) : Z := get16 h 56.

(** struct proghdr *)
Definition ph_type (h : list Z) : Z := get32 h 0.
Definition ph_flags (h : list Z) : Z := get32 h 4.
Definition ph_off (h : list Z) : Z := get64 h 8.
Definition ph_vaddr (h : list Z) : Z := get64 h 16.
Definition ph_filesz (h : list Z) : Z := get64 h 32.
Definition ph_memsz (h : list Z) : Z := get64 h 40.

Definition flags2perm (flags : Z) : Z :=
  let perm := if has flags 1 then PTE_X else 0 in
  if has flags 2 then Z.lor perm PTE_W else perm.

(** [for(last=s=path; *s; s++) if( *s == '/') last = s+1;] *)
Fixpoint path_last (last s : list Z) : list Z :=
  match s with
  | [] => last
  | c :: s' =>
      if c =? 0 then last
      else path_last (if c =? slash then s' else last) s'
  end.

Section Exec.
Context `{Linker} `{BlockDevice} `{DevSwitch}.

Definition loadseg (pagetable va : Z) (ip : nat) (offset sz : Z) : K Z :=
  kloop (Z.to_N (sz / PGSIZE) + 2) (fun i =>
    if negb (i <? sz) then mret (inr 0)
    else
      pa ← walkaddr pagetable (u64 (va + i));
      if pa =? 0 then panic "loadseg: address should exist"
      else
        let n := if u32 (sz - i) <? PGSIZE then u32 (sz - i) else PGSIZE in
        r ← readi ip (DPhys pa) (u32 (offset + i)) n;
        if negb (u32 (fst (r : Z * list Z)) =? n) then mret (inr (-1))
        else mret (inl (u32 (i + PGSIZE)))) 0.

(** The label bad: of kexec. *)
Definition exec_bad (pagetable sz : Z) (ip : option nat) : K Z :=
  kwhen (negb (pagetable =? 0)) (proc_freepagetable pagetable sz) ;;
  match ip with
  | Some ip => iunlockput ip ;; end_op
  | None => mret tt
  end ;;
  mret (-1).

(** The loop over the program headers: the size reached and whether every
    segment was loaded (false is goto bad). *)
Definition exec_load (pagetable : Z) (ip : nat) (elf : list Z) : K (Z * bool) :=
  kloop (Z.to_N (elf_phnum elf) + 1) (fun '(i, off, sz) =>
    if negb (i <? elf_phnum elf) then mret (inr (sz, true))
    else
      r ← readi ip DLocal (u32 off) sizeof_proghdr;
      let '(cnt, ph) := (r : Z * list Z) in
      let next := i32 (off + sizeof_proghdr) in
      if negb (cnt =? sizeof_proghdr) then mret (inr (sz, false))
      else if negb (ph_type ph =? ELF_PROG_LOAD) then mret (inl (i + 1, next, sz))
      else if ph_memsz ph <? ph_filesz ph then mret (inr (sz, false))
      else if u64 (ph_vaddr ph + ph_memsz ph) <? ph_vaddr ph then mret (inr (sz, false))
      else if negb (ph_vaddr ph mod PGSIZE =? 0) then mret (inr (sz, false))
      else
        sz1 ← uvmalloc pagetable sz (u64 (ph_vaddr ph + ph_memsz ph)) (flags2perm (ph_flags ph));
        if sz1 =? 0 then mret (inr (sz, false))
        else
          c ← loadseg pagetable (ph_vaddr ph) ip (u32 (ph_off ph)) (u32 (ph_filesz ph));
          if c <? 0 then mret (inr (sz1, false))
          else mret (inl (i + 1, next, sz1))) (0, i32 (elf_phoff elf), 0).

(** The loop that pushes the argument strings: stack pointer and the array
    ustack, or [None] for goto bad.  The store of the last 0 is past the end of
    ustack[MAXARG] for MAXARG arguments, which sys_exec() never passes on. *)
Fixpoint exec_args (pagetable stackbase : Z) (argv : list (list Z)) (argc sp : Z) (ustack : list Z)
  : K (option (Z * list Z)) :=
  match argv with
  | [] => if Z.of_nat MAXARG <=? argc then fault else mret (Some (sp, ustack ++ [0]))
  | a :: argv' =>
      if Z.of_nat MAXARG <=? argc then mret None
      else
        let sp := u64 (sp - (strlen a + 1)) in
        let sp := sp - sp mod 16 in
        if sp <? stackbase then mret None
        else
          c ← copyout pagetable sp (cstr a ++ [0]) (strlen a + 1);
          if c <? 0 then mret None
          else exec_args pagetable stackbase argv' (argc + 1) sp (ustack ++ [sp])
  end.

(** From the point where the program is loaded; [ip] is 0 here. *)
Definition exec_commit (p : nat) (path : list Z) (argv : list (list Z)) (elf : list Z)
    (pagetable sz : Z) : K Z :=
  pr ← pget p;
  let oldsz := p_sz pr in
  let sz := PGROUNDUP sz in
  sz1 ← uvmalloc pagetable sz (u64 (sz + (USERSTACK + 1) * PGSIZE)) PTE_W;
  if sz1 =? 0 then exec_bad pagetable sz None
  else
    let sz := sz1 in
    uvmclear pagetable (u64 (sz - (USERSTACK + 1) * PGSIZE)) ;;
    let stackbase := u64 (sz - USERSTACK * PGSIZE) in
    r ← exec_args pagetable stackbase argv 0 sz [];
    match r with
    | None => exec_bad pagetable sz None
    | Some (sp, ustack) =>
        let argc := Z.of_nat (length argv) in
        let sp := u64 (sp - (argc + 1) * 8) in
        let sp := sp - sp mod 16 in
        if sp <? stackbase then exec_bad pagetable sz None
        else
          c ← copyout pagetable sp (concat (bytes_le 8 <$> ustack)) ((argc + 1) * 8);
          if c <? 0 then exec_bad pagetable sz None
          else
            tfset (p_trapframe pr) (tf_set Ta1 sp) ;;
            pset p (fun pr => (pr <| p_name ::= fun n => safestrcpy n (path_last path path) 16 |>)%rec) ;;
            pset p (fun pr => (pr <| p_pagetable := pagetable |> <| p_sz := sz |>)%rec) ;;
            tfset (p_trapframe pr) (tf_set Tepc (elf_entry elf)) ;;
            tfset (p_trapframe pr) (tf_set Tsp sp) ;;
            proc_freepagetable (p_pagetable pr) oldsz ;;
            mret argc
    end.

Definition kexec (path : list Z) (argv : list (list Z)) : K Z :=
  p ← curproc;
  begin_op ;;
  ip ← namei path;
  match ip with
  | None => end_op ;; mret (-1)
  | Some ip =>
      ilock ip ;;
      r ← readi ip DLocal 0 sizeof_elfhdr;
      let '(cnt, elf) := (r : Z * list Z) in
      if negb (cnt =? sizeof_elfhdr) then exec_bad 0 0 (Some ip)
      else if negb (elf_magic elf =? ELF_MAGIC) then exec_bad 0 0 (Some ip)
      else
        pr ← pget p;
        pagetable ← proc_pagetable (p_trapframe pr);
        if pagetable =? 0 then exec_bad 0 0 (Some ip)
        else
          r ← exec_load pagetable ip elf;
          let '(sz, ok) := (r : Z * bool) in
          if negb ok then exec_bad pagetable sz (Some ip)
          else
            iunlockput ip ;;
            end_op ;;
            exec_commit p path argv elf pagetable sz
  end.

End Exec.
