(* ===== verification/SysFile.v ===== *)
(** System call arguments (kernel/syscall.c) and the file-system system calls
    (kernel/sysfile.c). *)
From stdpp Require Import base gmap list strings.
From Stdlib Require Import ZArith Lia ZifyBool.
From S2P Require Import Prelude Fcntl Memory KPrintf State Monad Demo Kalloc ProcBase Vm Sleeplock Bio Log Fs Pipe File Proc Exec.

Local Open Scope Z_scope.

Section SysFile.
Context `{Linker} `{BlockDevice} `{DevSwitch}.

(** ** Arguments *)

Definition fetchaddr (addr : Z) : K (Z * Z) :=
  p ← curproc;
  pr ← pget p;
  if (p_sz pr <=? addr) || (p_sz pr <? u64 (addr + 8)) then mret (-1, 0)
  else
    r ← copyin (p_pagetable pr) addr 8;
    let '(c, bytes) := (r : Z * list Z) in
    if negb (c =? 0) then mret (-1, 0) else mret (0, le_bytes bytes).

(** The C result and the buffer: the bytes copied. *)
Definition fetchstr (addr max : Z) : K (Z * list Z) :=
  p ← curproc;
  pr ← pget p;
  r ← copyinstr (p_pagetable pr) addr max;
  let '(c, buf) := (r : Z * list Z) in
  if c <? 0 then mret (-1, buf) else mret (strlen buf, buf).

Definition argraw (n : Z) : K Z :=
  p ← curproc;
  pr ← pget p;
  tf ← tfget (p_trapframe pr);
  match n with
  | 0 => mret (tf_get Ta0 tf)
  | 1 => mret (tf_get Ta1 tf)
  | 2 => mret (tf_get Ta2 tf)
  | 3 => mret (tf_get Ta3 tf)
  | 4 => mret (tf_get Ta4 tf)
  | 5 => mret (tf_get Ta5 tf)
  | _ => panic "argraw"
  end.

(** The argument is truncated to an int. *)
Definition argint (n : Z) : K Z := x ← argraw n; mret (i32 x).
Definition argaddr (n : Z) : K Z := argraw n.
Definition argstr (n max : Z) : K (Z * list Z) := addr ← argaddr n; fetchstr addr max.

(** ** File descriptors *)

(** The descriptor and the file, or [None] for the result -1. *)
Definition argfd (n : Z) : K (option (Z * nat)) :=
  fd ← argint n;
  if (fd <? 0) || (Z.of_nat NOFILE <=? fd) then mret None
  else
    p ← curproc;
    pr ← pget p;
    f ← from_option_K (p_ofile pr !! Z.to_nat fd);
    mret (match f with Some f => Some (fd, f) | None => None end).

Definition ofile_set (p fd : nat) (f : option nat) : K unit :=
  pset p (fun pr => (pr <| p_ofile ::= <[fd := f]> |>)%rec).

Definition fdalloc (f : nat) : K Z :=
  p ← curproc;
  r ← kfor (seq 0 NOFILE) (fun fd (_ : unit) =>
    pr ← pget p;
    x ← from_option_K (p_ofile pr !! fd);
    match x with
    | None => ofile_set p fd (Some f) ;; mret (inr (Z.of_nat fd))
    | Some _ => mret (inl tt)
    end) tt;
  mret (match r with inr fd => fd | inl _ => -1 end).

Definition sys_dup : K Z :=
  r ← argfd 0;
  match r with
  | None => mret (-1)
  | Some (_, f) =>
      fd ← fdalloc f;
      if fd <? 0 then mret (-1)
      else filedup f ;; mret fd
  end.

Definition sys_read : K Z :=
  p ← argaddr 1;
  n ← argint 2;
  r ← argfd 0;
  match r with
  | None => mret (-1)
  | Some (_, f) => fileread f p n
  end.

Definition sys_write : K Z :=
  p ← argaddr 1;
  n ← argint 2;
  r ← argfd 0;
  match r with
  | None => mret (-1)
  | Some (_, f) => filewrite f p n
  end.

Definition sys_close : K Z :=
  r ← argfd 0;
  match r with
  | None => mret (-1)
  | Some (fd, f) =>
      p ← curproc;
      ofile_set p (Z.to_nat fd) None ;;
      fileclose f ;;
      mret 0
  end.

Definition sys_fstat : K Z :=
  st ← argaddr 1;
  r ← argfd 0;
  match r with
  | None => mret (-1)
  | Some (_, f) => filestat f st
  end.

(** ** Directories *)

Definition nlink_add (ip : nat) (d : Z) : K unit :=
  iset ip (fun x => (x <| i_nlink := i16 (i_nlink x + d) |>)%rec).

Definition sys_link_bad (ip : nat) : K Z :=
  ilock ip ;;
  nlink_add ip (-1) ;;
  iupdate ip ;;
  iunlockput ip ;;
  end_op ;;
  mret (-1).

Definition sys_link : K Z :=
  a ← argstr 0 MAXPATH;
  let '(c, old) := (a : Z * list Z) in
  if c <? 0 then mret (-1)
  else
    a ← argstr 1 MAXPATH;
    let '(c, new) := (a : Z * list Z) in
    if c <? 0 then mret (-1)
    else
      begin_op ;;
      ip ← namei old;
      match ip with
      | None => end_op ;; mret (-1)
      | Some ip =>
          ilock ip ;;
          x ← iget_ ip;
          if i_type x =? T_DIR then
            iunlockput ip ;; end_op ;; mret (-1)
          else
            nlink_add ip 1 ;;
            iupdate ip ;;
            iunlock ip ;;
            r ← nameiparent new (zeros 14);
            let '(dp, name) := (r : option nat * list Z) in
            match dp with
            | None => sys_link_bad ip
            | Some dp =>
                ilock dp ;;
                x ← iget_ ip;
                y ← iget_ dp;
                c ← (if negb (i_dev y =? i_dev x) then mret (-1)
                     else dirlink dp name (i_inum x));
                if c <? 0 then
                  iunlockput dp ;; sys_link_bad ip
                else
                  iunlockput dp ;;
                  iput ip ;;
                  end_op ;;
                  mret 0
            end
      end.

Definition isdirempty (dp : nat) : K bool :=
  x ← iget_ dp;
  kloop (Z.to_N (i_size x / sizeof_dirent) + 2) (fun off =>
    if negb (off <? i_size x) then mret (inr true)
    else
      r ← readi dp DLocal off sizeof_dirent;
      let '(cnt, de) := (r : Z * list Z) in
      if negb (cnt =? sizeof_dirent) then panic "isdirempty: readi"
      else if negb (dirent_inum de =? 0) then mret (inr false)
      else mret (inl (off + sizeof_dirent))) (2 * sizeof_dirent).

(** The C strings "." and "..". *)
Definition dot : list Z := [46].
Definition dotdot : list Z := [46; 46].

Definition sys_unlink : K Z :=
  a ← argstr 0 MAXPATH;
  let '(c, path) := (a : Z * list Z) in
  if c <? 0 then mret (-1)
  else
    begin_op ;;
    r ← nameiparent path (zeros 14);
    let '(dp, name) := (r : option nat * list Z) in
    match dp with
    | None => end_op ;; mret (-1)
    | Some dp =>
        let bad := iunlockput dp ;; end_op ;; mret (-1) in
        ilock dp ;;
        if (namecmp name dot =? 0) || (namecmp name dotdot =? 0) then bad
        else
          r ← dirlookup dp name;
          match r with
          | None => bad
          | Some (ip, off) =>
              ilock ip ;;
              x ← iget_ ip;
              if i_nlink x <? 1 then panic "unlink: nlink < 1"
              else
                e ← (if i_type x =? T_DIR then isdirempty ip else mret true);
                if negb e then iunlockput ip ;; bad
                else
                  w ← writei dp (SLocal (zeros 16)) off sizeof_dirent;
                  if negb (w =? sizeof_dirent) then panic "unlink: writei"
                  else
                    x ← iget_ ip;
                    kwhen (i_type x =? T_DIR) (nlink_add dp (-1) ;; iupdate dp) ;;
                    iunlockput dp ;;
                    nlink_add ip (-1) ;;
                    iupdate ip ;;
                    iunlockput ip ;;
                    end_op ;;
                    mret 0
          end
    end.

(** The label fail: of create. *)
Definition create_fail (ip dp : nat) : K (option nat) :=
  iset ip (fun x => (x <| i_nlink := 0 |>)%rec) ;;
  iupdate ip ;;
  iunlockput ip ;;
  iunlockput dp ;;
  mret None.

Definition create (path : list Z) (type major minor : Z) : K (option nat) :=
  r ← nameiparent path (zeros 14);
  let '(dp, name) := (r : option nat * list Z) in
  match dp with
  | None => mret None
  | Some dp =>
      ilock dp ;;
      r ← dirlookup dp name;
      match r with
      | Some (ip, _) =>
          iunlockput dp ;;
          ilock ip ;;
          x ← iget_ ip;
          if (type =? T_FILE) && ((i_type x =? T_FILE) || (i_type x =? T_DEVICE))
          then mret (Some ip)
          else iunlockput ip ;; mret None
      | None =>
          y ← iget_ dp;
          ip ← ialloc (i_dev y) type;
          match ip with
          | None => iunlockput dp ;; mret None
          | Some ip =>
              ilock ip ;;
              iset ip (fun x => (x <| i_major := i16 major |>)%rec) ;;
              iset ip (fun x => (x <| i_minor := i16 minor |>)%rec) ;;
              iset ip (fun x => (x <| i_nlink := 1 |>)%rec) ;;
              iupdate ip ;;
              x ← iget_ ip;
              c ← (if type =? T_DIR then
                     c ← dirlink ip dot (i_inum x);
                     if c <? 0 then mret (-1)
                     else y ← iget_ dp; dirlink ip dotdot (i_inum y)
                   else mret 0);
              if c <? 0 then create_fail ip dp
              else
                c ← dirlink dp name (i_inum x);
                if c <? 0 then create_fail ip dp
                else
                  kwhen (type =? T_DIR) (nlink_add dp 1 ;; iupdate dp) ;;
                  iunlockput dp ;;
                  mret (Some ip)
          end
      end
  end.

(** From the point where [ip] is locked. *)
Definition open_inode (ip : nat) (omode : Z) : K Z :=
  x ← iget_ ip;
  if (i_type x =? T_DEVICE) && ((i_major x <? 0) || (NDEV <=? i_major x)) then
    iunlockput ip ;; end_op ;; mret (-1)
  else
    f ← filealloc;
    fd ← (match f with None => mret (-1) | Some f => fdalloc f end);
    match f with
    | Some f =>
        if fd <? 0 then
          fileclose f ;; iunlockput ip ;; end_op ;; mret (-1)
        else
          (if i_type x =? T_DEVICE then
             fset f (fun y => (y <| f_type := FD_DEVICE |> <| f_major := i_major x |>)%rec)
           else fset f (fun y => (y <| f_type := FD_INODE |> <| f_off := 0 |>)%rec)) ;;
          fset f (fun y => (y <| f_ip := Some ip |>
            <| f_readable := if has omode O_WRONLY then 0 else 1 |>
            <| f_writable := if has omode O_WRONLY || has omode O_RDWR then 1 else 0 |>)%rec) ;;
          kwhen (has omode O_TRUNC && (i_type x =? T_FILE)) (itrunc ip) ;;
          iunlock ip ;;
          end_op ;;
          mret fd
    | None => iunlockput ip ;; end_op ;; mret (-1)
    end.

Definition sys_open : K Z :=
  omode ← argint 1;
  a ← argstr 0 MAXPATH;
  let '(n, path) := (a : Z * list Z) in
  if n <? 0 then mret (-1)
  else
    begin_op ;;
    if has omode O_CREATE then
      ip ← create path T_FILE 0 0;
      match ip with
      | None => end_op ;; mret (-1)
      | Some ip => open_inode ip omode
      end
    else
      ip ← namei path;
      match ip with
      | None => end_op ;; mret (-1)
      | Some ip =>
          ilock ip ;;
          x ← iget_ ip;
          if (i_type x =? T_DIR) && negb (omode =? O_RDONLY) then
            iunlockput ip ;; end_op ;; mret (-1)
          else open_inode ip omode
      end.

Definition sys_mkdir : K Z :=
  begin_op ;;
  a ← argstr 0 MAXPATH;
  let '(n, path) := (a : Z * list Z) in
  ip ← (if n <? 0 then mret None else create path T_DIR 0 0);
  match ip with
  | None => end_op ;; mret (-1)
  | Some ip => iunlockput ip ;; end_op ;; mret 0
  end.

Definition sys_mknod : K Z :=
  begin_op ;;
  major ← argint 1;
  minor ← argint 2;
  a ← argstr 0 MAXPATH;
  let '(n, path) := (a : Z * list Z) in
  ip ← (if n <? 0 then mret None else create path T_DEVICE (i16 major) (i16 minor));
  match ip with
  | None => end_op ;; mret (-1)
  | Some ip => iunlockput ip ;; end_op ;; mret 0
  end.

Definition sys_chdir : K Z :=
  p ← curproc;
  begin_op ;;
  a ← argstr 0 MAXPATH;
  let '(n, path) := (a : Z * list Z) in
  ip ← (if n <? 0 then mret None else namei path);
  match ip with
  | None => end_op ;; mret (-1)
  | Some ip =>
      ilock ip ;;
      x ← iget_ ip;
      if negb (i_type x =? T_DIR) then
        iunlockput ip ;; end_op ;; mret (-1)
      else
        iunlock ip ;;
        pr ← pget p;
        cwd ← from_option_K (p_cwd pr);
        iput cwd ;;
        end_op ;;
        pset p (fun pr => (pr <| p_cwd := Some ip |>)%rec) ;;
        mret 0
  end.

(** [for(i = 0; i < NELEM(argv) && argv[i] != 0; i++) kfree(argv[i]);] *)
Definition free_argv (pages : list Z) : K unit := kfor_ pages kfree.

(** The loop of sys_exec that fetches the arguments: the pages allocated, the
    strings read into them, and whether the terminating NULL was reached
    (false is goto bad). *)
Definition exec_fetch (uargv : Z) : K (list Z * list (list Z) * bool) :=
  kloop (N.of_nat MAXARG + 1) (fun '(i, pages, strs) =>
    if Z.of_nat MAXARG <=? i then mret (inr (pages, strs, false))
    else
      r ← fetchaddr (u64 (uargv + 8 * i));
      let '(c, uarg) := (r : Z * Z) in
      if c <? 0 then mret (inr (pages, strs, false))
      else if uarg =? 0 then mret (inr (pages, strs, true))
      else
        pg ← kalloc;
        if pg =? 0 then mret (inr (pages, strs, false))
        else
          r ← fetchstr uarg PGSIZE;
          let '(c, buf) := (r : Z * list Z) in
          set_mem (fun m => store_bytes m pg buf) ;;
          if c <? 0 then mret (inr (pages ++ [pg], strs, false))
          else mret (inl (i + 1, pages ++ [pg], strs ++ [cstr buf])))
    (0, ([] : list Z), ([] : list (list Z))).

Definition sys_exec : K Z :=
  uargv ← argaddr 1;
  a ← argstr 0 MAXPATH;
  let '(n, path) := (a : Z * list Z) in
  if n <? 0 then mret (-1)
  else
    r ← exec_fetch uargv;
    let '(pages, strs, ok) := (r : list Z * list (list Z) * bool) in
    if ok then
      ret ← kexec path strs;
      free_argv pages ;;
      mret ret
    else free_argv pages ;; mret (-1).

Definition sys_pipe : K Z :=
  p ← curproc;
  fdarray ← argaddr 0;
  r ← pipealloc;
  match r with
  | None => mret (-1)
  | Some (rf, wf) =>
      fd0 ← fdalloc rf;
      fd1 ← (if fd0 <? 0 then mret (-1) else fdalloc wf);
      if (fd0 <? 0) || (fd1 <? 0) then
        kwhen (0 <=? fd0) (ofile_set p (Z.to_nat fd0) None) ;;
        fileclose rf ;;
        fileclose wf ;;
        mret (-1)
      else
        pr ← pget p;
        c ← copyout (p_pagetable pr) fdarray (bytes_le 4 fd0) 4;
        c ← (if c <? 0 then mret c
             else copyout (p_pagetable pr) (u64 (fdarray + 4)) (bytes_le 4 fd1) 4);
        if c <? 0 then
          ofile_set p (Z.to_nat fd0) None ;;
          ofile_set p (Z.to_nat fd1) None ;;
          fileclose rf ;;
          fileclose wf ;;
          mret (-1)
        else mret 0
  end.

End SysFile.
