(* ===== verification/SysProc.v ===== *)
(** The process system calls, kernel/sysproc.c, and the dispatcher of
    kernel/syscall.c.

    A handler returns the C value of its [return] statement; syscall() stores
    it in the caller's a0 as a uint64. *)
From stdpp Require Import base gmap list strings.
From Stdlib Require Import ZArith Lia ZifyBool.
From S2P Require Import Prelude Fcntl Memory KPrintf State Monad Demo Kalloc ProcBase Vm Sleeplock Bio Log Fs Pipe File Proc Exec SysFile.

Local Open Scope Z_scope.

Section SysProc.
Context `{Linker} `{BlockDevice} `{DevSwitch}.

Definition sys_exit : K Z :=
  n ← argint 0;
  kexit n ;;
  mret 0.

Definition sys_getproccount : K Z := kgetproccount.

(** [info] is the uninitialised struct on the kernel stack. *)
Definition sys_getprocinfo (info : procinfo) : K Z :=
  pid ← argint 0;
  addr ← argaddr 1;
  r ← kgetprocinfo pid info;
  let '(c, info) := (r : Z * procinfo) in
  if c <? 0 then mret (-1)
  else
    p ← curproc;
    pr ← pget p;
    c ← copyout (p_pagetable pr) addr (procinfo_bytes info) 28;
    if c <? 0 then mret (-1) else mret 0.

Definition sys_getpid : K Z :=
  p ← curproc;
  pr ← pget p;
  mret (p_pid pr).

Definition sys_fork : K Z := kfork.

Definition sys_thread_create : K Z :=
  func ← argaddr 0;
  arg ← argaddr 1;
  thread_fork func arg.

Definition sys_thread_join : K Z :=
  pid ← argint 0;
  kwaitpid pid 0.

Definition sys_thread_exit : K Z :=
  kexit 0 ;;
  mret 0.

Definition sys_wait : K Z :=
  p ← argaddr 0;
  kwait p.

Definition sys_getppid : K Z :=
  p ← curproc;
  pr ← pget p;
  match p_parent pr with
  | Some q => qr ← pget q; mret (p_pid qr)
  | None => mret 0
  end.

Definition sys_sbrk : K Z :=
  n ← argint 0;
  t ← argint 1;
  p ← curproc;
  pr ← pget p;
  let addr := p_sz pr in
  if (t =? SBRK_EAGER) || (n <? 0) then
    c ← growproc n;
    if c <? 0 then mret (-1) else mret addr
  else if u64 (addr + n) <? addr then mret (-1)
  else if TRAPFRAME <? u64 (addr + n) then mret (-1)
  else
    pset p (fun pr => (pr <| p_sz := u64 (p_sz pr + n) |>)%rec) ;;
    mret addr.

Definition sys_pause : K Z :=
  n ← argint 0;
  let n := if n <? 0 then 0 else n in
  acquire LTicks ;;
  ticks0 ← gets k_ticks;
  ksleeploop (fun _ : unit =>
    ticks ← gets k_ticks;
    if u32 (ticks - ticks0) <? n then
      p ← curproc;
      k ← killed p;
      if negb (k =? 0) then release LTicks ;; mret (inr (-1))
      else sleep ChTicks LTicks ;; mret (inl tt)
    else release LTicks ;; mret (inr 0)) tt.

Definition sys_kill : K Z :=
  pid ← argint 0;
  kkill pid.

Definition sys_uptime : K Z :=
  acquire LTicks ;;
  xticks ← gets k_ticks;
  release LTicks ;;
  mret xticks.

Definition sys_waitpid : K Z :=
  pid ← argint 0;
  addr ← argaddr 1;
  kwaitpid pid addr.

Definition sys_getchildren : K Z :=
  addr ← argaddr 0;
  maxn ← argint 1;
  kgetchildren addr maxn.

Definition sys_signal : K Z :=
  signum ← argint 0;
  handler ← argaddr 1;
  if (signum <? 0) || (32 <=? signum) then mret (-1)
  else
    p ← curproc;
    pset p (fun pr => (pr <| p_signal_handlers ::= <[Z.to_nat signum := handler]> |>)%rec) ;;
    mret 0.

Definition sys_sigreturn : K Z :=
  p ← curproc;
  pr ← pget p;
  tfset (p_trapframe pr) (fun _ => p_saved_trapframe pr) ;;
  pset p (fun pr => (pr <| p_handling_signal := 0 |>)%rec) ;;
  tf ← tfget (p_trapframe pr);
  mret (tf_get Ta0 tf).

Definition sys_sigsend : K Z :=
  pid ← argint 0;
  signum ← argint 1;
  if (signum <? 0) || (32 <=? signum) then mret (-1)
  else ksigsend pid signum.

Definition sys_ipc_send : K Z :=
  pid ← argint 0;
  src ← argaddr 1;
  n ← argint 2;
  kipc_send pid src n.

Definition sys_ipc_recv : K Z :=
  dst ← argaddr 0;
  n ← argint 1;
  kipc_recv dst n.

(** ** syscall.h and the dispatch table *)

(** [syscalls[num]]; the numbers are those of syscall.h, 23 is a hole. *)
Definition syscalls (info : procinfo) (num : Z) : option (K Z) :=
  match num with
  | 1 => Some sys_fork
  | 2 => Some sys_exit
  | 3 => Some sys_wait
  | 4 => Some sys_pipe
  | 5 => Some sys_read
  | 6 => Some sys_kill
  | 7 => Some sys_exec
  | 8 => Some sys_fstat
  | 9 => Some sys_chdir
  | 10 => Some sys_dup
  | 11 => Some sys_getpid
  | 12 => Some sys_sbrk
  | 13 => Some sys_pause
  | 14 => Some sys_uptime
  | 15 => Some sys_open
  | 16 => Some sys_write
  | 17 => Some sys_mknod
  | 18 => Some sys_unlink
  | 19 => Some sys_link
  | 20 => Some sys_mkdir
  | 21 => Some sys_close
  | 22 => Some sys_getppid
  | 24 => Some sys_waitpid
  | 25 => Some sys_getchildren
  | 26 => Some sys_getproccount
  | 27 => Some (sys_getprocinfo info)
  | 28 => Some sys_signal
  | 29 => Some sys_sigsend
  | 30 => Some sys_sigreturn
  | 31 => Some sys_thread_create
  | 32 => Some sys_thread_join
  | 33 => Some sys_thread_exit
  | 34 => Some sys_ipc_send
  | 35 => Some sys_ipc_recv
  | _ => None
  end.

(** [NELEM(syscalls)] *)
Definition NSYSCALLS : Z := 36.

Definition syscall (info : procinfo) : K unit :=
  p ← curproc;
  pr ← pget p;
  tf ← tfget (p_trapframe pr);
  let num := i32 (tf_get Ta7 tf) in
  let unknown :=
    printf "%d %s: unknown sys call %d\n" [VInt (p_pid pr); VStr (Some (p_name pr)); VInt num] ;;
    tfset (p_trapframe pr) (tf_set Ta0 (u64 (-1))) in
  if (0 <? num) && (num <? NSYSCALLS) then
    match syscalls info num with
    | Some f =>
        r ← f;
        pr ← pget p;
        tfset (p_trapframe pr) (tf_set Ta0 (u64 r))
    | None => unknown
    end
  else unknown.

End SysProc.
