(* ===== verification/Trap.v ===== *)
(** Traps, kernel/trap.c: entry from user space with system calls, page faults,
    interrupts and signal delivery; the return path; kernel traps; the clock. *)
From stdpp Require Import base gmap list strings.
From Stdlib Require Import ZArith Lia ZifyBool.
From S2P Require Import Prelude Memory KPrintf State Monad Demo Kalloc ProcBase Vm Sleeplock Bio Log Fs Pipe File Proc Exec SysFile SysProc.

Local Open Scope Z_scope.

Definition SSTATUS_SPP : Z := Z.shiftl 1 8.
Definition SSTATUS_SPIE : Z := Z.shiftl 1 5.
Definition SSTATUS_SIE : Z := Z.shiftl 1 1.
Definition UART0_IRQ : Z := 10.
Definition VIRTIO0_IRQ : Z := 1.

(** The interrupt controller and the device drivers (plic.c, uart.c,
    virtio_disk.c) as the trap code calls them. *)
Class IntrDevices := {
  plic_claim : K Z;
  plic_complete : Z -> K unit;
  uartintr : K unit;
  virtio_disk_intr : K unit
}.

Definition csr_mod (f : csrs -> csrs) : K unit :=
  modify (fun s => (s <| k_csr ::= f |>)%rec).

Definition intr_on : K unit :=
  csr_mod (fun c => (c <| sstatus := Z.lor (sstatus c) SSTATUS_SIE |>)%rec).
Definition intr_off : K unit :=
  csr_mod (fun c => (c <| sstatus := Z.land (sstatus c) (Z.lnot SSTATUS_SIE) |>)%rec).
Definition w_stvec (x : Z) : K unit := csr_mod (fun c => (c <| stvec := x |>)%rec).

(** One test of the delivery loop: signal [i] is pending and has a handler. *)
Definition deliverable (pr : proc) (i : Z) : bool :=
  negb (Z.land (p_pending_signals pr) (u32 (Z.shiftl 1 i)) =? 0) &&
  negb (nth (Z.to_nat i) (p_signal_handlers pr) 0 =? NOHANDLER).

(** The signal delivery block of usertrap(). *)
Definition deliver_signal (p : nat) : K unit :=
  pr ← pget p;
  kwhen (p_handling_signal pr =? 0)
    (_ ← kfor (seqZ 0 32) (fun i (_ : unit) =>
       pr ← pget p;
       if deliverable pr i then
         pset p (fun pr => (pr <| p_pending_signals :=
           Z.land (p_pending_signals pr) (u32 (Z.lnot (Z.shiftl 1 i))) |>)%rec) ;;
         tf ← tfget (p_trapframe pr);
         pset p (fun pr => (pr <| p_saved_trapframe := tf |>)%rec) ;;
         tfset (p_trapframe pr) (tf_set Tepc (nth (Z.to_nat i) (p_signal_handlers pr) 0)) ;;
         pset p (fun pr => (pr <| p_handling_signal := 1 |>)%rec) ;;
         mret (inr tt)
       else mret (inl tt)) tt;
     mret tt).

Section Trap.
Context `{Linker} `{BlockDevice} `{DevSwitch} `{IntrDevices}.

Definition clockintr : K unit :=
  c ← cpuid;
  kwhen (c =? 0)
    (acquire LTicks ;;
     modify (fun s => (s <| k_ticks := u32 (k_ticks s + 1) |>)%rec) ;;
     wakeup ChTicks ;;
     release LTicks) ;;
  csr_mod (fun c => (c <| stimecmp := u64 (time c + 1000000) |>)%rec).

Definition devintr : K Z :=
  c ← gets k_csr;
  if scause c =? 0x8000000000000009 then
    irq ← plic_claim;
    (if irq =? UART0_IRQ then uartintr
     else if irq =? VIRTIO0_IRQ then virtio_disk_intr
     else kwhen (negb (irq =? 0)) (printf "unexpected interrupt irq=%d\n" [VInt irq])) ;;
    kwhen (negb (irq =? 0)) (plic_complete irq) ;;
    mret 1
  else if scause c =? 0x8000000000000005 then
    clockintr ;; mret 2
  else mret 0.

Definition prepare_return : K unit :=
  p ← curproc;
  pr ← pget p;
  intr_off ;;
  w_stvec (TRAMPOLINE + uservec_off) ;;
  c ← gets k_csr;
  tfset (p_trapframe pr) (tf_set Tkernel_satp (satp c)) ;;
  tfset (p_trapframe pr) (tf_set Tkernel_sp (u64 (p_kstack pr + PGSIZE))) ;;
  tfset (p_trapframe pr) (tf_set Tkernel_trap usertrap_addr) ;;
  tfset (p_trapframe pr) (tf_set Tkernel_hartid (tp c)) ;;
  csr_mod (fun c => (c <| sstatus :=
    Z.lor (Z.land (sstatus c) (Z.lnot SSTATUS_SPP)) SSTATUS_SPIE |>)%rec) ;;
  tf ← tfget (p_trapframe pr);
  csr_mod (fun c => (c <| sepc := tf_get Tepc tf |>)%rec).

(** The result is the user satp.  [info] is the stack content sys_getprocinfo
    finds. *)
Definition usertrap (info : procinfo) : K Z :=
  c ← gets k_csr;
  if has (sstatus c) SSTATUS_SPP then panic "usertrap: not from user mode"
  else
    w_stvec kernelvec_addr ;;
    p ← curproc;
    pr ← pget p;
    tfset (p_trapframe pr) (tf_set Tepc (sepc c)) ;;
    which_dev ← (
      if scause c =? 8 then
        k ← killed p;
        kwhen (negb (k =? 0)) (kexit (-1)) ;;
        tfset (p_trapframe pr) (fun tf => tf_set Tepc (u64 (tf_get Tepc tf + 4)) tf) ;;
        intr_on ;;
        syscall info ;;
        mret 0
      else
        d ← devintr;
        if negb (d =? 0) then mret d
        else
          f ← (if (scause c =? 15) || (scause c =? 13)
               then vmfault (p_pagetable pr) (stval c) (scause c =? 13) else mret 0);
          if negb (f =? 0) then mret 0
          else
            printf "usertrap(): unexpected scause 0x%lx pid=%d\n" [VInt (scause c); VInt (p_pid pr)] ;;
            printf "            sepc=0x%lx stval=0x%lx\n" [VInt (sepc c); VInt (stval c)] ;;
            setkilled p ;;
            mret 0);
    k ← killed p;
    kwhen (negb (k =? 0)) (kexit (-1)) ;;
    kwhen (which_dev =? 2) yield ;;
    deliver_signal p ;;
    prepare_return ;;
    pr ← pget p;
    mret (MAKE_SATP (p_pagetable pr)).

Definition kerneltrap : K unit :=
  c ← gets k_csr;
  if negb (has (sstatus c) SSTATUS_SPP) then panic "kerneltrap: not from supervisor mode"
  else
    ie ← intr_get;
    if ie : bool then panic "kerneltrap: interrupts enabled"
    else
      which_dev ← devintr;
      if which_dev =? 0 then
        printf "scause=0x%lx sepc=0x%lx stval=0x%lx\n"
          [VInt (scause c); VInt (sepc c); VInt (stval c)] ;;
        panic "kerneltrap"
      else
        me ← myproc;
        kwhen ((which_dev =? 2) && bool_decide (me <> None)) yield ;;
        csr_mod (fun c' => (c' <| sepc := sepc c |>)%rec) ;;
        csr_mod (fun c' => (c' <| sstatus := sstatus c |>)%rec).

Definition trapinit : K unit := initlock LTicks.

Definition trapinithart : K unit := w_stvec kernelvec_addr.

(** A process's first return to user space; the result is the address of
    userret in the trampoline, and the satp it is called with. *)
Definition forkret : K (Z * Z) :=
  p ← curproc;
  release (LProc p) ;;
  first ← gets k_first;
  kwhen (negb (first =? 0))
    (fsinit ROOTDEV ;;
     modify (fun s => (s <| k_first := 0 |>)%rec) ;;
     r ← kexec (lit "/init") [lit "/init"];
     pr ← pget p;
     tfset (p_trapframe pr) (tf_set Ta0 (u64 r)) ;;
     tf ← tfget (p_trapframe pr);
     kwhen (tf_get Ta0 tf =? u64 (-1)) (panic "exec")) ;;
  prepare_return ;;
  pr ← pget p;
  mret (u64 (TRAMPOLINE + userret_off), MAKE_SATP (p_pagetable pr)).

End Trap.
