(* ===== verification/Plic.v ===== *)
(** The interrupt controller, kernel/plic.c, the devices as the trap code sees
    them, and the boot sequence of kernel/main.c. *)
From stdpp Require Import base gmap list strings.
From Stdlib Require Import ZArith Lia ZifyBool.
From S2P Require Import Prelude Memory KPrintf State Monad Demo Kalloc ProcBase Vm Sleeplock Bio Log Fs Pipe File Proc Uart Console Virtio Exec SysFile SysProc Trap.

Local Open Scope Z_scope.

Definition PLIC_SENABLE (hart : Z) : Z := PLIC + 0x2080 + hart * 0x100.
Definition PLIC_SPRIORITY (hart : Z) : Z := PLIC + 0x201000 + hart * 0x2000.
Definition PLIC_SCLAIM (hart : Z) : Z := PLIC + 0x201004 + hart * 0x2000.

Section Plic.
Context `{Linker} `{Mmio}.

Definition plicinit : K unit :=
  mmio_write (PLIC + UART0_IRQ * 4) 1 ;;
  mmio_write (PLIC + VIRTIO0_IRQ * 4) 1.

Definition plicinithart : K unit :=
  hart ← cpuid;
  mmio_write (PLIC_SENABLE hart) (Z.lor (Z.shiftl 1 UART0_IRQ) (Z.shiftl 1 VIRTIO0_IRQ)) ;;
  mmio_write (PLIC_SPRIORITY hart) 0.

Definition plic_claim : K Z :=
  hart ← cpuid;
  irq ← mmio_read (PLIC_SCLAIM hart);
  mret (i32 irq).

Definition plic_complete (irq : Z) : K unit :=
  hart ← cpuid;
  mmio_write (PLIC_SCLAIM hart) (u32 irq).

#[export] Instance machine_devices : IntrDevices := {|
  Trap.plic_claim := plic_claim;
  Trap.plic_complete := plic_complete;
  Trap.uartintr := Console.uartintr;
  Trap.virtio_disk_intr := Virtio.virtio_disk_intr
|}.

(** main() on the first CPU, up to scheduler(). *)
Definition main_boot : K unit :=
  consoleinit ;;
  printf "\n" [] ;;
  printf "xv6 kernel is booting\n" [] ;;
  printf "\n" [] ;;
  kinit ;;
  kvminit ;;
  kvminithart ;;
  procinit ;;
  trapinit ;;
  trapinithart ;;
  plicinit ;;
  plicinithart ;;
  binit ;;
  iinit ;;
  fileinit ;;
  virtio_disk_init ;;
  userinit.

(** main() on the other CPUs, once [started] is set. *)
Definition main_hart : K unit :=
  id ← cpuid;
  printf "hart %d starting\n" [VInt id] ;;
  kvminithart ;;
  trapinithart ;;
  plicinithart.

End Plic.
