(* ===== verification/Start.v ===== *)
(** kernel/start.c: what a hart does in machine mode before main(), over the accessors of
    kernel/riscv.h.

    A hart has its privilege mode, program counter, tp and control registers.
    [sie] is the part of [mie] that [mideleg] delegates, as the privileged
    architecture defines it; a write of a register stores all 64 bits.  [main_addr]
    is the address of main(). *)
From stdpp Require Import base list.
From Stdlib Require Import ZArith Lia ZifyBool.
From S2P Require Import Prelude.

Local Open Scope Z_scope.

(** ** riscv.h *)

Inductive csr := Mhartid | Mstatus | Mepc | Satp | Medeleg | Mideleg | Mie | Pmpaddr0 | Pmpcfg0 | Menvcfg | Mcounteren | Stimecmp | Time.

#[export] Instance csr_eq_dec : EqDecision csr.
Proof. solve_decision. Defined.

(** The privilege modes with their encodings in MPP *)
Inductive mode := MUser | MSupervisor | MMachine.
Definition mode_of (x : Z) : option mode :=
  if x =? 0 then Some MUser else if x =? 1 then Some MSupervisor else if x =? 3 then Some MMachine else None.

Record hart := mkhart { h_mode : mode; h_pc : Z; h_tp : Z; h_csr : csr -> Z }.

Definition HM (A : Type) := hart -> A * hart.
#[export] Instance HM_ret : MRet HM := fun A a h => (a, h).
#[export] Instance HM_bind : MBind HM := fun A B f m h => let '(a, h') := m h in f a h'.

Definition csrr (r : csr) : HM Z := fun h => (h_csr h r, h).
Definition csrw (r : csr) (x : Z) : HM unit := fun h =>
  (tt, mkhart (h_mode h) (h_pc h) (h_tp h) (fun r' => if decide (r' = r) then u64 x else h_csr h r')).

Definition r_mhartid : HM Z := csrr Mhartid.
Definition MSTATUS_MPP_MASK : Z := Z.shiftl 3 11.
Definition MSTATUS_MPP_S : Z := Z.shiftl 1 11.
Definition r_mstatus : HM Z := csrr Mstatus.
Definition w_mstatus (x : Z) : HM unit := csrw Mstatus x.
Definition w_mepc (x : Z) : HM unit := csrw Mepc x.
Definition SIE_SEIE : Z := Z.shiftl 1 9.
Definition SIE_STIE : Z := Z.shiftl 1 5.
Definition r_sie : HM Z := fun h => (Z.land (h_csr h Mie) (h_csr h Mideleg), h).
Definition w_sie (x : Z) : HM unit := fun h =>
  csrw Mie (Z.lor (Z.ldiff (h_csr h Mie) (h_csr h Mideleg)) (Z.land x (h_csr h Mideleg))) h.
Definition MIE_STIE : Z := Z.shiftl 1 5.
Definition r_mie : HM Z := csrr Mie.
Definition w_mie (x : Z) : HM unit := csrw Mie x.
Definition w_medeleg (x : Z) : HM unit := csrw Medeleg x.
Definition w_mideleg (x : Z) : HM unit := csrw Mideleg x.
Definition w_stimecmp (x : Z) : HM unit := csrw Stimecmp x.
Definition r_menvcfg : HM Z := csrr Menvcfg.
Definition w_menvcfg (x : Z) : HM unit := csrw Menvcfg x.
Definition w_pmpcfg0 (x : Z) : HM unit := csrw Pmpcfg0 x.
Definition w_pmpaddr0 (x : Z) : HM unit := csrw Pmpaddr0 x.
Definition w_satp (x : Z) : HM unit := csrw Satp x.
Definition w_mcounteren (x : Z) : HM unit := csrw Mcounteren x.
Definition r_mcounteren : HM Z := csrr Mcounteren.
Definition r_time : HM Z := csrr Time.
Definition w_tp (x : Z) : HM unit := fun h => (tt, mkhart (h_mode h) (h_pc h) (u64 x) (h_csr h)).

(** The instruction mret: the mode is the one in MPP, the program counter that of mepc;
    [None] for a reserved mode.  Its other effects on mstatus do not matter here. *)
Definition mret_insn (h : hart) : option hart :=
  m ← mode_of (Z.land (Z.shiftr (h_csr h Mstatus) 11) 3);
  Some (mkhart m (h_csr h Mepc) (h_tp h) (h_csr h)).

(** ** start.c *)

Definition timerinit : HM unit :=
  mie ← r_mie;
  w_mie (Z.lor mie MIE_STIE) ;;
  e ← r_menvcfg;
  w_menvcfg (Z.lor e (Z.shiftl 1 63)) ;;
  c ← r_mcounteren;
  w_mcounteren (Z.lor c 2) ;;
  t ← r_time;
  w_stimecmp (t + 1000000).

Definition start_setup (main_addr : Z) : HM unit :=
  x ← r_mstatus;
  w_mstatus (Z.lor (Z.ldiff x MSTATUS_MPP_MASK) MSTATUS_MPP_S) ;;
  w_mepc main_addr ;;
  w_satp 0 ;;
  w_medeleg 0xffff ;;
  w_mideleg 0xffff ;;
  s ← r_sie;
  w_sie (Z.lor (Z.lor s SIE_SEIE) SIE_STIE) ;;
  w_pmpaddr0 0x3fffffffffffff ;;
  w_pmpcfg0 0xf ;;
  timerinit ;;
  id ← r_mhartid;
  w_tp (i32 id).

Definition start (main_addr : Z) (h : hart) : option hart := mret_insn (start_setup main_addr h).2.

(** ** What main() finds *)

(** Physical memory protection by entry 0 alone, in the mode top-of-range: may supervisor mode
    read, write and execute the byte at [a]? *)
Definition pmp_allows (h : hart) (a : Z) : bool :=
  (Z.land (Z.shiftr (h_csr h Pmpcfg0) 3) 3 =? 1) && (Z.land (h_csr h Pmpcfg0) 7 =? 7) &&
  (0 <=? a) && (a <? 4 * h_csr h Pmpaddr0).

Lemma u64_bit x k : 0 <= k < 64 -> Z.testbit (u64 x) k = Z.testbit x k.
Proof. intros Hk; unfold u64; by rewrite Z.mod_pow2_bits_low by lia. Qed.

(** MPP after the assignment *)
Lemma mpp_supervisor x : Z.land (Z.shiftr (u64 (Z.lor (Z.ldiff x MSTATUS_MPP_MASK) MSTATUS_MPP_S)) 11) 3 = 1.
Proof.
  apply Z.bits_inj'; intros k Hk; rewrite Z.land_spec, Z.shiftr_spec by done.
  destruct (decide (k = 0)) as [-> |]; [| destruct (decide (k = 1)) as [-> |]].
  1,2: rewrite u64_bit, Z.lor_spec, Z.ldiff_spec by lia; simpl; by rewrite ?andb_false_r, ?andb_true_r, ?orb_true_r.
  assert (H3 : Z.testbit 3 k = false) by (apply (Z.bits_above_log2 3 k); simpl; lia).
  assert (H1 : Z.testbit 1 k = false) by (apply (Z.bits_above_log2 1 k); simpl; lia).
  by rewrite H3, H1, andb_false_r.
Qed.

(** The registers before mret *)
Lemma start_regs main_addr h :
  let h1 := (start_setup main_addr h).2 in
  let d := u64 0xffff in
  h_csr h1 Mstatus = u64 (Z.lor (Z.ldiff (h_csr h Mstatus) MSTATUS_MPP_MASK) MSTATUS_MPP_S) /\
  h_csr h1 Mie = u64 (Z.lor (u64 (Z.lor (Z.ldiff (h_csr h Mie) d)
                                   (Z.land (Z.lor (Z.lor (Z.land (h_csr h Mie) d) SIE_SEIE) SIE_STIE) d))) MIE_STIE) /\
  h_csr h1 Medeleg = d /\ h_csr h1 Mideleg = d /\ h_csr h1 Mepc = u64 main_addr /\ h_csr h1 Satp = u64 0 /\
  h_tp h1 = u64 (i32 (h_csr h Mhartid)) /\ h_csr h1 Pmpcfg0 = u64 0xf /\ h_csr h1 Pmpaddr0 = u64 0x3fffffffffffff.
Proof. cbv zeta; repeat split. Qed.

(** Bits of the interrupt enables *)
Lemma sie_bits m d :
  (forall k, 0 <= k < 16 -> Z.testbit d k = true) ->
  let e := u64 (Z.lor (u64 (Z.lor (Z.ldiff m d) (Z.land (Z.lor (Z.lor (Z.land m d) SIE_SEIE) SIE_STIE) d))) MIE_STIE) in
  Z.testbit (Z.land e d) 9 = true /\ Z.testbit (Z.land e d) 5 = true.
Proof.
  intros Hd; cbv zeta; rewrite !Z.land_spec, !Hd, !andb_true_r, !u64_bit, !Z.lor_spec, !u64_bit by lia; split.
  - rewrite !Z.lor_spec, (Z.land_spec (Z.lor _ _)), Hd, !Z.lor_spec by lia.
    replace (Z.testbit SIE_SEIE 9) with true by reflexivity; by rewrite orb_true_r, orb_true_l, orb_true_r.
  - replace (Z.testbit MIE_STIE 5) with true by reflexivity; by rewrite orb_true_r.
Qed.

(** A hart leaves start() in supervisor mode at main(), with paging off, its number in tp, all
    of the low 2^56 bytes of physical memory but the last four within reach, all traps delegated and external
    and timer interrupts enabled. *)
Theorem start_spec main_addr h :
  0 <= main_addr < 2 ^ 64 -> 0 <= h_csr h Mhartid < 2 ^ 31 ->
  exists h', start main_addr h = Some h' /\ h_mode h' = MSupervisor /\ h_pc h' = main_addr /\ h_csr h' Satp = 0 /\
    h_tp h' = h_csr h Mhartid /\ (forall a, 0 <= a < 2 ^ 56 - 4 -> pmp_allows h' a = true) /\
    (forall k, 0 <= k < 16 -> Z.testbit (h_csr h' Medeleg) k = true /\ Z.testbit (h_csr h' Mideleg) k = true) /\
    Z.testbit (r_sie h').1 9 = true /\ Z.testbit (r_sie h').1 5 = true.
Proof.
  intros Hm Hid; pose proof (start_regs main_addr h) as Hregs; unfold start, mret_insn; revert Hregs.
  generalize ((start_setup main_addr h).2) as h1; intros h1 (Hms & Hmie & Hd1 & Hd2 & Hpc & Hsatp & Htp & Hcfg & Hadr).
  assert (Hd : forall k, 0 <= k < 16 -> Z.testbit (u64 65535) k = true)
    by (intros k Hk; rewrite u64_bit by lia; exact (Z.ones_spec_low 16 k Hk)).
  rewrite Hms, mpp_supervisor; eexists; split; [reflexivity |]; unfold pmp_allows, r_sie; cbn [h_mode h_pc h_tp h_csr fst].
  rewrite Hpc, Hsatp, Htp, Hcfg, Hadr, Hd1, Hd2, Hmie, i32_small, !u64_small by lia.
  split; [reflexivity |]; split; [reflexivity |]; split; [reflexivity |]; split; [reflexivity |]; split; [| split; [| by apply sie_bits]].
  - intros a Ha; replace (Z.land (Z.shiftr 15 3) 3) with 1 by reflexivity; replace (Z.land 15 7) with 7 by reflexivity; lia.
  - intros k Hk; split; by apply Hd.
Qed.
