(* ===== verification/ProcSpec.v ===== *)
(** Process inspection, signals and messages: what the system calls added to
    proc.c compute. *)
From stdpp Require Import base gmap list strings.
From Stdlib Require Import ZArith Lia ZifyBool.
From S2P Require Import Prelude Memory KPrintf State Monad Demo Kalloc ProcBase Vm Frame Sleeplock Bio Log Fs Pipe File Proc.

Local Open Scope Z_scope.

(** ** Counting and reporting *)

Lemma fold_count (P : proc -> bool) (l : list proc) (n : nat) (z : Z) :
  fold_left (fun c i => match l !! i with
                        | Some p => if P p then c + 1 else c
                        | None => c end) (seq 0 (length l)) z =
  z + Z.of_nat (length (List.filter P l)).
Proof.
  clear n; revert z; induction l as [| p l IH] using rev_ind; intros z; simpl; [lia |].
  rewrite length_app; simpl; rewrite seq_app, fold_left_app; simpl.
  rewrite list_lookup_middle by done.
  rewrite List.filter_app, length_app, Nat2Z.inj_add; simpl.
  replace (fold_left _ (seq 0 (length l)) z) with (z + Z.of_nat (length (List.filter P l))).
  - destruct (P p); simpl; lia.
  - rewrite <- IH.
    assert (Hext : forall js c, Forall (fun i => (i < length l)%nat) js ->
      fold_left (fun c i => match l !! i with Some p => if P p then c + 1 else c | None => c end) js c =
      fold_left (fun c i => match (l ++ [p]) !! i with Some p => if P p then c + 1 else c | None => c end) js c).
    { induction js as [| i js IHjs]; intros c Hf; simpl; [done |].
      apply Forall_cons in Hf as [Hi Hf]; rewrite lookup_app_l by done; apply IHjs; done. }
    apply Hext, Forall_forall; intros i Hi%elem_of_seq; lia.
Qed.

Definition in_use (p : proc) : bool := negb (bool_decide (p_state p = UNUSED)).

(** Getproccount() returns the number of table entries that are not
    UNUSED, and changes nothing. *)
Theorem kgetproccount_spec (s : kstate) (o : oracle) (Hlen : procs_ok s) (Hlk : no_plock s) :
  kgetproccount s o = Ok (Z.of_nat (length (List.filter in_use (k_procs s)))) s o.
Proof.
  unfold kgetproccount, mbind, K_bind at 1.
  rewrite (kfor_pure _ _ (fun i c => match k_procs s !! i with
      | Some p => if in_use p then c + 1 else c | None => c end)).
  - rewrite ret_ok; f_equal; rewrite <- Hlen, (fold_count in_use _ 0); lia.
  - intros i c Hi; apply elem_of_seq in Hi.
    destruct (lookup_lt_is_Some_2 (k_procs s) i) as [p Hp]; [unfold procs_ok in Hlen; lia |].
    step_with acquire_ok; step_with pget_ok; step_with release_ok; rewrite ret_ok, Hp.
    f_equal; state_eq; rewrite decide_True by done; done.
Qed.

Lemma kgetproccount_spec_witness :
  kgetproccount (zero_state <| k_procs ::= upd 5 (fun p => p <| p_state := RUNNING |>) |>)%rec []
  = Ok 1 (zero_state <| k_procs ::= upd 5 (fun p => p <| p_state := RUNNING |>) |>)%rec [].
Proof.
  exact (kgetproccount_spec
    (zero_state <| k_procs ::= upd 5 (fun p => p <| p_state := RUNNING |>) |>)%rec []
    eq_refl ltac:(intros i; set_solver)).
Defined.

(** The entry getprocinfo(pid) reports: a live one with that pid. *)
Definition live_pid (pid : Z) (p : proc) : Prop := p_pid p = pid /\ p_state p <> UNUSED.

#[export] Instance live_pid_dec pid p : Decision (live_pid pid p).
Proof. unfold live_pid; apply _. Defined.

(** The test as the loops write it. *)
Lemma live_pid_bool pid p :
  (p_pid p =? pid) && negb (bool_decide (p_state p = UNUSED)) = bool_decide (live_pid pid p).
Proof.
  unfold live_pid; destruct (Z.eqb_spec (p_pid p) pid); repeat case_bool_decide; naive_solver.
Qed.

(** What it fills in, over the old contents [info] of the struct. *)
Definition info_of (info : procinfo) (p : proc) : procinfo :=
  mkprocinfo (p_pid p) (procstate_Z (p_state p)) (i32 (p_sz p))
    (safestrcpy (pi_name info) (p_name p) PROC_NAME_MAX).

Lemma plock_cycle i s o :
  LProc i ∉ k_locks s ->
  (acquire (LProc i) ;; release (LProc i)) s o = Ok tt s o.
Proof.
  intros; step_with acquire_ok; rewrite release_ok by (simpl; set_solver).
  f_equal; state_eq; rewrite decide_True by done; done.
Qed.

(** getprocinfo(pid) reports the first live entry with that pid: its pid,
    state, size as an int and name, NUL-terminated in 16 bytes; without one it
    fails and leaves the struct as it was. *)
Theorem kgetprocinfo_spec (pid : Z) (info : procinfo) (s : kstate) (o : oracle)
  (Hlen : procs_ok s) (Hlk : no_plock s) (Hname : length (pi_name info) = 16%nat) :
  match list_find (live_pid pid) (k_procs s) with
  | Some (_, p) =>
      kgetprocinfo pid info s o = Ok (0, info_of info p) s o /\
      length (pi_name (info_of info p)) = 16%nat /\
      cstr (pi_name (info_of info p)) = take 15 (cstr (p_name p))
  | None => kgetprocinfo pid info s o = Ok (-1, info) s o
  end.
Proof.
  assert (Hk : kgetprocinfo pid info s o =
    match list_find (live_pid pid) (k_procs s) with
    | Some (_, p) => Ok (0, info_of info p) s o
    | None => Ok (-1, info) s o end).
  { unfold kgetprocinfo; unfold mbind at 1, K_bind at 1.
    rewrite (kfor_find tt (live_pid pid) _ (fun _ p s => Ok (inr (0, info_of info p)) s o)); try done.
    - destruct (list_find _ _) as [[i p] |]; done.
    - intros i p Hp []; step_with acquire_ok; step_with pget_ok.
      rewrite live_pid_bool; cbv zeta; destruct (decide (live_pid pid p));
        [rewrite bool_decide_eq_true_2 by assumption | rewrite bool_decide_eq_false_2 by assumption].
      + step_with release_ok; rewrite ret_ok; f_equal; state_eq; rewrite decide_True by done; done.
      + step_with release_ok; rewrite ret_ok; f_equal; state_eq; rewrite decide_True by done; done.
    - intros i p s' x o' [= <- _ _]; eauto. }
  rewrite Hk; destruct (list_find _ _) as [[i p] |]; [| done].
  split; [done |]; simpl.
  destruct (safestrcpy_loop_spec (pi_name info) (p_name p) 15) as [Hl Hc]; [lia |].
  split; [exact (eq_trans Hl Hname) | exact Hc].
Qed.

Definition demo_init : proc :=
  (zero_proc <| p_pid := 1 |> <| p_state := SLEEPING |> <| p_sz := 12288 |>
             <| p_name := [105; 110; 105; 116] ++ replicate 12 0 |>)%rec.

Lemma kgetprocinfo_spec_witness :
  kgetprocinfo 1 (mkprocinfo 0 0 0 (replicate 16 170))
    (zero_state <| k_procs ::= upd 0 (fun _ => demo_init) |>)%rec []
  = Ok (0, info_of (mkprocinfo 0 0 0 (replicate 16 170)) demo_init)
      (zero_state <| k_procs ::= upd 0 (fun _ => demo_init) |>)%rec [].
Proof.
  exact (proj1 (kgetprocinfo_spec 1 (mkprocinfo 0 0 0 (replicate 16 170))
    (zero_state <| k_procs ::= upd 0 (fun _ => demo_init) |>)%rec []
    eq_refl ltac:(intros i; set_solver) eq_refl)).
Defined.

(** ** getchildren *)

Definition living_child (p : nat) (q : proc) : bool :=
  bool_decide (p_parent q = Some p) && negb (bool_decide (p_state q = UNUSED))
  && negb (bool_decide (p_state q = ZOMBIE)).

(** The pids of the living children of [p], in table order. *)
Definition children (p : nat) (l : list proc) : list Z :=
  p_pid <$> List.filter (living_child p) l.

Definition child_step (p : nat) (l : list proc) (maxn : Z) (i : nat) (st : list Z * Z) : list Z * Z :=
  match l !! i with
  | Some q =>
      if living_child p q
      then (if st.2 <? maxn then (st.1 ++ [p_pid q], st.2 + 1) else (st.1, st.2 + 1)) else st
  | None => st
  end.

Lemma children_fold p l maxn :
  fold_left (fun st i => child_step p l maxn i st) (seq 0 (length l)) ([], 0) =
  (take (Z.to_nat maxn) (children p l), Z.of_nat (length (children p l))).
Proof.
  induction l as [| q l IH] using rev_ind; [unfold children; simpl; by rewrite take_nil |].
  rewrite length_app; simpl; rewrite seq_app, fold_left_app; simpl.
  assert (Hext : forall js st, Forall (fun i => (i < length l)%nat) js ->
    fold_left (fun st i => child_step p (l ++ [q]) maxn i st) js st =
    fold_left (fun st i => child_step p l maxn i st) js st).
  { induction js as [| i js IHjs]; intros st Hf; simpl; [done |].
    apply Forall_cons in Hf as [Hi Hf]; rewrite IHjs by done; f_equal.
    unfold child_step; rewrite lookup_app_l by done; done. }
  rewrite Hext by (apply Forall_forall; intros i Hi%elem_of_seq; lia); rewrite IH.
  unfold child_step; rewrite list_lookup_middle by done.
  unfold children; rewrite List.filter_app, fmap_app; simpl.
  destruct (living_child p q); simpl; [| by rewrite app_nil_r].
  rewrite length_app; simpl.
  set (c := p_pid <$> List.filter (living_child p) l).
  destruct (Z.ltb_spec (Z.of_nat (length c)) maxn).
  - rewrite !take_ge by (rewrite ?length_app; simpl; lia); f_equal; lia.
  - rewrite take_app_le by lia; f_equal; lia.
Qed.

(** getchildren(addr, max) returns the number of living children of the
    caller, ZOMBIEs and free slots not counted, and with a non-null address
    copies out the pids of the first max of them in table order, failing when
    the copy does; the process table is only read. *)
Theorem kgetchildren_spec `{Linker} (p : nat) (pr : proc) (addr maxn : Z) (s : kstate) (o : oracle)
  (Hlen : procs_ok s) (Hcur : k_cur s = Some p) (Hlk : LWait ∉ k_locks s)
  (Hpr : k_procs s !! p = Some pr) :
  let c := children p (k_procs s) in
  let n := Z.of_nat (length c) in
  kgetchildren addr maxn s o =
  (if addr =? 0 then mret n
   else
     r ← copyout (p_pagetable pr) addr (concat (bytes_le 4 <$> take (Z.to_nat maxn) c))
           (u64 ((if n <? maxn then n else maxn) * 4));
     if r <? 0 then mret (-1) else mret n) s o.
Proof.
  intros c n; unfold kgetchildren; step_with curproc_ok.
  step_with acquire_ok.
  erewrite bind_ok.
  2:{ apply (kfor_pure _ _ (child_step p (k_procs s) maxn)).
      intros i [pids m] Hi; apply elem_of_seq in Hi.
      destruct (lookup_lt_is_Some_2 (k_procs s) i) as [q Hq]; [unfold procs_ok in Hlen; lia |].
      step_with pget_ok; unfold child_step; rewrite Hq; simpl; fold (living_child p q).
      destruct (living_child p q); [| done]; destruct (m <? maxn); done. }
  pose proof (children_fold p (k_procs s) maxn) as Hf; rewrite Hlen in Hf; rewrite Hf.
  step_with release_ok; rewrite lock_unlock; simpl.
  step_with pget_ok; destruct (addr =? 0); done.
Qed.

(** init with a sleeping, an exited and a running child. *)
Definition demo_family : kstate :=
  (zero_state <| k_procs ::= fun l =>
     upd 3 (fun p => p <| p_pid := 4 |> <| p_state := RUNNING |> <| p_parent := Some 0%nat |>)
    (upd 2 (fun p => p <| p_pid := 3 |> <| p_state := ZOMBIE |> <| p_parent := Some 0%nat |>)
    (upd 1 (fun p => p <| p_pid := 2 |> <| p_state := SLEEPING |> <| p_parent := Some 0%nat |>)
    (upd 0 (fun _ => demo_init) l))) |>
    <| k_cur := Some 0%nat |>)%rec.

Lemma kgetchildren_spec_witness :
  kgetchildren (H := demo_linker) 0 8 demo_family [] = Ok 2 demo_family [] /\
  children 0 (k_procs demo_family) = [2; 4].
Proof.
  split; [| reflexivity].
  exact (kgetchildren_spec (H := demo_linker) 0 demo_init 0 8 demo_family [] eq_refl eq_refl
    ltac:(set_solver) eq_refl).
Defined.

(** ** Sending a signal *)

Definition signal_proc (signum : Z) (p : proc) : proc :=
  (p <| p_pending_signals ::= fun x => Z.lor x (u32 (Z.shiftl 1 signum)) |>)%rec.

Lemma sigbit_testbit n k :
  0 <= n < 32 -> 0 <= k -> Z.testbit (u32 (Z.shiftl 1 n)) k = (k =? n).
Proof.
  intros; rewrite Z.shiftl_1_l, u32_small
    by (split; [apply Z.pow_nonneg; lia | apply Z.pow_lt_mono_r; lia]).
  rewrite Z.pow2_bits_eqb by lia; lia.
Qed.

Lemma ksigsend_run pid signum s o :
  procs_ok s -> no_plock s ->
  ksigsend pid signum s o =
  match list_find (fun p => p_pid p = pid) (k_procs s) with
  | Some (i, _) => Ok 0 (s <| k_procs ::= upd i (signal_proc signum) |>)%rec o
  | None => Ok (-1) s o
  end.
Proof.
  intros Hlen Hl; unfold ksigsend; unfold mbind at 1, K_bind at 1.
  rewrite (kfor_find tt (fun p => p_pid p = pid) _
    (fun i _ s => Ok (inr 0) (s <| k_procs ::= upd i (signal_proc signum) |>)%rec o)); try done.
  - destruct (list_find _ _) as [[i p] |]; done.
  - intros i p Hp []; step_with acquire_ok; step_with pget_ok.
    destruct (Z.eqb_spec (p_pid p) pid); case_decide; try done.
    + step_with pset_ok; step_with release_ok; rewrite ret_ok; f_equal.
      state_eq; rewrite decide_True by done; done.
    + step_with release_ok; rewrite ret_ok, lock_unlock; done.
  - naive_solver.
Qed.

(** sigsend(pid, n) with 0 <= n < 32 sets exactly bit n of the pending
    mask of the first entry with that pid and returns 0; sending the same
    signal twice is sending it once; without such an entry it returns -1 and
    changes nothing. *)
Theorem ksigsend_spec (pid signum : Z) (s : kstate) (o : oracle)
  (Hlen : procs_ok s) (Hlk : no_plock s) (Hn : 0 <= signum < 32) :
  match list_find (fun p => p_pid p = pid) (k_procs s) with
  | Some (i, p) =>
      let s' := (s <| k_procs ::= upd i (signal_proc signum) |>)%rec in
      ksigsend pid signum s o = Ok 0 s' o /\
      (forall k, 0 <= k -> Z.testbit (p_pending_signals (signal_proc signum p)) k =
                    Z.testbit (p_pending_signals p) k || (k =? signum)) /\
      ksigsend pid signum s' o = Ok 0 s' o
  | None => ksigsend pid signum s o = Ok (-1) s o
  end.
Proof.
  rewrite ksigsend_run by done; destruct (list_find _ _) as [[i p] |] eqn:E; [| done].
  apply list_find_Some in E as (Hp & Hpid & Hmin); cbv zeta; split_and!; [done | |].
  - intros k Hk; simpl; rewrite Z.lor_spec, sigbit_testbit by lia; done.
  - rewrite ksigsend_run; [| unfold procs_ok; simpl; by rewrite length_upd | done].
    simpl; replace (list_find _ _) with (Some (i, signal_proc signum p)).
    + f_equal; rewrite procs_set_set; apply procs_set_eq; rewrite upd_upd.
      eapply upd_ext; [exact Hp |]; destruct p; unfold signal_proc; simpl.
      unfold set_field, set_p_pending_signals; simpl; f_equal.
      rewrite <- Z.lor_assoc, Z.lor_diag; done.
    + symmetry; apply list_find_Some; split_and!; [by apply upd_lookup_eq | done |].
      intros j y Hj Hlt; rewrite upd_lookup_ne in Hj by lia; eauto.
Qed.

Lemma ksigsend_spec_witness :
  exists s', ksigsend 4 5 demo_family [] = Ok 0 s' [] /\
    ksigsend 4 5 s' [] = Ok 0 s' [].
Proof.
  pose proof (ksigsend_spec 4 5 demo_family [] eq_refl ltac:(intros i; set_solver) ltac:(lia))
    as H4.
  eexists; split; [exact (proj1 H4) | exact (proj2 (proj2 H4))].
Defined.

(** C38: kill(0) succeeds on a free entry.  A free entry of the table has pid 0,
    so kill(0) finds the first one, marks it killed and reports success; the
    mark stays for the next process that gets the entry, since the fields
    allocproc sets do not include it. *)
Theorem kill_zero_marks_free_entry (i : nat) (q : proc) (s : kstate) (o : oracle)
  (Hlen : procs_ok s) (Hlk : no_plock s)
  (Hq : list_find (fun p => p_pid p = 0) (k_procs s) = Some (i, q)) (Hfree : p_state q = UNUSED) :
  exists s' q', kkill 0 s o = Ok 0 s' o /\ k_procs s' !! i = Some q' /\
    p_state q' = UNUSED /\ forall pid, p_killed (alloc_fields pid q') = 1.
Proof.
  rewrite kkill_run, Hq by done; apply list_find_Some in Hq as (Hi & _ & _).
  eexists _, (kill_proc q); split; [done |]; split; [by apply upd_lookup_eq |].
  unfold kill_proc; rewrite Hfree; done.
Qed.

Lemma kill_zero_marks_free_entry_witness :
  exists s' q', kkill 0 zero_state [] = Ok 0 s' [] /\ k_procs s' !! 0%nat = Some q' /\
    p_state q' = UNUSED /\ forall pid, p_killed (alloc_fields pid q') = 1.
Proof.
  exact (kill_zero_marks_free_entry 0 zero_proc zero_state [] eq_refl
    ltac:(intros i; set_solver) ltac:(by vm_compute) eq_refl).
Defined.
