(* ===== verification/IpcSpec.v ===== *)
(** Messages between processes: ipc_send and ipc_recv of proc.c are a mailbox
    of one message per process. *)
From stdpp Require Import base gmap list strings.
From Stdlib Require Import ZArith Lia ZifyBool.
From S2P Require Import Prelude Memory KPrintf State Monad Demo Kalloc ProcBase Vm Frame VmSpec Sleeplock Bio Log Fs Pipe File Proc ProcSpec.

Local Open Scope Z_scope.

(** The mailbox after a message of [n] bytes was put into it. *)
Definition deposit (n : Z) (msg : list Z) (t : proc) : proc :=
  (t <| p_ipc_msg ::= fill msg |> <| p_ipc_len := n |> <| p_ipc_ready := 1 |>)%rec.

Definition emptied (t : proc) : proc := (t <| p_ipc_ready := 0 |> <| p_ipc_len := 0 |>)%rec.

Lemma no_locks_no_plock s : k_locks s = [] -> no_plock s.
Proof. intros H i; rewrite H; set_solver. Qed.

Lemma waitlock_no_plock s : k_locks s = [LWait] -> no_plock s.
Proof. intros H i; rewrite H; set_solver. Qed.

Section Ipc.
Context `{Linker}.

Definition sent (i j : nat) (n : Z) (msg : list Z) (s : kstate) : kstate :=
  (s <| k_procs ::= fun l => imap (wake1 (Some i) (ChProc j)) (upd j (deposit n msg) l) |>)%rec.

Lemma kipc_put i j t n msg s o :
  procs_ok s -> k_cur s = Some i -> k_locks s = [LWait] -> k_procs s !! j = Some t ->
  length msg = Z.to_nat n -> 0 <= n ->
  (kwhen (0 <? n) (pset j (fun t => (t <| p_ipc_msg ::= fill msg |>)%rec)) ;;
   pset j (fun t => (t <| p_ipc_len := n |>)%rec) ;;
   pset j (fun t => (t <| p_ipc_ready := 1 |>)%rec) ;;
   wakeup (ChProc j) ;;
   release LWait ;;
   mret (inr n)) s o =
  Ok (inr n : unit + Z) (sent i j n msg (s <| k_locks := [] |>)%rec) o.
Proof.
  intros Hlen Hcur Hl Ht Hmsg Hn.
  assert (Hk : kwhen (0 <? n) (pset j (fun t => (t <| p_ipc_msg ::= fill msg |>)%rec)) s o =
    Ok tt (s <| k_procs ::= upd j (fun t => t <| p_ipc_msg ::= fill msg |>) |>)%rec o).
  { destruct (Z.ltb_spec 0 n); simpl; [by eapply pset_ok |].
    replace n with 0 in Hmsg by lia; apply nil_length_inv in Hmsg as ->.
    rewrite ret_ok; f_equal; symmetry; apply procs_set_id, upd_id; intros []; done. }
  erewrite bind_ok by exact Hk.
  erewrite bind_ok; [| eapply pset_ok; simpl; by apply upd_lookup_eq].
  erewrite bind_ok; [| eapply pset_ok; simpl; eapply upd_lookup_eq; by apply upd_lookup_eq].
  erewrite bind_ok; [| apply wakeup_run].
  - step_with release_ok; [| rewrite Hl; set_solver].
    rewrite ret_ok; f_equal; unfold sent; destruct s; state_norm; simpl in *; subst; simpl.
    f_equal; rewrite !upd_upd; done.
  - unfold procs_ok; simpl; rewrite !length_upd; done.
  - intros k; simpl; rewrite Hl; set_solver.
Qed.

(** The search for the target, under wait_lock. *)
Lemma kipc_send_run i spr pid src n msg s o :
  procs_ok s -> k_cur s = Some i -> k_locks s = [] -> k_procs s !! i = Some spr -> 0 <= n ->
  let n' := Z.min n IPC_MAX_MSG in
  (if 0 <? n' then copyin (p_pagetable spr) src n' else mret (0, [])) s o = Ok (0, msg) s o ->
  length msg = Z.to_nat n' ->
  kipc_send pid src n s o =
  match list_find (live_pid pid) (k_procs s) with
  | Some (j, t) => if p_ipc_ready t =? 0 then Ok n' (sent i j n' msg s) o else Ok (-1) s o
  | None => Ok (-1) s o
  end.
Proof.
  intros Hlen Hcur Hl Hi Hn n' Hcopy Hmsg; unfold kipc_send; step_with curproc_ok.
  replace (n <? 0) with false by lia; cbv zeta.
  replace (if IPC_MAX_MSG <? n then IPC_MAX_MSG else n) with n'
    by (unfold n', IPC_MAX_MSG; destruct (Z.ltb_spec 64 n); lia).
  step_with pget_ok; erewrite bind_ok by exact Hcopy; cbn beta iota; change (0 <? 0) with false; cbn iota.
  step_with acquire_ok; [| rewrite Hl; set_solver].
  set (s1 := (s <| k_locks ::= cons LWait |>)%rec).
  assert (Hl1 : k_locks s1 = [LWait]) by (unfold s1; simpl; by rewrite Hl).
  unfold mbind at 1, K_bind at 1.
  rewrite (kfor_find tt (live_pid pid) _
    (fun j t s => if p_ipc_ready t =? 0 then Ok (inr n') (sent i j n' msg (s <| k_locks := [] |>)%rec) o
                  else Ok (inr (-1)) (s <| k_locks := [] |>)%rec o)); try done.
  - change (k_procs s1) with (k_procs s); destruct (list_find _ _) as [[j t] |].
    + destruct (p_ipc_ready t =? 0); cbn; rewrite <- Hl; destruct s; done.
    + cbn beta iota; step_with release_ok; rewrite ret_ok; unfold s1; rewrite lock_unlock; done.
  - intros j t Ht []; step_with pget_ok; rewrite live_pid_bool.
    destruct (decide (live_pid pid t)) as [Hlive | Hdead];
      [rewrite bool_decide_eq_true_2 by done | rewrite bool_decide_eq_false_2 by done]; [| done].
    destruct (Z.eqb_spec (p_ipc_ready t) 0) as [Hr | Hr]; cbn [negb].
    + rewrite (kipc_put i j t); [done | done | done | done | done | done | unfold n', IPC_MAX_MSG; lia].
    + step_with release_ok; rewrite ret_ok; f_equal; unfold s1; destruct s; simpl in *; subst; done.
  - intros j t s' x o'; destruct (p_ipc_ready t =? 0); intros [= <- _ _]; eauto.
Qed.


(** A receive that finds a message. *)
Lemma kipc_recv_ready p pr dst n s o c s1 :
  k_cur s = Some p -> k_locks s = [] -> k_procs s !! p = Some pr -> 0 <= n ->
  p_ipc_ready pr <> 0 ->
  let m := Z.min n (p_ipc_len pr) in
  (if 0 <? m then copyout (p_pagetable pr) dst (p_ipc_msg pr) m else mret 0)
    (s <| k_locks := [LWait] |>)%rec o = Ok c s1 o ->
  rest s1 = rest (s <| k_locks := [LWait] |>)%rec ->
  kipc_recv dst n s o =
  if c <? 0 then Ok (-1) (s1 <| k_locks := [] |>)%rec o
  else Ok m (s1 <| k_locks := [] |> <| k_procs ::= upd p emptied |>)%rec o.
Proof.
  intros Hcur Hl Hp Hn Hr m Hc Hrest; unfold kipc_recv; step_with curproc_ok.
  replace (n <? 0) with false by lia; step_with acquire_ok; [| rewrite Hl; set_solver].
  replace (s <| k_locks ::= cons LWait |>)%rec with (s <| k_locks := [LWait] |>)%rec
    by (destruct s; simpl in *; subst; done).
  pose proof (rest_procs _ _ Hrest) as Hp1; pose proof (rest_locks _ _ Hrest) as Hl1.
  simpl in Hp1, Hl1.
  assert (Hfin : forall v, (release LWait ;; mret (inr v : unit + Z)) s1 o =
    Ok (inr v) (s1 <| k_locks := [] |>)%rec o).
  { intros v; step_with release_ok; [| rewrite Hl1; set_solver].
    rewrite ret_ok; f_equal; destruct s1; simpl in *; subst; done. }
  enough (Hb : forall k, (pr ← pget p;
    if negb (p_ipc_ready pr =? 0) then
      let m := if n <? p_ipc_len pr then n else p_ipc_len pr in
      c ← (if 0 <? m then copyout (p_pagetable pr) dst (p_ipc_msg pr) m else mret 0);
      if c <? 0 then release LWait ;; mret (inr (-1))
      else
        pset p (fun pr => (pr <| p_ipc_ready := 0 |>)%rec) ;;
        pset p (fun pr => (pr <| p_ipc_len := 0 |>)%rec) ;;
        release LWait ;;
        mret (inr m)
    else k) (s <| k_locks := [LWait] |>)%rec o =
    if c <? 0 then Ok (inr (-1) : unit + Z) (s1 <| k_locks := [] |>)%rec o
    else Ok (inr m) (s1 <| k_locks := [] |> <| k_procs ::= upd p emptied |>)%rec o).
  { destruct (c <? 0); apply ksleeploop_ret, Hb. }
  intros k; step_with pget_ok; replace (p_ipc_ready pr =? 0) with false by lia; cbn [negb].
  cbv zeta; replace (if n <? p_ipc_len pr then n else p_ipc_len pr) with m
    by (unfold m; destruct (Z.ltb_spec n (p_ipc_len pr)); lia).
  erewrite bind_ok by exact Hc; destruct (c <? 0); [apply Hfin |].
  step_with pset_ok; [| rewrite Hp1; exact Hp].
  erewrite bind_ok; [| eapply pset_ok; simpl; eapply upd_lookup_eq; by rewrite Hp1].
  step_with release_ok; [| rewrite Hl1; set_solver].
  rewrite ret_ok; f_equal; destruct s1; state_norm; simpl in *; subst.
  f_equal; rewrite upd_upd; done.
Qed.

(** The sender's buffer, read for a message of [n] bytes. *)
Lemma read_message pt src n s o :
  0 <= n -> user_range (k_mem s) pt PTE_V src n ->
  (if 0 <? n then copyin pt src n else mret (0, [])) s o =
    Ok (0, user_bytes (k_mem s) pt src n) s o.
Proof.
  intros Hn Hm; destruct (Z.ltb_spec 0 n); [by apply copyin_run |].
  replace n with 0 by lia; done.
Qed.

Lemma user_bytes_length m pt va n : length (user_bytes m pt va n) = Z.to_nat n.
Proof. unfold user_bytes; rewrite length_fmap, length_seqZ; done. Qed.

(** ipc_send(pid, src, n) puts the first min(n, 64) bytes of the caller's
    buffer into the empty mailbox of the first live process with that pid,
    wakes that process if it waits for a message and returns the length; it
    fails and changes nothing when n is negative, when there is no such process
    or when its mailbox already holds a message. *)
Theorem kipc_send_spec (i : nat) (spr : proc) (pid src n : Z) (s : kstate) (o : oracle)
  (Hlen : procs_ok s) (Hcur : k_cur s = Some i) (Hl : k_locks s = [])
  (Hi : k_procs s !! i = Some spr)
  (Hmap : user_range (k_mem s) (p_pagetable spr) PTE_V src (Z.min n IPC_MAX_MSG)) :
  let m := Z.min n IPC_MAX_MSG in
  let msg := user_bytes (k_mem s) (p_pagetable spr) src m in
  kipc_send pid src n s o =
  if n <? 0 then Ok (-1) s o
  else match list_find (live_pid pid) (k_procs s) with
       | Some (j, t) => if p_ipc_ready t =? 0 then Ok m (sent i j m msg s) o else Ok (-1) s o
       | None => Ok (-1) s o
       end.
Proof.
  intros m msg; destruct (Z.ltb_spec n 0).
  - unfold kipc_send; step_with curproc_ok; replace (n <? 0) with true by lia; done.
  - assert (0 <= m) by (unfold m, IPC_MAX_MSG; lia).
    eapply kipc_send_run; try done; [by apply read_message | apply user_bytes_length].
Qed.

(** What the receiver's entry is after a send to it. *)
Lemma sent_lookup i j t n msg s :
  i <> j -> k_procs s !! j = Some t ->
  k_procs (sent i j n msg s) !! j = Some (wake1 (Some i) (ChProc j) j (deposit n msg t)).
Proof. intros Hij Ht; simpl; rewrite list_lookup_imap, (upd_lookup_eq _ _ _ t Ht); done. Qed.

Lemma wake1_ipc me ch j t :
  p_ipc_ready (wake1 me ch j t) = p_ipc_ready t /\ p_ipc_len (wake1 me ch j t) = p_ipc_len t /\
  p_ipc_msg (wake1 me ch j t) = p_ipc_msg t /\ p_pagetable (wake1 me ch j t) = p_pagetable t.
Proof. unfold wake1; destruct (_ && _); done. Qed.

(** Copying a message out of a mailbox. *)
Lemma mailbox_copy pt dst msg box m s o :
  user_range (k_mem s) pt PTE_W dst m -> user_separate (k_mem s) pt dst m ->
  0 <= m <= Z.of_nat (length msg) -> (length msg <= length box)%nat ->
  Forall (fun b => 0 <= b < 256) msg ->
  exists m', (if 0 <? m then copyout pt dst (fill msg box) m else mret 0) s o =
      Ok 0 (s <| k_mem := m' |>)%rec o /\
    user_bytes m' pt dst m = take (Z.to_nat m) msg.
Proof.
  intros Hr Hs Hm Hbox Hby.
  assert (Hfill : take (Z.to_nat m) (fill msg box) = take (Z.to_nat m) msg).
  { unfold fill; rewrite take_app_le by lia; done. }
  destruct (Z.ltb_spec 0 m).
  - destruct (copyout_run pt dst (fill msg box) m s o) as (m' & Hc & Hst); [done | done | |].
    { unfold fill; rewrite length_app, length_drop; lia. }
    exists m'; split; [exact Hc |]; rewrite Hfill in Hst.
    assert (Hml : Z.of_nat (length (take (Z.to_nat m) msg)) = m) by (rewrite length_take; lia).
    destruct (user_store_translation (k_mem s) pt PTE_W dst m (take (Z.to_nat m) msg) m' dst)
      as (_ & _ & Hpa); auto; [lia | lia |].
    rewrite <- Hml at 1; rewrite (user_bytes_store (k_mem s)); [| rewrite Hml; done | done].
    rewrite <- list_fmap_id; apply list_fmap_ext; intros k b Hb; apply u8_small.
    apply lookup_take_Some in Hb as [Hb _]; by eapply Forall_lookup in Hby.
  - exists (k_mem s); split; [destruct s; done |]; replace m with 0 by lia; done.
Qed.

Lemma user_bytes_range m pt va n : Forall (fun b => 0 <= b < 256) (user_bytes m pt va n).
Proof. unfold user_bytes; apply Forall_fmap, Forall_true; intros; apply mget_range. Qed.

(** C25: a message arrives.  After process i sends n <= 64 bytes to process j,
    whose mailbox is empty, an ipc_recv by j returns min(cap, n), its buffer
    holds the first min(cap, n) bytes that were in i's buffer, and the mailbox
    is empty again. *)
Theorem ipc_roundtrip (i j : nat) (spr t : proc) (src dst n cap : Z) (s : kstate) (o : oracle)
  (Hlen : procs_ok s) (Hcur : k_cur s = Some i) (Hl : k_locks s = []) (Hij : i <> j)
  (Hi : k_procs s !! i = Some spr)
  (Hj : list_find (live_pid (p_pid t)) (k_procs s) = Some (j, t)) (Hempty : p_ipc_ready t = 0)
  (Hn : 0 <= n <= IPC_MAX_MSG) (Hcap : 0 <= cap)
  (Hbox : length (p_ipc_msg t) = Z.to_nat IPC_MAX_MSG)
  (Hsrc : user_range (k_mem s) (p_pagetable spr) PTE_V src n)
  (Hdst : user_range (k_mem s) (p_pagetable t) PTE_W dst (Z.min cap n))
  (Hsep : user_separate (k_mem s) (p_pagetable t) dst (Z.min cap n)) :
  exists s1 s2,
    kipc_send (p_pid t) src n s o = Ok n s1 o /\
    kipc_recv dst cap (s1 <| k_cur := Some j |>)%rec o = Ok (Z.min cap n) s2 o /\
    user_bytes (k_mem s2) (p_pagetable t) dst (Z.min cap n) =
      take (Z.to_nat (Z.min cap n)) (user_bytes (k_mem s) (p_pagetable spr) src n) /\
    (p_ipc_ready <$> k_procs s2 !! j) = Some 0 /\ k_locks s2 = [].
Proof.
  set (msg := user_bytes (k_mem s) (p_pagetable spr) src n); set (m := Z.min cap n).
  assert (Hmsg : length msg = Z.to_nat n) by apply user_bytes_length.
  assert (Hm0 : 0 <= m <= n) by (unfold m; lia).
  pose proof (proj1 (proj1 (list_find_Some _ _ _ _) Hj)) as Hjt.
  exists (sent i j n msg s).
  pose proof (kipc_send_run i spr (p_pid t) src n msg s o Hlen Hcur Hl Hi ltac:(lia)) as Hs.
  cbv zeta in Hs; rewrite Z.min_l in Hs by lia.
  specialize (Hs (read_message _ _ _ _ _ (proj1 Hn) Hsrc) Hmsg).
  rewrite Hj, Hempty in Hs; simpl in Hs.
  set (t1 := wake1 (Some i) (ChProc j) j (deposit n msg t)).
  destruct (wake1_ipc (Some i) (ChProc j) j (deposit n msg t)) as (E1 & E2 & E3 & E4).
  fold t1 in E1, E2, E3, E4; simpl in E1, E2, E3, E4.
  set (s1 := ((sent i j n msg s) <| k_cur := Some j |>)%rec).
  assert (Ht1 : k_procs s1 !! j = Some t1) by (by apply sent_lookup).
  set (sl := (s1 <| k_locks := [LWait] |>)%rec).
  destruct (mailbox_copy (p_pagetable t) dst msg (p_ipc_msg t) m sl o) as (m' & Hc & Hby);
    [done | done | lia | unfold IPC_MAX_MSG in *; lia | apply user_bytes_range |].
  pose proof (kipc_recv_ready j t1 dst cap s1 o 0 (sl <| k_mem := m' |>)%rec) as Hr.
  cbv zeta in Hr; rewrite E2, E3, E4 in Hr; fold m in Hr.
  eexists; split; [exact Hs |]; split; [apply Hr; auto; congruence |].
  simpl; split; [done |]; rewrite (upd_lookup_eq _ _ _ t1 Ht1); done.
Qed.

(** A receive that finds no message. *)
Lemma kipc_recv_empty j t dst cap s o :
  k_cur s = Some j -> k_locks s = [] -> k_procs s !! j = Some t -> p_ipc_ready t = 0 -> 0 <= cap ->
  (p_killed t <> 0 -> kipc_recv dst cap s o = Ok (-1) s o) /\
  (p_killed t = 0 -> kipc_recv dst cap s [] = Blocked (sleep_state j (ChProc j) s)).
Proof.
  intros Hcur Hl Hj Hempty Hcap; set (s1 := (s <| k_locks := [LWait] |>)%rec).
  assert (Hs1 : (s <| k_locks ::= cons LWait |>)%rec = s1)
    by (unfold s1; destruct s; simpl in *; subst; done).
  assert (Hs2 : (s1 <| k_locks ::= remove_lock LWait |>)%rec = s)
    by (unfold s1; destruct s; simpl in *; subst; done).
  assert (Hk : forall o', killed j s1 o' = Ok (p_killed t) s1 o')
    by (intros; apply killed_run; [done | set_solver]).
  split; intros Hkill; unfold kipc_recv; step_with curproc_ok;
    replace (cap <? 0) with false by lia;
    (step_with acquire_ok; [| rewrite Hl; set_solver]); rewrite Hs1.
  - apply ksleeploop_ret; step_with pget_ok; rewrite Hempty; cbn [negb Z.eqb].
    erewrite bind_ok by apply Hk; replace (p_killed t =? 0) with false by lia; cbn [negb].
    step_with release_ok; rewrite Hs2; done.
  - apply ksleeploop_blocked; step_with pget_ok; rewrite Hempty; cbn [negb Z.eqb].
    erewrite bind_ok by apply Hk; rewrite Hkill; cbn [negb Z.eqb].
    unfold mbind, K_bind; erewrite sleep_blocked by done; done.
Qed.

Lemma find_asleep pid ch j t l :
  list_find (live_pid pid) l = Some (j, t) ->
  list_find (live_pid pid) (upd j (asleep ch) l) = Some (j, asleep ch t).
Proof.
  rewrite !list_find_Some; intros (Hj & [Hp _] & Hmin); split_and!.
  - by apply upd_lookup_eq.
  - split; done.
  - intros k y Hk Hlt; rewrite upd_lookup_ne in Hk by lia; eauto.
Qed.

(** C36: ipc_recv on an empty mailbox returns -1 to a killed process and
    otherwise puts the caller to sleep with wait_lock free; a process that
    sends to it while it sleeps makes it RUNNABLE with the message in its
    mailbox. *)
Theorem kipc_recv_waits (i j : nat) (spr t : proc) (src dst n cap : Z) (s : kstate) (o : oracle)
  (Hlen : procs_ok s) (Hcur : k_cur s = Some j) (Hl : k_locks s = []) (Hij : i <> j)
  (Hi : k_procs s !! i = Some spr)
  (Hj : list_find (live_pid (p_pid t)) (k_procs s) = Some (j, t)) (Hempty : p_ipc_ready t = 0)
  (Hn : 0 <= n <= IPC_MAX_MSG) (Hcap : 0 <= cap)
  (Hsrc : user_range (k_mem s) (p_pagetable spr) PTE_V src n) :
  (p_killed t <> 0 -> kipc_recv dst cap s o = Ok (-1) s o) /\
  (p_killed t = 0 ->
     let b := sleep_state j (ChProc j) s in
     kipc_recv dst cap s [] = Blocked b /\ k_locks b = [LProc j] /\
     exists s' q, kipc_send (p_pid t) src n (b <| k_locks := [] |> <| k_cur := Some i |>)%rec o =
         Ok n s' o /\
       k_procs s' !! j = Some q /\ p_state q = RUNNABLE /\ p_ipc_ready q = 1 /\ p_ipc_len q = n /\
       take (Z.to_nat n) (p_ipc_msg q) = user_bytes (k_mem s) (p_pagetable spr) src n).
Proof.
  pose proof (proj1 (proj1 (list_find_Some _ _ _ _) Hj)) as Hjt.
  destruct (kipc_recv_empty j t dst cap s o) as [H1 H2]; auto.
  split; [exact H1 |]; intros Hk b; split; [by apply H2 |]; split; [done |].
  set (b' := (b <| k_locks := [] |> <| k_cur := Some i |>)%rec).
  assert (Hib : k_procs b' !! i = Some spr) by (simpl; rewrite upd_lookup_ne; done).
  set (msg := user_bytes (k_mem s) (p_pagetable spr) src n).
  assert (Hmsg : length msg = Z.to_nat n) by apply user_bytes_length.
  pose proof (kipc_send_run i spr (p_pid t) src n msg b' o) as Hs.
  cbv zeta in Hs; rewrite Z.min_l in Hs by lia.
  rewrite Hs; try done; [| unfold procs_ok; simpl; by rewrite length_upd | lia |
    by apply (read_message _ _ _ b' o (proj1 Hn))].
  simpl; erewrite find_asleep by done.
  change (p_ipc_ready (asleep (ChProc j) t)) with (p_ipc_ready t); rewrite Hempty; simpl.
  do 2 eexists; split; [done |]; split; [apply sent_lookup; [done |]; simpl; by apply upd_lookup_eq |].
  destruct (wake1_ipc (Some i) (ChProc j) j (deposit n msg (asleep (ChProc j) t)))
    as (-> & -> & -> & _); simpl; split_and!; try done.
  - unfold wake1; simpl; rewrite bool_decide_eq_false_2 by congruence.
    rewrite !bool_decide_eq_true_2 by done; done.
  - unfold fill; rewrite take_app_le, take_ge by lia; done.
Qed.

End Ipc.

(** Processes 1 (pid 7) and 2 (pid 8) on the demonstration page table; the
    sender's buffer at 4100 holds 7, 8, 9. *)
Definition demo_ipc_proc (pid : Z) : proc :=
  (zero_proc <| p_pid := pid |> <| p_state := RUNNING |> <| p_pagetable := demo_page 0 |>)%rec.

Definition demo_ipc (cur : nat) : kstate :=
  (zero_state <| k_mem := demo_pt_mem |>
     <| k_procs ::= fun l => upd 2 (fun _ => demo_ipc_proc 8) (upd 1 (fun _ => demo_ipc_proc 7) l) |>
     <| k_cur := Some cur |>)%rec.

Lemma demo_ipc_src : user_range demo_pt_mem (demo_page 0) PTE_V 4100 3.
Proof. intros a Ha; eapply user_mapped_weaken, (demo_user_mapped 4100 3); plia. Qed.

Lemma kipc_send_spec_witness :
  exists s', kipc_send (H := demo_linker) 8 4100 3 (demo_ipc 1) [] = Ok 3 s' [] /\
  kipc_send (H := demo_linker) 8 4100 (-3) (demo_ipc 1) [] = Ok (-1) (demo_ipc 1) [].
Proof.
  pose proof (kipc_send_spec (H := demo_linker) 1 (demo_ipc_proc 7) 8 4100 3 (demo_ipc 1) []
    eq_refl eq_refl eq_refl eq_refl demo_ipc_src) as H1.
  pose proof (kipc_send_spec (H := demo_linker) 1 (demo_ipc_proc 7) 8 4100 (-3) (demo_ipc 1) []
    eq_refl eq_refl eq_refl eq_refl ltac:(intros a Ha; unfold IPC_MAX_MSG in Ha; lia)) as H2.
  eexists; split; [exact H1 | exact H2].
Defined.

Lemma ipc_roundtrip_witness :
  exists s1 s2, kipc_send (H := demo_linker) 8 4100 3 (demo_ipc 1) [] = Ok 3 s1 [] /\
    kipc_recv (H := demo_linker) 4200 2 (s1 <| k_cur := Some 2%nat |>)%rec [] = Ok 2 s2 [].
Proof.
  destruct (ipc_roundtrip (H := demo_linker) 1 2 (demo_ipc_proc 7) (demo_ipc_proc 8) 4100 4200 3 2
    (demo_ipc 1) [] eq_refl eq_refl eq_refl ltac:(lia) eq_refl eq_refl eq_refl
    ltac:(unfold IPC_MAX_MSG; lia) ltac:(lia) eq_refl demo_ipc_src
    (demo_user_mapped 4200 2 ltac:(plia) ltac:(plia))
    (demo_user_separate 4200 2 ltac:(plia) ltac:(plia))) as (s1 & s2 & H1 & H2 & _).
  exists s1, s2; split; [exact H1 | exact H2].
Defined.

Lemma kipc_recv_waits_witness :
  kipc_recv (H := demo_linker) 4200 2 (demo_ipc 2) [] = Blocked (sleep_state 2 (ChProc 2) (demo_ipc 2)).
Proof.
  exact (proj1 (proj2 (kipc_recv_waits (H := demo_linker) 1 2 (demo_ipc_proc 7) (demo_ipc_proc 8)
    4100 4200 3 2 (demo_ipc 2) [] eq_refl eq_refl eq_refl ltac:(lia) eq_refl eq_refl eq_refl
    ltac:(unfold IPC_MAX_MSG; lia) ltac:(lia) demo_ipc_src) eq_refl)).
Defined.
