(* ===== verification/LifeSpec.v ===== *)
(** The end of a process's life: exit, reparenting, wait and waitpid. *)
From stdpp Require Import base gmap list strings.
From Stdlib Require Import ZArith Lia ZifyBool.
From S2P Require Import Prelude Memory KPrintf State Monad Demo Kalloc ProcBase Vm Frame VmSpec Sleeplock Bio Log Fs Pipe File Proc ProcSpec IpcSpec.

Local Open Scope Z_scope.

(** A counted loop whose iteration [k] takes state [F k] to [F (S k)]. *)
Lemma kfor__states (body : nat -> K unit) (F : nat -> kstate) n o :
  (forall k, (k < n)%nat -> body k (F k) o = Ok tt (F (S k)) o) ->
  kfor_ (seq 0 n) body (F 0%nat) o = Ok tt (F n) o.
Proof.
  assert (Hgen : forall m k, (k + m <= n)%nat ->
    (forall k, (k < n)%nat -> body k (F k) o = Ok tt (F (S k)) o) ->
    kfor_ (seq k m) body (F k) o = Ok tt (F (k + m)%nat) o).
  { induction m as [| m IH]; intros k Hk Hb; simpl.
    - rewrite kfor__nil; f_equal; f_equal; lia.
    - rewrite kfor__cons; erewrite bind_ok by (apply Hb; lia); cbn beta.
      rewrite IH by (lia || done); f_equal; f_equal; lia. }
  intros; apply (Hgen n 0%nat); auto.
Qed.

(** ** reparent *)

Definition child_of (p : nat) (q : proc) : bool := bool_decide (p_parent q = Some p).

(** What exit of [p] does to the parent field. *)
Definition reparented (p : nat) (init : option nat) (q : proc) : proc :=
  if child_of p q then (q <| p_parent := init |>)%rec else q.

(** wakeup when [b]. *)
Definition wake_if (b : bool) (me : option nat) (ch : chan) (i : nat) (q : proc) : proc :=
  if b then wake1 me ch i q else q.

Definition reparent_table (p : nat) (init : option nat) (l : list proc) : list proc :=
  imap (fun i q => wake_if (existsb (child_of p) l) (Some p) (proc_chan init) i
                     (reparented p init q)) l.

(** The table when reparent() has passed the entries below [k]. *)
Definition reparent_upto (p : nat) (init : option nat) (l : list proc) (k : nat) : list proc :=
  imap (fun i q => wake_if (existsb (child_of p) (take k l)) (Some p) (proc_chan init) i
                     (if decide (i < k)%nat then reparented p init q else q)) l.

Lemma wake1_idem me ch i q : wake1 me ch i (wake1 me ch i q) = wake1 me ch i q.
Proof.
  unfold wake1; destruct q as [st c]; simpl.
  destruct (negb _ && bool_decide (st = SLEEPING) && _) eqn:E; simpl; [| by rewrite E].
  rewrite andb_false_r; done.
Qed.

Lemma wake1_reparented me ch i p init q :
  wake1 me ch i (reparented p init q) = reparented p init (wake1 me ch i q).
Proof.
  unfold wake1, reparented, child_of; destruct q; simpl.
  repeat (case_bool_decide || destruct (_ && _)); done.
Qed.

Lemma wake1_parent me ch i q : p_parent (wake1 me ch i q) = p_parent q.
Proof. unfold wake1; destruct (_ && _); done. Qed.

Lemma existsb_take_S (f : proc -> bool) l k q :
  l !! k = Some q -> existsb f (take (S k) l) = existsb f (take k l) || f q.
Proof.
  intros Hq; rewrite (take_S_r _ _ _ Hq), existsb_app; simpl; by rewrite orb_false_r.
Qed.

(** One iteration of reparent at a child, and at any other entry. *)
Lemma reparent_upto_child p init l k q :
  l !! k = Some q -> child_of p q = true ->
  imap (wake1 (Some p) (proc_chan init))
    (upd k (fun q => q <| p_parent := init |>)%rec (reparent_upto p init l k)) =
  reparent_upto p init l (S k).
Proof.
  intros Hq Hc; apply list_eq; intros i; unfold reparent_upto.
  rewrite !list_lookup_imap, upd_lookup, !list_lookup_imap.
  rewrite (existsb_take_S _ _ _ _ Hq), Hc, orb_true_r.
  destruct (decide (k = i)) as [<- | Hne].
  - rewrite Hq; simpl; rewrite decide_False, decide_True by lia; f_equal.
    unfold reparented; rewrite Hc; unfold wake_if; destruct (existsb _ _); [| done].
    rewrite <- (wake1_idem _ _ _ (q <| p_parent := init |>)%rec); f_equal.
    unfold wake1; destruct q; simpl; destruct (_ && _); done.
  - destruct (l !! i); simpl; [| done]; f_equal.
    unfold wake_if; destruct (existsb _ _), (decide (i < k)%nat), (decide (i < S k)%nat);
      try lia; rewrite ?wake1_idem; done.
Qed.

Lemma reparent_upto_other p init l k q :
  l !! k = Some q -> child_of p q = false ->
  reparent_upto p init l k = reparent_upto p init l (S k).
Proof.
  intros Hq Hc; apply list_eq; intros i; unfold reparent_upto.
  rewrite !list_lookup_imap, (existsb_take_S _ _ _ _ Hq), Hc, orb_false_r.
  destruct (l !! i) as [y |] eqn:Ey; simpl; [| done]; do 2 f_equal.
  destruct (decide (i < k)%nat), (decide (i < S k)%nat); try done; try lia.
  assert (i = k) as -> by lia; rewrite Hq in Ey; injection Ey as <-.
  unfold reparented; by rewrite Hc.
Qed.

Lemma reparent_run p init s o :
  procs_ok s -> k_cur s = Some p -> no_plock s -> k_initproc s = init ->
  reparent p s o = Ok tt (s <| k_procs ::= reparent_table p init |>)%rec o.
Proof.
  intros Hlen Hcur Hl Hinit; unfold reparent.
  set (F := fun k => (s <| k_procs := reparent_upto p init (k_procs s) k |>)%rec).
  replace s with (F 0%nat) at 1.
  2:{ unfold F; destruct s; state_norm; simpl; f_equal.
      apply list_eq; intros i; unfold reparent_upto; rewrite list_lookup_imap; simpl.
      destruct (_ !! i); done. }
  rewrite kfor__states.
  - f_equal; unfold F; destruct s; unfold procs_ok in Hlen; state_norm; simpl in *; f_equal.
    unfold reparent_upto, reparent_table; rewrite take_ge by lia.
    apply imap_ext; intros i q Hq; apply lookup_lt_Some in Hq; rewrite decide_True by lia; done.
  - intros k Hk; destruct (lookup_lt_is_Some_2 (k_procs s) k) as [q Hq];
      [unfold procs_ok in Hlen; lia |].
    assert (HF : k_procs (F k) !! k = Some
      (wake_if (existsb (child_of p) (take k (k_procs s))) (Some p) (proc_chan init) k q)).
    { simpl; unfold reparent_upto; rewrite list_lookup_imap, Hq; simpl.
      rewrite decide_False by lia; done. }
    step_with pget_ok.
    assert (Hc : bool_decide (p_parent (wake_if (existsb (child_of p) (take k (k_procs s)))
        (Some p) (proc_chan init) k q) = Some p) = child_of p q).
    { unfold wake_if; destruct (existsb _ _); rewrite ?wake1_parent; done. }
    rewrite Hc; destruct (child_of p q) eqn:Eq; simpl.
    + rewrite gets_bind; change (k_initproc (F k)) with (k_initproc s); rewrite Hinit.
      erewrite bind_ok by (by eapply pset_ok).
      rewrite wakeup_run; [| unfold procs_ok; simpl; rewrite length_upd;
        unfold reparent_upto; by rewrite length_imap | done].
      simpl; rewrite Hcur; f_equal; unfold F; rewrite !procs_set_set; apply procs_set_eq.
      apply (reparent_upto_child p init (k_procs s) k q Hq Eq).
    + rewrite ret_ok; f_equal; unfold F; apply procs_set_eq.
      apply (reparent_upto_other p init (k_procs s) k q Hq Eq).
Qed.

(** ** exit *)

Definition zombie (status : Z) (q : proc) : proc :=
  (q <| p_xstate := status |> <| p_state := ZOMBIE |>)%rec.

(** The process table when [p], a child of [parent], has exited. *)
Definition exit_table (p : nat) (parent init : option nat) (status : Z) (l : list proc) : list proc :=
  upd p (zombie status) (imap (wake1 (Some p) (proc_chan parent)) (reparent_table p init l)).

Definition exited (p : nat) (parent init : option nat) (status : Z) (s : kstate) : kstate :=
  (s <| k_locks := [LProc p] |> <| k_procs ::= exit_table p parent init status |>)%rec.

Lemma length_reparent_table p init l : length (reparent_table p init l) = length l.
Proof. apply length_imap. Qed.

(** An entry of the table after reparent. *)
Lemma reparent_table_lookup p init l i q :
  l !! i = Some q ->
  reparent_table p init l !! i =
  Some (wake_if (existsb (child_of p) l) (Some p) (proc_chan init) i (reparented p init q)).
Proof. intros Hq; unfold reparent_table; rewrite list_lookup_imap, Hq; done. Qed.

Lemma reparent_self p init l q :
  l !! p = Some q -> p_parent q <> Some p -> reparent_table p init l !! p = Some q.
Proof.
  intros Hq Hp; erewrite reparent_table_lookup by done; f_equal.
  unfold reparented, child_of; rewrite bool_decide_eq_false_2 by done.
  unfold wake_if, wake1; destruct (existsb _ _); [| done].
  rewrite bool_decide_eq_true_2 by done; done.
Qed.

Section Exit.
Context `{Linker} `{BlockDevice} `{DevSwitch}.

Lemma kexit_tail_run p pr init status s :
  procs_ok s -> k_cur s = Some p -> k_locks s = [] -> k_procs s !! p = Some pr ->
  p_parent pr <> Some p -> k_initproc s = init ->
  kexit_tail p status s [] = Blocked (exited p (p_parent pr) init status s).
Proof.
  intros Hlen Hcur Hl Hp Hpar Hinit; unfold kexit_tail.
  step_with acquire_ok; [| rewrite Hl; set_solver].
  erewrite bind_ok; [| apply reparent_run; [done | done | | done]].
  2:{ intros i; simpl; rewrite Hl; set_solver. }
  step_with pget_ok; [| eapply reparent_self; eauto].
  erewrite bind_ok; [| apply wakeup_run].
  2:{ unfold procs_ok; simpl; by rewrite length_reparent_table. }
  2:{ intros i; simpl; rewrite Hl; set_solver. }
  step_with acquire_ok; [| rewrite Hl; set_solver].
  assert (Hw : imap (wake1 (Some p) (proc_chan (p_parent pr))) (reparent_table p init (k_procs s)) !! p
               = Some pr).
  { rewrite list_lookup_imap, (reparent_self p init _ pr Hp Hpar); simpl.
    unfold wake1; rewrite bool_decide_eq_true_2 by done; done. }
  erewrite bind_ok; [| eapply pset_ok; simpl; rewrite Hcur; exact Hw].
  erewrite bind_ok; [| eapply pset_ok; simpl; rewrite Hcur; by apply upd_lookup_eq].
  step_with release_ok.
  match goal with |- (sched ≫= _) ?t _ = _ =>
    replace t with (exited p (p_parent pr) init status s) end.
  2:{ unfold exited; destruct s; state_norm; simpl in *; subst; simpl.
      f_equal; rewrite upd_upd; done. }
  unfold mbind, K_bind; erewrite sched_swtch; [done | done | done | |].
  - simpl; unfold exit_table; apply upd_lookup_eq, Hw.
  - done.
Qed.

(** the end of exit(status).  The process stops as a ZOMBIE that keeps its
    status, holding nothing but its own lock, so that wait_lock is free for its
    parent; its children belong to init, and a process sleeping in wait that
    it has to wake (its parent; init, when it inherits a child) is RUNNABLE;
    no other entry changes. *)
Theorem kexit_tail_spec (p pa init : nat) (pr : proc) (status : Z) (s : kstate)
  (Hlen : procs_ok s) (Hcur : k_cur s = Some p) (Hl : k_locks s = [])
  (Hp : k_procs s !! p = Some pr) (Hpar : p_parent pr = Some pa) (Hpa : pa <> p)
  (Hinit : k_initproc s = Some init) :
  exists s', kexit_tail p status s [] = Blocked s' /\ k_locks s' = [LProc p] /\
    k_procs s' !! p = Some (zombie status pr) /\
    forall i q, i <> p -> k_procs s !! i = Some q ->
      exists q', k_procs s' !! i = Some q' /\
        p_parent q' = (if child_of p q then Some init else p_parent q) /\
        p_state q' =
          (if bool_decide (p_state q = SLEEPING) &&
              (bool_decide (p_chan q = ChProc pa) ||
               (bool_decide (p_chan q = ChProc init) && existsb (child_of p) (k_procs s)))
           then RUNNABLE else p_state q) /\
        p_pid q' = p_pid q /\ p_chan q' = p_chan q /\ p_xstate q' = p_xstate q.
Proof.
  exists (exited p (Some pa) (Some init) status s).
  rewrite (kexit_tail_run p pr (Some init)) by (congruence || done); rewrite Hpar.
  split; [done |]; split; [done |]; split.
  - simpl; unfold exit_table; apply upd_lookup_eq.
    rewrite list_lookup_imap, (reparent_self p (Some init) _ pr Hp) by congruence; simpl.
    unfold wake1; rewrite bool_decide_eq_true_2 by done; done.
  - intros i q Hne Hq; simpl; unfold exit_table; rewrite upd_lookup_ne by done.
    rewrite list_lookup_imap, (reparent_table_lookup _ _ _ _ _ Hq); simpl.
    eexists; split; [done |].
    unfold wake_if, wake1, reparented; rewrite (bool_decide_eq_false_2 (Some i = Some p)) by congruence.
    destruct (existsb _ _), (child_of p q), q as [st c]; simpl;
      destruct st; simpl; repeat (case_bool_decide; simpl; try congruence); done.
Qed.

End Exit.

Lemma kexit_tail_spec_witness :
  exists s', kexit_tail 3 7 (demo_family <| k_cur := Some 3%nat |> <| k_initproc := Some 0%nat |>)%rec []
    = Blocked s' /\ exists q, k_procs s' !! 3%nat = Some q /\ p_state q = ZOMBIE /\ p_xstate q = 7.
Proof.
  destruct (kexit_tail_spec 3 0 0
    (zero_proc <| p_pid := 4 |> <| p_state := RUNNING |> <| p_parent := Some 0%nat |>)%rec 7
    (demo_family <| k_cur := Some 3%nat |> <| k_initproc := Some 0%nat |>)%rec
    ltac:(by vm_compute) eq_refl eq_refl eq_refl eq_refl ltac:(lia) eq_refl) as (s' & Hs & _ & Hz & _).
  exists s'; split; [exact Hs |]; eexists; split; [exact Hz |]; split; reflexivity.
Defined.

(** ** wait *)

Definition zombie_child (p : nat) (q : proc) : Prop := p_parent q = Some p /\ p_state q = ZOMBIE.

#[export] Instance zombie_child_dec p q : Decision (zombie_child p q).
Proof. unfold zombie_child; apply _. Defined.

(** The lock of an entry, taken and released. *)
Lemma plock_peek {A} i q (f : proc -> K A) s o :
  LProc i ∉ k_locks s -> k_procs s !! i = Some q ->
  (acquire (LProc i) ;; q ← pget i; f q) s o = f q (s <| k_locks ::= cons (LProc i) |>)%rec o.
Proof. intros Hl Hq; step_with acquire_ok; step_with pget_ok; done. Qed.

Section Wait.
Context `{Linker}.

Lemma wait_scan_run p addr s o :
  procs_ok s -> no_plock s ->
  wait_scan p addr s o =
  match list_find (zombie_child p) (k_procs s) with
  | Some (i, q) => (v ← reap p i addr (p_pid q); mret (inr v)) (s <| k_locks ::= cons (LProc i) |>)%rec o
  | None => Ok (inl (existsb (child_of p) (k_procs s))) s o
  end.
Proof.
  intros Hlen Hl; unfold wait_scan.
  rewrite (kfor_scan false (zombie_child p) (fun q b => b || child_of p q) _
    (fun i q s => (v ← reap p i addr (p_pid q); mret (inr v)) (s <| k_locks ::= cons (LProc i) |>)%rec o)).
  - destruct (list_find _ _) as [[i q] |]; [done |]; do 2 f_equal.
    assert (Hf : forall l b, fold_left (fun b q => b || child_of p q) l b = b || existsb (child_of p) l).
    { induction l as [| q l IH]; intros b; simpl; [by rewrite orb_false_r |].
      rewrite IH, orb_assoc; done. }
    apply Hf.
  - done.
  - intros i q b Hq; step_with pget_ok; fold (child_of p q).
    destruct (child_of p q) eqn:Ec; unfold child_of in Ec; bools.
    + erewrite plock_peek by done; destruct (decide (p_state q = ZOMBIE)) as [Hz | Hz].
      * rewrite decide_True by done; rewrite bool_decide_eq_true_2 by done; done.
      * rewrite decide_False by (intros [_ ?]; done); rewrite bool_decide_eq_false_2 by done.
        step_with release_ok; rewrite lock_unlock, orb_true_r; done.
    + rewrite decide_False by (intros [? _]; done); rewrite orb_false_r; done.
  - intros i q s' x o' (v & ? & ? & _ & Hr)%bind_inv; injection Hr as <- _ _; eauto.
Qed.

(** The end of an iteration that found a child but none to collect: -1 for a
    killed process, sleep for another. *)
Lemma wait_retry p pr (body : unit -> K (unit + Z)) s o :
  k_cur s = Some p -> k_locks s = [] -> k_procs s !! p = Some pr ->
  (forall o, body tt (s <| k_locks := [LWait] |>)%rec o =
    (k ← killed p;
     if negb (k =? 0) then release LWait ;; mret (inr (-1))
     else sleep (ChProc p) LWait ;; mret (inl tt)) (s <| k_locks := [LWait] |>)%rec o) ->
  if p_killed pr =? 0
  then ksleeploop body tt (s <| k_locks := [LWait] |>)%rec [] = Blocked (sleep_state p (ChProc p) s)
  else ksleeploop body tt (s <| k_locks := [LWait] |>)%rec o = Ok (-1) s o.
Proof.
  intros Hcur Hl Hp Hb; destruct (Z.eqb_spec (p_killed pr) 0) as [Hk | Hk].
  - apply ksleeploop_blocked; rewrite Hb.
    erewrite bind_ok by (apply killed_run; [done | set_solver]); rewrite Hk; cbn [negb Z.eqb].
    unfold mbind, K_bind; erewrite sleep_blocked by done; done.
  - apply ksleeploop_ret; rewrite Hb.
    erewrite bind_ok by (apply killed_run; [done | set_solver]).
    replace (p_killed pr =? 0) with false by lia; cbn [negb]; step_with release_ok.
    rewrite ret_ok; f_equal; destruct s; simpl in *; subst; done.
Qed.

(** wait(addr): which child it takes, and what it does without one *)
Lemma kwait_run (p : nat) (pr : proc) (addr : Z) (s : kstate) (o : oracle)
  (Hlen : procs_ok s) (Hcur : k_cur s = Some p) (Hl : k_locks s = [])
  (Hp : k_procs s !! p = Some pr) :
  match list_find (zombie_child p) (k_procs s) with
  | Some (i, q) =>
      kwait addr s o = reap p i addr (p_pid q) (s <| k_locks := [LProc i; LWait] |>)%rec o
  | None =>
      if existsb (child_of p) (k_procs s) && (p_killed pr =? 0)
      then kwait addr s [] = Blocked (sleep_state p (ChProc p) s)
      else kwait addr s o = Ok (-1) s o
  end.
Proof.
  set (s1 := (s <| k_locks := [LWait] |>)%rec).
  assert (Hs1 : (s <| k_locks ::= cons LWait |>)%rec = s1)
    by (unfold s1; destruct s; simpl in *; subst; done).
  pose proof (fun o => wait_scan_run p addr s1 o Hlen ltac:(intros j; set_solver)) as Hscan.
  change (k_procs s1) with (k_procs s) in Hscan.
  assert (Hw : forall o, kwait addr s o = ksleeploop (wait_body p addr) tt s1 o).
  { intros o'; unfold kwait; step_with curproc_ok; step_with acquire_ok; [| rewrite Hl; set_solver].
    rewrite Hs1; done. }
  rewrite !Hw; destruct (list_find _ _) as [[i q] |] eqn:Ef.
  - apply ksleeploop_tail; unfold wait_body, mbind, K_bind; rewrite Hscan.
    unfold mbind, K_bind, s1; destruct s; simpl; destruct (reap _ _ _ _ _ _); done.
  - destruct (existsb _ _) eqn:Ec; simpl.
    + eapply wait_retry; [exact Hcur | done | exact Hp |]; intros o'; fold s1; unfold wait_body.
      erewrite bind_ok by apply Hscan; done.
    + apply ksleeploop_ret; unfold wait_body; erewrite bind_ok by apply Hscan; cbn beta iota.
      step_with @ret_ok; cbn [negb Z.eqb]; step_with release_ok.
      rewrite <- Hs1, lock_unlock; done.
Qed.

(** waitpid: the first child with that pid decides. *)
Definition child_pid (p : nat) (pid : Z) (q : proc) : Prop := p_parent q = Some p /\ p_pid q = pid.

#[export] Instance child_pid_dec p pid q : Decision (child_pid p pid q).
Proof. unfold child_pid; apply _. Defined.

Lemma waitpid_scan_run p pid addr s o :
  procs_ok s -> no_plock s ->
  waitpid_scan p pid addr s o =
  match list_find (child_pid p pid) (k_procs s) with
  | Some (i, q) =>
      if bool_decide (p_state q = ZOMBIE)
      then (v ← reap p i addr pid; mret (inr (Some v))) (s <| k_locks ::= cons (LProc i) |>)%rec o
      else Ok (inr None) s o
  | None => Ok (inl tt) s o
  end.
Proof.
  intros Hlen Hl; unfold waitpid_scan.
  apply (kfor_find tt (child_pid p pid) _ (fun i q s =>
    if bool_decide (p_state q = ZOMBIE)
    then (v ← reap p i addr pid; mret (inr (Some v))) (s <| k_locks ::= cons (LProc i) |>)%rec o
    else Ok (inr None) s o)).
  - done.
  - intros i q Hq []; step_with pget_ok; destruct (decide (child_pid p pid q)) as [Hc | Hc].
    + destruct Hc as [-> ->]; rewrite bool_decide_eq_true_2, Z.eqb_refl by done; simpl.
      erewrite plock_peek by done; destruct (bool_decide (p_state q = ZOMBIE)); [done |].
      step_with release_ok; rewrite lock_unlock; done.
    + unfold child_pid in Hc; case_bool_decide; destruct (Z.eqb_spec (p_pid q) pid); naive_solver.
  - intros i q s' x o'; destruct (bool_decide _).
    + intros (v & ? & ? & _ & Hr)%bind_inv; injection Hr as <- _ _; eauto.
    + intros [= <- _ _]; eauto.
Qed.

(** Waitpid(pid, addr) looks at the first child with that pid: it collects
    a ZOMBIE and returns pid; it returns -1 and changes nothing when there is
    no such child or the caller was killed; otherwise the caller sleeps until
    woken, whatever its other children do. *)
Theorem kwaitpid_spec (p : nat) (pr : proc) (pid addr : Z) (s : kstate) (o : oracle)
  (Hlen : procs_ok s) (Hcur : k_cur s = Some p) (Hl : k_locks s = [])
  (Hp : k_procs s !! p = Some pr) :
  match list_find (child_pid p pid) (k_procs s) with
  | Some (i, q) =>
      if bool_decide (p_state q = ZOMBIE)
      then kwaitpid pid addr s o = reap p i addr pid (s <| k_locks := [LProc i; LWait] |>)%rec o
      else if p_killed pr =? 0 then kwaitpid pid addr s [] = Blocked (sleep_state p (ChProc p) s)
      else kwaitpid pid addr s o = Ok (-1) s o
  | None => kwaitpid pid addr s o = Ok (-1) s o
  end.
Proof.
  set (s1 := (s <| k_locks := [LWait] |>)%rec).
  assert (Hs1 : (s <| k_locks ::= cons LWait |>)%rec = s1)
    by (unfold s1; destruct s; simpl in *; subst; done).
  pose proof (fun o => waitpid_scan_run p pid addr s1 o Hlen ltac:(intros j; set_solver)) as Hscan.
  change (k_procs s1) with (k_procs s) in Hscan.
  assert (Hw : forall o, kwaitpid pid addr s o = ksleeploop (waitpid_body p pid addr) tt s1 o).
  { intros o'; unfold kwaitpid; step_with curproc_ok; step_with acquire_ok; [| rewrite Hl; set_solver].
    rewrite Hs1; done. }
  rewrite !Hw; destruct (list_find _ _) as [[i q] |] eqn:Ef.
  - destruct (bool_decide (p_state q = ZOMBIE)).
    + apply ksleeploop_tail; unfold waitpid_body, mbind, K_bind; rewrite Hscan.
      unfold mbind, K_bind, s1; destruct s; simpl; destruct (reap _ _ _ _ _ _); done.
    + eapply wait_retry; [exact Hcur | done | exact Hp |]; intros o'; fold s1; unfold waitpid_body.
      erewrite bind_ok by apply Hscan; done.
  - apply ksleeploop_ret; unfold waitpid_body; erewrite bind_ok by apply Hscan; cbn beta iota zeta.
    step_with @ret_ok; cbn [negb Z.eqb]; step_with release_ok.
    rewrite <- Hs1, lock_unlock; done.
Qed.

End Wait.

(** init waits: it sleeps for pid 2, collects nothing for pid 9. *)
Lemma kwaitpid_spec_witness :
  kwaitpid (H := demo_linker) 2 0 demo_family [] =
    Blocked (sleep_state 0 (ChProc 0) demo_family) /\
  kwaitpid (H := demo_linker) 9 0 demo_family [] = Ok (-1) demo_family [].
Proof.
  pose proof (kwaitpid_spec (H := demo_linker) 0 demo_init 2 0 demo_family [] eq_refl eq_refl
    eq_refl eq_refl) as H2.
  pose proof (kwaitpid_spec (H := demo_linker) 0 demo_init 9 0 demo_family [] eq_refl eq_refl
    eq_refl eq_refl) as H9.
  split; [exact H2 | exact H9].
Defined.
