(* ===== verification/ForkSpec.v ===== *)
(** fork: the child that kfork and thread_fork make, and everything a fork that fails
    gives back (kernel/proc.c). *)
From stdpp Require Import base gmap list strings.
From Stdlib Require Import ZArith Lia ZifyBool.
From S2P Require Import Prelude Memory KPrintf State Monad Demo Kalloc ProcBase Vm Frame VmSpec PtSpec UvmSpec Sleeplock Bio Log Fs Pipe File Proc ProcVmSpec ProcSpec IpcSpec LifeSpec.

Local Open Scope Z_scope.

(** ** The parts of the state that fork works on *)

(** [s] with new memory, free list, locks, processes, next pid, trapframes, open files and inodes *)
Definition cfg (s : kstate) (M : mem) (F : Z) (locks : list lockid) (procs : list proc) (npid : Z)
    (tfs : gmap Z trapframe) (ft : list file) (it : list inode) : kstate :=
  (s <| k_mem := M |> <| k_freelist := F |> <| k_locks := locks |> <| k_procs := procs |> <| k_nextpid := npid |>
     <| k_tf := tfs |> <| k_ftable := ft |> <| k_itable := it |>)%rec.

(** [s] with other memory and another free list, and no lock held *)
Definition mst (s : kstate) (M : mem) (F : Z) : kstate := (s <| k_mem := M |> <| k_freelist := F |> <| k_locks := [] |>)%rec.

Lemma mst_self s : k_locks s = [] -> mst s (k_mem s) (k_freelist s) = s.
Proof. intros E; destruct s; simpl in E; by subst. Qed.

Lemma rest_mst s M F M' F' : rest (mst s M' F') = rest (mst s M F).
Proof. reflexivity. Qed.

Lemma rest_put s s' : rest s' = rest s -> s' = (s <| k_mem := k_mem s' |> <| k_freelist := k_freelist s' |>)%rec.
Proof.
  intros R; transitivity ((rest s') <| k_mem := k_mem s' |> <| k_freelist := k_freelist s' |>)%rec; [by destruct s' |].
  rewrite R; by destruct s.
Qed.

Lemma cfg_self s :
  cfg s (k_mem s) (k_freelist s) (k_locks s) (k_procs s) (k_nextpid s) (k_tf s) (k_ftable s) (k_itable s) = s.
Proof. by destruct s. Qed.

Section Cfg.
Context (s : kstate).

Lemma cfg_acquire lk M F locks procs npid tfs ft it o :
  lk ∉ locks -> acquire lk (cfg s M F locks procs npid tfs ft it) o = Ok tt (cfg s M F (lk :: locks) procs npid tfs ft it) o.
Proof. intros Hlk; rewrite acquire_ok by done; by destruct s. Qed.

Lemma cfg_release lk M F locks procs npid tfs ft it o :
  release lk (cfg s M F (lk :: locks) procs npid tfs ft it) o = Ok tt (cfg s M F locks procs npid tfs ft it) o.
Proof.
  rewrite release_ok by (change (lk ∈ lk :: locks); apply list_elem_of_here).
  transitivity (Ok tt (cfg s M F (remove_lock lk (lk :: locks)) procs npid tfs ft it) o); [by destruct s |].
  by rewrite remove_lock_cons.
Qed.

Lemma cfg_pset i f pr M F locks procs npid tfs ft it o :
  procs !! i = Some pr ->
  pset i f (cfg s M F locks procs npid tfs ft it) o = Ok tt (cfg s M F locks (upd i f procs) npid tfs ft it) o.
Proof. intros Hp; rewrite (pset_ok i pr) by (by destruct s); by destruct s. Qed.

Lemma cfg_pget i pr M F locks procs npid tfs ft it o :
  procs !! i = Some pr ->
  pget i (cfg s M F locks procs npid tfs ft it) o = Ok pr (cfg s M F locks procs npid tfs ft it) o.
Proof. intros Hp; by rewrite (pget_ok i pr) by (by destruct s). Qed.

Lemma cfg_tfget a tf M F locks procs npid tfs ft it o :
  tfs !! a = Some tf ->
  tfget a (cfg s M F locks procs npid tfs ft it) o = Ok tf (cfg s M F locks procs npid tfs ft it) o.
Proof. intros Ha; apply tfget_ok; by destruct s. Qed.

Lemma cfg_del_tf a M F locks procs npid tfs ft it :
  (cfg s M F locks procs npid tfs ft it <| k_tf ::= delete a |>)%rec = cfg s M F locks procs npid (delete a tfs) ft it.
Proof. by destruct s. Qed.

Lemma cfg_tfset a f tf M F locks procs npid tfs ft it o :
  tfs !! a = Some tf ->
  tfset a f (cfg s M F locks procs npid tfs ft it) o = Ok tt (cfg s M F locks procs npid (<[a := f tf]> tfs) ft it) o.
Proof. intros Ha; rewrite (tfset_ok a tf) by (by destruct s); by destruct s. Qed.

End Cfg.

Section CfgVm.
Context `{Linker} (Hend : 0 < kend) (s : kstate).

Lemma vm_inv_same s1 s2 T l :
  k_mem s1 = k_mem s2 -> k_freelist s1 = k_freelist s2 -> LKmem ∉ k_locks s2 -> vm_inv s1 T l -> vm_inv s2 T l.
Proof. intros Em Ef Hlk [HR HA Hap _]; constructor; rewrite <- ?Em; [done | | done | done]; unfold alloc_inv in *; by rewrite <- Em, <- Ef. Qed.

Lemma cfg_vm M F locks procs npid tfs ft it T l :
  vm_inv (mst s M F) T l -> LKmem ∉ locks -> vm_inv (cfg s M F locks procs npid tfs ft it) T l.
Proof. intros HI Hlk; revert HI; apply vm_inv_same; destruct s; done. Qed.

Lemma cfg_rest M F locks procs npid tfs ft it s' :
  rest s' = rest (cfg s M F locks procs npid tfs ft it) -> s' = cfg s (k_mem s') (k_freelist s') locks procs npid tfs ft it.
Proof. intros R; rewrite (rest_put _ _ R) at 1; by destruct s. Qed.

(** An operation on memory, in terms of memory *)
Lemma cfg_grown M F locks procs npid tfs ft it s' T T' l l' own :
  grown (cfg s M F locks procs npid tfs ft it) s' T T' l l' own ->
  exists M' F', s' = cfg s M' F' locks procs npid tfs ft it /\ grown (mst s M F) (mst s M' F') T T' l l' own.
Proof.
  intros [I N P R Fr]; exists (k_mem s'), (k_freelist s'); split; [by eapply cfg_rest |].
  constructor; [| done | done | apply rest_mst | exact Fr].
  revert I; apply vm_inv_same; [done | done | apply not_elem_of_nil].
Qed.

Lemma cfg_kfree pa M F locks procs npid tfs ft it T l o :
  page_ok pa -> LKmem ∉ locks -> vm_inv (mst s M F) T l -> pa ∉ t_pages T -> pa ∉ l ->
  exists M' F', kfree pa (cfg s M F locks procs npid tfs ft it) o = Ok tt (cfg s M' F' locks procs npid tfs ft it) o /\
    vm_inv (mst s M' F') T (pa :: l) /\ forall b, ~ in_pages [pa] b -> mget M' b = mget M b.
Proof using Hend.
  intros Hpa Hlk HI Ht Hl; set (X := cfg s M F locks procs npid tfs ft it).
  assert (HX : vm_inv X T l) by (by apply cfg_vm).
  pose proof (kfree_run pa X o Hpa (vi_lock _ _ _ HX)) as Hk; pose proof (kfree_rest pa X) as Hr.
  pose proof (kfree_vm Hend pa X T l HX Hpa Ht Hl) as HY; pose proof (fun b => kfree_frame pa X b) as Hf.
  generalize dependent (kfree_result pa X); intros Y Hk Hr HY Hf.
  exists (k_mem Y), (k_freelist Y); split; [| split].
  - rewrite Hk; f_equal; exact (cfg_rest _ _ _ _ _ _ _ _ _ Hr).
  - apply (vm_inv_same Y); [reflexivity | reflexivity | apply not_elem_of_nil | exact HY].
  - intros b Hn; rewrite in_pages_one in Hn; exact (Hf b Hn).
Qed.

End CfgVm.

(** ** freeproc *)

(** What freeproc leaves of a process *)
Definition freed_proc (pr : proc) : proc :=
  (pr <| p_trapframe := 0 |> <| p_pagetable := 0 |> <| p_sz := 0 |> <| p_pid := 0 |> <| p_parent := None |>
      <| p_name ::= <[0%nat := 0]> |> <| p_chan := ChNull |> <| p_killed := 0 |> <| p_xstate := 0 |>
      <| p_ipc_ready := 0 |> <| p_ipc_len := 0 |> <| p_state := UNUSED |>)%rec.

Section FreeProc.
Context `{Linker} (Hend : 0 < kend) (Htr : 0 <= trampoline < 2 ^ 56 /\ trampoline mod PGSIZE = 0) (s : kstate).

(** A process that has neither a trapframe nor a page table *)
Lemma freeproc_empty i pr M F locks procs npid tfs ft it o :
  procs !! i = Some pr -> p_trapframe pr = 0 -> p_pagetable pr = 0 ->
  freeproc i (cfg s M F locks procs npid tfs ft it) o = Ok tt (cfg s M F locks (upd i freed_proc procs) npid tfs ft it) o.
Proof.
  intros Hi E1 E2; unfold freeproc; erewrite bind_ok by (by apply cfg_pget); rewrite E1, E2; cbn [Z.eqb negb kwhen].
  erewrite bind_ok by apply ret_ok; erewrite bind_ok by (by eapply cfg_pset).
  erewrite bind_ok by apply ret_ok; erewrite cfg_pset by (by apply upd_lookup_eq); by rewrite upd_upd.
Qed.

(** A process that has only a trapframe *)
Lemma freeproc_tf i pr M F locks procs npid tfs ft it l o :
  procs !! i = Some pr -> p_pagetable pr = 0 -> LKmem ∉ locks ->
  let tf := p_trapframe pr in
  page_ok tf -> vm_inv (mst s M F) t_none l -> tf ∉ l ->
  exists M' F', freeproc i (cfg s M F locks procs npid tfs ft it) o =
      Ok tt (cfg s M' F' locks (upd i freed_proc procs) npid (delete tf tfs) ft it) o /\
    vm_inv (mst s M' F') t_none (tf :: l) /\ forall b, ~ in_pages [tf] b -> mget M' b = mget M b.
Proof using Hend.
  intros Hi E2 Hlk tf Htf HI Hl; destruct (page_ok_bound _ Hend Htf) as [Hb _].
  unfold freeproc; erewrite bind_ok by (by apply cfg_pget); fold tf; replace (tf =? 0) with false by lia.
  cbn [negb kwhen]; rewrite bind_assoc, modify_bind, cfg_del_tf.
  destruct (cfg_kfree Hend s tf M F locks procs npid (delete tf tfs) ft it t_none l o Htf Hlk HI) as (M' & F' & Hk & HI' & Hf);
    [rewrite t_pages_none; apply not_elem_of_nil | done |].
  erewrite bind_ok by exact Hk; erewrite bind_ok by (by eapply cfg_pset); rewrite E2; cbn [Z.eqb negb kwhen].
  erewrite bind_ok by apply ret_ok; erewrite cfg_pset by (by apply upd_lookup_eq); rewrite upd_upd.
  exists M', F'; split; [reflexivity | by split].
Qed.

(** A process with a whole address space *)
Lemma freeproc_full i pr M F locks procs npid tfs ft it T l o :
  procs !! i = Some pr -> LKmem ∉ locks ->
  let tf := p_trapframe pr in let pages := t_pages T ++ upages (t_leaf T) 0 (npages (p_sz pr)) ++ l in
  page_ok tf -> aspace (mst s M F) T l (p_pagetable pr) (p_sz pr) -> tf ∉ pages -> p_pagetable pr <> 0 ->
  exists M' F' l', freeproc i (cfg s M F locks procs npid tfs ft it) o =
      Ok tt (cfg s M' F' locks (upd i freed_proc procs) npid (delete tf tfs) ft it) o /\
    vm_inv (mst s M' F') t_none l' /\ l' ≡ₚ tf :: pages /\
    forall b, ~ in_pages (tf :: pages) b -> mget M' b = mget M b.
Proof using Hend Htr.
  intros Hi Hlk tf pages Htf [HI Hroot Hsz Hleaf Hok Hnd] Hn Hpt; destruct (page_ok_bound _ Hend Htf) as [Hb _].
  unfold pages in Hn; rewrite !not_elem_of_app in Hn; destruct Hn as (Hn1 & Hn2 & Hn3).
  unfold freeproc; erewrite bind_ok by (by apply cfg_pget); fold tf; replace (tf =? 0) with false by lia.
  cbn [negb kwhen]; rewrite bind_assoc, modify_bind, cfg_del_tf.
  destruct (cfg_kfree Hend s tf M F locks procs npid (delete tf tfs) ft it T l o Htf Hlk HI Hn1 Hn3) as (M1 & F1 & Hk & HI1 & Hf1).
  erewrite bind_ok by exact Hk; erewrite bind_ok by (by eapply cfg_pset).
  replace (p_pagetable pr =? 0) with false by lia; cbn [negb kwhen].
  set (procs1 := upd i _ procs).
  destruct (proc_freepagetable_run Hend Htr (p_pagetable pr) (p_sz pr) (cfg s M1 F1 locks procs1 npid (delete tf tfs) ft it) T (tf :: l) o)
    as (s2 & l2 & H2 & HA2 & HP2 & Hr2 & Hf2).
  { constructor; try done; [by apply cfg_vm |]; rewrite !NoDup_app in Hnd |- *; rewrite NoDup_cons.
    set_solver. }
  erewrite bind_ok by exact H2; rewrite (cfg_rest s _ _ _ _ _ _ _ _ _ Hr2).
  erewrite cfg_pset by (by apply upd_lookup_eq); unfold procs1; rewrite upd_upd.
  exists (k_mem s2), (k_freelist s2), l2; split; [reflexivity |].
  assert (HP : l2 ≡ₚ tf :: pages) by (rewrite HP2; unfold pages; solve_Permutation); split; [| split; [done |]].
  - apply (vm_inv_same s2); [done | done | apply not_elem_of_nil |]; apply none_inv; [done |].
    rewrite (rest_locks _ _ Hr2); by destruct s.
  - intros b Hnb; transitivity (mget M1 b).
    + apply Hf2; intros Hc; apply Hnb; revert Hc; apply in_pages_sub; unfold pages; set_solver.
    + apply Hf1; intros Hc; apply Hnb; revert Hc; apply in_pages_sub; set_solver.
Qed.

End FreeProc.

(** ** allocproc *)

(** The entry allocproc returns *)
Definition new_proc `{Linker} (pid tf pt : Z) (pr : proc) : proc :=
  let pr := (alloc_fields pid pr <| p_trapframe := tf |> <| p_pagetable := pt |>)%rec in
  (pr <| p_context := mkcontext forkret_addr (u64 (p_kstack pr + PGSIZE)) (replicate 12 0) |>)%rec.

(** The entry it leaves when memory runs out *)
Definition lost_proc (pid : Z) (pr : proc) : proc := freed_proc (alloc_fields pid pr).

Section AllocProc.
Context `{Linker} (Hend : 0 < kend) (Htr : 0 <= trampoline < 2 ^ 56 /\ trampoline mod PGSIZE = 0) (s : kstate).

Lemma cfg_allocpid M F locks procs npid tfs ft it o :
  LPid ∉ locks ->
  allocpid (cfg s M F locks procs npid tfs ft it) o = Ok npid (cfg s M F locks procs (i32 (npid + 1)) tfs ft it) o.
Proof.
  intros Hlk; unfold allocpid; erewrite bind_ok by (by apply cfg_acquire); rewrite gets_bind, modify_bind.
  transitivity ((release LPid ;; mret npid) (cfg s M F (LPid :: locks) procs (i32 (npid + 1)) tfs ft it) o); [by destruct s |].
  erewrite bind_ok by apply cfg_release; done.
Qed.

(** kalloc on a free list that is not empty *)
Lemma cfg_kalloc q M F locks procs npid tfs ft it T l o :
  vm_inv (mst s M F) T (q :: l) -> LKmem ∉ locks ->
  exists M' F', kalloc (cfg s M F locks procs npid tfs ft it) o = Ok q (cfg s M' F' locks procs npid tfs ft it) o /\
    page_ok q /\ q <> 0 /\ grown (mst s M F) (mst s M' F') T T (q :: l) l [q].
Proof using Hend.
  intros HI Hlk; set (X := cfg s M F locks procs npid tfs ft it); assert (HX : vm_inv X T (q :: l)) by (by apply cfg_vm).
  destruct (kalloc_inv Hend q l X (vi_alloc _ _ _ HX)) as (Hfl & Hq0 & Hq & _).
  pose proof (alloc_fill Hend q (fun m => m) X T l HX ltac:(done)) as G; cbv zeta in G.
  pose proof (kalloc_run_page X o ltac:(lia) Hlk) as Hk; rewrite Hfl in Hk.
  assert (E : (kalloc_result q X <| k_mem ::= fun m => m |>)%rec = kalloc_result q X)
    by (generalize (kalloc_result q X); intros Y; by destruct Y).
  rewrite E in G; clear E; generalize dependent (kalloc_result q X); intros Y G Hk.
  destruct (cfg_grown s _ _ _ _ _ _ _ _ _ _ _ _ _ _ G) as (M' & F' & -> & G'); exists M', F'; done.
Qed.

Lemma lost_proc_upd i pid tf pt procs :
  upd i freed_proc (upd i (fun pr => pr <| p_pagetable := pt |>)%rec (upd i (fun pr => pr <| p_trapframe := tf |>)%rec
    (upd i (alloc_fields pid) procs))) = upd i (lost_proc pid) procs.
Proof.
  rewrite !upd_upd; apply list_alter_ext; [| reflexivity]; intros x _; unfold lost_proc, compose.
  generalize (alloc_fields pid x); intros y; destruct y; reflexivity.
Qed.

Lemma lost_proc_upd1 i pid tf procs :
  upd i freed_proc (upd i (fun pr => pr <| p_trapframe := tf |>)%rec (upd i (alloc_fields pid) procs)) =
  upd i (lost_proc pid) procs.
Proof.
  rewrite !upd_upd; apply list_alter_ext; [| reflexivity]; intros x _; unfold lost_proc, compose.
  generalize (alloc_fields pid x); intros y; destruct y; reflexivity.
Qed.

Lemma new_proc_upd i pid tf pt procs :
  upd i (fun pr => pr <| p_context := mkcontext forkret_addr (u64 (p_kstack pr + PGSIZE)) (replicate 12 0) |>)%rec
    (upd i (fun pr => pr <| p_pagetable := pt |>)%rec (upd i (fun pr => pr <| p_trapframe := tf |>)%rec
    (upd i (alloc_fields pid) procs))) = upd i (new_proc pid tf pt) procs.
Proof. rewrite !upd_upd; reflexivity. Qed.

Lemma allocproc_found_run i pr M F lk0 procs npid tfs ft it l o :
  procs !! i = Some pr -> p_pagetable pr = 0 -> LPid ∉ LProc i :: lk0 -> LKmem ∉ LProc i :: lk0 ->
  vm_inv (mst s M F) t_none l -> (forall p, p ∈ l -> tfs !! p = None) ->
  (exists tf pt w M' F' T' l',
     allocproc_found i (cfg s M F (LProc i :: lk0) procs npid tfs ft it) o =
       Ok (Some i) (cfg s M' F' (LProc i :: lk0) (upd i (new_proc npid tf pt) procs) (i32 (npid + 1)) (<[tf := w]> tfs) ft it) o /\
     page_ok tf /\ pt <> 0 /\ grown (mst s M F) (mst s M' F') t_none T' l l' [tf] /\
     t_nodes T' !! [] = Some pt /\ t_leaf T' = kernel_leaves tf) \/
  (exists M' F' l',
     allocproc_found i (cfg s M F (LProc i :: lk0) procs npid tfs ft it) o =
       Ok None (cfg s M' F' lk0 (upd i (lost_proc npid) procs) (i32 (npid + 1)) tfs ft it) o /\
     grown (mst s M F) (mst s M' F') t_none t_none l l' []).
Proof using Hend Htr.
  intros Hi Hpt Hpid Hlk HI Htfs; set (locks := LProc i :: lk0) in *; unfold allocproc_found.
  erewrite bind_ok by (by apply cfg_allocpid); erewrite bind_ok by (by eapply cfg_pset).
  assert (H1 : upd i (alloc_fields npid) procs !! i = Some (alloc_fields npid pr)) by (by apply upd_lookup_eq).
  destruct l as [| q l].
  - right; exists M, F, []; split; [| by apply vm_grown_refl].
    pose proof (vi_alloc _ _ _ HI) as [Hf _]; simpl in Hf.
    erewrite bind_ok by (apply kalloc_run_empty; [by destruct s | by destruct s]).
    erewrite bind_ok by (by eapply cfg_pset); cbn [Z.eqb].
    erewrite bind_ok by (eapply freeproc_empty; [by apply upd_lookup_eq | done | done]).
    unfold locks; erewrite bind_ok by apply cfg_release; rewrite ret_ok, lost_proc_upd1; done.
  - destruct (cfg_kalloc q M F locks (upd i (alloc_fields npid) procs) (i32 (npid + 1)) tfs ft it t_none l o HI Hlk)
      as (M1 & F1 & Hk & Hq & Hq0 & G1); erewrite bind_ok by exact Hk.
    erewrite bind_ok by (by eapply cfg_pset); replace (q =? 0) with false by lia; rewrite modify_bind.
    set (procs1 := upd i _ (upd i _ procs)); set (w := tf_load _ _).
    match goal with |- context [(cfg ?a ?b ?c ?d ?e ?f ?g ?h ?i <| k_tf ::= ?u |>)%rec] =>
      replace ((cfg a b c d e f g h i <| k_tf ::= u |>)%rec) with (cfg a b c d e f (<[q := w]> g) h i) by (by destruct s) end.
    assert (H2 : exists pr1, procs1 !! i = Some pr1 /\ p_trapframe pr1 = q /\ p_pagetable pr1 = 0).
    { eexists; split; [by apply upd_lookup_eq, upd_lookup_eq |]; split; [done | exact Hpt]. }
    destruct H2 as (pr1 & Hp1 & Etf & Ept).
    destruct (proc_pagetable_run Hend Htr q (cfg s M1 F1 locks procs1 (i32 (npid + 1)) (<[q := w]> tfs) ft it) l o)
      as (r & s2 & T2 & l2 & H2 & Hc); [apply cfg_vm; [apply (gw_inv _ _ _ _ _ _ _ G1) | done] | done |].
    erewrite bind_ok by exact H2; destruct Hc as [(Hr0 & G2 & Hroot & EL) | (-> & G2)];
      destruct (cfg_grown s _ _ _ _ _ _ _ _ _ _ _ _ _ _ G2) as (M2 & F2 & -> & G2');
      pose proof (grown_trans Hend _ _ _ _ _ _ _ _ _ _ _ G1 G2') as G12; erewrite bind_ok by (by eapply cfg_pset).
    + left; replace (r =? 0) with false by lia.
      erewrite bind_ok by (eapply cfg_pset; by apply upd_lookup_eq); rewrite ret_ok; unfold procs1; rewrite new_proc_upd.
      exists q, r, w, M2, F2, T2, l2; split; [reflexivity |]; done.
    + right; cbn [Z.eqb].
      destruct (freeproc_tf Hend s i (pr1 <| p_pagetable := 0 |>)%rec M2 F2 locks (upd i (fun pr => pr <| p_pagetable := 0 |>)%rec procs1)
        (i32 (npid + 1)) (<[q := w]> tfs) ft it l2 o) as (M3 & F3 & H3 & I3 & Fr3);
        [by apply upd_lookup_eq | done | done | by destruct pr1; simpl in *; subst | apply (gw_inv _ _ _ _ _ _ _ G2') | |].
      { destruct pr1; simpl in *; subst; pose proof (vm_pages_nodup _ _ _ HI) as Hnd.
        rewrite <- (gw_pages _ _ _ _ _ _ _ G12) in Hnd; rewrite t_pages_none in Hnd; by apply NoDup_cons in Hnd as [? _]. }
      erewrite bind_ok by exact H3; unfold locks; erewrite bind_ok by apply cfg_release; rewrite ret_ok.
      change (p_trapframe (pr1 <| p_pagetable := 0 |>)%rec) with (p_trapframe pr1) in *; rewrite Etf in *.
      exists M3, F3, (q :: l2); split.
      { unfold procs1; rewrite lost_proc_upd, (delete_insert_id tfs q w (Htfs q (list_elem_of_here q l))); reflexivity. }
      constructor; [exact I3 | done | | apply rest_mst |].
      * rewrite <- (gw_pages _ _ _ _ _ _ _ G12); solve_Permutation.
      * intros b Hb; transitivity (mget M2 b); [apply Fr3 | by apply (gw_frame _ _ _ _ _ _ _ G12)].
        intros Hc; apply Hb; revert Hc; apply in_pages_sub; set_solver.
Qed.

(** The search for a free entry *)
Lemma allocproc_scan M F lk0 procs npid tfs ft it o :
  length procs = NPROC -> (forall i, LProc i ∉ lk0) ->
  allocproc (cfg s M F lk0 procs npid tfs ft it) o =
  match list_find (fun p => p_state p = UNUSED) procs with
  | Some (i, _) => allocproc_found i (cfg s M F (LProc i :: lk0) procs npid tfs ft it) o
  | None => Ok None (cfg s M F lk0 procs npid tfs ft it) o
  end.
Proof.
  intros Hlen Hlk; unfold allocproc; unfold mbind at 1, K_bind at 1.
  rewrite (kfor_find tt (fun p => p_state p = UNUSED) _
    (fun i p _ => Ok (inr i) (cfg s M F (LProc i :: lk0) procs npid tfs ft it) o)).
  - change (k_procs (cfg s M F lk0 procs npid tfs ft it)) with procs; destruct (list_find _ _) as [[i p] |]; reflexivity.
  - exact Hlen.
  - intros i p Hp st; change (procs !! i = Some p) in Hp; erewrite bind_ok by (by apply cfg_acquire).
    erewrite bind_ok by (by apply cfg_pget); unfold bool_decide; destruct (decide_rel _ _ _) as [E | E].
    + rewrite decide_True by done; reflexivity.
    + rewrite decide_False by done; erewrite bind_ok by apply cfg_release; by destruct st.
  - intros i p s' x o' [= <- _ _]; eauto.
Qed.

End AllocProc.

(** ** Open files and the current directory *)

(** The file table when the descriptors [ofs] have been duplicated *)
Fixpoint dup_refs (ofs : list (option nat)) (ft : list file) : list file :=
  match ofs with
  | [] => ft
  | Some f :: ofs' => dup_refs ofs' (upd f (fun x => x <| f_ref := f_ref x + 1 |>)%rec ft)
  | None :: ofs' => dup_refs ofs' ft
  end.

(** How many of [ofs] are [f] *)
Fixpoint uses (f : nat) (ofs : list (option nat)) : Z :=
  match ofs with
  | [] => 0
  | o :: ofs' => (if decide (o = Some f) then 1 else 0) + uses f ofs'
  end.

Lemma uses_nonneg f ofs : 0 <= uses f ofs.
Proof. induction ofs as [| o ofs IH]; simpl; [done | case_decide; lia]. Qed.

Lemma lookup_upd {A} i j (f : A -> A) (l : list A) : upd i f l !! j = if decide (i = j) then f <$> l !! j else l !! j.
Proof. unfold upd; case_decide; subst; [apply list_lookup_alter_eq | by apply list_lookup_alter_ne]. Qed.

(** Every file gains as many references as there are descriptors of it. *)
Lemma dup_refs_lookup ofs ft f :
  dup_refs ofs ft !! f = (fun x => x <| f_ref := f_ref x + uses f ofs |>)%rec <$> ft !! f.
Proof.
  revert ft; induction ofs as [| [g |] ofs IH]; intros ft; cbn [dup_refs uses].
  - destruct (ft !! f) as [x |]; [| done]; destruct x; simpl; by rewrite Z.add_0_r.
  - rewrite IH, lookup_upd; destruct (decide (g = f)) as [-> |].
    + rewrite decide_True by done; destruct (ft !! f) as [x |]; [| done]; destruct x; simpl; by rewrite Z.add_assoc.
    + rewrite decide_False by congruence; done.
  - rewrite IH, decide_False by done; done.
Qed.

Lemma dup_refs_app ofs1 ofs2 ft : dup_refs (ofs1 ++ ofs2) ft = dup_refs ofs2 (dup_refs ofs1 ft).
Proof. revert ft; induction ofs1 as [| [f |] ofs1 IH]; intros ft; simpl; auto. Qed.

Section Dup.
Context (s : kstate).

Lemma cfg_filedup f x M F locks procs npid tfs ft it o :
  ft !! f = Some x -> 1 <= f_ref x -> LFtable ∉ locks ->
  filedup f (cfg s M F locks procs npid tfs ft it) o =
  Ok f (cfg s M F locks procs npid tfs (upd f (fun x => x <| f_ref := f_ref x + 1 |>)%rec ft) it) o.
Proof.
  intros Hf Hr Hlk; unfold filedup; erewrite bind_ok by (by apply cfg_acquire).
  assert (Hg : forall locks, fget f (cfg s M F locks procs npid tfs ft it) o = Ok x (cfg s M F locks procs npid tfs ft it) o).
  { intros locks'; unfold fget; rewrite gets_bind; change (k_ftable (cfg s M F locks' procs npid tfs ft it)) with ft; by rewrite Hf. }
  erewrite bind_ok by apply Hg; replace (f_ref x <? 1) with false by lia.
  unfold fset; rewrite bind_assoc; erewrite bind_ok by apply Hg; rewrite modify_bind.
  match goal with |- context [(cfg ?a ?b ?c ?d ?e ?f ?g ?h ?i <| k_ftable ::= ?u |>)%rec] =>
    replace ((cfg a b c d e f g h i <| k_ftable ::= u |>)%rec) with (cfg a b c d e f g (u h) i) by (by destruct s) end.
  erewrite bind_ok by apply cfg_release; done.
Qed.

Lemma cfg_idup ip x M F locks procs npid tfs ft it o :
  it !! ip = Some x -> LItable ∉ locks ->
  idup ip (cfg s M F locks procs npid tfs ft it) o =
  Ok ip (cfg s M F locks procs npid tfs ft (upd ip (fun x => x <| i_ref := i_ref x + 1 |>)%rec it)) o.
Proof.
  intros Hi Hlk; unfold idup; erewrite bind_ok by (by apply cfg_acquire).
  unfold iset, iget_; rewrite !bind_assoc, gets_bind.
  match goal with |- context [k_itable (cfg ?a ?b ?c ?d ?e ?f ?g ?h ?i)] =>
    change (k_itable (cfg a b c d e f g h i)) with i end; rewrite Hi.
  erewrite bind_ok by reflexivity; rewrite modify_bind.
  match goal with |- context [(cfg ?a ?b ?c ?d ?e ?f ?g ?h ?i <| k_itable ::= ?u |>)%rec] =>
    replace ((cfg a b c d e f g h i <| k_itable ::= u |>)%rec) with (cfg a b c d e f g h (u i)) by (by destruct s) end.
  erewrite bind_ok by apply cfg_release; done.
Qed.

(** The child's descriptors after [k] turns of the loop *)
Definition ofile_upto (k : nat) (ofs : list (option nat)) : list (option nat) := take k ofs ++ replicate (NOFILE - k) None.

Lemma ofile_upto_S k ofs x :
  length ofs = NOFILE -> ofs !! k = Some x -> <[k := x]> (ofile_upto k ofs) = ofile_upto (S k) ofs.
Proof.
  intros Hl Hx; pose proof (lookup_lt_Some _ _ _ Hx) as Hk; unfold ofile_upto.
  rewrite insert_app_r_alt, length_take by (rewrite length_take; lia); rewrite Nat.min_l, Nat.sub_diag by lia.
  replace (NOFILE - k)%nat with (S (NOFILE - S k)) by lia; cbn [replicate insert list_insert].
  rewrite (take_S_r _ _ _ Hx), <- app_assoc; done.
Qed.

(** dup_files copies the parent's descriptors and counts the references. *)
Lemma dup_files_run p np pr npr M F locks procs npid tfs ft it o :
  procs !! p = Some pr -> procs !! np = Some npr -> p <> np -> LFtable ∉ locks ->
  length (p_ofile pr) = NOFILE -> p_ofile npr = replicate NOFILE None ->
  (forall f, Some f ∈ p_ofile pr -> exists x, ft !! f = Some x /\ 1 <= f_ref x) ->
  dup_files p np (cfg s M F locks procs npid tfs ft it) o =
  Ok tt (cfg s M F locks (upd np (fun c => c <| p_ofile := p_ofile pr |>)%rec procs) npid tfs (dup_refs (p_ofile pr) ft) it) o.
Proof.
  intros Hp Hnp Hne Hlk Hlen Hnone Href.
  set (St k := cfg s M F locks (upd np (fun c => c <| p_ofile := ofile_upto k (p_ofile pr) |>)%rec procs) npid tfs
    (dup_refs (take k (p_ofile pr)) ft) it).
  assert (H0 : cfg s M F locks procs npid tfs ft it = St 0%nat).
  { unfold St; f_equal; unfold ofile_upto; cbn [take app]; rewrite Nat.sub_0_r, <- Hnone.
    symmetry; apply list_eq; intros j; rewrite lookup_upd; case_decide; subst; [| done].
    rewrite Hnp; destruct npr; done. }
  assert (HN : St NOFILE = cfg s M F locks (upd np (fun c => c <| p_ofile := p_ofile pr |>)%rec procs) npid tfs (dup_refs (p_ofile pr) ft) it).
  { unfold St, ofile_upto; rewrite take_ge, Nat.sub_diag, app_nil_r by lia; done. }
  rewrite H0, <- HN; unfold dup_files; apply kfor__states; intros k Hk; unfold St.
  erewrite bind_ok by (apply cfg_pget; rewrite lookup_upd, decide_False by done; exact Hp).
  destruct (lookup_lt_is_Some_2 (p_ofile pr) k ltac:(lia)) as [x Hx]; rewrite Hx, (take_S_r _ _ _ Hx), dup_refs_app.
  rewrite <- (ofile_upto_S k _ x Hlen Hx); destruct x as [f |].
  - destruct (Href f (list_elem_of_lookup_2 _ _ _ Hx)) as (y & Hy & Hr).
    erewrite bind_ok by (eapply cfg_filedup; [rewrite dup_refs_lookup, Hy; reflexivity | simpl; pose proof (uses_nonneg f (take k (p_ofile pr))); lia | done]).
    erewrite cfg_pset by (by apply upd_lookup_eq); rewrite upd_upd; reflexivity.
  - rewrite list_insert_id; [reflexivity |]; unfold ofile_upto; rewrite lookup_app_r, length_take, Nat.min_l, Nat.sub_diag
      by (rewrite ?length_take; lia); apply lookup_replicate_2; lia.
Qed.

End Dup.

(** ** fork *)

(** The child's entry *)
Definition child_proc `{Linker} (p : nat) (pr : proc) (pid tf pt : Z) (npr : proc) : proc :=
  (new_proc pid tf pt npr <| p_sz := p_sz pr |> <| p_ofile := p_ofile pr |> <| p_cwd := p_cwd pr |>
     <| p_name := safestrcpy (p_name npr) (p_name pr) 16 |> <| p_parent := Some p |> <| p_state := RUNNABLE |>)%rec.

(** The parent's entry after a fork *)
Definition forked_proc (pr : proc) : proc := (pr <| p_fork_count := i32 (p_fork_count pr + 1) |>)%rec.

(** A free entry *)
Record free_entry (pr : proc) : Prop := {
  fe_state : p_state pr = UNUSED;
  fe_trapframe : p_trapframe pr = 0;
  fe_pagetable : p_pagetable pr = 0;
  fe_sz : p_sz pr = 0;
  fe_ofile : p_ofile pr = replicate NOFILE None
}.

(** A process that can fork: [pr] is its entry, [To] its page table, [ptf] its trapframe, [ip] its current
    directory; [l] is the free list, and the entry [np] is free. *)
Record forkable `{Linker} (s : kstate) (p : nat) (pr : proc) (np : nat) (npr : proc) (To : ptree) (ptf : trapframe) (ip : nat)
    (l : list Z) : Prop := {
  fk_cur : k_cur s = Some p;
  fk_pr : k_procs s !! p = Some pr;
  fk_live : p_state pr <> UNUSED;
  fk_len : length (k_procs s) = NPROC;
  fk_locks : k_locks s = [];
  fk_limit : p_fork_count pr < FORK_LIMIT;
  fk_slot : list_find (fun q => p_state q = UNUSED) (k_procs s) = Some (np, npr);
  fk_free : free_entry npr;
  fk_rep : pt_rep (k_mem s) To;
  fk_root : t_nodes To !! [] = Some (p_pagetable pr);
  fk_sz : 0 <= p_sz pr <= TRAPFRAME;
  fk_ok : Forall page_ok (upages (t_leaf To) 0 (npages (p_sz pr)));
  fk_alloc : alloc_inv s l;
  fk_apart : forall q, q ∈ t_pages To ++ upages (t_leaf To) 0 (npages (p_sz pr)) -> q ∉ l;
  fk_tf : k_tf s !! p_trapframe pr = Some ptf;
  fk_tfs : forall q, q ∈ l -> k_tf s !! q = None;
  fk_ofile : length (p_ofile pr) = NOFILE;
  fk_files : forall f, Some f ∈ p_ofile pr -> exists x, k_ftable s !! f = Some x /\ 1 <= f_ref x;
  fk_cwd : p_cwd pr = Some ip;
  fk_inode : is_Some (k_itable s !! ip)
}.

Section Fork.
Context `{Linker} (Hend : 0 < kend) (Htr : 0 <= trampoline < 2 ^ 56 /\ trampoline mod PGSIZE = 0).
Context (s : kstate) (p : nat) (pr : proc) (np : nat) (npr : proc) (To : ptree) (ptf : trapframe) (ip : nat) (l : list Z).
Context (HF : forkable s p pr np npr To ptf ip l).

Lemma fork_vm : vm_inv (mst s (k_mem s) (k_freelist s)) t_none l.
Proof.
  apply none_inv; [exact (fk_alloc _ _ _ _ _ _ _ _ _ HF) | apply not_elem_of_nil].
Qed.

Lemma fork_slot : k_procs s !! np = Some npr /\ p <> np.
Proof.
  destruct (list_find_Some (fun q => p_state q = UNUSED) (k_procs s) np npr) as [Hs _].
  destruct (Hs (fk_slot _ _ _ _ _ _ _ _ _ HF)) as (Hn & Hu & _); split; [done |]; intros E.
  pose proof (fk_pr _ _ _ _ _ _ _ _ _ HF) as Hp; rewrite E, Hn in Hp; injection Hp as ->.
  by apply (fk_live _ _ _ _ _ _ _ _ _ HF).
Qed.

(** The parent's table is where allocproc does not write. *)
Lemma fork_parent_rep M F T l' own :
  grown (mst s (k_mem s) (k_freelist s)) (mst s M F) t_none T l l' own -> pt_rep M To.
Proof.
  intros G; apply (pt_rep_ext (k_mem s)); [| apply HF]; intros b Hb%in_table_pages.
  apply (gw_frame _ _ _ _ _ _ _ G); rewrite t_pages_none; revert Hb; apply in_pages_apart.
  - apply Forall_forall; intros q [a Ha]%elem_of_t_pages; eapply rep_page; [apply HF | done].
  - pose proof (vm_pages_ok _ _ _ fork_vm) as Hok; by rewrite t_pages_none in Hok.
  - intros q Hq; apply HF; set_solver.
Qed.

(** The statements of fork after uvmcopy has succeeded *)
Lemma fork_finish settf tf pt w M F o :
  p_trapframe pr <> tf ->
  (pset np (fun npr => (npr <| p_sz := p_sz pr |>)%rec) ;;
   t ← tfget (p_trapframe pr);
   tfset tf (fun _ => t) ;;
   tfset tf settf ;;
   dup_files p np ;;
   cwd ← from_option_K (p_cwd pr);
   cwd' ← idup cwd;
   pset np (fun npr => (npr <| p_cwd := Some cwd' |>)%rec) ;;
   pset np (fun npr => (npr <| p_name ::= fun n => safestrcpy n (p_name pr) 16 |>)%rec) ;;
   npr ← pget np;
   let pid := p_pid npr in
   release (LProc np) ;;
   acquire LWait ;;
   pset np (fun npr => (npr <| p_parent := Some p |>)%rec) ;;
   release LWait ;;
   acquire (LProc np) ;;
   pset np (fun npr => (npr <| p_state := RUNNABLE |>)%rec) ;;
   release (LProc np) ;;
   pset p (fun pr => (pr <| p_fork_count := i32 (p_fork_count pr + 1) |>)%rec) ;;
   mret pid)
    (cfg s M F [LProc np] (upd np (new_proc (k_nextpid s) tf pt) (k_procs s)) (i32 (k_nextpid s + 1)) (<[tf := w]> (k_tf s)) (k_ftable s) (k_itable s)) o =
  Ok (k_nextpid s)
    (cfg s M F [] (upd p forked_proc (upd np (child_proc p pr (k_nextpid s) tf pt) (k_procs s))) (i32 (k_nextpid s + 1))
      (<[tf := settf ptf]> (k_tf s)) (dup_refs (p_ofile pr) (k_ftable s)) (upd ip (fun x => x <| i_ref := i_ref x + 1 |>)%rec (k_itable s))) o.
Proof.
  intros Htf; destruct fork_slot as [Hnp Hne]; pose proof (fk_free _ _ _ _ _ _ _ _ _ HF) as Hfree.
  destruct (fk_inode _ _ _ _ _ _ _ _ _ HF) as [x Hx].
  erewrite bind_ok by (eapply cfg_pset; by apply upd_lookup_eq).
  erewrite bind_ok by (apply cfg_tfget; rewrite lookup_insert_ne by congruence; apply HF).
  erewrite bind_ok by (eapply cfg_tfset; apply lookup_insert_eq); erewrite bind_ok by (eapply cfg_tfset; apply lookup_insert_eq).
  rewrite !insert_insert_eq.
  erewrite bind_ok.
  2:{ eapply (dup_files_run s p np pr); [| by apply upd_lookup_eq, upd_lookup_eq | done | set_solver | apply HF | apply Hfree | apply HF].
      rewrite !lookup_upd, !decide_False by done; apply HF. }
  rewrite (fk_cwd _ _ _ _ _ _ _ _ _ HF); erewrite bind_ok by reflexivity.
  erewrite bind_ok by (eapply cfg_idup; [exact Hx | set_solver]).
  erewrite bind_ok by (eapply cfg_pset; by apply upd_lookup_eq, upd_lookup_eq, upd_lookup_eq).
  erewrite bind_ok by (eapply cfg_pset; by apply upd_lookup_eq, upd_lookup_eq, upd_lookup_eq, upd_lookup_eq).
  erewrite bind_ok by (apply cfg_pget; by apply upd_lookup_eq, upd_lookup_eq, upd_lookup_eq, upd_lookup_eq, upd_lookup_eq).
  cbv zeta; erewrite bind_ok by apply cfg_release; erewrite bind_ok by (apply cfg_acquire, not_elem_of_nil).
  rewrite !upd_upd.
  erewrite bind_ok by (eapply cfg_pset; by apply upd_lookup_eq).
  erewrite bind_ok by apply cfg_release; erewrite bind_ok by (apply cfg_acquire, not_elem_of_nil).
  erewrite bind_ok by (eapply cfg_pset; by apply upd_lookup_eq, upd_lookup_eq).
  erewrite bind_ok by apply cfg_release.
  erewrite bind_ok by (eapply cfg_pset; rewrite !lookup_upd, !decide_False by congruence; apply HF).
  rewrite ret_ok, !upd_upd.
  match goal with |- Ok _ (cfg _ _ _ _ (upd p _ ?X) _ _ _ _) _ = Ok _ (cfg _ _ _ _ (upd p _ ?Y) _ _ _ _) _ =>
    assert (E : X = Y); [| rewrite E; reflexivity] end.
  apply list_alter_ext; [| reflexivity].
  intros y Hy; rewrite Hnp in Hy; injection Hy as <-; unfold child_proc, compose.
  change (p_name npr) with (p_name (new_proc (k_nextpid s) tf pt npr)); rewrite (fk_cwd _ _ _ _ _ _ _ _ _ HF).
  generalize (new_proc (k_nextpid s) tf pt npr); intros z; destruct z; reflexivity.
Qed.

(** What a fork that succeeds has made *)
Record forked (settf : trapframe -> trapframe) (s' : kstate) (tf pt : Z) (T' : ptree) (l' : list Z) : Prop := {
  fo_state : s' = cfg s (k_mem s') (k_freelist s') []
    (upd p forked_proc (upd np (child_proc p pr (k_nextpid s) tf pt) (k_procs s))) (i32 (k_nextpid s + 1))
    (<[tf := settf ptf]> (k_tf s)) (dup_refs (p_ofile pr) (k_ftable s)) (upd ip (fun x => x <| i_ref := i_ref x + 1 |>)%rec (k_itable s));
  fo_space : aspace s' T' l' pt (p_sz pr);
  fo_pages : tf :: t_pages T' ++ upages (t_leaf T') 0 (npages (p_sz pr)) ++ l' ≡ₚ l;
  fo_copied : forall i, (i < npages (p_sz pr))%nat -> copied (k_mem s') (t_leaf To !! upath i) (t_leaf T' !! upath i);
  fo_high : t_leaf T' !! vpath TRAPFRAME = Some (map_pte tf (Z.lor PTE_R PTE_W)) /\
    t_leaf T' !! vpath TRAMPOLINE = Some (map_pte trampoline (Z.lor PTE_R PTE_X));
  fo_frame : forall b, ~ in_pages l b -> mget (k_mem s') b = mget (k_mem s) b
}.

(** What a fork that runs out of memory leaves *)
Record unforked (s' : kstate) (l' : list Z) : Prop := {
  un_state : exists npr', free_entry npr' /\ s' = cfg s (k_mem s') (k_freelist s') []
    (upd np (fun _ => npr') (k_procs s)) (i32 (k_nextpid s + 1)) (k_tf s) (k_ftable s) (k_itable s);
  un_alloc : alloc_inv s' l';
  un_pages : l' ≡ₚ l;
  un_frame : forall b, ~ in_pages l b -> mget (k_mem s') b = mget (k_mem s) b
}.

Lemma unforked_grown M F l' npr' :
  free_entry npr' -> grown (mst s (k_mem s) (k_freelist s)) (mst s M F) t_none t_none l l' [] ->
  unforked (cfg s M F [] (upd np (fun _ => npr') (k_procs s)) (i32 (k_nextpid s + 1)) (k_tf s) (k_ftable s) (k_itable s)) l'.
Proof.
  intros Hn [I N P R Fr]; rewrite t_pages_none in P, Fr; constructor.
  - exists npr'; split; [done | by destruct s].
  - destruct I as [_ HA _ _]; exact HA.
  - exact P.
  - exact Fr.
Qed.

Lemma lost_free pid : free_entry (lost_proc pid npr).
Proof. destruct (fk_free _ _ _ _ _ _ _ _ _ HF) as [_ _ _ _ Ho]; constructor; [reflexivity .. | exact Ho]. Qed.

Lemma freed_free pid tf pt : free_entry (freed_proc (new_proc pid tf pt npr)).
Proof. destruct (fk_free _ _ _ _ _ _ _ _ _ HF) as [_ _ _ _ Ho]; constructor; [reflexivity .. | exact Ho]. Qed.

Lemma allocproc_fork o :
  allocproc s o = allocproc_found np (cfg s (k_mem s) (k_freelist s) [LProc np] (k_procs s) (k_nextpid s) (k_tf s) (k_ftable s) (k_itable s)) o.
Proof.
  pose proof (allocproc_scan s (k_mem s) (k_freelist s) (k_locks s) (k_procs s) (k_nextpid s) (k_tf s) (k_ftable s) (k_itable s) o
    (fk_len _ _ _ _ _ _ _ _ _ HF)) as Ha.
  rewrite cfg_self, (fk_slot _ _ _ _ _ _ _ _ _ HF), (fk_locks _ _ _ _ _ _ _ _ _ HF) in Ha; apply Ha; intros i; apply not_elem_of_nil.
Qed.

(** No user page has an entry in a table that proc_pagetable made. *)
Lemma kernel_leaves_user tf i : (i < npages (p_sz pr))%nat -> kernel_leaves tf !! upath i = None.
Proof.
  intros Hi; destruct high_pages as (t & E1 & E2); destruct (high_paths t E1 E2) as [P1 P2].
  destruct (user_below (p_sz pr) t (fk_sz _ _ _ _ _ _ _ _ _ HF) E2) as [_ Hu]; destruct (Hu i Hi) as [N1 N2].
  rewrite P1 in N2; rewrite P2 in N1; unfold kernel_leaves; rewrite !lookup_insert_ne by done; apply lookup_empty.
Qed.

Lemma forked_intro settf tf pt M1 F1 T1 l1 M2 F2 T2 l2 :
  grown (mst s (k_mem s) (k_freelist s)) (mst s M1 F1) t_none T1 l l1 [tf] ->
  t_nodes T1 !! [] = Some pt -> t_leaf T1 = kernel_leaves tf ->
  grown (mst s M1 F1) (mst s M2 F2) T1 T2 l1 l2 (upages (t_leaf T2) 0 (npages (p_sz pr))) ->
  (forall i, (i < npages (p_sz pr))%nat -> copied M2 (t_leaf To !! upath i) (t_leaf T2 !! upath i)) ->
  (forall a, (forall i, (i < npages (p_sz pr))%nat -> a <> upath i) -> t_leaf T2 !! a = t_leaf T1 !! a) ->
  forked settf (cfg s M2 F2 [] (upd p forked_proc (upd np (child_proc p pr (k_nextpid s) tf pt) (k_procs s)))
    (i32 (k_nextpid s + 1)) (<[tf := settf ptf]> (k_tf s)) (dup_refs (p_ofile pr) (k_ftable s))
    (upd ip (fun x => x <| i_ref := i_ref x + 1 |>)%rec (k_itable s))) tf pt T2 l2.
Proof.
  intros G1 Hroot EL G2 Hcp Ho; destruct high_pages as (t & E1 & E2); destruct (high_paths t E1 E2) as [P1 P2].
  destruct (user_below (p_sz pr) t (fk_sz _ _ _ _ _ _ _ _ _ HF) E2) as [Hsz Hu].
  pose proof (gw_inv _ _ _ _ _ _ _ G1) as HI1; pose proof (gw_pages _ _ _ _ _ _ _ G2) as HP2.
  pose proof (vm_pages_nodup _ _ _ HI1) as Hnd; rewrite <- HP2 in Hnd.
  pose proof (vm_pages_ok _ _ _ HI1) as Hok; rewrite <- HP2 in Hok.
  assert (Hhigh : forall a, a = vpath TRAMPOLINE \/ a = vpath TRAPFRAME -> t_leaf T2 !! a = kernel_leaves tf !! a).
  { intros a Ha; rewrite Ho, EL; [done |]; intros i Hi ->; destruct (Hu i Hi) as [N1 N2]; rewrite P1 in N2; rewrite P2 in N1; tauto. }
  constructor.
  - reflexivity.
  - constructor.
    + apply cfg_vm; [apply G2 | apply not_elem_of_nil].
    + by apply (lookup_weaken (t_nodes T1)), G2.
    + apply HF.
    + intros a Ha N1 N2; rewrite Ho, EL by done; unfold kernel_leaves; by rewrite !lookup_insert_ne by done.
    + apply Forall_app in Hok as [_ Hok]; by apply Forall_app in Hok as [? _].
    + exact Hnd.
  - rewrite HP2; pose proof (gw_pages _ _ _ _ _ _ _ G1) as HP; rewrite t_pages_none in HP; cbn [app] in HP; rewrite <- HP; solve_Permutation.
  - exact Hcp.
  - rewrite !Hhigh by auto; unfold kernel_leaves; split; [apply lookup_insert_eq |].
    rewrite lookup_insert_ne by apply high_ne; apply lookup_insert_eq.
  - intros b Hb; transitivity (mget M1 b); [apply (gw_frame _ _ _ _ _ _ _ G2) | apply (gw_frame _ _ _ _ _ _ _ G1)].
    + intros Hc; apply Hb; revert Hc; apply in_pages_sub; intros q Hq.
      pose proof (gw_pages _ _ _ _ _ _ _ G1) as HP; rewrite t_pages_none in HP; cbn [app] in HP; rewrite <- HP; set_solver.
    + by rewrite t_pages_none.
Qed.

Lemma fork_body_run settf o :
  exists r s', fork_body settf s o = Ok r s' o /\
    ((r = k_nextpid s /\ exists tf pt T' l', forked settf s' tf pt T' l') \/ (r = -1 /\ exists l', unforked s' l')).
Proof.
  destruct fork_slot as [Hnp Hne]; pose proof (fk_free _ _ _ _ _ _ _ _ _ HF) as Hfree; unfold fork_body.
  erewrite bind_ok by (unfold curproc, myproc; rewrite gets_bind, (fk_cur _ _ _ _ _ _ _ _ _ HF); reflexivity).
  erewrite bind_ok by (apply pget_ok, HF).
  pose proof (fk_limit _ _ _ _ _ _ _ _ _ HF) as Hlim; replace (FORK_LIMIT <=? p_fork_count pr) with false by lia.
  unfold mbind at 1, K_bind at 1; rewrite allocproc_fork.
  destruct (allocproc_found_run Hend Htr s np npr (k_mem s) (k_freelist s) [] (k_procs s) (k_nextpid s) (k_tf s) (k_ftable s) (k_itable s) l o
    Hnp (fe_pagetable _ Hfree) ltac:(set_solver) ltac:(set_solver) fork_vm (fk_tfs _ _ _ _ _ _ _ _ _ HF))
    as [(tf & pt & w & M1 & F1 & T1 & l1 & Ha & Htf & Hpt & G1 & Hroot & EL) | (M1 & F1 & l1 & Ha & G1)]; rewrite Ha; clear Ha.
  2:{ rewrite ret_ok, (upd_const _ _ _ _ Hnp); eexists _, _; split; [reflexivity |]; right; split; [reflexivity |].
      exists l1; apply unforked_grown; [apply lost_free | exact G1]. }
  erewrite bind_ok by (apply cfg_pget; by apply upd_lookup_eq).
  change (p_pagetable (new_proc (k_nextpid s) tf pt npr)) with pt; change (p_trapframe (new_proc (k_nextpid s) tf pt npr)) with tf.
  assert (HP1 : tf :: t_pages T1 ++ l1 ≡ₚ l).
  { pose proof (gw_pages _ _ _ _ _ _ _ G1) as HP; rewrite t_pages_none in HP; cbn [app] in HP; rewrite <- HP; solve_Permutation. }
  destruct high_pages as (t & E1 & E2); destruct (user_below (p_sz pr) t (fk_sz _ _ _ _ _ _ _ _ _ HF) E2) as [Hsz Hu].
  set (X := cfg s M1 F1 [LProc np] _ _ _ _ _).
  destruct (uvmcopy_run Hend (p_pagetable pr) pt (p_sz pr) X To T1 l1 o) as (r & s2 & T2 & l2 & Hc & Hcase).
  { apply cfg_vm; [apply G1 | set_solver]. }
  { exact Hroot. }
  { exact (fork_parent_rep _ _ _ _ _ G1). }
  { apply HF. }
  { exact Hsz. }
  { intros i Hi; rewrite EL; by apply kernel_leaves_user. }
  { apply HF. }
  { intros q Hq Hin; apply (fk_apart _ _ _ _ _ _ _ _ _ HF q Hq); rewrite <- HP1; by right. }
  erewrite bind_ok by exact Hc; destruct Hcase as [(-> & G2 & Hcp & Ho) | (-> & G2 & EL2)];
    destruct (cfg_grown s _ _ _ _ _ _ _ _ _ _ _ _ _ _ G2) as (M2 & F2 & -> & G2'); cbn [Z.ltb Z.compare].
  - assert (Htfne : p_trapframe pr <> tf).
    { intros E; pose proof (fk_tf _ _ _ _ _ _ _ _ _ HF) as Ht; rewrite E, (fk_tfs _ _ _ _ _ _ _ _ _ HF tf) in Ht; [done |].
      rewrite <- HP1; by left. }
    eexists _, _; split; [exact (fork_finish settf tf pt w M2 F2 o Htfne) |]; left; split; [reflexivity |].
    exists tf, pt, T2, l2; by apply (forked_intro settf tf pt M1 F1 T1 l1 M2 F2 T2 l2).
  - pose proof (gw_inv _ _ _ _ _ _ _ G2') as HI2; pose proof (gw_pages _ _ _ _ _ _ _ G2') as HP2; cbn [app] in HP2.
    assert (HP3 : tf :: t_pages T2 ++ l2 ≡ₚ l) by (rewrite HP2; exact HP1).
    assert (Hroot2 : t_nodes T2 !! [] = Some pt) by (by apply (lookup_weaken (t_nodes T1)), G2').
    assert (Hz : p_sz (new_proc (k_nextpid s) tf pt npr) = 0) by exact (fe_sz _ Hfree).
    destruct (freeproc_full Hend Htr s np (new_proc (k_nextpid s) tf pt npr) M2 F2 [LProc np]
      (upd np (new_proc (k_nextpid s) tf pt) (k_procs s)) (i32 (k_nextpid s + 1)) (<[tf := w]> (k_tf s)) (k_ftable s) (k_itable s) T2 l2 o)
      as (M3 & F3 & l3 & Hf & HI3 & HP4 & Hfr); rewrite ?Hz.
    { by apply upd_lookup_eq. }
    { set_solver. }
    { exact Htf. }
    { exact (aspace_fresh _ _ _ _ _ HI2 Hroot2 (eq_trans EL2 EL)). }
    { change (upages (t_leaf T2) 0 (npages 0)) with (@nil Z); cbn [app].
      pose proof (fk_alloc _ _ _ _ _ _ _ _ _ HF) as [_ Hnd]; rewrite <- HP3 in Hnd; by apply NoDup_cons in Hnd as [? _]. }
    { exact Hpt. }
    rewrite Hz in HP4, Hfr; change (upages (t_leaf T2) 0 (npages 0)) with (@nil Z) in HP4, Hfr; cbn [app] in HP4, Hfr.
    change (p_trapframe (new_proc (k_nextpid s) tf pt npr)) with tf in HP4, Hfr, Hf.
    erewrite bind_ok by exact Hf; erewrite bind_ok by apply cfg_release; rewrite ret_ok.
    rewrite upd_upd, (upd_const _ _ _ _ Hnp), delete_insert_id by (apply (fk_tfs _ _ _ _ _ _ _ _ _ HF); rewrite <- HP1; by left).
    eexists _, _; split; [reflexivity |]; right; split; [reflexivity |]; exists l3.
    apply unforked_grown; [apply freed_free |]; constructor.
    + exact HI3.
    + done.
    + rewrite t_pages_none, HP4; exact HP3.
    + apply rest_mst.
    + intros b Hb; rewrite t_pages_none in Hb; cbn [app] in Hb.
      transitivity (mget M2 b); [apply Hfr; intros Hin; apply Hb; revert Hin; apply in_pages_sub; intros q; by rewrite HP3 |].
      transitivity (mget M1 b); [apply (gw_frame _ _ _ _ _ _ _ G2') | apply (gw_frame _ _ _ _ _ _ _ G1); by rewrite t_pages_none].
      intros Hin; apply Hb; revert Hin; apply in_pages_sub; intros q Hq; rewrite <- HP1; by right.
Qed.

End Fork.

Section ForkTheorems.
Context `{Linker} (Hend : 0 < kend) (Htr : 0 <= trampoline < 2 ^ 56 /\ trampoline mod PGSIZE = 0).

(** C4: fork either makes a complete child or changes nothing that matters.  For a process below
    its limit of forks, with a free entry in the table, it returns the next
    pid with the entry of the child as [child_proc] describes it: runnable,
    the parent's size, open files, directory and name, and a page table of its own whose
    pages below sz are copies of the parent's with the same permissions; the
    child's trapframe is the parent's with a0 = 0; each open file has one more
    reference for each descriptor and the directory one more; the parent's fork
    count grows by one.  When memory runs out it returns -1, the entry is free
    again, and every page that was taken is back.  Either way the free list and what was
    taken from it are exactly the pages it had, and no byte outside of them
    changes, in particular none of the parent's. *)
Theorem kfork_spec (s : kstate) (p : nat) (pr : proc) (np : nat) (npr : proc) (To : ptree) (ptf : trapframe) (ip : nat)
  (l : list Z) (o : oracle) (HF : forkable s p pr np npr To ptf ip l) :
  exists r s', kfork s o = Ok r s' o /\
    ((r = k_nextpid s /\ exists tf pt T' l', forked s p pr np To ptf ip l (tf_set Ta0 0) s' tf pt T' l') \/
     (r = -1 /\ exists l', unforked s np l s' l')).
Proof using Hend Htr. exact (fork_body_run Hend Htr s p pr np npr To ptf ip l HF (tf_set Ta0 0) o). Qed.

(** thread_fork does the same, but its child starts at [func] with [arg]. *)
Theorem thread_fork_spec (func arg : Z) (s : kstate) (p : nat) (pr : proc) (np : nat) (npr : proc) (To : ptree)
  (ptf : trapframe) (ip : nat) (l : list Z) (o : oracle) (HF : forkable s p pr np npr To ptf ip l) :
  exists r s', thread_fork func arg s o = Ok r s' o /\
    ((r = k_nextpid s /\ exists tf pt T' l',
       forked s p pr np To ptf ip l (fun tf => tf_set Ta0 arg (tf_set Tepc func tf)) s' tf pt T' l') \/
     (r = -1 /\ exists l', unforked s np l s' l')).
Proof using Hend Htr. exact (fork_body_run Hend Htr s p pr np npr To ptf ip l HF _ o). Qed.

(** A process at its limit of forks, or a full table: fork returns -1 and changes nothing. *)
Theorem kfork_refused (s : kstate) (p : nat) (pr : proc) (o : oracle)
  (Hcur : k_cur s = Some p) (Hp : k_procs s !! p = Some pr) (Hlen : length (k_procs s) = NPROC) (Hlk : k_locks s = [])
  (Hno : FORK_LIMIT <= p_fork_count pr \/ list_find (fun q => p_state q = UNUSED) (k_procs s) = None) :
  kfork s o = Ok (-1) s o.
Proof.
  unfold kfork, fork_body.
  erewrite bind_ok by (unfold curproc, myproc; rewrite gets_bind, Hcur; reflexivity).
  erewrite bind_ok by (by apply pget_ok); destruct (Z.leb_spec FORK_LIMIT (p_fork_count pr)) as [| Hlim]; [done |].
  destruct Hno as [? | Hno]; [lia |].
  pose proof (allocproc_scan s (k_mem s) (k_freelist s) (k_locks s) (k_procs s) (k_nextpid s) (k_tf s) (k_ftable s) (k_itable s) o Hlen) as Ha.
  rewrite cfg_self, Hno, Hlk in Ha; erewrite bind_ok by (apply Ha; intros i; apply not_elem_of_nil); done.
Qed.

End ForkTheorems.

(** ** A process on the demonstration machine *)

(** Process 0 runs with the parent's page table of UvmSpec.v and the trapframe page 4. *)
Definition demo_runner : proc :=
  (zero_proc <| p_state := RUNNING |> <| p_pid := 7 |> <| p_pagetable := demo_page 0 |> <| p_sz := 4096 |>
     <| p_trapframe := demo_page 4 |> <| p_cwd := Some 0%nat |>)%rec.

Definition demo_fork : kstate :=
  (demo_pair <| k_procs := demo_runner :: replicate 63 zero_proc |> <| k_cur := Some 0%nat |>
     <| k_tf := {[ demo_page 4 := replicate tf_words 0 ]} |>)%rec.

Lemma demo_forkable :
  forkable (H := demo_linker) demo_fork 0 demo_runner 1 zero_proc demo_parent (replicate tf_words 0) 0
    [demo_page 5; demo_page 6; demo_page 7].
Proof.
  constructor; try reflexivity.
  - discriminate.
  - constructor; reflexivity.
  - exact demo_parent_rep.
  - split; [done | by vm_compute].
  - change (p_sz demo_runner) with 4096; rewrite demo_parent_pages; constructor; [by apply demo_page_ok | constructor].
  - exact (vi_alloc _ _ _ demo_child_inv).
  - change (p_sz demo_runner) with 4096; apply Forall_forall, (bool_decide_unpack _); by vm_compute.
  - intros q Hq; apply lookup_singleton_ne; intros <-; revert Hq; by apply (bool_decide_unpack _); vm_compute.
  - intros f Hf; exfalso; revert Hf; change (p_ofile demo_runner) with (replicate NOFILE (@None nat)).
    intros [? _]%elem_of_replicate; done.
  - by eexists.
Qed.

Lemma kfork_spec_witness : exists r s', kfork (H := demo_linker) demo_fork [] = Ok r s' [] /\ (r = 1 \/ r = -1).
Proof.
  destruct (kfork_spec (H := demo_linker) ltac:(by vm_compute) ltac:(split; [by vm_compute | by vm_compute]) demo_fork 0
    demo_runner 1 zero_proc demo_parent (replicate tf_words 0) 0 [demo_page 5; demo_page 6; demo_page 7] [] demo_forkable)
    as (r & s' & Hr & Hc).
  exists r, s'; split; [exact Hr |]; destruct Hc as [[E _] | [E _]]; [left | right]; exact E.
Defined.
