(* ===== verification/ReapSpec.v ===== *)
(** The end of a process: wait() and thread_join() give back everything fork() took,
    kernel/proc.c. *)
From stdpp Require Import base gmap list strings sorting.
From Stdlib Require Import ZArith Lia ZifyBool.
From S2P Require Import Prelude Memory KPrintf State Monad Demo Kalloc ProcBase Vm Frame VmSpec PtSpec UvmSpec Sleeplock Bio Log Fs Pipe File Proc ProcVmSpec LifeSpec ForkSpec.

Local Open Scope Z_scope.

(** The pages of a process that has exited: its trapframe, its page table [T] and its memory *)
Definition proc_pages (q : proc) (T : ptree) : list Z :=
  p_trapframe q :: t_pages T ++ upages (t_leaf T) 0 (npages (p_sz q)).

(** Its memory is a whole address space, apart from the free list [l]. *)
Record reapable `{Linker} (s : kstate) (q : proc) (T : ptree) (l : list Z) : Prop := {
  rp_tf : page_ok (p_trapframe q);
  rp_space : aspace s T l (p_pagetable q) (p_sz q);
  rp_apart : p_trapframe q ∉ t_pages T ++ upages (t_leaf T) 0 (npages (p_sz q)) ++ l;
  rp_root : p_pagetable q <> 0
}.

(** What is left when process [i] is reaped: a free entry *)
Record reaped `{Linker} (s : kstate) (i : nat) (q : proc) (T : ptree) (l : list Z) (s' : kstate) (l' : list Z) : Prop := {
  rd_state : s' = cfg s (k_mem s') (k_freelist s') [] (upd i freed_proc (k_procs s)) (k_nextpid s)
    (delete (p_trapframe q) (k_tf s)) (k_ftable s) (k_itable s);
  rd_alloc : alloc_inv s' l';
  rd_pages : l' ≡ₚ proc_pages q T ++ l;
  rd_frame : forall b, ~ in_pages (proc_pages q T ++ l) b -> mget (k_mem s') b = mget (k_mem s) b
}.

Section Reap.
Context `{Linker} (Hend : 0 < kend) (Htr : 0 <= trampoline < 2 ^ 56 /\ trampoline mod PGSIZE = 0).

Lemma aspace_locks s T l root sz : aspace s T l root sz -> aspace (mst s (k_mem s) (k_freelist s)) T l root sz.
Proof.
  intros [HI H1 H2 H3 H4 H5]; constructor; try done.
  revert HI; apply vm_inv_same; [by destruct s | by destruct s | apply not_elem_of_nil].
Qed.

(** freeproc() and the way out of wait(), for both kinds of wait *)
Lemma reap_free_run i q (ret : Z) s T l o :
  k_locks s = [] -> k_procs s !! i = Some q -> reapable s q T l ->
  exists s' l', (freeproc i ;; release (LProc i) ;; release LWait ;; mret ret) (s <| k_locks := [LProc i; LWait] |>)%rec o = Ok ret s' o /\
    reaped s i q T l s' l'.
Proof using Hend Htr.
  intros Hl Hq [Htf Has Hap Hroot].
  replace (s <| k_locks := [LProc i; LWait] |>)%rec with
    (cfg s (k_mem s) (k_freelist s) [LProc i; LWait] (k_procs s) (k_nextpid s) (k_tf s) (k_ftable s) (k_itable s)) by (by destruct s).
  destruct (freeproc_full Hend Htr s i q (k_mem s) (k_freelist s) [LProc i; LWait] (k_procs s) (k_nextpid s) (k_tf s) (k_ftable s)
    (k_itable s) T l o Hq) as (M' & F' & l' & Hf & HI & HP & Hfr).
  { set_solver. }
  { exact Htf. }
  { by apply aspace_locks. }
  { exact Hap. }
  { exact Hroot. }
  erewrite bind_ok by exact Hf; do 2 (erewrite bind_ok by apply cfg_release); rewrite ret_ok.
  eexists _, l'; split; [reflexivity |]; constructor.
  - by destruct s.
  - destruct HI as [_ HA _ _]; revert HA; unfold alloc_inv; by destruct s.
  - rewrite HP; unfold proc_pages; simpl; by rewrite <- app_assoc.
  - intros b Hb; transitivity (mget M' b); [by destruct s |]; apply Hfr; unfold proc_pages in Hb; simpl in Hb.
    by rewrite <- app_assoc in Hb.
Qed.

Lemma reap_run p pr i q ret s T l o :
  k_locks s = [] -> k_procs s !! p = Some pr -> k_procs s !! i = Some q -> reapable s q T l ->
  exists s' l', reap p i 0 ret (s <| k_locks := [LProc i; LWait] |>)%rec o = Ok ret s' o /\ reaped s i q T l s' l'.
Proof using Hend Htr.
  intros Hl Hp Hq HR; unfold reap; do 2 (erewrite bind_ok by (by apply pget_ok)).
  cbn [Z.eqb negb]; erewrite bind_ok by apply ret_ok; cbn [Z.ltb Z.compare]; by apply reap_free_run.
Qed.

(** ** The status *)





(** thread_join(pid), which is waitpid(pid, 0), for a thread that has exited *)
Theorem kwaitpid_frees (p : nat) (pr : proc) (i : nat) (q : proc) (pid : Z) (s : kstate) (T : ptree) (l : list Z) (o : oracle)
  (Hlen : procs_ok s) (Hcur : k_cur s = Some p) (Hl : k_locks s = []) (Hp : k_procs s !! p = Some pr)
  (Hf : list_find (child_pid p pid) (k_procs s) = Some (i, q)) (Hz : p_state q = ZOMBIE) (HR : reapable s q T l) :
  exists s' l', kwaitpid pid 0 s o = Ok pid s' o /\ reaped s i q T l s' l'.
Proof using Hend Htr.
  pose proof (kwaitpid_spec p pr pid 0 s o Hlen Hcur Hl Hp) as Hw; rewrite Hf, bool_decide_eq_true_2 in Hw by done; rewrite Hw.
  apply list_find_Some in Hf as (Hq & _ & _); by apply (reap_run p pr i q _ s T l o).
Qed.

(** ** fork, exit, wait *)

Lemma reparent_table_none p init l : Forall (fun q => p_parent q <> Some p) l -> reparent_table p init l = l.
Proof.
  intros HF; apply list_eq; intros i; destruct (l !! i) as [q |] eqn:Eq.
  - erewrite reparent_table_lookup by done; f_equal.
    assert (Hno : existsb (child_of p) l = false).
    { apply not_true_iff_false; rewrite existsb_exists; intros (x & Hx & Hc%bool_decide_eq_true).
      rewrite List.Forall_forall in HF; by apply (HF x Hx). }
    rewrite Hno; unfold wake_if, reparented, child_of; rewrite bool_decide_eq_false_2; [done |].
    rewrite Forall_lookup in HF; by apply (HF i).
  - apply lookup_ge_None; rewrite length_reparent_table; by apply lookup_ge_None.
Qed.

(** A list that has no element with a property, but for the one at [i] *)
Lemma list_find_only {A} (P : A -> Prop) `{!forall x, Decision (P x)} (l : list A) i x :
  l !! i = Some x -> P x -> (forall j y, j <> i -> l !! j = Some y -> ~ P y) -> list_find P l = Some (i, x).
Proof.
  intros Hx HP Hno; apply list_find_Some; split; [done |]; split; [done |]; intros j y Hy Hlt.
  apply (Hno j y); [lia | done].
Qed.

Context (s : kstate) (p : nat) (pr : proc) (np : nat) (npr : proc) (To : ptree) (ptf : trapframe) (ip : nat) (l : list Z).

(** The child of a fork that has exited, with the parent running again *)
Definition child_exited (init : option nat) (status : Z) (s1 : kstate) : kstate :=
  (exited np (Some p) init status s1 <| k_locks := [] |>)%rec.

Lemma exited_child init status settf s1 tf pt T' l' :
  forkable s p pr np npr To ptf ip l -> forked s p pr np To ptf ip l settf s1 tf pt T' l' ->
  Forall (fun q => p_parent q <> Some np) (k_procs s) ->
  list_find (zombie_child p) (k_procs s) = None ->
  list_find (zombie_child p) (k_procs (child_exited init status s1)) =
    Some (np, zombie status (child_proc p pr (k_nextpid s) tf pt npr)).
Proof.
  intros HF HK Hkids Hnone; destruct (fork_slot s p pr np npr To ptf ip l HF) as [Hnp Hne].
  pose proof (fk_pr _ _ _ _ _ _ _ _ _ HF) as Hpr; apply list_find_None in Hnone; rewrite Forall_lookup in Hnone.
  set (C := child_proc p pr (k_nextpid s) tf pt); set (P1 := upd p forked_proc (upd np C (k_procs s))).
  assert (EP : k_procs s1 = P1) by (rewrite (fo_state _ _ _ _ _ _ _ _ _ _ _ _ _ _ HK); by destruct s).
  assert (H1 : P1 !! np = Some (C npr)) by (unfold P1; rewrite upd_lookup_ne by done; by apply upd_lookup_eq).
  assert (Hj : forall j y, j <> np -> P1 !! j = Some y -> exists y0, k_procs s !! j = Some y0 /\
    p_parent y = p_parent y0 /\ p_state y = p_state y0).
  { intros j y Hjn Hy; unfold P1 in Hy; destruct (decide (p = j)) as [<- | Hjp].
    - rewrite (upd_lookup_eq _ _ _ pr) in Hy by (rewrite upd_lookup_ne by done; exact Hpr).
      injection Hy as <-; by exists pr.
    - rewrite !upd_lookup_ne in Hy by done; by exists y. }
  assert (Hk1 : Forall (fun q => p_parent q <> Some np) P1).
  { apply Forall_lookup; intros j y Hy; destruct (decide (j = np)) as [-> | Hjn].
    - rewrite H1 in Hy; injection Hy as <-; simpl; congruence.
    - destruct (Hj j y Hjn Hy) as (y0 & Hy0 & -> & _); rewrite Forall_lookup in Hkids; by apply (Hkids j). }
  assert (EE : k_procs (child_exited init status s1) = upd np (zombie status) (imap (wake1 (Some np) (ChProc p)) P1)).
  { unfold child_exited, exited; simpl; rewrite EP; unfold exit_table; by rewrite reparent_table_none. }
  rewrite EE; apply list_find_only.
  - erewrite upd_lookup_eq; [reflexivity |]; rewrite list_lookup_imap, H1; simpl; unfold wake1.
    by rewrite (bool_decide_eq_true_2 (Some np = Some np)).
  - done.
  - intros j y Hjn Hy [Z1 Z2]; rewrite upd_lookup_ne, list_lookup_imap in Hy by done.
    destruct (P1 !! j) as [y1 |] eqn:Ey; simpl in Hy; [| done]; injection Hy as <-.
    destruct (Hj j y1 Hjn Ey) as (y0 & Hy0 & E1 & E2); apply (Hnone j y0 Hy0); unfold zombie_child; rewrite <- E1, <- E2.
    unfold wake1 in Z1, Z2; destruct (_ && _); [done |]; by split.
Qed.

(** fork, exit in the child, wait: a process that forks and waits for its child gets the child's pid, and the
    pages that are free afterwards are exactly those that were free before the fork. *)
Theorem fork_exit_wait (init : option nat) (status : Z) (o o' : oracle)
  (HF : forkable s p pr np npr To ptf ip l)
  (Hkids : Forall (fun q => p_parent q <> Some np) (k_procs s))
  (Hnone : list_find (zombie_child p) (k_procs s) = None) :
  exists r s1, kfork s o = Ok r s1 o /\
    (r = -1 \/
     (r = k_nextpid s /\ exists s3 l3,
        kwait 0 (child_exited init status s1) o' = Ok r s3 o' /\
        alloc_inv s3 l3 /\ l3 ≡ₚ l /\ forall b, ~ in_pages l b -> mget (k_mem s3) b = mget (k_mem s) b)).
Proof using Hend Htr.
  destruct (fork_body_run Hend Htr s p pr np npr To ptf ip l HF (tf_set Ta0 0) o) as (r & s1 & Hfork & Hcase).
  exists r, s1; split; [exact Hfork |]; destruct Hcase as [(-> & tf & pt & T' & l' & HK) | (-> & _)]; [right | by left].
  split; [done |]; pose proof (exited_child init status _ _ _ _ _ _ HF HK Hkids Hnone) as Hz.
  set (q := zombie status (child_proc p pr (k_nextpid s) tf pt npr)) in *; set (s2 := child_exited init status s1) in *.
  destruct (fk_alloc _ _ _ _ _ _ _ _ _ HF) as [Hfp Hnd]; pose proof (fo_pages _ _ _ _ _ _ _ _ _ _ _ _ _ _ HK) as HP.
  pose proof (fo_space _ _ _ _ _ _ _ _ _ _ _ _ _ _ HK) as Has.
  assert (HR : reapable s2 q T' l').
  { constructor.
    - apply (free_pages_ok _ _ _ tf Hfp); rewrite <- HP; by left.
    - destruct Has as [HI H1 H2 H3 H4 H5]; constructor; try done.
      revert HI; apply vm_inv_same; [by destruct s1 | by destruct s1 | apply not_elem_of_nil].
    - rewrite <- HP in Hnd; by apply NoDup_cons in Hnd as [? _].
    - assert (Hpt : page_ok pt); [| apply (page_ok_bound _ Hend) in Hpt; simpl; lia].
      apply (free_pages_ok _ _ _ pt Hfp); rewrite <- HP; right; apply elem_of_app; left.
      apply list_elem_of_fmap; exists ([], pt); split; [done |]; apply elem_of_map_to_list, Has. }
  destruct (fk_pr _ _ _ _ _ _ _ _ _ HF); pose proof (fo_state _ _ _ _ _ _ _ _ _ _ _ _ _ _ HK) as Es.
  assert (Hlen : length (k_procs s2) = NPROC).
  { unfold s2, child_exited, exited; simpl; unfold exit_table; rewrite length_upd, length_imap, length_reparent_table, Es.
    unfold cfg; simpl; rewrite !length_upd; apply HF. }
  destruct (lookup_lt_is_Some_2 (k_procs s2) p) as [pr2 Hpr2].
  { rewrite Hlen; pose proof (lookup_lt_Some _ _ _ (fk_pr _ _ _ _ _ _ _ _ _ HF)); rewrite (fk_len _ _ _ _ _ _ _ _ _ HF) in *; done. }
  pose proof (kwait_run p pr2 0 s2 o' Hlen) as Hw; rewrite Hz in Hw; rewrite Hw; [| | done | done].
  2:{ unfold s2, child_exited, exited; rewrite Es; unfold cfg; simpl; apply HF. }
  apply list_find_Some in Hz as (Hq & _ & _).
  destruct (reap_run p pr2 np q (p_pid q) s2 T' l' o') as (s3 & l3 & H3 & [_ R2 R3 R4]); try done.
  exists s3, l3; split; [exact H3 |]; split; [done |].
  assert (HP3 : proc_pages q T' ++ l' ≡ₚ l) by (rewrite <- HP; unfold proc_pages; simpl; by rewrite <- app_assoc).
  split; [by rewrite R3 |]; intros b Hb; rewrite R4, <- (fo_frame _ _ _ _ _ _ _ _ _ _ _ _ _ _ HK b Hb); [done |].
  intros Hc; apply Hb; revert Hc; apply in_pages_sub; intros x Hx; by rewrite <- HP3.
Qed.
End Reap.

(** ** A child on the demonstration machine *)






