(* ===== verification/TrapSpec.v ===== *)
(** What a user process sees of traps: system calls, signals and the return to
    user space. *)
From stdpp Require Import base gmap list strings.
From Stdlib Require Import ZArith Lia ZifyBool.
From S2P Require Import Prelude Memory KPrintf State Monad Demo Kalloc ProcBase Vm Sleeplock Bio Log Fs Pipe File Proc ProcSpec Exec SysFile SysProc Trap.

Local Open Scope Z_scope.

(** ** Trapframes *)

Lemma tf_set_get r tf : (tf_idx r < length tf)%nat -> tf_set r (tf_get r tf) tf = tf.
Proof.
  intros Hl; unfold tf_set, tf_get; destruct (lookup_lt_is_Some_2 tf (tf_idx r) Hl) as [v Hv].
  rewrite (nth_lookup_Some _ _ _ _ Hv); by apply list_insert_id.
Qed.

Lemma tf_get_set r v tf : (tf_idx r < length tf)%nat -> tf_get r (tf_set r v tf) = v.
Proof.
  intros Hl; unfold tf_set, tf_get; apply nth_lookup_Some, list_lookup_insert_eq; done.
Qed.

Lemma tf_idx_inj r r' : tf_idx r = tf_idx r' -> r = r'.
Proof. destruct r, r'; done. Qed.

Lemma tf_get_set_ne r r' v tf : r <> r' -> tf_get r (tf_set r' v tf) = tf_get r tf.
Proof.
  intros Hne; unfold tf_set, tf_get; rewrite !nth_lookup, list_lookup_insert_ne; [done |].
  intros Heq; by apply Hne, tf_idx_inj.
Qed.

(** ** Signals *)

(** Delivery of signal [i] to a process whose trapframe is [tf]. *)
Definition signalled (i : Z) (tf : trapframe) (pr : proc) : proc :=
  (pr <| p_pending_signals := Z.land (p_pending_signals pr) (u32 (Z.lnot (Z.shiftl 1 i))) |>
      <| p_saved_trapframe := tf |> <| p_handling_signal := 1 |>)%rec.

Definition handler_of (i : Z) (pr : proc) : Z := nth (Z.to_nat i) (p_signal_handlers pr) 0.

Definition delivered (p : nat) (i : Z) (pr : proc) (tf : trapframe) (s : kstate) : kstate :=
  (s <| k_procs ::= upd p (signalled i tf) |>
     <| k_tf ::= <[p_trapframe pr := tf_set Tepc (handler_of i pr) tf]> |>)%rec.

(** The signal to deliver next: the lowest one that is pending and has a
    handler. *)
Definition next_signal (pr : proc) : option Z :=
  snd <$> list_find (fun i => deliverable pr i = true) (seqZ 0 32).

Lemma next_signal_spec pr i :
  next_signal pr = Some i ->
  0 <= i < 32 /\ deliverable pr i = true /\ forall k, 0 <= k < i -> deliverable pr k = false.
Proof.
  unfold next_signal; intros ([j i'] & Hf & [= ->])%fmap_Some.
  apply list_find_Some in Hf as (Hi & Hd & Hmin); apply lookup_seqZ in Hi as [-> Hj].
  split; [lia |]; split; [done |]; intros k Hk.
  apply not_true_is_false, (Hmin (Z.to_nat k)); [apply lookup_seqZ; lia | lia].
Qed.

Lemma deliver_signal_run p pr tf s o :
  k_procs s !! p = Some pr -> k_tf s !! p_trapframe pr = Some tf ->
  deliver_signal p s o =
  if p_handling_signal pr =? 0 then
    match next_signal pr with
    | Some i => Ok tt (delivered p i pr tf s) o
    | None => Ok tt s o
    end
  else Ok tt s o.
Proof.
  intros Hp Htf; unfold deliver_signal; step_with pget_ok.
  destruct (p_handling_signal pr =? 0); cbn [kwhen]; [| done].
  unfold mbind at 1, K_bind at 1.
  rewrite (kfor_find_list tt (fun i => deliverable pr i = true) _ _
    (fun i => Ok (inr tt) (delivered p i pr tf s) o)).
  - unfold next_signal; destruct (list_find _ _) as [[? i] |]; done.
  - intros i; step_with pget_ok.
    destruct (decide (deliverable pr i = true)) as [-> | ->%not_true_is_false]; [| done].
    step_with pset_ok; step_with tfget_ok.
    erewrite bind_ok; [| eapply pset_ok; simpl; by apply upd_lookup_eq].
    step_with tfset_ok.
    erewrite bind_ok; [| eapply pset_ok; simpl; eapply upd_lookup_eq; by apply upd_lookup_eq].
    rewrite ret_ok; f_equal; unfold delivered; destruct s; state_norm; simpl.
    f_equal; rewrite !upd_upd; done.
  - intros i s' x o' [= <- _ _]; eauto.
Qed.

Lemma sigclear_testbit x n k :
  0 <= n < 32 -> 0 <= k < 32 ->
  Z.testbit (Z.land x (u32 (Z.lnot (Z.shiftl 1 n)))) k = Z.testbit x k && negb (k =? n).
Proof.
  intros Hn Hk; unfold u32; rewrite Z.land_spec, Z.mod_pow2_bits_low, Z.lnot_spec by lia.
  rewrite Z.shiftl_spec by lia; f_equal; f_equal.
  destruct (Z.eqb_spec k n) as [-> | Hne]; [by rewrite Z.sub_diag |].
  destruct (Z_lt_dec k n); [rewrite Z.testbit_neg_r; lia |].
  apply testbit_high with 1; lia.
Qed.

(** on the way back to user space the lowest-numbered pending signal with
    a handler is delivered, unless one is being handled: its bit and no other
    is cleared, the interrupted registers are saved, and only the program
    counter of the trapframe changes, to the handler's address; with none, or
    while a handler runs, nothing changes. *)
Theorem deliver_signal_spec (p : nat) (pr : proc) (tf : trapframe) (s : kstate) (o : oracle)
  (Hp : k_procs s !! p = Some pr) (Htf : k_tf s !! p_trapframe pr = Some tf)
  (Hlen : length tf = tf_words) :
  match next_signal pr, p_handling_signal pr with
  | Some i, 0 =>
      0 <= i < 32 /\ deliverable pr i = true /\ (forall k, 0 <= k < i -> deliverable pr k = false) /\
      exists s' pr' tf', deliver_signal p s o = Ok tt s' o /\
        k_procs s' !! p = Some pr' /\ k_tf s' !! p_trapframe pr = Some tf' /\
        p_saved_trapframe pr' = tf /\ p_handling_signal pr' = 1 /\
        (forall k, 0 <= k < 32 -> Z.testbit (p_pending_signals pr') k =
           Z.testbit (p_pending_signals pr) k && negb (k =? i)) /\
        tf_get Tepc tf' = handler_of i pr /\
        (forall r, r <> Tepc -> tf_get r tf' = tf_get r tf) /\
        (forall q, q <> p -> k_procs s' !! q = k_procs s !! q)
  | _, _ => deliver_signal p s o = Ok tt s o
  end.
Proof.
  rewrite (deliver_signal_run p pr tf) by done.
  destruct (next_signal pr) as [i |] eqn:E; [| by destruct (p_handling_signal pr =? 0)].
  destruct (next_signal_spec pr i E) as (Hi & Hd & Hmin).
  destruct (p_handling_signal pr) as [| h | h]; simpl; [| done | done].
  split; [done |]; split; [done |]; split; [done |].
  do 3 eexists; split; [done |]; split; [simpl; by apply upd_lookup_eq |].
  split; [simpl; apply lookup_insert_eq |]; simpl; split_and!; try done.
  - intros k Hk; apply sigclear_testbit; lia.
  - apply tf_get_set; rewrite Hlen; simpl; unfold tf_words; lia.
  - intros r Hr; by apply tf_get_set_ne.
  - intros q Hq; by apply upd_lookup_ne.
Qed.

(** A process with handlers for signals 3 and 5 that are both pending. *)
Definition demo_sig_proc : proc :=
  (zero_proc <| p_pid := 2 |> <| p_state := RUNNING |> <| p_trapframe := 0x87000000 |>
             <| p_signal_handlers := <[3%nat := 0x100]> (<[5%nat := 0x200]> (replicate NSIG NOHANDLER)) |>
             <| p_pending_signals := 41 |>)%rec.

Definition demo_tf : trapframe := replicate tf_words 77.

Definition demo_sig : kstate :=
  (zero_state <| k_procs ::= upd 1 (fun _ => demo_sig_proc) |> <| k_cur := Some 1%nat |>
              <| k_tf := {[ 0x87000000 := demo_tf ]} |>)%rec.

(** Signal 0 is pending too, without a handler: 3 comes first. *)
Lemma deliver_signal_spec_witness :
  next_signal demo_sig_proc = Some 3 /\
  exists s' tf', deliver_signal 1 demo_sig [] = Ok tt s' [] /\
    k_tf s' !! 0x87000000 = Some tf' /\ tf_get Tepc tf' = 0x100.
Proof.
  split; [reflexivity |].
  destruct (deliver_signal_spec 1 demo_sig_proc demo_tf demo_sig [] eq_refl eq_refl eq_refl)
    as (_ & _ & _ & s' & pr' & tf' & Hd & _ & Ht & _ & _ & _ & He & _).
  exists s', tf'; split; [exact Hd |]; split; [exact Ht | exact He].
Defined.

(** ** System calls *)

Section Syscall.
Context `{Linker} `{BlockDevice} `{DevSwitch}.

Lemma sys_sigreturn_run p pr tf s o :
  k_cur s = Some p -> k_procs s !! p = Some pr -> k_tf s !! p_trapframe pr = Some tf ->
  sys_sigreturn s o =
  Ok (tf_get Ta0 (p_saved_trapframe pr))
    (s <| k_procs ::= upd p (fun pr => pr <| p_handling_signal := 0 |>) |>
       <| k_tf ::= <[p_trapframe pr := p_saved_trapframe pr]> |>)%rec o.
Proof.
  intros Hcur Hp Htf; unfold sys_sigreturn; step_with curproc_ok; step_with pget_ok.
  step_with tfset_ok; step_with pset_ok; 
  erewrite bind_ok by (apply tfget_ok; simpl; apply lookup_insert_eq).
  rewrite ret_ok; f_equal; destruct s; done.
Qed.

(** C26: sigreturn undoes the delivery of a signal.  Whatever the handler did
    to its registers, the sigreturn system call puts the whole interrupted
    trapframe back, a0 included, although the dispatcher stores the result of
    a system call in a0; and the process takes signals again. *)
Theorem signal_roundtrip (info : procinfo) (p : nat) (pr hpr : proc) (tf htf : trapframe) (i : Z)
    (s hs : kstate) (o : oracle)
  (Hp : k_procs s !! p = Some pr) (Htf : k_tf s !! p_trapframe pr = Some tf)
  (Hlen : length tf = tf_words) (Ha0 : 0 <= tf_get Ta0 tf < 2 ^ 64)
  (Hnh : p_handling_signal pr = 0) (Hsig : next_signal pr = Some i)
  (Hcur : k_cur hs = Some p) (Hhp : k_procs hs !! p = Some hpr)
  (Htfp : p_trapframe hpr = p_trapframe pr)
  (Hsaved : p_saved_trapframe hpr = p_saved_trapframe (signalled i tf pr))
  (Hhtf : k_tf hs !! p_trapframe pr = Some htf) (Ha7 : tf_get Ta7 htf = 30) :
  deliver_signal p s o = Ok tt (delivered p i pr tf s) o /\
  k_procs (delivered p i pr tf s) !! p = Some (signalled i tf pr) /\
  exists s', syscall info hs o = Ok tt s' o /\
    k_tf s' !! p_trapframe pr = Some tf /\ (p_handling_signal <$> k_procs s' !! p) = Some 0.
Proof.
  split; [rewrite (deliver_signal_run p pr tf), Hnh, Hsig by done; done |].
  split; [simpl; by apply upd_lookup_eq |].
  unfold syscall; step_with curproc_ok; step_with pget_ok; 
  erewrite bind_ok by (apply tfget_ok; rewrite Htfp; done).
  rewrite Ha7; change (i32 30) with 30; cbv zeta; change (syscalls info 30) with (Some sys_sigreturn).
  cbn [andb Z.ltb Z.compare Pos.compare Pos.compare_cont NSYSCALLS].
  erewrite bind_ok; [| eapply sys_sigreturn_run; [done | done | by rewrite Htfp]].
  erewrite bind_ok by (apply pget_ok; simpl; by apply upd_lookup_eq).
  erewrite tfset_ok; [| simpl; apply lookup_insert_eq].
  eexists; split; [done |]; simpl in *; rewrite Htfp, Hsaved; split.
  - rewrite lookup_insert_eq; f_equal; rewrite u64_small by done.
    apply tf_set_get; rewrite Hlen; unfold tf_words; simpl; lia.
  - rewrite (upd_lookup_eq _ _ _ _ Hhp); done.
Qed.

Lemma unknown_msg pid name num :
  is_Some (sprintf (lit "%d %s: unknown sys call %d\n") [VInt pid; VStr (Some name); VInt num]).
Proof.
  apply format_prints; reflexivity.
Qed.

(** A system call number outside the table, or the hole at 23, prints a
    message and changes nothing but the caller's a0, which becomes -1. *)
Theorem syscall_unknown (info : procinfo) (p : nat) (pr : proc) (tf : trapframe)
    (s : kstate) (o : oracle)
  (Hcur : k_cur s = Some p) (Hp : k_procs s !! p = Some pr)
  (Htf : k_tf s !! p_trapframe pr = Some tf)
  (Hnum : let num := i32 (tf_get Ta7 tf) in num <= 0 \/ 36 <= num \/ num = 23) :
  exists msg,
    sprintf (lit "%d %s: unknown sys call %d\n")
      [VInt (p_pid pr); VStr (Some (p_name pr)); VInt (i32 (tf_get Ta7 tf))] = Some msg /\
    syscall info s o =
    Ok tt (s <| k_cons ::= fun c => c ++ msg |>
             <| k_tf ::= <[p_trapframe pr := tf_set Ta0 (2 ^ 64 - 1) tf]> |>)%rec o.
Proof.
  destruct (unknown_msg (p_pid pr) (p_name pr) (i32 (tf_get Ta7 tf))) as [msg Hmsg].
  exists msg; split; [done |]; unfold syscall; step_with curproc_ok; step_with pget_ok; step_with tfget_ok.
  cbv zeta in *; set (num := i32 (tf_get Ta7 tf)) in *.
  assert (Hu : (printf "%d %s: unknown sys call %d\n" [VInt (p_pid pr); VStr (Some (p_name pr)); VInt num] ;;
    tfset (p_trapframe pr) (tf_set Ta0 (u64 (-1)))) s o =
    Ok tt (s <| k_cons ::= fun c => c ++ msg |>
           <| k_tf ::= <[p_trapframe pr := tf_set Ta0 (2 ^ 64 - 1) tf]> |>)%rec o).
  { unfold printf; rewrite Hmsg; erewrite bind_ok by reflexivity; erewrite tfset_ok by done; done. }
  destruct ((0 <? num) && (num <? NSYSCALLS)) eqn:E; [| exact Hu].
  replace (syscalls info num) with (@None (K Z)); [exact Hu |].
  unfold NSYSCALLS in E; assert (num = 23) as -> by lia; done.
Qed.

End Syscall.

(** The handler of signal 3 ran with other registers and called sigreturn. *)
Definition demo_handling : kstate :=
  (demo_sig <| k_procs ::= upd 1 (signalled 3 demo_tf) |>
            <| k_tf := {[ 0x87000000 := tf_set Ta7 30 (replicate tf_words 5) ]} |>)%rec.

Definition demo_info : procinfo := mkprocinfo 0 0 0 (replicate 16 0).

Lemma signal_roundtrip_witness :
  exists s', syscall (H := demo_linker) (H0 := demo_disk) (H1 := demo_devsw) demo_info demo_handling []
      = Ok tt s' [] /\ k_tf s' !! 0x87000000 = Some demo_tf.
Proof.
  destruct (signal_roundtrip (H := demo_linker) (H0 := demo_disk) (H1 := demo_devsw) demo_info 1
    demo_sig_proc (signalled 3 demo_tf demo_sig_proc) demo_tf
    (tf_set Ta7 30 (replicate tf_words 5)) 3 demo_sig demo_handling []
    eq_refl eq_refl eq_refl ltac:(vm_compute; split; congruence) eq_refl eq_refl eq_refl
    eq_refl eq_refl eq_refl eq_refl eq_refl) as (_ & _ & s' & Hs & Ht & _).
  exists s'; split; [exact Hs | exact Ht].
Defined.

Definition demo_unknown : kstate :=
  (demo_sig <| k_tf := {[ 0x87000000 := tf_set Ta7 23 demo_tf ]} |>)%rec.

Lemma syscall_unknown_witness :
  exists s', syscall (H := demo_linker) (H0 := demo_disk) (H1 := demo_devsw) demo_info
    demo_unknown [] = Ok tt s' [].
Proof.
  destruct (syscall_unknown (H := demo_linker) (H0 := demo_disk) (H1 := demo_devsw)
    demo_info 1 demo_sig_proc (tf_set Ta7 23 demo_tf) demo_unknown []
    eq_refl eq_refl eq_refl ltac:(right; right; reflexivity)) as (msg & _ & Hs).
  eexists; exact Hs.
Defined.
