(* ===== verification/User.v ===== *)
(** User programs: a process between its system calls.

    A program is a tree of system calls: [UCall c k] makes the call [c] and
    goes on with [k] applied to the reply; [UExit] is exit().  What the
    kernel answers is given by a handler, so that theorems about a program hold
    for every handler that keeps the promises they name. *)
From stdpp Require Import base list.
From Stdlib Require Import ZArith Lia ZifyBool.
From S2P Require Import Prelude Memory.

Local Open Scope Z_scope.

(** struct stat as fstat() returns it *)
Record ustat := mkustat { us_dev : Z; us_ino : Z; us_type : Z; us_nlink : Z; us_size : Z }.

(** struct procinfo as getprocinfo() returns it *)
Record uprocinfo := mkuprocinfo { ui_pid : Z; ui_state : Z; ui_sz : Z; ui_name : list Z }.

(** What a pointer argument points to: a string the program has, or whatever is at an address. *)
Inductive uptr := PStr (bs : list Z) | PAddr (a : Z).

(** The system calls of user/user.h that the programs make, with the memory they
    are given; [SWrite] has the bytes at the buffer, [SExec] the strings.  The
    calls of the tests that are made with an address, which may be a wild one, are
    the constructors that end in [At].  [SLoad] and [SStore] are no
    calls but accesses of [w] bytes at an address that others can see or
    that may fault; one that faults does not return, since the kernel
    kills the process.  [SSp] reads the stack pointer. *)
Inductive ucall :=
| SFork | SWait
| SPipe
| SRead (fd n : Z) | SWrite (fd : Z) (bs : list Z)
| SOpen (path : list Z) (mode : Z) | SClose (fd : Z) | SDup (fd : Z)
| SExec (path : list Z) (argv : list (list Z))
| SMknod (path : list Z) (major minor : Z) | SMkdir (path : list Z)
| SUnlink (path : list Z) | SLink (old new : list Z) | SChdir (path : list Z)
| SFstat (fd : Z)
| SKill (pid : Z) | SGetpid | SSbrk (n mode : Z) | SPause (n : Z) | SUptime
| SGetppid | SWaitpid (pid : Z) | SGetchildren (maxn : Z)
| SGetproccount | SGetprocinfo (pid : Z)
| SIpcSend (pid : Z) (bs : list Z) | SIpcRecv (n : Z)
| SSignal (signum handler : Z) | SSigsend (pid signum : Z) | SSigreturn
| SThreadCreate (func arg : Z) | SThreadJoin (pid : Z) | SThreadExit
| SReadAt (fd a n : Z) | SWriteAt (fd a n : Z) | SOpenAt (path : uptr) (mode : Z) | SUnlinkAt (path : uptr)
| SLinkAt (old new : uptr) | SExecAt (path : uptr) (argv : list uptr) | SPipeAt (a : Z)
| SLoad (a w : Z) | SStore (a w v : Z) | SSp.

(** The return value, and what the call stores in the caller's memory: the bytes
    read or received, the exit status, the two descriptors of a pipe, the struct stat
    or procinfo, the pids of the children.  thread_create() has [Some] return value in the
    caller; [None] is the new process, which is at the start of the function. *)
Definition reply (c : ucall) : Set :=
  match c with
  | SRead _ _ => Z * list Z
  | SWait => Z * Z
  | SPipe => Z * (Z * Z)
  | SFstat _ => Z * ustat
  | SWaitpid _ => Z * Z
  | SGetchildren _ => Z * list Z
  | SGetprocinfo _ => Z * uprocinfo
  | SIpcRecv _ => Z * list Z
  | SThreadCreate _ _ => option Z
  | _ => Z
  end.

(** The call fails and stores nothing. *)
Definition fail_reply (c : ucall) : reply c :=
  match c with
  | SRead _ _ => (-1, [])
  | SWait => (-1, 0)
  | SPipe => (-1, (0, 0))
  | SFstat _ => (-1, mkustat 0 0 0 0 0)
  | SWaitpid _ => (-1, 0)
  | SGetchildren _ => (-1, [])
  | SGetprocinfo _ => (-1, mkuprocinfo 0 0 0 [])
  | SIpcRecv _ => (-1, [])
  | SThreadCreate _ _ => Some (-1)
  | _ => -1
  end.

Inductive U (A : Type) :=
| URet (a : A)
| UCall (c : ucall) (k : reply c -> U A)
| UExit (status : Z)
| UFault    (** an access out of the bounds of an array, or other undefined behaviour *)
| UNoFuel.  (** the bound of a loop was reached *)
Arguments URet {_} _.
Arguments UCall {_} _ _.
Arguments UExit {_} _.
Arguments UFault {_}.
Arguments UNoFuel {_}.

#[export] Instance U_ret : MRet U := @URet.
Fixpoint ubind {A B} (f : A -> U B) (m : U A) : U B :=
  match m with
  | URet a => f a
  | UCall c k => UCall c (fun r => ubind f (k r))
  | UExit st => UExit st
  | UFault => UFault
  | UNoFuel => UNoFuel
  end.
#[export] Instance U_bind : MBind U := @ubind.

Definition sys (c : ucall) : U (reply c) := UCall c URet.
Definition from_option_U {A} (o : option A) : U A := match o with Some a => URet a | None => UFault end.

(** A loop with [fuel] turns at most; the body returns [inl] to go on. *)
Fixpoint uloop {St R} (fuel : nat) (body : St -> U (St + R)) (st : St) : U R :=
  match fuel with
  | O => UNoFuel
  | S fuel' => x ← body st; match x with inl st' => uloop fuel' body st' | inr r => URet r end
  end.

Fixpoint ufor_ {A} (l : list A) (body : A -> U unit) : U unit :=
  match l with [] => URet tt | a :: l' => body a ;; ufor_ l' body end.

(** [a[i] = v] *)
Definition aset (a : list Z) (i v : Z) : option (list Z) :=
  if (0 <=? i) && (i <? Z.of_nat (length a)) then Some (<[Z.to_nat i := v]> a) else None.

(** The bytes [bs] stored at [a + i], as read() does. *)
Definition astore (a : list Z) (i : Z) (bs : list Z) : option (list Z) :=
  if (0 <=? i) && (i + Z.of_nat (length bs) <=? Z.of_nat (length a))
  then Some (take (Z.to_nat i) a ++ bs ++ drop (Z.to_nat i + length bs) a) else None.

(** ** Running a program *)

Inductive ures (A W : Type) :=
| Done (a : A) (w : W)
| Exited (status : Z) (w : W)
| Faulted
| OutOfFuel.
Arguments Done {_ _} _ _.
Arguments Exited {_ _} _ _.
Arguments Faulted {_ _}.
Arguments OutOfFuel {_ _}.

Section Run.
Context {W : Type} (h : forall c, W -> reply c * W).

Fixpoint run {A} (m : U A) (w : W) : ures A W :=
  match m with
  | URet a => Done a w
  | UCall c k => let '(r, w') := h c w in run (k r) w'
  | UExit st => Exited st w
  | UFault => Faulted
  | UNoFuel => OutOfFuel
  end.

Lemma run_bind {A B} (m : U A) (f : A -> U B) w :
  run (m ≫= f) w =
  match run m w with
  | Done a w' => run (f a) w'
  | Exited st w' => Exited st w'
  | Faulted => Faulted
  | OutOfFuel => OutOfFuel
  end.
Proof.
  revert w; induction m as [a | c k IH | | |]; intros w; try done.
  cbn; destruct (h c w) as [r w']; apply IH.
Qed.

Lemma run_done {A B} (m : U A) (f : A -> U B) w a w' :
  run m w = Done a w' -> run (m ≫= f) w = run (f a) w'.
Proof. intros Hm; by rewrite run_bind, Hm. Qed.

Lemma run_call c w r w' : h c w = (r, w') -> run (sys c) w = Done r w'.
Proof. intros E; cbn; by rewrite E. Qed.

Lemma run_sys {B} c (f : reply c -> U B) w :
  run (sys c ≫= f) w = run (f (h c w).1) (h c w).2.
Proof. cbn; by destruct (h c w). Qed.

Lemma run_uloop {St R} fuel (body : St -> U (St + R)) st w :
  run (uloop (S fuel) body st) w =
  match run (body st) w with
  | Done (inl st') w' => run (uloop fuel body st') w'
  | Done (inr r) w' => Done r w'
  | Exited s w' => Exited s w'
  | Faulted => Faulted
  | OutOfFuel => OutOfFuel
  end.
Proof. cbn [uloop]; rewrite run_bind; destruct (run (body st) w) as [[] | | |]; done. Qed.

End Run.

Arguments uloop : simpl never.
Arguments run : simpl never.

(** A kernel that serves one input stream and one output stream: a read returns
    between one byte and what was asked for, as [t_sizes] decides, and 0 at
    the end. *)
Record tty := mktty { t_in : list Z; t_sizes : list nat; t_out : list Z }.

Definition tty_serve (c : ucall) (w : tty) : reply c * tty :=
  match c with
  | SRead fd n =>
      let k := Nat.min (Nat.max 1 (hd 0%nat (t_sizes w))) (Nat.min (Z.to_nat n) (length (t_in w))) in
      ((Z.of_nat k, take k (t_in w)), mktty (drop k (t_in w)) (tl (t_sizes w)) (t_out w))
  | SWrite fd bs => (Z.of_nat (length bs), mktty (t_in w) (t_sizes w) (t_out w ++ bs))
  | c => (fail_reply c, w)
  end.
