(* ===== verification/Ulib.v ===== *)
(** The user library, user/ulib.c.

    A [char *] that is read is the list of the characters from it on, [hd 0]
    reading [*p]; a pointer into an array that is written is the array and an
    index.  [None] is an access outside of the array. *)
From stdpp Require Import base list.
From Stdlib Require Import ZArith Lia ZifyBool Ascii.
From S2P Require Import Prelude Fcntl Memory KPrintf User.

Local Open Scope Z_scope.

(** [while(( *s++ = *t++) != 0) ;]; the arrays are distinct. *)
Fixpoint strcpy (s t : list Z) : option (list Z) :=
  match s with
  | [] => None
  | _ :: s' =>
      if chr t =? 0 then Some (0 :: s')
      else r ← strcpy s' (tl t); Some (chr t :: r)
  end.

(** [while( *p && *p == *q) p++, q++; return (uchar) *p - (uchar) *q;] *)
Fixpoint strcmp (p q : list Z) : Z :=
  match p with
  | [] => 0 - chr q
  | c :: p' => if negb (c =? 0) && (c =? chr q) then strcmp p' (tl q) else c - chr q
  end.

Fixpoint strlen (s : list Z) : Z :=
  match s with
  | [] => 0
  | c :: s' => if c =? 0 then 0 else 1 + strlen s'
  end.

(** [for(i = 0; i < n; i++) cdst[i] = c;] *)
Definition memset (a : list Z) (dst c n : Z) : option (list Z) :=
  foldl (fun a i => a ← a; aset a (dst + i) (u8 c)) (Some a) (seqZ 0 n).

(** The offset from [s] of the character found. *)
Fixpoint strchr (s : list Z) (c : Z) : option nat :=
  match s with
  | [] => None
  | x :: s' => if x =? 0 then None else if x =? c then Some 0%nat else S <$> strchr s' c
  end.

(** The loop returns [buf] and [i]. *)
Definition gets (buf : list Z) (max : Z) : U (list Z) :=
  x ← uloop (Z.to_nat max) (fun '(buf, i) =>
    if negb (i + 1 <? max) then mret (inr (buf, i))
    else
      r ← sys (SRead 0 1);
      let '(cc, c) := (r : Z * list Z) in
      if cc <? 1 then mret (inr (buf, i))
      else
        buf ← from_option_U (aset buf i (chr c));
        if (chr c =? 10) || (chr c =? 13) then mret (inr (buf, i + 1))
        else mret (inl (buf, i + 1))) (buf, 0);
  let '(buf, i) := (x : list Z * Z) in
  from_option_U (aset buf i 0).


(** stat(n, st) *)
Definition stat (n : list Z) : U (Z * ustat) :=
  fd ← sys (SOpen n O_RDONLY);
  if (fd : Z) <? 0 then mret (-1, mkustat 0 0 0 0 0)
  else
    r ← sys (SFstat fd);
    _ ← sys (SClose fd);
    mret r.

(** [n = n*10 + *s++ - '0'] in int arithmetic *)
Fixpoint atoi_loop (s : list Z) (n : Z) : Z :=
  match s with
  | [] => n
  | c :: s' => if (ch "0" <=? c) && (c <=? ch "9") then atoi_loop s' (i32 (n * 10 + c - ch "0")) else n
  end.
Definition atoi (s : list Z) : Z := atoi_loop s 0.

(** memmove within one array. *)
Fixpoint move_up (n : nat) (a : list Z) (dst src : Z) : option (list Z) :=
  match n with
  | O => Some a
  | S n' => v ← a !! Z.to_nat src; a ← aset a dst v; move_up n' a (dst + 1) (src + 1)
  end.

Fixpoint move_down (n : nat) (a : list Z) (dst src : Z) : option (list Z) :=
  match n with
  | O => Some a
  | S n' => v ← a !! Z.to_nat (src - 1); a ← aset a (dst - 1) v; move_down n' a (dst - 1) (src - 1)
  end.

Definition memmove (a : list Z) (dst src n : Z) : option (list Z) :=
  if dst <? src then move_up (Z.to_nat n) a dst src
  else move_down (Z.to_nat n) a (dst + n) (src + n).

(** [n] is the count left. *)
Fixpoint memcmp (p1 p2 : list Z) (n : nat) : Z :=
  match n with
  | O => 0
  | S n' => if chr p1 =? chr p2 then memcmp (tl p1) (tl p2) n' else chr p1 - chr p2
  end.

Definition memcpy (a : list Z) (dst src n : Z) : option (list Z) := memmove a dst src n.

Definition sbrk (n : Z) : U Z := sys (SSbrk n SBRK_EAGER).
Definition sbrklazy (n : Z) : U Z := sys (SSbrk n SBRK_LAZY).
