(* ===== verification/UPrintf.v ===== *)
(** Formatted output of user programs, user/printf.c.

    Every character is its own write(); the arguments are as in KPrintf.v. *)
From stdpp Require Import base list strings.
From Stdlib Require Import ZArith Lia ZifyBool Ascii.
From S2P Require Import Prelude Memory KPrintf User.

Local Open Scope Z_scope.

(** [static char digits[]] *)
Definition digits : list Z := lit "0123456789ABCDEF".

Definition putc (fd c : Z) : U unit := _ ← sys (SWrite fd [u8 c]); mret tt.

(** The characters that printint and printptr put. *)
Definition printint (xx base : Z) (sgn : bool) : option (list Z) :=
  let neg := sgn && (xx <? 0) in
  let x := if neg then u64 (- xx) else u64 xx in
  let buf := int_digits 64 digits base x ++ (if neg then [ch "-"] else []) in
  if 20 <? Z.of_nat (length buf) then None else Some (rev buf).

Definition printptr (x : Z) : list Z := ch "0" :: ch "x" :: ptr_digits 16 digits x.

(** The conversion [c0] after a [%]: its characters, the arguments left and the
    advance of [i]. *)
Definition convert (c0 c1 c2 : Z) (ap : list varg) : option (list Z * list varg * nat) :=
  match int_conv c0 c1 c2 with
  | Some (va, base, sgn, skip) =>
      '(x, ap') ← va ap; out ← printint (i64 x) base sgn; Some (out, ap', skip)
  | None =>
      if c0 =? ch "p" then '(x, ap') ← va_uint64 ap; Some (printptr x, ap', 0%nat)
      else if c0 =? ch "c" then '(x, ap') ← va_uint32 ap; Some ([u8 x], ap', 0%nat)
      else if c0 =? ch "s" then
        '(s, ap') ← va_str ap;
        Some (match s with None => lit "(null)" | Some s => cstr s end, ap', 0%nat)
      else if c0 =? ch "%" then Some ([ch "%"], ap, 0%nat)
      else Some ([ch "%"; c0], ap, 0%nat)
  end.

(** The loop with [state], true after a [%]. *)
Fixpoint vformat (fuel : nat) (fmt : list Z) (ap : list varg) (state : bool) : option (list Z) :=
  match fuel with
  | O => Some []
  | S fuel' =>
      let c0 := chr fmt in
      if c0 =? 0 then Some []
      else if negb state then
        if c0 =? ch "%" then vformat fuel' (tl fmt) ap true
        else out ← vformat fuel' (tl fmt) ap false; Some (c0 :: out)
      else
        let c1 := chr (tl fmt) in
        let c2 := if c1 =? 0 then 0 else chr (drop 2 fmt) in
        '(s, ap', skip) ← convert c0 c1 c2 ap;
        out ← vformat fuel' (drop (1 + skip) fmt) ap' false; Some (s ++ out)
  end.

Definition vprintf (fd : Z) (fmt : list Z) (ap : list varg) : U unit :=
  out ← from_option_U (vformat (length fmt) fmt ap false);
  ufor_ out (putc fd).

Definition fprintf (fd : Z) (fmt : string) (ap : list varg) : U unit := vprintf fd (lit fmt) ap.
Definition printf (fmt : string) (ap : list varg) : U unit := vprintf 1 (lit fmt) ap.

(** "%x" shows the upper case digits of this file. *)
Example printf_hex :
  run tty_serve (printf "%d 0x%x%" [VInt (-5); VInt 48879]) (mktty [] [] []) =
  Done tt (mktty [] [] (lit "-5 0xBEEF")).
Proof. vm_compute; reflexivity. Qed.
