(* ===== verification/Grep.v ===== *)
(** grep, user/grep.c: the matcher of regular expressions and the loop over the
    lines of a file. *)
From stdpp Require Import base list strings.
From Stdlib Require Import ZArith Lia ZifyBool Ascii.
From S2P Require Import Prelude Fcntl Memory KPrintf User Ulib UPrintf.

Local Open Scope Z_scope.

(** ** The matcher *)

(** matchstar(c, re, text), given [matchhere re]:
    [do { if(matchhere(re, text)) return 1; } while( *text != 0 && ...);] *)
Fixpoint matchstar (c : Z) (here : list Z -> bool) (text : list Z) : bool :=
  if here text then true
  else match text with
       | [] => false
       | x :: text' =>
           if negb (x =? 0) && ((x =? c) || (c =? ch ".")) then matchstar c here text' else false
       end.

Fixpoint matchhere (re text : list Z) : bool :=
  match re with
  | [] => true
  | c :: re1 =>
      if c =? 0 then true
      else
        let rest :=
          if (c =? ch "$") && (chr re1 =? 0) then chr text =? 0
          else if negb (chr text =? 0) && ((c =? ch ".") || (c =? chr text))
          then matchhere re1 (tl text)
          else false in
        match re1 with
        | c1 :: re2 => if c1 =? ch "*" then matchstar c (matchhere re2) text else rest
        | [] => rest
        end
  end.

(** [do { if(matchhere(re, text)) return 1; } while( *text++ != 0);] *)
Fixpoint match_from (re text : list Z) : bool :=
  if matchhere re text then true
  else match text with
       | [] => false
       | x :: text' => if negb (x =? 0) then match_from re text' else false
       end.

Definition match_ (re text : list Z) : bool :=
  if chr re =? ch "^" then matchhere (tl re) text else match_from re text.

(** ** The loop over the input *)

(** One turn of [while((q = strchr(p, '\n')) != 0)]; [p] is an index into [buf]. *)
Definition grep_line (pattern : list Z) (st : list Z * nat) : U (list Z * nat + list Z * nat) :=
  let '(buf, p) := st in
  match strchr (drop p buf) 10 with
  | None => mret (inr (buf, p))
  | Some k =>
      let q := (p + k)%nat in
      let buf := <[q := 0]> buf in
      if match_ pattern (drop p buf) then
        let buf := <[q := 10]> buf in
        _ ← sys (SWrite 1 (take (q + 1 - p) (drop p buf)));
        mret (inl (buf, S q))
      else mret (inl (buf, S q))
  end.

Definition grep_lines (pattern buf : list Z) : U (list Z * nat) :=
  uloop (S (length buf)) (grep_line pattern) (buf, 0%nat).

(** [char buf[1024]] *)
Definition BUFSIZE : Z := 1024.

(** One turn of the loop over read(); the loop variables are [buf] and [m]. *)
Definition grep_read (pattern : list Z) (fd : Z) (st : list Z * Z) : U (list Z * Z + list Z) :=
  let '(buf, m) := st in
  r ← sys (SRead fd (BUFSIZE - m - 1));
  let '(n, bs) := (r : Z * list Z) in
  if negb (0 <? n) then mret (inr buf)
  else
    buf ← from_option_U (astore buf m bs);
    let m := m + n in
    buf ← from_option_U (aset buf m 0);
    x ← grep_lines pattern buf;
    let '(buf, p) := (x : list Z * nat) in
    if 0 <? m then
      let m := m - Z.of_nat p in
      buf ← from_option_U (memmove buf 0 (Z.of_nat p) m);
      mret (inl (buf, m))
    else mret (inl (buf, m)).

(** [fuel] bounds the number of reads. *)
Definition grep (fuel : nat) (pattern : list Z) (fd : Z) (buf : list Z) : U (list Z) :=
  uloop fuel (grep_read pattern fd) (buf, 0).

(** The arguments after the program's name are [pattern] and the files; [buf] is
    the global buffer, which keeps its contents from file to file. *)
Definition main (fuel : nat) (argv : list (list Z)) : U unit :=
  let buf := replicate (Z.to_nat BUFSIZE) 0 in
  match argv with
  | [] | [_] => fprintf 2 "usage: grep pattern [file ...]\n" [] ;; UExit 1
  | [_; pattern] => grep fuel pattern 0 buf ;; UExit 0
  | _ :: pattern :: files =>
      uloop (S (length files)) (fun '(buf, files) =>
        match files with
        | [] => mret (inr tt)
        | f :: files' =>
            fd ← sys (SOpen f O_RDONLY);
            if (fd : Z) <? 0 then
              printf "grep: cannot open %s\n" [VStr (Some f)] ;; UExit 1
            else
              buf ← grep fuel pattern fd buf;
              _ ← sys (SClose fd);
              mret (inl (buf, files'))
        end) (buf, files) ;;
      UExit 0
  end.

Example grep_demo :
  match run tty_serve (grep 9 (lit "a*b$") 0 (replicate 1024 0)) (mktty (lit "xaab\nabc\nb\nq") [3; 1; 4]%nat []) with
  | Done _ w => t_out w = lit "xaab\nb\n"
  | _ => False
  end.
Proof. vm_compute; reflexivity. Qed.
