(* ===== verification/Umalloc.v ===== *)
(** The user memory allocator, user/umalloc.c: Kernighan and Ritchie's circular
    free list.

    A pointer is an address; [Header] is 16 bytes.  The heap is the two fields
    of every header in memory, by the header's address; a field that was never
    written has no value and reading it is a fault. *)
From stdpp Require Import base gmap list.
From Stdlib Require Import ZArith Lia ZifyBool.
From S2P Require Import Prelude Fcntl Memory User Ulib.

Local Open Scope Z_scope.
Local Open Scope record_scope.

(** [(char * )-1], the value a failed sbrk() returns *)
Definition SBRK_ERROR : Z := -1.

Definition sizeof_Header : Z := 16.

(** [h_ptr] and [h_size] hold [s.ptr] and [s.size]; [freep] is the static. *)
Record heap := mkheap { h_ptr : gmap Z Z; h_size : gmap Z Z; freep : Z }.

#[export] Instance Eta_heap : Eta heap := fun r => mkheap (h_ptr r) (h_size r) (freep r).
#[export] Instance set_h_ptr : SetField h_ptr. Proof. setter. Defined.
#[export] Instance set_h_size : SetField h_size. Proof. setter. Defined.
#[export] Instance set_freep : SetField freep. Proof. setter. Defined.

(** [p->s.ptr], [p->s.size] and the assignments to them *)
Definition ldptr (m : heap) (p : Z) : U Z := from_option_U (h_ptr m !! p).
Definition ldsize (m : heap) (p : Z) : U Z := from_option_U (h_size m !! p).
Definition stptr (p v : Z) (m : heap) : heap := m <| h_ptr ::= <[p := v]> |>.
Definition stsize (p v : Z) (m : heap) : heap := m <| h_size ::= <[p := u32 v]> |>.

(** [p + n] for a [Header *p] *)
Definition hadd (p n : Z) : Z := p + n * sizeof_Header.

(** The [for] loop of free(): the node after which [bp] belongs. *)
Definition free_find (m : heap) (bp p : Z) : U (Z + Z) :=
  nx ← ldptr m p;
  if (p <? bp) && (bp <? nx) then mret (inr p)
  else if (nx <=? p) && ((p <? bp) || (bp <? nx)) then mret (inr p)
  else mret (inl nx).

(** [q] is linked to [nx], or takes it over where the blocks touch: the two [if]s of
    free(), the first for [bp] and the node after it, the second for [p] and
    [bp]. *)
Definition attach (q nx : Z) (m : heap) : U heap :=
  qsz ← ldsize m q;
  if hadd q qsz =? nx then
    nsz ← ldsize m nx;
    let m := stsize q (qsz + nsz) m in
    nn ← ldptr m nx;
    mret (stptr q nn m)
  else mret (stptr q nx m).

(** [fuel] bounds the turns of the loop. *)
Definition free (fuel : nat) (ap : Z) (m : heap) : U heap :=
  let bp := hadd ap (-1) in
  p ← uloop fuel (free_find m bp) (freep m);
  nx ← ldptr m p;
  m ← attach bp nx m;
  m ← attach p bp m;
  mret (m <| freep := p |>).

(** The argument of sbrk() is an [int]; the pointer is 0 when sbrk() fails. *)
Definition morecore (fuel : nat) (nu : Z) (m : heap) : U (Z * heap) :=
  let nu := if nu <? 4096 then 4096 else nu in
  p ← sbrk (i32 (nu * sizeof_Header));
  if (p : Z) =? SBRK_ERROR then mret (0, m)
  else
    let hp := p in
    m ← free fuel (hadd hp 1) (stsize hp nu m);
    mret (freep m, m).

Definition nunits (nbytes : Z) : Z := u32 ((nbytes + sizeof_Header - 1) / sizeof_Header + 1).

(** Take [nunits] off the block at [p], whose size is [psz]: all of it, or its
    tail end; the [Header *] to return. *)
Definition carve (prevp p psz n : Z) (m : heap) : U (Z * heap) :=
  x ← (if psz =? n then
         pn ← ldptr m p;
         mret (p, stptr prevp pn m)
       else
         let m := stsize p (psz - n) m in
         psz' ← ldsize m p;
         let p := hadd p psz' in
         mret (p, stsize p n m));
  let '(p, m) := (x : Z * heap) in
  mret (p, m <| freep := prevp |>).

(** The body of the [for] loop of malloc(), on [(m, prevp, p)]. *)
Definition malloc_turn (fuel : nat) (n : Z) (st : heap * Z * Z) : U (heap * Z * Z + Z * heap) :=
  let '(m, prevp, p) := st in
  psz ← ldsize m p;
  if n <=? psz then
    x ← carve prevp p psz n m;
    let '(p, m) := (x : Z * heap) in
    mret (inr (hadd p 1, m))
  else if p =? freep m then
    x ← morecore fuel n m;
    let '(p, m) := (x : Z * heap) in
    if p =? 0 then mret (inr (0, m))
    else nx ← ldptr m p; mret (inl (m, p, nx))
  else nx ← ldptr m p; mret (inl (m, p, nx)).

(** [base] is the address of the static header. *)
Definition malloc (base : Z) (fuel : nat) (nbytes : Z) (m : heap) : U (Z * heap) :=
  let n := nunits nbytes in
  let m := if freep m =? 0 then stsize base 0 (stptr base base m <| freep := base |>) else m in
  let prevp := freep m in
  p ← ldptr m prevp;
  uloop fuel (malloc_turn fuel n) (m, prevp, p).

(** A process starts with an empty heap. *)
Definition heap0 : heap := mkheap ∅ ∅ 0.

(** A kernel that serves sbrk() from one break up to [limit], as sys_sbrk() does for
    a request it can satisfy. *)
Definition brk_serve (limit : Z) (c : ucall) (brk : Z) : reply c * Z :=
  match c with
  | SSbrk n _ => if (0 <? n) && (brk + n <=? limit) then (brk, brk + n) else (-1, brk)
  | c => (fail_reply c, brk)
  end.

(** Two blocks are carved from the end of the memory got; freeing both joins them
    again. *)
Definition malloc_demo : U (Z * Z * Z * heap) :=
  x ← malloc 4000 10 100 heap0; let '(a, m) := (x : Z * heap) in
  x ← malloc 4000 10 50 m; let '(b, m) := (x : Z * heap) in
  m ← free 10 a m;
  x ← malloc 4000 10 8 m; let '(c, m) := (x : Z * heap) in
  m ← free 10 b m; m ← free 10 c m;
  mret (a, b, c, m).

Example malloc_demo_runs :
  match run (brk_serve (2 ^ 20)) malloc_demo 8192 with
  | Done (a, b, c, m) brk =>
      (a, b, c, brk, freep m, h_ptr m !! 4000, h_ptr m !! 8192, h_size m !! 8192)
      = (8192 + 4096 * 16 - 112, 8192 + 4096 * 16 - 192, 8192 + 4096 * 16 - 16, 8192 + 4096 * 16,
         8192, Some 8192, Some 4000, Some 4096)
  | _ => False
  end.
Proof. vm_compute. reflexivity. Qed.
