(* ===== verification/MallocSpec.v ===== *)
(** The allocator of user/umalloc.c keeps its promise: the blocks malloc() has
    given out are disjoint from each other and from the free list, and
    everything freed can be given out again.

    The free list is described by the list of its blocks (address, size in units)
    in the order of their addresses, starting with the static [base] of size 0;
    [ring] ties the list to the pointers in memory.  The blocks are kept apart
    by at least one unit ([sep]): free() has joined the ones that touch. *)
From stdpp Require Import base gmap list.
From Stdlib Require Import ZArith Lia ZifyBool.
From S2P Require Import Prelude Fcntl Memory User Ulib Umalloc.

Local Open Scope Z_scope.
Local Open Scope record_scope.

Notation block := (Z * Z)%type.
(** The first address after a block *)
Notation bend x := (x.1 + 16 * x.2).

(** ** Ordered pairs of a list *)

Lemma FOP_app {A} (R : A -> A -> Prop) l1 l2 :
  ForallOrdPairs R (l1 ++ l2) <->
  ForallOrdPairs R l1 /\ ForallOrdPairs R l2 /\ Forall (fun x => Forall (R x) l2) l1.
Proof.
  induction l1 as [| x l1 IH]; simpl.
  - split; [intros; split_and!; [constructor | done | constructor] | by intros (_ & ? & _)].
  - split.
    + inversion 1 as [| ? ? Hx Hl]; subst; apply IH in Hl as (? & ? & ?).
      apply Forall_app in Hx as [? ?]; split_and!; [constructor | | constructor]; done.
    + intros (H1 & H2 & H3); inversion H1; inversion H3; subst; constructor; [by apply Forall_app | by apply IH].
Qed.

Lemma FOP_cons {A} (R : A -> A -> Prop) x l :
  ForallOrdPairs R (x :: l) <-> Forall (R x) l /\ ForallOrdPairs R l.
Proof. split; [by inversion 1 | intros []; by constructor]. Qed.

(** ** The ring of pointers *)

Definition first (l : list block) (e : Z) : Z := match l with [] => e | x :: _ => x.1 end.

(** The nodes of [l] are linked in this order, the last one to [e]. *)
Fixpoint hchain (m : heap) (l : list block) (e : Z) : Prop :=
  match l with
  | [] => True
  | x :: l' => h_ptr m !! x.1 = Some (first l' e) /\ h_size m !! x.1 = Some x.2 /\ hchain m l' e
  end.

Definition ring (m : heap) (l : list block) : Prop := hchain m l (first l 0).

Lemma first_app l1 l2 e : first (l1 ++ l2) e = first l1 (first l2 e).
Proof. by destruct l1. Qed.

Lemma hchain_app m l1 l2 e : hchain m (l1 ++ l2) e <-> hchain m l1 (first l2 e) /\ hchain m l2 e.
Proof. induction l1 as [| x l1 IH]; simpl; [naive_solver |]; rewrite IH, first_app; naive_solver. Qed.

(** What a change of memory elsewhere leaves alone *)
Lemma hchain_frame m m' l e :
  (forall a, a ∈ l.*1 -> h_ptr m' !! a = h_ptr m !! a /\ h_size m' !! a = h_size m !! a) ->
  hchain m l e -> hchain m' l e.
Proof.
  intros Hf; induction l as [| x l IH]; simpl; [done |]; intros (Hp & Hs & Hc).
  destruct (Hf x.1 ltac:(left)) as [-> ->]; split_and!; [done.. |].
  apply IH; [intros a Ha; apply Hf; by right | done].
Qed.

Lemma ring_rot m l1 l2 : ring m (l1 ++ l2) -> ring m (l2 ++ l1).
Proof.
  unfold ring; rewrite !hchain_app, !first_app; intros [H1 H2].
  destruct l1 as [| x l1], l2 as [| y l2]; simpl in *; naive_solver.
Qed.

Lemma hchain_elem m l e x : hchain m l e -> x ∈ l ->
  exists l1 l2, l = l1 ++ x :: l2 /\ h_ptr m !! x.1 = Some (first l2 e) /\ h_size m !! x.1 = Some x.2.
Proof.
  intros Hc (l1 & l2 & ->)%list_elem_of_split; exists l1, l2.
  apply hchain_app in Hc as [_ (? & ? & _)]; done.
Qed.

(** The node that points to [p], which is not the first one, stands before it. *)
Lemma ring_prev m l q p :
  ring m l -> q ∈ l.*1 -> h_ptr m !! q = Some p -> p <> first l 0 ->
  exists l1 qs ps l2, l = l1 ++ (q, qs) :: (p, ps) :: l2.
Proof.
  intros Hr ([q' qs] & -> & Hq)%list_elem_of_fmap Hp Hne; simpl in *.
  destruct (hchain_elem _ _ _ _ Hr Hq) as (l1 & l2 & -> & Hp' & _); simpl in Hp'.
  destruct l2 as [| [p' ps] l2]; simpl in *; simplify_eq.
  by exists l1, qs, ps, l2.
Qed.

(** Memory accesses on a run *)
Section Run.
Context {W : Type} {h : forall c, W -> reply c * W}.

Lemma run_ldptr {B} m p v (f : Z -> U B) w :
  h_ptr m !! p = Some v -> run h (ldptr m p ≫= f) w = run h (f v) w.
Proof. unfold ldptr; by intros ->. Qed.
Lemma run_ldsize {B} m p v (f : Z -> U B) w :
  h_size m !! p = Some v -> run h (ldsize m p ≫= f) w = run h (f v) w.
Proof. unfold ldsize; by intros ->. Qed.
End Run.

(** ** The order of the blocks *)

Definition sep : list block -> Prop := ForallOrdPairs (fun x y => bend x < y.1).
Definition disj (x y : block) : Prop := bend x <= y.1 \/ bend y <= x.1.

(** Two blocks become one where they touch. *)
Definition join (x : block) (l : list block) : list block :=
  match l with
  | y :: l' => if bend x =? y.1 then (x.1, x.2 + y.2) :: l' else x :: l
  | [] => [x]
  end.

Definition units (l : list block) : Z := foldr (fun x n => x.2 + n) 0 l.

Lemma units_app l1 l2 : units (l1 ++ l2) = units l1 + units l2.
Proof. induction l1; simpl; lia. Qed.

Lemma units_join x l : units (join x l) = x.2 + units l.
Proof. destruct l as [| y l]; [done |]; simpl; destruct (_ =? _); simpl; lia. Qed.

Lemma first_join x l e : first (join x l) e = x.1.
Proof. destruct l as [| y l]; [done |]; simpl; by destruct (_ =? _). Qed.

Lemma join_forall (Q : block -> Prop) x l :
  (forall a s t, Q (a, s) -> Q (a + 16 * s, t) -> Q (a, s + t)) ->
  Q x -> Forall Q l -> Forall Q (join x l).
Proof.
  intros Hj Hx Hl; destruct l as [| [b t] l]; simpl; [by repeat constructor |].
  inversion Hl; subst; destruct x as [a s]; simpl in *; destruct (Z.eqb_spec (a + 16 * s) b); subst;
    constructor; auto.
Qed.

Lemma disj_join b : 0 < b.2 ->
  forall a s t, disj b (a, s) -> disj b (a + 16 * s, t) -> disj b (a, s + t).
Proof. unfold disj; simpl; lia. Qed.

Lemma sep_join x l :
  (forall y, y ∈ l -> 0 <= y.2) ->
  Forall (fun y => bend x <= y.1) l -> sep l -> sep (join x l).
Proof.
  intros Hz Hx Hl; destruct l as [| y l]; [by repeat constructor |].
  apply Forall_cons in Hx as [Hxy Hx]; apply FOP_cons in Hl as [Hy Hl].
  pose proof (Hz y ltac:(left)) as Hzy.
  simpl; destruct (Z.eqb_spec (bend x) y.1); apply FOP_cons; split.
  - eapply Forall_impl; [exact Hy |]; simpl; lia.
  - done.
  - apply Forall_cons; split; [lia |]; eapply Forall_impl; [exact Hy |]; simpl; lia.
  - by apply FOP_cons.
Qed.

(** ** free() *)

Definition nonneg (l : list block) : Prop := Forall (fun x => 0 <= x.2) l.

Lemma sep_lt x l : sep (x :: l) -> 0 <= x.2 -> Forall (fun y => x.1 < y.1) l.
Proof. intros [Hx _]%FOP_cons ?; eapply Forall_impl; [exact Hx |]; simpl; lia. Qed.

Section Free.
Context {W : Type} (h : forall c, W -> reply c * W).

Lemma run_free_find m bp p nx w :
  h_ptr m !! p = Some nx ->
  run h (free_find m bp p) w =
  Done (if (p <? bp) && (bp <? nx) || (nx <=? p) && ((p <? bp) || (bp <? nx))
        then inr p else inl nx) w.
Proof.
  intros Hp; unfold free_find; rewrite (run_ldptr _ _ _ _ _ Hp).
  destruct ((p <? bp) && (bp <? nx)); [done |]; by destruct ((nx <=? p) && _).
Qed.

Lemma find_step m bp p nx fuel w :
  h_ptr m !! p = Some nx ->
  run h (uloop (S fuel) (free_find m bp) p) w =
  if (p <? bp) && (bp <? nx) || (nx <=? p) && ((p <? bp) || (bp <? nx))
  then Done p w else run h (uloop fuel (free_find m bp) nx) w.
Proof. intros Hp; rewrite run_uloop, (run_free_find _ _ _ _ _ Hp); by destruct (_ || _). Qed.

(** Going up from a node at or before the place of [bp] *)
Lemma find_up m bp l1 p ps l2 e fuel w :
  hchain m (l1 ++ (p, ps) :: l2) e -> sep (l1 ++ (p, ps) :: l2) -> nonneg (l1 ++ (p, ps) :: l2) ->
  e <= p -> p < bp -> Forall (fun y => bp < y.1) l2 -> (length l1 < fuel)%nat ->
  run h (uloop fuel (free_find m bp) (first (l1 ++ (p, ps) :: l2) e)) w = Done p w.
Proof.
  intros Hc Hs Hn He Hp Hl2; revert fuel; induction l1 as [| x l1 IH]; intros [| fuel] Hf; simpl in Hf; try lia.
  - destruct Hc as (Hnx & _ & _); cbn [app first fst]; rewrite (find_step _ _ _ _ _ _ Hnx).
    destruct l2 as [| y l2]; simpl; [| apply Forall_cons in Hl2 as [Hy _]];
      match goal with |- (if ?b then _ else _) = _ => replace b with true by lia end; done.
  - apply Forall_cons in Hn as [Hx Hn].
    pose proof (sep_lt _ _ Hs Hx) as Hlt; apply FOP_cons in Hs as [_ Hs].
    destruct Hc as (Hnx & _ & Hc); cbn [app first fst]; rewrite (find_step _ _ _ _ _ _ Hnx).
    assert (x.1 < first (l1 ++ (p, ps) :: l2) e <= p).
    { destruct l1 as [| y l1]; simpl in *; [apply Forall_cons in Hlt as [? _]; simpl in *; lia |].
      apply Forall_cons in Hlt as [? _]; apply Forall_cons in Hn as [Hy _].
      apply sep_lt, Forall_app in Hs as [_ [? _]%Forall_cons]; simpl in *; [lia | done]. }
    match goal with |- (if ?b then _ else _) = _ => replace b with false by lia end.
    apply IH; try done; lia.
Qed.

(** Going round from a node after it *)
Lemma find_round m bp l e fuel w :
  hchain m l e -> sep l -> nonneg l -> e < bp -> Forall (fun y => bp < y.1) l ->
  (length l <= fuel)%nat ->
  run h (uloop fuel (free_find m bp) (first l e)) w =
  run h (uloop (fuel - length l) (free_find m bp) e) w.
Proof.
  intros Hc Hs Hn He Hl; revert fuel; induction l as [| x l IH]; intros [| fuel] Hf; simpl in Hf; try lia; try done.
  apply Forall_cons in Hn as [Hx Hn]; apply Forall_cons in Hl as [Hbx Hl].
  pose proof (sep_lt _ _ Hs Hx) as Hlt; apply FOP_cons in Hs as [_ Hs].
  destruct Hc as (Hnx & _ & Hc); cbn [first]; rewrite (find_step _ _ _ _ _ _ Hnx).
  match goal with |- (if ?b then _ else _) = _ => replace b with false end.
  - apply IH; try done; lia.
  - destruct l; simpl; [lia |]; apply Forall_cons in Hlt as [? _]; apply Forall_cons in Hl as [? _]; lia.
Qed.

Lemma find_spec m bp l1 p ps l2 fuel w :
  let l := l1 ++ (p, ps) :: l2 in
  ring m l -> sep l -> nonneg l -> freep m ∈ l.*1 -> p < bp -> Forall (fun y => bp < y.1) l2 ->
  (length l <= fuel)%nat ->
  run h (uloop fuel (free_find m bp) (freep m)) w = Done p w.
Proof.
  intros l Hr Hs Hn Hf Hp Hl2 Hfuel; unfold ring in Hr.
  set (e := first l 0) in *.
  assert (He : e <= p).
  { unfold e, l in *; destruct l1 as [| x l1]; simpl in *; [lia |].
    apply Forall_cons in Hn as [Hx _]; apply sep_lt, Forall_app in Hs as [_ [? _]%Forall_cons]; simpl in *; lia. }
  apply list_elem_of_fmap in Hf as (x & -> & (a & b & Hab)%list_elem_of_split).
  assert (Hcase : (exists c, l1 = a ++ c /\ x :: b = c ++ (p, ps) :: l2) \/
                  (exists c, l2 = c ++ x :: b)).
  { unfold l in Hab; apply app_eq_inv in Hab as [(c & -> & Hc) | (c & -> & Hc)]; [by left; exists c |].
    destruct c as [| y c]; [left; exists []; by rewrite !app_nil_r | right; exists c; by injection Hc as _ ->]. }
  destruct Hcase as [(c & -> & Hc) | (c & ->)].
  - replace x.1 with (first (c ++ (p, ps) :: l2) e) by by rewrite <- Hc.
    unfold l in Hr, Hs, Hn; rewrite <- (assoc_L (++)) in Hr, Hs, Hn.
    apply hchain_app in Hr as [_ Hr]; apply FOP_app in Hs as (_ & Hs & _); apply Forall_app in Hn as [_ Hn].
    apply find_up; try done; unfold l in Hfuel; rewrite !length_app in Hfuel; simpl in Hfuel; lia.
  - assert (Hlen : (length l1 + 1 + length c + length (x :: b) <= fuel)%nat)
      by (unfold l in Hfuel; rewrite !length_app in Hfuel; simpl in *; rewrite length_app in Hfuel; simpl in *; lia).
    pose proof Hr as Hr'; unfold l in Hr'; apply hchain_app in Hr' as [_ (_ & _ & Hr2)].
    apply hchain_app in Hr2 as [_ Hr2].
    pose proof Hs as Hs'; unfold l in Hs'; apply FOP_app in Hs' as (_ & Hs' & _).
    apply FOP_cons in Hs' as [_ Hs']; apply FOP_app in Hs' as (_ & Hs' & _).
    pose proof Hn as Hn'; unfold l in Hn'; apply Forall_app in Hn' as [_ Hn'].
    apply Forall_cons in Hn' as [_ Hn']; apply Forall_app in Hn' as [_ Hn'].
    pose proof Hl2 as Hl2'; apply Forall_app in Hl2' as [_ Hl2'].
    change x.1 with (first (x :: b) e); rewrite find_round; try done; [| lia | lia].
    assert (E : first (l1 ++ (p, ps) :: c ++ x :: b) e = e) by (unfold e, l; by destruct l1).
    rewrite <- E at 1; apply find_up; try done; lia.
Qed.

Definition same_but (q : Z) (m m' : heap) : Prop :=
  freep m' = freep m /\
  forall a, a <> q -> h_ptr m' !! a = h_ptr m !! a /\ h_size m' !! a = h_size m !! a.

Lemma attach_run q qs l m e w :
  hchain m l e -> h_size m !! q = Some qs -> q ∉ l.*1 ->
  (l = [] -> q + 16 * qs <> e) -> (forall y l', l = y :: l' -> 0 <= qs + y.2 < 2 ^ 32) ->
  exists m', run h (attach q (first l e) m) w = Done m' w /\
             hchain m' (join (q, qs) l) e /\ same_but q m m'.
Proof.
  intros Hc Hq Hni He Hsz; unfold attach; rewrite (run_ldsize _ _ _ _ _ Hq).
  unfold hadd, sizeof_Header; rewrite (Z.mul_comm qs).
  destruct l as [| y l]; cbn [first join]; simpl fst; simpl snd.
  - rewrite (proj2 (Z.eqb_neq _ _)) by auto; eexists; split; [done |]; split; [split_and! |].
    + simpl; by rewrite lookup_insert_eq.
    + done.
    + done.
    + split; [done |]; intros a Ha; simpl; by rewrite lookup_insert_ne by done.
  - destruct Hc as (Hp & Hs & Hc); destruct (Z.eqb_spec (q + 16 * qs) y.1) as [Hy | Hy].
    + rewrite (run_ldsize _ _ _ _ _ Hs), (run_ldptr _ _ _ _ _ Hp).
      specialize (Hsz _ _ eq_refl); eexists; split; [done |].
      assert (Hb : same_but q m (stptr q (first l e) (stsize q (qs + y.2) m))).
      { split; [done |]; intros a Ha; simpl; by rewrite !lookup_insert_ne by done. }
      split; [| done]; split_and!; simpl; [by rewrite lookup_insert_eq | rewrite lookup_insert_eq; by rewrite u32_small |].
      eapply hchain_frame; [| exact Hc]; intros a Ha; apply Hb; intros ->; apply Hni; by right.
    + eexists; split; [done |].
      assert (Hb : same_but q m (stptr q y.1 m)).
      { split; [done |]; intros a Ha; simpl; by rewrite !lookup_insert_ne by done. }
      split; [| done]; cbn [hchain first fst snd]; split; [simpl; by rewrite lookup_insert_eq | split; [done |]].
      apply (hchain_frame m _ (y :: l)); [| by split_and!]; intros a Ha; apply Hb; by intros ->.
Qed.

Lemma free_run m bp bs l1 p ps l2 fuel w :
  let l := l1 ++ (p, ps) :: l2 in
  ring m l -> sep l -> nonneg l -> freep m ∈ l.*1 -> p < bp -> 0 < bs ->
  Forall (fun y => bp + 16 * bs <= y.1 /\ bend y - first l 0 < 16 * 2 ^ 32) l2 ->
  h_size m !! bp = Some bs -> bp + 16 * bs - first l 0 < 16 * 2 ^ 32 ->
  p + 16 * ps <= bp -> (length l <= fuel)%nat ->
  exists m', run h (free fuel (bp + 16) m) w = Done m' w /\
    ring m' (l1 ++ join (p, ps) (join (bp, bs) l2)) /\ freep m' = p /\
    (forall a, a ∉ l.*1 -> a <> bp -> h_size m' !! a = h_size m !! a).
Proof.
  intros l Hr Hs Hn Hf Hp Hbs Hl2 Hb Hbe Hpe Hfuel.
  pose proof Hr as Hr'; apply hchain_app in Hr' as [Hc1 (Hnx & Hps & Hc2)]; cbn [first fst snd] in *.
  set (e := first l 0) in *.
  pose proof Hn as Hn'; apply Forall_app in Hn' as [Hn1 [Hnp Hn2]%Forall_cons].
  pose proof Hs as Hs'; apply FOP_app in Hs' as (_ & _ & Hs1).
  assert (H1 : Forall (fun x => x.1 < p) l1).
  { apply Forall_forall; intros x Hx; rewrite Forall_forall in Hs1, Hn1.
    pose proof (Hs1 _ Hx) as [? _]%Forall_cons; pose proof (Hn1 _ Hx); simpl in *; lia. }
  assert (He : e <= p) by (unfold e, l; destruct l1; simpl; [lia | apply Forall_cons in H1 as [? _]; lia]).
  set (k := join (bp, bs) l2).
  assert (Hk : Forall (fun y => bp <= y.1 /\ 0 <= y.2 /\ bend y - e < 16 * 2 ^ 32) k).
  { apply join_forall; simpl; [lia | lia |]; rewrite Forall_forall in *; intros y Hy.
    destruct (Hl2 y Hy); pose proof (Hn2 y Hy); simpl in *; lia. }
  unfold free; replace (hadd (bp + 16) (-1)) with bp by (unfold hadd, sizeof_Header; lia); cbv zeta.
  erewrite run_done by (apply (find_spec m bp l1 p ps l2 fuel w); try done;
    eapply Forall_impl; [exact Hl2 |]; simpl; lia).
  rewrite (run_ldptr _ _ _ _ _ Hnx).
  destruct (attach_run bp bs l2 m e w) as (m1 & Hm1 & Hc1' & _ & Hb1); try done.
  { intros (y & -> & Hy)%list_elem_of_fmap; rewrite Forall_forall in Hl2; apply Hl2 in Hy; lia. }
  { lia. }
  { intros y l' ->; apply Forall_cons in Hl2 as [? _]; apply Forall_cons in Hn2 as [? _]; simpl in *; lia. }
  rewrite (run_done _ _ _ _ _ _ Hm1); fold k in Hc1'.
  destruct (attach_run p ps k m1 e w) as (m2 & Hm2 & Hc2' & _ & Hb2); try done.
  { by rewrite (proj2 (Hb1 p ltac:(lia))). }
  { intros (y & -> & Hy)%list_elem_of_fmap; rewrite Forall_forall in Hk; apply Hk in Hy; lia. }
  { unfold k; destruct l2; simpl; [done | by destruct (_ =? _)]. }
  { intros y l' Hy; rewrite Hy in Hk; apply Forall_cons in Hk as [? _].
    pose proof (first_join (bp, bs) l2 e) as Hfj; fold k in Hfj; rewrite Hy in Hfj; simpl in *; lia. }
  replace (first k e) with bp in Hm2 by (unfold k; by rewrite first_join).
  rewrite (run_done _ _ _ _ _ _ Hm2).
  eexists; split; [done |]; split; [| split; [done |]].
  - unfold ring; rewrite first_app, first_join; cbn [fst].
    replace (first l1 p) with e by (unfold e, l; by destruct l1).
    apply hchain_app; rewrite first_join; split; [| by apply (hchain_frame m2)].
    eapply hchain_frame; [| exact Hc1]; intros a (x & -> & Hx)%list_elem_of_fmap.
    rewrite Forall_forall in H1; apply H1 in Hx; simpl.
    destruct (Hb2 x.1 ltac:(lia)) as [-> ->]; apply Hb1; lia.
  - intros a Ha Hab; assert (a <> p).
    { intros ->; apply Ha; unfold l; rewrite fmap_app; apply elem_of_app; right; left. }
    simpl; rewrite (proj2 (Hb2 a ltac:(done))); by apply Hb1.
Qed.

End Free.

(** ** The invariant *)

(** A block of memory got from the kernel: above the static header, below the
    break. *)
Definition inside (base hi : Z) (x : block) : Prop := 0 < x.2 /\ base + 16 <= x.1 /\ bend x <= hi.

(** [base] :: [free] is the free list, [live] are the blocks malloc() has given out;
    a block's address is that of its header. *)
Record heap_ok (base hi : Z) (m : heap) (free live : list block) : Prop := {
  ho_base : base + 16 <= hi;
  ho_ring : ring m ((base, 0) :: free);
  ho_freep : freep m ∈ ((base, 0) :: free).*1;
  ho_sep : sep ((base, 0) :: free);
  ho_free : Forall (inside base hi) free;
  ho_live : Forall (fun b => inside base hi b /\ h_size m !! b.1 = Some b.2) live;
  ho_apart : Forall (fun b => Forall (disj b) free) live;
  ho_disj : ForallOrdPairs disj live;
}.

(** Where a block that is not in the list belongs *)
Lemma split_at bp x l :
  x.1 < bp -> Forall (fun y => y.1 <> bp) l -> sep (x :: l) -> nonneg (x :: l) ->
  exists l1 y l2, x :: l = l1 ++ y :: l2 /\ y.1 < bp /\ Forall (fun z => bp < z.1) l2.
Proof.
  revert x; induction l as [| y l IH]; intros x Hx Hne Hs Hn.
  - by exists [], x, [].
  - apply Forall_cons in Hne as [Hy Hne]; apply Forall_cons in Hn as [Hnx Hn].
    apply FOP_cons in Hs as [_ Hs]; destruct (decide (y.1 < bp)).
    + destruct (IH y) as (l1 & z & l2 & -> & ? & ?); try done; by exists (x :: l1), z, l2.
    + exists [], x, (y :: l); split_and!; [done.. |]; apply Forall_cons; split; [lia |].
      pose proof Hn as [? _]%Forall_cons; apply sep_lt in Hs; [| done].
      eapply Forall_impl; [exact Hs |]; simpl; lia.
Qed.

Lemma length_join x l : (length (join x l) <= S (length l))%nat.
Proof. destruct l as [| y l]; simpl; [lia |]; destruct (_ =? _); simpl; lia. Qed.

Lemma ok_nonneg base hi m fr live : heap_ok base hi m fr live -> nonneg ((base, 0) :: fr).
Proof.
  intros [_ _ _ _ Hf _ _ _]; apply Forall_cons; split; [done |].
  eapply Forall_impl; [exact Hf |]; intros x [? _]; lia.
Qed.

(** A block is inside the first of a list that starts with it. *)
Lemma join_covers x l : nonneg l -> exists y l', join x l = y :: l' /\ y.1 = x.1 /\ bend x <= bend y.
Proof.
  destruct l as [| y l]; simpl; [intros; by eexists _, _ |]; intros [? _]%Forall_cons.
  destruct (Z.eqb_spec (x.1 + 16 * x.2) y.1); [| by eexists _, _].
  eexists _, _; split; [done |]; simpl; lia.
Qed.

(** The list after a block was put back, seen without its first node *)
Lemma put_back base fr b l1 y l2 :
  (base, 0) :: fr = l1 ++ y :: l2 -> base < b.1 -> nonneg (y :: l2) -> y.1 < b.1 -> bend y <= b.1 ->
  exists fr', l1 ++ join y (join b l2) = (base, 0) :: fr' /\
    (forall Q : block -> Prop, (forall a s t, Q (a, s) -> Q (a + 16 * s, t) -> Q (a, s + t)) ->
       Q b -> Forall Q fr -> Forall Q fr') /\
    units fr' = units fr + b.2 /\ (length fr' <= S (length fr))%nat /\
    (exists x, x ∈ fr' /\ x.1 <= b.1 /\ bend b <= bend x).
Proof.
  intros Hl Hb [Hny Hn]%Forall_cons Hy Hye.
  destruct (join_covers b l2 Hn) as (k & l' & Hk & Hk1 & Hk2).
  pose proof (length_join b l2) as Hlen.
  destruct l1 as [| z l1]; injection Hl as <- ->.
  - assert (E : join (base, 0) (join b l2) = (base, 0) :: join b l2).
    { rewrite Hk; simpl; by rewrite (proj2 (Z.eqb_neq _ _)) by lia. }
    exists (join b l2); split_and!; [done | intros; by apply join_forall | rewrite units_join; lia | done |].
    exists k; rewrite Hk; split; [left | lia].
  - exists (l1 ++ join y (join b l2)); split_and!; [done | | | |].
    + intros Q HQ Qb [? [? ?]%Forall_cons]%Forall_app; apply Forall_app; split; [done |].
      by apply join_forall, join_forall.
    + rewrite !units_app, !units_join; simpl; lia.
    + rewrite !length_app; pose proof (length_join y (join b l2)); simpl; lia.
    + rewrite Hk; simpl; destruct (Z.eqb_spec (y.1 + 16 * y.2) k.1) as [E | E].
      * eexists; split; [apply elem_of_app; right; left |]; simpl; lia.
      * exists k; split; [apply elem_of_app; right; right; left | lia].
Qed.

Lemma put_back_sep b l1 y l2 :
  sep (l1 ++ y :: l2) -> nonneg (y :: l2) -> 0 < b.2 -> bend y <= b.1 ->
  Forall (fun z => bend b <= z.1) l2 -> sep (l1 ++ join y (join b l2)).
Proof.
  intros (H1 & H2 & H12)%FOP_app [Hy Hn]%Forall_cons Hb Hyb Hl2.
  apply FOP_cons in H2 as [_ H2].
  assert (Hbk : sep (join b l2)) by (apply sep_join; [by apply Forall_forall | done..]).
  apply FOP_app; split_and!; [done | apply sep_join |].
  - apply Forall_forall, join_forall; [simpl; lia | lia | done].
  - apply join_forall; [simpl; lia | lia |]; eapply Forall_impl; [exact Hl2 |]; simpl; lia.
  - done.
  - eapply Forall_impl; [exact H12 |]; intros x [Hxy Hx]%Forall_cons.
    apply join_forall; [simpl; lia | done |]; apply join_forall; [simpl; lia | lia | done].
Qed.

Lemma apart_ne b x : 0 < b.2 -> 0 < x.2 -> disj b x -> x.1 <> b.1.
Proof. unfold disj; lia. Qed.

Lemma disj_pick b lv1 lv2 : ForallOrdPairs disj (lv1 ++ b :: lv2) ->
  ForallOrdPairs disj (lv1 ++ lv2) /\ Forall (disj b) (lv1 ++ lv2).
Proof.
  intros (H1 & [Hb H2]%FOP_cons & H12)%FOP_app; split.
  - apply FOP_app; split_and!; [done.. |]; eapply Forall_impl; [exact H12 |]; by intros x [_ ?]%Forall_cons.
  - apply Forall_app; split; [| done].
    eapply Forall_impl; [exact H12 |]; intros x [[? | ?] _]%Forall_cons; [by right | by left].
Qed.

(** The place of a live block in the free list *)
Lemma ok_place base hi m fr b lv1 lv2 :
  heap_ok base hi m fr (lv1 ++ b :: lv2) ->
  exists l1 y l2, (base, 0) :: fr = l1 ++ y :: l2 /\ y.1 < b.1 /\ bend y <= b.1 /\
    Forall (fun z => bend b <= z.1 /\ bend z <= hi) l2.
Proof.
  intros Hok; pose proof (ok_nonneg _ _ _ _ _ Hok) as Hn; destruct Hok as [_ _ _ Hs Hfr Hlv Ha _].
  apply Forall_app in Hlv as [_ [[(Hbs & Hbb & Hbh) _] _]%Forall_cons].
  apply Forall_app in Ha as [_ [Hab _]%Forall_cons].
  assert (Hall : Forall (fun x => disj b x /\ bend x <= hi) ((base, 0) :: fr)).
  { apply Forall_cons; split; [unfold disj; simpl; lia |].
    rewrite Forall_forall in Hab, Hfr |- *; intros x Hx; destruct (Hfr x Hx) as (? & ? & ?); split; [by apply Hab | lia]. }
  destruct (split_at b.1 (base, 0) fr) as (l1 & y & l2 & Hl & Hp & Hl2); try done; [simpl; lia | |].
  { apply Forall_forall; intros x Hx; rewrite Forall_forall in Hab, Hfr.
    apply (apart_ne b); [done | by apply Hfr | by apply Hab]. }
  rewrite Hl in Hall, Hn; apply Forall_app in Hall as [_ [[Hd _] Hall]%Forall_cons].
  apply Forall_app in Hn as [_ [Hny Hn]%Forall_cons].
  exists l1, y, l2; split_and!; try done; [unfold disj in Hd; lia |].
  rewrite Forall_forall in Hl2, Hall, Hn |- *; intros z Hz; destruct (Hall z Hz) as (Hd' & ?).
  pose proof (Hl2 z Hz); pose proof (Hn z Hz); unfold disj in Hd'; simpl in *; lia.
Qed.

Section FreeOk.
Context {W : Type} (h : forall c, W -> reply c * W).

Lemma free_ok base hi m fr b lv1 lv2 fuel w :
  heap_ok base hi m fr (lv1 ++ b :: lv2) -> hi - base < 16 * 2 ^ 32 -> (length fr < fuel)%nat ->
  exists m' fr', run h (free fuel (b.1 + 16) m) w = Done m' w /\
    heap_ok base hi m' fr' (lv1 ++ lv2) /\
    units fr' = units fr + b.2 /\ (length fr' <= S (length fr))%nat /\
    (exists x, x ∈ fr' /\ x.1 <= b.1 /\ bend b <= bend x).
Proof.
  intros Hok Hhi Hfuel; pose proof (ok_nonneg _ _ _ _ _ Hok) as Hn.
  destruct (ok_place _ _ _ _ _ _ _ Hok) as (l1 & [p ps] & l2 & Hl & Hp & Hpe & Hl2).
  destruct Hok as [H0 Hr Hf Hs Hfr Hlv Ha Hd]; destruct b as [bp bs].
  apply disj_pick in Hd as [Hd Hdb].
  rewrite Forall_app, Forall_cons in Hlv, Ha.
  destruct Hlv as (Hlv1 & [Hb Hbz] & Hlv2), Ha as (Ha1 & Hab & Ha2).
  pose proof (conj Hlv1 Hlv2) as Hlv; pose proof (conj Ha1 Ha2) as Ha; rewrite <- Forall_app in Hlv, Ha.
  pose proof Hb as (Hbs & Hbb & Hbh); simpl in Hbs, Hbb, Hbh, Hbz, Hp, Hpe; clear Hlv1 Hlv2 Ha1 Ha2.
  rewrite Hl in Hr, Hf, Hs, Hn; pose proof Hn as [_ Hny]%Forall_app.
  assert (He : first (l1 ++ (p, ps) :: l2) 0 = base) by (rewrite <- Hl; done).
  destruct (free_run h m bp bs l1 p ps l2 fuel w) as (m' & Hrun & Hr' & Hfp & Hsz);
    try done; try (rewrite He; lia).
  { rewrite He; eapply Forall_impl; [exact Hl2 |]; simpl; lia. }
  { rewrite <- Hl; simpl; lia. }
  destruct (put_back base fr (bp, bs) l1 (p, ps) l2) as (fr' & Hfr' & HQ & Hu & Hlen & Hcov); try done;
    [simpl; lia |].
  exists m', fr'; split_and!; try done; split; try done.
  - by rewrite <- Hfr'.
  - rewrite Hfp, <- Hfr', fmap_app; apply elem_of_app; right.
    destruct (join_covers (p, ps) (join (bp, bs) l2)) as (y & k & -> & Hy & _); [| simpl in Hy; rewrite <- Hy; left].
    apply join_forall; simpl; [lia | lia |]; by apply Forall_cons in Hny as [_ ?].
  - rewrite <- Hfr'; apply put_back_sep; try done; eapply Forall_impl; [exact Hl2 |]; simpl; lia.
  - apply HQ; [| done..]; unfold inside; simpl; lia.
  - rewrite Forall_forall in Hlv, Ha, Hdb, Hfr |- *; intros b' Hb'; destruct (Hlv b' Hb') as [Hi <-].
    split; [done |]; apply Hsz; [| apply (apart_ne (bp, bs)); [done | apply Hi | by apply Hdb]].
    rewrite <- Hl; intros [E | (x & Hx1 & Hx)%list_elem_of_fmap]%elem_of_cons; [destruct Hi; simpl in *; lia |].
    pose proof (Ha b' Hb') as Hax; rewrite Forall_forall in Hax.
    apply (apart_ne b' x); [apply Hi | by apply Hfr | by apply Hax | done].
  - rewrite Forall_forall in Hlv, Ha, Hdb |- *; intros b' Hb'; destruct (Hlv b' Hb') as [(? & _) _].
    apply HQ; [by apply disj_join | destruct (Hdb b' Hb'); [by right | by left] | by apply Ha].
Qed.

End FreeOk.

(** ** malloc() *)

(** What is left of a block when [n] units are taken off its end *)
Definition rest (p ps n : Z) : list block := if ps =? n then [] else [(p, ps - n)].

Lemma rest_forall (Q : block -> Prop) p ps n :
  (ps <> n -> Q (p, ps - n)) -> Forall Q (rest p ps n).
Proof. intros HQ; unfold rest; destruct (Z.eqb_spec ps n); constructor; auto. Qed.

Lemma rest_sub (Q : block -> Prop) l1 p ps n l2 :
  (Q (p, ps) -> ps <> n -> Q (p, ps - n)) ->
  Forall Q (l1 ++ (p, ps) :: l2) -> Forall Q (l1 ++ rest p ps n ++ l2).
Proof.
  intros HQ [? [? ?]%Forall_cons]%Forall_app; rewrite !Forall_app; split_and!; [done | | done].
  apply rest_forall; auto.
Qed.

Lemma rest_sep l1 p ps n l2 : 0 < n ->
  sep (l1 ++ (p, ps) :: l2) -> sep (l1 ++ rest p ps n ++ l2).
Proof.
  intros Hn (H1 & [Hp H2]%FOP_cons & H12)%FOP_app; apply FOP_app; split_and!; [done | |].
  - unfold rest; destruct (ps =? n); [done |]; apply FOP_cons; split; [| done].
    eapply Forall_impl; [exact Hp |]; simpl; lia.
  - eapply Forall_impl; [exact H12 |]; intros x [Hx ?]%Forall_cons; apply Forall_app; split; [| done].
    by apply rest_forall.
Qed.

Lemma units_rest p ps n : units (rest p ps n) = ps - n.
Proof. unfold rest; destruct (Z.eqb_spec ps n); simpl; lia. Qed.

(** The invariant once the end of the block at [p] was given out *)
Lemma carve_ok base hi m m' l1 p ps l2 lv n :
  let b := p + 16 * (ps - n) in
  heap_ok base hi m (l1 ++ (p, ps) :: l2) lv -> 0 < n <= ps ->
  ring m' ((base, 0) :: l1 ++ rest p ps n ++ l2) ->
  freep m' ∈ ((base, 0) :: l1 ++ rest p ps n ++ l2).*1 ->
  h_size m' !! b = Some n ->
  (forall a, a <> p -> a <> b -> h_size m' !! a = h_size m !! a) ->
  heap_ok base hi m' (l1 ++ rest p ps n ++ l2) ((b, n) :: lv).
Proof.
  intros b [H0 Hr Hf Hs Hfr Hlv Ha Hd] Hn Hr' Hf' Hb Hsz.
  pose proof Hfr as [_ [(Hps & Hpb & Hph) _]%Forall_cons]%Forall_app; simpl in Hps, Hpb, Hph.
  assert (Hlvp : Forall (fun c => disj c (p, ps)) lv)
    by (eapply Forall_impl; [exact Ha |]; by intros c [_ [? _]%Forall_cons]%Forall_app).
  split; try done.
  - apply (rest_sep ((base, 0) :: l1) p ps n l2); [lia | done].
  - apply rest_sub; [| done]; unfold inside; simpl; lia.
  - apply Forall_cons; split; [unfold inside, b; simpl; repeat split; [lia.. | done] |].
    rewrite Forall_forall in Hlv, Hlvp |- *; intros c Hc; destruct (Hlv c Hc) as [Hi <-].
    split; [done |]; destruct Hi as (? & _ & _); pose proof (Hlvp c Hc) as Hcp; unfold disj in Hcp; simpl in Hcp.
    apply Hsz; unfold b; lia.
  - apply Forall_cons; split.
    + apply FOP_cons in Hs as [_ (_ & [Hp _]%FOP_cons & H12)%FOP_app].
      rewrite !Forall_app; split_and!.
      * eapply Forall_impl; [exact H12 |]; intros x [Hx _]%Forall_cons; right; unfold b; simpl in *; lia.
      * apply rest_forall; intros; right; unfold b; simpl; lia.
      * eapply Forall_impl; [exact Hp |]; intros x Hx; left; unfold b; simpl in *; lia.
    + eapply Forall_impl; [exact Ha |]; intros c Hc; apply rest_sub; [| done]; unfold disj; simpl; lia.
  - apply FOP_cons; split; [| done].
    rewrite Forall_forall in Hlv, Hlvp |- *; intros c Hc; pose proof (Hlvp c Hc) as Hcp.
    destruct (Hlv c Hc) as [(? & _) _]; unfold disj, b in *; simpl in *; lia.
Qed.

Lemma sep_NoDup l : sep l -> nonneg l -> NoDup l.*1.
Proof.
  induction l as [| x l IH]; simpl; [constructor |]; intros Hs [Hx Hn]%Forall_cons.
  pose proof (sep_lt _ _ Hs Hx) as Hlt; apply FOP_cons in Hs as [_ Hs].
  apply NoDup_cons; split; [| by apply IH].
  intros (y & Hy & Hyl)%list_elem_of_fmap; rewrite Forall_forall in Hlt; apply Hlt in Hyl; lia.
Qed.

Lemma ok_NoDup base hi m fr lv : heap_ok base hi m fr lv -> NoDup ((base, 0) :: fr).*1.
Proof. intros Hok; eapply sep_NoDup; [apply Hok | by eapply ok_nonneg]. Qed.

(** The block to take from, and the node before it *)
Lemma ok_prev base hi m fr lv q p ps :
  heap_ok base hi m fr lv -> q ∈ ((base, 0) :: fr).*1 -> h_ptr m !! q = Some p ->
  h_size m !! p = Some ps -> 0 < ps ->
  exists l1 qs l2 l1', fr = l1' ++ (p, ps) :: l2 /\ (forall k, (base, 0) :: l1' ++ k = l1 ++ (q, qs) :: k).
Proof.
  intros [_ Hr _ _ _ _ _ _] Hq Hp Hps Hpos.
  assert (Hne : p <> base) by (intros ->; destruct Hr as (_ & E & _); simpl in E; simplify_eq; lia).
  destruct (ring_prev _ _ _ _ Hr Hq Hp) as (l1 & qs & ps' & l2 & Hl); [done |].
  rewrite Hl in Hr; apply hchain_app in Hr as [_ (_ & _ & _ & E & _)]; simpl in E; rewrite Hps in E; injection E as ->.
  destruct l1 as [| x l1]; injection Hl as Hx ->.
  - exists [], qs, l2, []; by rewrite Hx.
  - exists (x :: l1), qs, l2, (l1 ++ [(q, qs)]); rewrite <- (assoc_L (++)), Hx; split; [done |]; intros k; by rewrite <- (assoc_L (++)).
Qed.

Lemma carve_chain {W} (h : forall c, W -> reply c * W) m l1 q qs p ps l2 e n w :
  let b := p + 16 * (ps - n) in
  let l := l1 ++ (q, qs) :: (p, ps) :: l2 in
  hchain m l e -> NoDup l.*1 -> 0 < n <= ps -> ps < 2 ^ 32 -> (ps <> n -> b ∉ l.*1) ->
  exists m', run h (carve q p ps n m) w = Done (b, m') w /\
    hchain m' (l1 ++ (q, qs) :: rest p ps n ++ l2) e /\ freep m' = q /\
    h_size m' !! b = Some n /\ (forall a, a <> p -> a <> b -> h_size m' !! a = h_size m !! a).
Proof.
  intros b l (Hc1 & Hqn & Hqs & Hpn & Hps & Hc2)%hchain_app Hnd Hn Hp32 Hb; simpl in Hc1, Hqn, Hqs, Hpn, Hps.
  unfold l in Hnd; rewrite fmap_app, NoDup_app in Hnd.
  destruct Hnd as (_ & Hnd1 & [Hq2 [Hp2 _]%NoDup_cons]%NoDup_cons).
  apply not_elem_of_cons in Hq2 as [Hqp Hq2].
  assert (Hin : forall x y, x ∈ l1.*1 -> y ∈ q :: p :: l2.*1 -> x <> y) by (intros x y Hx Hy ->; by apply (Hnd1 y)).
  unfold carve, rest; destruct (Z.eqb_spec ps n) as [-> | Hne].
  - rewrite run_bind, (run_ldptr _ _ _ _ _ Hpn).
    replace b with p by (unfold b; lia); eexists; split; [reflexivity |]; split_and!; try done.
    apply hchain_app; split; [| split_and!]; simpl; [| by rewrite lookup_insert_eq | done |];
      (eapply hchain_frame; [| done]); intros a Ha; (split; [| done]); simpl; apply lookup_insert_ne.
    + intros ->; apply (Hin a a Ha); [left | done].
    + by intros ->.
  - rewrite run_bind; set (m1 := stsize p (ps - n) m).
    assert (Hm1 : h_size m1 !! p = Some (ps - n)) by (simpl; rewrite lookup_insert_eq, u32_small; [done | lia]).
    cbv zeta; rewrite (run_ldsize _ _ _ _ _ Hm1); unfold hadd, sizeof_Header; rewrite (Z.mul_comm (ps - n)); fold b.
    specialize (Hb Hne); unfold l in Hb; rewrite fmap_app in Hb; simpl in Hb.
    rewrite not_elem_of_app, !not_elem_of_cons in Hb; destruct Hb as (Hb1 & Hbq & Hbp & Hb2).
    eexists; split; [reflexivity |]; split_and!; try done.
    + apply hchain_app; split; [| simpl; split_and!]; simpl;
        [| done | by rewrite !lookup_insert_ne by congruence | done | rewrite lookup_insert_ne, lookup_insert_eq, u32_small by (done || lia); done |];
        (eapply hchain_frame; [| done]); intros a Ha; (split; [done |]); simpl; rewrite !lookup_insert_ne; try done; try (by intros ->).
      intros ->; apply (Hin a a Ha); [right; left | done].
    + simpl; rewrite lookup_insert_eq, u32_small; [done | lia].
    + intros a ? ?; simpl; by rewrite !lookup_insert_ne by done.
Qed.

Lemma carve_run {W} (h : forall c, W -> reply c * W) base hi m fr lv q p ps n w :
  heap_ok base hi m fr lv -> q ∈ ((base, 0) :: fr).*1 -> h_ptr m !! q = Some p ->
  h_size m !! p = Some ps -> 0 < n <= ps -> hi - base < 16 * 2 ^ 32 ->
  exists b m' fr', run h (carve q p ps n m) w = Done (b, m') w /\
    heap_ok base hi m' fr' ((b, n) :: lv) /\ units fr' + n = units fr.
Proof.
  intros Hok Hq Hp Hps Hn Hhi; pose proof (ok_NoDup _ _ _ _ _ Hok) as Hnd.
  destruct (ok_prev _ _ _ _ _ _ _ _ Hok Hq Hp Hps) as (l1 & qs & l2 & l1' & -> & Hl); [lia |].
  pose proof (ho_ring _ _ _ _ _ Hok) as Hr; unfold ring in Hr; rewrite Hl in Hr, Hnd.
  pose proof (ho_free _ _ _ _ _ Hok) as [_ [(_ & ? & ?) _]%Forall_cons]%Forall_app; simpl in *.
  assert (Hfst : forall k, first (l1 ++ (q, qs) :: k) 0 = base) by (intros k; by rewrite <- Hl).
  rewrite Hfst in Hr.
  destruct (carve_chain h m l1 q qs p ps l2 base n w) as (m' & Hrun & Hc & Hf & Hb & Hsz); try done; [lia | |].
  { intros Hne; rewrite <- Hl; intros (x & Hx1 & Hx)%list_elem_of_fmap.
    pose proof (ho_sep _ _ _ _ _ Hok) as Hs; change (sep (((base, 0) :: l1') ++ (p, ps) :: l2)) in Hs.
    change (x ∈ ((base, 0) :: l1') ++ (p, ps) :: l2) in Hx.
    pose proof (ok_nonneg _ _ _ _ _ Hok) as Hnn; change (nonneg (((base, 0) :: l1') ++ (p, ps) :: l2)) in Hnn.
    unfold nonneg in Hnn; rewrite Forall_forall in Hnn; pose proof (Hnn _ Hx).
    apply FOP_app in Hs as (_ & [H2 _]%FOP_cons & H12).
    apply elem_of_app in Hx as [Hx | [-> | Hx]%elem_of_cons]; simpl in *; [| lia |].
    - rewrite Forall_forall in H12; apply H12 in Hx; apply Forall_cons in Hx as [? _]; simpl in *; lia.
    - rewrite Forall_forall in H2; apply H2 in Hx; simpl in *; lia. }
  exists (p + 16 * (ps - n)), m', (l1' ++ rest p ps n ++ l2); split; [done |]; split.
  - apply (carve_ok base hi m); try done.
    + unfold ring; by rewrite Hl, Hfst.
    + rewrite Hf, Hl, fmap_app; apply elem_of_app; right; left.
  - rewrite !units_app, units_rest; simpl; lia.
Qed.

(** What the allocator relies on of the kernel: sbrk() fails and changes nothing, or
    returns the old break, up to a limit that keeps block sizes below 2^32
    units (64 GiB). *)
Class Sbrk {W : Type} (h : forall c, W -> reply c * W) := {
  brk : W -> Z;
  brk_limit : Z;
  sbrk_spec : forall w n, 0 < n < 2 ^ 31 ->
    (exists w', h (SSbrk n SBRK_EAGER) w = (-1, w') /\ brk w' = brk w) \/
    (exists w', h (SSbrk n SBRK_EAGER) w = (brk w, w') /\ brk w' = brk w + n /\ brk w' <= brk_limit);
}.
Arguments brk_limit {_} h {_}.

#[export] Program Instance brk_serve_Sbrk limit : Sbrk (brk_serve limit) :=
  {| brk := fun w => w; brk_limit := limit |}.
Next Obligation.
  intros limit w n Hn; simpl; destruct ((0 <? n) && (w + n <=? limit)) eqn:E;
    [right | left]; eexists; (split; [done |]); lia.
Qed.

Section Malloc.
Context {W : Type} (h : forall c, W -> reply c * W) `{!Sbrk h}.
Variable base : Z.
Hypothesis base_pos : 0 < base.
Hypothesis limit_ok : brk_limit h - base < 16 * 2 ^ 32.

Lemma ok_grow hi hi' m fr lv : heap_ok base hi m fr lv -> hi <= hi' -> heap_ok base hi' m fr lv.
Proof.
  intros [H0 Hr Hf Hs Hfr Hlv Ha Hd] Hle; split; try done; [lia | |].
  - eapply Forall_impl; [exact Hfr |]; unfold inside; intros x; lia.
  - eapply Forall_impl; [exact Hlv |]; unfold inside; intros x [? ?]; split; [lia | done].
Qed.

(** Memory above all of the blocks becomes a block. *)
Lemma ok_new hi m fr lv nu :
  heap_ok base hi m fr lv -> 0 < nu < 2 ^ 32 ->
  heap_ok base (hi + 16 * nu) (stsize hi nu m) fr ((hi, nu) :: lv).
Proof.
  intros Hok Hnu; pose proof Hok as [H0 Hr _ _ Hfr Hlv _ _].
  assert (Hlow : forall x, inside base hi x -> x.1 < hi) by (unfold inside; lia).
  apply (ok_grow _ (hi + 16 * nu)) in Hok; [| lia]; destruct Hok as [H0' _ Hf' Hs' Hfr' Hlv' Ha' Hd'].
  split; try done.
  - eapply hchain_frame; [| exact Hr]; intros a Ha; split; [done |]; simpl; apply lookup_insert_ne.
    apply elem_of_cons in Ha as [-> | (x & -> & Hx)%list_elem_of_fmap]; simpl; [lia |].
    rewrite Forall_forall in Hfr; pose proof (Hlow x (Hfr x Hx)); lia.
  - apply Forall_cons; split.
    + split; [unfold inside; simpl; lia |]; simpl; by rewrite lookup_insert_eq, u32_small by lia.
    + rewrite Forall_forall in Hlv, Hlv' |- *; intros b Hb; destruct (Hlv' b Hb) as [? Hs].
      split; [done |]; simpl; rewrite lookup_insert_ne; [done |].
      pose proof (Hlow b (proj1 (Hlv b Hb))); lia.
  - apply Forall_cons; split; [| done].
    eapply Forall_impl; [exact Hfr |]; intros x (? & ? & ?); right; simpl; lia.
  - apply FOP_cons; split; [| done].
    eapply Forall_impl; [exact Hlv |]; intros x [(? & ? & ?) _]; right; simpl; lia.
Qed.

Lemma morecore_ok fuel n m fr lv w :
  heap_ok base (brk w) m fr lv -> 0 < n -> 16 * n < 2 ^ 31 -> (length fr < fuel)%nat ->
  (exists w', run h (morecore fuel n m) w = Done (0, m) w' /\ brk w' = brk w) \/
  (exists m' fr' w', run h (morecore fuel n m) w = Done (freep m', m') w' /\
     heap_ok base (brk w') m' fr' lv /\ units fr' = units fr + Z.max 4096 n /\
     (length fr' <= S (length fr))%nat /\ (exists x, x ∈ fr' /\ n <= x.2) /\
     brk w' = brk w + 16 * Z.max 4096 n /\ brk w' <= brk_limit h).
Proof.
  intros Hok Hn Hn31 Hfuel; unfold morecore.
  replace (if n <? 4096 then 4096 else n) with (Z.max 4096 n) by (destruct (Z.ltb_spec n 4096); lia).
  set (nu := Z.max 4096 n); unfold sizeof_Header; cbv zeta; rewrite i32_small by lia.
  rewrite (Z.mul_comm nu 16); unfold sbrk.
  destruct (sbrk_spec w (16 * nu)) as [(w' & E & Hw) | (w' & E & Hw & Hlim)]; [lia | |].
  - left; exists w'; split; [| done].
    by erewrite run_done by exact (run_call h _ _ _ _ E).
  - right; pose proof (ho_base _ _ _ _ _ Hok).
    destruct (free_ok h base (brk w') (stsize (brk w) nu m) fr (brk w, nu) [] lv fuel w')
      as (m' & fr' & Hrun & Hok' & Hu & Hlen & x & Hx & Hx1 & Hx2); [| lia | done |].
    { rewrite Hw; apply ok_new; [done | lia]. }
    exists m', fr', w'.
    erewrite run_done by exact (run_call h _ _ _ _ E).
    rewrite (proj2 (Z.eqb_neq _ _)) by (unfold SBRK_ERROR; lia).
    replace (hadd (brk w) 1) with (brk w + 16) by (unfold hadd, sizeof_Header; lia).
    rewrite (run_done _ _ _ _ _ _ Hrun); split_and!; try done.
    exists x; split; [done |]; simpl in *; lia.
Qed.

(** malloc() gives out a block of [n] units. *)
Definition given (w : W) (fr lv : list block) (n got : Z) (r : ures (Z * heap) W) : Prop :=
  exists b m' fr', r = Done (b + 16, m') w /\ heap_ok base (brk w) m' fr' ((b, n) :: lv) /\
    units fr' + n = units fr + got.

Lemma turn_fit fuel n m fr lv q p ps w :
  heap_ok base (brk w) m fr lv -> brk w <= brk_limit h ->
  q ∈ ((base, 0) :: fr).*1 -> h_ptr m !! q = Some p -> h_size m !! p = Some ps -> 0 < n <= ps ->
  exists b m' fr', run h (malloc_turn fuel n (m, q, p)) w = Done (inr (b + 16, m')) w /\
    heap_ok base (brk w) m' fr' ((b, n) :: lv) /\ units fr' + n = units fr.
Proof.
  intros Hok Hlim Hq Hp Hps Hn.
  destruct (carve_run h base (brk w) m fr lv q p ps n w) as (b & m' & fr' & Hrun & Hok' & Hu); try done; [lia |].
  exists b, m', fr'; split; [| done]; cbn [malloc_turn]; rewrite (run_ldsize _ _ _ _ _ Hps).
  rewrite (proj2 (Z.leb_le n ps)) by lia; rewrite (run_done _ _ _ _ _ _ Hrun); cbv beta iota.
  by replace (hadd b 1) with (b + 16) by (unfold hadd, sizeof_Header; lia).
Qed.

(** The nodes of [t], which come before the last one scanned, are tried in order. *)
Lemma scan fuel n m fr lv t x e q k w :
  heap_ok base (brk w) m fr lv -> brk w <= brk_limit h -> 0 < n ->
  hchain m (t ++ [x]) e -> (forall y, y ∈ t ++ [x] -> y ∈ (base, 0) :: fr) ->
  x.1 = freep m -> freep m ∉ t.*1 ->
  q ∈ ((base, 0) :: fr).*1 -> h_ptr m !! q = Some (first (t ++ [x]) e) -> (length t <= k)%nat ->
  given w fr lv n 0 (run h (uloop k (malloc_turn fuel n) (m, q, first (t ++ [x]) e)) w) \/
  Forall (fun y => y.2 < n) t /\
  exists q', q' ∈ ((base, 0) :: fr).*1 /\ h_ptr m !! q' = Some x.1 /\
    run h (uloop k (malloc_turn fuel n) (m, q, first (t ++ [x]) e)) w =
    run h (uloop (k - length t) (malloc_turn fuel n) (m, q', x.1)) w.
Proof.
  intros Hok Hlim Hn; revert q k; induction t as [| y t IH]; intros q k Hc Hin Hx Hnt Hq Hqp Hk.
  - right; split; [constructor |]; exists q; split_and!; [done.. |]; simpl; by rewrite Nat.sub_0_r.
  - destruct k as [| k]; simpl in Hk; [lia |]; destruct Hc as (Hyp & Hys & Hc).
    cbn [app first] in Hqp |- *; rewrite run_uloop.
    destruct (Z_le_gt_dec n y.2) as [Hfit | Hno].
    + left; destruct (turn_fit fuel n m fr lv q y.1 y.2 w) as (b & m' & fr' & -> & Hok' & Hu); try done.
      exists b, m', fr'; split_and!; [done.. | lia].
    + cbn [fmap list_fmap] in Hnt; apply not_elem_of_cons in Hnt as [Hny Hnt].
      assert (Hturn : run h (malloc_turn fuel n (m, q, y.1)) w = Done (inl (m, y.1, first (t ++ [x]) e)) w).
      { cbn [malloc_turn]; rewrite (run_ldsize _ _ _ _ _ Hys), (proj2 (Z.leb_gt n y.2)) by lia.
        rewrite (proj2 (Z.eqb_neq _ _)) by done; by rewrite (run_ldptr _ _ _ _ _ Hyp). }
      rewrite Hturn; destruct (IH y.1 k) as [Hg | (Hall & q' & Hq' & Hqp' & Hrun)]; try done.
      * intros z Hz; apply Hin; by right.
      * apply list_elem_of_fmap; exists y; split; [done |]; apply Hin; left.
      * lia.
      * by left.
      * right; split; [constructor; [lia | done] |]; by exists q'.
Qed.

(** The order in which malloc() scans: from the node after [freep] round to it *)
Lemma scan_order hi m fr lv : heap_ok base hi m fr lv ->
  exists t x e, x.1 = freep m /\ hchain m (t ++ [x]) e /\ freep m ∉ t.*1 /\
    h_ptr m !! freep m = Some (first (t ++ [x]) e) /\ t ++ [x] ≡ₚ (base, 0) :: fr.
Proof.
  intros Hok; pose proof (ok_NoDup _ _ _ _ _ Hok) as Hnd.
  destruct Hok as [_ Hr Hf _ _ _ _ _].
  apply list_elem_of_fmap in Hf as (x & Hx & (a & b & Hab)%list_elem_of_split).
  rewrite Hab in Hr, Hnd |- *; apply ring_rot in Hr; destruct Hr as (Hxp & Hxs & Hc).
  exists (b ++ a), x, (first (b ++ a) x.1); split_and!.
  - done.
  - apply hchain_app; split; [done | split_and!; done].
  - rewrite Hx; assert (Hp : a ++ x :: b ≡ₚ x :: b ++ a) by (rewrite (comm (++) a); done).
    rewrite (fmap_Permutation fst _ _ Hp) in Hnd; by apply NoDup_cons in Hnd as [? _].
  - rewrite Hx, Hxp; f_equal; by rewrite !first_app.
  - rewrite (comm (++) _ [x]), (comm (++) a); done.
Qed.

(** Where the node [freep] has been reached, more memory is asked for. *)
Lemma turn_more fuel n m fr lv q ps w :
  heap_ok base (brk w) m fr lv -> 0 < n -> 16 * n < 2 ^ 31 -> (length fr < fuel)%nat ->
  h_size m !! freep m = Some ps -> ps < n ->
  (exists w', run h (malloc_turn fuel n (m, q, freep m)) w = Done (inr (0, m)) w' /\ brk w' = brk w) \/
  (exists m' fr' w' nx, run h (malloc_turn fuel n (m, q, freep m)) w = Done (inl (m', freep m', nx)) w' /\
     h_ptr m' !! freep m' = Some nx /\
     heap_ok base (brk w') m' fr' lv /\ units fr' = units fr + Z.max 4096 n /\
     (length fr' <= S (length fr))%nat /\ (exists x, x ∈ fr' /\ n <= x.2) /\
     brk w' = brk w + 16 * Z.max 4096 n /\ brk w' <= brk_limit h).
Proof.
  intros Hok Hn Hn31 Hfuel Hps Hlt; cbn [malloc_turn].
  rewrite (run_ldsize _ _ _ _ _ Hps), (proj2 (Z.leb_gt n ps)), Z.eqb_refl by lia.
  destruct (morecore_ok fuel n m fr lv w) as [(w' & Hrun & Hw) | (m' & fr' & w' & Hrun & Hok' & Hrest)]; try done.
  - left; exists w'; split; [| done]; by rewrite (run_done _ _ _ _ _ _ Hrun).
  - right; destruct (scan_order _ _ _ _ Hok') as (t & x & e & _ & _ & _ & Hnx & _).
    exists m', fr', w', (first (t ++ [x]) e); split; [| done].
    rewrite (run_done _ _ _ _ _ _ Hrun); cbv beta iota.
    rewrite (proj2 (Z.eqb_neq _ _)); [by rewrite (run_ldptr _ _ _ _ _ Hnx) |].
    destruct Hok' as [_ _ Hf _ Hfr _ _ _].
    apply elem_of_cons in Hf as [-> | (y & -> & Hy)%list_elem_of_fmap]; simpl; [lia |].
    rewrite Forall_forall in Hfr; apply Hfr in Hy as (_ & ? & _); lia.
Qed.

(** The loop, when a block that is large enough is in the list *)
Lemma loop_found fuel n m fr lv k nx w :
  heap_ok base (brk w) m fr lv -> brk w <= brk_limit h -> 0 < n ->
  (exists x, x ∈ fr /\ n <= x.2) -> h_ptr m !! freep m = Some nx -> (length fr < k)%nat ->
  given w fr lv n 0 (run h (uloop k (malloc_turn fuel n) (m, freep m, nx)) w).
Proof.
  intros Hok Hlim Hn (y & Hy & Hfit) Hnx Hk.
  destruct (scan_order _ _ _ _ Hok) as (t & x & e & Hx & Hc & Hnt & Hnx' & Hperm).
  rewrite Hnx in Hnx'; injection Hnx' as ->.
  assert (Hlen : (length t + 1 = S (length fr))%nat)
    by (apply Permutation_length in Hperm; rewrite length_app in Hperm; simpl in Hperm; lia).
  destruct (scan fuel n m fr lv t x e (freep m) k w) as [Hg | (Hall & q & Hq & Hqp & ->)]; try done.
  - intros z; by rewrite Hperm.
  - apply Hok.
  - lia.
  - destruct (k - length t)%nat as [| k'] eqn:Ek; [lia |]; rewrite run_uloop.
    apply hchain_app in Hc as [_ (_ & Hxs & _)].
    assert (Hyx : y ∈ t ++ [x]) by (rewrite Hperm; by right).
    apply elem_of_app in Hyx as [Hyt | ->%list_elem_of_singleton].
    { rewrite Forall_forall in Hall; apply Hall in Hyt; lia. }
    destruct (turn_fit fuel n m fr lv q x.1 x.2 w) as (b & m' & fr' & -> & Hok' & Hu); try done.
    exists b, m', fr'; split_and!; [done.. | lia].
Qed.

Lemma loop_ok fuel n m fr lv nx k w :
  heap_ok base (brk w) m fr lv -> brk w <= brk_limit h -> 0 < n -> 16 * n < 2 ^ 31 ->
  h_ptr m !! freep m = Some nx -> (length fr < fuel)%nat -> (2 * length fr + 3 <= k)%nat ->
  let r := run h (uloop k (malloc_turn fuel n) (m, freep m, nx)) w in
  exists w' got, brk w' = brk w + 16 * got /\ brk w' <= brk_limit h /\ (got = 0 \/ got = Z.max 4096 n) /\
  (given w' fr lv n got r \/
   r = Done (0, m) w' /\ got = 0 /\ Forall (fun x => x.2 < n) fr).
Proof.
  intros Hok Hlim Hn Hn31 Hnx Hfuel Hk r.
  destruct (scan_order _ _ _ _ Hok) as (t & x & e & Hx & Hc & Hnt & Hnx' & Hperm).
  rewrite Hnx in Hnx'; injection Hnx' as ->.
  assert (Hlen : (length t + 1 = S (length fr))%nat)
    by (apply Permutation_length in Hperm; rewrite length_app in Hperm; simpl in Hperm; lia).
  destruct (scan fuel n m fr lv t x e (freep m) k w) as [Hg | (Hall & q & Hq & Hqp & Er)]; try done.
  { intros z; by rewrite Hperm. } { apply Hok. } { lia. }
  { exists w, 0; split_and!; [lia | done | by left | by left]. }
  unfold r; rewrite Er; destruct (k - length t)%nat as [| k'] eqn:Ek; [lia |]; rewrite run_uloop.
  apply hchain_app in Hc as [_ (_ & Hxs & _)].
  destruct (Z_le_gt_dec n x.2) as [Hfit | Hno].
  { exists w, 0; split_and!; [lia | done | by left | left].
    destruct (turn_fit fuel n m fr lv q x.1 x.2 w) as (b & m' & fr' & -> & Hok' & Hu); try done.
    exists b, m', fr'; split_and!; [done.. | lia]. }
  rewrite Hx in Hxs |- *.
  destruct (turn_more fuel n m fr lv q x.2 w) as [(w' & -> & Hw) | (m' & fr' & w' & nx & -> & Hnx' & Hok' & Hu & Hlen' & Hfit & Hw & Hlim')];
    try done; [lia | |].
  - exists w', 0; split_and!; [lia.. | by left | right; split_and!; [done.. |]].
    assert (Forall (fun y => y.2 < n) ((base, 0) :: fr)) as [_ ?]%Forall_cons; [| done].
    rewrite <- Hperm; apply Forall_app; split; [done | repeat constructor; lia].
  - exists w', (Z.max 4096 n); split_and!; [done.. | by right | left].
    destruct (loop_found fuel n m' fr' lv k' nx w') as (b & m2 & fr2 & Hr & Hok2 & Hu2); try done; [lia |].
    exists b, m2, fr2; split_and!; [done.. | lia].
Qed.

(** The allocator's state: not used yet, or with a free list. *)
Definition alloc_ok (w : W) (m : heap) (fr lv : list block) : Prop :=
  brk w <= brk_limit h /\
  (freep m = 0 /\ fr = [] /\ lv = [] /\ base + 16 <= brk w \/ heap_ok base (brk w) m fr lv).

Lemma init_ok w m : base + 16 <= brk w ->
  heap_ok base (brk w) (stsize base 0 (stptr base base m <| freep := base |>)) [] [].
Proof.
  intros Hb; split; try done; [| left | repeat constructor | constructor].
  split_and!; simpl; [by rewrite lookup_insert_eq | by rewrite lookup_insert_eq | done].
Qed.

Lemma nunits_bounds nbytes : 0 <= nbytes < 2 ^ 32 ->
  0 < nunits nbytes <= 2 ^ 28 + 1 /\ nbytes <= 16 * (nunits nbytes - 1) < nbytes + 16.
Proof.
  intros Hb; unfold nunits, sizeof_Header.
  pose proof (Z.div_mod (nbytes + 16 - 1) 16 ltac:(lia)); pose proof (Z.mod_pos_bound (nbytes + 16 - 1) 16 ltac:(lia)).
  rewrite u32_small by lia; lia.
Qed.

Lemma malloc_ok fuel nbytes m fr lv w :
  alloc_ok w m fr lv -> 0 <= nbytes < 2 ^ 32 -> 16 * nunits nbytes < 2 ^ 31 ->
  (2 * length fr + 3 <= fuel)%nat ->
  let n := nunits nbytes in
  let r := run h (malloc base fuel nbytes m) w in
  exists w' got, brk w' = brk w + 16 * got /\ brk w' <= brk_limit h /\ (got = 0 \/ got = Z.max 4096 n) /\
  (given w' fr lv n got r \/
   exists m', r = Done (0, m') w' /\ heap_ok base (brk w') m' fr lv /\ got = 0 /\ Forall (fun x => x.2 < n) fr).
Proof.
  intros [Hlim Hok] Hnb Hn31 Hfuel n r; destruct (nunits_bounds _ Hnb) as [Hn _]; fold n in Hn, Hn31.
  unfold r, malloc; fold n; cbv zeta.
  set (m0 := if freep m =? 0 then _ else m).
  assert (Hok0 : heap_ok base (brk w) m0 fr lv).
  { destruct Hok as [(Hf & -> & -> & Hb) | Hok].
    - unfold m0; rewrite Hf; by apply init_ok.
    - unfold m0; rewrite (proj2 (Z.eqb_neq _ _)); [done |].
      destruct Hok as [_ _ Hf _ Hfr _ _ _].
      apply elem_of_cons in Hf as [-> | (y & -> & Hy)%list_elem_of_fmap]; simpl; [lia |].
      rewrite Forall_forall in Hfr; apply Hfr in Hy as (_ & ? & _); lia. }
  destruct (scan_order _ _ _ _ Hok0) as (t & x & e & _ & _ & _ & Hnx & _).
  rewrite (run_ldptr _ _ _ _ _ Hnx).
  destruct (loop_ok fuel n m0 fr lv _ fuel w Hok0 Hlim ltac:(lia) Hn31 Hnx ltac:(lia) ltac:(lia))
    as (w' & got & Hw & Hlim' & Hgot & Hr).
  exists w', got; split_and!; try done; destruct Hr as [Hg | (-> & -> & Hall)]; [by left | right].
  exists m0; split_and!; try done; by rewrite Hw, Z.mul_0_r, Z.add_0_r.
Qed.

(** C17: malloc() returns after finitely many turns and never reads a header that was
    not written.  It gives out a block whose payload holds [nbytes] bytes, taken
    from the free list or from the memory it asks the kernel for, which becomes
    part of the list first; or it returns 0, when no free block is large enough
    and the kernel refuses, and the list and the live blocks are what they
    were.  No unit of memory is lost.  The request with its header is below 2^31 bytes, what
    the int of sbrk() can hold. *)
Theorem malloc_spec fuel nbytes m fr lv w :
  alloc_ok w m fr lv -> 0 <= nbytes < 2 ^ 32 -> 16 * nunits nbytes < 2 ^ 31 ->
  (2 * length fr + 3 <= fuel)%nat ->
  exists m' w' fr' got,
    brk w' = brk w + 16 * got /\ (got = 0 \/ got = Z.max 4096 (nunits nbytes)) /\
    ((exists b, run h (malloc base fuel nbytes m) w = Done (b + 16, m') w' /\
        alloc_ok w' m' fr' ((b, nunits nbytes) :: lv) /\
        nbytes <= 16 * (nunits nbytes - 1) /\ units fr' + nunits nbytes = units fr + got) \/
     (run h (malloc base fuel nbytes m) w = Done (0, m') w' /\
        alloc_ok w' m' fr lv /\ got = 0 /\ Forall (fun x => x.2 < nunits nbytes) fr)).
Proof.
  intros Hok Hnb Hn31 Hfuel; destruct (nunits_bounds _ Hnb) as [_ [? _]].
  destruct (malloc_ok fuel nbytes m fr lv w Hok Hnb Hn31 Hfuel)
    as (w' & got & Hw & Hlim & Hgot & [(b & m' & fr' & Hr & Hok' & Hu) | (m' & Hr & Hok' & Hg & Hall)]).
  - exists m', w', fr', got; split_and!; [done.. | left].
    exists b; split_and!; try done; split; [done | by right].
  - exists m', w', fr, got; split_and!; [done.. | right].
    split_and!; try done; split; [done | by right].
Qed.

(** ** A program that uses the allocator *)

(** The steps of a process with break state [w], heap [m] and live blocks [lv]: a call
    of malloc() or free(), writes to the payload of its blocks, or a move of the
    break by a call of its own. *)
Inductive client : W * heap * list block -> W * heap * list block -> Prop :=
| client_malloc w m lv nbytes f0 r m' w' :
    0 <= nbytes < 2 ^ 32 -> 16 * nunits nbytes < 2 ^ 31 ->
    (forall f, (f0 <= f)%nat -> run h (malloc base f nbytes m) w = Done (r, m') w') ->
    client (w, m, lv) (w', m', if r =? 0 then lv else (r - 16, nunits nbytes) :: lv)
| client_free w m lv1 b lv2 f0 m' w' :
    (forall f, (f0 <= f)%nat -> run h (free f (b.1 + 16) m) w = Done m' w') ->
    client (w, m, lv1 ++ b :: lv2) (w', m', lv1 ++ lv2)
| client_write w m lv m' :
    freep m' = freep m ->
    (forall a, Forall (fun b => a <= b.1 \/ bend b <= a) lv ->
       h_ptr m' !! a = h_ptr m !! a /\ h_size m' !! a = h_size m !! a) ->
    client (w, m, lv) (w, m', lv)
| client_brk w m lv w' :
    brk w <= brk w' <= brk_limit h -> client (w, m, lv) (w', m, lv).

(** What a process writes in its blocks, the allocator does not see. *)
Lemma write_ok hi m m' fr lv :
  heap_ok base hi m fr lv -> freep m' = freep m ->
  (forall a, Forall (fun b => a <= b.1 \/ bend b <= a) lv ->
     h_ptr m' !! a = h_ptr m !! a /\ h_size m' !! a = h_size m !! a) ->
  heap_ok base hi m' fr lv.
Proof.
  intros [H0 Hr Hf Hs Hfr Hlv Ha Hd] Hfp Hw; split; try done; [| by rewrite Hfp |].
  - eapply hchain_frame; [| exact Hr]; intros a Hin; apply Hw.
    rewrite Forall_forall in Hlv, Ha, Hfr |- *; intros b Hb; destruct (Hlv b Hb) as [(? & ? & ?) _].
    apply elem_of_cons in Hin as [-> | (x & -> & Hx)%list_elem_of_fmap]; simpl; [lia |].
    pose proof (Ha b Hb) as Hax; rewrite Forall_forall in Hax; specialize (Hax x Hx).
    destruct (Hfr x Hx) as (? & _); unfold disj in Hax; lia.
  - rewrite Forall_forall in Hlv |- *; intros b Hb; destruct (Hlv b Hb) as [Hi Hsz]; split; [done |].
    rewrite <- Hsz; apply Hw, Forall_forall; intros c Hc; destruct (Hlv c Hc) as [(? & _) _].
    apply list_elem_of_split in Hb as (l1 & l2 & ->); apply disj_pick in Hd as [_ Hd].
    apply elem_of_app in Hc as [Hc | [-> | Hc]%elem_of_cons]; [| lia |];
      rewrite Forall_forall in Hd; specialize (Hd c ltac:(apply elem_of_app; auto)); destruct Hi; unfold disj in Hd; lia.
Qed.

Definition client_ok (s : W * heap * list block) : Prop :=
  exists fr, alloc_ok s.1.1 s.1.2 fr s.2.

Lemma client_preserves s s' : client s s' -> client_ok s -> client_ok s'.
Proof.
  intros Hst (fr & Hok); destruct Hst as [w m lv nbytes f0 r m' w' Hnb Hn31 Hrun | w m lv1 b lv2 f0 m' w' Hrun | w m lv m' Hf Hw | w m lv w' Hb];
    simpl in Hok.
  - destruct (malloc_ok (f0 + (2 * length fr + 3)) nbytes m fr lv w Hok Hnb Hn31 ltac:(lia))
      as (w2 & got & Hw & Hlim & Hgot & [(b & m2 & fr2 & Hr & Hok2 & Hu) | (m2 & Hr & Hok2 & _)]);
      rewrite Hrun in Hr by lia; injection Hr as -> -> ->.
    + exists fr2; simpl; pose proof (ho_live _ _ _ _ _ Hok2) as [[(_ & ? & _) _] _]%Forall_cons; simpl in *.
      rewrite (proj2 (Z.eqb_neq _ _)) by lia; split; [done | right].
      by replace (b + 16 - 16) with b by lia.
    + exists fr; split; [done | by right].
  - destruct Hok as [Hlim [(_ & _ & Hnil & _) | Hok]]; [by destruct lv1 |].
    destruct (free_ok h base (brk w) m fr b lv1 lv2 (f0 + S (length fr)) w Hok)
      as (m2 & fr2 & Hr & Hok2 & _); [lia.. |].
    rewrite Hrun in Hr by lia; injection Hr as -> ->; exists fr2; split; [done | by right].
  - exists fr; destruct Hok as [Hlim [(? & -> & -> & ?) | Hok]]; (split; [done |]).
    + left; split_and!; [by simpl; rewrite Hf | done..].
    + right; simpl; by eapply write_ok.
  - exists fr; destruct Hok as [Hlim [(? & -> & -> & ?) | Hok]]; (split; [simpl; lia |]).
    + left; simpl; split_and!; [done.. | lia].
    + right; simpl; eapply ok_grow; [exact Hok | lia].
Qed.

(** C19: In every state a process reaches from an empty heap by calls of malloc() and
    free(), by writing anything into its blocks and by moving the break up, the
    blocks it holds lie in the memory it got from the kernel and no two of them
    overlap; and its next malloc(), of less than 2^31 bytes with the header as all requests here, or free() returns. *)
Theorem malloc_safe w0 w m lv :
  base + 16 <= brk w0 <= brk_limit h ->
  rtc client (w0, heap0, []) (w, m, lv) ->
  Forall (inside base (brk w)) lv /\ ForallOrdPairs disj lv /\
  exists f0, forall f, (f0 <= f)%nat ->
    (forall nbytes, 0 <= nbytes < 2 ^ 32 -> 16 * nunits nbytes < 2 ^ 31 ->
       exists r w', run h (malloc base f nbytes m) w = Done r w') /\
    (forall b, b ∈ lv -> exists m', run h (free f (b.1 + 16) m) w = Done m' w).
Proof.
  intros Hb Hrtc.
  assert (Hok : client_ok (w, m, lv)).
  { eapply rtc_ind_r with (P := client_ok); [| intros x y _ Hxy; by apply client_preserves | exact Hrtc].
    exists []; split; [simpl; lia | left; split_and!; try done; simpl; lia]. }
  destruct Hok as (fr & Hok); simpl in Hok; split; [| split].
  - destruct Hok as [_ [(_ & _ & -> & _) | Hok]]; [constructor |].
    eapply Forall_impl; [apply Hok |]; by intros x [? _].
  - destruct Hok as [_ [(_ & _ & -> & _) | Hok]]; [constructor | apply Hok].
  - exists (2 * length fr + 3)%nat; intros f Hf; split.
    + intros nbytes Hnb Hn31; destruct (malloc_ok f nbytes m fr lv w Hok Hnb Hn31 Hf)
        as (w' & got & _ & _ & _ & [(b & m' & fr' & -> & _) | (m' & -> & _)]); by eexists _, _.
    + intros b (lv1 & lv2 & ->)%list_elem_of_split.
      destruct Hok as [Hlim [(_ & _ & Hnil & _) | Hok]]; [by destruct lv1 |].
      destruct (free_ok h base (brk w) m fr b lv1 lv2 f w Hok) as (m' & fr' & -> & _); [lia.. |]; by exists m'.
Qed.

End Malloc.

(** C18: free() puts the block back: the free list covers it again, joined with the
    neighbours it touches, and all the other live blocks stay as they were. *)
Theorem free_spec {W} (h : forall c, W -> reply c * W) base hi m fr b lv1 lv2 fuel w :
  heap_ok base hi m fr (lv1 ++ b :: lv2) -> hi - base < 16 * 2 ^ 32 -> (length fr < fuel)%nat ->
  exists m' fr', run h (free fuel (b.1 + 16) m) w = Done m' w /\
    heap_ok base hi m' fr' (lv1 ++ lv2) /\ units fr' = units fr + b.2 /\
    (exists x, x ∈ fr' /\ x.1 <= b.1 /\ bend b <= bend x).
Proof.
  intros Hok Hhi Hfuel; destruct (free_ok h base hi m fr b lv1 lv2 fuel w Hok Hhi Hfuel)
    as (m' & fr' & ? & ? & ? & _ & ?); by exists m', fr'.
Qed.

(** ** On a concrete heap *)

Definition demo_brk := brk_serve (2 ^ 20).

Lemma malloc_spec_witness :
  alloc_ok demo_brk 4000 8192 heap0 [] [] /\
  exists m' w' fr' got,
    brk (h := demo_brk) w' = brk (h := demo_brk) 8192 + 16 * got /\ (got = 0 \/ got = Z.max 4096 (nunits 100)) /\
    ((exists b, run demo_brk (malloc 4000 3 100 heap0) 8192 = Done (b + 16, m') w' /\
        alloc_ok demo_brk 4000 w' m' fr' ((b, nunits 100) :: []) /\
        100 <= 16 * (nunits 100 - 1) /\ units fr' + nunits 100 = units [] + got) \/
     (run demo_brk (malloc 4000 3 100 heap0) 8192 = Done (0, m') w' /\
        alloc_ok demo_brk 4000 w' m' [] [] /\ got = 0 /\ Forall (fun x => x.2 < nunits 100) ([] : list block))).
Proof.
  assert (Hok : alloc_ok demo_brk 4000 8192 heap0 [] []).
  { split; [vm_compute; done | left; split_and!; try done; vm_compute; done]. }
  split; [exact Hok |].
  assert (H1 : 0 < 4000) by lia.
  assert (H2 : brk_limit demo_brk - 4000 < 16 * 2 ^ 32) by (vm_compute; done).
  assert (H3 : 0 <= 100 < 2 ^ 32) by lia.
  assert (H4 : 16 * nunits 100 < 2 ^ 31) by (vm_compute; done).
  assert (H5 : (2 * @length block [] + 3 <= 3)%nat) by (simpl; lia).
  exact (malloc_spec demo_brk 4000 H1 H2 3 100 heap0 [] [] 8192 Hok H3 H4 H5).
Defined.

Definition demo_heap : heap :=
  match run demo_brk (malloc 4000 3 100 heap0) 8192 with Done (_, m) _ => m | _ => heap0 end.

(** A heap with one free block of 4088 units and one live block of 8 *)
Lemma malloc_safe_witness :
  rtc (client demo_brk 4000) (8192, heap0, []) (73728, demo_heap, [(73600, 8)]) /\
  Forall (inside 4000 73728) [(73600, 8)] /\ ForallOrdPairs disj [(73600, 8)] /\
  exists f0, forall f, (f0 <= f)%nat ->
    (forall nbytes, 0 <= nbytes < 2 ^ 32 -> 16 * nunits nbytes < 2 ^ 31 ->
       exists r w', run demo_brk (malloc 4000 f nbytes demo_heap) 73728 = Done r w') /\
    (forall b', b' ∈ [(73600, 8)] -> exists m', run demo_brk (free f (b'.1 + 16) demo_heap) 73728 = Done m' 73728).
Proof.
  assert (Hst : rtc (client demo_brk 4000) (8192, heap0, []) (73728, demo_heap, [(73600, 8)])).
  { apply rtc_once.
    apply (client_malloc demo_brk 4000 8192 heap0 [] 100 3 73616 demo_heap 73728); [lia | vm_compute; done |].
    intros f Hf; replace f with (3 + (f - 3))%nat by lia; generalize (f - 3)%nat; intros k.
    vm_compute; reflexivity. }
  split; [exact Hst |].
  assert (H1 : 0 < 4000) by lia.
  assert (H2 : brk_limit demo_brk - 4000 < 16 * 2 ^ 32) by (vm_compute; done).
  assert (H3 : 4000 + 16 <= brk (h := demo_brk) 8192 <= brk_limit demo_brk) by (split; vm_compute; done).
  exact (malloc_safe demo_brk 4000 H1 H2 8192 73728 demo_heap [(73600, 8)] H3 Hst).
Defined.

Lemma demo_heap_ok : heap_ok 4000 73728 demo_heap [(8192, 4088)] [(73600, 8)].
Proof.
  split; [lia | | | | | | |].
  - split_and!; vm_compute; done.
  - vm_compute; apply list_elem_of_In; vm_compute; auto.
  - repeat constructor.
  - repeat constructor; simpl; lia.
  - repeat constructor; simpl; try lia; vm_compute; done.
  - do 2 (apply Forall_cons; split; [| constructor]); right; simpl; lia.
  - repeat constructor.
Qed.

Lemma free_spec_witness :
  exists m' fr', run demo_brk (free 2 (73600 + 16) demo_heap) 73728 = Done m' 73728 /\
    heap_ok 4000 73728 m' fr' [] /\ units fr' = 4096 /\
    (exists x : block, x ∈ fr' /\ x.1 <= 73600 /\ 73728 <= bend x).
Proof.
  assert (H1 : 73728 - 4000 < 16 * 2 ^ 32) by lia.
  assert (H2 : (length [(8192, 4088)] < 2)%nat) by (simpl; lia).
  exact (free_spec demo_brk 4000 73728 demo_heap [(8192, 4088)] (73600, 8) [] [] 2 73728 demo_heap_ok H1 H2).
Defined.

(** The request is an [int] for sbrk(): 2^32 - 1 bytes become a request of 16, and
    malloc() returns a block of 2^28 + 1 units with 16 bytes of memory. *)
Theorem malloc_truncates :
  match run demo_brk (malloc 4000 5 (2 ^ 32 - 1) heap0) 8192 with
  | Done (p, m) w => p = 8208 /\ w = 8192 + 16 /\ h_size m !! (p - 16) = Some (2 ^ 28 + 1)
  | _ => False
  end.
Proof. vm_compute; done. Qed.
