(* ===== verification/UProgs.v ===== *)
(** The user programs of user/: the main() of each takes the arguments (the
    program's name first) where the program uses them.

    [fuel] bounds loops whose number of turns the input decides.  A loop that
    never ends (init, and the programs that wait to be killed) runs for [fuel]
    turns. *)
From stdpp Require Import base list strings.
From Stdlib Require Import ZArith Lia ZifyBool Ascii.
From S2P Require Import Prelude Fcntl Memory KPrintf State User Ulib UPrintf.

Local Open Scope Z_scope.

(** A call whose result is not used *)
Definition call (c : ucall) : U unit := _ ← sys c; mret tt.

(** [for(i = 1; i < argc; i++)], where the body's result false is break *)
Fixpoint each (args : list (list Z)) (body : list Z -> U bool) : U unit :=
  match args with
  | [] => mret tt
  | a :: l => go ← body a; if (go : bool) then each l body else mret tt
  end.

(** user/echo.c *)
Fixpoint echo_words (args : list (list Z)) : U unit :=
  match args with
  | [] => mret tt
  | a :: l =>
      _ ← sys (SWrite 1 (take (Z.to_nat (strlen a)) a));
      _ ← sys (SWrite 1 (match l with [] => [10] | _ => lit " " end));
      echo_words l
  end.
Definition echo_main (argv : list (list Z)) : U unit := echo_words (tl argv) ;; UExit 0.

(** user/cat.c *)
Definition cat_turn (fd : Z) (_ : unit) : U (unit + Z) :=
  r ← sys (SRead fd 512);
  let '(n, buf) := (r : Z * list Z) in
  if 0 <? n then
    m ← sys (SWrite 1 buf);
    if negb ((m : Z) =? n) then fprintf 2 "cat: write error\n" [] ;; UExit 1
    else mret (inl tt)
  else mret (inr n).

Definition cat (fuel : nat) (fd : Z) : U unit :=
  n ← uloop fuel (cat_turn fd) tt;
  if (n : Z) <? 0 then fprintf 2 "cat: read error\n" [] ;; UExit 1 else mret tt.

Definition cat_main (fuel : nat) (argv : list (list Z)) : U unit :=
  match argv with
  | [] | [_] => cat fuel 0 ;; UExit 0
  | _ :: files =>
      each files (fun f =>
        fd ← sys (SOpen f O_RDONLY);
        if (fd : Z) <? 0 then fprintf 2 "cat: cannot open %s\n" [VStr (Some f)] ;; UExit 1
        else cat fuel fd ;; _ ← sys (SClose fd); mret true) ;;
      UExit 0
  end.

(** user/wc.c *)
(** [strchr(" \r\t\n\v", c)] *)
Definition wc_blanks : list Z := [32; 13; 9; 10; 11].
Definition wc_blank (c : Z) : bool := if strchr wc_blanks c then true else false.

(** The counters [l], [w], [c] and [inword] *)
Definition wc_counters : Type := Z * Z * Z * bool.

Definition wc_count (st : wc_counters) (x : Z) : wc_counters :=
  let '(l, w, c, inword) := st in
  let c := i32 (c + 1) in
  let l := if x =? 10 then i32 (l + 1) else l in
  if wc_blank x then (l, w, c, false)
  else if negb inword then (l, i32 (w + 1), c, true)
  else (l, w, c, inword).

Definition wc_turn (fd : Z) (st : wc_counters) : U (wc_counters + Z * wc_counters) :=
  r ← sys (SRead fd 512);
  let '(n, buf) := (r : Z * list Z) in
  if 0 <? n then mret (inl (foldl wc_count st buf)) else mret (inr (n, st)).

Definition wc (fuel : nat) (fd : Z) (name : list Z) : U unit :=
  x ← uloop fuel (wc_turn fd) (0, 0, 0, false);
  let '(n, (l, w, c, _)) := (x : Z * wc_counters) in
  if n <? 0 then printf "wc: read error\n" [] ;; UExit 1
  else printf "%d %d %d %s\n" [VInt l; VInt w; VInt c; VStr (Some name)].

Definition wc_main (fuel : nat) (argv : list (list Z)) : U unit :=
  match argv with
  | [] | [_] => wc fuel 0 [] ;; UExit 0
  | _ :: files =>
      each files (fun f =>
        fd ← sys (SOpen f O_RDONLY);
        if (fd : Z) <? 0 then printf "wc: cannot open %s\n" [VStr (Some f)] ;; UExit 1
        else wc fuel fd f ;; _ ← sys (SClose fd); mret true) ;;
      UExit 0
  end.

(** user/ls.c *)
(** The part of [path] after its last slash *)
Definition last_elem (path : list Z) : list Z :=
  foldl (fun p c => if c =? ch "/" then [] else p ++ [c]) [] (cstr path).

(** [buf] is the static array of fmtname(), [DIRSIZ + 1] characters. *)
Definition fmtname (path : list Z) : list Z :=
  let p := last_elem path in
  if DIRSIZ <=? strlen p then p
  else p ++ replicate (Z.to_nat (DIRSIZ - strlen p)) 32.

Definition ls_show (name : list Z) (st : ustat) : U unit :=
  printf "%s %d %d %d\n" [VStr (Some (fmtname name)); VInt (us_type st); VInt (us_ino st); VInt (i32 (us_size st))].

(** One turn of the loop over the entries of the directory [path]: [false] at its end *)
Definition ls_entry (path : list Z) (fd : Z) (_ : unit) : U (unit + unit) :=
  r ← sys (SRead fd 16);
  let '(n, de) := (r : Z * list Z) in
  if negb (n =? 16) then mret (inr tt)
  else if le_bytes (take 2 de) =? 0 then mret (inl tt)
  else
    let buf := cstr path ++ [ch "/"] ++ cstr (take 14 (drop 2 de)) in
    s ← stat buf;
    let '(e, st) := (s : Z * ustat) in
    if e <? 0 then printf "ls: cannot stat %s\n" [VStr (Some buf)] ;; mret (inl tt)
    else ls_show buf st ;; mret (inl tt).

Definition ls (fuel : nat) (path : list Z) : U unit :=
  fd ← sys (SOpen path O_RDONLY);
  if (fd : Z) <? 0 then fprintf 2 "ls: cannot open %s\n" [VStr (Some path)]
  else
    r ← sys (SFstat fd);
    let '(e, st) := (r : Z * ustat) in
    if e <? 0 then
      fprintf 2 "ls: cannot stat %s\n" [VStr (Some path)] ;; call (SClose fd)
    else
      (if (us_type st =? T_DEVICE) || (us_type st =? T_FILE) then ls_show path st
       else if us_type st =? T_DIR then
         if 512 <? strlen path + 1 + DIRSIZ + 1 then printf "ls: path too long\n" []
         else uloop fuel (ls_entry path fd) tt
       else mret tt) ;;
      call (SClose fd).

Definition ls_main (fuel : nat) (argv : list (list Z)) : U unit :=
  match argv with
  | [] | [_] => ls fuel (lit ".") ;; UExit 0
  | _ :: paths => each paths (fun p => ls fuel p ;; mret true) ;; UExit 0
  end.

(** user/kill.c *)
Definition kill_main (argv : list (list Z)) : U unit :=
  match argv with
  | [] | [_] => fprintf 2 "usage: kill pid...\n" [] ;; UExit 1
  | _ :: pids => each pids (fun a => _ ← sys (SKill (atoi a)); mret true) ;; UExit 0
  end.

(** user/ln.c *)
Definition ln_main (argv : list (list Z)) : U unit :=
  match argv with
  | [_; old; new] =>
      r ← sys (SLink old new);
      (if (r : Z) <? 0 then fprintf 2 "link %s %s: failed\n" [VStr (Some old); VStr (Some new)] else mret tt) ;;
      UExit 0
  | _ => fprintf 2 "Usage: ln old new\n" [] ;; UExit 1
  end.

(** user/mkdir.c *)
Definition mkdir_main (argv : list (list Z)) : U unit :=
  match argv with
  | [] | [_] => fprintf 2 "Usage: mkdir files...\n" [] ;; UExit 1
  | _ :: files =>
      each files (fun f =>
        r ← sys (SMkdir f);
        if (r : Z) <? 0 then fprintf 2 "mkdir: %s failed to create\n" [VStr (Some f)] ;; mret false
        else mret true) ;;
      UExit 0
  end.

(** user/rm.c *)
Definition rm_main (argv : list (list Z)) : U unit :=
  match argv with
  | [] | [_] => fprintf 2 "Usage: rm files...\n" [] ;; UExit 1
  | _ :: files =>
      each files (fun f =>
        r ← sys (SUnlink f);
        if (r : Z) <? 0 then fprintf 2 "rm: %s failed to delete\n" [VStr (Some f)] ;; mret false
        else mret true) ;;
      UExit 0
  end.

(** user/zombie.c *)
Definition zombie_main : U unit :=
  pid ← sys SFork;
  (if 0 <? (pid : Z) then call (SPause 5) else mret tt) ;;
  UExit 0.

(** user/init.c.  The inner loop waits for the shell. *)
Definition init_wait (pid : Z) (_ : unit) : U (unit + unit) :=
  r ← sys SWait;
  let '(wpid, _) := (r : Z * Z) in
  if wpid =? pid then mret (inr tt)
  else if wpid <? 0 then printf "init: wait returned an error\n" [] ;; UExit 1
  else mret (inl tt).

Definition init_turn (fuel : nat) (_ : unit) : U (unit + unit) :=
  printf "init: starting sh\n" [] ;;
  pid ← sys SFork;
  if (pid : Z) <? 0 then printf "init: fork failed\n" [] ;; UExit 1
  else if pid =? 0 then
    _ ← sys (SExec (lit "sh") [lit "sh"]);
    printf "init: exec sh failed\n" [] ;;
    UExit 1
  else uloop fuel (init_wait pid) tt ;; mret (inl tt).

Definition init_main (fuel : nat) : U unit :=
  fd ← sys (SOpen (lit "console") O_RDWR);
  (if (fd : Z) <? 0 then
     _ ← sys (SMknod (lit "console") CONSOLE 0);
     call (SOpen (lit "console") O_RDWR)
   else mret tt) ;;
  _ ← sys (SDup 0);
  _ ← sys (SDup 0);
  uloop fuel (init_turn fuel) tt.
