(* ===== verification/UDemos.v ===== *)
(** The test and demonstration programs of user/ that show the added system calls
    (process information, message passing, waitpid) or put load on the file system
    and the process table.  The conventions are those of UProgs.v. *)
From stdpp Require Import base list strings.
From Stdlib Require Import ZArith Lia ZifyBool Ascii.
From S2P Require Import Prelude Fcntl Memory KPrintf State User Ulib UPrintf UProgs.

Local Open Scope Z_scope.

(** [for(;;) pause(1000);] *)
Definition wait_for_kill (fuel : nat) : U unit :=
  uloop fuel (fun _ : unit => _ ← sys (SPause 1000); mret (inl tt)) tt.

(** user/ppid.c *)
Definition ppid_main : U unit :=
  pid ← sys SGetpid;
  ppid ← sys SGetppid;
  printf "My PID: %d\n" [VInt pid] ;;
  printf "My Parent PID: %d\n" [VInt ppid] ;;
  UExit 0.

(** user/forkcount.c: [i] is the loop's counter. *)
Definition forkcount_turn (i : Z) : U (Z + unit) :=
  if negb (i <? 20) then mret (inr tt)
  else
    pid ← sys SFork;
    if (pid : Z) <? 0 then printf "Fork failed at iteration %d\n" [VInt i] ;; mret (inr tt)
    else if pid =? 0 then UExit 0
    else mret (inl (i + 1)).

Definition forkcount_main : U unit :=
  uloop 21 forkcount_turn 0 ;;
  _ ← sys SWait;
  UExit 0.

(** user/forktest.c *)
Definition forktest_N : Z := 1000.

Definition print (s : list Z) : U unit := call (SWrite 1 s).

Definition forktest_fork (n : Z) : U (Z + Z) :=
  if negb (n <? forktest_N) then mret (inr n)
  else
    pid ← sys SFork;
    if (pid : Z) <? 0 then mret (inr n)
    else if pid =? 0 then UExit 0
    else mret (inl (n + 1)).

Definition forktest_wait (n : Z) : U (Z + unit) :=
  if negb (0 <? n) then mret (inr tt)
  else
    r ← sys SWait;
    let '(pid, _) := (r : Z * Z) in
    if pid <? 0 then print (lit "wait stopped early\n") ;; UExit 1
    else mret (inl (n - 1)).

Definition forktest : U unit :=
  print (lit "fork test\n") ;;
  n ← uloop (S (Z.to_nat forktest_N)) forktest_fork 0;
  if (n : Z) =? forktest_N then print (lit "fork claimed to work N times!\n") ;; UExit 1
  else
    uloop (S (Z.to_nat n)) forktest_wait n ;;
    r ← sys SWait;
    let '(pid, _) := (r : Z * Z) in
    if negb (pid =? -1) then print (lit "wait got too many\n") ;; UExit 1
    else print (lit "fork test OK\n").

Definition forktest_main : U unit := forktest ;; UExit 0.

(** user/dorphan.c *)
Definition dorphan_main (fuel : nat) (s : list Z) : U unit :=
  r ← sys (SMkdir (lit "dd"));
  if negb ((r : Z) =? 0) then printf "%s: mkdir dd failed\n" [VStr (Some s)] ;; UExit 1
  else
    r ← sys (SChdir (lit "dd"));
    if negb ((r : Z) =? 0) then printf "%s: chdir dd failed\n" [VStr (Some s)] ;; UExit 1
    else
      r ← sys (SUnlink (lit "../dd"));
      if (r : Z) <? 0 then printf "%s: unlink failed\n" [VStr (Some s)] ;; UExit 1
      else
        printf "wait for kill and reclaim\n" [] ;;
        wait_for_kill fuel.

(** user/forphan.c *)
Definition forphan_main (fuel : nat) (s : list Z) : U unit :=
  let ff := lit "file0" in
  fd ← sys (SOpen ff (Z.lor O_CREATE O_WRONLY));
  if (fd : Z) <? 0 then printf "%s: open failed\n" [VStr (Some s)] ;; UExit 1
  else
    r ← sys (SFstat fd);
    let '(e, st) := (r : Z * ustat) in
    if e <? 0 then fprintf 2 "%s: cannot stat %s\n" [VStr (Some s); VStr (Some (lit "ff"))] ;; UExit 1
    else
      r ← sys (SUnlink ff);
      if (r : Z) <? 0 then printf "%s: unlink failed\n" [VStr (Some s)] ;; UExit 1
      else
        r ← sys (SOpen ff O_RDONLY);
        if negb ((r : Z) =? -1) then printf "%s: open successed\n" [VStr (Some s)] ;; UExit 1
        else
          printf "wait for kill and reclaim %d\n" [VInt (us_ino st)] ;;
          wait_for_kill fuel.

(** user/logstress.c: the child that writes [argv[i]].  The array [buf] has BUFSZ
    characters, the memset() and the writes are for SZ. *)
Definition logstress_BUFSZ : Z := 500.
Definition logstress_SZ : Z := 2000.
Definition logstress_N : Z := 250.

Definition logstress_write (fd : Z) (buf : list Z) (i : Z) : U (Z + unit) :=
  if negb (i <? logstress_N) then mret (inr tt)
  else
    n ← sys (SWrite fd (take (Z.to_nat logstress_SZ) buf));
    if negb ((n : Z) =? logstress_SZ) then printf "write failed %d\n" [VInt n] ;; UExit 1
    else mret (inl (i + 1)).

Definition logstress_child (prog arg : list Z) (i : Z) : U unit :=
  fd ← sys (SOpen arg (Z.lor O_CREATE O_RDWR));
  if (fd : Z) <? 0 then printf "%s: create %s failed\n" [VStr (Some prog); VStr (Some arg)] ;; UExit 1
  else
    buf ← from_option_U (memset (replicate (Z.to_nat logstress_BUFSZ) 0) 0 (ch "0" + i) logstress_SZ);
    uloop (S (Z.to_nat logstress_N)) (logstress_write fd buf) 0 ;;
    UExit 0.

(** The loops of the parent *)
Fixpoint logstress_forks (prog : list Z) (args : list (list Z)) (i : Z) : U unit :=
  match args with
  | [] => mret tt
  | a :: l =>
      pid ← sys SFork;
      if (pid : Z) <? 0 then printf "%s: fork failed\n" [VStr (Some prog)] ;; UExit 1
      else if pid =? 0 then logstress_child prog a i
      else logstress_forks prog l (i + 1)
  end.

Definition logstress_main (argv : list (list Z)) : U Z :=
  let prog := hd [] argv in
  logstress_forks prog (tl argv) 1 ;;
  each (tl argv) (fun _ =>
    r ← sys SWait;
    let '(_, xstatus) := (r : Z * Z) in
    if negb (xstatus =? 0) then UExit xstatus else mret true) ;;
  mret 0.

(** user/stressfs.c *)
Definition stressfs_fork (i : Z) : U (Z + Z) :=
  if negb (i <? 4) then mret (inr i)
  else
    pid ← sys SFork;
    if 0 <? (pid : Z) then mret (inr i) else mret (inl (i + 1)).

Definition stressfs_main : U unit :=
  let data := replicate 512 (ch "a") in
  printf "stressfs starting\n" [] ;;
  i ← uloop 5 stressfs_fork 0;
  printf "write %d\n" [VInt i] ;;
  let path := lit "stressfs" ++ [u8 (ch "0" + i)] in
  fd ← sys (SOpen path (Z.lor O_CREATE O_RDWR));
  ufor_ (seq 0 20) (fun _ => call (SWrite fd data)) ;;
  _ ← sys (SClose fd);
  printf "read\n" [] ;;
  fd ← sys (SOpen path O_RDONLY);
  ufor_ (seq 0 20) (fun _ => call (SRead fd 512)) ;;
  _ ← sys (SClose fd);
  _ ← sys SWait;
  UExit 0.

(** user/proctest.c *)
Definition proctest_main : U unit :=
  count ← sys SGetproccount;
  printf "Active process count: %d\n" [VInt count] ;;
  mypid ← sys SGetpid;
  r ← sys (SGetprocinfo mypid);
  let '(e, info) := (r : Z * uprocinfo) in
  (if e =? 0 then
     printf "procinfo for pid %d:\n" [VInt mypid] ;;
     printf "  name  : %s\n" [VStr (Some (ui_name info))] ;;
     printf "  state : %d\n" [VInt (ui_state info)] ;;
     printf "  size  : %d bytes\n" [VInt (ui_sz info)]
   else printf "getprocinfo failed\n" []) ;;
  r ← sys (SGetprocinfo 9999);
  let '(e, _) := (r : Z * uprocinfo) in
  (if e <? 0 then printf "getprocinfo(9999) correctly returned -1\n" [] else mret tt) ;;
  UExit 0.

(** user/testproc.c; [pids] is an array of 10. *)
Fixpoint testproc_fork (ks : list Z) : U unit :=
  match ks with
  | [] => mret tt
  | i :: l =>
      pid ← sys SFork;
      if (pid : Z) =? 0 then
        _ ← sys (SPause 2);
        me ← sys SGetpid;
        printf "child %d exiting\n" [VInt me] ;;
        UExit (i + 10)
      else testproc_fork l
  end.

Definition testproc_main : U unit :=
  printf "testproc: forking 3 children\n" [] ;;
  testproc_fork [0; 1; 2] ;;
  r ← sys (SGetchildren 10);
  let '(n, pids) := (r : Z * list Z) in
  printf "getchildren returned %d children: " [VInt n] ;;
  ufor_ (take (Z.to_nat n) (take 10 pids)) (fun p => printf "%d " [VInt p]) ;;
  printf "\n" [] ;;
  r ← sys (SGetchildren 10);
  let '(n, pids) := (r : Z * list Z) in
  ufor_ (take (Z.to_nat n) (take 10 pids)) (fun p =>
    w ← sys (SWaitpid p);
    let '(ret, status) := (w : Z * Z) in
    printf "waitpid(%d) returned %d, exit status = %d\n" [VInt p; VInt ret; VInt status]) ;;
  printf "testproc done\n" [] ;;
  UExit 0.

(** user/ipctest.c; [msg] is an array of 64.  [quoted s] is the format that puts a
    string between double quotes after [s]. *)
Definition quoted (s : string) : list Z := lit s ++ [34] ++ lit "%s" ++ [34] ++ lit "\n".

Definition ipctest_child : U unit :=
  ppid ← sys SGetppid;
  me ← sys SGetpid;
  printf "\n[child] PID %d started\n" [VInt me] ;;
  printf "[child] Parent PID: %d\n" [VInt ppid] ;;
  me ← sys SGetpid;
  r ← sys (SGetprocinfo me);
  let '(e, info) := (r : Z * uprocinfo) in
  (if e =? 0 then
     printf "[child] Proc info: name=%s state=%d size=%d bytes\n"
       [VStr (Some (ui_name info)); VInt (ui_state info); VInt (ui_sz info)]
   else mret tt) ;;
  printf "[child] Waiting for parent message...\n" [] ;;
  r ← sys (SIpcRecv 64);
  let '(n, msg) := (r : Z * list Z) in
  if n <? 0 then printf "child: ipc_recv failed\n" [] ;; UExit 1
  else
    vprintf 1 (quoted "[child] Received message: ") [VStr (Some msg)] ;;
    printf "[child] Message length: %d bytes\n" [VInt (strlen msg)] ;;
    printf "[child] Sending reply back to parent...\n" [] ;;
    ppid ← sys SGetppid;
    r ← sys (SIpcSend ppid (lit "reply from child" ++ [0]));
    if (r : Z) <? 0 then printf "child: ipc_send failed\n" [] ;; UExit 1
    else printf "[child] Reply sent successfully\n" [] ;; UExit 0.

Definition ipctest_parent (pid : Z) : U unit :=
  _ ← sys (SPause 10);
  me ← sys SGetpid;
  printf "\n[parent] PID %d spawned child PID %d\n" [VInt me; VInt pid] ;;
  r ← sys (SGetprocinfo pid);
  let '(e, info) := (r : Z * uprocinfo) in
  (if e =? 0 then
     printf "[parent] Child snapshot: name=%s state=%d size=%d bytes\n"
       [VStr (Some (ui_name info)); VInt (ui_state info); VInt (ui_sz info)]
   else mret tt) ;;
  printf "[parent] Sending message to child...\n" [] ;;
  r ← sys (SIpcSend pid (lit "hello from parent" ++ [0]));
  if (r : Z) <? 0 then printf "parent: ipc_send failed\n" [] ;; UExit 1
  else
    printf "[parent] Waiting for reply from child...\n" [] ;;
    r ← sys (SIpcRecv 64);
    let '(n, msg) := (r : Z * list Z) in
    if n <? 0 then printf "parent: ipc_recv failed\n" [] ;; UExit 1
    else
      vprintf 1 (quoted "[parent] Received reply: ") [VStr (Some msg)] ;;
      printf "[parent] Reply length: %d bytes\n" [VInt (strlen msg)] ;;
      _ ← sys SWait;
      printf "\n========================================\n" [] ;;
      printf "IPC test completed successfully\n" [] ;;
      printf "========================================\n" [] ;;
      UExit 0.

Definition ipctest_main : U unit :=
  count ← sys SGetproccount;
  printf "========================================\n" [] ;;
  printf "        xv6 IPC Demonstration\n" [] ;;
  printf "========================================\n" [] ;;
  printf "Active processes before test: %d\n" [VInt count] ;;
  me ← sys SGetpid;
  printf "Parent process PID: %d\n" [VInt me] ;;
  pid ← sys SFork;
  if (pid : Z) <? 0 then printf "fork failed\n" [] ;; UExit 1
  else if pid =? 0 then ipctest_child
  else ipctest_parent pid.
