(* ===== verification/UGrind.v ===== *)
(** user/grind.c: random system calls in parallel, and its generator of random numbers.

    The generator's state [rand_next] belongs to the process: a child starts with a
    copy.  The loops never end; [fuel] bounds their turns. *)
From stdpp Require Import base list strings.
From Stdlib Require Import ZArith Znumtheory Lia ZifyBool Ascii.
From S2P Require Import Prelude Fcntl Memory KPrintf State User Ulib UPrintf UProgs.

Local Open Scope Z_scope.

(** ** Random numbers *)

(** The arithmetic of a [long], which must not overflow: [None] is undefined behaviour. *)
Definition long_ok (x : Z) : option Z := if (- 2 ^ 63 <=? x) && (x <? 2 ^ 63) then Some x else None.

(** do_rand(): the result is the [int] that is returned and the new [*ctx]. *)
Definition do_rand (ctx : Z) : option (Z * Z) :=
  x ← long_ok (ctx mod 0x7ffffffe + 1);
  let hi := Z.quot x 127773 in
  let lo := Z.rem x 127773 in
  a ← long_ok (16807 * lo);
  b ← long_ok (2836 * hi);
  x ← long_ok (a - b);
  x ← (if x <? 0 then long_ok (x + 0x7fffffff) else Some x);
  x ← long_ok (x - 1);
  Some (i32 x, u64 x).

(** rand() on [rand_next] *)
Definition rand (rand_next : Z) : U (Z * Z) := from_option_U (do_rand rand_next).

(** ** go() *)

Definition complain (s : string) (status : Z) : U unit := printf s [] ;; UExit status.
Definition complain2 (s : string) (status : Z) : U unit := fprintf 2 s [] ;; UExit status.

(** [close(open(path, O_CREATE|O_RDWR))] *)
Definition touch (path : string) : U unit :=
  fd ← sys (SOpen (lit path) (Z.lor O_CREATE O_RDWR));
  call (SClose fd).

(** [int pid = fork(); if(pid == 0){ child } else if(pid < 0){ fail }] *)
Definition forking (child : U unit) (fail : U unit) : U Z :=
  pid ← sys SFork;
  (if (pid : Z) =? 0 then child else if pid <? 0 then fail else mret tt) ;;
  mret pid.

Definition fork_failed : U unit := complain "grind: fork failed\n" 1.

(** What wait(&st) leaves in [st]: a wait that fails stores nothing, and the program
    goes on with a variable that was never set. *)
Definition wait_status : U Z :=
  r ← sys SWait;
  let '(pid, st) := (r : Z * Z) in
  if pid <? 0 then UFault else mret st.

(** [dup(a) != b] *)
Definition dup_to (a b : Z) (status : Z) : U unit :=
  d ← sys (SDup a);
  if negb ((d : Z) =? b) then complain2 "grind: dup failed\n" status else mret tt.

(** case 22: echo hi | cat *)
Definition grind_pipeline : U unit :=
  p ← sys SPipe;
  let '(r, (a0, a1)) := (p : Z * (Z * Z)) in
  (if r <? 0 then complain2 "grind: pipe failed\n" 1 else mret tt) ;;
  p ← sys SPipe;
  let '(r, (b0, b1)) := (p : Z * (Z * Z)) in
  (if r <? 0 then complain2 "grind: pipe failed\n" 1 else mret tt) ;;
  forking
    (call (SClose b0) ;; call (SClose b1) ;; call (SClose a0) ;; call (SClose 1) ;;
     dup_to a1 1 1 ;;
     call (SClose a1) ;;
     call (SExec (lit "grindir/../echo") [lit "echo"; lit "hi"]) ;;
     complain2 "grind: echo: not found\n" 2)
    (complain2 "grind: fork failed\n" 3) ;;
  forking
    (call (SClose a1) ;; call (SClose b0) ;; call (SClose 0) ;;
     dup_to a0 0 4 ;;
     call (SClose a0) ;; call (SClose 1) ;;
     dup_to b1 1 5 ;;
     call (SClose b1) ;;
     call (SExec (lit "/cat") [lit "cat"]) ;;
     complain2 "grind: cat: not found\n" 6)
    (complain2 "grind: fork failed\n" 7) ;;
  call (SClose a0) ;; call (SClose a1) ;; call (SClose b1) ;;
  x ← sys (SRead b0 1);
  y ← sys (SRead b0 1);
  z ← sys (SRead b0 1);
  let at0 (r : Z * list Z) := nth 0 r.2 0 in
  let buf := [at0 x; at0 y; at0 z; 0] in
  call (SClose b0) ;;
  st1 ← wait_status;
  st2 ← wait_status;
  if negb (st1 =? 0) || negb (st2 =? 0) || negb (strcmp buf (lit "hi\n" ++ [0]) =? 0) then
    vprintf 1 (lit "grind: exec pipeline failed %d %d " ++ [34] ++ lit "%s" ++ [34] ++ lit "\n")
      [VInt st1; VInt st2; VStr (Some buf)] ;; UExit 1
  else mret tt.

(** case 21 *)
Definition grind_create : U unit :=
  call (SUnlink (lit "c")) ;;
  fd1 ← sys (SOpen (lit "c") (Z.lor O_CREATE O_RDWR));
  if (fd1 : Z) <? 0 then complain "grind: create c failed\n" 1
  else
    w ← sys (SWrite fd1 (lit "x"));
    if negb ((w : Z) =? 1) then complain "grind: write c failed\n" 1
    else
      r ← sys (SFstat fd1);
      let '(e, st) := (r : Z * ustat) in
      if negb (e =? 0) then complain "grind: fstat failed\n" 1
      else if negb (us_size st =? 1) then
        printf "grind: fstat reports wrong size %d\n" [VInt (i32 (us_size st))] ;; UExit 1
      else if 200 <? us_ino st then
        printf "grind: fstat reports crazy i-number %d\n" [VInt (us_ino st)] ;; UExit 1
      else call (SClose fd1) ;; call (SUnlink (lit "c")).

(** case 19 *)
Definition grind_pipe : U unit :=
  p ← sys SPipe;
  let '(r, (f0, f1)) := (p : Z * (Z * Z)) in
  if r <? 0 then complain "grind: pipe failed\n" 1
  else
    forking
      (call SFork ;; call SFork ;;
       w ← sys (SWrite f1 (lit "x"));
       (if negb ((w : Z) =? 1) then printf "grind: pipe write failed\n" [] else mret tt) ;;
       r ← sys (SRead f0 1);
       (if negb ((r : Z * list Z).1 =? 1) then printf "grind: pipe read failed\n" [] else mret tt) ;;
       UExit 0)
      fork_failed ;;
    call (SClose f0) ;; call (SClose f1) ;; call SWait.

(** The file system calls of cases 1 to 6, 9 to 12; the new [fd] *)
Definition grind_files (what fd : Z) : U Z :=
  if what =? 1 then touch "grindir/../a" ;; mret fd
  else if what =? 2 then touch "grindir/../grindir/../b" ;; mret fd
  else if what =? 3 then call (SUnlink (lit "grindir/../a")) ;; mret fd
  else if what =? 4 then
    r ← sys (SChdir (lit "grindir"));
    (if negb ((r : Z) =? 0) then complain "grind: chdir grindir failed\n" 1 else mret tt) ;;
    call (SUnlink (lit "../b")) ;; call (SChdir (lit "/")) ;; mret fd
  else if what =? 5 then call (SClose fd) ;; sys (SOpen (lit "/grindir/../a") (Z.lor O_CREATE O_RDWR))
  else if what =? 6 then call (SClose fd) ;; sys (SOpen (lit "/./grindir/./../b") (Z.lor O_CREATE O_RDWR))
  else if what =? 9 then
    call (SMkdir (lit "grindir/../a")) ;; touch "a/../a/./a" ;; call (SUnlink (lit "a/a")) ;; mret fd
  else if what =? 10 then
    call (SMkdir (lit "/../b")) ;; touch "grindir/../b/b" ;; call (SUnlink (lit "b/b")) ;; mret fd
  else if what =? 11 then
    call (SUnlink (lit "b")) ;; call (SLink (lit "../grindir/./../a") (lit "../b")) ;; mret fd
  else
    call (SUnlink (lit "../grindir/../a")) ;; call (SLink (lit ".././b") (lit "/grindir/../a")) ;; mret fd.

(** The cases 13 to 22, which leave [fd] and [buf] alone *)
Definition grind_procs (what break0 : Z) : U unit :=
  if what =? 13 then forking (UExit 0) fork_failed ;; call SWait
  else if what =? 14 then forking (call SFork ;; call SFork ;; UExit 0) fork_failed ;; call SWait
  else if what =? 15 then _ ← sbrk 6011; mret tt
  else if what =? 16 then
    b ← sbrk 0;
    if break0 <? b then b ← sbrk 0; _ ← sbrk (i32 (- (b - break0))); mret tt else mret tt
  else if what =? 17 then
    pid ← forking (touch "a" ;; UExit 0) fork_failed;
    r ← sys (SChdir (lit "../grindir/.."));
    if negb ((r : Z) =? 0) then complain "grind: chdir failed\n" 1
    else call (SKill pid) ;; call SWait
  else if what =? 18 then
    forking (me ← sys SGetpid; call (SKill me) ;; UExit 0) fork_failed ;; call SWait
  else if what =? 19 then grind_pipe
  else if what =? 20 then
    forking
      (call (SUnlink (lit "a")) ;; call (SMkdir (lit "a")) ;; call (SChdir (lit "a")) ;; call (SUnlink (lit "../a")) ;;
       call (SOpen (lit "x") (Z.lor O_CREATE O_RDWR)) ;; call (SUnlink (lit "x")) ;; UExit 0)
      fork_failed ;;
    call SWait
  else if what =? 21 then grind_create
  else if what =? 22 then grind_pipeline
  else mret tt.

(** One turn on [fd], the static array [buf] of 999 bytes, [iters] and [rand_next] *)
Definition go_turn (which_child : bool) (break0 : Z) (st : Z * list Z * Z * Z) : U (Z * list Z * Z * Z + unit) :=
  let '(fd, buf, iters, rand_next) := st in
  let iters := u64 (iters + 1) in
  (if iters mod 500 =? 0 then call (SWrite 1 (if which_child then lit "B" else lit "A")) else mret tt) ;;
  r ← rand rand_next;
  let '(x, rand_next) := (r : Z * Z) in
  let what := Z.rem x 23 in
  if what =? 7 then call (SWrite fd buf) ;; mret (inl (fd, buf, iters, rand_next))
  else if what =? 8 then
    r ← sys (SRead fd 999);
    let bs := (r : Z * list Z).2 in
    mret (inl (fd, bs ++ drop (length bs) buf, iters, rand_next))
  else if (1 <=? what) && (what <=? 12) then
    fd ← grind_files what fd; mret (inl (fd, buf, iters, rand_next))
  else grind_procs what break0 ;; mret (inl (fd, buf, iters, rand_next)).

Definition go (fuel : nat) (which_child : bool) (rand_next : Z) : U unit :=
  break0 ← sbrk 0;
  call (SMkdir (lit "grindir")) ;;
  r ← sys (SChdir (lit "grindir"));
  if negb ((r : Z) =? 0) then complain "grind: chdir grindir failed\n" 1
  else
    call (SChdir (lit "/")) ;;
    uloop fuel (go_turn which_child break0) (-1, replicate 999 0, 0, rand_next).

Definition iter (fuel : nat) (rand_next : Z) : U unit :=
  call (SUnlink (lit "a")) ;;
  call (SUnlink (lit "b")) ;;
  pid1 ← sys SFork;
  if (pid1 : Z) <? 0 then complain "grind: fork failed\n" 1
  else if pid1 =? 0 then go fuel false (Z.lxor rand_next 31) ;; UExit 0
  else
    pid2 ← sys SFork;
    if (pid2 : Z) <? 0 then complain "grind: fork failed\n" 1
    else if pid2 =? 0 then go fuel true (Z.lxor rand_next 7177) ;; UExit 0
    else
      r ← sys SWait;
      let '(pid, status) := (r : Z * Z) in
      let st1 := if pid <? 0 then -1 else status in
      (if negb (st1 =? 0) then call (SKill pid1) ;; call (SKill pid2) else mret tt) ;;
      call SWait ;;
      UExit 0.

Definition grind_turn (fuel : nat) (rand_next : Z) : U (Z + unit) :=
  pid ← sys SFork;
  (if (pid : Z) =? 0 then iter fuel rand_next ;; UExit 0 else mret tt) ;;
  (if 0 <? pid then call SWait else mret tt) ;;
  call (SPause 20) ;;
  mret (inl (u64 (rand_next + 1))).

Definition grind_main (fuel : nat) : U unit := uloop fuel (grind_turn fuel) 1.

(** ** The generator *)

(** 2^31 - 1 is prime to 7^5, so that the product is not a multiple of it. *)
Lemma park_miller_pos x : 0 < x < 2147483647 -> 0 < (16807 * x) mod 2147483647 < 2147483647.
Proof.
  intros Hx; pose proof (Z.mod_pos_bound (16807 * x) 2147483647 ltac:(lia)).
  enough ((16807 * x) mod 2147483647 <> 0) by lia; intros E; apply Z.mod_divide in E; [| lia].
  apply Gauss in E; [apply Z.divide_pos_le in E; lia | apply Zgcd_1_rel_prime; reflexivity].
Qed.

(** Schrage's decomposition *)
Lemma schrage x :
  0 < x < 2147483647 ->
  let v := 16807 * (x mod 127773) - 2836 * (x / 127773) in
  - 2147483647 < v < 2147483647 /\ (if v <? 0 then v + 2147483647 else v) = (16807 * x) mod 2147483647.
Proof.
  intros Hx v; pose proof (Z.div_mod x 127773 ltac:(lia)); pose proof (Z.mod_pos_bound x 127773 ltac:(lia)).
  pose proof (Z.div_pos x 127773 ltac:(lia) ltac:(lia)).
  assert (Hb : - 2147483647 < v < 2147483647) by (unfold v; lia); split; [done |].
  destruct (Z.ltb_spec v 0); [apply (Z.mod_unique _ _ (x / 127773 - 1)) | apply (Z.mod_unique _ _ (x / 127773))];
    unfold v in *; lia.
Qed.

(** The generator of grind.c computes what its comment says: with x = ctx mod (2^31 - 2) + 1, the
    next state is 7^5 x mod (2^31 - 1), less one, although the code never forms
    that product; it stays in the documented range, and no step of it overflows. *)
Theorem do_rand_spec ctx :
  0 <= ctx < 2 ^ 64 ->
  let y := (7 ^ 5 * (ctx mod (2 ^ 31 - 2) + 1)) mod (2 ^ 31 - 1) - 1 in
  do_rand ctx = Some (y, y) /\ 0 <= y <= 0x7ffffffd.
Proof.
  intros Hc; change (2 ^ 31 - 2) with 2147483646; change (2 ^ 31 - 1) with 2147483647; change (7 ^ 5) with 16807.
  unfold do_rand; pose proof (Z.mod_pos_bound ctx 2147483646 ltac:(lia)) as Hx.
  generalize dependent (ctx mod 2147483646); intros c Hx; set (x := c + 1) in *.
  pose proof (park_miller_pos x ltac:(lia)) as Hy; destruct (schrage x ltac:(lia)) as [Hv Hs].
  assert (Hl : forall z, -4294967296 <= z < 4294967296 -> long_ok z = Some z)
    by (intros z Hz; unfold long_ok; replace (_ && _) with true by lia; done).
  pose proof (Z.mod_pos_bound x 127773 ltac:(lia)); pose proof (Z.div_pos x 127773 ltac:(lia) ltac:(lia)).
  pose proof (Z.div_mod x 127773 ltac:(lia)).
  rewrite (Hl x) by lia; cbn [mbind option_bind]; rewrite Z.quot_div_nonneg, Z.rem_mod_nonneg by lia.
  rewrite (Hl (16807 * _)), (Hl (2836 * _)) by lia; cbn [mbind option_bind]; rewrite Hl by lia; cbn [mbind option_bind].
  set (v := 16807 * (x mod 127773) - 2836 * (x / 127773)) in *.
  assert (Hif : (if v <? 0 then long_ok (v + 2147483647) else Some v) = Some ((16807 * x) mod 2147483647))
    by (rewrite <- Hs; destruct (v <? 0); [apply Hl; lia | done]).
  rewrite Hif; cbn [mbind option_bind]; rewrite Hl by lia; cbn [mbind option_bind].
  rewrite i32_small, u64_small by lia; split; [done | lia].
Qed.

Lemma do_rand_spec_witness : do_rand 1 = Some (33613, 33613) /\ 0 <= 33613 <= 0x7ffffffd.
Proof. exact (do_rand_spec 1 ltac:(lia)). Defined.
