(* ===== verification/UThreads.v ===== *)
(** The programs that show signals and threads: user/testsignals.c, user/threadtest.c and
    user/thread_demo.c.

    A signal handler runs between two instructions of the program, so that the flag it
    sets is not a value the program computes with but a place it reads with
    [SLoad]; the handler is a program of its own that ends in sigreturn().  A thread is a
    process with a copy of the memory, which starts at its function. *)
From stdpp Require Import base list strings.
From Stdlib Require Import ZArith Lia ZifyBool Ascii.
From S2P Require Import Prelude Memory KPrintf State User Ulib UPrintf UProgs.

Local Open Scope Z_scope.

Section Signals.
(** The addresses of the handler and of the flag *)
Context (handler_addr signal_received : Z).

Definition my_handler : U unit :=
  printf "\n>>> HANDLER FIRED: Signal received! <<<\n\n" [] ;;
  call (SStore signal_received 4 1) ;;
  call SSigreturn.

(** [while (signal_received == 0) ;] *)
Definition wait_signal (fuel : nat) : U unit :=
  uloop fuel (fun _ : unit => x ← sys (SLoad signal_received 4); if (x : Z) =? 0 then mret (inl tt) else mret (inr tt)) tt.

Definition testsignals_child (fuel : nat) (signum : Z) : U unit :=
  me ← sys SGetpid;
  printf "Child (PID %d): Registering handler for signal %d\n" [VInt me; VInt signum] ;;
  call (SSignal signum handler_addr) ;;
  me ← sys SGetpid;
  printf "Child (PID %d): Waiting for signal in a loop...\n" [VInt me] ;;
  wait_signal fuel ;;
  me ← sys SGetpid;
  printf "Child (PID %d): Successfully resumed main loop after handling signal!\n" [VInt me] ;;
  UExit 0.

Definition testsignals_main (fuel : nat) : U unit :=
  let signum := 10 in
  printf "Starting signal test...\n" [] ;;
  pid ← sys SFork;
  if (pid : Z) <? 0 then printf "Fork failed\n" [] ;; UExit 1
  else if pid =? 0 then testsignals_child fuel signum
  else
    call (SPause 10) ;;
    printf "Parent: Sending signal %d to child PID %d\n" [VInt signum; VInt pid] ;;
    call (SSigsend pid signum) ;;
    call SWait ;;
    printf "Parent: Child finished. Signal test complete.\n" [] ;;
    UExit 0.

End Signals.

(** [for (volatile int i = 0; i < ticks * 100000; i++) ;] *)
Definition delay (ticks : Z) : U unit := ufor_ (seqZ 0 (ticks * 100000)) (fun _ => mret tt).

(** thread_create(func, arg), where [body] is what the function does with its argument; it does
    not return, since a thread has nothing to return to. *)
Definition thread_create (func arg : Z) (body : U unit) : U Z :=
  r ← sys (SThreadCreate func arg);
  match (r : option Z) with Some pid => mret pid | None => body ;; UFault end.

(** user/threadtest.c *)
Definition thread_func (arg : Z) : U unit :=
  delay 1 ;;
  printf "Child thread: arg = %d\n" [VInt arg] ;;
  delay 2 ;;
  UExit 0.

(** [func] and [parg] are the addresses of thread_func and of [arg]. *)
Definition threadtest_main (func parg : Z) : U unit :=
  let arg := 42 in
  printf "Parent: calling thread_create\n" [] ;;
  pid ← thread_create func parg (thread_func arg);
  if pid <? 0 then printf "thread_create failed\n" [] ;; UExit 1
  else
    delay 1 ;;
    printf "Parent: thread_create returned pid %d\n" [VInt pid] ;;
    delay 1 ;;
    printf "Parent: continuing execution\n" [] ;;
    delay 1 ;;
    call SWait ;;
    printf "Parent: child finished\n" [] ;;
    UExit 0.

(** user/thread_demo.c: struct task *)
Record task := mktask { t_id : Z; t_name : list Z }.

Definition worker_thread (t : task) : U unit :=
  printf "[Thread %d] Starting work on: %s\n" [VInt (t_id t); VStr (Some (t_name t))] ;;
  delay 3 ;;
  printf "[Thread %d] Finished processing: %s\n" [VInt (t_id t); VStr (Some (t_name t))] ;;
  call SThreadExit.

Definition demo_tasks : list task := [mktask 1 (lit "task_A"); mktask 2 (lit "task_B"); mktask 3 (lit "task_C")].

(** [func] and [ptasks] are the addresses of worker_thread and of the array, whose entries
    have 16 bytes. *)
Fixpoint create_threads (func ptasks : Z) (i : Z) (tasks : list task) : U (list Z) :=
  match tasks with
  | [] => mret []
  | t :: tasks' =>
      pid ← thread_create func (ptasks + 16 * i) (worker_thread t);
      if pid <? 0 then printf "Main: Failed to create thread %d\n" [VInt i] ;; UExit 1
      else
        printf "Main: Created thread with PID %d for task %s\n" [VInt pid; VStr (Some (t_name t))] ;;
        delay 1 ;;
        pids ← create_threads func ptasks (i + 1) tasks';
        mret (pid :: pids)
  end.

Fixpoint join_threads (i : Z) (pids : list Z) : U unit :=
  match pids with
  | [] => mret tt
  | pid :: pids' =>
      printf "Main: Waiting for thread %d (PID %d) to complete...\n" [VInt (i + 1); VInt pid] ;;
      call (SThreadJoin pid) ;;
      printf "Main: Thread %d has completed!\n\n" [VInt (i + 1)] ;;
      delay 1 ;;
      join_threads (i + 1) pids'
  end.

Definition thread_demo_main (func ptasks : Z) : U unit :=
  printf "=== Thread Demo: Concurrent Task Processing ===\n\n" [] ;;
  printf "Main: Creating 3 worker threads...\n" [] ;;
  pids ← create_threads func ptasks 0 demo_tasks;
  printf "\nMain: All threads created. Waiting for them to complete...\n" [] ;;
  delay 2 ;;
  join_threads 0 pids ;;
  printf "=== All threads completed successfully ===\n" [] ;;
  printf "Main: Exiting program\n" [] ;;
  UExit 0.
