(* ===== verification/UTestLib.v ===== *)
(** What the tests of user/usertests.c share: the calls with the types of
    user/user.h, the check that ends a test, and the loops.  Every test runs in a process
    of its own, so that the array [buf] is all zeros when it starts. *)
From stdpp Require Import base list strings.
From Stdlib Require Import ZArith Lia ZifyBool Ascii.
From S2P Require Import Prelude Fcntl Memory KPrintf State User Ulib UPrintf UProgs.

Local Open Scope Z_scope.

Definition BUFSZ : Z := (MAXOPBLOCKS + 2) * BSIZE.
Definition buf0 : list Z := replicate (Z.to_nat BUFSZ) 0.

Definition fork : U Z := sys SFork.
Definition wait : U (Z * Z) := sys SWait.
Definition wait0 : U unit := call SWait.
Definition pipe : U (Z * (Z * Z)) := sys SPipe.
Definition read (fd n : Z) : U (Z * list Z) := sys (SRead fd n).
Definition write (fd : Z) (bs : list Z) : U Z := sys (SWrite fd bs).
Definition open (path : list Z) (mode : Z) : U Z := sys (SOpen path mode).
Definition close (fd : Z) : U unit := call (SClose fd).
Definition unlink (path : list Z) : U Z := sys (SUnlink path).
Definition link (old new : list Z) : U Z := sys (SLink old new).
Definition mkdir (path : list Z) : U Z := sys (SMkdir path).
Definition chdir (path : list Z) : U Z := sys (SChdir path).
Definition exec (path : list Z) (argv : list (list Z)) : U Z := sys (SExec path argv).
Definition kill (pid : Z) : U unit := call (SKill pid).
Definition pause (n : Z) : U unit := call (SPause n).
(** An access at an address *)
Definition load (a w : Z) : U Z := sys (SLoad a w).
Definition store (a w v : Z) : U unit := call (SStore a w v).

(** [%s] *)
Definition vs (s : list Z) : varg := VStr (Some s).

(** [if(b){ printf(fmt, ...); exit(1); }] *)
Definition die_if (b : bool) (fmt : string) (ap : list varg) : U unit :=
  if b then printf fmt ap ;; UExit 1 else mret tt.

(** [for(;;) ;] *)
Definition spin (fuel : nat) : U unit := uloop fuel (fun _ : unit => mret (inl tt)) tt.

(** A child that runs [child] and exits; the result is its pid.  [msg] is for a failing fork. *)
Definition fork_child (msg : string) (ap : list varg) (child : U unit) : U Z :=
  pid ← fork;
  die_if (pid <? 0) msg ap ;;
  if pid =? 0 then child ;; UExit 0 else mret pid.

(** [x = buf[i]]; a [char] is unsigned on RISC-V. *)
Definition at_ (a : list Z) (i : Z) : U Z := from_option_U (a !! Z.to_nat i).

(** The bytes read() stored at the start of [a] *)
Definition got (a bs : list Z) : U (list Z) := from_option_U (astore a 0 bs).

(** A loop over [l] with loop variables [st] *)
Fixpoint ufold {A St} (l : list A) (body : A -> St -> U St) (st : St) : U St :=
  match l with [] => mret st | a :: l' => st ← body a st; ufold l' body st end.

(** The addresses [a], [a + step], ... below [a + len] *)
Definition addr_range (a len step : Z) : list Z :=
  (fun k => a + k * step) <$> seqZ 0 ((len + step - 1) / step).
