(* ===== verification/UTestsMem.v ===== *)
(** The tests of user/usertests.c of pointers and of memory: system calls with
    addresses that are not the process's, sbrk() at its limits, pages that are not there. *)
From stdpp Require Import base list strings.
From Stdlib Require Import ZArith Lia ZifyBool Ascii.
From S2P Require Import Prelude Fcntl Memory KPrintf State Vm Exec User Ulib UPrintf UProgs Umalloc UDemos UTestLib.

Local Open Scope Z_scope.

(** copyin(): system calls that read user memory *)
Definition copyin_addrs : list Z := [0x80000000; 0x3fffffe000; 0x3ffffff000; 0x4000000000; 0xffffffffffffffff].

Definition copyin (s : list Z) : U unit :=
  ufor_ copyin_addrs (fun addr =>
    fd ← open (lit "copyin1") (Z.lor O_CREATE O_WRONLY);
    die_if (fd <? 0) "open(copyin1) failed\n" [] ;;
    n ← sys (SWriteAt fd addr 8192);
    die_if (0 <=? (n : Z)) "write(fd, %p, 8192) returned %d, not -1\n" [VInt addr; VInt n] ;;
    close fd ;;
    _ ← unlink (lit "copyin1");
    n ← sys (SWriteAt 1 addr 8192);
    die_if (0 <? (n : Z)) "write(1, %p, 8192) returned %d, not -1 or 0\n" [VInt addr; VInt n] ;;
    '(e, (fd0, fd1)) ← pipe;
    die_if (e <? 0) "pipe() failed\n" [] ;;
    n ← sys (SWriteAt fd1 addr 8192);
    die_if (0 <? (n : Z)) "write(pipe, %p, 8192) returned %d, not -1 or 0\n" [VInt addr; VInt n] ;;
    close fd0 ;;
    close fd1).

(** copyout(): system calls that write user memory *)
Definition copyout (s : list Z) : U unit :=
  ufor_ (0 :: copyin_addrs) (fun addr =>
    fd ← open (lit "README") 0;
    die_if (fd <? 0) "open(README) failed\n" [] ;;
    n ← sys (SReadAt fd addr 8192);
    die_if (0 <? (n : Z)) "read(fd, %p, 8192) returned %d, not -1 or 0\n" [VInt addr; VInt n] ;;
    close fd ;;
    '(e, (fd0, fd1)) ← pipe;
    die_if (e <? 0) "pipe() failed\n" [] ;;
    n ← write fd1 (lit "x");
    die_if (negb (n =? 1)) "pipe write failed\n" [] ;;
    n ← sys (SReadAt fd0 addr 8192);
    die_if (0 <? (n : Z)) "read(pipe, %p, 8192) returned %d, not -1 or 0\n" [VInt addr; VInt n] ;;
    close fd0 ;;
    close fd1).

Definition copyinstr1 (s : list Z) : U unit :=
  ufor_ copyin_addrs (fun addr =>
    fd ← sys (SOpenAt (PAddr addr) (Z.lor O_CREATE O_WRONLY));
    die_if (0 <=? (fd : Z)) "open(%p) returned %d, not -1\n" [VInt addr; VInt fd]).

(** A path of exactly MAXPATH characters, and arguments of a page each *)
Definition copyinstr2 (s : list Z) : U unit :=
  let b := replicate (Z.to_nat MAXPATH) (ch "x") in
  ret ← unlink b;
  die_if (negb (ret =? -1)) "unlink(%s) returned %d, not -1\n" [vs b; VInt ret] ;;
  fd ← open b (Z.lor O_CREATE O_WRONLY);
  die_if (negb (fd =? -1)) "open(%s) returned %d, not -1\n" [vs b; VInt fd] ;;
  ret ← link b b;
  die_if (negb (ret =? -1)) "link(%s, %s) returned %d, not -1\n" [vs b; vs b; VInt ret] ;;
  ret ← exec b [lit "xx"];
  die_if (negb (ret =? -1)) "exec(%s) returned %d, not -1\n" [vs b; VInt fd] ;;
  _ ← fork_child "fork failed\n" []
    (let big := replicate (Z.to_nat PGSIZE) (ch "x") in
     ret ← exec (lit "echo") [big; big; big];
     die_if (negb (ret =? -1)) "exec(echo, BIG) returned %d, not -1\n" [VInt fd] ;;
     UExit 747);
  '(r, st) ← wait;
  let st := if r <? 0 then 0 else st in
  die_if (negb (st =? 747)) "exec(echo, BIG) succeeded, should have failed\n" [].

(** The string at [a]: printf("%s", b) reads the memory it points to. *)
Fixpoint print_at (fuel : nat) (a : Z) : U unit :=
  match fuel with
  | O => UNoFuel
  | S fuel' => c ← load a 1; if c =? 0 then mret tt else putc 1 c ;; print_at fuel' (a + 1)
  end.

(** A string that crosses the end of the last user page *)
Definition copyinstr3 (fuel : nat) (s : list Z) : U unit :=
  _ ← sbrk 8192;
  top ← sbrk 0;
  (if negb (top mod PGSIZE =? 0) then _ ← sbrk (PGSIZE - top mod PGSIZE); mret tt else mret tt) ;;
  top ← sbrk 0;
  die_if (negb (top mod PGSIZE =? 0)) "oops\n" [] ;;
  let b := top - 1 in
  store b 1 (ch "x") ;;
  let complain (before : string) (after : string) (ap : list varg) : U unit :=
    printf before [] ;; print_at fuel b ;; printf after ap ;; UExit 1 in
  ret ← sys (SUnlinkAt (PAddr b));
  (if negb ((ret : Z) =? -1) then complain "unlink(" ") returned %d, not -1\n" [VInt ret] else mret tt) ;;
  fd ← sys (SOpenAt (PAddr b) (Z.lor O_CREATE O_WRONLY));
  (if negb ((fd : Z) =? -1) then complain "open(" ") returned %d, not -1\n" [VInt fd] else mret tt) ;;
  ret ← sys (SLinkAt (PAddr b) (PAddr b));
  (if negb ((ret : Z) =? -1) then printf "link(" [] ;; print_at fuel b ;; printf ", " [] ;; print_at fuel b ;;
     printf ") returned %d, not -1\n" [VInt ret] ;; UExit 1 else mret tt) ;;
  ret ← sys (SExecAt (PAddr b) [PStr (lit "xx")]);
  (if negb ((ret : Z) =? -1) then complain "exec(" ") returned %d, not -1\n" [VInt fd] else mret tt).

(** Memory the process gave back *)
Definition rwsbrk (s : list Z) : U unit :=
  a ← sbrk 8192;
  die_if (a =? SBRK_ERROR) "sbrk(rwsbrk) failed\n" [] ;;
  r ← sbrk (-8192);
  die_if (r =? SBRK_ERROR) "sbrk(rwsbrk) shrink failed\n" [] ;;
  fd ← open (lit "rwsbrk") (Z.lor O_CREATE O_WRONLY);
  die_if (fd <? 0) "open(rwsbrk) failed\n" [] ;;
  n ← sys (SWriteAt fd (a + PGSIZE) 1024);
  die_if (0 <=? (n : Z)) "write(fd, %p, 1024) returned %d, not -1\n" [VInt (a + PGSIZE); VInt n] ;;
  close fd ;;
  _ ← unlink (lit "rwsbrk");
  fd ← open (lit "README") O_RDONLY;
  die_if (fd <? 0) "open(README) failed\n" [] ;;
  n ← sys (SReadAt fd (a + PGSIZE) 10);
  die_if (0 <=? (n : Z)) "read(fd, %p, 10) returned %d, not -1\n" [VInt (a + PGSIZE); VInt n] ;;
  close fd ;;
  UExit 0.

(** ** sbrk() *)

Definition TOOMUCH : Z := 1024 * 1024 * 1024.

Definition sbrkbasic_grow (s : list Z) (i a : Z) : U Z :=
  b ← sbrk 1;
  die_if (negb (b =? a)) "%s: sbrk test failed %d %p %p\n" [vs s; VInt i; VInt a; VInt b] ;;
  store b 1 1 ;;
  mret (b + 1).

Definition sbrkbasic (s : list Z) : U unit :=
  _ ← fork_child "fork failed in sbrkbasic\n" []
    (a ← sbrk TOOMUCH;
     if a =? SBRK_ERROR then UExit 0
     else ufor_ (addr_range a TOOMUCH PGSIZE) (fun b => store b 1 99) ;; UExit 1);
  '(_, xstatus) ← wait;
  die_if (xstatus =? 1) "%s: too much memory allocated!\n" [vs s] ;;
  a ← sbrk 0;
  a ← ufold (seqZ 0 5000) (sbrkbasic_grow s) a;
  pid ← fork;
  die_if (pid <? 0) "%s: sbrk test fork failed\n" [vs s] ;;
  _ ← sbrk 1;
  c ← sbrk 1;
  die_if (negb (c =? a + 1)) "%s: sbrk test failed post-fork\n" [vs s] ;;
  if pid =? 0 then UExit 0
  else '(_, xstatus) ← wait; UExit xstatus.

Definition BIG : Z := 100 * 1024 * 1024.

Definition sbrkmuch (s : list Z) : U unit :=
  oldbrk ← sbrk 0;
  a ← sbrk 0;
  p ← sbrk (i32 (u64 (BIG - a)));
  die_if (negb (p =? a)) "%s: sbrk test failed to grow big address space; enough phys mem?\n" [vs s] ;;
  let lastaddr := BIG - 1 in
  store lastaddr 1 99 ;;
  a ← sbrk 0;
  c ← sbrk (- PGSIZE);
  die_if (c =? SBRK_ERROR) "%s: sbrk could not deallocate\n" [vs s] ;;
  c ← sbrk 0;
  die_if (negb (c =? a - PGSIZE)) "%s: sbrk deallocation produced wrong address, a %p c %p\n" [vs s; VInt a; VInt c] ;;
  a ← sbrk 0;
  c ← sbrk PGSIZE;
  again ← (if negb (c =? a) then mret true else x ← sbrk 0; mret (negb (x =? a + PGSIZE)));
  die_if again "%s: sbrk re-allocation failed, a %p c %p\n" [vs s; VInt a; VInt c] ;;
  x ← load lastaddr 1;
  die_if (x =? 99) "%s: sbrk de-allocation didn't really deallocate\n" [vs s] ;;
  a ← sbrk 0;
  now ← sbrk 0;
  c ← sbrk (i32 (- (now - oldbrk)));
  die_if (negb (c =? a)) "%s: sbrk downsize failed, a %p c %p\n" [vs s; VInt a; VInt c].

(** The kernel's memory *)
Definition kernmem (s : list Z) : U unit :=
  ufor_ (addr_range KERNBASE 2000000 50000) (fun a =>
    pid ← fork;
    die_if (pid <? 0) "%s: fork failed\n" [vs s] ;;
    if pid =? 0 then
      x ← load a 1;
      printf "%s: oops could read %p = %x\n" [vs s; VInt a; VInt x] ;;
      UExit 1
    else
      '(_, xstatus) ← wait;
      if negb (xstatus =? -1) then UExit 1 else mret tt).

(** Addresses above MAXVA: [a] is shifted until it is 0. *)
Definition MAXVAplus_turn (s : list Z) (a : Z) : U (Z + unit) :=
  if a =? 0 then mret (inr tt)
  else
    pid ← fork;
    die_if (pid <? 0) "%s: fork failed\n" [vs s] ;;
    if pid =? 0 then
      store a 1 99 ;;
      printf "%s: oops wrote %p\n" [vs s; VInt a] ;;
      UExit 1
    else
      '(_, xstatus) ← wait;
      if negb (xstatus =? -1) then UExit 1 else mret (inl (u64 (Z.shiftl a 1))).

Definition MAXVAplus (s : list Z) : U unit := uloop 65 (MAXVAplus_turn s) MAXVA.

(** Ten processes that ask for a lot of memory.  The loop variables are pids[],
    [failed] and [scratch], whose first value is [garbage]. *)
Definition sbrkfail_fork (fuel : nat) (fd0 fd1 : Z) (_ : Z) (st : list Z * bool * Z) : U (list Z * bool * Z) :=
  let '(pids, failed, scratch) := st in
  pid ← fork;
  (if pid =? 0 then
     now ← sbrk 0;
     a ← sbrk (i32 (u64 (BIG - now)));
     (if a =? SBRK_ERROR then _ ← write fd1 (lit "0"); mret tt else _ ← write fd1 (lit "1"); mret tt) ;;
     wait_for_kill fuel
   else mret tt) ;;
  if negb (pid =? -1) then
    '(_, bs) ← read fd0 1;
    let scratch := default scratch (head bs) in
    mret (pids ++ [pid], failed || (scratch =? ch "0"), scratch)
  else mret (pids ++ [pid], failed, scratch).

Definition sbrkfail (fuel : nat) (garbage : Z) (s : list Z) : U unit :=
  '(e, (fd0, fd1)) ← pipe;
  die_if (negb (e =? 0)) "%s: pipe() failed\n" [vs s] ;;
  '(pids, failed, _) ← ufold (seqZ 0 10) (sbrkfail_fork fuel fd0 fd1) ([], false, garbage);
  (if negb failed then printf "%s: no allocation failed; allocate more?\n" [vs s] else mret tt) ;;
  c ← sbrk PGSIZE;
  ufor_ pids (fun pid => if pid =? -1 then mret tt else kill pid ;; wait0) ;;
  die_if (c =? SBRK_ERROR) "%s: failed sbrk leaked memory\n" [vs s] ;;
  _ ← fork_child "%s: fork failed\n" [vs s]
    (a ← sbrk (10 * BIG);
     if a =? SBRK_ERROR then UExit 0
     else printf "%s: allocate a lot of memory succeeded %d\n" [vs s; VInt (10 * BIG)] ;; UExit 1);
  '(_, xstatus) ← wait;
  if negb (xstatus =? 0) then UExit 1 else mret tt.

Definition sbrkarg (s : list Z) : U unit :=
  a ← sbrk PGSIZE;
  fd ← open (lit "sbrk") (Z.lor O_CREATE O_WRONLY);
  _ ← unlink (lit "sbrk");
  die_if (fd <? 0) "%s: open sbrk failed\n" [vs s] ;;
  n ← sys (SWriteAt fd a PGSIZE);
  die_if ((n : Z) <? 0) "%s: write sbrk failed\n" [vs s] ;;
  close fd ;;
  a ← sbrk PGSIZE;
  e ← sys (SPipeAt a);
  die_if (negb ((e : Z) =? 0)) "%s: pipe() failed\n" [vs s].

(** ** Pages that are not there *)

Definition validatetest (s : list Z) : U unit :=
  let hi := 1100 * 1024 in
  ufor_ (addr_range 0 (hi + 1) PGSIZE) (fun p =>
    r ← sys (SLinkAt (PStr (lit "nosuchfile")) (PAddr p));
    die_if (negb ((r : Z) =? -1)) "%s: link should not succeed\n" [vs s]).

(** [uninit] is the address of the array. *)
Definition bsstest (uninit : Z) (s : list Z) : U unit :=
  ufor_ (seqZ 0 10000) (fun i =>
    c ← load (uninit + i) 1;
    die_if (negb (c =? 0)) "%s: bss test failed\n" [vs s]).

Definition bigargtest (s : list Z) : U unit :=
  _ ← unlink (lit "bigarg-ok");
  pid ← fork;
  if pid =? 0 then
    let big := replicate 399 (ch " ") in
    _ ← exec (lit "echo") (replicate (MAXARG - 1) big);
    fd ← open (lit "bigarg-ok") O_CREATE;
    close fd ;;
    UExit 0
  else
    die_if (pid <? 0) "%s: bigargtest: fork failed\n" [vs s] ;;
    '(_, xstatus) ← wait;
    if negb (xstatus =? 0) then UExit xstatus
    else
      fd ← open (lit "bigarg-ok") 0;
      die_if (fd <? 0) "%s: bigarg test failed!\n" [vs s] ;;
      close fd.

Definition argptest (s : list Z) : U unit :=
  fd ← open (lit "init") O_RDONLY;
  die_if (fd <? 0) "%s: open failed\n" [vs s] ;;
  brk ← sbrk 0;
  _ ← sys (SReadAt fd (brk - 1) (-1));
  close fd.

Definition stacktest (s : list Z) : U unit :=
  pid ← fork;
  if pid =? 0 then
    sp ← sys SSp;
    x ← load ((sp : Z) - USERSTACK * PGSIZE) 1;
    printf "%s: stacktest: read below stack %d\n" [vs s; VInt x] ;;
    UExit 1
  else
    die_if (pid <? 0) "%s: fork failed\n" [vs s] ;;
    '(_, xstatus) ← wait;
    if xstatus =? -1 then UExit 0 else UExit xstatus.

Definition nowrite (s : list Z) : U unit :=
  ufor_ (0 :: copyin_addrs) (fun addr =>
    pid ← fork;
    if pid =? 0 then
      store addr 4 10 ;;
      printf "%s: write to %p did not fail!\n" [vs s; VInt addr] ;;
      UExit 0
    else
      die_if (pid <? 0) "%s: fork failed\n" [vs s] ;;
      '(_, xstatus) ← wait;
      if xstatus =? 0 then UExit 1 else mret tt) ;;
  UExit 0.

Definition pgbug_big : Z := 0xeaeb0b5b00002f5e.

Definition pgbug (s : list Z) : U unit :=
  _ ← sys (SExecAt (PAddr pgbug_big) []);
  _ ← sys (SPipeAt pgbug_big);
  UExit 0.

(** The break moved below the program, into the first page, and a little back.  [sz] is an [int]. *)
Definition sbrkbugs (s : list Z) : U unit :=
  _ ← fork_child "fork failed\n" []
    (now ← sbrk 0;
     let sz := i32 now in
     _ ← sbrk (i32 (- sz));
     UExit 0);
  wait0 ;;
  _ ← fork_child "fork failed\n" []
    (now ← sbrk 0;
     let sz := i32 now in
     _ ← sbrk (i32 (- (sz - 3500)));
     UExit 0);
  wait0 ;;
  _ ← fork_child "fork failed\n" []
    (now ← sbrk 0;
     _ ← sbrk (i32 (u64 (10 * PGSIZE + 2048 - now)));
     _ ← sbrk (-10);
     UExit 0);
  wait0 ;;
  UExit 0.

Definition sbrklast (s : list Z) : U unit :=
  top ← sbrk 0;
  (if negb (top mod PGSIZE =? 0) then _ ← sbrk (PGSIZE - top mod PGSIZE); mret tt else mret tt) ;;
  _ ← sbrk PGSIZE;
  _ ← sbrk 10;
  _ ← sbrk (-20);
  top ← sbrk 0;
  let p := top - 64 in
  store p 1 (ch "x") ;;
  store (p + 1) 1 0 ;;
  fd ← sys (SOpenAt (PAddr p) (Z.lor O_RDWR O_CREATE));
  _ ← sys (SWriteAt fd p 1);
  close fd ;;
  fd ← sys (SOpenAt (PAddr p) O_RDWR);
  store p 1 0 ;;
  _ ← sys (SReadAt fd p 1);
  x ← load p 1;
  if negb (x =? ch "x") then UExit 1 else mret tt.

Definition sbrk8000 (s : list Z) : U unit :=
  _ ← sbrk (i32 0x80000004);
  top ← sbrk 0;
  x ← load (top - 1) 1;
  store (top - 1) 1 (u8 (x + 1)).

Definition badarg (s : list Z) : U unit :=
  ufor_ (seqZ 0 50000) (fun _ => call (SExecAt (PStr (lit "echo")) [PAddr 0xffffffff])) ;;
  UExit 0.

(** ** Pages allocated at the first access *)

Definition REGION_SZ : Z := 1024 * 1024 * 1024.

Definition lazy_alloc (s : list Z) : U unit :=
  prev_end ← sbrklazy REGION_SZ;
  die_if (prev_end =? SBRK_ERROR) "sbrklazy() failed\n" [] ;;
  let range := addr_range (prev_end + PGSIZE) (REGION_SZ - PGSIZE) (64 * PGSIZE) in
  ufor_ range (fun i => store i 8 i) ;;
  ufor_ range (fun i =>
    x ← load i 8;
    die_if (negb (x =? i)) "failed to read value from memory\n" []) ;;
  UExit 0.

Definition lazy_unmap (s : list Z) : U unit :=
  prev_end ← sbrklazy REGION_SZ;
  die_if (prev_end =? SBRK_ERROR) "sbrklazy() failed\n" [] ;;
  let range := addr_range (prev_end + PGSIZE) (REGION_SZ - PGSIZE) (PGSIZE * PGSIZE) in
  ufor_ range (fun i => store i 8 i) ;;
  ufor_ range (fun i =>
    pid ← fork;
    die_if (pid <? 0) "error forking\n" [] ;;
    if pid =? 0 then
      _ ← sbrklazy (-1 * REGION_SZ);
      store i 8 i ;;
      UExit 0
    else
      '(_, status) ← wait;
      die_if (status =? 0) "memory not unmapped\n" []) ;;
  UExit 0.

Definition lazy_copy_bad : list Z := [0x3fffffc000; 0x3fffffd000; 0x3fffffe000; 0x3ffffff000; 0x4000000000; 0x8000000000].

Definition lazy_copy (s : list Z) : U unit :=
  p ← sbrk 0;
  _ ← sbrklazy (4 * PGSIZE);
  _ ← sys (SOpenAt (PAddr (p + 8192)) 0);
  xx ← sbrk 0;
  ret ← sbrk (i32 (u64 (- (xx + 1))));
  die_if (negb (ret =? xx)) "sbrk(sbrk(0)+1) returned %p, not old sz\n" [VInt ret] ;;
  ufor_ lazy_copy_bad (fun bad =>
    fd ← open (lit "README") 0;
    die_if (fd <? 0) "cannot open README\n" [] ;;
    n ← sys (SReadAt fd bad 512);
    die_if (0 <=? (n : Z)) "read succeeded\n" [] ;;
    close fd ;;
    fd ← open (lit "junk") (Z.lor (Z.lor O_CREATE O_RDWR) O_TRUNC);
    die_if (fd <? 0) "cannot open junk\n" [] ;;
    n ← sys (SWriteAt fd bad 512);
    die_if (0 <=? (n : Z)) "write succeeded\n" [] ;;
    close fd) ;;
  UExit 0.

(** Steps of 2^30 bytes towards MAXVA.  The tests [p < 0] are for a pointer, which is
    unsigned. *)
Definition lazy_sbrk_turn (p : Z) : U (Z + Z) :=
  if negb (u64 p <? MAXVA - 2 ^ 30) then mret (inr p)
  else
    p ← sbrklazy (2 ^ 30);
    die_if (u64 p <? 0) "sbrklazy(%d) returned %p\n" [VInt (2 ^ 30); VInt p] ;;
    p ← sbrklazy 0;
    mret (inl p).

Definition lazy_sbrk (fuel : nat) (s : list Z) : U unit :=
  p ← sbrk 0;
  p ← uloop fuel lazy_sbrk_turn p;
  let n := i32 (u64 (TRAPFRAME - PGSIZE - p)) in
  p1 ← sbrklazy n;
  die_if ((u64 p1 <? 0) || negb (p1 =? p)) "sbrklazy(%d) returned %p, not expected %p\n" [VInt n; VInt p1; VInt p] ;;
  p ← sbrk PGSIZE;
  die_if ((u64 p <? 0) || negb (u64 p =? TRAPFRAME - PGSIZE))
    "sbrk(%d) returned %p, not expected TRAPFRAME-PGSIZE\n" [VInt PGSIZE; VInt p] ;;
  store p 1 1 ;;
  x ← load (p + 1) 1;
  die_if (negb (x =? 0)) "sbrk() returned non-zero-filled memory\n" [] ;;
  p ← sbrk 1;
  die_if (negb (u64 p =? u64 (-1))) "sbrk(1) returned %p, expected error\n" [VInt p] ;;
  p ← sbrklazy 1;
  die_if (negb (u64 p =? u64 (-1))) "sbrklazy(1) returned %p, expected error\n" [VInt p] ;;
  UExit 0.

(** execout(): a process takes all memory, gives back [avail] pages and calls exec(). *)
Definition execout_take (_ : unit) : U (unit + unit) :=
  a ← sbrk PGSIZE;
  if a =? SBRK_ERROR then mret (inr tt)
  else store (a + PGSIZE - 1) 1 1 ;; mret (inl tt).

Definition execout (fuel : nat) (s : list Z) : U unit :=
  ufor_ (seqZ 0 15) (fun avail =>
    _ ← fork_child "fork failed\n" []
      (uloop fuel execout_take tt ;;
       ufor_ (seqZ 0 avail) (fun _ => _ ← sbrk (- PGSIZE); mret tt) ;;
       close 1 ;;
       _ ← exec (lit "echo") [lit "echo"; lit "x"];
       UExit 0);
    wait0) ;;
  UExit 0.

(** countfree(): how many pages sbrk() can get *)
Definition countfree_turn (n : Z) : U (Z + Z) :=
  a ← sbrk PGSIZE;
  if a =? SBRK_ERROR then mret (inr n) else mret (inl (n + 1)).

Definition countfree (fuel : nat) : U Z :=
  sz0 ← sbrk 0;
  n ← uloop fuel countfree_turn 0;
  now ← sbrk 0;
  _ ← sbrk (i32 (u64 (- (now - sz0))));
  mret n.
