(* ===== verification/UTestsFs.v ===== *)
(** The tests of user/usertests.c of the file system that one process can make:
    truncation, links, directories, path names, large files. *)
From stdpp Require Import base list strings.
From Stdlib Require Import ZArith Lia ZifyBool Ascii.
From S2P Require Import Prelude Fcntl Memory KPrintf State User Ulib UPrintf UProgs UTestLib.

Local Open Scope Z_scope.

(** test O_TRUNC *)
Definition truncate1 (s : list Z) : U unit :=
  _ ← unlink (lit "truncfile");
  fd1 ← open (lit "truncfile") (Z.lor (Z.lor O_CREATE O_WRONLY) O_TRUNC);
  _ ← write fd1 (lit "abcd");
  close fd1 ;;
  fd2 ← open (lit "truncfile") O_RDONLY;
  '(n, _) ← read fd2 32;
  die_if (negb (n =? 4)) "%s: read %d bytes, wanted 4\n" [vs s; VInt n] ;;
  fd1 ← open (lit "truncfile") (Z.lor O_WRONLY O_TRUNC);
  fd3 ← open (lit "truncfile") O_RDONLY;
  '(n, _) ← read fd3 32;
  (if negb (n =? 0) then
     printf "aaa fd3=%d\n" [VInt fd3] ;;
     die_if true "%s: read %d bytes, wanted 0\n" [vs s; VInt n]
   else mret tt) ;;
  '(n, _) ← read fd2 32;
  (if negb (n =? 0) then
     printf "bbb fd2=%d\n" [VInt fd2] ;;
     die_if true "%s: read %d bytes, wanted 0\n" [vs s; VInt n]
   else mret tt) ;;
  _ ← write fd1 (lit "abcdef");
  '(n, _) ← read fd3 32;
  die_if (negb (n =? 6)) "%s: read %d bytes, wanted 6\n" [vs s; VInt n] ;;
  '(n, _) ← read fd2 32;
  die_if (negb (n =? 2)) "%s: read %d bytes, wanted 2\n" [vs s; VInt n] ;;
  _ ← unlink (lit "truncfile");
  close fd1 ;;
  close fd2 ;;
  close fd3.

(** A write beyond the end of a file that was truncated *)
Definition truncate2 (s : list Z) : U unit :=
  _ ← unlink (lit "truncfile");
  fd1 ← open (lit "truncfile") (Z.lor (Z.lor O_CREATE O_TRUNC) O_WRONLY);
  _ ← write fd1 (lit "abcd");
  fd2 ← open (lit "truncfile") (Z.lor O_TRUNC O_WRONLY);
  n ← write fd1 (lit "x");
  die_if (negb (n =? -1)) "%s: write returned %d, expected -1\n" [vs s; VInt n] ;;
  _ ← unlink (lit "truncfile");
  close fd1 ;;
  close fd2.

Definition iputtest (s : list Z) : U unit :=
  r ← mkdir (lit "iputdir");
  die_if (r <? 0) "%s: mkdir failed\n" [vs s] ;;
  r ← chdir (lit "iputdir");
  die_if (r <? 0) "%s: chdir iputdir failed\n" [vs s] ;;
  r ← unlink (lit "../iputdir");
  die_if (r <? 0) "%s: unlink ../iputdir failed\n" [vs s] ;;
  r ← chdir (lit "/");
  die_if (r <? 0) "%s: chdir / failed\n" [vs s].

Definition opentest (s : list Z) : U unit :=
  fd ← open (lit "echo") 0;
  die_if (fd <? 0) "%s: open echo failed!\n" [vs s] ;;
  close fd ;;
  fd ← open (lit "doesnotexist") 0;
  die_if (0 <=? fd) "%s: open doesnotexist succeeded!\n" [vs s].

Definition writetest_N : Z := 100.
Definition writetest_SZ : Z := 10.

Definition writetest_turn (s : list Z) (fd i : Z) : U unit :=
  r ← write fd (lit "aaaaaaaaaa");
  die_if (negb (r =? writetest_SZ)) "%s: error: write aa %d new file failed\n" [vs s; VInt i] ;;
  r ← write fd (lit "bbbbbbbbbb");
  die_if (negb (r =? writetest_SZ)) "%s: error: write bb %d new file failed\n" [vs s; VInt i].

Definition writetest (s : list Z) : U unit :=
  fd ← open (lit "small") (Z.lor O_CREATE O_RDWR);
  die_if (fd <? 0) "%s: error: creat small failed!\n" [vs s] ;;
  ufor_ (seqZ 0 writetest_N) (writetest_turn s fd) ;;
  close fd ;;
  fd ← open (lit "small") O_RDONLY;
  die_if (fd <? 0) "%s: error: open small failed!\n" [vs s] ;;
  '(i, _) ← read fd (writetest_N * writetest_SZ * 2);
  die_if (negb (i =? writetest_N * writetest_SZ * 2)) "%s: read failed\n" [vs s] ;;
  close fd ;;
  r ← unlink (lit "small");
  die_if (r <? 0) "%s: unlink small failed\n" [vs s].

(** The first [int] in [buf] *)
Definition get_int (buf : list Z) : U Z :=
  b0 ← at_ buf 0; b1 ← at_ buf 1; b2 ← at_ buf 2; b3 ← at_ buf 3;
  mret (i32 (b0 + 2 ^ 8 * b1 + 2 ^ 16 * b2 + 2 ^ 24 * b3)).
Definition put_int (buf : list Z) (v : Z) : U (list Z) :=
  got buf [u8 v; u8 (Z.shiftr v 8); u8 (Z.shiftr v 16); u8 (Z.shiftr v 24)].

Definition writebig_write (s : list Z) (fd i : Z) (buf : list Z) : U (list Z) :=
  buf ← put_int buf i;
  r ← write fd (take (Z.to_nat BSIZE) buf);
  die_if (negb (r =? BSIZE)) "%s: error: write big file failed i=%d\n" [vs s; VInt i] ;;
  mret buf.

Definition writebig_read (s : list Z) (fd : Z) (st : list Z * Z) : U (list Z * Z + unit) :=
  let '(buf, n) := st in
  '(i, bs) ← read fd BSIZE;
  buf ← got buf bs;
  if i =? 0 then
    die_if (negb (n =? MAXFILE)) "%s: read only %d blocks from big" [vs s; VInt n] ;;
    mret (inr tt)
  else
    die_if (negb (i =? BSIZE)) "%s: read failed %d\n" [vs s; VInt i] ;;
    v ← get_int buf;
    die_if (negb (v =? n)) "%s: read content of block %d is %d\n" [vs s; VInt n; VInt v] ;;
    mret (inl (buf, n + 1)).

Definition writebig (fuel : nat) (s : list Z) : U unit :=
  fd ← open (lit "big") (Z.lor O_CREATE O_RDWR);
  die_if (fd <? 0) "%s: error: creat big failed!\n" [vs s] ;;
  buf ← ufold (seqZ 0 MAXFILE) (writebig_write s fd) buf0;
  close fd ;;
  fd ← open (lit "big") O_RDONLY;
  die_if (fd <? 0) "%s: error: open big failed!\n" [vs s] ;;
  uloop fuel (writebig_read s fd) (buf, 0) ;;
  close fd ;;
  r ← unlink (lit "big");
  die_if (r <? 0) "%s: unlink big failed\n" [vs s].

Definition createtest_N : Z := 52.

Definition createtest (s : list Z) : U unit :=
  ufor_ (seqZ 0 createtest_N) (fun i => fd ← open [ch "a"; ch "0" + i] (Z.lor O_CREATE O_RDWR); close fd) ;;
  ufor_ (seqZ 0 createtest_N) (fun i => _ ← unlink [ch "a"; ch "0" + i]; mret tt).

Definition dirtest (s : list Z) : U unit :=
  r ← mkdir (lit "dir0");
  die_if (r <? 0) "%s: mkdir failed\n" [vs s] ;;
  r ← chdir (lit "dir0");
  die_if (r <? 0) "%s: chdir dir0 failed\n" [vs s] ;;
  r ← chdir (lit "..");
  die_if (r <? 0) "%s: chdir .. failed\n" [vs s] ;;
  r ← unlink (lit "dir0");
  die_if (r <? 0) "%s: unlink dir0 failed\n" [vs s].

(** ** Links *)

Definition unlinkread_SZ : Z := 5.

Definition unlinkread (s : list Z) : U unit :=
  fd ← open (lit "unlinkread") (Z.lor O_CREATE O_RDWR);
  die_if (fd <? 0) "%s: create unlinkread failed\n" [vs s] ;;
  _ ← write fd (lit "hello");
  close fd ;;
  fd ← open (lit "unlinkread") O_RDWR;
  die_if (fd <? 0) "%s: open unlinkread failed\n" [vs s] ;;
  r ← unlink (lit "unlinkread");
  die_if (negb (r =? 0)) "%s: unlink unlinkread failed\n" [vs s] ;;
  fd1 ← open (lit "unlinkread") (Z.lor O_CREATE O_RDWR);
  _ ← write fd1 (lit "yyy");
  close fd1 ;;
  '(n, bs) ← read fd BUFSZ;
  buf ← got buf0 bs;
  die_if (negb (n =? unlinkread_SZ)) "%s: unlinkread read failed" [vs s] ;;
  c ← at_ buf 0;
  die_if (negb (c =? ch "h")) "%s: unlinkread wrong data\n" [vs s] ;;
  n ← write fd (take 10 buf);
  die_if (negb (n =? 10)) "%s: unlinkread write failed\n" [vs s] ;;
  close fd ;;
  _ ← unlink (lit "unlinkread");
  mret tt.

Definition linktest_SZ : Z := 5.

Definition linktest (s : list Z) : U unit :=
  _ ← unlink (lit "lf1");
  _ ← unlink (lit "lf2");
  fd ← open (lit "lf1") (Z.lor O_CREATE O_RDWR);
  die_if (fd <? 0) "%s: create lf1 failed\n" [vs s] ;;
  n ← write fd (lit "hello");
  die_if (negb (n =? linktest_SZ)) "%s: write lf1 failed\n" [vs s] ;;
  close fd ;;
  r ← link (lit "lf1") (lit "lf2");
  die_if (r <? 0) "%s: link lf1 lf2 failed\n" [vs s] ;;
  _ ← unlink (lit "lf1");
  r ← open (lit "lf1") 0;
  die_if (0 <=? r) "%s: unlinked lf1 but it is still there!\n" [vs s] ;;
  fd ← open (lit "lf2") 0;
  die_if (fd <? 0) "%s: open lf2 failed\n" [vs s] ;;
  '(n, _) ← read fd BUFSZ;
  die_if (negb (n =? linktest_SZ)) "%s: read lf2 failed\n" [vs s] ;;
  close fd ;;
  r ← link (lit "lf2") (lit "lf2");
  die_if (0 <=? r) "%s: link lf2 lf2 succeeded! oops\n" [vs s] ;;
  _ ← unlink (lit "lf2");
  r ← link (lit "lf2") (lit "lf1");
  die_if (0 <=? r) "%s: link non-existent succeeded! oops\n" [vs s] ;;
  r ← link (lit ".") (lit "lf1");
  die_if (0 <=? r) "%s: link . lf1 succeeded! oops\n" [vs s].

(** ** Directories *)

(** subdir(): dd with ff and dd/dd with ff in it *)
Definition subdir_make (s : list Z) : U unit :=
  _ ← unlink (lit "ff");
  r ← mkdir (lit "dd");
  die_if (negb (r =? 0)) "%s: mkdir dd failed\n" [vs s] ;;
  fd ← open (lit "dd/ff") (Z.lor O_CREATE O_RDWR);
  die_if (fd <? 0) "%s: create dd/ff failed\n" [vs s] ;;
  _ ← write fd (lit "ff");
  close fd ;;
  r ← unlink (lit "dd");
  die_if (0 <=? r) "%s: unlink dd (non-empty dir) succeeded!\n" [vs s] ;;
  r ← mkdir (lit "/dd/dd");
  die_if (negb (r =? 0)) "%s: subdir mkdir dd/dd failed\n" [vs s] ;;
  fd ← open (lit "dd/dd/ff") (Z.lor O_CREATE O_RDWR);
  die_if (fd <? 0) "%s: create dd/dd/ff failed\n" [vs s] ;;
  _ ← write fd (lit "FF");
  close fd ;;
  fd ← open (lit "dd/dd/../ff") 0;
  die_if (fd <? 0) "%s: open dd/dd/../ff failed\n" [vs s] ;;
  '(cc, bs) ← read fd BUFSZ;
  buf ← got buf0 bs;
  c ← at_ buf 0;
  die_if (negb (cc =? 2) || negb (c =? ch "f")) "%s: dd/dd/../ff wrong content\n" [vs s] ;;
  close fd ;;
  r ← link (lit "dd/dd/ff") (lit "dd/dd/ffff");
  die_if (negb (r =? 0)) "%s: link dd/dd/ff dd/dd/ffff failed\n" [vs s] ;;
  r ← unlink (lit "dd/dd/ff");
  die_if (negb (r =? 0)) "%s: unlink dd/dd/ff failed\n" [vs s] ;;
  r ← open (lit "dd/dd/ff") O_RDONLY;
  die_if (0 <=? r) "%s: open (unlinked) dd/dd/ff succeeded\n" [vs s].

(** It walks through the directories. *)
Definition subdir_walk (s : list Z) : U unit :=
  r ← chdir (lit "dd");
  die_if (negb (r =? 0)) "%s: chdir dd failed\n" [vs s] ;;
  r ← chdir (lit "dd/../../dd");
  die_if (negb (r =? 0)) "%s: chdir dd/../../dd failed\n" [vs s] ;;
  r ← chdir (lit "dd/../../../dd");
  die_if (negb (r =? 0)) "%s: chdir dd/../../../dd failed\n" [vs s] ;;
  r ← chdir (lit "./..");
  die_if (negb (r =? 0)) "%s: chdir ./.. failed\n" [vs s] ;;
  fd ← open (lit "dd/dd/ffff") 0;
  die_if (fd <? 0) "%s: open dd/dd/ffff failed\n" [vs s] ;;
  '(n, _) ← read fd BUFSZ;
  die_if (negb (n =? 2)) "%s: read dd/dd/ffff wrong len\n" [vs s] ;;
  close fd ;;
  r ← open (lit "dd/dd/ff") O_RDONLY;
  die_if (0 <=? r) "%s: open (unlinked) dd/dd/ff succeeded!\n" [vs s].

(** Calls that must fail *)
Definition subdir_refused (s : list Z) : U unit :=
  r ← open (lit "dd/ff/ff") (Z.lor O_CREATE O_RDWR);
  die_if (0 <=? r) "%s: create dd/ff/ff succeeded!\n" [vs s] ;;
  r ← open (lit "dd/xx/ff") (Z.lor O_CREATE O_RDWR);
  die_if (0 <=? r) "%s: create dd/xx/ff succeeded!\n" [vs s] ;;
  r ← open (lit "dd") O_CREATE;
  die_if (0 <=? r) "%s: create dd succeeded!\n" [vs s] ;;
  r ← open (lit "dd") O_RDWR;
  die_if (0 <=? r) "%s: open dd rdwr succeeded!\n" [vs s] ;;
  r ← open (lit "dd") O_WRONLY;
  die_if (0 <=? r) "%s: open dd wronly succeeded!\n" [vs s] ;;
  r ← link (lit "dd/ff/ff") (lit "dd/dd/xx");
  die_if (r =? 0) "%s: link dd/ff/ff dd/dd/xx succeeded!\n" [vs s] ;;
  r ← link (lit "dd/xx/ff") (lit "dd/dd/xx");
  die_if (r =? 0) "%s: link dd/xx/ff dd/dd/xx succeeded!\n" [vs s] ;;
  r ← link (lit "dd/ff") (lit "dd/dd/ffff");
  die_if (r =? 0) "%s: link dd/ff dd/dd/ffff succeeded!\n" [vs s] ;;
  r ← mkdir (lit "dd/ff/ff");
  die_if (r =? 0) "%s: mkdir dd/ff/ff succeeded!\n" [vs s] ;;
  r ← mkdir (lit "dd/xx/ff");
  die_if (r =? 0) "%s: mkdir dd/xx/ff succeeded!\n" [vs s] ;;
  r ← mkdir (lit "dd/dd/ffff");
  die_if (r =? 0) "%s: mkdir dd/dd/ffff succeeded!\n" [vs s] ;;
  r ← unlink (lit "dd/xx/ff");
  die_if (r =? 0) "%s: unlink dd/xx/ff succeeded!\n" [vs s] ;;
  r ← unlink (lit "dd/ff/ff");
  die_if (r =? 0) "%s: unlink dd/ff/ff succeeded!\n" [vs s] ;;
  r ← chdir (lit "dd/ff");
  die_if (r =? 0) "%s: chdir dd/ff succeeded!\n" [vs s] ;;
  r ← chdir (lit "dd/xx");
  die_if (r =? 0) "%s: chdir dd/xx succeeded!\n" [vs s].

Definition subdir_remove (s : list Z) : U unit :=
  r ← unlink (lit "dd/dd/ffff");
  die_if (negb (r =? 0)) "%s: unlink dd/dd/ff failed\n" [vs s] ;;
  r ← unlink (lit "dd/ff");
  die_if (negb (r =? 0)) "%s: unlink dd/ff failed\n" [vs s] ;;
  r ← unlink (lit "dd");
  die_if (r =? 0) "%s: unlink non-empty dd succeeded!\n" [vs s] ;;
  r ← unlink (lit "dd/dd");
  die_if (r <? 0) "%s: unlink dd/dd failed\n" [vs s] ;;
  r ← unlink (lit "dd");
  die_if (r <? 0) "%s: unlink dd failed\n" [vs s].

Definition subdir (s : list Z) : U unit :=
  subdir_make s ;; subdir_walk s ;; subdir_refused s ;; subdir_remove s.

(** Names of more than DIRSIZ characters *)
Definition fourteen (s : list Z) : U unit :=
  r ← mkdir (lit "12345678901234");
  die_if (negb (r =? 0)) "%s: mkdir 12345678901234 failed\n" [vs s] ;;
  r ← mkdir (lit "12345678901234/123456789012345");
  die_if (negb (r =? 0)) "%s: mkdir 12345678901234/123456789012345 failed\n" [vs s] ;;
  fd ← open (lit "123456789012345/123456789012345/123456789012345") O_CREATE;
  die_if (fd <? 0) "%s: create 123456789012345/123456789012345/123456789012345 failed\n" [vs s] ;;
  close fd ;;
  fd ← open (lit "12345678901234/12345678901234/12345678901234") 0;
  die_if (fd <? 0) "%s: open 12345678901234/12345678901234/12345678901234 failed\n" [vs s] ;;
  close fd ;;
  r ← mkdir (lit "12345678901234/12345678901234");
  die_if (r =? 0) "%s: mkdir 12345678901234/12345678901234 succeeded!\n" [vs s] ;;
  r ← mkdir (lit "123456789012345/12345678901234");
  die_if (r =? 0) "%s: mkdir 12345678901234/123456789012345 succeeded!\n" [vs s] ;;
  _ ← unlink (lit "123456789012345/12345678901234");
  _ ← unlink (lit "12345678901234/12345678901234");
  _ ← unlink (lit "12345678901234/12345678901234/12345678901234");
  _ ← unlink (lit "123456789012345/123456789012345/123456789012345");
  _ ← unlink (lit "12345678901234/123456789012345");
  _ ← unlink (lit "12345678901234");
  mret tt.

Definition rmdot (s : list Z) : U unit :=
  r ← mkdir (lit "dots");
  die_if (negb (r =? 0)) "%s: mkdir dots failed\n" [vs s] ;;
  r ← chdir (lit "dots");
  die_if (negb (r =? 0)) "%s: chdir dots failed\n" [vs s] ;;
  r ← unlink (lit ".");
  die_if (r =? 0) "%s: rm . worked!\n" [vs s] ;;
  r ← unlink (lit "..");
  die_if (r =? 0) "%s: rm .. worked!\n" [vs s] ;;
  r ← chdir (lit "/");
  die_if (negb (r =? 0)) "%s: chdir / failed\n" [vs s] ;;
  r ← unlink (lit "dots/.");
  die_if (r =? 0) "%s: unlink dots/. worked!\n" [vs s] ;;
  r ← unlink (lit "dots/..");
  die_if (r =? 0) "%s: unlink dots/.. worked!\n" [vs s] ;;
  r ← unlink (lit "dots");
  die_if (negb (r =? 0)) "%s: unlink dots failed!\n" [vs s].

Definition dirfile (s : list Z) : U unit :=
  fd ← open (lit "dirfile") O_CREATE;
  die_if (fd <? 0) "%s: create dirfile failed\n" [vs s] ;;
  close fd ;;
  r ← chdir (lit "dirfile");
  die_if (r =? 0) "%s: chdir dirfile succeeded!\n" [vs s] ;;
  fd ← open (lit "dirfile/xx") 0;
  die_if (0 <=? fd) "%s: create dirfile/xx succeeded!\n" [vs s] ;;
  fd ← open (lit "dirfile/xx") O_CREATE;
  die_if (0 <=? fd) "%s: create dirfile/xx succeeded!\n" [vs s] ;;
  r ← mkdir (lit "dirfile/xx");
  die_if (r =? 0) "%s: mkdir dirfile/xx succeeded!\n" [vs s] ;;
  r ← unlink (lit "dirfile/xx");
  die_if (r =? 0) "%s: unlink dirfile/xx succeeded!\n" [vs s] ;;
  r ← link (lit "README") (lit "dirfile/xx");
  die_if (r =? 0) "%s: link to dirfile/xx succeeded!\n" [vs s] ;;
  r ← unlink (lit "dirfile");
  die_if (negb (r =? 0)) "%s: unlink dirfile failed!\n" [vs s] ;;
  fd ← open (lit ".") O_RDWR;
  die_if (0 <=? fd) "%s: open . for writing succeeded!\n" [vs s] ;;
  fd ← open (lit ".") 0;
  n ← write fd (lit "x");
  die_if (0 <? n) "%s: write . succeeded!\n" [vs s] ;;
  close fd.

(** Empty names, NINODE + 1 times, each in a directory below the last *)
Definition iref_turn (s : list Z) : U unit :=
  r ← mkdir (lit "irefd");
  die_if (negb (r =? 0)) "%s: mkdir irefd failed\n" [vs s] ;;
  r ← chdir (lit "irefd");
  die_if (negb (r =? 0)) "%s: chdir irefd failed\n" [vs s] ;;
  _ ← mkdir [];
  _ ← link (lit "README") [];
  fd ← open [] O_CREATE;
  (if 0 <=? fd then close fd else mret tt) ;;
  fd ← open (lit "xx") O_CREATE;
  (if 0 <=? fd then close fd else mret tt) ;;
  _ ← unlink (lit "xx");
  mret tt.

Definition iref (s : list Z) : U unit :=
  ufor_ (seq 0 (NINODE + 1)) (fun _ => iref_turn s) ;;
  ufor_ (seq 0 (NINODE + 1)) (fun _ => _ ← chdir (lit ".."); _ ← unlink (lit "irefd"); mret tt) ;;
  _ ← chdir (lit "/");
  mret tt.

(** ** Large files and full disks *)

(** Writes larger than the log: 499 bytes and then 471 more each time *)
Definition bigwrite (s : list Z) : U unit :=
  _ ← unlink (lit "bigwrite");
  ufor_ (addr_range 499 ((MAXOPBLOCKS + 2) * BSIZE - 499) 471) (fun sz =>
    fd ← open (lit "bigwrite") (Z.lor O_CREATE O_RDWR);
    die_if (fd <? 0) "%s: cannot create bigwrite\n" [vs s] ;;
    ufor_ (seqZ 0 2) (fun _ =>
      cc ← write fd (take (Z.to_nat sz) buf0);
      die_if (negb (cc =? sz)) "%s: write(%d) ret %d\n" [vs s; VInt sz; VInt cc]) ;;
    close fd ;;
    _ ← unlink (lit "bigwrite");
    mret tt).

Definition bigfile_N : Z := 20.
Definition bigfile_SZ : Z := 600.

Definition bigfile_write (s : list Z) (fd i : Z) (buf : list Z) : U (list Z) :=
  buf ← from_option_U (memset buf 0 i bigfile_SZ);
  n ← write fd (take (Z.to_nat bigfile_SZ) buf);
  die_if (negb (n =? bigfile_SZ)) "%s: write bigfile failed\n" [vs s] ;;
  mret buf.

(** The loop variables are [buf], [i] and [total]. *)
Definition bigfile_read (s : list Z) (fd : Z) (st : list Z * Z * Z) : U (list Z * Z * Z + Z) :=
  let '(buf, i, total) := st in
  '(cc, bs) ← read fd (bigfile_SZ / 2);
  buf ← got buf bs;
  die_if (cc <? 0) "%s: read bigfile failed\n" [vs s] ;;
  if cc =? 0 then mret (inr total)
  else
    die_if (negb (cc =? bigfile_SZ / 2)) "%s: short read bigfile\n" [vs s] ;;
    x ← at_ buf 0;
    y ← at_ buf (bigfile_SZ / 2 - 1);
    die_if (negb (x =? i / 2) || negb (y =? i / 2)) "%s: read bigfile wrong data\n" [vs s] ;;
    mret (inl (buf, i + 1, total + cc)).

Definition bigfile (fuel : nat) (s : list Z) : U unit :=
  _ ← unlink (lit "bigfile.dat");
  fd ← open (lit "bigfile.dat") (Z.lor O_CREATE O_RDWR);
  die_if (fd <? 0) "%s: cannot create bigfile" [vs s] ;;
  buf ← ufold (seqZ 0 bigfile_N) (bigfile_write s fd) buf0;
  close fd ;;
  fd ← open (lit "bigfile.dat") 0;
  die_if (fd <? 0) "%s: cannot open bigfile\n" [vs s] ;;
  total ← uloop fuel (bigfile_read s fd) (buf, 0, 0);
  close fd ;;
  die_if (negb (total =? bigfile_N * bigfile_SZ)) "%s: read bigfile wrong total\n" [vs s] ;;
  _ ← unlink (lit "bigfile.dat");
  mret tt.

(** A directory with indirect blocks *)
Definition bigdir_N : Z := 500.
Definition bigdir_name (i : Z) : list Z := [ch "x"; ch "0" + i / 64; ch "0" + i mod 64].

Definition bigdir (s : list Z) : U unit :=
  _ ← unlink (lit "bd");
  fd ← open (lit "bd") O_CREATE;
  die_if (fd <? 0) "%s: bigdir create failed\n" [vs s] ;;
  close fd ;;
  ufor_ (seqZ 0 bigdir_N) (fun i =>
    let name := bigdir_name i in
    r ← link (lit "bd") name;
    die_if (negb (r =? 0)) "%s: bigdir i=%d link(bd, %s) failed\n" [vs s; VInt i; vs name]) ;;
  _ ← unlink (lit "bd");
  ufor_ (seqZ 0 bigdir_N) (fun i =>
    r ← unlink (bigdir_name i);
    die_if (negb (r =? 0)) "%s: bigdir unlink failed" [vs s]).

(** Writes from an address that is not the process's *)
Definition badwrite (s : list Z) : U unit :=
  let assumed_free := 600 in
  _ ← unlink (lit "junk");
  ufor_ (seqZ 0 assumed_free) (fun _ =>
    fd ← open (lit "junk") (Z.lor O_CREATE O_WRONLY);
    die_if (fd <? 0) "open junk failed\n" [] ;;
    _ ← sys (SWriteAt fd 0xffffffffff 1);
    close fd ;;
    _ ← unlink (lit "junk");
    mret tt) ;;
  fd ← open (lit "junk") (Z.lor O_CREATE O_WRONLY);
  die_if (fd <? 0) "open junk failed\n" [] ;;
  n ← write fd (lit "x");
  die_if (negb (n =? 1)) "write failed\n" [] ;;
  close fd ;;
  _ ← unlink (lit "junk");
  UExit 0.

(** diskfull(): the name of a large file and of a small one *)
Definition big_name (i : Z) : list Z := lit "big" ++ [ch "0" + i].
Definition zz_name (i : Z) : list Z := lit "zz" ++ [ch "0" + i / 32; ch "0" + i mod 32].

(** MAXFILE writes of the array [junk], which the test does not initialise; true when one failed *)
Definition diskfull_fill (fd : Z) (junk : list Z) (i : Z) : U (Z + bool) :=
  if negb (i <? MAXFILE) then mret (inr false)
  else
    n ← write fd junk;
    if negb (n =? BSIZE) then close fd ;; mret (inr true) else mret (inl (i + 1)).

Definition diskfull_big (s junk : list Z) (st : Z * bool) : U (Z * bool + unit) :=
  let '(fi, done) := st in
  if negb (negb done && (ch "0" + fi <? 127)) then mret (inr tt)
  else
    let name := big_name fi in
    _ ← unlink name;
    fd ← open name (Z.lor (Z.lor O_CREATE O_RDWR) O_TRUNC);
    if fd <? 0 then printf "%s: could not create file %s\n" [vs s; vs name] ;; mret (inr tt)
    else
      done ← uloop (Z.to_nat MAXFILE + 1) (diskfull_fill fd junk) 0;
      close fd ;;
      mret (inl (fi + 1, done)).

(** Small files until one cannot be created *)
Definition zz_create (nzz i : Z) : U (Z + unit) :=
  if negb (i <? nzz) then mret (inr tt)
  else
    _ ← unlink (zz_name i);
    fd ← open (zz_name i) (Z.lor (Z.lor O_CREATE O_RDWR) O_TRUNC);
    if fd <? 0 then mret (inr tt) else close fd ;; mret (inl (i + 1)).

Definition diskfull (junk s : list Z) : U unit :=
  _ ← unlink (lit "diskfulldir");
  uloop 80 (diskfull_big s junk) (0, false) ;;
  let nzz := 128 in
  uloop (Z.to_nat nzz + 1) (zz_create nzz) 0 ;;
  r ← mkdir (lit "diskfulldir");
  (if r =? 0 then printf "%s: mkdir(diskfulldir) unexpectedly succeeded!\n" [vs s] else mret tt) ;;
  _ ← unlink (lit "diskfulldir");
  ufor_ (seqZ 0 nzz) (fun i => _ ← unlink (zz_name i); mret tt) ;;
  ufor_ (seqZ 0 (127 - ch "0")) (fun i => _ ← unlink (big_name i); mret tt).

Definition outofinodes (s : list Z) : U unit :=
  let nzz := 32 * 32 in
  uloop (Z.to_nat nzz + 1) (zz_create nzz) 0 ;;
  ufor_ (seqZ 0 nzz) (fun i => _ ← unlink (zz_name i); mret tt).

(** fsfull(), which is in no list of tests *)
Definition fsfull_name (n : Z) : list Z :=
  [ch "f"; ch "0" + n / 1000; ch "0" + n mod 1000 / 100; ch "0" + n mod 100 / 10; ch "0" + n mod 10].

Definition fsfull_write (fd : Z) (st : Z * Z) : U (Z * Z + Z * Z) :=
  let '(total, fsblocks) := st in
  cc ← write fd (take (Z.to_nat BSIZE) buf0);
  if cc <? BSIZE then mret (inr (total, fsblocks)) else mret (inl (total + cc, fsblocks + 1)).

Definition fsfull_file (fuel : nat) (st : Z * Z) : U (Z * Z + Z) :=
  let '(nfiles, fsblocks) := st in
  let name := fsfull_name nfiles in
  printf "writing %s\n" [vs name] ;;
  fd ← open name (Z.lor O_CREATE O_RDWR);
  if fd <? 0 then printf "open %s failed\n" [vs name] ;; mret (inr nfiles)
  else
    '(total, fsblocks) ← uloop fuel (fsfull_write fd) (0, fsblocks);
    printf "wrote %d bytes\n" [VInt total] ;;
    close fd ;;
    if total =? 0 then mret (inr nfiles) else mret (inl (nfiles + 1, fsblocks)).

Definition fsfull (fuel : nat) : U unit :=
  printf "fsfull test\n" [] ;;
  nfiles ← uloop fuel (fsfull_file fuel) (0, 0);
  ufor_ (rev (seqZ 0 (nfiles + 1))) (fun n => _ ← unlink (fsfull_name n); mret tt) ;;
  printf "fsfull test finished\n" [].
