(* ===== verification/UTestsProc.v ===== *)
(** The tests of user/usertests.c with several processes: fork, exit, wait and kill,
    pipes, and processes that use the same files. *)
From stdpp Require Import base list strings.
From Stdlib Require Import ZArith Lia ZifyBool Ascii.
From S2P Require Import Prelude Fcntl Memory KPrintf State User Ulib UPrintf UProgs Umalloc UTestLib.

Local Open Scope Z_scope.

(** ** fork, exit and wait *)

Definition exitiputtest (s : list Z) : U unit :=
  _ ← fork_child "%s: fork failed\n" [vs s]
    (r ← mkdir (lit "iputdir");
     die_if (r <? 0) "%s: mkdir failed\n" [vs s] ;;
     r ← chdir (lit "iputdir");
     die_if (r <? 0) "%s: child chdir failed\n" [vs s] ;;
     r ← unlink (lit "../iputdir");
     die_if (r <? 0) "%s: unlink ../iputdir failed\n" [vs s] ;;
     UExit 0);
  '(_, xstatus) ← wait;
  UExit xstatus.

Definition openiputtest (s : list Z) : U unit :=
  r ← mkdir (lit "oidir");
  die_if (r <? 0) "%s: mkdir oidir failed\n" [vs s] ;;
  _ ← fork_child "%s: fork failed\n" [vs s]
    (fd ← open (lit "oidir") O_RDWR;
     die_if (0 <=? fd) "%s: open directory for write succeeded\n" [vs s] ;;
     UExit 0);
  pause 1 ;;
  r ← unlink (lit "oidir");
  die_if (negb (r =? 0)) "%s: unlink failed\n" [vs s] ;;
  '(_, xstatus) ← wait;
  UExit xstatus.

(** The child would go on with the parent's code if exec() returned a number that is not negative. *)
Definition exectest (s : list Z) : U unit :=
  _ ← unlink (lit "echo-ok");
  pid ← fork;
  die_if (pid <? 0) "%s: fork failed\n" [vs s] ;;
  (if pid =? 0 then
     close 1 ;;
     fd ← open (lit "echo-ok") (Z.lor O_CREATE O_WRONLY);
     die_if (fd <? 0) "%s: create failed\n" [vs s] ;;
     die_if (negb (fd =? 1)) "%s: wrong fd\n" [vs s] ;;
     r ← exec (lit "echo") [lit "echo"; lit "OK"];
     die_if (r <? 0) "%s: exec echo failed\n" [vs s]
   else mret tt) ;;
  '(r, xstatus) ← wait;
  (if negb (r =? pid) then printf "%s: wait failed!\n" [vs s] else mret tt) ;;
  (if negb (xstatus =? 0) then UExit xstatus else mret tt) ;;
  fd ← open (lit "echo-ok") O_RDONLY;
  die_if (fd <? 0) "%s: open failed\n" [vs s] ;;
  '(n, bs) ← read fd 2;
  die_if (negb (n =? 2)) "%s: read failed\n" [vs s] ;;
  _ ← unlink (lit "echo-ok");
  buf ← got (replicate 3 0) bs;
  b0 ← at_ buf 0;
  b1 ← at_ buf 1;
  if (b0 =? ch "O") && (b1 =? ch "K") then UExit 0
  else printf "%s: wrong output\n" [vs s] ;; UExit 1.

(** [while(1) getpid();] *)
Definition getpid_forever (fuel : nat) : U unit :=
  uloop fuel (fun _ : unit => call SGetpid ;; mret (inl tt)) tt.

Definition killstatus (fuel : nat) (s : list Z) : U unit :=
  ufor_ (seqZ 0 100) (fun _ =>
    pid1 ← fork_child "%s: fork failed\n" [vs s] (getpid_forever fuel);
    pause 1 ;;
    kill pid1 ;;
    '(_, xst) ← wait;
    die_if (negb (xst =? -1)) "%s: status should be -1\n" [vs s]) ;;
  UExit 0.

Definition preempt (fuel : nat) (s : list Z) : U unit :=
  pid1 ← fork_child "%s: fork failed" [vs s] (spin fuel);
  pid2 ← fork_child "%s: fork failed\n" [vs s] (spin fuel);
  '(_, (pfd0, pfd1)) ← pipe;
  pid3 ← fork_child "%s: fork failed\n" [vs s]
    (close pfd0 ;;
     n ← write pfd1 (lit "x");
     (if negb (n =? 1) then printf "%s: preempt write error" [vs s] else mret tt) ;;
     close pfd1 ;;
     spin fuel);
  close pfd1 ;;
  '(n, _) ← read pfd0 BUFSZ;
  if negb (n =? 1) then printf "%s: preempt read error" [vs s]
  else
    close pfd0 ;;
    printf "kill... " [] ;;
    kill pid1 ;;
    kill pid2 ;;
    kill pid3 ;;
    printf "wait... " [] ;;
    wait0 ;;
    wait0 ;;
    wait0.

Definition exitwait (s : list Z) : U unit :=
  ufor_ (seqZ 0 100) (fun i =>
    pid ← fork;
    die_if (pid <? 0) "%s: fork failed\n" [vs s] ;;
    if negb (pid =? 0) then
      '(r, xstate) ← wait;
      die_if (negb (r =? pid)) "%s: wait wrong pid\n" [vs s] ;;
      die_if (negb (i =? xstate)) "%s: wait wrong exit status\n" [vs s]
    else UExit i).

Definition reparent (s : list Z) : U unit :=
  master_pid ← sys SGetpid;
  ufor_ (seqZ 0 200) (fun _ =>
    pid ← fork;
    die_if (pid <? 0) "%s: fork failed\n" [vs s] ;;
    if negb (pid =? 0) then
      '(r, _) ← wait;
      die_if (negb (r =? pid)) "%s: wait wrong pid\n" [vs s]
    else
      pid2 ← fork;
      if pid2 <? 0 then kill master_pid ;; UExit 1 else UExit 0) ;;
  UExit 0.

Definition twochildren (s : list Z) : U unit :=
  ufor_ (seqZ 0 1000) (fun _ =>
    _ ← fork_child "%s: fork failed\n" [vs s] (UExit 0);
    _ ← fork_child "%s: fork failed\n" [vs s] (UExit 0);
    wait0 ;;
    wait0).

Definition forkfork_N : Z := 2.

Definition forkfork_child : U unit :=
  ufor_ (seqZ 0 200) (fun _ =>
    pid1 ← fork;
    (if pid1 <? 0 then UExit 1 else mret tt) ;;
    (if pid1 =? 0 then UExit 0 else mret tt) ;;
    wait0) ;;
  UExit 0.

Definition forkfork (s : list Z) : U unit :=
  ufor_ (seqZ 0 forkfork_N) (fun _ => _ ← fork_child "%s: fork failed" [vs s] forkfork_child; mret tt) ;;
  ufor_ (seqZ 0 forkfork_N) (fun _ =>
    '(_, xstatus) ← wait;
    die_if (negb (xstatus =? 0)) "%s: fork in child failed" [vs s]).

(** Every process forks until the file is there. *)
Definition forkforkfork_turn (_ : unit) : U (unit + unit) :=
  fd ← open (lit "stopforking") 0;
  if 0 <=? fd then UExit 0
  else
    r ← fork;
    (if r <? 0 then fd ← open (lit "stopforking") (Z.lor O_CREATE O_RDWR); close fd else mret tt) ;;
    mret (inl tt).

Definition forkforkfork (fuel : nat) (s : list Z) : U unit :=
  _ ← unlink (lit "stopforking");
  _ ← fork_child "%s: fork failed" [vs s] (uloop fuel forkforkfork_turn tt);
  pause 20 ;;
  fd ← open (lit "stopforking") (Z.lor O_CREATE O_RDWR);
  close fd ;;
  wait0 ;;
  pause 10.

Definition reparent2 (s : list Z) : U unit :=
  ufor_ (seqZ 0 800) (fun _ =>
    _ ← fork_child "fork failed\n" [] (_ ← fork; _ ← fork; UExit 0);
    wait0) ;;
  UExit 0.

Definition ft_N : Z := 1000.

Definition ft_fork (n : Z) : U (Z + Z) :=
  if negb (n <? ft_N) then mret (inr n)
  else
    pid ← fork;
    if pid <? 0 then mret (inr n)
    else if pid =? 0 then UExit 0 else mret (inl (n + 1)).

Definition forktest (s : list Z) : U unit :=
  n ← uloop (Z.to_nat ft_N + 1) ft_fork 0;
  die_if (n =? 0) "%s: no fork at all!\n" [vs s] ;;
  die_if (n =? ft_N) "%s: fork claimed to work 1000 times!\n" [vs s] ;;
  ufor_ (seqZ 0 n) (fun _ =>
    '(r, _) ← wait;
    die_if (r <? 0) "%s: wait stopped early\n" [vs s]) ;;
  '(r, _) ← wait;
  die_if (negb (r =? -1)) "%s: wait got too many\n" [vs s].

(** ** Pipes and memory *)

Definition pipe1_N : Z := 5.
Definition pipe1_SZ : Z := 1033.

(** [for(i = 0; i < SZ; i++) buf[i] = seq++;] *)
Definition pipe1_fill (seq : Z) : list Z := (fun i => u8 (seq + i)) <$> seqZ 0 pipe1_SZ.

Definition pipe1_child (s : list Z) (fd0 fd1 : Z) : U unit :=
  close fd0 ;;
  ufor_ (seqZ 0 pipe1_N) (fun n =>
    r ← write fd1 (pipe1_fill (n * pipe1_SZ));
    die_if (negb (r =? pipe1_SZ)) "%s: pipe1 oops 1\n" [vs s]) ;;
  UExit 0.

(** The loop variables are [seq], [total] and [cc]; the result is the total, or [None] after a wrong byte. *)
Definition pipe1_read (fd0 : Z) (st : Z * Z * Z) : U (Z * Z * Z + option Z) :=
  let '(seq, total, cc) := st in
  '(n, bs) ← read fd0 cc;
  if n <=? 0 then mret (inr (Some total))
  else
    buf ← got buf0 bs;
    if forallb (fun i => default 0 (buf !! Z.to_nat i) =? u8 (seq + i)) (seqZ 0 n) then
      let cc := cc * 2 in
      mret (inl (seq + n, total + n, if BUFSZ <? cc then BUFSZ else cc))
    else mret (inr None).

Definition pipe1 (fuel : nat) (s : list Z) : U unit :=
  '(e, (fd0, fd1)) ← pipe;
  die_if (negb (e =? 0)) "%s: pipe() failed\n" [vs s] ;;
  pid ← fork;
  if pid =? 0 then pipe1_child s fd0 fd1
  else if 0 <? pid then
    close fd1 ;;
    r ← uloop fuel (pipe1_read fd0) (0, 0, 1);
    match r with
    | None => printf "%s: pipe1 oops 2\n" [vs s]
    | Some total =>
        die_if (negb (total =? pipe1_N * pipe1_SZ)) "%s: pipe1 oops 3 total %d\n" [vs s; VInt total] ;;
        close fd0 ;;
        '(_, xstatus) ← wait;
        UExit xstatus
    end
  else die_if true "%s: fork() failed\n" [vs s].

(** mem(): blocks of 10001 bytes chained through their first word until there is no
    memory left, then freed.  [base] is the address of malloc()'s static header. *)
Definition mem_take (base : Z) (fuel : nat) (st : Z * heap) : U (Z * heap + Z * heap) :=
  let '(m1, h) := st in
  '(m2, h) ← malloc base fuel 10001 h;
  if m2 =? 0 then mret (inr (m1, h))
  else store m2 8 m1 ;; mret (inl (m2, h)).

Definition mem_free (fuel : nat) (st : Z * heap) : U (Z * heap + heap) :=
  let '(m1, h) := st in
  if m1 =? 0 then mret (inr h)
  else
    m2 ← load m1 8;
    h ← free fuel m1 h;
    mret (inl (m2, h)).

Definition mem (base : Z) (fuel : nat) (s : list Z) : U unit :=
  pid ← fork;
  if pid =? 0 then
    st ← uloop fuel (mem_take base fuel) (0, heap0);
    h ← uloop fuel (mem_free fuel) st;
    '(m1, h) ← malloc base fuel (1024 * 20) h;
    die_if (m1 =? 0) "%s: couldn't allocate mem?!!\n" [vs s] ;;
    _ ← free fuel m1 h;
    UExit 0
  else
    '(_, xstatus) ← wait;
    if xstatus =? -1 then UExit 0 else UExit xstatus.

(** ** Processes that use the same files *)

Definition truncate3_child (s : list Z) : U unit :=
  ufor_ (seqZ 0 100) (fun _ =>
    fd ← open (lit "truncfile") O_WRONLY;
    die_if (fd <? 0) "%s: open failed\n" [vs s] ;;
    n ← write fd (lit "1234567890");
    die_if (negb (n =? 10)) "%s: write got %d, expected 10\n" [vs s; VInt n] ;;
    close fd ;;
    fd ← open (lit "truncfile") O_RDONLY;
    _ ← read fd 32;
    close fd) ;;
  UExit 0.

Definition truncate3 (s : list Z) : U unit :=
  fd ← open (lit "truncfile") (Z.lor (Z.lor O_CREATE O_TRUNC) O_WRONLY);
  close fd ;;
  _ ← fork_child "%s: fork failed\n" [vs s] (truncate3_child s);
  ufor_ (seqZ 0 150) (fun _ =>
    fd ← open (lit "truncfile") (Z.lor (Z.lor O_CREATE O_WRONLY) O_TRUNC);
    die_if (fd <? 0) "%s: open failed\n" [vs s] ;;
    n ← write fd (lit "xxx");
    die_if (negb (n =? 3)) "%s: write got %d, expected 3\n" [vs s; VInt n] ;;
    close fd) ;;
  '(_, xstatus) ← wait;
  _ ← unlink (lit "truncfile");
  UExit xstatus.

(** Two processes write to the same descriptor.  All of [buf] is counted after each read. *)
Definition sharedfd_N : Z := 1000.
Definition sharedfd_SZ : Z := 10.

Definition occurs (c : Z) (buf : list Z) : Z := Z.of_nat (length (filter (fun x => x = c) buf)).

Definition sharedfd_count (fd : Z) (st : list Z * Z * Z) : U (list Z * Z * Z + Z * Z) :=
  let '(buf, nc, np) := st in
  '(n, bs) ← read fd sharedfd_SZ;
  if n <=? 0 then mret (inr (nc, np))
  else
    buf ← got buf bs;
    mret (inl (buf, nc + occurs (ch "c") buf, np + occurs (ch "p") buf)).

Definition sharedfd (fuel : nat) (s : list Z) : U unit :=
  _ ← unlink (lit "sharedfd");
  fd ← open (lit "sharedfd") (Z.lor O_CREATE O_RDWR);
  die_if (fd <? 0) "%s: cannot open sharedfd for writing" [vs s] ;;
  pid ← fork;
  let buf := replicate (Z.to_nat sharedfd_SZ) (if pid =? 0 then ch "c" else ch "p") in
  ufor_ (seqZ 0 sharedfd_N) (fun _ =>
    n ← write fd buf;
    die_if (negb (n =? sharedfd_SZ)) "%s: write sharedfd failed\n" [vs s]) ;;
  (if pid =? 0 then UExit 0
   else '(_, xstatus) ← wait; if negb (xstatus =? 0) then UExit xstatus else mret tt) ;;
  close fd ;;
  fd ← open (lit "sharedfd") 0;
  die_if (fd <? 0) "%s: cannot open sharedfd for reading\n" [vs s] ;;
  '(nc, np) ← uloop fuel (sharedfd_count fd) (buf, 0, 0);
  close fd ;;
  _ ← unlink (lit "sharedfd");
  if (nc =? sharedfd_N * sharedfd_SZ) && (np =? sharedfd_N * sharedfd_SZ) then UExit 0
  else printf "%s: nc/np test fails\n" [vs s] ;; UExit 1.

(** Four processes write four files. *)
Definition fourfiles_N : Z := 12.
Definition fourfiles_SZ : Z := 500.
Definition fourfiles_names : list (Z * list Z) := [(0, lit "f0"); (1, lit "f1"); (2, lit "f2"); (3, lit "f3")].

Definition fourfiles_child (s fname : list Z) (pi : Z) : U unit :=
  fd ← open fname (Z.lor O_CREATE O_RDWR);
  die_if (fd <? 0) "%s: create failed\n" [vs s] ;;
  buf ← from_option_U (memset buf0 0 (ch "0" + pi) fourfiles_SZ);
  ufor_ (seqZ 0 fourfiles_N) (fun _ =>
    n ← write fd (take (Z.to_nat fourfiles_SZ) buf);
    die_if (negb (n =? fourfiles_SZ)) "write failed %d\n" [VInt n]) ;;
  UExit 0.

(** The loop variables are [buf] and [total]. *)
Definition fourfiles_read (s : list Z) (fd i : Z) (st : list Z * Z) : U (list Z * Z + list Z * Z) :=
  let '(buf, total) := st in
  '(n, bs) ← read fd BUFSZ;
  if n <=? 0 then mret (inr (buf, total))
  else
    buf ← got buf bs;
    die_if (negb (forallb (fun c => c =? ch "0" + i) (take (Z.to_nat n) buf))) "%s: wrong char\n" [vs s] ;;
    mret (inl (buf, total + n)).

Definition fourfiles (fuel : nat) (s : list Z) : U unit :=
  ufor_ fourfiles_names (fun '(pi, fname) =>
    _ ← unlink fname;
    _ ← fork_child "%s: fork failed\n" [vs s] (fourfiles_child s fname pi);
    mret tt) ;;
  ufor_ fourfiles_names (fun _ =>
    '(_, xstatus) ← wait;
    if negb (xstatus =? 0) then UExit xstatus else mret tt) ;;
  _ ← ufold fourfiles_names (fun '(i, fname) buf =>
    fd ← open fname 0;
    '(buf, total) ← uloop fuel (fourfiles_read s fd i) (buf, 0);
    close fd ;;
    die_if (negb (total =? fourfiles_N * fourfiles_SZ)) "wrong length %d\n" [VInt total] ;;
    _ ← unlink fname;
    mret buf) buf0;
  mret tt.

(** Four processes create and delete files in the same directory. *)
Definition createdelete_N : Z := 20.
Definition NCHILD : Z := 4.
Definition cd_name (pi i : Z) : list Z := [ch "p" + pi; ch "0" + i].

Definition createdelete_child (s : list Z) (pi : Z) : U unit :=
  ufor_ (seqZ 0 createdelete_N) (fun i =>
    fd ← open (cd_name pi i) (Z.lor O_CREATE O_RDWR);
    die_if (fd <? 0) "%s: create failed\n" [vs s] ;;
    close fd ;;
    if (0 <? i) && (i mod 2 =? 0) then
      r ← unlink (cd_name pi (i / 2));
      die_if (r <? 0) "%s: unlink failed\n" [vs s]
    else mret tt) ;;
  UExit 0.

Definition createdelete_check (s : list Z) (i pi : Z) : U unit :=
  let name := cd_name pi i in
  fd ← open name 0;
  (if ((i =? 0) || (createdelete_N / 2 <=? i)) && (fd <? 0) then
     die_if true "%s: oops createdelete %s didn't exist\n" [vs s; vs name]
   else
     die_if ((1 <=? i) && (i <? createdelete_N / 2) && (0 <=? fd))
       "%s: oops createdelete %s did exist\n" [vs s; vs name]) ;;
  if 0 <=? fd then close fd else mret tt.

Definition createdelete (s : list Z) : U unit :=
  ufor_ (seqZ 0 NCHILD) (fun pi =>
    _ ← fork_child "%s: fork failed\n" [vs s] (createdelete_child s pi); mret tt) ;;
  ufor_ (seqZ 0 NCHILD) (fun _ =>
    '(_, xstatus) ← wait;
    if negb (xstatus =? 0) then UExit 1 else mret tt) ;;
  ufor_ (seqZ 0 createdelete_N) (fun i =>
    ufor_ (seqZ 0 NCHILD) (fun pi => createdelete_check s i pi)) ;;
  ufor_ (seqZ 0 createdelete_N) (fun i =>
    ufor_ (seqZ 0 NCHILD) (fun pi => _ ← unlink (cd_name pi i); mret tt)).

(** concreate(): create, link and unlink of the same files by two processes *)
Definition concreate_N : Z := 40.
Definition cc_file (i : Z) : list Z := [ch "C"; ch "0" + i].

Definition concreate_make (i : Z) : U unit :=
  let file := cc_file i in
  _ ← unlink file;
  pid ← fork;
  (if negb (pid =? 0) && (i mod 3 =? 1) then _ ← link (lit "C0") file; mret tt
   else if (pid =? 0) && (i mod 5 =? 1) then _ ← link (lit "C0") file; mret tt
   else
     fd ← open file (Z.lor O_CREATE O_RDWR);
     die_if (fd <? 0) "concreate create %s failed\n" [vs file] ;;
     close fd) ;;
  if pid =? 0 then UExit 0
  else '(_, xstatus) ← wait; if negb (xstatus =? 0) then UExit 1 else mret tt.

(** The directory is read entry by entry into [de], 2 bytes of inum and DIRSIZ of name;
    [fa] marks the files found and [n] counts them. *)
Definition concreate_list (s : list Z) (fd : Z) (st : list Z * list Z * Z) : U (list Z * list Z * Z + Z) :=
  let '(de, fa, n) := st in
  '(r, bs) ← read fd (2 + DIRSIZ);
  if r <=? 0 then mret (inr n)
  else
    de ← got de bs;
    b0 ← at_ de 0; b1 ← at_ de 1;
    let name := drop 2 de in
    n0 ← at_ name 0; n1 ← at_ name 1; n2 ← at_ name 2;
    if b0 + 256 * b1 =? 0 then mret (inl (de, fa, n))
    else if (n0 =? ch "C") && (n2 =? 0) then
      let i := n1 - ch "0" in
      die_if ((i <? 0) || (concreate_N <=? i)) "%s: concreate weird file %s\n" [vs s; vs name] ;;
      x ← at_ fa i;
      die_if (negb (x =? 0)) "%s: concreate duplicate file %s\n" [vs s; vs name] ;;
      fa ← from_option_U (aset fa i 1);
      mret (inl (de, fa, n + 1))
    else mret (inl (de, fa, n)).

Definition concreate_fight (s : list Z) (i : Z) : U unit :=
  let file := cc_file i in
  pid ← fork;
  die_if (pid <? 0) "%s: fork failed\n" [vs s] ;;
  (if ((i mod 3 =? 0) && (pid =? 0)) || ((i mod 3 =? 1) && negb (pid =? 0))
   then ufor_ (seqZ 0 6) (fun _ => fd ← open file 0; close fd)
   else ufor_ (seqZ 0 6) (fun _ => _ ← unlink file; mret tt)) ;;
  if pid =? 0 then UExit 0 else wait0.

Definition concreate (fuel : nat) (s : list Z) : U unit :=
  ufor_ (seqZ 0 concreate_N) concreate_make ;;
  fd ← open (lit ".") 0;
  n ← uloop fuel (concreate_list s fd) (replicate 16 0, replicate (Z.to_nat concreate_N) 0, 0);
  close fd ;;
  die_if (negb (n =? concreate_N)) "%s: concreate not enough files in directory listing\n" [vs s] ;;
  ufor_ (seqZ 0 concreate_N) (concreate_fight s).

(** A random choice of create, link and unlink; [x] is an [unsigned int]. *)
Definition linkunlink_turn (_ : Z) (x : Z) : U Z :=
  let x := u32 (x * 1103515245 + 12345) in
  (if x mod 3 =? 0 then fd ← open (lit "x") (Z.lor O_RDWR O_CREATE); close fd
   else if x mod 3 =? 1 then _ ← link (lit "cat") (lit "x"); mret tt
   else _ ← unlink (lit "x"); mret tt) ;;
  mret x.

Definition linkunlink (s : list Z) : U unit :=
  _ ← unlink (lit "x");
  pid ← fork;
  die_if (pid <? 0) "%s: fork failed\n" [vs s] ;;
  _ ← ufold (seqZ 0 100) linkunlink_turn (if negb (pid =? 0) then 1 else 97);
  if negb (pid =? 0) then wait0 else UExit 0.

(** Four processes write files of [sizeof(buf)] bytes. *)
Definition manywrites_child (s : list Z) (ci : Z) : U unit :=
  let name := [ch "b"; ch "a" + ci] in
  _ ← unlink name;
  ufor_ (seqZ 0 30) (fun _ =>
    ufor_ (seqZ 0 (ci + 1)) (fun _ =>
      fd ← open name (Z.lor O_CREATE O_RDWR);
      die_if (fd <? 0) "%s: cannot create %s\n" [vs s; vs name] ;;
      cc ← write fd buf0;
      die_if (negb (cc =? BUFSZ)) "%s: write(%d) ret %d\n" [vs s; VInt BUFSZ; VInt cc] ;;
      close fd) ;;
    _ ← unlink name;
    mret tt) ;;
  _ ← unlink name;
  UExit 0.

Definition manywrites (s : list Z) : U unit :=
  ufor_ (seqZ 0 4) (fun ci => _ ← fork_child "fork failed\n" [] (manywrites_child s ci); mret tt) ;;
  ufor_ (seqZ 0 4) (fun _ =>
    '(r, st) ← wait;
    let st := if r <? 0 then 0 else st in
    if negb (st =? 0) then UExit st else mret tt) ;;
  UExit 0.
