(* ===== verification/UTests.v ===== *)
(** The program of user/usertests.c: the lists of tests, and what runs each of them in a
    process of its own and counts the free pages before and after. *)
From stdpp Require Import base list strings.
From Stdlib Require Import ZArith Lia ZifyBool Ascii.
From S2P Require Import Prelude Fcntl Memory KPrintf State User Ulib UPrintf UProgs UTestLib UTestsMem UTestsFs UTestsProc.

Local Open Scope Z_scope.

(** struct test *)
Record test := mktest { t_f : list Z -> U unit; t_s : list Z }.

(** run(): the result is true if the exit status of the child is 0. *)
Definition runtest (f : list Z -> U unit) (s : list Z) : U bool :=
  printf "test %s: " [vs s] ;;
  pid ← fork;
  die_if (pid <? 0) "runtest: fork error\n" [] ;;
  if pid =? 0 then f s ;; UExit 0
  else
    '(_, xstatus) ← wait;
    (if negb (xstatus =? 0) then printf "FAILED\n" [] else printf "OK\n" []) ;;
    mret (xstatus =? 0).

(** [(justone == 0) || strcmp(t->s, justone) == 0] *)
Definition chosen (justone : option (list Z)) (s : list Z) : bool :=
  match justone with None => true | Some j => strcmp s j =? 0 end.

(** The end of the list is the entry whose name is 0. *)
Fixpoint runtests_from (tests : list test) (justone : option (list Z)) (continuous ntests : Z) : U Z :=
  match tests with
  | [] => mret ntests
  | t :: tests' =>
      if chosen justone (t_s t) then
        let ntests := ntests + 1 in
        ok ← runtest (t_f t) (t_s t);
        if negb ok && negb (continuous =? 2) then printf "SOME TESTS FAILED\n" [] ;; mret (-1)
        else runtests_from tests' justone continuous ntests
      else runtests_from tests' justone continuous ntests
  end.

Definition runtests (tests : list test) (justone : option (list Z)) (continuous : Z) : U Z :=
  runtests_from tests justone continuous 0.

Section Usertests.
(** [fuel] bounds the loops that run until a call fails or the process is killed;
    [base] and [uninit] are addresses, [garbage] and [junk] what local variables
    hold that are not initialised. *)
Context (fuel : nat) (base uninit garbage : Z) (junk : list Z).

Definition quicktests : list test :=
  [mktest copyin (lit "copyin"); mktest copyout (lit "copyout"); mktest copyinstr1 (lit "copyinstr1");
   mktest copyinstr2 (lit "copyinstr2"); mktest (copyinstr3 fuel) (lit "copyinstr3"); mktest rwsbrk (lit "rwsbrk");
   mktest truncate1 (lit "truncate1"); mktest truncate2 (lit "truncate2"); mktest truncate3 (lit "truncate3");
   mktest openiputtest (lit "openiput"); mktest exitiputtest (lit "exitiput"); mktest iputtest (lit "iput");
   mktest opentest (lit "opentest"); mktest writetest (lit "writetest"); mktest (writebig fuel) (lit "writebig");
   mktest createtest (lit "createtest"); mktest dirtest (lit "dirtest"); mktest exectest (lit "exectest");
   mktest (pipe1 fuel) (lit "pipe1"); mktest (killstatus fuel) (lit "killstatus"); mktest (preempt fuel) (lit "preempt");
   mktest exitwait (lit "exitwait"); mktest reparent (lit "reparent"); mktest twochildren (lit "twochildren");
   mktest forkfork (lit "forkfork"); mktest (forkforkfork fuel) (lit "forkforkfork"); mktest reparent2 (lit "reparent2");
   mktest (mem base fuel) (lit "mem"); mktest (sharedfd fuel) (lit "sharedfd"); mktest (fourfiles fuel) (lit "fourfiles");
   mktest createdelete (lit "createdelete"); mktest unlinkread (lit "unlinkread"); mktest linktest (lit "linktest");
   mktest (concreate fuel) (lit "concreate"); mktest linkunlink (lit "linkunlink"); mktest subdir (lit "subdir");
   mktest bigwrite (lit "bigwrite"); mktest (bigfile fuel) (lit "bigfile"); mktest fourteen (lit "fourteen");
   mktest rmdot (lit "rmdot"); mktest dirfile (lit "dirfile"); mktest iref (lit "iref");
   mktest forktest (lit "forktest"); mktest sbrkbasic (lit "sbrkbasic"); mktest sbrkmuch (lit "sbrkmuch");
   mktest kernmem (lit "kernmem"); mktest MAXVAplus (lit "MAXVAplus"); mktest (sbrkfail fuel garbage) (lit "sbrkfail");
   mktest sbrkarg (lit "sbrkarg"); mktest validatetest (lit "validatetest"); mktest (bsstest uninit) (lit "bsstest");
   mktest bigargtest (lit "bigargtest"); mktest argptest (lit "argptest"); mktest stacktest (lit "stacktest");
   mktest nowrite (lit "nowrite"); mktest pgbug (lit "pgbug"); mktest sbrkbugs (lit "sbrkbugs");
   mktest sbrklast (lit "sbrklast"); mktest sbrk8000 (lit "sbrk8000"); mktest badarg (lit "badarg");
   mktest lazy_alloc (lit "lazy_alloc"); mktest lazy_unmap (lit "lazy_unmap"); mktest lazy_copy (lit "lazy_copy");
   mktest (lazy_sbrk fuel) (lit "lazy_sbrk")].

Definition slowtests : list test :=
  [mktest bigdir (lit "bigdir"); mktest manywrites (lit "manywrites"); mktest badwrite (lit "badwrite");
   mktest (execout fuel) (lit "execout"); mktest (diskfull junk) (lit "diskfull"); mktest outofinodes (lit "outofinodes")].

(** One turn of the do loop of drivetests(): [inr] is a return, [inl] the end of the turn.  The
    two runs of tests are the same code with [n] and [ntests]. *)
Definition drive_run (tests : list test) (justone : option (list Z)) (continuous ntests : Z) : U (Z + Z) :=
  n ← runtests tests justone continuous;
  if n <? 0 then (if negb (continuous =? 2) then mret (inr 1) else mret (inl ntests))
  else mret (inl (ntests + n)).

Definition drive_end (free0 continuous ntests : Z) (justone : option (list Z)) : U (unit + Z) :=
  free1 ← countfree fuel;
  (if free1 <? free0 then printf "FAILED -- lost some free pages %d (out of %d)\n" [VInt free1; VInt free0] else mret tt) ;;
  if (free1 <? free0) && negb (continuous =? 2) then mret (inr 1)
  else match justone with
       | Some _ => if ntests =? 0 then printf "NO TESTS EXECUTED\n" [] ;; mret (inr 1) else mret (inl tt)
       | None => mret (inl tt)
       end.

Definition drive_turn (quick : bool) (continuous : Z) (justone : option (list Z)) : U (unit + Z) :=
  printf "usertests starting\n" [] ;;
  free0 ← countfree fuel;
  r ← drive_run quicktests justone continuous 0;
  match r with
  | inr v => mret (inr v)
  | inl ntests =>
      r ← (if quick then mret (inl ntests)
           else
             match justone with None => printf "usertests slow tests starting\n" [] | Some _ => mret tt end ;;
             drive_run slowtests justone continuous ntests);
      match r with
      | inr v => mret (inr v)
      | inl ntests => drive_end free0 continuous ntests justone
      end
  end.

Definition drivetests (quick : bool) (continuous : Z) (justone : option (list Z)) : U Z :=
  uloop fuel (fun _ : unit =>
    r ← drive_turn quick continuous justone;
    match r with
    | inr v => mret (inr v)
    | inl _ => if negb (continuous =? 0) then mret (inl tt) else mret (inr 0)
    end) tt.

Definition usertests_main (argv : list (list Z)) : U unit :=
  let argc := Z.of_nat (length argv) in
  let argv1 := nth 1 argv [] in
  '(quick, continuous, justone) ←
    (if (argc =? 2) && (strcmp argv1 (lit "-q") =? 0) then mret (true, 0, None)
     else if (argc =? 2) && (strcmp argv1 (lit "-c") =? 0) then mret (false, 1, None)
     else if (argc =? 2) && (strcmp argv1 (lit "-C") =? 0) then mret (false, 2, None)
     else if (argc =? 2) && negb (chr argv1 =? ch "-") then mret (false, 0, Some argv1)
     else if 1 <? argc then printf "Usage: usertests [-c] [-C] [-q] [testname]\n" [] ;; UExit 1
     else mret (false, 0, None));
  r ← drivetests quick continuous justone;
  if negb (r =? 0) then UExit 1
  else printf "ALL TESTS PASSED\n" [] ;; UExit 0.

End Usertests.
