(* ===== verification/UlibSpec.v ===== *)
(** The user library: memmove moves, strcmp compares, atoi reads what printf
    prints. *)
From stdpp Require Import base list strings.
From Stdlib Require Import ZArith Lia ZifyBool Ascii.
From S2P Require Import Prelude Fcntl Memory KPrintf User Ulib UPrintf.

Local Open Scope Z_scope.

(** ** memmove *)

Lemma aset_ok a i v : (i < length a)%nat -> aset a (Z.of_nat i) v = Some (<[i := v]> a).
Proof. intros Hi; unfold aset; replace ((0 <=? Z.of_nat i) && _) with true by lia; by rewrite Nat2Z.id. Qed.

(** [a] with the [n] bytes at [src] copied to [dst]. *)
Definition moved (a : list Z) (dst src n : nat) : list Z :=
  take dst a ++ take n (drop src a) ++ drop (dst + n) a.

Lemma move_up_run n a dst src :
  (dst <= src)%nat -> (src + n <= length a)%nat ->
  move_up n a (Z.of_nat dst) (Z.of_nat src) = Some (moved a dst src n).
Proof.
  revert a dst src; induction n as [| n IH]; intros a dst src Hle Hlen; cbn [move_up].
  - unfold moved; simpl; by rewrite Nat.add_0_r, take_drop.
  - rewrite Nat2Z.id; destruct (lookup_lt_is_Some_2 a src) as [v Hv]; [lia |].
    rewrite Hv; cbn [mbind option_bind]; rewrite aset_ok by lia; cbn [mbind option_bind].
    replace (Z.of_nat dst + 1) with (Z.of_nat (S dst)) by lia.
    replace (Z.of_nat src + 1) with (Z.of_nat (S src)) by lia.
    rewrite IH by (rewrite ?length_insert; lia); f_equal; unfold moved.
    rewrite (drop_S a v src) by done; erewrite take_S_r by (apply list_lookup_insert_eq; lia).
    rewrite take_insert_ge by lia; rewrite !drop_insert_lt by lia.
    rewrite <- app_assoc; simpl; do 4 f_equal; lia.
Qed.

Lemma move_down_run n a dst src :
  (src <= dst)%nat -> (dst + n <= length a)%nat ->
  move_down n a (Z.of_nat dst + Z.of_nat n) (Z.of_nat src + Z.of_nat n) = Some (moved a dst src n).
Proof.
  revert a; induction n as [| n IH]; intros a Hle Hlen; cbn [move_down].
  - unfold moved; simpl; by rewrite Nat.add_0_r, take_drop.
  - replace (Z.of_nat src + Z.of_nat (S n) - 1) with (Z.of_nat (src + n)) by lia.
    replace (Z.of_nat dst + Z.of_nat (S n) - 1) with (Z.of_nat (dst + n)) by lia.
    rewrite Nat2Z.id; destruct (lookup_lt_is_Some_2 a (src + n)) as [v Hv]; [lia |].
    rewrite Hv; cbn [mbind option_bind]; rewrite aset_ok by lia; cbn [mbind option_bind].
    rewrite !Nat2Z.inj_add, IH by (rewrite ?length_insert; lia); f_equal; unfold moved.
    rewrite take_insert_ge by lia.
    assert (Ht : take (S n) (drop src a) = take n (drop src a) ++ [v])
      by (apply take_S_r; by rewrite lookup_drop).
    rewrite Ht, drop_insert_ge, take_insert_ge by lia.
    rewrite (drop_S (<[(dst + n)%nat := v]> a) v) by (apply list_lookup_insert_eq; lia).
    rewrite drop_insert_lt by lia; rewrite <- !app_assoc; simpl; do 4 f_equal; lia.
Qed.

Lemma memmove_run a dst src n :
  (dst + n <= length a)%nat -> (src + n <= length a)%nat ->
  memmove a (Z.of_nat dst) (Z.of_nat src) (Z.of_nat n) = Some (moved a dst src n).
Proof.
  intros Hd Hs; unfold memmove; rewrite Nat2Z.id.
  destruct (Z.ltb_spec (Z.of_nat dst) (Z.of_nat src)); [apply move_up_run; lia | apply move_down_run; lia].
Qed.

(** ** strcmp *)

(** strcmp is 0 exactly for equal strings. *)
Lemma strcmp_eq p q : strcmp p q = 0 <-> cstr p = cstr q.
Proof.
  revert q; induction p as [| c p IH]; intros q; cbn [strcmp cstr].
  - destruct q as [| d q]; simpl; [done |]; destruct (Z.eqb_spec d 0); simpl; split; lia || done.
  - destruct q as [| d q]; simpl; [destruct (Z.eqb_spec c 0); simpl; split; try lia; done |].
    destruct (Z.eqb_spec c 0), (Z.eqb_spec d 0), (Z.eqb_spec c d); simpl; try lia; subst;
      rewrite ?IH; split; try congruence; try lia; intros [=]; done.
Qed.

(** ** atoi and printf *)

Definition is_digit (c : Z) : Prop := ch "0" <= c <= ch "9".

Lemma digit_of_dec c : is_digit c -> digit_of c = c - ch "0" /\ 0 <= digit_of c < 10.
Proof.
  unfold is_digit, digit_of; change (ch "0") with 48; change (ch "9") with 57; change (ch "a") with 97.
  intros; replace (c <=? 57) with true by lia; lia.
Qed.

Definition horner (ds : list Z) (n : Z) : Z := fold_left (fun n c => n * 10 + digit_of c) ds n.

Lemma horner_ge ds n : Forall is_digit ds -> 0 <= n -> n <= horner ds n.
Proof.
  revert n; induction ds as [| c ds IH]; intros n HF Hn; simpl; [lia |].
  apply Forall_cons in HF as [Hc HF]; destruct (digit_of_dec c Hc); etransitivity; [| apply IH; [done | lia]]; lia.
Qed.

Lemma atoi_loop_run ds n :
  Forall is_digit ds -> 0 <= n -> horner ds n < 2 ^ 31 -> atoi_loop ds n = horner ds n.
Proof.
  revert n; induction ds as [| c ds IH]; intros n HF Hn Hlt; simpl; [done |].
  apply Forall_cons in HF as [Hc HF]; destruct (digit_of_dec c Hc) as [Hd Hr].
  replace ((ch "0" <=? c) && (c <=? ch "9")) with true by (unfold is_digit in Hc; lia).
  replace (n * 10 + c - ch "0") with (n * 10 + digit_of c) by lia; simpl in Hlt.
  pose proof (horner_ge ds (n * 10 + digit_of c) HF ltac:(lia)) as Hge; unfold horner in *.
  rewrite i32_small by lia; apply IH; [done | lia | done].
Qed.

(** In base 10 the two tables of digits agree. *)
Lemma decimal_digit x : nth (Z.to_nat (x mod 10)) digits 0 = nth (Z.to_nat (x mod 10)) KPrintf.digits 0 /\
  is_digit (nth (Z.to_nat (x mod 10)) digits 0).
Proof.
  pose proof (Z.mod_pos_bound x 10); assert (Hn : (Z.to_nat (x mod 10) < 10)%nat) by lia; revert Hn.
  generalize (Z.to_nat (x mod 10)); intros n Hn.
  do 10 (destruct n as [| n]; [split; [reflexivity | split; discriminate] |]); lia.
Qed.

Lemma decimal_digits fuel x :
  int_digits fuel digits 10 x = int_digits fuel KPrintf.digits 10 x /\
  Forall is_digit (int_digits fuel digits 10 x).
Proof.
  revert x; induction fuel as [| fuel IH]; intros x; cbn [int_digits]; destruct (decimal_digit x) as [E F].
  - rewrite <- E; split; [done |]; by constructor.
  - destruct (x / 10 =? 0); [rewrite <- E; split; [done |]; by constructor |].
    destruct (IH (x / 10)) as [E' F']; rewrite <- E, <- E'; split; [done |]; by constructor.
Qed.

(** atoi() reads what printf("%d") prints: every int that is not negative
    comes back. *)
Theorem atoi_printint (n : Z) (Hn : 0 <= n < 2 ^ 31) :
  exists ds, printint n 10 true = Some ds /\ atoi ds = n.
Proof.
  assert (H64 : u64 n = n) by (apply u64_small; lia).
  unfold printint; replace (n <? 0) with false by lia; cbn [andb]; rewrite app_nil_r, H64.
  destruct (decimal_digits 64 n) as [E F].
  assert (Hlen : (length (int_digits 64 digits 10 n) <= 20)%nat).
  { rewrite E; apply int_digits_length; [lia |]; lia. }
  replace (20 <? _) with false by lia; eexists; split; [reflexivity |].
  assert (Hv : horner (rev (int_digits 64 digits 10 n)) 0 = n) by (rewrite E; apply int_digits_value; lia).
  unfold atoi; rewrite atoi_loop_run; [done | by apply Forall_rev | lia | rewrite Hv; lia].
Qed.

Lemma atoi_printint_witness : exists ds, printint 1945 10 true = Some ds /\ atoi ds = 1945.
Proof. apply (atoi_printint 1945); lia. Defined.
