(* ===== verification/GrepSpec.v ===== *)
(** What grep promises: its matcher accepts the language of the pattern, and a
    run prints exactly the matching lines, however read() cuts the input. *)
From stdpp Require Import base sets list strings.
From Stdlib Require Import ZArith Lia ZifyBool Ascii.
From S2P Require Import Prelude Fcntl Memory KPrintf User Ulib UlibSpec UPrintf Grep.

Local Open Scope Z_scope.

(** ** Patterns *)

(** One character, any number of them, or the end of the text; [.] stands for any
    character. *)
Inductive item := One (c : Z) | Many (c : Z) | AtEnd.

Fixpoint items (re : list Z) : list item :=
  match re with
  | [] => []
  | c :: re1 =>
      if c =? 0 then []
      else
        let rest := if (c =? ch "$") && (chr re1 =? 0) then [AtEnd] else One c :: items re1 in
        match re1 with
        | c1 :: re2 => if c1 =? ch "*" then Many c :: items re2 else rest
        | [] => rest
        end
  end.

Definition fits (c x : Z) : Prop := c = ch "." \/ x = c.

(** [lang its w r]: the items match [w] when [r] is the text after it. *)
Inductive lang : list item -> list Z -> list Z -> Prop :=
| lang_nil r : lang [] [] r
| lang_one c its x w r : fits c x -> lang its w r -> lang (One c :: its) (x :: w) r
| lang_many c its w1 w r : Forall (fits c) w1 -> lang its w r -> lang (Many c :: its) (w1 ++ w) r
| lang_end : lang [AtEnd] [] [].

(** A prefix of [text] matches. *)
Definition starts (re text : list Z) : Prop := exists w r, text = w ++ r /\ lang (items re) w r.

Lemma matchstar_iff c here text :
  matchstar c here text = true <->
  exists w t, cstr text = w ++ cstr t /\ Forall (fits c) w /\ here t = true /\ drop (length w) text = t.
Proof.
  induction text as [| x text IH]; cbn [matchstar].
  - destruct (here []) eqn:E; split; try done; [by exists [], [] |].
    intros (w & t & Hc & _ & Ht & Hd); destruct w; simpl in *; congruence.
  - destruct (here (x :: text)) eqn:E; [split; [by exists [], (x :: text) | done] |].
    destruct (Z.eqb_spec x 0) as [-> | Hx]; cbn [negb andb].
    { split; [done |]; intros (w & t & Hc & _ & Ht & Hd); destruct w; simpl in *; congruence. }
    destruct ((x =? c) || (c =? ch ".")) eqn:Ef.
    + rewrite IH; split.
      * intros (w & t & Hc & Hf & Ht & Hd); exists (x :: w), t; cbn [cstr]; replace (x =? 0) with false by lia.
        split; [simpl; by rewrite Hc |]; split; [constructor; [unfold fits; lia | done] | done].
      * intros (w & t & Hc & Hf & Ht & Hd); destruct w as [| y w]; [simpl in Hd; congruence |].
        cbn [cstr] in Hc; replace (x =? 0) with false in Hc by lia; injection Hc as <- Hc.
        apply Forall_cons in Hf as [_ Hf]; by exists w, t.
    + split; [done |]; intros (w & t & Hc & Hf & Ht & Hd); destruct w as [| y w]; [simpl in Hd; congruence |].
      cbn [cstr] in Hc; replace (x =? 0) with false in Hc by lia; injection Hc as <- Hc.
      apply Forall_cons in Hf as [Hf _]; unfold fits in Hf; lia.
Qed.

Lemma cstr_chr text : (chr text =? 0) = true -> cstr text = [].
Proof. destruct text as [| x text]; [done |]; simpl; by intros ->. Qed.

Lemma cstr_cons text : (chr text =? 0) = false -> cstr text = chr text :: cstr (tl text).
Proof. destruct text as [| x text]; [done |]; simpl; by intros ->. Qed.

Lemma cstr_drop text n : (n <= length (cstr text))%nat -> cstr (drop n text) = drop n (cstr text).
Proof.
  revert text; induction n as [| n IH]; intros text Hn; [done |].
  destruct text as [| x text]; [done |]; simpl in *; destruct (x =? 0); simpl in *; [lia | apply IH; lia].
Qed.

Lemma lang_one_iff c its text :
  (exists w r, text = w ++ r /\ lang (One c :: its) w r) <->
  exists x text', text = x :: text' /\ fits c x /\ exists w r, text' = w ++ r /\ lang its w r.
Proof.
  split.
  - intros (w & r & -> & H); inversion H; subst; simpl; eauto 10.
  - intros (x & ? & -> & Hf & w & r & -> & H); exists (x :: w), r; split; [done | by constructor].
Qed.

Lemma lang_many_iff c its text :
  (exists w r, text = w ++ r /\ lang (Many c :: its) w r) <->
  exists w1 text', text = w1 ++ text' /\ Forall (fits c) w1 /\ exists w r, text' = w ++ r /\ lang its w r.
Proof.
  split.
  - intros (w & r & -> & H); inversion H; subst; rewrite <- app_assoc; eauto 10.
  - intros (w1 & ? & -> & Hf & w & r & -> & H); exists (w1 ++ w), r; split; [by rewrite app_assoc | by constructor].
Qed.

Lemma lang_end_iff text : (exists w r, text = w ++ r /\ lang [AtEnd] w r) <-> text = [].
Proof. split; [intros (w & r & -> & H); by inversion H | intros ->; exists [], []; split; [done | constructor]]. Qed.

(** The item before the rest of the pattern, when it is not starred. *)
Lemma single_iff c re1 text :
  (forall text, matchhere re1 text = true <-> starts re1 (cstr text)) ->
  (if (c =? ch "$") && (chr re1 =? 0) then chr text =? 0
   else if negb (chr text =? 0) && ((c =? ch ".") || (c =? chr text)) then matchhere re1 (tl text) else false) = true <->
  exists w r, cstr text = w ++ r /\ lang (if (c =? ch "$") && (chr re1 =? 0) then [AtEnd] else One c :: items re1) w r.
Proof.
  intros IH; destruct ((c =? ch "$") && (chr re1 =? 0)); [rewrite lang_end_iff | rewrite lang_one_iff].
  - split; [apply cstr_chr |]; destruct text as [| x text]; [done |]; simpl; by destruct (x =? 0).
  - destruct (chr text =? 0) eqn:Ez; cbn [negb andb].
    + rewrite (cstr_chr _ Ez); split; [done | by intros (x & ? & [=] & _)].
    + rewrite (cstr_cons _ Ez); destruct ((c =? ch ".") || (c =? chr text)) eqn:Ef.
      * rewrite IH; split; [intros Hs; exists (chr text), (cstr (tl text)); split_and!; [done | unfold fits; lia | done] |].
        intros (x & t & [= <- <-] & _ & Hs); exact Hs.
      * split; [done |]; intros (x & t & [= <- <-] & Hf & _); unfold fits in Hf; lia.
Qed.

Lemma matchhere_iff re text : matchhere re text = true <-> starts re (cstr text).
Proof.
  remember (length re) as n eqn:Hn; revert re text Hn.
  induction (Nat.lt_wf_0 n) as [n _ IH]; intros re text ->; unfold starts.
  destruct re as [| c re1]; cbn [matchhere items].
  { split; [| done]; intros _; exists [], (cstr text); split; [done | constructor]. }
  destruct (c =? 0); [split; [| done]; intros _; exists [], (cstr text); split; [done | constructor] |].
  assert (IH1 : forall text, matchhere re1 text = true <-> starts re1 (cstr text))
    by (intros t; apply (IH (length re1)); [simpl; lia | done]).
  destruct re1 as [| c1 re2]; [by apply single_iff |].
  destruct (c1 =? ch "*"); [| by apply single_iff].
  rewrite matchstar_iff, lang_many_iff; split.
  - intros (w & t & Hc & Hf & Ht & _); exists w, (cstr t); split_and!; [done | done |].
    apply (IH (length re2)) in Ht; [exact Ht | simpl; lia | done].
  - intros (w & t & Hc & Hf & Ht); exists w, (drop (length w) text).
    assert (Hd : cstr (drop (length w) text) = t).
    { rewrite cstr_drop by (rewrite Hc, length_app; lia); by rewrite Hc, drop_app_length. }
    split_and!; [by rewrite Hd | done | | done].
    apply (IH (length re2)); [simpl; lia | done | by rewrite Hd].
Qed.

Lemma match_from_iff re text :
  match_from re text = true <-> exists pre text', cstr text = pre ++ text' /\ starts re text'.
Proof.
  induction text as [| x text IH]; cbn [match_from].
  - destruct (matchhere re []) eqn:E; split; try done.
    + intros _; exists [], []; split; [done |]; by apply matchhere_iff in E.
    + intros (pre & t & Hc & Hs); symmetry in Hc; apply app_nil in Hc as [-> ->].
      change [] with (cstr []) in Hs; apply matchhere_iff in Hs; congruence.
  - destruct (matchhere re (x :: text)) eqn:E.
    { split; [| done]; intros _; apply matchhere_iff in E; by exists [], (cstr (x :: text)). }
    assert (Hno : ~ starts re (cstr (x :: text))) by (rewrite <- matchhere_iff; congruence).
    cbn [cstr] in *; destruct (x =? 0); cbn [negb].
    + split; [done |]; intros (pre & t & Hc & Hs); symmetry in Hc; apply app_nil in Hc as [-> ->]; done.
    + rewrite IH; split; intros (pre & t & Hc & Hs).
      * exists (x :: pre), t; split; [simpl; congruence | done].
      * destruct pre as [| y pre]; [simpl in Hc; subst t; done |]; injection Hc as <- Hc; by exists pre, t.
Qed.

Lemma match_iff re text :
  match_ re text = true <->
  if chr re =? ch "^" then starts (tl re) (cstr text)
  else exists pre text', cstr text = pre ++ text' /\ starts re text'.
Proof. unfold match_; destruct (chr re =? ch "^"); [apply matchhere_iff | apply match_from_iff]. Qed.

(** C28: match(re, text) decides the language of the pattern: a pattern that begins
    with ^ must match at the start of the text, any other one somewhere in it;
    c* is any number of characters that fit c, . fits every character, and a $
    at the end of the pattern is the end of the text. *)
Theorem match_spec (re text : list Z) :
  match_ re text = true <->
  if chr re =? ch "^" then starts (tl re) (cstr text)
  else exists pre text', cstr text = pre ++ text' /\ starts re text'.
Proof. apply match_iff. Qed.

(** ** Lines *)

(** The complete lines of a text, without their newlines, and what follows the
    last newline; [cur] is the line so far. *)
Fixpoint chop (cur text : list Z) : list (list Z) * list Z :=
  match text with
  | [] => ([], cur)
  | c :: text' =>
      if c =? 10 then let '(ls, r) := chop [] text' in (cur :: ls, r) else chop (cur ++ [c]) text'
  end.

(** What grep prints for these lines. *)
Definition selected (pattern : list Z) (ls : list (list Z)) : list Z :=
  concat (map (fun l => if match_ pattern l then l ++ [10] else []) ls).

Lemma chop_app cur a b :
  chop cur (a ++ b) = let '(ls, r) := chop cur a in let '(ls', r') := chop r b in (ls ++ ls', r').
Proof.
  revert cur; induction a as [| c a IH]; intros cur; simpl; [by destruct (chop cur b) |].
  destruct (c =? 10); [| apply IH]; rewrite IH; destruct (chop [] a) as [ls r]; by destruct (chop r b).
Qed.

Lemma chop_no_newline cur a : 10 ∉ a -> chop cur a = ([], cur ++ a).
Proof.
  revert cur; induction a as [| c a IH]; intros cur Ha; simpl; [by rewrite app_nil_r |].
  replace (c =? 10) with false by (apply not_elem_of_cons in Ha; lia).
  rewrite IH by set_solver; by rewrite <- app_assoc.
Qed.

Lemma chop_rest cur a : 10 ∉ cur -> 10 ∉ (chop cur a).2.
Proof.
  revert cur; induction a as [| c a IH]; intros cur Hc; simpl; [done |].
  destruct (Z.eqb_spec c 10).
  - specialize (IH [] ltac:(set_solver)); destruct (chop [] a); done.
  - apply IH; set_solver.
Qed.

Lemma chop_elem cur a x : x ∈ (chop cur a).2 -> x ∈ cur ++ a.
Proof.
  revert cur; induction a as [| c a IH]; intros cur; simpl; [by rewrite app_nil_r |].
  destruct (c =? 10).
  - specialize (IH []); destruct (chop [] a) as [ls r]; simpl in *; set_solver.
  - intros Hx; apply IH in Hx; set_solver.
Qed.

(** The next line of a text. *)
Lemma strchr_newline t junk :
  0 ∉ t ->
  match strchr (t ++ 0 :: junk) 10 with
  | None => 10 ∉ t
  | Some k => exists t', t = take k t ++ 10 :: t' /\ 10 ∉ take k t /\ (k < length t)%nat
  end.
Proof.
  induction t as [| c t IH]; intros Hz; simpl; [set_solver |].
  replace (c =? 0) with false by (apply not_elem_of_cons in Hz; lia).
  destruct (Z.eqb_spec c 10) as [-> | Hc]; simpl.
  - exists t; split; [done |]; split; [set_solver | lia].
  - specialize (IH ltac:(set_solver)); destruct (strchr (t ++ 0 :: junk) 10) as [k |]; simpl.
    + destruct IH as (t' & Ht & Hn & Hk); exists t'; split; [by rewrite <- Ht |]; split; [| lia].
      rewrite not_elem_of_cons; done.
    + rewrite not_elem_of_cons; done.
Qed.

Lemma match_cstr re text : match_ re text = match_ re (cstr text).
Proof. apply eq_iff_eq_true; rewrite !match_iff; by rewrite cstr_idem. Qed.

(** ** The loops *)

Definition printed (w : tty) (out : list Z) : tty := mktty (t_in w) (t_sizes w) (t_out w ++ out).

Lemma printed_nil w : printed w [] = w.
Proof. destruct w; unfold printed; simpl; by rewrite app_nil_r. Qed.

Lemma printed_app w a b : printed (printed w a) b = printed w (a ++ b).
Proof. unfold printed; simpl; by rewrite app_assoc. Qed.

(** A turn on a text that has a newline. *)
Lemma grep_line_run pattern line t junk buf p w :
  10 ∉ line -> 0 ∉ line -> drop p buf = line ++ 10 :: t ++ 0 :: junk ->
  strchr (drop p buf) 10 = Some (length line) ->
  exists buf', run tty_serve (grep_line pattern (buf, p)) w =
      Done (inl (buf', S (p + length line))) (printed w (if match_ pattern line then line ++ [10] else [])) /\
    drop (S (p + length line)) buf' = t ++ 0 :: junk /\ length buf' = length buf.
Proof.
  intros Hn Hz Hd Hs; unfold grep_line; rewrite Hs.
  assert (Hp : (p + length line < length buf)%nat).
  { apply (f_equal length) in Hd; rewrite length_drop, length_app in Hd; simpl in Hd; lia. }
  assert (Hset : forall x, drop p (<[(p + length line)%nat := x]> buf) = line ++ x :: t ++ 0 :: junk).
  { intros x; rewrite drop_insert_ge, Hd by lia; replace (p + length line - p)%nat with (length line + 0)%nat by lia.
    by rewrite insert_app_r. }
  assert (Hrest : forall x, drop (S (p + length line)) (<[(p + length line)%nat := x]> buf) = t ++ 0 :: junk).
  { intros x; rewrite drop_insert_lt by lia; replace (S (p + length line)) with (p + (length line + 1))%nat by lia.
    rewrite <- drop_drop, Hd, drop_app_add; done. }
  rewrite match_cstr, Hset, cstr_app_nul by done.
  destruct (match_ pattern line).
  - exists (<[(p + length line)%nat := 10]> (<[(p + length line)%nat := 0]> buf)).
    rewrite run_sys; split; [| split; [| by rewrite !length_insert]].
    + cbn -[take drop]; unfold printed; do 2 f_equal.
      rewrite list_insert_insert_eq, Hset; replace (p + length line + 1 - p)%nat with (length line + 1)%nat by lia.
      by rewrite take_app_add.
    + by rewrite list_insert_insert_eq, Hrest.
  - exists (<[(p + length line)%nat := 0]> buf); split; [by rewrite printed_nil |].
    split; [apply Hrest | by rewrite length_insert].
Qed.

Lemma grep_lines_run pattern fuel t junk buf p w :
  0 ∉ t -> drop p buf = t ++ 0 :: junk -> (length t < fuel)%nat ->
  let '(ls, rest) := chop [] t in
  exists buf' p', run tty_serve (uloop fuel (grep_line pattern) (buf, p)) w =
      Done (buf', p') (printed w (selected pattern ls)) /\
    drop p' buf' = rest ++ 0 :: junk /\ length buf' = length buf /\ (p' + length rest = p + length t)%nat.
Proof.
  revert t buf p w; induction fuel as [| fuel IH]; intros t buf p w Hz Hd Hf; [lia |]; rewrite run_uloop.
  pose proof (strchr_newline t junk Hz) as Hs; destruct (strchr (t ++ 0 :: junk) 10) as [k |] eqn:Ek.
  - destruct Hs as (t' & Ht & Hn & Hk); set (line := take k t) in *.
    assert (Hkl : length line = k) by (unfold line; rewrite length_take; lia).
    destruct (grep_line_run pattern line t' junk buf p w Hn) as (buf1 & Hrun & Hd1 & Hl1).
    + rewrite Ht in Hz; set_solver.
    + by rewrite Hd, Ht, <- app_assoc.
    + by rewrite Hd, Ek, Hkl.
    + rewrite Hrun, Ht, chop_app, (chop_no_newline [] line) by done; simpl.
      specialize (IH t' buf1 (S (p + length line)) (printed w (if match_ pattern line then line ++ [10] else []))).
      destruct (chop [] t') as [ls rest].
      destruct IH as (buf2 & p2 & Hrun2 & Hd2 & Hl2 & Hp2); [rewrite Ht in Hz; set_solver | done | |].
      * apply (f_equal length) in Ht; rewrite length_app in Ht; simpl in Ht; lia.
      * exists buf2, p2; rewrite Hrun2, printed_app; split_and!; try done; [congruence |].
        rewrite length_app; simpl; lia.
  - rewrite chop_no_newline by done; exists buf, p; unfold grep_line; rewrite Hd, Ek.
    split_and!; [by rewrite printed_nil | done | done | done].
Qed.

(** Every line, and what follows the last newline, fits in the buffer with its
    newline. *)
Definition lines_fit (cur text : list Z) : Prop :=
  let '(ls, rest) := chop cur text in Forall (fun l => (length l <= 1022)%nat) (ls ++ [rest]).

Lemma lines_fit_cur cur text : lines_fit cur text -> (length cur <= 1022)%nat.
Proof.
  unfold lines_fit; revert cur; induction text as [| c text IH]; intros cur; simpl.
  - intros H; by apply Forall_inv in H.
  - destruct (c =? 10); [destruct (chop [] text); intros H; by apply Forall_inv in H |].
    intros H; apply IH in H; rewrite length_app in H; simpl in H; lia.
Qed.

Lemma lines_fit_app cur a b : lines_fit cur (a ++ b) -> lines_fit (chop cur a).2 b.
Proof.
  unfold lines_fit; rewrite chop_app; destruct (chop cur a) as [ls r]; simpl; destruct (chop r b) as [ls' r'].
  rewrite <- app_assoc, Forall_app; tauto.
Qed.

(** The buffer holds the unfinished line [cur]. *)
Definition holds (buf cur : list Z) : Prop :=
  length buf = 1024%nat /\ take (length cur) buf = cur /\ 0 ∉ cur /\ 10 ∉ cur.

(** A read of [bs] after [cur]. *)
Lemma store_run buf cur bs :
  holds buf cur -> (length cur + length bs <= 1023)%nat ->
  exists buf1 buf2 junk, astore buf (Z.of_nat (length cur)) bs = Some buf1 /\
    aset buf1 (Z.of_nat (length cur) + Z.of_nat (length bs)) 0 = Some buf2 /\
    length buf2 = 1024%nat /\ buf2 = (cur ++ bs) ++ 0 :: junk.
Proof.
  intros (Hl & Ht & _) Hn; unfold astore; replace ((0 <=? _) && _) with true by lia.
  rewrite Nat2Z.id, Ht; do 2 eexists; exists (drop (length cur + length bs + 1) buf); split; [reflexivity |].
  rewrite <- Nat2Z.inj_add, aset_ok by (rewrite !length_app, length_drop; lia); split; [reflexivity |].
  rewrite length_insert, !length_app, length_drop; split; [lia |].
  rewrite app_assoc, <- length_app.
  replace (length (cur ++ bs)) with (length (cur ++ bs) + 0)%nat at 1 by lia; rewrite insert_app_r; f_equal.
  destruct (lookup_lt_is_Some_2 buf (length (cur ++ bs))) as [x Hx]; [rewrite length_app; lia |].
  rewrite (drop_S buf x) by done; simpl; do 2 f_equal; lia.
Qed.

(** A turn of the outer loop that reads the bytes [bs]. *)
Lemma grep_read_run pattern fd buf cur bs w w' :
  holds buf cur -> 0 ∉ bs -> (0 < length bs)%nat -> (length cur + length bs <= 1023)%nat ->
  tty_serve (SRead fd (1023 - Z.of_nat (length cur))) w = ((Z.of_nat (length bs), bs), w') ->
  let '(ls, rest) := chop cur bs in
  exists buf', run tty_serve (grep_read pattern fd (buf, Z.of_nat (length cur))) w =
      Done (inl (buf', Z.of_nat (length rest))) (printed w' (selected pattern ls)) /\ holds buf' rest.
Proof.
  intros Hh Hz Hpos Hn Hread; destruct (store_run buf cur bs Hh Hn) as (buf1 & buf2 & junk & H1 & H2 & Hl2 & E2).
  destruct Hh as (Hl & Ht & Hc0 & Hc10).
  assert (Hch : chop [] (cur ++ bs) = chop cur bs) by (rewrite chop_app, chop_no_newline by done; simpl; by destruct (chop cur bs)).
  pose proof (grep_lines_run pattern 1025 (cur ++ bs) junk buf2 0 w') as Hrun; rewrite Hch in Hrun.
  pose proof (chop_rest cur bs Hc10) as Hr10; destruct (chop cur bs) as [ls rest] eqn:Ech; simpl in Hr10.
  destruct Hrun as (buf3 & p & Hrun & Hd3 & Hl3 & Hp3); [set_solver | by rewrite drop_0 | rewrite length_app; lia |].
  rewrite Nat.add_0_l, length_app in Hp3.
  assert (Hrest : take (length rest) (drop p buf3) = rest) by (by rewrite Hd3, take_app_length).
  exists (moved buf3 0 p (length rest)); split.
  - unfold grep_read, BUFSIZE; cbv beta iota.
    replace (1024 - Z.of_nat (length cur) - 1) with (1023 - Z.of_nat (length cur)) by lia.
    erewrite run_done by exact (run_call tty_serve _ _ _ _ Hread); cbv beta iota.
    replace (negb (0 <? Z.of_nat (length bs))) with false by lia.
    rewrite H1; cbn [from_option_U]; erewrite run_done by reflexivity; rewrite H2; erewrite run_done by reflexivity.
    unfold grep_lines; rewrite Hl2; erewrite run_done by exact Hrun; cbv beta iota.
    replace (0 <? Z.of_nat (length cur) + Z.of_nat (length bs)) with true by lia.
    replace (Z.of_nat (length cur) + Z.of_nat (length bs) - Z.of_nat p) with (Z.of_nat (length rest)) by lia.
    change 0 with (Z.of_nat 0); rewrite memmove_run by lia; reflexivity.
  - unfold moved; rewrite Hrest; simpl; split_and!; [| by rewrite take_app_length | | done].
    + rewrite length_app, length_drop; lia.
    + assert (Hz3 : forall x, x ∈ rest -> x ∈ cur ++ bs).
      { intros x Hx; apply chop_elem; by rewrite Ech. }
      intros Hin; apply Hz3 in Hin; set_solver.
Qed.

(** The bytes the next read() returns. *)
Lemma tty_read fd n w :
  0 < n -> t_in w <> [] -> exists bs inp', tty_serve (SRead fd n) w =
    ((Z.of_nat (length bs), bs), mktty inp' (tl (t_sizes w)) (t_out w)) /\
    t_in w = bs ++ inp' /\ (0 < length bs)%nat /\ Z.of_nat (length bs) <= n.
Proof.
  intros Hn Hne; destruct w as [inp sizes out]; simpl in *.
  set (k := Nat.min (Nat.max 1 (hd 0%nat sizes)) (Nat.min (Z.to_nat n) (length inp))).
  assert (Hk : (0 < k <= length inp)%nat) by (destruct inp; [done |]; unfold k; simpl; lia).
  exists (take k inp), (drop k inp); rewrite length_take, Nat.min_l by lia.
  split_and!; [done | by rewrite take_drop | lia | unfold k; lia].
Qed.

Lemma grep_eof pattern fd buf m w :
  t_in w = [] ->
  run tty_serve (grep_read pattern fd (buf, m)) w = Done (inr buf) (mktty [] (tl (t_sizes w)) (t_out w)).
Proof.
  intros Hin; destruct w as [inp sizes out]; simpl in Hin; subst inp.
  assert (Hread : tty_serve (SRead fd (BUFSIZE - m - 1)) (mktty [] sizes out) = ((0, []), mktty [] (tl sizes) out))
    by (simpl; by rewrite !Nat.min_0_r).
  unfold grep_read; cbv beta iota; by erewrite run_done by exact (run_call tty_serve _ _ _ _ Hread).
Qed.

Lemma grep_run fuel pattern fd cur buf w :
  holds buf cur -> 0 ∉ t_in w -> lines_fit cur (t_in w) -> (length (t_in w) < fuel)%nat ->
  exists buf' sizes', run tty_serve (uloop fuel (grep_read pattern fd) (buf, Z.of_nat (length cur))) w =
    Done buf' (mktty [] sizes' (t_out w ++ selected pattern (chop cur (t_in w)).1)) /\ length buf' = 1024%nat.
Proof.
  revert cur buf w; induction fuel as [| fuel IH]; intros cur buf w Hh Hz Hfit Hf; [lia |]; rewrite run_uloop.
  pose proof (lines_fit_cur _ _ Hfit) as Hcur; destruct (decide (t_in w = [])) as [Hin | Hin].
  - exists buf, (tl (t_sizes w)); split; [| apply Hh].
    rewrite grep_eof, Hin by done; simpl; by rewrite app_nil_r.
  - destruct (tty_read fd (1023 - Z.of_nat (length cur)) w) as (bs & inp' & Hread & Hbs & Hpos & Hle); [lia | done |].
    rewrite Hbs in *; assert (Hz1 : 0 ∉ bs) by set_solver.
    pose proof (grep_read_run pattern fd buf cur bs w _ Hh Hz1 Hpos ltac:(lia) Hread) as Hrun.
    rewrite chop_app; pose proof (lines_fit_app _ _ _ Hfit) as Hfit'.
    destruct (chop cur bs) as [ls rest]; simpl in Hfit'; destruct Hrun as (buf1 & -> & Hh1).
    set (w1 := printed _ _); destruct (IH rest buf1 w1 Hh1) as (buf2 & sizes2 & Hrun2 & Hl2).
    + simpl; set_solver.
    + exact Hfit'.
    + simpl; rewrite length_app in Hf; lia.
    + exists buf2, sizes2; rewrite Hrun2; split; [| done]; do 2 f_equal.
      unfold w1; simpl; destruct (chop rest inp') as [ls2 r2]; simpl.
      unfold selected; by rewrite map_app, concat_app, app_assoc.
Qed.

(** C14: grep(pattern, fd) terminates and prints exactly the matching lines, in
    order and complete, whatever pieces read() returns: for an input without
    NULs whose lines are at most 1022 characters long, the output is the
    concatenation of the lines that match the pattern; text after the last
    newline is not printed.  As many turns of the loop as there are bytes, and
    one more, are enough. *)
Theorem grep_spec (pattern : list Z) (fd : Z) (inp : list Z) (sizes : list nat) (out buf : list Z) (fuel : nat)
  (Hbuf : length buf = 1024%nat) (Hz : 0 ∉ inp) (Hfit : lines_fit [] inp) (Hf : (length inp < fuel)%nat) :
  exists buf' sizes', run tty_serve (grep fuel pattern fd buf) (mktty inp sizes out) =
    Done buf' (mktty [] sizes' (out ++ selected pattern (chop [] inp).1)).
Proof.
  destruct (grep_run fuel pattern fd [] buf (mktty inp sizes out)) as (buf' & sizes' & Hrun & _); try done.
  { split_and!; [done | done | set_solver | set_solver]. }
  by exists buf', sizes'.
Qed.

Lemma grep_spec_witness :
  exists buf' sizes',
    run tty_serve (grep 20 (lit "^a.*b") 0 (replicate 1024 0)) (mktty (lit "axb\nxab\nab\n") [1; 5; 2]%nat []) =
    Done buf' (mktty [] sizes' (lit "axb\nab\n")).
Proof.
  apply (grep_spec (lit "^a.*b") 0 (lit "axb\nxab\nab\n") [1; 5; 2]%nat [] (replicate 1024 0) 20).
  - reflexivity.
  - apply (bool_decide_unpack _); vm_compute; reflexivity.
  - apply (bool_decide_unpack _); vm_compute; reflexivity.
  - vm_compute; lia.
Defined.
