(* ===== verification/UProgsSpec.v ===== *)
(** What the user programs do on an input stream and an output stream: cat copies, wc
    counts, echo prints its arguments; and a defect of logstress. *)
From stdpp Require Import base list strings sets.
From Stdlib Require Import ZArith Lia ZifyBool Ascii.
From S2P Require Import Prelude Fcntl Memory KPrintf State User Ulib UPrintf UProgs UDemos Grep UlibSpec GrepSpec.

Local Open Scope Z_scope.

(** ** Output *)

Definition shows (w : tty) (bs : list Z) : tty := mktty (t_in w) (t_sizes w) (t_out w ++ bs).

Lemma ufor_putc s w : Forall (fun c => 0 <= c < 256) s -> run tty_serve (ufor_ s (putc 1)) w = Done tt (shows w s).
Proof.
  revert w; induction s as [| c s IH]; intros w Hs.
  - destruct w; unfold shows; simpl; by rewrite app_nil_r.
  - apply Forall_cons in Hs as [Hc Hs]; cbn [ufor_].
    rewrite (run_done tty_serve _ _ _ tt (shows w [c])).
    + rewrite IH by done; unfold shows; simpl; by rewrite <- (assoc_L (++)).
    + unfold putc; erewrite run_done by (apply (run_call tty_serve (SWrite 1 [u8 c])); reflexivity).
      rewrite u8_small by done; done.
Qed.

Lemma vprintf_run fmt ap s w :
  vformat (length fmt) fmt ap false = Some s -> Forall (fun c => 0 <= c < 256) s ->
  run tty_serve (vprintf 1 fmt ap) w = Done tt (shows w s).
Proof. intros E Hs; unfold vprintf; rewrite E; cbn [from_option_U]; by apply ufor_putc. Qed.

(** The decimal digits of an int *)
Definition dec (n : Z) : list Z := default [] (printint n 10 true).

Lemma dec_printint n : 0 <= n < 2 ^ 31 -> printint n 10 true = Some (dec n) /\ Forall (fun c => 0 <= c < 256) (dec n).
Proof.
  intros Hn; unfold dec; assert (H64 : u64 n = n) by (apply u64_small; lia).
  unfold printint; replace (n <? 0) with false by lia; cbn [andb]; rewrite app_nil_r, H64.
  destruct (decimal_digits 64 n) as [E F].
  assert (Hlen : (length (int_digits 64 digits 10 n) <= 20)%nat).
  { rewrite E; apply int_digits_length; [lia |]; lia. }
  replace (20 <? _) with false by lia; split; [done |]; apply Forall_rev.
  eapply Forall_impl; [exact F |]; unfold is_digit; change (ch "0") with 48; change (ch "9") with 57; simpl; lia.
Qed.

(** ** cat *)

Lemma cat_loop fuel fd w : (length (t_in w) < fuel)%nat ->
  exists sizes', run tty_serve (uloop fuel (cat_turn fd) tt) w = Done 0 (mktty [] sizes' (t_out w ++ t_in w)).
Proof.
  revert w; induction fuel as [| fuel IH]; intros w Hf; [lia |]; rewrite run_uloop.
  destruct (decide (t_in w = [])) as [Hin | Hin].
  - exists (tl (t_sizes w)); unfold cat_turn.
    assert (Hread : tty_serve (SRead fd 512) w = ((0, []), mktty [] (tl (t_sizes w)) (t_out w)))
      by (simpl; rewrite Hin; simpl; by rewrite !Nat.min_0_r).
    erewrite run_done by exact (run_call tty_serve _ _ _ _ Hread); cbv beta iota.
    rewrite Hin, app_nil_r; done.
  - destruct (tty_read fd 512 w) as (bs & inp' & Hread & Hbs & Hpos & _); [lia | done |].
    assert (Hturn : run tty_serve (cat_turn fd tt) w = Done (inl tt) (mktty inp' (tl (t_sizes w)) (t_out w ++ bs))).
    { unfold cat_turn; erewrite run_done by exact (run_call tty_serve _ _ _ _ Hread); cbv beta iota.
      replace (0 <? Z.of_nat (length bs)) with true by lia.
      erewrite run_done by (apply (run_call tty_serve (SWrite 1 bs)); reflexivity).
      rewrite Z.eqb_refl; done. }
    rewrite Hturn; destruct (IH (mktty inp' (tl (t_sizes w)) (t_out w ++ bs))) as (sizes' & ->).
    + simpl; rewrite Hbs, length_app in Hf; lia.
    + exists sizes'; simpl; by rewrite Hbs, (assoc_L (++)).
Qed.

(** cat copies its input to its output, whatever pieces read() returns. *)
Theorem cat_spec fuel fd inp sizes out : (length inp < fuel)%nat ->
  exists sizes', run tty_serve (cat fuel fd) (mktty inp sizes out) = Done tt (mktty [] sizes' (out ++ inp)).
Proof.
  intros Hf; destruct (cat_loop fuel fd (mktty inp sizes out) Hf) as (sizes' & Hrun); exists sizes'.
  unfold cat; by rewrite (run_done _ _ _ _ _ _ Hrun).
Qed.

(** ** wc *)

(** The words of a text: what stands between blanks *)
Fixpoint fields (cur l : list Z) : list (list Z) :=
  match l with
  | [] => match cur with [] => [] | _ => [cur] end
  | c :: l' =>
      if wc_blank c then match cur with [] => [] | _ => [cur] end ++ fields [] l'
      else fields (cur ++ [c]) l'
  end.

Definition count_of (x : Z) (l : list Z) : Z := Z.of_nat (length (filter (eq x) l)).

(** A word counts when it starts. *)
Definition open_word (cur : list Z) : bool := match cur with [] => false | _ => true end.

Lemma count_of_cons x y l : count_of x (y :: l) = (if y =? x then 1 else 0) + count_of x l.
Proof.
  unfold count_of; rewrite filter_cons; destruct (Z.eqb_spec y x) as [-> |]; case_decide; try congruence; cbn [length]; lia.
Qed.

Ltac pairs := repeat match goal with |- (_, _) = (_, _) => f_equal end.

Lemma wc_count_all xs cur l w c :
  0 <= l <= c -> 0 <= w <= c -> c + Z.of_nat (length xs) < 2 ^ 31 ->
  exists b, foldl wc_count (l, w, c, open_word cur) xs =
  (l + count_of 10 xs, w + Z.of_nat (length (fields cur xs)) - Z.b2z (open_word cur), c + Z.of_nat (length xs), b).
Proof.
  revert cur l w c; induction xs as [| x xs IH]; intros cur l w c Hl Hw Hc.
  - exists (open_word cur); unfold count_of; simpl; pairs; destruct cur; simpl; lia.
  - cbn [foldl length] in *; rewrite Nat2Z.inj_succ in *.
    assert (Hst : wc_count (l, w, c, open_word cur) x =
      (l + (if x =? 10 then 1 else 0), w + (if wc_blank x then 0 else 1 - Z.b2z (open_word cur)), c + 1,
       open_word (if wc_blank x then [] else cur ++ [x]))).
    { unfold wc_count; rewrite (i32_small (c + 1)), (i32_small (l + 1)), (i32_small (w + 1)) by lia.
      assert (open_word (cur ++ [x]) = true) as E by (by destruct cur).
      destruct (wc_blank x); rewrite ?E; destruct (x =? 10), cur as [| y cur]; simpl; pairs; lia. }
    rewrite Hst; destruct (IH (if wc_blank x then [] else cur ++ [x]) (l + (if x =? 10 then 1 else 0))
      (w + (if wc_blank x then 0 else 1 - Z.b2z (open_word cur))) (c + 1)) as [b ->].
    { destruct (x =? 10); lia. } { destruct (wc_blank x), (open_word cur); simpl; lia. } { lia. }
    exists b; rewrite count_of_cons; cbn [fields].
    assert (open_word (cur ++ [x]) = true) as E by (by destruct cur).
    destruct (wc_blank x); rewrite ?E; [destruct cur as [| y cur] |]; cbn [length app open_word Z.b2z];
      pairs; lia.
Qed.

Lemma wc_loop fuel fd st w : (length (t_in w) < fuel)%nat ->
  exists sizes', run tty_serve (uloop fuel (wc_turn fd) st) w = Done (0, foldl wc_count st (t_in w)) (mktty [] sizes' (t_out w)).
Proof.
  revert st w; induction fuel as [| fuel IH]; intros st w Hf; [lia |]; rewrite run_uloop.
  destruct (decide (t_in w = [])) as [Hin | Hin].
  - exists (tl (t_sizes w)); unfold wc_turn.
    assert (Hread : tty_serve (SRead fd 512) w = ((0, []), mktty [] (tl (t_sizes w)) (t_out w)))
      by (simpl; rewrite Hin; simpl; by rewrite !Nat.min_0_r).
    erewrite run_done by exact (run_call tty_serve _ _ _ _ Hread); cbv beta iota.
    by rewrite Hin.
  - destruct (tty_read fd 512 w) as (bs & inp' & Hread & Hbs & Hpos & _); [lia | done |].
    assert (Hturn : run tty_serve (wc_turn fd st) w = Done (inl (foldl wc_count st bs)) (mktty inp' (tl (t_sizes w)) (t_out w))).
    { unfold wc_turn; erewrite run_done by exact (run_call tty_serve _ _ _ _ Hread); cbv beta iota.
      by replace (0 <? Z.of_nat (length bs)) with true by lia. }
    rewrite Hturn; destruct (IH (foldl wc_count st bs) (mktty inp' (tl (t_sizes w)) (t_out w))) as (sizes' & ->).
    + simpl; rewrite Hbs, length_app in Hf; lia.
    + exists sizes'; simpl; by rewrite Hbs, foldl_app.
Qed.

Lemma fields_bound l cur : Z.of_nat (length (fields cur l)) <= Z.of_nat (length l) + Z.b2z (open_word cur).
Proof.
  revert cur; induction l as [| x l IH]; intros cur; cbn [fields length]; [destruct cur; simpl; lia |].
  pose proof (IH []) as H0; pose proof (IH (cur ++ [x])) as H1; cbn [open_word Z.b2z] in H0.
  destruct (wc_blank x); [destruct cur; cbn [app length open_word Z.b2z] in *; lia |].
  replace (open_word (cur ++ [x])) with true in H1 by (by destruct cur).
  destruct cur; cbn [open_word Z.b2z] in *; lia.
Qed.

(** The line wc prints *)
Definition wc_line (l w c : Z) (name : list Z) : list Z :=
  dec l ++ lit " " ++ dec w ++ lit " " ++ dec c ++ lit " " ++ name ++ lit "\n".

(** One step of printf() *)
Lemma vf_char f c fmt ap out : c <> 0 -> c <> 37 -> vformat f fmt ap false = Some out ->
  vformat (S f) (c :: fmt) ap false = Some (c :: out).
Proof.
  intros H0 H1 E; cbn [vformat]; simpl chr; change (ch "%") with 37.
  rewrite (proj2 (Z.eqb_neq c 0) H0), (proj2 (Z.eqb_neq c 37) H1); simpl tl; cbn [negb]; by rewrite E.
Qed.

Lemma vf_d f fmt n ap out : 0 <= n < 2 ^ 31 -> vformat f fmt ap false = Some out ->
  vformat (S (S f)) (37 :: 100 :: fmt) (VInt n :: ap) false = Some (dec n ++ out).
Proof.
  intros Hn E; cbn [vformat]; simpl chr; change (ch "%") with 37; cbn [Z.eqb Pos.eqb negb]; simpl chr; simpl tl.
  unfold convert, int_conv; change (ch "d") with 100; cbn [Z.eqb Pos.eqb va_int mbind option_bind].
  rewrite i32_small by lia; replace (i64 n) with n by (unfold i64; rewrite Z.mod_small; lia).
  rewrite (proj1 (dec_printint n Hn)); cbn [mbind option_bind]; simpl drop; by rewrite drop_0, E.
Qed.

Lemma vf_s f fmt s ap out : vformat f fmt ap false = Some out ->
  vformat (S (S f)) (37 :: 115 :: fmt) (VStr (Some s) :: ap) false = Some (cstr s ++ out).
Proof.
  intros E; cbn [vformat]; simpl chr; change (ch "%") with 37; cbn [Z.eqb Pos.eqb negb]; simpl chr; simpl tl.
  set (c1 := chr fmt); set (c2 := if c1 =? 0 then 0 else _).
  change (convert 115 c1 c2 (VStr (Some s) :: ap)) with (Some (cstr s, ap, 0%nat)).
  cbn [mbind option_bind]; simpl drop; by rewrite drop_0, E.
Qed.

Lemma wc_format l w c name : 0 <= l < 2 ^ 31 -> 0 <= w < 2 ^ 31 -> 0 <= c < 2 ^ 31 -> 0 ∉ name ->
  vformat (length (lit "%d %d %d %s\n")) (lit "%d %d %d %s\n") [VInt l; VInt w; VInt c; VStr (Some name)] false =
  Some (wc_line l w c name).
Proof.
  intros Hl Hw Hc Hn; unfold wc_line.
  replace name with (cstr name) at 2.
  - change (length (lit "%d %d %d %s\n")) with 12%nat.
    change (lit "%d %d %d %s\n") with [37; 100; 32; 37; 100; 32; 37; 100; 32; 37; 115; 10].
    change (lit " ") with [32]; change (lit "\n") with [10].
    do 3 (apply vf_d; [done |]; apply vf_char; [done | done |]).
    apply vf_s, vf_char; done.
  - clear -Hn; induction name as [| x name IH]; [done |]; cbn [cstr].
    destruct (Z.eqb_spec x 0) as [-> |]; [set_solver | f_equal; apply IH; set_solver].
Qed.

(** Wc(fd, name) reads its input to the end, whatever pieces read() returns, and
    prints the number of its lines, of its words (the fields between blanks) and of
    its characters, for an input of less than 2^31 bytes. *)
Theorem wc_spec fuel fd name inp sizes out :
  (length inp < fuel)%nat -> Z.of_nat (length inp) < 2 ^ 31 -> Forall (fun c => 0 < c < 256) name ->
  exists sizes', run tty_serve (wc fuel fd name) (mktty inp sizes out) =
    Done tt (mktty [] sizes' (out ++ wc_line (count_of 10 inp) (Z.of_nat (length (fields [] inp)))
                                      (Z.of_nat (length inp)) name)).
Proof.
  intros Hf Hlen Hname.
  destruct (wc_loop fuel fd (0, 0, 0, false) (mktty inp sizes out) Hf) as (sizes' & Hrun); exists sizes'.
  unfold wc; rewrite (run_done _ _ _ _ _ _ Hrun); simpl t_in; simpl t_out.
  destruct (wc_count_all inp [] 0 0 0) as [b Hb]; [lia.. |]; cbn [open_word Z.b2z] in Hb; rewrite Hb; cbv beta iota.
  rewrite !Z.add_0_l, Z.sub_0_r; change (0 <? 0) with false; cbv iota.
  assert (Hc : 0 <= count_of 10 inp <= Z.of_nat (length inp)).
  { unfold count_of; pose proof (length_filter (eq 10) inp); lia. }
  pose proof (fields_bound inp []) as Hw; cbn [open_word Z.b2z] in Hw.
  assert (Hn0 : 0 ∉ name) by (intros H0; rewrite Forall_forall in Hname; apply Hname in H0; lia).
  unfold printf; erewrite vprintf_run; [done | by apply wc_format; try lia |].
  unfold wc_line; rewrite !Forall_app; split_and!; try (apply dec_printint; lia); try (by repeat constructor).
  eapply Forall_impl; [exact Hname |]; simpl; lia.
Qed.

Lemma wc_spec_witness :
  exists sizes', run tty_serve (wc 30 0 (lit "f")) (mktty (lit "two words\n\n  x\ty") [3; 1; 9]%nat []) =
    Done tt (mktty [] sizes' (lit "2 4 16 f\n")).
Proof.
  destruct (wc_spec 30 0 (lit "f") (lit "two words\n\n  x\ty") [3; 1; 9]%nat []) as (sizes' & Hrun).
  - vm_compute; lia.
  - vm_compute; done.
  - repeat constructor; vm_compute; done.
  - exists sizes'; rewrite Hrun; vm_compute; reflexivity.
Defined.

(** ** echo *)

(** The arguments separated by spaces, and a newline *)
Fixpoint joined (args : list (list Z)) : list Z :=
  match args with
  | [] => []
  | a :: l => cstr a ++ (match l with [] => [10] | _ => [32] end) ++ joined l
  end.

Lemma take_strlen s : take (Z.to_nat (strlen s)) s = cstr s.
Proof.
  induction s as [| c s IH]; [done |]; cbn [strlen cstr]; destruct (c =? 0); [done |].
  assert (0 <= strlen s) by (clear; induction s as [| d s IH]; simpl; [lia |]; destruct (d =? 0); lia).
  replace (Z.to_nat (1 + strlen s)) with (S (Z.to_nat (strlen s))) by lia; simpl; by rewrite IH.
Qed.

(** echo prints its arguments, separated by one space each and ended by a newline;
    without arguments it prints nothing. *)
Theorem echo_spec argv w : run tty_serve (echo_main argv) w = Exited 0 (shows w (joined (tl argv))).
Proof.
  unfold echo_main; rewrite run_bind.
  assert (H : forall args w, run tty_serve (echo_words args) w = Done tt (shows w (joined args))).
  { clear; induction args as [| a l IH]; intros w; cbn [echo_words joined].
    - destruct w; unfold shows; simpl; by rewrite app_nil_r.
    - erewrite run_done by (apply (run_call tty_serve (SWrite 1 _)); reflexivity).
      erewrite run_done by (apply (run_call tty_serve (SWrite 1 _)); reflexivity).
      rewrite IH, take_strlen; unfold shows; simpl; do 2 f_equal; rewrite <- !(assoc_L (++)); by destruct l. }
  by rewrite H.
Qed.

(** ** logstress *)

(** A memset() past the end of an array *)
Lemma memset_past a dst c n k :
  dst + k = Z.of_nat (length a) -> 0 <= k < n -> memset a dst c n = None.
Proof.
  intros Hk Hn; unfold memset.
  assert (Hnone : forall l, foldl (fun a i => a ← a; aset a (dst + i) (u8 c)) None l = None) by (by induction l).
  assert (H : forall l a', length a' = length a -> k ∈ l ->
    foldl (fun a i => a ← a; aset a (dst + i) (u8 c)) (Some a') l = None).
  { induction l as [| x l IH]; intros a' Ha Hin; [by apply elem_of_nil in Hin |]; cbn [foldl mbind option_bind].
    unfold aset at 2; destruct ((0 <=? dst + x) && (dst + x <? Z.of_nat (length a'))) eqn:E; [| apply Hnone].
    apply elem_of_cons in Hin as [-> | Hin]; [lia |]; apply IH; [by rewrite length_insert | done]. }
  apply H; [done |]; apply elem_of_seqZ; lia.
Qed.

(** The child of logstress writes 2000 bytes into an array of 500: an access out of its
    bounds, for every file the kernel opens. *)
Theorem logstress_overflow {W} (h : forall c, W -> reply c * W) prog arg i w fd w' :
  h (SOpen arg (Z.lor O_CREATE O_RDWR)) w = (fd, w') -> 0 <= fd ->
  run h (logstress_child prog arg i) w = Faulted.
Proof.
  intros Hopen Hfd; unfold logstress_child.
  erewrite run_done by exact (run_call h _ _ _ _ Hopen).
  rewrite (proj2 (Z.ltb_ge _ _) Hfd).
  assert (Hm : memset (replicate (Z.to_nat logstress_BUFSZ) 0) 0 (ch "0" + i) logstress_SZ = None); [| by rewrite Hm].
  apply memset_past with (k := 500); [| unfold logstress_SZ; lia].
  by rewrite length_replicate.
Qed.
