(* ===== verification/UTestsSpec.v ===== *)
(** The verdict of user/usertests.c.

    The kernel that runs the tests is given by what matters to the driver: how each
    test's process ends and how many pages it loses.  usertests prints exactly the
    transcript of these results, and succeeds exactly if every test's process exits with 0
    and at least as many pages are free afterwards as before; without -C it stops at the
    first test that fails. *)
From stdpp Require Import base list strings.
From Stdlib Require Import ZArith Lia ZifyBool Ascii.
From S2P Require Import Prelude Fcntl Memory KPrintf State User Ulib UPrintf UProgs Umalloc UlibSpec UProgsSpec UTestLib UTestsMem UTestsFs UTestsProc UTests.

Local Open Scope Z_scope.

(** The exit status of each test to come with the pages it loses, the free pages, the
    driver's break, and what was printed. *)
Record tworld := mktw { tw_res : list (Z * Z); tw_free : Z; tw_brk : Z; tw_out : list Z }.

Definition tw_serve (c : ucall) (w : tworld) : reply c * tworld :=
  match c with
  | SFork => (1, w)
  | SWait =>
      match tw_res w with
      | (st, lost) :: rs => ((1, st), mktw rs (tw_free w - lost) (tw_brk w) (tw_out w))
      | [] => ((-1, 0), w)
      end
  | SSbrk n _ =>
      if n / PGSIZE <=? tw_free w
      then (tw_brk w, mktw (tw_res w) (tw_free w - n / PGSIZE) (tw_brk w + n) (tw_out w))
      else (-1, w)
  | SWrite _ bs => (Z.of_nat (length bs), mktw (tw_res w) (tw_free w) (tw_brk w) (tw_out w ++ bs))
  | c => (fail_reply c, w)
  end.

Definition tw_puts (w : tworld) (s : list Z) : tworld := mktw (tw_res w) (tw_free w) (tw_brk w) (tw_out w ++ s).

Lemma tw_putc fd s w : run tw_serve (ufor_ s (putc fd)) w = Done tt (tw_puts w (u8 <$> s)).
Proof.
  revert w; induction s as [| c s IH]; intros w; [destruct w; unfold tw_puts; simpl; by rewrite app_nil_r |].
  cbn [ufor_]; rewrite (run_done tw_serve _ _ _ tt (tw_puts w [u8 c])) by done.
  rewrite IH; unfold tw_puts; simpl; by rewrite <- app_assoc.
Qed.

Lemma tw_vprintf fmt ap out w :
  vformat (length fmt) fmt ap false = Some out -> run tw_serve (vprintf 1 fmt ap) w = Done tt (tw_puts w (u8 <$> out)).
Proof. intros E; unfold vprintf; rewrite E; cbn [from_option_U]; apply tw_putc. Qed.

Lemma tw_exit n w : run tw_serve (UExit n : U unit) w = Exited n w.
Proof. done. Qed.

Lemma tw_fork w : run tw_serve fork w = Done 1 w.
Proof. done. Qed.

Lemma tw_wait st lost rs free brk out :
  run tw_serve wait (mktw ((st, lost) :: rs) free brk out) = Done (1, st) (mktw rs (free - lost) brk out).
Proof. done. Qed.

Lemma tw_sbrk n w : run tw_serve (sbrk n) w =
  if n / PGSIZE <=? tw_free w
  then Done (tw_brk w) (mktw (tw_res w) (tw_free w - n / PGSIZE) (tw_brk w + n) (tw_out w)) else Done (-1) w.
Proof.
  unfold sbrk; destruct (n / PGSIZE <=? tw_free w) eqn:E; apply (run_call tw_serve (SSbrk n SBRK_EAGER)).
  all: unfold tw_serve; by rewrite E.
Qed.

Lemma tw_sbrk0 w : 0 <= tw_free w -> run tw_serve (sbrk 0) w = Done (tw_brk w) w.
Proof.
  intros Hf; rewrite tw_sbrk; change (0 / PGSIZE) with 0; replace (0 <=? tw_free w) with true by lia.
  rewrite Z.sub_0_r, Z.add_0_r; by destruct w.
Qed.

(** ** Counting the free pages *)

Lemma countfree_loop fuel n w : (Z.to_nat (tw_free w) < fuel)%nat -> 0 <= tw_free w -> 0 <= tw_brk w ->
  run tw_serve (uloop fuel countfree_turn n) w =
  Done (n + tw_free w) (mktw (tw_res w) 0 (tw_brk w + tw_free w * PGSIZE) (tw_out w)).
Proof.
  revert n w; induction fuel as [| fuel IH]; intros n w Hf Hfree Hbrk; [lia |]; rewrite run_uloop.
  assert (Ht : run tw_serve (countfree_turn n) w =
    if 1 <=? tw_free w then Done (inl (n + 1)) (mktw (tw_res w) (tw_free w - 1) (tw_brk w + PGSIZE) (tw_out w))
    else Done (inr n) w).
  { unfold countfree_turn; rewrite run_bind, tw_sbrk; change (PGSIZE / PGSIZE) with 1.
    destruct (1 <=? tw_free w); [| done].
    rewrite (proj2 (Z.eqb_neq (tw_brk w) SBRK_ERROR)); [done | unfold SBRK_ERROR; lia]. }
  rewrite Ht; destruct (Z.leb_spec 1 (tw_free w)) as [Hpos | Hzero].
  - rewrite IH by (unfold PGSIZE; simpl; lia); cbn [tw_res tw_free tw_brk tw_out].
    replace (n + 1 + (tw_free w - 1)) with (n + tw_free w) by lia.
    by replace (tw_brk w + PGSIZE + (tw_free w - 1) * PGSIZE) with (tw_brk w + tw_free w * PGSIZE) by lia.
  - assert (E : tw_free w = 0) by lia; rewrite E, Z.mul_0_l, !Z.add_0_r; destruct w; simpl in *; by subst.
Qed.

Lemma countfree_run fuel w : (Z.to_nat (tw_free w) < fuel)%nat -> 0 <= tw_free w < 2 ^ 19 -> 0 <= tw_brk w ->
  run tw_serve (countfree fuel) w = Done (tw_free w) w.
Proof.
  intros Hf Hfree Hbrk; unfold countfree; erewrite run_done by (apply tw_sbrk0; lia).
  erewrite run_done by (apply countfree_loop; [done | lia | done]).
  set (w1 := mktw _ 0 _ _); erewrite run_done by (by apply tw_sbrk0).
  assert (Hi : i32 (u64 (- (tw_brk w1 - tw_brk w))) = - (tw_free w * PGSIZE)).
  { unfold w1; simpl; unfold i32, u64, PGSIZE; rewrite Z.add_comm, <- Zplus_mod_idemp_r.
    rewrite <- (Znumtheory.Zmod_div_mod (2 ^ 32) (2 ^ 64)) by (try lia; by exists (2 ^ 32)).
    rewrite Zplus_mod_idemp_r, Z.mod_small; lia. }
  assert (Hd : - (tw_free w * PGSIZE) / PGSIZE = - tw_free w)
    by (rewrite <- Z.mul_opp_l; apply Z.div_mul; done).
  rewrite Hi, run_bind, tw_sbrk, Hd; unfold w1; simpl; replace (- tw_free w <=? 0) with true by lia.
  replace (0 - - tw_free w) with (tw_free w) by lia.
  replace (tw_brk w + tw_free w * PGSIZE + - (tw_free w * PGSIZE)) with (tw_brk w) by lia; by destruct w.
Qed.

(** ** What it prints *)

Definition bytes_ok (s : list Z) : Prop := Forall (fun c => 0 <= c < 256) s.

Lemma u8_id s : bytes_ok s -> u8 <$> s = s.
Proof. induction 1 as [| c s Hc _ IH]; [done |]; cbn [fmap list_fmap]; unfold u8 at 1; rewrite Z.mod_small by lia; by f_equal. Qed.

Lemma tw_printf fmt ap out w :
  vformat (length (lit fmt)) (lit fmt) ap false = Some out -> bytes_ok out -> run tw_serve (printf fmt ap) w = Done tt (tw_puts w out).
Proof. intros E Hb; unfold printf; rewrite (tw_vprintf _ _ out) by exact E; by rewrite u8_id. Qed.

(** A name that printf() prints as it is *)
Definition plain (s : list Z) : Prop := cstr s = s /\ bytes_ok s.

#[export] Instance plain_dec s : Decision (plain s).
Proof. unfold plain, bytes_ok; apply _. Defined.

(** The line of a test *)
Definition test_line (s : list Z) (st : Z) : list Z :=
  lit "test " ++ s ++ lit ": " ++ (if st =? 0 then lit "OK\n" else lit "FAILED\n").

(** The lines of a run that stops at the first failure *)
Fixpoint tests_report (names : list (list Z)) (rs : list (Z * Z)) : list Z :=
  match names, rs with
  | s :: names', (st, _) :: rs' =>
      test_line s st ++ (if st =? 0 then tests_report names' rs' else lit "SOME TESTS FAILED\n")
  | _, _ => []
  end.

(** ** Running the tests *)

Definition passes (rs : list (Z * Z)) : bool := forallb (fun r => r.1 =? 0) rs.
Definition lost (rs : list (Z * Z)) : Z := foldr (fun r n => r.2 + n) 0 rs.

(** [rs] is what is left to come after pages were lost. *)
Definition after (w : tworld) (n : Z) (rs : list (Z * Z)) (w' : tworld) : Prop :=
  tw_res w' = rs /\ tw_free w' = tw_free w - n /\ tw_brk w' = tw_brk w.

Lemma runtest_run f s st n rs w : plain s -> tw_res w = (st, n) :: rs ->
  exists w', run tw_serve (runtest f s) w = Done (st =? 0) w' /\ after w n rs w' /\ tw_out w' = tw_out w ++ test_line s st.
Proof.
  intros [Hs Hb] Hr; unfold runtest.
  erewrite run_done; [| apply (tw_printf _ _ (lit "test " ++ s ++ lit ": "))].
  2:{ rewrite <- Hs at 2; reflexivity. }
  2:{ apply Forall_app; split; [by repeat constructor |]; apply Forall_app; split; [done | by repeat constructor]. }
  erewrite run_done by apply tw_fork; cbn [die_if Z.ltb Z.compare Z.eqb].
  erewrite run_done by reflexivity.
  destruct w as [rs' free brk out]; simpl in Hr; subst rs'; unfold tw_puts; cbn [tw_res tw_free tw_brk tw_out].
  erewrite run_done by apply tw_wait; cbv beta iota; unfold test_line.
  destruct (st =? 0); cbn [negb]; (erewrite run_done; [| apply tw_printf; [reflexivity | by repeat constructor]]).
  all: eexists; split; [reflexivity |]; split; [done |]; unfold tw_puts; cbn [tw_out]; by rewrite <- !app_assoc.
Qed.

Lemma runtests_run ts rs rest n w :
  Forall (fun t => plain (t_s t)) ts -> length rs = length ts -> tw_res w = rs ++ rest ->
  exists w', run tw_serve (runtests_from ts None 0 n) w = Done (if passes rs then n + Z.of_nat (length ts) else -1) w' /\
    tw_out w' = tw_out w ++ tests_report (t_s <$> ts) rs /\ (passes rs = true -> after w (lost rs) rest w').
Proof.
  intros Hp; revert rs n w; induction Hp as [| t ts Ht _ IH]; intros [| [st k] rs] n w Hl Hr; try discriminate Hl.
  - exists w; rewrite Z.add_0_r, app_nil_r; split; [done |]; split; [done |]; split; [done |]; simpl; split; [lia | done].
  - cbn [runtests_from chosen].
    destruct (runtest_run (t_f t) (t_s t) st k (rs ++ rest) w Ht Hr) as (w1 & H1 & (Hr1 & Hf1 & Hb1) & Ho1).
    injection Hl as Hl; destruct (IH rs (n + 1) w1 Hl Hr1) as (w2 & H2 & Ho2 & A2).
    clear IH; rewrite run_bind, H1; change (passes ((st, k) :: rs)) with ((st =? 0) && passes rs).
    cbn [fmap list_fmap tests_report]; destruct (st =? 0); cbn [negb andb Z.eqb].
    + exists w2; split; [rewrite H2; f_equal; simpl length; destruct (passes rs); lia |].
      split; [by rewrite Ho2, Ho1, <- app_assoc |]; intros Hps; destruct (A2 Hps) as (B1 & B2 & B3).
      split; [done |]; simpl; split; [lia | congruence].
    + erewrite run_done; [| apply tw_printf; [reflexivity | by repeat constructor]].
      eexists; split; [reflexivity |]; split; [unfold tw_puts; cbn [tw_out]; by rewrite Ho1, <- app_assoc | done].
Qed.

(** ** The verdict *)

Section Verdict.
Context (fuel : nat) (base uninit garbage : Z) (junk : list Z).
Let quick_ts := quicktests fuel base uninit garbage.
Let slow_ts := slowtests fuel junk.

Lemma quick_plain : Forall (fun t => plain (t_s t)) quick_ts.
Proof. repeat (constructor; [apply (bool_decide_unpack _); vm_compute; exact I |]); constructor. Qed.

Lemma slow_plain : Forall (fun t => plain (t_s t)) slow_ts.
Proof. repeat (constructor; [apply (bool_decide_unpack _); vm_compute; exact I |]); constructor. Qed.

Lemma drive_run_ok ts rs rest ntests w :
  Forall (fun t => plain (t_s t)) ts -> length rs = length ts -> tw_res w = rs ++ rest ->
  exists w', run tw_serve (drive_run ts None 0 ntests) w =
      Done (if passes rs then inl (ntests + Z.of_nat (length ts)) else inr 1) w' /\
    tw_out w' = tw_out w ++ tests_report (t_s <$> ts) rs /\ (passes rs = true -> after w (lost rs) rest w').
Proof.
  intros Hp Hl Hr; unfold drive_run, runtests; destruct (runtests_run ts rs rest 0 w Hp Hl Hr) as (w' & Hw & Ho & Ha).
  exists w'; split; [| by split]; erewrite run_done by exact Hw.
  destruct (passes rs); [rewrite (proj2 (Z.ltb_ge _ _)) by lia |]; done.
Qed.

(** The line about lost pages *)
Definition lost_line (free1 free0 : Z) : list Z :=
  lit "FAILED -- lost some free pages " ++ dec free1 ++ lit " (out of " ++ dec free0 ++ lit ")\n".

Lemma lost_format free1 free0 : 0 <= free1 < 2 ^ 31 -> 0 <= free0 < 2 ^ 31 ->
  let fmt := lit "FAILED -- lost some free pages %d (out of %d)\n" in
  vformat (length fmt) fmt [VInt free1; VInt free0] false = Some (lost_line free1 free0).
Proof.
  intros H1 H0 fmt; unfold fmt, lost_line.
  repeat match goal with |- context [lit ?x] => let l := eval vm_compute in (lit x) in change (lit x) with l end; cbn [length app].
  repeat first [apply vf_d; [lia |] | apply vf_char; [done | done |]]; reflexivity.
Qed.

Lemma lost_bytes free1 free0 : 0 <= free1 < 2 ^ 31 -> 0 <= free0 < 2 ^ 31 -> bytes_ok (lost_line free1 free0).
Proof.
  intros H1 H0; unfold lost_line, bytes_ok; rewrite !Forall_app; split_and!; try (by apply dec_printint); by repeat constructor.
Qed.

Lemma drive_end_ok free0 ntests w :
  (Z.to_nat (tw_free w) < fuel)%nat -> 0 <= tw_free w < 2 ^ 19 -> 0 <= free0 < 2 ^ 19 -> 0 <= tw_brk w ->
  exists w', run tw_serve (drive_end fuel free0 0 ntests None) w = Done (if tw_free w <? free0 then inr 1 else inl tt) w' /\
    tw_out w' = tw_out w ++ (if tw_free w <? free0 then lost_line (tw_free w) free0 else []).
Proof.
  intros Hf Hfree H0 Hb; unfold drive_end; erewrite run_done by (by apply countfree_run).
  destruct (tw_free w <? free0); cbn [andb negb Z.eqb].
  - erewrite run_done; [| apply tw_printf; [apply lost_format; lia | apply lost_bytes; lia]]; eexists; split; [reflexivity | done].
  - erewrite run_done by reflexivity; eexists; split; [reflexivity | by rewrite app_nil_r].
Qed.

(** The tests that are run and the verdict on their results *)
Definition all_tests (quick : bool) : list test := quick_ts ++ (if quick then [] else slow_ts).
Definition verdict (rs : list (Z * Z)) : bool := passes rs && (lost rs <=? 0).

(** Everything usertests prints, for the results [rs] of its tests, with [free0] pages free at first *)
Definition transcript (quick : bool) (free0 : Z) (rs : list (Z * Z)) : list Z :=
  let rs1 := take (length quick_ts) rs in
  let rs2 := drop (length quick_ts) rs in
  lit "usertests starting\n" ++ tests_report (t_s <$> quick_ts) rs1 ++
  (if passes rs1 then (if quick then [] else lit "usertests slow tests starting\n" ++ tests_report (t_s <$> slow_ts) rs2) else []) ++
  (if passes rs && (0 <? lost rs) then lost_line (free0 - lost rs) free0 else []) ++
  (if verdict rs then lit "ALL TESTS PASSED\n" else []).

Lemma length_split {A B} (rs : list A) (ts ts1 ts2 : list B) : ts = ts1 ++ ts2 -> length rs = length ts ->
  exists rs1 rs2, rs = rs1 ++ rs2 /\ length rs1 = length ts1 /\ length rs2 = length ts2.
Proof.
  intros -> Hl; rewrite length_app in Hl; exists (take (length ts1) rs), (drop (length ts1) rs).
  rewrite take_drop, length_take, length_drop; split; [done | lia].
Qed.

Lemma lost_app rs1 rs2 : lost (rs1 ++ rs2) = lost rs1 + lost rs2.
Proof. induction rs1 as [| r rs1 IH]; simpl; [done | lia]. Qed.

Lemma passes_app rs1 rs2 : passes (rs1 ++ rs2) = passes rs1 && passes rs2.
Proof. apply forallb_app. Qed.

(** The slow tests, or nothing with -q *)
Lemma drive_slow_ok (quick : bool) rs2 k w :
  length rs2 = length (if quick then [] else slow_ts) -> tw_res w = rs2 ->
  exists w' k', run tw_serve (if quick then mret (inl k)
       else printf "usertests slow tests starting\n" [] ;; drive_run slow_ts None 0 k) w =
      Done (if passes rs2 then inl k' else inr 1) w' /\
    tw_out w' = tw_out w ++ (if quick then [] else lit "usertests slow tests starting\n" ++ tests_report (t_s <$> slow_ts) rs2) /\
    (passes rs2 = true -> tw_free w' = tw_free w - lost rs2 /\ tw_brk w' = tw_brk w).
Proof.
  intros Hl Hr; destruct quick.
  - destruct rs2 as [| ? ?]; [| discriminate Hl]; exists w; eexists; split; [reflexivity |]; split; [by rewrite app_nil_r |].
    intros _; simpl; split; [lia | done].
  - erewrite run_done; [| apply tw_printf; [reflexivity | by repeat constructor]].
    match goal with |- context [run _ (drive_run _ _ _ k) ?w] =>
      destruct (drive_run_ok slow_ts rs2 [] k w slow_plain Hl) as (w2 & H2 & Ho & A2); [simpl; by rewrite app_nil_r |] end.
    exists w2; eexists; split; [exact H2 |]; split; [rewrite Ho; unfold tw_puts; cbn [tw_out]; by rewrite <- app_assoc |].
    intros Hp; destruct (A2 Hp) as (_ & F2 & B2); split; [exact F2 | exact B2].
Qed.

Lemma drive_turn_ok (quick : bool) rs1 rs2 w :
  length rs1 = length quick_ts -> length rs2 = length (if quick then [] else slow_ts) -> tw_res w = rs1 ++ rs2 ->
  let rs := rs1 ++ rs2 in
  (Z.to_nat (tw_free w) < fuel)%nat -> (Z.to_nat (tw_free w - lost rs) < fuel)%nat ->
  0 <= tw_free w < 2 ^ 19 -> 0 <= tw_free w - lost rs < 2 ^ 19 -> 0 <= tw_brk w ->
  exists w', run tw_serve (drive_turn fuel base uninit garbage junk quick 0 None) w =
    Done (if verdict rs then inl tt else inr 1) w' /\
    tw_out w' ++ (if verdict rs then lit "ALL TESTS PASSED\n" else []) = tw_out w ++ transcript quick (tw_free w) rs.
Proof.
  intros Hl1 Hl2 Hr rs Hf Hf' Hfree Hfree' Hb; unfold drive_turn.
  assert (Ht : take (length quick_ts) rs = rs1 /\ drop (length quick_ts) rs = rs2).
  { rewrite <- Hl1; unfold rs; split; [apply take_app_length | apply drop_app_length]. }
  unfold transcript; rewrite (proj1 Ht), (proj2 Ht); clear Ht; unfold verdict, rs in *; rewrite passes_app, lost_app in *.
  erewrite run_done; [| apply tw_printf; [reflexivity | by repeat constructor]].
  set (w0 := tw_puts w _); erewrite run_done by (by apply countfree_run).
  destruct (drive_run_ok quick_ts rs1 rs2 0 w0 quick_plain Hl1 Hr) as (w1 & H1 & Ho1 & A1); erewrite run_done by exact H1.
  assert (Ho1' : tw_out w1 = tw_out w ++ lit "usertests starting\n" ++ tests_report (t_s <$> quick_ts) rs1)
    by (rewrite Ho1; unfold w0, tw_puts; cbn [tw_out]; by rewrite <- app_assoc).
  destruct (passes rs1); [| eexists; split; [reflexivity |]; cbn [andb]; rewrite !app_nil_r; exact Ho1'].
  destruct (A1 eq_refl) as (R1 & F1 & B1); clear A1 H1 Ho1; cbn [andb].
  destruct (drive_slow_ok quick rs2 (0 + Z.of_nat (length quick_ts)) w1 Hl2 R1) as (w2 & k & H2 & Ho2 & A2).
  match goal with |- context [run _ (?m ≫= ?f) w1] => rewrite (run_done tw_serve m f w1 _ w2 H2) end.
  rewrite Ho1' in Ho2; destruct (passes rs2); cbn [andb].
  2:{ eexists; split; [reflexivity |]; rewrite !app_nil_r, Ho2, <- !app_assoc; done. }
  destruct (A2 eq_refl) as (F2 & B2); assert (F2' : tw_free w2 = tw_free w - (lost rs1 + lost rs2)) by (rewrite F2, F1; simpl; lia).
  destruct (drive_end_ok (tw_free w0) k w2) as (w3 & H3 & Ho3); [rewrite F2'; lia | rewrite F2'; lia | exact Hfree | by rewrite B2, B1 |].
  change (tw_free w0) with (tw_free w) in *; rewrite F2' in H3, Ho3.
  assert (E : (tw_free w - (lost rs1 + lost rs2) <? tw_free w) = (0 <? lost rs1 + lost rs2)) by lia.
  assert (E' : (lost rs1 + lost rs2 <=? 0) = negb (0 <? lost rs1 + lost rs2)) by lia.
  rewrite E in H3, Ho3; rewrite E', H3; exists w3; split; [by destruct (0 <? lost rs1 + lost rs2) |].
  rewrite Ho3, Ho2, <- !app_assoc; done.
Qed.

(** C37: usertests, with -q for the quick tests and without arguments for all of them, prints
    its transcript and nothing else: a line with OK or FAILED for each test up to the first whose
    process does not exit with 0; a complaint with the numbers if fewer pages are free afterwards than
    before; ALL TESTS PASSED exactly if every test's process exited with 0 and at least as
    many pages are free as before.  It exits with 0 exactly then, otherwise with 1.  The kernel
    is given by how each test's process ends and how many pages it loses; the
    bound on the free pages is what the int of countfree() can hold. *)
Theorem usertests_verdict (quick : bool) (rs : list (Z * Z)) (w : tworld) (prog : list Z)
  (Hl : length rs = length (all_tests quick)) (Hr : tw_res w = rs)
  (Hfuel : (Z.to_nat (Z.max (tw_free w) (tw_free w - lost rs)) < fuel)%nat)
  (Hfree : 0 <= tw_free w < 2 ^ 19) (Hfree' : 0 <= tw_free w - lost rs < 2 ^ 19) (Hbrk : 0 <= tw_brk w) :
  exists w', run tw_serve (usertests_main fuel base uninit garbage junk (if quick then [prog; lit "-q"] else [prog])) w =
    Exited (if verdict rs then 0 else 1) w' /\ tw_out w' = tw_out w ++ transcript quick (tw_free w) rs.
Proof.
  destruct (length_split rs (all_tests quick) quick_ts (if quick then [] else slow_ts) eq_refl Hl) as (rs1 & rs2 & -> & Hl1 & Hl2).
  destruct (drive_turn_ok quick rs1 rs2 w Hl1 Hl2 Hr ltac:(lia) ltac:(lia) Hfree Hfree' Hbrk) as (w1 & H1 & Ho).
  assert (Ef : fuel = S (pred fuel)) by lia.
  assert (Hd : run tw_serve (drivetests fuel base uninit garbage junk quick 0 None) w =
    Done (if verdict (rs1 ++ rs2) then 0 else 1) w1).
  { unfold drivetests; rewrite Ef at 1; rewrite run_uloop, run_bind, H1; by destruct (verdict (rs1 ++ rs2)). }
  assert (Hm : forall q c j, run tw_serve (mret (q, c, j) : U (bool * Z * option (list Z))) w = Done (q, c, j) w) by done.
  rewrite <- Ho; clear Ho; unfold usertests_main; destruct quick; (erewrite run_done by exact (Hm _ _ _)); cbn beta iota.
  1: erewrite run_done by exact Hd. 2: erewrite run_done by exact Hd.
  all: destruct (verdict (rs1 ++ rs2)); cbn [negb Z.eqb]; [| eexists; split; [with_strategy opaque [run] apply tw_exit | by rewrite app_nil_r]].
  all: (erewrite run_done; [| apply tw_printf; [reflexivity | by repeat constructor]]); eexists; split; [apply tw_exit | reflexivity].
Qed.
End Verdict.

(** The quick tests pass but for the last, which loses one of the 8 free pages. *)
Lemma usertests_verdict_witness :
  exists w', run tw_serve (usertests_main 9 0 0 0 [] [lit "usertests"; lit "-q"])
    (mktw (replicate 63 (0, 0) ++ [(0, 1)]) 8 4096 []) = Exited 1 w' /\
    drop 1160 (tw_out w') = lit "test lazy_sbrk: OK\nFAILED -- lost some free pages 7 (out of 8)\n".
Proof.
  destruct (usertests_verdict 9 0 0 0 [] true (replicate 63 (0, 0) ++ [(0, 1)])
    (mktw (replicate 63 (0, 0) ++ [(0, 1)]) 8 4096 []) (lit "usertests")) as (w' & Hw & Ho).
  - vm_compute; reflexivity.
  - reflexivity.
  - apply Nat.ltb_lt; vm_compute; reflexivity.
  - simpl; lia.
  - split; [apply Z.leb_le | apply Z.ltb_lt]; vm_compute; reflexivity.
  - simpl; lia.
  - exists w'; split; [exact Hw |]; rewrite Ho; vm_compute; reflexivity.
Defined.
