(* ===== verification/Sh.v ===== *)
(** The shell, user/sh.c: the parser, its command trees, and their execution.

    The line that is parsed is the list [text] up to its NUL; a [char *] into
    it is an index, and [es] is its length.  A command points into the line, and
    nulterminate() stores the NULs that end its strings.  parseexec() fills the
    argument vector of a struct execcmd that parseredirs() may already have
    wrapped: here the arguments and the redirections are collected and the tree
    is built from them at the end.  malloc() is taken to succeed. *)
From stdpp Require Import base list strings.
From Stdlib Require Import ZArith Lia ZifyBool Ascii.
From S2P Require Import Prelude Fcntl Memory KPrintf User Ulib UPrintf.

Local Open Scope Z_scope.

(** ** Commands *)

Definition MAXARGS : nat := 10.

(** A string of the line: where it begins and ends. *)
Definition span : Type := nat * nat.

Inductive cmd :=
| EXEC (argv : list span)
| REDIR (c : cmd) (file : span) (mode fd : Z)
| PIPE (left right : cmd)
| LIST (left right : cmd)
| BACK (c : cmd).

(** ** Tokens *)

Definition whitespace : list Z := lit " \t\r\n\v".
Definition symbols : list Z := lit "<|>&;()".

(** [strchr(s, c) != 0] *)
Definition has_char (s : list Z) (c : Z) : bool := if strchr s c then true else false.

Definition is_ws (c : Z) : bool := has_char whitespace c.
Definition is_word (c : Z) : bool := negb (is_ws c) && negb (has_char symbols c).

(** How many characters a loop [while(s < es && f( *s)) s++] passes. *)
Fixpoint span_while (f : Z -> bool) (l : list Z) : nat :=
  match l with
  | [] => 0
  | c :: l' => if f c then S (span_while f l') else 0
  end.

(** A parsing function moves [*ps] or ends the shell with a message. *)
Inductive presult (A : Type) := POk (a : A) (ps : nat) | PPanic (msg : string) | PNoFuel.
Arguments POk {_} _ _.
Arguments PPanic {_} _.
Arguments PNoFuel {_}.

Definition P (A : Type) : Type := nat -> presult A.
#[export] Instance P_ret : MRet P := fun A a ps => POk a ps.
#[export] Instance P_bind : MBind P := fun A B f m ps =>
  match m ps with POk a ps' => f a ps' | PPanic msg => PPanic msg | PNoFuel => PNoFuel end.
Definition ppanic {A} (msg : string) : P A := fun _ => PPanic msg.
Definition pnofuel {A} : P A := fun _ => PNoFuel.

Section Parser.
Context (text : list Z).

Definition at_ (s : nat) : Z := nth s text 0.
Definition skip (s : nat) : nat := s + span_while is_ws (drop s text).

(** The token and, for [*q] and [*eq], where it is; and the new [*ps]. *)
Definition gettoken (ps : nat) : Z * span * nat :=
  let s := skip ps in
  let c := at_ s in
  let '(ret, e) :=
    if c =? 0 then (c, s)
    else if has_char (lit "|();&<") c then (c, S s)
    else if c =? ch ">" then
      if at_ (S s) =? ch ">" then (ch "+", S (S s)) else (c, S s)
    else (ch "a", s + span_while is_word (drop s text))%nat in
  (ret, (s, e), skip e).

Definition peek (ps : nat) (toks : list Z) : bool * nat :=
  let s := skip ps in (negb (at_ s =? 0) && has_char toks (at_ s), s).

(** ** Parsing *)

Definition ppeek (toks : list Z) : P bool := fun ps => let '(b, ps') := peek ps toks in POk b ps'.
Definition ptoken : P (Z * span) := fun ps => let '(tok, qe, ps') := gettoken ps in POk (tok, qe) ps'.

(** A redirection: file, mode and descriptor. *)
Definition redir : Type := span * Z * Z.
Definition redirect (c : cmd) (rs : list redir) : cmd :=
  foldl (fun c '(file, mode, fd) => REDIR c file mode fd) c rs.

(** The [switch(tok)] of parseredirs. *)
Definition redir_of (tok : Z) (file : span) : list redir :=
  if tok =? ch "<" then [(file, O_RDONLY, 0)]
  else if tok =? ch ">" then [(file, Z.lor (Z.lor O_WRONLY O_CREATE) O_TRUNC, 1)]
  else if tok =? ch "+" then [(file, Z.lor O_WRONLY O_CREATE, 1)]
  else [].

Fixpoint parseredirs (fuel : nat) (rs : list redir) : P (list redir) :=
  match fuel with
  | O => pnofuel
  | S fuel' =>
      b ← ppeek (lit "<>");
      if b : bool then
        '(tok, _) ← ptoken;
        '(t, file) ← ptoken;
        if negb (t =? ch "a") then ppanic "missing file for redirection"
        else parseredirs fuel' (rs ++ redir_of tok file)
      else mret rs
  end.

(** The loop of parseexec over the arguments. *)
Fixpoint parseargs (fuel : nat) (argv : list span) (rs : list redir) : P (list span * list redir) :=
  match fuel with
  | O => pnofuel
  | S fuel' =>
      b ← ppeek (lit "|)&;");
      if b : bool then mret (argv, rs)
      else
        '(tok, qe) ← ptoken;
        if tok =? 0 then mret (argv, rs)
        else if negb (tok =? ch "a") then ppanic "syntax"
        else
          let argv := argv ++ [qe] in
          if (MAXARGS <=? length argv)%nat then ppanic "too many args"
          else
            rs ← parseredirs (S (length text)) rs;
            parseargs fuel' argv rs
  end.

(** [while(peek(ps, es, "&"))] *)
Fixpoint parsebacks (fuel : nat) (c : cmd) : P cmd :=
  match fuel with
  | O => pnofuel
  | S fuel' =>
      b ← ppeek (lit "&");
      if b : bool then _ ← ptoken; parsebacks fuel' (BACK c) else mret c
  end.

Fixpoint parseline (fuel : nat) : P cmd :=
  match fuel with
  | O => pnofuel
  | S fuel' =>
      c ← parsepipe fuel';
      c ← parsebacks (S (length text)) c;
      b ← ppeek (lit ";");
      if b : bool then _ ← ptoken; r ← parseline fuel'; mret (LIST c r) else mret c
  end
with parsepipe (fuel : nat) : P cmd :=
  match fuel with
  | O => pnofuel
  | S fuel' =>
      c ← parseexec fuel';
      b ← ppeek (lit "|");
      if b : bool then _ ← ptoken; r ← parsepipe fuel'; mret (PIPE c r) else mret c
  end
with parseexec (fuel : nat) : P cmd :=
  match fuel with
  | O => pnofuel
  | S fuel' =>
      b ← ppeek (lit "(");
      if b : bool then parseblock fuel'
      else
        rs ← parseredirs (S (length text)) [];
        '(argv, rs) ← parseargs (S (length text)) [] rs;
        mret (redirect (EXEC argv) rs)
  end
with parseblock (fuel : nat) : P cmd :=
  match fuel with
  | O => pnofuel
  | S fuel' =>
      b ← ppeek (lit "(");
      if negb b then ppanic "parseblock"
      else
        _ ← ptoken;
        c ← parseline fuel';
        b ← ppeek (lit ")");
        if negb b then ppanic "syntax - missing )"
        else
          _ ← ptoken;
          rs ← parseredirs (S (length text)) [];
          mret (redirect c rs)
  end.

(** Four functions deep for every character of the line at most. *)
Definition parse_fuel : nat := 4 * length text + 4.

End Parser.

(** The NULs of nulterminate(); [buf] is the line. *)
Fixpoint nulterminate (c : cmd) (buf : list Z) : list Z :=
  match c with
  | EXEC argv => foldl (fun buf '(q, eq) => <[eq := 0]> buf) buf argv
  | REDIR c file _ _ => <[file.2 := 0]> (nulterminate c buf)
  | PIPE l r | LIST l r => nulterminate r (nulterminate l buf)
  | BACK c => nulterminate c buf
  end.

(** The end of parsecmd: the command and the line with its NULs, what is left when
    there is more after the command, or the message of a panic. *)
Inductive parsed := Parsed (c : cmd) (buf : list Z) | Leftovers (s : list Z) | Panicked (msg : string) | NoParse.

Definition parsecmd (s : list Z) : parsed :=
  let text := cstr s in
  match parseline text (parse_fuel text) 0%nat with
  | POk c ps =>
      let '(_, ps) := peek text ps [] in
      if negb (Nat.eqb ps (length text)) then Leftovers (drop ps text)
      else Parsed c (nulterminate c s)
  | PPanic msg => Panicked msg
  | PNoFuel => NoParse
  end.

(** ** Running commands *)

Definition panic {A} (s : string) : U A := fprintf 2 "%s\n" [VStr (Some (lit s))] ;; UExit 1.

Definition fork1 : U Z :=
  pid ← sys SFork;
  if (pid : Z) =? -1 then panic "fork" else mret pid.

(** runcmd(cmd) does not return; [buf] is the line that the command points into. *)
Section Runcmd.
Context (buf : list Z).

Definition string_at (s : span) : list Z := cstr (drop s.1 buf).

Fixpoint runcmd (c : cmd) : U unit :=
  match c with
  | EXEC [] => UExit 1
  | EXEC (a :: argv) =>
      _ ← sys (SExec (string_at a) (string_at <$> (a :: argv)));
      fprintf 2 "exec %s failed\n" [VStr (Some (string_at a))] ;;
      UExit 0
  | REDIR c file mode fd =>
      _ ← sys (SClose fd);
      r ← sys (SOpen (string_at file) mode);
      if (r : Z) <? 0 then
        fprintf 2 "open %s failed\n" [VStr (Some (string_at file))] ;; UExit 1
      else runcmd c
  | LIST l r =>
      pid ← fork1;
      if pid =? 0 then runcmd l
      else _ ← sys SWait; runcmd r
  | PIPE l r =>
      p ← sys SPipe;
      let '(e, (p0, p1)) := (p : Z * (Z * Z)) in
      if e <? 0 then panic "pipe"
      else
        pid ← fork1;
        if pid =? 0 then
          _ ← sys (SClose 1); _ ← sys (SDup p1); _ ← sys (SClose p0); _ ← sys (SClose p1);
          runcmd l
        else
          pid ← fork1;
          if pid =? 0 then
            _ ← sys (SClose 0); _ ← sys (SDup p0); _ ← sys (SClose p0); _ ← sys (SClose p1);
            runcmd r
          else
            _ ← sys (SClose p0); _ ← sys (SClose p1); _ ← sys SWait; _ ← sys SWait;
            UExit 0
  | BACK c =>
      pid ← fork1;
      if pid =? 0 then runcmd c else UExit 0
  end.
End Runcmd.

(** getcmd(buf, nbuf): -1 at the end of the input. *)
Definition getcmd (buf : list Z) (nbuf : Z) : U (Z * list Z) :=
  _ ← sys (SWrite 2 (lit "$ "));
  buf ← from_option_U (memset buf 0 0 nbuf);
  buf ← gets buf nbuf;
  mret (if chr buf =? 0 then -1 else 0, buf).

(** [runcmd(parsecmd(cmd))] *)
Definition run_line (s : list Z) : U unit :=
  match parsecmd s with
  | Parsed c buf => runcmd buf c
  | Leftovers l => fprintf 2 "leftovers: %s\n" [VStr (Some l)] ;; panic "syntax"
  | Panicked msg => panic msg
  | NoParse => UNoFuel
  end.

(** One turn of the main loop. *)
Definition shell_turn (buf : list Z) : U (list Z + unit) :=
  '(r, buf) ← getcmd buf 100;
  if r <? 0 then mret (inr tt)
  else
    let s := span_while (fun c => (c =? ch " ") || (c =? 9)) buf in
    let cmd := drop s buf in
    if chr cmd =? 10 then mret (inl buf)
    else if (chr cmd =? ch "c") && (nth 1 cmd 0 =? ch "d") && (nth 2 cmd 0 =? ch " ") then
      buf ← from_option_U (aset buf (Z.of_nat s + strlen cmd - 1) 0);
      let dir := cstr (drop (s + 3) buf) in
      r ← sys (SChdir dir);
      (if (r : Z) <? 0 then fprintf 2 "cannot cd %s\n" [VStr (Some dir)] else mret tt) ;;
      mret (inl buf)
    else
      pid ← fork1;
      if pid =? 0 then run_line cmd ;; UFault
      else _ ← sys SWait; mret (inl buf).

(** [fuel] bounds the lines read and the descriptors opened. *)
Definition main (fuel : nat) : U unit :=
  uloop fuel (fun _ : unit =>
    fd ← sys (SOpen (lit "console") O_RDWR);
    if negb (0 <=? fd) then mret (inr tt)
    else if 3 <=? fd then _ ← sys (SClose fd); mret (inr tt)
    else mret (inl tt)) tt ;;
  uloop fuel shell_turn (replicate 100 0) ;;
  UExit 0.

Example parse_demo :
  match parsecmd (lit "ls -l>out; (cat<in|wc)&" ++ [10; 0]) with
  | Parsed c buf =>
      c = LIST (REDIR (EXEC [(0, 2); (3, 5)]%nat) (6, 9)%nat 0x601 1)
            (BACK (PIPE (REDIR (EXEC [(12, 15)]%nat) (16, 18)%nat 0 0) (EXEC [(19, 21)]%nat))) /\
      string_at buf (6, 9)%nat = lit "out"
  | _ => False
  end.
Proof. vm_compute; done. Qed.
