(* ===== verification/ShSpec.v ===== *)
(** The shell's parser always ends, and it reads a command as its grammar says:
    parsing is the inverse of writing a command down, whatever white space is
    put between the tokens, and the strings the command runs with are the words
    of the line. *)
From stdpp Require Import base sets list strings.
From Stdlib Require Import ZArith Lia ZifyBool Ascii.
From S2P Require Import Prelude Fcntl Memory KPrintf User Ulib UPrintf Sh.

Local Open Scope Z_scope.

(** ** The token at the start of a text *)

(** Its kind and its length. *)
Definition lex (l : list Z) : Z * nat :=
  match l with
  | [] => (0, 0%nat)
  | c :: l' =>
      if has_char (lit "|();&<") c then (c, 1%nat)
      else if c =? ch ">" then if chr l' =? ch ">" then (ch "+", 2%nat) else (c, 1%nat)
      else (ch "a", span_while is_word l)
  end.

Lemma span_while_le f l : (span_while f l <= length l)%nat.
Proof. induction l as [| c l IH]; simpl; [lia |]; destruct (f c); lia. Qed.

Lemma span_while_stop f l : span_while f (drop (span_while f l) l) = 0%nat.
Proof. induction l as [| c l IH]; simpl; [done |]; destruct (f c) eqn:E; simpl; [done | by rewrite E]. Qed.

Lemma has_char_elem l c : 0 ∉ l -> has_char l c = true <-> c ∈ l.
Proof.
  unfold has_char; induction l as [| x l IH]; intros Hn; simpl; [set_solver |].
  apply not_elem_of_cons in Hn as [H0 Hn]; replace (x =? 0) with false by lia.
  rewrite elem_of_cons, <- IH by done; destruct (Z.eqb_spec x c) as [-> | Hx]; [tauto |].
  destruct (strchr l c); simpl; split; intros H; (right; done) || (destruct H; done) || done.
Qed.

(** A character that is neither white space nor a symbol. *)
Lemma word_start c : is_ws c = false -> has_char (lit "|();&<") c = false -> (c =? ch ">") = false -> is_word c = true.
Proof.
  intros Hw Hs Hg; unfold is_word; rewrite Hw; cbn [negb andb].
  destruct (has_char symbols c) eqn:E; [| done]; exfalso.
  assert (Hn : forall l, forallb (fun x => negb (x =? 0)) l = true -> 0 ∉ l).
  { intros l Hl H0; rewrite forallb_forall in Hl; apply list_elem_of_In in H0; specialize (Hl 0 H0); done. }
  apply has_char_elem in E; [| by apply Hn].
  assert (c ∉ lit "|();&<") by (intros H; apply has_char_elem in H; [congruence | by apply Hn]).
  change symbols with [60; 124; 62; 38; 59; 40; 41] in E; change (lit "|();&<") with [124; 40; 41; 59; 38; 60] in *.
  change (ch ">") with 62 in Hg; set_solver by lia.
Qed.

Lemma lex_length l : span_while is_ws l = 0%nat -> 0 ∉ l ->
  ((lex l).2 <= length l)%nat /\ ((lex l).1 = 0 -> l = []) /\ (l <> [] -> (0 < (lex l).2)%nat).
Proof.
  intros Hw Hz; destruct l as [| c l]; [simpl; split_and!; done || lia |].
  assert (Hc : is_ws c = false) by (simpl in Hw; by destruct (is_ws c)).
  assert (Hc0 : c <> 0) by (apply not_elem_of_cons in Hz as [? _]; done).
  unfold lex; destruct (has_char (lit "|();&<") c) eqn:Hs; [simpl; split_and!; lia || done |].
  destruct (c =? ch ">") eqn:Hg.
  - destruct (chr l =? ch ">") eqn:Hg2; simpl; split_and!; try lia; try done.
    destruct l; [done | simpl; lia].
  - pose proof (word_start c Hc Hs Hg) as Hword; pose proof (span_while_le is_word (c :: l)).
    simpl in *; rewrite Hword in *; split_and!; [lia | done | lia].
Qed.

Section Parser.
Context (text : list Z) (Hz : 0 ∉ text).
Notation len := (length text).

(** ** Positions *)

Lemma skip_ge s : (s <= skip text s)%nat.
Proof. unfold skip; lia. Qed.

Lemma skip_le s : (s <= len)%nat -> (skip text s <= len)%nat.
Proof. intros H; unfold skip; pose proof (span_while_le is_ws (drop s text)) as Hs; rewrite length_drop in Hs; lia. Qed.

Lemma skip_stop s : span_while is_ws (drop (skip text s) text) = 0%nat.
Proof. unfold skip; rewrite <- drop_drop; apply span_while_stop. Qed.

Lemma skip_idem s : skip text (skip text s) = skip text s.
Proof. unfold skip at 1; rewrite skip_stop; lia. Qed.

Lemma at_drop s : at_ text s = chr (drop s text).
Proof. unfold at_; rewrite <- (Nat.add_0_r s) at 1; rewrite <- nth_skipn; by destruct (drop s text). Qed.

Lemma drop_no_nul s : 0 ∉ drop s text.
Proof. intros H; apply Hz; rewrite <- (take_drop s text); set_solver. Qed.

Lemma gettoken_lex ps :
  gettoken text ps =
  let s := skip text ps in let '(tok, n) := lex (drop s text) in (tok, (s, s + n)%nat, skip text (s + n)).
Proof.
  unfold gettoken; cbv zeta; set (s := skip text ps); rewrite at_drop.
  pose proof (drop_no_nul s) as Hn; destruct (drop s text) as [| c l] eqn:Ed; simpl.
  - by rewrite Nat.add_0_r.
  - assert (Hs : at_ text (S s) = chr l) by (rewrite at_drop, <- Nat.add_1_r, <- drop_drop, Ed; done).
    replace (c =? 0) with false by (apply not_elem_of_cons in Hn; lia); rewrite Hs.
    destruct (has_char _ c); [by rewrite Nat.add_1_r |]; destruct (c =? ch ">"); [| done].
    destruct (chr l =? ch ">"); [by rewrite <- (Nat.add_1_r (S s)), <- Nat.add_1_r, <- Nat.add_assoc | by rewrite Nat.add_1_r].
Qed.

Lemma peek_head ps toks :
  peek text ps toks = (match drop (skip text ps) text with [] => false | c :: _ => has_char toks c end, skip text ps).
Proof.
  unfold peek; rewrite at_drop; pose proof (drop_no_nul (skip text ps)) as Hn.
  destruct (drop (skip text ps) text) as [| c l]; [done |]; simpl.
  by replace (c =? 0) with false by (apply not_elem_of_cons in Hn; lia).
Qed.

(** ** The parser ends *)

(** From position [ps] the function ends, and further on in the line. *)
Definition ends {A} (m : P A) (ps : nat) : Prop :=
  match m ps with POk _ ps' => (ps <= ps' <= len)%nat | PPanic _ => True | PNoFuel => False end.

Lemma ends_bind {A B} (m : P A) (f : A -> P B) ps :
  ends m ps -> (forall a ps', m ps = POk a ps' -> (ps <= ps' <= len)%nat -> ends (f a) ps') ->
  ends (m ≫= f) ps.
Proof.
  unfold ends, mbind, P_bind; destruct (m ps) as [a ps' | |]; try done; intros H Hf.
  specialize (Hf a ps' eq_refl H); destruct (f a ps'); try done; lia.
Qed.

Lemma ends_ret {A} (a : A) ps : (ps <= len)%nat -> ends (mret a) ps.
Proof. unfold ends; simpl; lia. Qed.

Lemma ends_peek toks ps : (ps <= len)%nat -> ends (ppeek text toks) ps.
Proof.
  intros H; unfold ends, ppeek; rewrite peek_head; pose proof (skip_ge ps); pose proof (skip_le ps H); lia.
Qed.

Lemma peek_true toks ps ps' :
  ppeek text toks ps = POk true ps' -> (ps <= ps')%nat /\ skip text ps' = ps' /\ (ps' < len)%nat.
Proof.
  unfold ppeek; rewrite peek_head; intros [= Hb <-]; split; [apply skip_ge |]; split; [apply skip_idem |].
  destruct (drop (skip text ps) text) eqn:E; [done |].
  apply (f_equal length) in E; rewrite length_drop in E; simpl in E; lia.
Qed.

Lemma token_bounds ps :
  (ps <= len)%nat -> exists tok qe ps', ptoken text ps = POk (tok, qe) ps' /\ (ps <= ps' <= len)%nat /\
    (tok <> 0 -> (ps < ps')%nat) /\ (skip text ps < len -> ps < ps')%nat.
Proof.
  intros H; unfold ptoken; rewrite gettoken_lex; cbv zeta; set (s := skip text ps).
  assert (Hl : length (drop s text) = (len - s)%nat) by apply length_drop.
  pose proof (lex_length (drop s text) (skip_stop ps) (drop_no_nul s)) as (H1 & _ & H3).
  assert (H4 : (lex (drop s text)).1 <> 0 -> drop s text <> []) by (intros Ht E; rewrite E in Ht; done).
  destruct (lex (drop s text)) as [tok n]; cbn [fst snd] in *; do 3 eexists; split; [reflexivity |].
  pose proof (skip_ge ps) as S1; pose proof (skip_le ps H) as S2; fold s in S1, S2.
  pose proof (skip_ge (s + n)); pose proof (skip_le (s + n) ltac:(lia)).
  split; [lia |]; split; intros Ht; [specialize (H3 (H4 Ht)); lia |].
  assert (drop s text <> []) as E by (intros E; rewrite E in Hl; simpl in Hl; lia); specialize (H3 E); lia.
Qed.

Lemma ends_token ps : (ps <= len)%nat -> ends (ptoken text) ps.
Proof. intros H; destruct (token_bounds ps H) as (? & ? & ? & E & ? & _); unfold ends; by rewrite E. Qed.

(** After a successful peek the token takes a character. *)
Lemma token_after_peek toks ps ps' tq ps'' :
  ppeek text toks ps = POk true ps' -> ptoken text ps' = POk tq ps'' -> (ps < ps'' <= len)%nat.
Proof.
  intros Hp Ht; apply peek_true in Hp as (H1 & H2 & H3).
  destruct (token_bounds ps' ltac:(lia)) as (? & ? & ? & E & Hb & _ & Hlt); rewrite E in Ht; injection Ht as _ <-.
  rewrite H2 in Hlt; specialize (Hlt H3); lia.
Qed.

Lemma parseredirs_ends fuel rs ps : (ps <= len)%nat -> (len - ps < fuel)%nat -> ends (parseredirs text fuel rs) ps.
Proof.
  revert rs ps; induction fuel as [| fuel IH]; intros rs ps Hps Hf; [lia |]; cbn [parseredirs].
  apply ends_bind; [by apply ends_peek |]; intros b ps1 E1 H1; destruct b; [| apply ends_ret; lia].
  apply ends_bind; [apply ends_token; lia |]; intros [tok ?] ps2 E2 H2; pose proof (token_after_peek _ _ _ _ _ E1 E2).
  apply ends_bind; [apply ends_token; lia |]; intros [t file] ps3 _ H3; destruct (negb _); [done |]; apply IH; lia.
Qed.

Lemma parseargs_ends fuel argv rs ps : (ps <= len)%nat -> (len - ps < fuel)%nat -> ends (parseargs text fuel argv rs) ps.
Proof.
  revert argv rs ps; induction fuel as [| fuel IH]; intros argv rs ps Hps Hf; [lia |]; cbn [parseargs].
  apply ends_bind; [by apply ends_peek |]; intros b ps1 _ H1; destruct b; [apply ends_ret; lia |].
  apply ends_bind; [apply ends_token; lia |]; intros [tok qe] ps2 E2 H2.
  destruct (Z.eqb_spec tok 0) as [| Ht]; [apply ends_ret; lia |]; destruct (negb _); [done |]; destruct (_ <=? _)%nat; [done |].
  destruct (token_bounds ps1 ltac:(lia)) as (? & ? & ? & E & _ & Hlt & _); rewrite E in E2; injection E2 as -> -> ->.
  specialize (Hlt Ht); apply ends_bind; [apply parseredirs_ends; lia |]; intros rs' ps3 _ H3; apply IH; lia.
Qed.

Lemma parsebacks_ends fuel c ps : (ps <= len)%nat -> (len - ps < fuel)%nat -> ends (parsebacks text fuel c) ps.
Proof.
  revert c ps; induction fuel as [| fuel IH]; intros c ps Hps Hf; [lia |]; cbn [parsebacks].
  apply ends_bind; [by apply ends_peek |]; intros b ps1 E1 H1; destruct b; [| apply ends_ret; lia].
  apply ends_bind; [apply ends_token; lia |]; intros ? ps2 E2 H2; pose proof (token_after_peek _ _ _ _ _ E1 E2).
  apply IH; lia.
Qed.

Lemma parser_ends fuel ps :
  (ps <= len)%nat ->
  ((4 * (len - ps) + 4 <= fuel)%nat -> ends (parseline text fuel) ps) /\
  ((4 * (len - ps) + 3 <= fuel)%nat -> ends (parsepipe text fuel) ps) /\
  ((4 * (len - ps) + 2 <= fuel)%nat -> ends (parseexec text fuel) ps) /\
  ((4 * (len - ps) + 1 <= fuel)%nat -> ends (parseblock text fuel) ps).
Proof.
  revert ps; induction fuel as [| fuel IH]; intros ps Hps; [split_and!; lia |].
  cbn [parseline parsepipe parseexec parseblock]; split_and!; intros Hf.
  - apply ends_bind; [apply IH; lia |]; intros c ps1 _ H1.
    apply ends_bind; [apply parsebacks_ends; lia |]; intros c2 ps2 _ H2.
    apply ends_bind; [apply ends_peek; lia |]; intros b ps3 E3 H3; destruct b; [| apply ends_ret; lia].
    apply ends_bind; [apply ends_token; lia |]; intros ? ps4 E4 H4; pose proof (token_after_peek _ _ _ _ _ E3 E4).
    apply ends_bind; [apply IH; lia |]; intros r ps5 _ H5; apply ends_ret; lia.
  - apply ends_bind; [apply IH; lia |]; intros c ps1 _ H1.
    apply ends_bind; [apply ends_peek; lia |]; intros b ps3 E3 H3; destruct b; [| apply ends_ret; lia].
    apply ends_bind; [apply ends_token; lia |]; intros ? ps4 E4 H4; pose proof (token_after_peek _ _ _ _ _ E3 E4).
    apply ends_bind; [apply IH; lia |]; intros r ps5 _ H5; apply ends_ret; lia.
  - apply ends_bind; [by apply ends_peek |]; intros b ps1 _ H1; destruct b; [apply IH; lia |].
    apply ends_bind; [apply parseredirs_ends; lia |]; intros rs ps2 _ H2.
    apply ends_bind; [apply parseargs_ends; lia |]; intros [argv rs'] ps3 _ H3; apply ends_ret; lia.
  - apply ends_bind; [by apply ends_peek |]; intros b ps1 E1 H1; destruct b; cbn [negb]; [| done].
    apply ends_bind; [apply ends_token; lia |]; intros ? ps2 E2 H2; pose proof (token_after_peek _ _ _ _ _ E1 E2).
    apply ends_bind; [apply IH; lia |]; intros c ps3 _ H3.
    apply ends_bind; [apply ends_peek; lia |]; intros b ps4 _ H4; destruct b; cbn [negb]; [| done].
    apply ends_bind; [apply ends_token; lia |]; intros ? ps5 _ H5.
    apply ends_bind; [apply parseredirs_ends; lia |]; intros rs ps6 _ H6; apply ends_ret; lia.
Qed.

End Parser.

(** C29: The shell's parser ends on every line: parsecmd() gives a command, reports
    what is left over, or stops with a syntax error; its recursion is never
    deeper than four calls for every character of the line. *)
Theorem parsecmd_ends (s : list Z) : parsecmd s <> NoParse.
Proof.
  unfold parsecmd; pose proof (parser_ends (cstr s) (cstr_no_nul s) (parse_fuel (cstr s)) 0 ltac:(lia)) as [H _].
  unfold ends, parse_fuel in *; specialize (H ltac:(lia)).
  destruct (parseline _ _ 0%nat) as [c ps | |]; [| done | done].
  destruct (peek _ ps []); by destruct (negb _).
Qed.

(** ** The grammar *)

(** A redirection, from or to a file, or to its end. *)
Inductive aredir := Rin (f : list Z) | Rout (f : list Z) | Rapp (f : list Z).

(** A line: pipelines, each followed by any number of [&], with [;] between them.
    A simple command has redirections before and after each of its words. *)
Inductive aline := ALast (p : apipe) (backs : nat) | AThen (p : apipe) (backs : nat) (l : aline)
with apipe := AOne (e : aexec) | APipe (e : aexec) (p : apipe)
with aexec :=
| ASimple (rs : list aredir) (args : list (list Z * list aredir))
| ABlock (l : aline) (rs : list aredir).

Scheme aline_mut := Induction for aline Sort Prop
with apipe_mut := Induction for apipe Sort Prop
with aexec_mut := Induction for aexec Sort Prop.
Combined Scheme grammar_ind from aline_mut, apipe_mut, aexec_mut.

(** A token: what gettoken() returns for it, and its characters. *)
Definition token : Type := Z * list Z.
Definition word (w : list Z) : token := (ch "a", w).
Definition sym (c : Z) : token := (c, [c]).

Definition flat_redir (r : aredir) : list token :=
  match r with
  | Rin f => [sym (ch "<"); word f]
  | Rout f => [sym (ch ">"); word f]
  | Rapp f => [(ch "+", lit ">>"); word f]
  end.
Definition flat_redirs (rs : list aredir) : list token := concat (map flat_redir rs).
Definition flat_args (args : list (list Z * list aredir)) : list token :=
  concat (map (fun '(w, rs) => word w :: flat_redirs rs) args).

Fixpoint flat_line (a : aline) : list token :=
  match a with
  | ALast p n => flat_pipe p ++ replicate n (sym (ch "&"))
  | AThen p n l => flat_pipe p ++ replicate n (sym (ch "&")) ++ sym (ch ";") :: flat_line l
  end
with flat_pipe (a : apipe) : list token :=
  match a with
  | AOne e => flat_exec e
  | APipe e p => flat_exec e ++ sym (ch "|") :: flat_pipe p
  end
with flat_exec (a : aexec) : list token :=
  match a with
  | ASimple rs args => flat_redirs rs ++ flat_args args
  | ABlock l rs => sym (ch "(") :: flat_line l ++ sym (ch ")") :: flat_redirs rs
  end.

(** The command trees with their strings. *)
Inductive scmd :=
| CExec (argv : list (list Z))
| CRedir (c : scmd) (file : list Z) (mode fd : Z)
| CPipe (left right : scmd) | CList (left right : scmd) | CBack (c : scmd).

Definition means_redir (r : aredir) : list Z * Z * Z :=
  match r with
  | Rin f => (f, O_RDONLY, 0)
  | Rout f => (f, Z.lor (Z.lor O_WRONLY O_CREATE) O_TRUNC, 1)
  | Rapp f => (f, Z.lor O_WRONLY O_CREATE, 1)
  end.
Definition redirected (c : scmd) (rs : list (list Z * Z * Z)) : scmd :=
  foldl (fun c '(f, mode, fd) => CRedir c f mode fd) c rs.

Fixpoint means_line (a : aline) : scmd :=
  match a with
  | ALast p n => Nat.iter n CBack (means_pipe p)
  | AThen p n l => CList (Nat.iter n CBack (means_pipe p)) (means_line l)
  end
with means_pipe (a : apipe) : scmd :=
  match a with
  | AOne e => means_exec e
  | APipe e p => CPipe (means_exec e) (means_pipe p)
  end
with means_exec (a : aexec) : scmd :=
  match a with
  | ASimple rs args =>
      redirected (CExec (map fst args)) (map means_redir (rs ++ concat (map snd args)))
  | ABlock l rs => redirected (means_line l) (map means_redir rs)
  end.

(** No simple command has MAXARGS words. *)
Fixpoint few_args (a : aline) : bool :=
  match a with
  | ALast p n => few_args_pipe p
  | AThen p n l => few_args_pipe p && few_args l
  end
with few_args_pipe (a : apipe) : bool :=
  match a with
  | AOne e => few_args_exec e
  | APipe e p => few_args_exec e && few_args_pipe p
  end
with few_args_exec (a : aexec) : bool :=
  match a with
  | ASimple rs args => (length args <? MAXARGS)%nat
  | ABlock l rs => few_args l
  end.

(** How deep the parsing functions call each other. *)
Fixpoint depth (a : aline) : nat :=
  match a with
  | ALast p n => S (depth_pipe p)
  | AThen p n l => S (Nat.max (depth_pipe p) (depth l))
  end
with depth_pipe (a : apipe) : nat :=
  match a with
  | AOne e => S (depth_exec e)
  | APipe e p => S (Nat.max (depth_exec e) (depth_pipe p))
  end
with depth_exec (a : aexec) : nat :=
  match a with
  | ASimple rs args => 1
  | ABlock l rs => S (S (depth l))
  end.

Lemma depth_bound :
  (forall a, (depth a <= 4 * length (flat_line a) + 4)%nat) /\
  (forall a, (depth_pipe a <= 4 * length (flat_pipe a) + 3)%nat) /\
  (forall a, (depth_exec a <= 4 * length (flat_exec a) + 2)%nat).
Proof.
  apply grammar_ind; intros; simpl; rewrite ?length_app; simpl; rewrite ?length_app; simpl; lia.
Qed.

#[local] Arguments lit : simpl never.
#[local] Arguments has_char : simpl never.

(** ** Token streams *)

Section Tokens.
Context (text : list Z) (Hz : 0 ∉ text).
Notation len := (length text).

Definition slice (s : span) : list Z := take (s.2 - s.1) (drop s.1 text).

(** The tokens of the line from a position on. *)
Fixpoint tokens (fuel ps : nat) : list token :=
  match fuel with
  | O => []
  | S fuel' =>
      let '(tok, qe, ps') := gettoken text ps in
      if tok =? 0 then [] else (tok, slice qe) :: tokens fuel' ps'
  end.

Inductive toks : nat -> list token -> Prop :=
| toks_nil ps : (ps <= len)%nat -> skip text ps = len -> toks ps []
| toks_cons ps tok qe ps' l :
    (ps <= len)%nat -> gettoken text ps = (tok, qe, ps') -> tok <> 0 -> toks ps' l ->
    toks ps ((tok, slice qe) :: l).

(** A span that covers a word of the line and not more. *)
Definition word_span (s : span) : Prop :=
  (s.1 < s.2 <= len)%nat /\ Forall (fun c => is_word c = true) (slice s) /\
  match text !! s.2 with Some c => is_word c = false | None => True end.

Lemma gettoken_view ps tok qe ps' :
  (ps <= len)%nat -> gettoken text ps = (tok, qe, ps') ->
  qe.1 = skip text ps /\ qe.2 = (qe.1 + (lex (drop (skip text ps) text)).2)%nat /\
  tok = (lex (drop (skip text ps) text)).1 /\ ps' = skip text qe.2 /\
  slice qe = take (lex (drop (skip text ps) text)).2 (drop (skip text ps) text) /\ (ps <= ps' <= len)%nat.
Proof.
  intros Hps H; destruct (token_bounds text Hz ps Hps) as (? & ? & ? & E & Hb & _).
  unfold ptoken in E; rewrite H in E; injection E as <- <- <-.
  rewrite gettoken_lex in H by done; cbv zeta in H; destruct (lex (drop (skip text ps) text)) as [t n].
  injection H as <- <- <-; unfold slice; simpl; split_and!; try done; try lia; f_equal; lia.
Qed.

Lemma tokens_toks fuel ps : (ps <= len)%nat -> (len - ps < fuel)%nat -> toks ps (tokens fuel ps).
Proof.
  revert ps; induction fuel as [| fuel IH]; intros ps Hps Hf; [lia |]; cbn [tokens].
  destruct (token_bounds text Hz ps Hps) as (tok & qe & ps' & E & Hb & Hlt & _); unfold ptoken in E.
  destruct (gettoken text ps) as [[tok0 qe0] ps0] eqn:Eg; injection E as -> -> ->.
  destruct (Z.eqb_spec tok 0) as [-> | Ht].
  - constructor; [done |]; destruct (gettoken_view _ _ _ _ Hps Eg) as (_ & _ & Ht & _).
    destruct (lex_length _ (skip_stop text ps) (drop_no_nul text Hz (skip text ps))) as (_ & H0 & _).
    specialize (H0 (eq_sym Ht)); apply (f_equal length) in H0; rewrite length_drop in H0; simpl in H0.
    pose proof (skip_le text ps Hps); lia.
  - specialize (Hlt Ht); econstructor; eauto; apply IH; lia.
Qed.

Lemma toks_bound ps l : toks ps l -> (ps <= len /\ length l <= len - ps)%nat.
Proof.
  induction 1 as [ps Hps Hs | ps tok qe ps' l Hps Hg Ht _ IH]; [simpl; lia |].
  destruct (token_bounds text Hz ps Hps) as (? & ? & ? & E & Hb & Hlt & _); unfold ptoken in E.
  rewrite Hg in E; injection E as <- <- <-; specialize (Hlt Ht); simpl; lia.
Qed.

Lemma toks_skip ps l : toks ps l -> toks (skip text ps) l.
Proof.
  intros H; inversion H as [? Hps Hs | ? tok qe ps' l' Hps Hg Ht Hl]; subst.
  - constructor; [by apply skip_le | by rewrite skip_idem].
  - econstructor; eauto; [by apply skip_le |]; rewrite <- Hg; unfold gettoken; by rewrite skip_idem.
Qed.

(** The first character of the next token. *)
Lemma toks_head ps tok w l :
  toks ps ((tok, w) :: l) -> exists r, drop (skip text ps) text = hd 0 w :: r.
Proof.
  intros H; inversion H as [| ? ? qe ps' ? Hps Hg Ht Hl]; subst.
  destruct (gettoken_view _ _ _ _ Hps Hg) as (_ & _ & Htok & _ & Hsl & _); rewrite Hsl in *.
  destruct (lex_length _ (skip_stop text ps) (drop_no_nul text Hz (skip text ps))) as (_ & _ & Hpos).
  destruct (drop (skip text ps) text) as [| c r]; [by rewrite Htok in Ht |].
  specialize (Hpos ltac:(done)); destruct (lex (c :: r)) as [? [| n]]; simpl in *; [lia | eauto].
Qed.

(** A word token covers a word. *)
Lemma word_token ps qe ps' :
  (ps <= len)%nat -> gettoken text ps = (ch "a", qe, ps') -> word_span qe.
Proof.
  intros Hps Hg; destruct (gettoken_view _ _ _ _ Hps Hg) as (Hq & He & Ht & _ & Hsl & _).
  destruct (lex_length _ (skip_stop text ps) (drop_no_nul text Hz (skip text ps))) as (Hle & _ & Hpos).
  rewrite length_drop in Hle; destruct (drop (skip text ps) text) as [| c r] eqn:Ed; [done |].
  specialize (Hpos ltac:(done)).
  assert (Hl : (lex (c :: r)).2 = span_while is_word (c :: r)).
  { unfold lex in Ht |- *; destruct (has_char _ c) eqn:Hs; [simpl in Ht; subst c; done |].
    destruct (Z.eqb_spec c (ch ">")); [| done]; destruct (chr r =? ch ">"); simpl in Ht; [done | subst c; done]. }
  rewrite Hl in *; unfold word_span; rewrite Hsl; split; [lia |]; split.
  - generalize (c :: r); intros l; induction l as [| x l IH]; simpl; [constructor |].
    destruct (is_word x) eqn:E; simpl; constructor; done.
  - rewrite He, Hq, <- lookup_drop, Ed.
    generalize (c :: r); intros l; induction l as [| x l IH]; simpl; [done |].
    destruct (is_word x) eqn:E; simpl; [exact IH | done].
Qed.

(** ** Parsing token streams *)

(** From [ps] the function returns a value for which [Q] holds and leaves the
    tokens [l]. *)
Definition parses {A} (m : P A) (ps : nat) (l : list token) (Q : A -> Prop) : Prop :=
  exists a ps', m ps = POk a ps' /\ toks ps' l /\ Q a.

Lemma parses_bind {A B} (m : P A) (f : A -> P B) ps l l' Q Q' :
  parses m ps l Q -> (forall a ps', toks ps' l -> Q a -> parses (f a) ps' l' Q') -> parses (m ≫= f) ps l' Q'.
Proof.
  intros (a & ps' & Hm & Hl & HQ) Hf; destruct (Hf a ps' Hl HQ) as (b & ps'' & Hb & Hl' & HQ').
  exists b, ps''; split; [| done]; unfold mbind, P_bind; by rewrite Hm.
Qed.

Lemma parses_ret {A} (a : A) ps l (Q : A -> Prop) : toks ps l -> Q a -> parses (mret a) ps l Q.
Proof. intros; by exists a, ps. Qed.

(** The next token, if any, is a symbol of [cs]. *)
Definition follow (cs : list Z) (l : list token) : Prop :=
  l = [] \/ exists c l', l = sym c :: l' /\ c ∈ cs.

Lemma parses_peek toks0 ps l :
  toks ps l -> parses (ppeek text toks0) ps l
    (fun b => b = match l with [] => false | (_, w) :: _ => has_char toks0 (hd 0 w) end).
Proof.
  intros H; exists (match l with [] => false | (_, w) :: _ => has_char toks0 (hd 0 w) end), (skip text ps).
  split; [| split; [by apply toks_skip | done]]; unfold ppeek; rewrite peek_head by done.
  destruct l as [| [tok w] l].
  - inversion H as [? ? Hs |]; subst; rewrite Hs, drop_ge by lia; done.
  - destruct (toks_head _ _ _ _ H) as [r ->]; done.
Qed.

Lemma parses_token ps tok w l :
  toks ps ((tok, w) :: l) -> parses (ptoken text) ps l
    (fun '(tok', qe) => tok' = tok /\ slice qe = w /\ (tok = ch "a" -> word_span qe)).
Proof.
  intros H; inversion H as [| ? ? qe ps' ? Hps Hg Ht Hl]; subst; exists (tok, qe), ps'.
  split; [unfold ptoken; by rewrite Hg |]; split; [done |]; split_and!; [done | done |].
  intros ->; by eapply word_token.
Qed.

Lemma parses_no_token ps : toks ps [] -> parses (ptoken text) ps [] (fun '(tok, _) => tok = 0).
Proof.
  intros H; inversion H as [? Hps Hs |]; subst.
  destruct (gettoken text ps) as [[tok qe] ps'] eqn:Hg; exists (tok, qe), ps'.
  destruct (gettoken_view _ _ _ _ Hps Hg) as (Hq & He & Ht & Hp & _).
  assert (Hd : drop (skip text ps) text = []) by (rewrite Hs; apply drop_ge; lia); rewrite Hd in Ht, He; simpl in *.
  split; [unfold ptoken; by rewrite Hg |]; split; [| done].
  rewrite Hp, He, Nat.add_0_r, Hq, skip_idem, Hs; constructor; [lia |].
  pose proof (skip_le text len ltac:(lia)); pose proof (skip_ge text len); lia.
Qed.

Definition redir_source (r : redir) : list Z * Z * Z := let '(f, mode, fd) := r in (slice f, mode, fd).
Definition redirs_ok (rs : list redir) : Prop := Forall (fun r => word_span r.1.1) rs.

Definition no_redir (l : list token) : Prop :=
  match l with [] => True | (_, w) :: _ => has_char (lit "<>") (hd 0 w) = false end.

Lemma parses_redirs fuel rs0 rs rest ps :
  toks ps (flat_redirs rs ++ rest) -> (length rs < fuel)%nat ->
  no_redir rest ->
  parses (parseredirs text fuel rs0) ps rest
    (fun rs' => exists rs1, rs' = rs0 ++ rs1 /\ redir_source <$> rs1 = means_redir <$> rs /\ redirs_ok rs1).
Proof.
  revert rs0 rs ps; induction fuel as [| fuel IH]; intros rs0 rs ps H Hf Hrest; [lia |]; cbn [parseredirs].
  eapply parses_bind; [by apply parses_peek |]; intros b ps1 H1 ->; destruct rs as [| r rs]; simpl in H1 |- *.
  - destruct rest as [| [tok w] rest]; [| rewrite Hrest];
      (apply parses_ret; [done |]; exists []; rewrite app_nil_r; split_and!; [done | done | constructor]).
  - assert (Hr : exists t tw f, flat_redir r = [(t, tw); word f] /\ has_char (lit "<>") (hd 0 tw) = true /\
      forall s, slice s = f -> redir_source <$> redir_of t s = [means_redir r] /\ exists m fd, redir_of t s = [(s, m, fd)]).
    { destruct r as [f | f | f]; do 3 eexists; (split; [reflexivity | split; [reflexivity |]]);
        intros s <-; (split; [reflexivity |]; do 2 eexists; reflexivity). }
    destruct Hr as (t & tw & f & Hfl & Hch & Hmean); unfold flat_redirs in H1 |- *; simpl in H1 |- *; rewrite Hfl in H1 |- *.
    simpl in H1 |- *; rewrite Hch; eapply parses_bind; [by apply parses_token |]; intros [tok qe] ps2 H2 (-> & _ & _).
    eapply parses_bind; [by apply parses_token |]; intros [tok2 file] ps3 H3 (-> & Hfile & Hword).
    rewrite Z.eqb_refl; cbn [negb]; destruct (Hmean file Hfile) as [Hm (m & fd & Ho)].
    destruct (IH (rs0 ++ redir_of t file) rs ps3 H3) as (rs' & ps' & Hrun & Hl & rs1 & -> & Hs & Hok); [simpl in Hf; lia | done |].
    exists ((rs0 ++ redir_of t file) ++ rs1), ps'; split; [done |]; split; [done |].
    exists (redir_of t file ++ rs1); rewrite app_assoc, fmap_app, Hm, Hs; split_and!; [done | done |].
    rewrite Ho; constructor; [by apply Hword | done].
Qed.

(** A word does not begin with a symbol. *)
Lemma word_head syms ps w l :
  toks ps (word w :: l) -> forallb (has_char symbols) syms = true -> has_char syms (hd 0 w) = false.
Proof.
  intros H Hs; destruct (has_char syms (hd 0 w)) eqn:E; [exfalso | done].
  inversion H as [| ? ? qe ps' ? Hps Hg Ht Hl]; subst.
  destruct (word_token _ _ _ Hps Hg) as ((Hlt & Hle) & Hw & _).
  assert (Hne : slice qe <> []).
  { intros E0; apply (f_equal length) in E0; unfold slice in E0; rewrite length_take, length_drop in E0; simpl in E0; lia. }
  destruct (slice qe) as [| c r]; [done |]; apply Forall_inv in Hw; simpl in E.
  assert (Hin : c ∈ syms).
  { revert E; unfold has_char; clear; induction syms as [| x s IH]; simpl; [done |].
    destruct (x =? 0); [done |]; destruct (Z.eqb_spec x c) as [-> | _]; [set_solver |].
    destruct (strchr s c); simpl; [set_solver | done]. }
  rewrite forallb_forall in Hs; apply list_elem_of_In in Hin; specialize (Hs c Hin).
  unfold is_word in Hw; rewrite Hs in Hw; by rewrite andb_false_r in Hw.
Qed.

Definition after_exec : list Z := [ch "|"; ch ")"; ch "&"; ch ";"].

Lemma follow_weaken cs cs' l : follow cs l -> cs ⊆ cs' -> follow cs' l.
Proof. intros [-> | (c & l' & -> & Hc)] Hs; [by left | right; exists c, l'; split; [done | by apply Hs]]. Qed.

Lemma follow_no_redir l : follow after_exec l -> no_redir l.
Proof.
  intros [-> | (c & l' & -> & Hc)]; [done |]; unfold after_exec in Hc; simpl.
  repeat (apply elem_of_cons in Hc as [-> | Hc]; [reflexivity |]); by apply not_elem_of_nil in Hc.
Qed.

Lemma redirs_fuel ps rs l : toks ps (flat_redirs rs ++ l) -> (length rs < S len)%nat.
Proof.
  intros H; apply toks_bound in H as [_ H]; rewrite length_app in H.
  assert (length rs <= length (flat_redirs rs))%nat; [| lia].
  unfold flat_redirs; clear; induction rs as [| r rs IH]; simpl; [lia |]; rewrite length_app; destruct r; simpl; lia.
Qed.

Lemma args_no_redir ps args rest :
  toks ps (flat_args args ++ rest) -> follow after_exec rest -> no_redir (flat_args args ++ rest).
Proof.
  intros H Hf; destruct args as [| [w rs] args]; [by apply follow_no_redir |].
  unfold flat_args in H |- *; simpl in H |- *; eapply word_head; [exact H | reflexivity].
Qed.

(** What parseargs adds to [argv] and [rs] for the words and redirections [args]. *)
Definition args_post (argv : list span) (rs : list redir) (args : list (list Z * list aredir))
  (x : list span * list redir) : Prop :=
  exists argv1 rs1, x = (argv ++ argv1, rs ++ rs1) /\ slice <$> argv1 = args.*1 /\ Forall word_span argv1 /\
    redir_source <$> rs1 = means_redir <$> concat (map snd args) /\ redirs_ok rs1.

Lemma args_post_nil argv rs : args_post argv rs [] (argv, rs).
Proof. exists [], []; rewrite !app_nil_r; split_and!; done || constructor. Qed.

Lemma args_post_cons argv rs qe w rs1 ws args x :
  slice qe = w -> word_span qe -> redir_source <$> rs1 = means_redir <$> ws -> redirs_ok rs1 ->
  args_post (argv ++ [qe]) (rs ++ rs1) args x -> args_post argv rs ((w, ws) :: args) x.
Proof.
  intros Hsl Hw Hm1 Ho1 (argv2 & rs2 & -> & Hs & Hw2 & Hm2 & Ho2).
  exists (qe :: argv2), (rs1 ++ rs2); rewrite <- !app_assoc; split_and!; try done.
  - rewrite !fmap_cons, Hsl, Hs; done.
  - by constructor.
  - rewrite fmap_app, Hm1, Hm2, <- fmap_app; done.
  - by apply Forall_app.
Qed.

Lemma toks_drop ps l l' : toks ps (l ++ l') -> exists ps', toks ps' l'.
Proof. revert ps; induction l as [| [? ?] l IH]; intros ps H; [eauto |]; inversion H; subst; eauto. Qed.

Lemma parses_args fuel argv rs args rest ps :
  toks ps (flat_args args ++ rest) -> (length args < fuel)%nat -> (length argv + length args < MAXARGS)%nat ->
  follow after_exec rest ->
  parses (parseargs text fuel argv rs) ps rest (args_post argv rs args).
Proof.
  revert argv rs args ps; induction fuel as [| fuel IH]; intros argv rs args ps H Hf Hmax Hrest; [lia |].
  cbn [parseargs]; eapply parses_bind; [by apply parses_peek |]; intros b ps1 H1 ->.
  destruct args as [| [w ws] args].
  - change (flat_args [] ++ rest) with rest in *; destruct Hrest as [-> | (c & l' & -> & Hc)].
    + eapply parses_bind; [by apply parses_no_token |]; intros [tok qe] ps2 H2 ->; rewrite Z.eqb_refl.
      apply parses_ret; [exact H2 | apply args_post_nil].
    + unfold sym at 1; cbv iota; replace (has_char (lit "|)&;") (hd 0 [c])) with true;
        [apply parses_ret; [exact H1 | apply args_post_nil] |].
      symmetry; unfold after_exec in Hc; repeat (apply elem_of_cons in Hc as [-> | Hc]; [reflexivity |]).
      by apply not_elem_of_nil in Hc.
  - assert (E : flat_args ((w, ws) :: args) ++ rest = word w :: flat_redirs ws ++ flat_args args ++ rest)
      by (unfold flat_args; simpl; by rewrite <- app_assoc).
    rewrite E in *; unfold word at 1; cbv iota; rewrite (word_head _ _ _ _ H1) by reflexivity.
    eapply parses_bind; [by apply parses_token |]; intros [tok qe] ps2 H2 (-> & Hsl & Hw).
    change (ch "a" =? 0) with false; change (negb (ch "a" =? ch "a")) with false; cbv iota zeta.
    replace (MAXARGS <=? length (argv ++ [qe]))%nat with false
      by (symmetry; apply Nat.leb_gt; rewrite length_app; cbn [length] in *; lia).
    destruct (toks_drop _ _ _ H2) as [ps' Hd].
    eapply parses_bind; [eapply parses_redirs; [exact H2 | by eapply redirs_fuel | by eapply args_no_redir] |].
    intros rs' ps3 H3 (rs1 & -> & Hm1 & Ho1).
    destruct (IH (argv ++ [qe]) (rs ++ rs1) args ps3 H3) as (x & ps4 & Hrun & H4 & Hpost).
    { cbn [length] in Hf; lia. } { rewrite length_app; cbn [length] in *; lia. } { done. }
    exists x, ps4; split; [exact Hrun |]; split; [done |]; eapply args_post_cons; eauto.
Qed.

(** ** Commands *)

(** The command with the strings of the line. *)
Fixpoint source (c : cmd) : scmd :=
  match c with
  | EXEC argv => CExec (slice <$> argv)
  | REDIR c f mode fd => CRedir (source c) (slice f) mode fd
  | PIPE l r => CPipe (source l) (source r)
  | LIST l r => CList (source l) (source r)
  | BACK c => CBack (source c)
  end.

Fixpoint spans_ok (c : cmd) : Prop :=
  match c with
  | EXEC argv => Forall word_span argv
  | REDIR c f _ _ => spans_ok c /\ word_span f
  | PIPE l r | LIST l r => spans_ok l /\ spans_ok r
  | BACK c => spans_ok c
  end.

Definition reads_as (d : scmd) (c : cmd) : Prop := source c = d /\ spans_ok c.

Lemma redirect_reads c d rs ms :
  reads_as d c -> redir_source <$> rs = ms -> redirs_ok rs -> reads_as (redirected d ms) (redirect c rs).
Proof.
  revert c d ms; induction rs as [| [[f m] fd] rs IH]; intros c d ms [Hs Hc] <- Ho; [done |].
  apply Forall_cons in Ho as [Hf Ho]; rewrite fmap_cons.
  apply (IH (REDIR c f m fd) (CRedir d (slice f) m fd) (redir_source <$> rs)); [| done | done].
  split; [simpl; by rewrite Hs | done].
Qed.

Definition after_line : list Z := [ch ")"].
Definition after_backs : list Z := [ch ")"; ch ";"].
Definition after_pipe : list Z := [ch ")"; ch "&"; ch ";"].

(** peek for a symbol that cannot come next. *)
Lemma follow_peek cs syms l :
  follow cs l -> Forall (fun c => has_char syms c = false) cs ->
  match l with [] => false | (_, w) :: _ => has_char syms (hd 0 w) end = false.
Proof.
  intros [-> | (c & l' & -> & Hc)] HF; [done |]; rewrite Forall_forall in HF; exact (HF c Hc).
Qed.

Lemma parses_backs fuel n c d rest ps :
  toks ps (replicate n (sym (ch "&")) ++ rest) -> (n < fuel)%nat -> follow after_backs rest -> reads_as d c ->
  parses (parsebacks text fuel c) ps rest (reads_as (Nat.iter n CBack d)).
Proof.
  revert n c d ps; induction fuel as [| fuel IH]; intros n c d ps H Hf Hrest Hc; [lia |]; cbn [parsebacks].
  eapply parses_bind; [by apply parses_peek |]; intros b ps1 H1 ->; destruct n as [| n].
  - change (replicate 0 (sym (ch "&")) ++ rest) with rest in *.
    rewrite (follow_peek after_backs) by (exact Hrest || by repeat constructor); by apply parses_ret.
  - rewrite replicate_S in *; cbn [app] in *; change (has_char (lit "&") (hd 0 [ch "&"])) with true.
    eapply parses_bind; [by apply parses_token |]; intros [tok qe] ps2 H2 _.
    rewrite Nat.iter_succ_r; apply IH; [done | lia | done |]; destruct Hc as [Hs Ho]; split; [simpl; by rewrite Hs | done].
Qed.

Lemma simple_peek ps rs args rest :
  toks ps (flat_redirs rs ++ flat_args args ++ rest) -> follow after_exec rest ->
  match flat_redirs rs ++ flat_args args ++ rest with [] => false | (_, w) :: _ => has_char (lit "(") (hd 0 w) end = false.
Proof.
  intros H Hf; destruct rs as [| [f | f | f] rs]; [| reflexivity ..].
  change (flat_redirs [] ++ flat_args args ++ rest) with (flat_args args ++ rest) in *.
  destruct args as [| [w ws] args]; [eapply follow_peek; [exact Hf | by repeat constructor] |].
  unfold flat_args in H |- *; simpl in H |- *; eapply word_head; [exact H | reflexivity].
Qed.

Lemma parses_block fuel l rs rest ps :
  (forall ps rest, toks ps (flat_line l ++ rest) -> follow after_line rest ->
     parses (parseline text fuel) ps rest (reads_as (means_line l))) ->
  toks ps (sym (ch "(") :: flat_line l ++ sym (ch ")") :: flat_redirs rs ++ rest) -> follow after_exec rest ->
  parses (parseblock text (S fuel)) ps rest (reads_as (means_exec (ABlock l rs))).
Proof.
  intros IH H Hf; cbn [parseblock]; eapply parses_bind; [by apply parses_peek |]; intros b ps1 H1 ->.
  change (has_char (lit "(") (hd 0 [ch "("])) with true; cbn [negb].
  eapply parses_bind; [by apply parses_token |]; intros [? ?] ps2 H2 _.
  eapply parses_bind; [apply IH; [exact H2 | right; do 2 eexists; split; [done | unfold after_line; set_solver]] |].
  intros c ps3 H3 Hc; eapply parses_bind; [by apply parses_peek |]; intros b ps4 H4 ->.
  change (has_char (lit ")") (hd 0 [ch ")"])) with true; cbn [negb].
  eapply parses_bind; [by apply parses_token |]; intros [? ?] ps5 H5 _.
  eapply parses_bind; [eapply parses_redirs; [exact H5 | by eapply redirs_fuel | by apply follow_no_redir] |].
  intros rs' ps6 H6 (rs1 & -> & Hm & Ho); apply parses_ret; [done |]; by apply redirect_reads.
Qed.

Lemma after_line_backs : after_line ⊆ after_backs.
Proof. unfold after_line, after_backs; set_solver. Qed.

Lemma after_pipe_exec : after_pipe ⊆ after_exec.
Proof. unfold after_pipe, after_exec; set_solver. Qed.

Lemma backs_follow n l : follow after_backs l -> follow after_pipe (replicate n (sym (ch "&")) ++ l).
Proof.
  intros H; destruct n as [| n]; simpl.
  - eapply follow_weaken; [exact H |]; unfold after_backs, after_pipe; set_solver.
  - right; do 2 eexists; split; [reflexivity |]; unfold after_pipe; set_solver.
Qed.

Lemma grammar_parses :
  (forall a fuel ps rest, toks ps (flat_line a ++ rest) -> follow after_line rest -> few_args a = true ->
     (depth a <= fuel)%nat -> parses (parseline text fuel) ps rest (reads_as (means_line a))) /\
  (forall a fuel ps rest, toks ps (flat_pipe a ++ rest) -> follow after_pipe rest -> few_args_pipe a = true ->
     (depth_pipe a <= fuel)%nat -> parses (parsepipe text fuel) ps rest (reads_as (means_pipe a))) /\
  (forall a fuel ps rest, toks ps (flat_exec a ++ rest) -> follow after_exec rest -> few_args_exec a = true ->
     (depth_exec a <= fuel)%nat -> parses (parseexec text fuel) ps rest (reads_as (means_exec a))).
Proof.
  apply grammar_ind.
  - intros p IHp n fuel ps rest H Hf Hfew Hd; cbn [flat_line few_args depth means_line] in *.
    destruct fuel as [| fuel]; [lia |]; cbn [parseline]; rewrite <- app_assoc in H.
    eapply parses_bind; [apply IHp; [exact H | | done | lia] |].
    { apply backs_follow; by eapply follow_weaken; [| apply after_line_backs]. }
    intros c ps1 H1 Hc; eapply parses_bind; [apply (parses_backs (S len) n c (means_pipe p) rest); [done | | | done] |].
    { apply toks_bound in H1 as [_ H1]; rewrite length_app, length_replicate in H1; lia. }
    { by eapply follow_weaken; [| apply after_line_backs]. }
    intros c2 ps2 H2 Hc2; eapply parses_bind; [by apply parses_peek |]; intros b ps3 H3 ->.
    rewrite (follow_peek after_line) by (exact Hf || by repeat constructor); by apply parses_ret.
  - intros p IHp n l IHl fuel ps rest H Hf Hfew Hd; cbn [flat_line few_args depth means_line] in *.
    apply andb_true_iff in Hfew as [Hfp Hfl]; destruct fuel as [| fuel]; [lia |]; cbn [parseline].
    rewrite <- !app_assoc in H; cbn [app] in H.
    assert (Hsemi : follow after_backs (sym (ch ";") :: flat_line l ++ rest)).
    { right; do 2 eexists; split; [done | unfold after_backs; set_solver]. }
    eapply parses_bind; [apply IHp; [exact H | by apply backs_follow | done | lia] |].
    intros c ps1 H1 Hc; eapply parses_bind; [eapply (parses_backs (S len) n c); [exact H1 | | done | done] |].
    { apply toks_bound in H1 as [_ H1]; rewrite length_app, length_replicate in H1; lia. }
    intros c2 ps2 H2 [Hc2 Ho2]; eapply parses_bind; [by apply parses_peek |]; intros b ps3 H3 ->; unfold sym at 1; cbv iota.
    change (has_char (lit ";") (hd 0 [ch ";"])) with true; cbv iota.
    eapply parses_bind; [by apply parses_token |]; intros [? ?] ps4 H4 _.
    eapply parses_bind; [apply IHl; [exact H4 | done | done | lia] |]; intros r ps5 H5 [Hr Hor].
    apply parses_ret; [done |]; split; [simpl; by rewrite Hc2, Hr | done].
  - intros e IHe fuel ps rest H Hf Hfew Hd; cbn [flat_pipe few_args_pipe depth_pipe means_pipe] in *.
    destruct fuel as [| fuel]; [lia |]; cbn [parsepipe].
    eapply parses_bind; [apply IHe; [exact H | by eapply follow_weaken; [| apply after_pipe_exec] | done | lia] |].
    intros c ps1 H1 Hc; eapply parses_bind; [by apply parses_peek |]; intros b ps2 H2 ->.
    rewrite (follow_peek after_pipe) by (exact Hf || by repeat constructor); by apply parses_ret.
  - intros e IHe p IHp fuel ps rest H Hf Hfew Hd; cbn [flat_pipe few_args_pipe depth_pipe means_pipe] in *.
    apply andb_true_iff in Hfew as [Hfe Hfp]; destruct fuel as [| fuel]; [lia |]; cbn [parsepipe].
    rewrite <- app_assoc in H; cbn [app] in H.
    eapply parses_bind; [apply IHe; [exact H | | done | lia] |].
    { right; do 2 eexists; split; [done | unfold after_exec; set_solver]. }
    intros c ps1 H1 [Hc Ho]; eapply parses_bind; [by apply parses_peek |]; intros b ps2 H2 ->; unfold sym at 1; cbv iota.
    change (has_char (lit "|") (hd 0 [ch "|"])) with true; cbv iota.
    eapply parses_bind; [by apply parses_token |]; intros [? ?] ps3 H3 _.
    eapply parses_bind; [apply IHp; [exact H3 | done | done | lia] |]; intros r ps4 H4 [Hr Hor].
    apply parses_ret; [done |]; split; [simpl; by rewrite Hc, Hr | done].
  - intros rs args fuel ps rest H Hf Hfew Hd; cbn [flat_exec few_args_exec means_exec depth_exec] in *.
    destruct fuel as [| fuel]; [lia |]; cbn [parseexec]; rewrite <- app_assoc in H.
    eapply parses_bind; [by apply parses_peek |]; intros b ps1 H1 ->; rewrite (simple_peek _ _ _ _ H1 Hf).
    destruct (toks_drop _ _ _ H1) as [ps' Hdr].
    eapply parses_bind; [eapply parses_redirs; [exact H1 | by eapply redirs_fuel | by eapply args_no_redir] |].
    intros rs' ps2 H2 (rs1 & -> & Hm1 & Ho1).
    eapply parses_bind; [eapply parses_args; [exact H2 | | by apply Nat.ltb_lt | done] |].
    { apply toks_bound in H2 as [_ H2]; rewrite length_app in H2.
      assert (length args <= length (flat_args args))%nat; [| lia].
      unfold flat_args; clear; induction args as [| [w ws] args IH]; simpl; [lia |]; rewrite length_app; lia. }
    intros [argv' rs'] ps3 H3 (argv1 & rs2 & [= -> ->] & Hs & Hw & Hm2 & Ho2); apply parses_ret; [done |].
    apply redirect_reads; [split; [simpl; by rewrite Hs | done] | | by apply Forall_app].
    rewrite fmap_app, Hm1, Hm2, <- fmap_app; done.
  - intros l IHl rs fuel ps rest H Hf Hfew Hd; cbn [flat_exec few_args_exec depth_exec] in *.
    destruct fuel as [| [| fuel]]; [lia | lia |]; cbn [app] in H; rewrite <- app_assoc in H; cbn [app] in H.
    change (parseexec text (S (S fuel))) with (b ← ppeek text (lit "("); if b : bool then parseblock text (S fuel)
      else rs ← parseredirs text (S len) []; '(argv, rs) ← parseargs text (S len) [] rs; mret (redirect (EXEC argv) rs)).
    eapply parses_bind; [by apply parses_peek |]; intros b ps1 H1 ->; unfold sym at 1; cbv iota.
    change (has_char (lit "(") (hd 0 [ch "("])) with true; cbv iota.
    apply parses_block; [| done | done]; intros ps2 rest2 H2 Hf2; apply IHl; [done | done | done | lia].
Qed.

End Tokens.

(** ** The strings a command runs with *)

Fixpoint strings (buf : list Z) (c : cmd) : scmd :=
  match c with
  | EXEC argv => CExec (string_at buf <$> argv)
  | REDIR c f mode fd => CRedir (strings buf c) (string_at buf f) mode fd
  | PIPE l r => CPipe (strings buf l) (strings buf r)
  | LIST l r => CList (strings buf l) (strings buf r)
  | BACK c => CBack (strings buf c)
  end.

Fixpoint spans (c : cmd) : list span :=
  match c with
  | EXEC argv => argv
  | REDIR c f _ _ => spans c ++ [f]
  | PIPE l r | LIST l r => spans l ++ spans r
  | BACK c => spans c
  end.

(** nulterminate() stores a NUL at the end of every string and nowhere else. *)
Lemma nulterminate_foldl (c : cmd) (buf : list Z) :
  nulterminate c buf = foldl (fun buf (s : span) => <[s.2 := 0]> buf) buf (spans c).
Proof.
  revert buf; induction c as [argv | c IH f m fd | l IHl r IHr | l IHl r IHr | c IH]; intros buf; simpl;
    rewrite ?foldl_app, ?IH, ?IHl, ?IHr; try done.
  revert buf; induction argv as [| [q e] argv IH]; intros buf; simpl; [done | apply IH].
Qed.

Lemma nuls_lookup (l : list span) (buf : list Z) (i : nat) :
  foldl (fun buf (s : span) => <[s.2 := 0]> buf) buf l !! i =
  if bool_decide (i ∈ l.*2) then (fun _ => 0) <$> buf !! i else buf !! i.
Proof.
  revert buf; induction l as [| s l IH]; intros buf; [done |]; rewrite fmap_cons; cbn [foldl]; rewrite IH.
  destruct (decide (s.2 = i)) as [<- | Hne].
  - rewrite (bool_decide_eq_true_2 (s.2 ∈ s.2 :: l.*2)) by set_solver.
    destruct (decide (s.2 < length buf)%nat) as [Hlt | Hge].
    + rewrite list_lookup_insert_eq by done; destruct (lookup_lt_is_Some_2 _ _ Hlt) as [x ->].
      by case_bool_decide.
    + rewrite list_insert_ge, lookup_ge_None_2 by lia; by case_bool_decide.
  - rewrite list_lookup_insert_ne by done.
    rewrite (bool_decide_ext (i ∈ s.2 :: l.*2) (i ∈ l.*2)) by set_solver; done.
Qed.

Lemma cstr_split s : (length (cstr s) < length s)%nat -> exists junk, s = cstr s ++ 0 :: junk.
Proof.
  induction s as [| c s IH]; simpl; [lia |]; destruct (Z.eqb_spec c 0) as [-> | Hc]; simpl; [eauto |].
  intros H; destruct IH as [junk E]; [lia |]; exists junk; by rewrite <- E.
Qed.

Section Nul.
Context (s : list Z) (Hs : (length (cstr s) < length s)%nat).
Notation text := (cstr s).

Lemma text_lookup i : (i < length text)%nat -> s !! i = text !! i.
Proof. intros Hi; destruct (cstr_split s Hs) as [junk E]; rewrite E at 1; by apply lookup_app_l. Qed.

Lemma text_stop i : (i <= length text)%nat -> is_Some (s !! i).
Proof. intros Hi; apply lookup_lt_is_Some; lia. Qed.

(** Every word stays and gets its NUL. *)
Lemma string_after c sp :
  Forall (word_span text) (spans c) -> sp ∈ spans c -> string_at (nulterminate c s) sp = slice text sp.
Proof.
  intros HF Hin; pose proof (proj1 (Forall_forall _ _) HF sp Hin) as (Hb & Hw & _); destruct sp as [q e]; simpl in *.
  set (buf := nulterminate c s).
  assert (Hnul : buf !! e = Some 0).
  { unfold buf; rewrite nulterminate_foldl, nuls_lookup, bool_decide_eq_true_2.
    - destruct (text_stop e) as [x ->]; [lia | done].
    - apply list_elem_of_fmap; by exists (q, e). }
  assert (Hsame : forall i, (q <= i < e)%nat -> buf !! i = text !! i).
  { intros i Hi; unfold buf; rewrite nulterminate_foldl, nuls_lookup, bool_decide_eq_false_2; [apply text_lookup; lia |].
    intros Hst; apply list_elem_of_fmap in Hst as (sp' & -> & Hsp').
    pose proof (proj1 (Forall_forall _ _) HF sp' Hsp') as (_ & _ & Hdel).
    destruct (lookup_lt_is_Some_2 text sp'.2) as [x Hx]; [lia |]; rewrite Hx in Hdel.
    assert (Hx' : slice text (q, e) !! (sp'.2 - q)%nat = Some x).
    { unfold slice; simpl; rewrite lookup_take_lt by lia; rewrite lookup_drop, <- Hx; f_equal; lia. }
    rewrite Forall_lookup in Hw; specialize (Hw _ _ Hx'); congruence. }
  assert (Htake : take (e - q) (drop q buf) = slice text (q, e)).
  { unfold slice; simpl; apply list_eq; intros i; destruct (decide (i < e - q)%nat) as [Hi | Hi].
    - rewrite !lookup_take_lt, !lookup_drop by lia; apply Hsame; lia.
    - rewrite !lookup_take_ge by lia; done. }
  assert (Hd : drop q buf = slice text (q, e) ++ 0 :: drop (S e) buf).
  { rewrite <- Htake, <- (take_drop (e - q) (drop q buf)) at 1; f_equal.
    rewrite drop_drop; replace (q + (e - q))%nat with e by lia; by apply drop_S. }
  unfold string_at; simpl; rewrite Hd; apply cstr_app_nul; intros H0; apply (cstr_no_nul s).
  unfold slice in H0; simpl in H0; apply list_elem_of_lookup_1 in H0 as [i Hi].
  apply lookup_take_Some in Hi as [Hi _]; rewrite lookup_drop in Hi; by eapply list_elem_of_lookup_2.
Qed.

Lemma spans_ok_all c : spans_ok text c -> Forall (word_span text) (spans c).
Proof.
  induction c as [argv | c IH f m fd | l IHl r IHr | l IHl r IHr | c IH]; simpl; rewrite ?Forall_app; try tauto.
  rewrite Forall_singleton; tauto.
Qed.

Lemma strings_source buf c :
  (forall sp, sp ∈ spans c -> string_at buf sp = slice text sp) -> strings buf c = source text c.
Proof.
  induction c as [argv | c IH f m fd | l IHl r IHr | l IHl r IHr | c IH]; simpl; intros H.
  - f_equal; apply list_fmap_ext; intros i x Hx; apply H; by eapply list_elem_of_lookup_2.
  - rewrite IH, H by set_solver; done.
  - rewrite IHl, IHr by set_solver; done.
  - rewrite IHl, IHr by set_solver; done.
  - by rewrite IH.
Qed.

End Nul.

(** The tokens of a line. *)
Definition line_tokens (s : list Z) : list token := tokens (cstr s) (S (length (cstr s))) 0.

(** C8: The shell reads what was written.  If the tokens of a line, whatever white
    space is between them, are those of a command line of the grammar (words,
    redirections, pipes, blocks, & and ;) in which no command has ten words,
    then parsecmd() gives the tree of that command line, and the strings in it,
    as nulterminate() ends them in the line itself, are exactly its words. *)
Theorem parsecmd_roundtrip (s : list Z) (a : aline)
  (Hnul : (length (cstr s) < length s)%nat) (Htoks : line_tokens s = flat_line a) (Hfew : few_args a = true) :
  exists c buf, parsecmd s = Parsed c buf /\ strings buf c = means_line a.
Proof.
  pose proof (cstr_no_nul s) as Hz; set (text := cstr s) in *.
  assert (Ht : toks text 0 (flat_line a ++ [])).
  { rewrite app_nil_r, <- Htoks; apply tokens_toks; [done | lia | lia]. }
  assert (Hd : (depth a <= parse_fuel text)%nat).
  { pose proof (proj1 depth_bound a); pose proof (toks_bound text Hz _ _ Ht) as [_ Hb].
    rewrite app_nil_r in Hb; unfold parse_fuel; lia. }
  destruct (proj1 (grammar_parses text Hz) a _ _ _ Ht (or_introl eq_refl) Hfew Hd) as (c & ps & Hrun & Hend & Hsrc & Hok).
  exists c, (nulterminate c s); split.
  - unfold parsecmd; fold text; rewrite Hrun; inversion Hend as [? _ Hskip |]; subst.
    unfold peek; rewrite Hskip, Nat.eqb_refl; done.
  - rewrite <- Hsrc; apply strings_source; [done |]; intros sp Hsp; apply string_after; [done | | done].
    by apply spans_ok_all.
Qed.

(** grep x <in|wc -l >>out & ; (ls;echo) *)
Definition demo_aline : aline :=
  AThen (APipe (ASimple [] [(lit "grep", []); (lit "x", [Rin (lit "in")])])
           (AOne (ASimple [] [(lit "wc", []); (lit "-l", [Rapp (lit "out")])]))) 1
    (ALast (AOne (ABlock (AThen (AOne (ASimple [] [(lit "ls", [])])) 0 (ALast (AOne (ASimple [] [(lit "echo", [])])) 0)) [])) 0).

Lemma parsecmd_roundtrip_witness :
  exists c buf, parsecmd (lit "grep x <in|wc -l >>out & ; (ls;echo)\n" ++ [0; 0]) = Parsed c buf /\
    strings buf c = means_line demo_aline.
Proof.
  apply (parsecmd_roundtrip (lit "grep x <in|wc -l >>out & ; (ls;echo)\n" ++ [0; 0]) demo_aline).
  - vm_compute; lia.
  - vm_compute; reflexivity.
  - reflexivity.
Defined.
