(* ===== verification/Posix.v ===== *)
(** The host of the Linux command clones: the calls of the C library and of the kernel
    that the programs of G14_Project2_1_Linux_Commands make.

    A program is a tree of calls, each with the type of its reply; the handler
    that answers them is a parameter of [prun].  What is printed goes to the
    streams without buffering. *)
From stdpp Require Import base list strings.
From Stdlib Require Import ZArith Lia ZifyBool Ascii.
From S2P Require Import Prelude Memory KPrintf User UPrintf.

Local Open Scope Z_scope.

(** [PStat] says whether the file is a directory; a stream or a directory that
    does not open is [None]; fgetc() returns -1 at the end. *)
Inductive pcall : Set -> Type :=
| POpen (path : list Z) (flags : Z) : pcall Z
| PRead (fd n : Z) : pcall (Z * list Z)
| PWrite (fd : Z) (bs : list Z) : pcall Z
| PClose (fd : Z) : pcall Z
| PRename (old new : list Z) : pcall Z
| PUnlink (path : list Z) : pcall Z
| PRmdir (path : list Z) : pcall Z
| PStat (path : list Z) : pcall (option bool)
| POpendir (path : list Z) : pcall (option Z)
| PReaddir (dir : Z) : pcall (option (list Z))
| PClosedir (dir : Z) : pcall Z
| PFopen (path : list Z) : pcall (option Z)
| PFgetc (fp : Z) : pcall Z
| PFclose (fp : Z) : pcall Z
| PFork : pcall Z
| PExecv (path : list Z) (argv : list (list Z)) : pcall Z
| PWaitpid (pid : Z) : pcall Z
| PAlloc (n : Z) : pcall bool  (** malloc() or realloc(): did it succeed *)
| PStrerror : pcall (list Z)   (** strerror(errno) *)
| POut (bs : list Z) : pcall unit
| PErr (bs : list Z) : pcall unit
| PPerror (s : list Z) : pcall unit.

Inductive P (A : Type) : Type :=
| PRet (a : A)
| PCall (X : Set) (c : pcall X) (k : X -> P A)
| PExit (status : Z)
| PFault     (** undefined behaviour *)
| PNoFuel.
Arguments PRet {_} _.
Arguments PCall {_} _ _ _.
Arguments PExit {_} _.
Arguments PFault {_}.
Arguments PNoFuel {_}.

#[export] Instance P_ret : MRet P := @PRet.
Fixpoint pbind {A B} (f : A -> P B) (m : P A) : P B :=
  match m with
  | PRet a => f a
  | PCall X c k => PCall X c (fun r => pbind f (k r))
  | PExit st => PExit st
  | PFault => PFault
  | PNoFuel => PNoFuel
  end.
#[export] Instance P_bind : MBind P := @pbind.

Definition psys {X : Set} (c : pcall X) : P X := PCall X c PRet.

Fixpoint ploop {St R} (fuel : nat) (body : St -> P (St + R)) (st : St) : P R :=
  match fuel with
  | O => PNoFuel
  | S fuel' => x ← body st; match x with inl st' => ploop fuel' body st' | inr r => PRet r end
  end.

(** A loop over a list whose body may return from the function with [Some] *)
Fixpoint pfor {A R} (l : list A) (body : A -> P (option R)) : P (option R) :=
  match l with
  | [] => PRet None
  | a :: l' => x ← body a; match x with Some r => PRet (Some r) | None => pfor l' body end
  end.

Section PRun.
Context {W : Type} (h : forall X : Set, pcall X -> W -> X * W).

Fixpoint prun {A} (m : P A) (w : W) : ures A W :=
  match m with
  | PRet a => Done a w
  | PCall X c k => let '(r, w') := h X c w in prun (k r) w'
  | PExit st => Exited st w
  | PFault => Faulted
  | PNoFuel => OutOfFuel
  end.

Lemma prun_bind {A B} (m : P A) (f : A -> P B) w :
  prun (m ≫= f) w =
  match prun m w with
  | Done a w' => prun (f a) w'
  | Exited st w' => Exited st w'
  | Faulted => Faulted
  | OutOfFuel => OutOfFuel
  end.
Proof.
  revert w; induction m as [a | X c k IH | | |]; intros w; try done.
  cbn; destruct (h X c w) as [r w']; apply IH.
Qed.

Lemma prun_done {A B} (m : P A) (f : A -> P B) w a w' :
  prun m w = Done a w' -> prun (m ≫= f) w = prun (f a) w'.
Proof. intros Hm; by rewrite prun_bind, Hm. Qed.

Lemma prun_sys {X : Set} {B} (c : pcall X) (f : X -> P B) w :
  prun (psys c ≫= f) w = prun (f (h X c w).1) (h X c w).2.
Proof. cbn; by destruct (h X c w). Qed.

Lemma prun_ploop {St R} fuel (body : St -> P (St + R)) st w :
  prun (ploop (S fuel) body st) w =
  match prun (body st) w with
  | Done (inl st') w' => prun (ploop fuel body st') w'
  | Done (inr r) w' => Done r w'
  | Exited s w' => Exited s w'
  | Faulted => Faulted
  | OutOfFuel => OutOfFuel
  end.
Proof. cbn [ploop]; rewrite prun_bind; destruct (prun (body st) w) as [[] | | |]; done. Qed.
End PRun.

Arguments ploop : simpl never.
Arguments prun : simpl never.

(** ** The C library *)

(** fcntl.h on Linux *)
Definition L_O_RDONLY : Z := 0.
Definition L_O_WRONLY : Z := 1.
Definition L_O_CREAT : Z := 64.
Definition L_O_TRUNC : Z := 512.

Definition stdin : Z := 0.
Definition EOF : Z := -1.
Definition EXIT_SUCCESS : Z := 0.
Definition EXIT_FAILURE : Z := 1.

Definition out (bs : list Z) : P unit := psys (POut bs).
Definition err (bs : list Z) : P unit := psys (PErr bs).
Definition puts (s : string) : P unit := out (lit s).
Definition perror (s : string) : P unit := psys (PPerror (lit s)).

(** fputs() of an array that ends at its first NUL *)
Definition fputs (s : list Z) : P unit := out (cstr s).

(** "%ld" and "%8ld" of a count *)
Definition fmt_ld (n : Z) : list Z := default [] (printint n 10 true).
Definition fmt_8ld (n : Z) : list Z := replicate (8 - length (fmt_ld n)) 32 ++ fmt_ld n.

(** snprintf(buf, n, ...) of the text [s] *)
Definition snprintf (n : nat) (s : list Z) : list Z := take (n - 1) s.

(** [s = t] for strings, as strcmp() decides it *)
Definition streq (s t : list Z) : bool := bool_decide (cstr s = cstr t).

(** isspace() in the C locale *)
Definition isspace (c : Z) : bool := (c =? 32) || ((9 <=? c) && (c <=? 13)).

(** fgets(line, n, stdin): at most [n - 1] characters, up to a newline, which is
    kept; [None] at the end of the input. *)
Fixpoint fgets_loop (n : nat) (line : list Z) : P (option (list Z)) :=
  match n with
  | O => PRet (Some line)
  | S n' =>
      c ← psys (PFgetc stdin);
      if c =? EOF then PRet (match line with [] => None | _ => Some line end)
      else if c =? 10 then PRet (Some (line ++ [c]))
      else fgets_loop n' (line ++ [c])
  end.
Definition fgets (n : nat) : P (option (list Z)) := fgets_loop (n - 1) [].

(** strtok(s, " \t"): the first token and what strtok(NULL, ...) goes on with *)
Definition delim (c : Z) : bool := (c =? 32) || (c =? 9).

Fixpoint skip_delims (s : list Z) : list Z :=
  match s with [] => [] | c :: s' => if delim c then skip_delims s' else s end.
Fixpoint token_end (s : list Z) : list Z * list Z :=
  match s with
  | [] => ([], [])
  | c :: s' => if delim c then ([], s') else let '(t, r) := token_end s' in (c :: t, r)
  end.
Definition strtok (s : list Z) : option (list Z * list Z) :=
  match skip_delims s with [] => None | s' => Some (token_end s') end.
