(* ===== verification/LinuxCmds.v ===== *)
(** The Linux command clones custom_cat, custom_cp, custom_mv, custom_ls, custom_echo,
    custom_wc and custom_rm.  [fuel] bounds the loops over files and
    directories. *)
From stdpp Require Import base list strings.
From Stdlib Require Import ZArith Lia ZifyBool Ascii.
From S2P Require Import Prelude Memory KPrintf User UPrintf Posix.

Local Open Scope Z_scope.

Definition BUFFER_SIZE : Z := 4096.

(** "Usage: %s ..." with the program's name *)
Definition usage (prog : list Z) (rest : string) : P unit :=
  err (lit "Usage: " ++ prog ++ lit rest).

(** ** custom_cat.c *)

(** The loop that copies [fd] to stdout: [inl n] is what the last read() returned,
    [inr tt] that a write() failed. *)
Definition cat_copy (fd : Z) (_ : unit) : P (unit + (Z + unit)) :=
  r ← psys (PRead fd BUFFER_SIZE);
  let '(bytes_read, buffer) := (r : Z * list Z) in
  if 0 <? bytes_read then
    n ← psys (PWrite 1 buffer);
    if negb (n =? bytes_read) then PRet (inr (inr tt)) else PRet (inl tt)
  else PRet (inr (inl bytes_read)).

Definition custom_cat (fuel : nat) (argv : list (list Z)) : P Z :=
  match argv with
  | [] | [_] => usage (hd [] argv) " <filename>\n" ;; PRet 1
  | _ :: files =>
      r ← pfor files (fun f =>
        fd ← psys (POpen f L_O_RDONLY);
        if fd <? 0 then perror "custom_cat: Error opening file" ;; PRet None
        else
          x ← ploop fuel (cat_copy fd) tt;
          match (x : Z + unit) with
          | inr _ =>
              perror "custom_cat: Error writing to stdout" ;;
              _ ← psys (PClose fd);
              PRet (Some 1)
          | inl bytes_read =>
              (if bytes_read <? 0 then perror "custom_cat: Error reading file" else PRet tt) ;;
              _ ← psys (PClose fd);
              PRet None
          end);
      PRet (default 0 r)
  end.

(** ** custom_cp.c *)

Definition cp_copy (fd_in fd_out : Z) (_ : unit) : P (unit + (Z + unit)) :=
  r ← psys (PRead fd_in BUFFER_SIZE);
  let '(bytes_read, buffer) := (r : Z * list Z) in
  if 0 <? bytes_read then
    n ← psys (PWrite fd_out buffer);
    if negb (n =? bytes_read) then PRet (inr (inr tt)) else PRet (inl tt)
  else PRet (inr (inl bytes_read)).

Definition custom_cp (fuel : nat) (argv : list (list Z)) : P Z :=
  match argv with
  | [_; src; dst] =>
      fd_in ← psys (POpen src L_O_RDONLY);
      if fd_in <? 0 then perror "custom_cp: Error opening source file" ;; PRet EXIT_FAILURE
      else
        fd_out ← psys (POpen dst (Z.lor L_O_WRONLY (Z.lor L_O_CREAT L_O_TRUNC)));
        if fd_out <? 0 then
          perror "custom_cp: Error opening/creating destination file" ;;
          _ ← psys (PClose fd_in);
          PRet EXIT_FAILURE
        else
          x ← ploop fuel (cp_copy fd_in fd_out) tt;
          match (x : Z + unit) with
          | inr _ =>
              perror "custom_cp: Error writing to destination file" ;;
              _ ← psys (PClose fd_in);
              _ ← psys (PClose fd_out);
              PRet EXIT_FAILURE
          | inl bytes_read =>
              (if bytes_read <? 0 then perror "custom_cp: Error reading source file" else PRet tt) ;;
              _ ← psys (PClose fd_in);
              _ ← psys (PClose fd_out);
              PRet EXIT_SUCCESS
          end
  | _ => usage (hd [] argv) " <source> <destination>\n" ;; PRet EXIT_FAILURE
  end.

(** ** custom_mv.c *)

Definition custom_mv (argv : list (list Z)) : P Z :=
  match argv with
  | [_; src; dst] =>
      r ← psys (PRename src dst);
      if negb (r =? 0) then perror "custom_mv: Error moving file" ;; PRet EXIT_FAILURE
      else PRet EXIT_SUCCESS
  | _ => usage (hd [] argv) " <source> <destination>\n" ;; PRet EXIT_FAILURE
  end.

(** ** custom_ls.c *)

Definition ls_turn (dir : Z) (_ : unit) : P (unit + unit) :=
  e ← psys (PReaddir dir);
  match e with
  | None => PRet (inr tt)
  | Some d_name =>
      (if negb (chr d_name =? ch ".") then out (cstr d_name ++ lit "  ") else PRet tt) ;;
      PRet (inl tt)
  end.

Definition custom_ls (fuel : nat) (argv : list (list Z)) : P Z :=
  let path := match argv with _ :: p :: _ => p | _ => lit "." end in
  dir ← psys (POpendir path);
  match dir with
  | None => perror "custom_ls: Cannot open directory" ;; PRet 1
  | Some dir =>
      ploop fuel (ls_turn dir) tt ;;
      puts "\n" ;;
      _ ← psys (PClosedir dir);
      PRet 0
  end.

(** ** custom_echo.c *)

Definition print_usage : P unit :=
  puts "Usage: custom_echo [OPTION]... [STRING]...\n" ;;
  puts "Echo the STRING(s) to standard output.\n\n" ;;
  puts "  -n          do not output the trailing newline\n" ;;
  puts "  -e          enable interpretation of backslash escapes\n" ;;
  puts "  -E          disable interpretation of backslash escapes (default)\n" ;;
  puts "  --help      display this help and exit\n" ;;
  puts "  --version   output version information and exit\n\n" ;;
  puts "Supported escape sequences with -e:\n" ;;
  out (lit "  " ++ [92; 92] ++ lit "   backslash\n") ;;
  out (lit "  " ++ [92] ++ lit "n   newline\n") ;;
  out (lit "  " ++ [92] ++ lit "t   horizontal tab\n") ;;
  out (lit "  " ++ [92] ++ lit "r   carriage return\n") ;;
  out (lit "  " ++ [92] ++ lit "a   alert / bell\n") ;;
  out (lit "  " ++ [92] ++ lit "b   backspace\n") ;;
  out (lit "  " ++ [92] ++ lit "0N  octal value (up to 3 digits)\n").

Definition print_version : P unit :=
  puts "custom_echo version 1.0.0\n" ;;
  puts "A simplified UNIX-like echo utility written in C.\n".

(** [for(k = 0; k < 3 && ...; k++)]: up to [k] octal digits at the head of [s] *)
Fixpoint octal (k : nat) (s : list Z) (v : Z) : Z * list Z :=
  match k, s with
  | S k', c :: s' =>
      if (ch "0" <=? c) && (c <=? ch "7") then octal k' s' (v * 8 + (c - ch "0")) else (v, s)
  | _, _ => (v, s)
  end.

(** The character an escape stands for; 92 is the backslash. *)
Definition escape_char (c : Z) : option Z :=
  if c =? 92 then Some 92
  else if c =? ch "n" then Some 10
  else if c =? ch "t" then Some 9
  else if c =? ch "r" then Some 13
  else if c =? ch "a" then Some 7
  else if c =? ch "b" then Some 8
  else None.

(** One turn of [while(i < len)]: [src] from [i] on, and [buf] with [j] characters
    of its [len + 1] written. *)
Definition buf_put (size : Z) (c : Z) (buf : list Z) : option (list Z) :=
  if Z.of_nat (length buf) <? size then Some (buf ++ [u8 c]) else None.

Fixpoint escapes (fuel : nat) (size : Z) (src buf : list Z) : option (list Z) :=
  match fuel, src with
  | _, [] => Some buf
  | O, _ => None
  | S fuel', c :: src' =>
      match src' with
      | e :: src'' =>
          if c =? 92 then
            match escape_char e with
            | Some x => buf ← buf_put size x buf; escapes fuel' size src'' buf
            | None =>
                if e =? ch "0" then
                  let '(v, r) := octal 3 src'' 0 in
                  buf ← buf_put size v buf; escapes fuel' size r buf
                else
                  buf ← buf_put size 92 buf;
                  buf ← buf_put size e buf;
                  escapes fuel' size src'' buf
            end
          else buf ← buf_put size c buf; escapes fuel' size src' buf
      | [] => buf ← buf_put size c buf; escapes fuel' size src' buf
      end
  end.

(** The array of [len + 1] bytes, up to the final NUL *)
Definition process_escapes (src : list Z) : P (list Z) :=
  let len := Z.of_nat (length src) in
  ok ← psys (PAlloc (len + 1));
  if negb ok then perror "custom_echo: malloc" ;; PExit EXIT_FAILURE
  else
    match buf ← escapes (length src) (len + 1) src []; buf_put (len + 1) 0 buf with
    | Some buf => PRet buf
    | None => PFault
    end.

(** The options [no_newline] and [escape_enabled] *)
Definition echo_opts : Type := bool * bool.

(** The loop over the characters of one option: the options and [valid_flag] *)
Fixpoint echo_flags (s : list Z) (o : echo_opts) : echo_opts * bool :=
  match s with
  | [] => (o, true)
  | c :: s' =>
      let '(n, e) := o in
      if c =? ch "n" then echo_flags s' (true, e)
      else if c =? ch "e" then echo_flags s' (n, true)
      else if c =? ch "E" then echo_flags s' (n, false)
      else (o, false)
  end.

Inductive echo_action := EchoHelp | EchoVersion | EchoPrint (o : echo_opts) (strings : list (list Z)).

(** The loop over the arguments that finds [first_string] *)
Fixpoint echo_args (args : list (list Z)) (o : echo_opts) : echo_action :=
  match args with
  | [] => EchoPrint o []
  | a :: l =>
      if streq a (lit "--help") then EchoHelp
      else if streq a (lit "--version") then EchoVersion
      else
        match cstr a with
        | c :: ((_ :: _) as flags) =>
            if c =? ch "-" then
              let '(o, valid) := echo_flags flags o in
              if valid then echo_args l o else EchoPrint o args
            else EchoPrint o args
        | _ => EchoPrint o args
        end
  end.

Fixpoint echo_strings (escape_enabled first : bool) (strings : list (list Z)) : P unit :=
  match strings with
  | [] => PRet tt
  | s :: l =>
      (if first then PRet tt else out [32]) ;;
      (if escape_enabled then
         processed ← process_escapes (cstr s); fputs processed
       else fputs s) ;;
      echo_strings escape_enabled false l
  end.

Definition custom_echo (argv : list (list Z)) : P Z :=
  match echo_args (tl argv) (false, false) with
  | EchoHelp => print_usage ;; PRet EXIT_SUCCESS
  | EchoVersion => print_version ;; PRet EXIT_SUCCESS
  | EchoPrint (no_newline, escape_enabled) strings =>
      echo_strings escape_enabled true strings ;;
      (if negb no_newline then out [10] else PRet tt) ;;
      PRet EXIT_SUCCESS
  end.

(** ** custom_wc.c *)

(** Counts *)
Record Counts := mkCounts { c_lines : Z; c_words : Z; c_chars : Z }.

(** A [long] that counts *)
Definition incl (n : Z) : Z := i64 (n + 1).

Definition count_char (st : Counts * bool) (c : Z) : Counts * bool :=
  let '(k, in_word) := st in
  let k := mkCounts (if c =? 10 then incl (c_lines k) else c_lines k) (c_words k) (incl (c_chars k)) in
  if isspace c then (k, false)
  else if negb in_word then (mkCounts (c_lines k) (incl (c_words k)) (c_chars k), true)
  else (k, in_word).

Definition count_turn (fp : Z) (st : Counts * bool) : P (Counts * bool + Counts) :=
  c ← psys (PFgetc fp);
  if c =? EOF then PRet (inr st.1) else PRet (inl (count_char st c)).

Definition count_stream (fuel : nat) (fp : Z) : P Counts :=
  ploop fuel (count_turn fp) (mkCounts 0 0 0, false).

(** flag_lines, flag_words, flag_chars *)
Definition wc_flags : Type := bool * bool * bool.

Definition print_counts (f : wc_flags) (c : Counts) (label : option (list Z)) : P unit :=
  let '(fl, fw, fc) := f in
  let print_all := negb fl && negb fw && negb fc in
  (if print_all || fl then out (fmt_8ld (c_lines c)) else PRet tt) ;;
  (if print_all || fw then out (fmt_8ld (c_words c)) else PRet tt) ;;
  (if print_all || fc then out (fmt_8ld (c_chars c)) else PRet tt) ;;
  (match label with Some l => out (lit "  " ++ cstr l) | None => PRet tt end) ;;
  out [10].

(** The result 1 of an error, and [total] as it is then *)
Definition process_file (fuel : nat) (f : wc_flags) (filename : list Z) (total : Counts) : P (Z * Counts) :=
  fp ← psys (PFopen filename);
  match fp with
  | None =>
      err (lit "custom_wc: " ++ cstr filename ++ lit ": No such file or directory\n") ;;
      PRet (1, total)
  | Some fp =>
      c ← count_stream fuel fp;
      _ ← psys (PFclose fp);
      print_counts f c (Some filename) ;;
      PRet (0, mkCounts (i64 (c_lines total + c_lines c)) (i64 (c_words total + c_words c))
                 (i64 (c_chars total + c_chars c)))
  end.

(** The options of one argument; [inr] is the invalid one. *)
Fixpoint wc_options (s : list Z) (f : wc_flags) : wc_flags + Z :=
  match s with
  | [] => inl f
  | c :: s' =>
      let '(fl, fw, fc) := f in
      if c =? ch "l" then wc_options s' (true, fw, fc)
      else if c =? ch "w" then wc_options s' (fl, true, fc)
      else if c =? ch "c" then wc_options s' (fl, fw, true)
      else inr c
  end.

(** The flags and the file names *)
Fixpoint wc_args (args : list (list Z)) (f : wc_flags) : wc_flags * list (list Z) + Z :=
  match args with
  | [] => inl (f, [])
  | a :: l =>
      match cstr a with
      | c :: ((_ :: _) as opts) =>
          if c =? ch "-" then
            match wc_options opts f with inl f => wc_args l f | inr c => inr c end
          else inl (f, args)
      | _ => inl (f, args)
      end
  end.

Fixpoint wc_files (fuel : nat) (f : wc_flags) (files : list (list Z)) (errors : Z) (total : Counts) : P (Z * Counts) :=
  match files with
  | [] => PRet (errors, total)
  | x :: l =>
      r ← process_file fuel f x total;
      let '(e, total) := (r : Z * Counts) in
      wc_files fuel f l (errors + e) total
  end.

Definition custom_wc (fuel : nat) (argv : list (list Z)) : P Z :=
  match wc_args (tl argv) (false, false, false) with
  | inr c =>
      err (lit "custom_wc: invalid option -- '" ++ [c] ++ lit "'\n") ;;
      err (lit "Usage: custom_wc [-lwc] [FILE...]\n") ;;
      PRet 1
  | inl (f, []) =>
      c ← count_stream fuel stdin;
      print_counts f c None ;;
      PRet 0
  | inl (f, files) =>
      r ← wc_files fuel f files 0 (mkCounts 0 0 0);
      let '(errors, total) := (r : Z * Counts) in
      (if (1 <? length files)%nat then print_counts f total (Some (lit "total")) else PRet tt) ;;
      PRet (if 0 <? errors then 1 else 0)
  end.

(** ** custom_rm.c *)

Definition MAX_PATH : nat := 1024.

Definition is_directory (path : list Z) : P bool :=
  s ← psys (PStat path);
  PRet (match s with None => false | Some d => d end).

(** [depth] bounds the recursion, [fuel] the entries of one directory. *)
Fixpoint remove_recursive (depth fuel : nat) (path : list Z) : P Z :=
  match depth with
  | O => PNoFuel
  | S depth' =>
      dir ← psys (POpendir path);
      match dir with
      | None => perror "custom_rm: Error opening directory" ;; PRet (-1)
      | Some dir =>
          r ← ploop fuel (fun _ : unit =>
            e ← psys (PReaddir dir);
            match e with
            | None => PRet (inr 0)
            | Some d_name =>
                if streq d_name (lit ".") || streq d_name (lit "..") then PRet (inl tt)
                else
                  let filepath := snprintf MAX_PATH (cstr path ++ lit "/" ++ cstr d_name) in
                  d ← is_directory filepath;
                  if (d : bool) then
                    r ← remove_recursive depth' fuel filepath;
                    if r <? 0 then _ ← psys (PClosedir dir); PRet (inr (-1)) else PRet (inl tt)
                  else
                    r ← psys (PUnlink filepath);
                    if r <? 0 then
                      perror "custom_rm: Error removing file" ;;
                      _ ← psys (PClosedir dir);
                      PRet (inr (-1))
                    else PRet (inl tt)
            end) tt;
          if r <? 0 then PRet (-1)
          else
            _ ← psys (PClosedir dir);
            r ← psys (PRmdir path);
            if r <? 0 then perror "custom_rm: Error removing directory" ;; PRet (-1)
            else PRet 0
      end
  end.

Definition rm_target (depth fuel : nat) (recursive : bool) (target : list Z) : P unit :=
  d ← is_directory target;
  if (d : bool) then
    if negb recursive then
      err (lit "custom_rm: Cannot remove '" ++ cstr target ++ lit "': Is a directory (use -r flag)\n")
    else
      r ← remove_recursive depth fuel target;
      if r <? 0 then err (lit "custom_rm: Failed to remove directory '" ++ cstr target ++ lit "'\n")
      else PRet tt
  else
    r ← psys (PUnlink target);
    if r <? 0 then perror "custom_rm: Error removing file" else PRet tt.

Definition is_r (a : list Z) : bool := streq a (lit "-r").

Definition custom_rm (depth fuel : nat) (argv : list (list Z)) : P Z :=
  let recursive := existsb is_r (tl argv) in
  let targets := List.filter (fun a => negb (is_r a)) (tl argv) in
  match targets with
  | [] => usage (hd [] argv) " [-r] <file|directory> [file|directory ...]\n" ;; PRet EXIT_FAILURE
  | _ =>
      _ ← pfor targets (fun t => rm_target depth fuel recursive t ;; PRet (None : option unit));
      PRet EXIT_SUCCESS
  end.
