(* ===== verification/LinuxGrep.v ===== *)
(** custom_grep and the shell myshell of the Linux command clones.

    regcomp() and regexec() are the C library's regular expressions: [regcomp]
    compiles a pattern, ignoring case or not, and [regexec] tells whether a
    line matches it. *)
From stdpp Require Import base list strings.
From Stdlib Require Import ZArith Lia ZifyBool Ascii.
From S2P Require Import Prelude Memory KPrintf User UPrintf Posix.

Local Open Scope Z_scope.

(** ** custom_grep.c *)

Record GrepOptions := mkGrepOptions {
  ignore_case : bool; line_number : bool; invert_match : bool; count_only : bool; list_files : bool
}.

Definition grep_usage (program_name : list Z) : P unit :=
  err (lit "Usage: " ++ cstr program_name ++ lit " [OPTION]... PATTERN [FILE]...\n") ;;
  err (lit "Search for PATTERN in each FILE or standard input.\n") ;;
  err (lit "\nOptions:\n") ;;
  err (lit "  -i  ignore case distinctions\n") ;;
  err (lit "  -n  print line number with output lines\n") ;;
  err (lit "  -v  select non-matching lines\n") ;;
  err (lit "  -c  print only a count of matching lines\n") ;;
  err (lit "  -l  print only names of FILEs with matches\n").

(** The loop of read_line(): [data] are the [length] characters in the array of
    [capacity] bytes.  The loop ends at a newline or at the end of the file (with
    [true]); [None] says that the array could not grow. *)
Fixpoint read_chars (fuel : nat) (stream : Z) (data : list Z) (capacity : Z) : P (option (list Z * Z * bool)) :=
  match fuel with
  | O => PNoFuel
  | S fuel' =>
      c ← psys (PFgetc stream);
      if c =? EOF then PRet (Some (data, capacity, true))
      else
        let len := Z.of_nat (length data) in
        g ← (if capacity <=? len + 1 then
               let new_capacity := if capacity =? 0 then 128 else capacity * 2 in
               ok ← psys (PAlloc new_capacity);
               PRet (if (ok : bool) then Some new_capacity else None)
             else PRet (Some capacity));
        match (g : option Z) with
        | None => PRet None
        | Some capacity =>
            if negb (len <? capacity) then PFault
            else
              let data := data ++ [u8 c] in
              if c =? 10 then PRet (Some (data, capacity, false))
              else read_chars fuel' stream data capacity
        end
  end.

(** read_line(): the line with its newline, or [None] for the result -1 *)
Definition read_line (fuel : nat) (stream : Z) : P (option (list Z)) :=
  r ← read_chars fuel stream [] 0;
  match (r : option (list Z * Z * bool)) with
  | None => PRet None
  | Some (data, capacity, eof) =>
      let len := Z.of_nat (length data) in
      if eof && (len =? 0) then PRet None
      else
        g ← (if capacity <=? len + 1 then
               ok ← psys (PAlloc (len + 1)); PRet (if (ok : bool) then Some (len + 1) else None)
             else PRet (Some capacity));
        match (g : option Z) with
        | None => PRet None
        | Some capacity => if negb (len <? capacity) then PFault else PRet (Some data)
        end
  end.

Section Grep.
Context {regex : Type} (regcomp : bool -> list Z -> option regex) (regexec : regex -> list Z -> bool).

Definition matches_pattern (r : regex) (line : list Z) : bool := regexec r (cstr line).

(** "%s" of a [char *] that may be NULL: undefined behaviour in that case *)
Definition show_name (filename : option (list Z)) (rest : string) : P unit :=
  match filename with Some f => out (cstr f ++ lit rest) | None => PFault end.

(** A line that was selected *)
Definition print_match (filename : option (list Z)) (o : GrepOptions) (multiple_files : bool)
    (line_no : Z) (data : list Z) : P unit :=
  (if multiple_files then match filename with Some f => out (cstr f ++ lit ":") | None => PRet tt end else PRet tt) ;;
  (if line_number o then out (fmt_ld line_no ++ lit ":") else PRet tt) ;;
  fputs data ;;
  (if negb (List.last data 0 =? 10) then out [10] else PRet tt).

(** One turn of the loop over the lines, on [line_number] and [match_count]; [inr None]
    is the return of "-l". *)
Definition stream_turn (fuel : nat) (stream : Z) (filename : option (list Z)) (r : regex) (o : GrepOptions)
    (multiple_files : bool) (st : Z * Z) : P (Z * Z + option Z) :=
  let '(line_no, match_count) := st in
  l ← read_line fuel stream;
  match (l : option (list Z)) with
  | None => PRet (inr (Some match_count))
  | Some data =>
      let line_no := i64 (line_no + 1) in
      let matched := xorb (matches_pattern r data) (invert_match o) in
      if matched then
        let match_count := i64 (match_count + 1) in
        if list_files o then show_name filename "\n" ;; PRet (inr None)
        else
          (if negb (count_only o) then print_match filename o multiple_files line_no data else PRet tt) ;;
          PRet (inl (line_no, match_count))
      else PRet (inl (line_no, match_count))
  end.

Definition process_stream (fuel : nat) (stream : Z) (filename : option (list Z)) (r : regex) (o : GrepOptions)
    (multiple_files : bool) : P Z :=
  x ← ploop fuel (stream_turn fuel stream filename r o multiple_files) (0, 0);
  match (x : option Z) with
  | None => PRet 0
  | Some match_count =>
      (if count_only o then
         (if multiple_files then match filename with Some f => out (cstr f ++ lit ":") | None => PRet tt end else PRet tt) ;;
         out (fmt_ld match_count ++ [10])
       else PRet tt) ;;
      PRet 0
  end.

(** The options of one argument; [inr] is the invalid one. *)
Fixpoint grep_options (s : list Z) (o : GrepOptions) : GrepOptions + Z :=
  match s with
  | [] => inl o
  | c :: s' =>
      let 'mkGrepOptions i n v k l := o in
      if c =? ch "i" then grep_options s' (mkGrepOptions true n v k l)
      else if c =? ch "n" then grep_options s' (mkGrepOptions i true v k l)
      else if c =? ch "v" then grep_options s' (mkGrepOptions i n true k l)
      else if c =? ch "c" then grep_options s' (mkGrepOptions i n v true l)
      else if c =? ch "l" then grep_options s' (mkGrepOptions i n v k true)
      else inr c
  end.

Inductive grep_cmd :=
| GrepHelp | GrepUnsupported (arg : list Z) | GrepInvalid (c : Z) | GrepNoPattern
| GrepRun (o : GrepOptions) (pattern : list Z) (files : list (list Z)).

Fixpoint grep_args (args : list (list Z)) (o : GrepOptions) : grep_cmd :=
  match args with
  | [] => GrepNoPattern
  | a :: l =>
      if streq a (lit "--help") then GrepHelp
      else
        match cstr a with
        | c :: ((c1 :: _) as opts) =>
            if negb (c =? ch "-") then GrepRun o a l
            else if c1 =? ch "-" then GrepUnsupported a
            else match grep_options opts o with inl o => grep_args l o | inr c => GrepInvalid c end
        | _ => GrepRun o a l
        end
  end.

Fixpoint grep_files (fuel : nat) (r : regex) (o : GrepOptions) (multiple_files : bool) (files : list (list Z)) (status : Z) : P Z :=
  match files with
  | [] => PRet status
  | f :: l =>
      s ← psys (PFopen f);
      match s with
      | None => perror "custom_grep" ;; grep_files fuel r o multiple_files l EXIT_FAILURE
      | Some stream =>
          e ← process_stream fuel stream (Some f) r o multiple_files;
          _ ← psys (PFclose stream);
          grep_files fuel r o multiple_files l (if negb (e =? 0) then EXIT_FAILURE else status)
      end
  end.

Definition custom_grep (fuel : nat) (argv : list (list Z)) : P Z :=
  let prog := hd [] argv in
  match tl argv with
  | [] => grep_usage prog ;; PRet EXIT_FAILURE
  | args =>
      match grep_args args (mkGrepOptions false false false false false) with
      | GrepHelp => grep_usage prog ;; PRet EXIT_SUCCESS
      | GrepUnsupported a =>
          err (lit "custom_grep: unsupported option '" ++ cstr a ++ lit "'\n") ;; PRet EXIT_FAILURE
      | GrepInvalid c =>
          err (lit "custom_grep: invalid option -- '" ++ [c] ++ lit "'\n") ;;
          grep_usage prog ;; PRet EXIT_FAILURE
      | GrepNoPattern => err (lit "custom_grep: missing pattern\n") ;; grep_usage prog ;; PRet EXIT_FAILURE
      | GrepRun o pattern files =>
          match regcomp (ignore_case o) (cstr pattern) with
          | None => err (lit "custom_grep: invalid pattern: " ++ cstr pattern ++ [10]) ;; PRet EXIT_FAILURE
          | Some r =>
              match files with
              | [] =>
                  status ← process_stream fuel stdin None r o false;
                  PRet (if status =? 0 then EXIT_SUCCESS else EXIT_FAILURE)
              | _ => grep_files fuel r o (1 <? length files)%nat files EXIT_SUCCESS
              end
          end
      end
  end.

End Grep.

(** ** shell.c *)

Definition MAX_INPUT : nat := 1024.
Definition MAX_ARGS : nat := 128.

(** [while(token && count < MAX_ARGS - 1)]: [n] tokens are still allowed. *)
Fixpoint parse_tokens (n : nat) (line : list Z) : list (list Z) :=
  match n with
  | O => []
  | S n' => match strtok line with None => [] | Some (t, rest) => t :: parse_tokens n' rest end
  end.

(** parse_input(): the arguments before the final NULL *)
Definition parse_input (line : list Z) : list (list Z) := parse_tokens (MAX_ARGS - 1) line.

(** run_custom_wc() and the seven other functions of the same form, which differ in
    the command's name [name] only. *)
Definition run_custom (name : list Z) (args : list (list Z)) : P unit :=
  let local_path := lit "./" ++ name in
  pid ← psys PFork;
  if pid <? 0 then perror "fork"
  else if pid =? 0 then
    _ ← psys (PExecv local_path (local_path :: tl args));
    e ← psys PStrerror;
    err (lit "myshell: " ++ name ++ lit ": " ++ e ++ [10]) ;;
    PExit EXIT_FAILURE
  else _ ← psys (PWaitpid pid); PRet tt.

Definition commands : list (list Z) :=
  [lit "custom_echo"; lit "custom_wc"; lit "custom_cat"; lit "custom_ls"; lit "custom_grep"; lit "custom_cp";
   lit "custom_mv"; lit "custom_rm"].

(** The [if] ... [else if] chain of main() *)
Fixpoint dispatch (cmds : list (list Z)) (args : list (list Z)) : P unit :=
  match cmds with
  | [] => err (lit "myshell: unknown command '" ++ hd [] args ++ lit "'.\n")
  | c :: cmds' => if streq (hd [] args) c then run_custom c args else dispatch cmds' args
  end.

(** [line[strcspn(line, "\n")] = '\0']: the string that is left *)
Fixpoint cut_newline (line : list Z) : list Z :=
  match line with
  | [] => []
  | c :: l => if (c =? 0) || (c =? 10) then [] else c :: cut_newline l
  end.

(** One line; the end of the input and "exit" leave the loop. *)
Definition myshell_turn (_ : unit) : P (unit + unit) :=
  out (lit "myshell> ") ;;
  l ← fgets MAX_INPUT;
  match (l : option (list Z)) with
  | None => out [10] ;; PRet (inr tt)
  | Some line =>
      let args := parse_input (cut_newline line) in
      match args with
      | [] => PRet (inl tt)
      | a :: _ =>
          if streq a (lit "exit") then puts "Goodbye!\n" ;; PRet (inr tt)
          else dispatch commands args ;; PRet (inl tt)
      end
  end.

Definition myshell (fuel : nat) : P Z :=
  puts "=== Custom OS Shell (type 'exit' to quit) ===\n\n" ;;
  ploop fuel myshell_turn tt ;;
  PRet EXIT_SUCCESS.
