(* ===== verification/LinuxSpec.v ===== *)
(** What the Linux command clones do: custom_cp copies whatever the sizes read() returns,
    and custom_echo decodes its escapes inside its buffer.  custom_grep and the shell are
    in LinuxGrepSpec.v. *)
From stdpp Require Import base gmap list strings sets.
From Stdlib Require Import ZArith Lia ZifyBool Ascii.
From S2P Require Import Prelude Memory KPrintf User UPrintf Posix LinuxCmds LinuxGrep.

Local Open Scope Z_scope.

(** ** Handlers *)

(** The reply of a call that fails *)
Definition pfail {X : Set} (c : pcall X) : X :=
  match c in pcall X return X with
  | POpen _ _ => -1 | PRead _ _ => (-1, []) | PWrite _ _ => -1 | PClose _ => -1 | PRename _ _ => -1
  | PUnlink _ => -1 | PRmdir _ => -1 | PStat _ => None | POpendir _ => None | PReaddir _ => None
  | PClosedir _ => -1 | PFopen _ => None | PFgetc _ => -1 | PFclose _ => -1 | PFork => -1
  | PExecv _ _ => -1 | PWaitpid _ => -1 | PAlloc _ => false | PStrerror => [] | POut _ => tt
  | PErr _ => tt | PPerror _ => tt
  end.

(** ** custom_cp *)

(** A host with named files; [l_fds] has the file and the offset of a descriptor, and
    [l_sizes] decides how much a read() returns. *)
Record lworld := mklworld {
  l_files : gmap (list Z) (list Z); l_fds : gmap Z (list Z * nat); l_next : Z; l_sizes : list nat
}.

Definition file_serve (X : Set) (c : pcall X) (w : lworld) : X * lworld :=
  match c in pcall X return X * lworld with
  | POpen path flags =>
      if negb (Z.land flags L_O_CREAT =? 0) || bool_decide (is_Some (l_files w !! path)) then
        let old := default [] (l_files w !! path) in
        let new := if negb (Z.land flags L_O_TRUNC =? 0) then [] else old in
        (l_next w, mklworld (<[path := new]> (l_files w)) (<[l_next w := (path, 0%nat)]> (l_fds w)) (l_next w + 1) (l_sizes w))
      else (-1, w)
  | PRead fd n =>
      match l_fds w !! fd with
      | Some (path, off) =>
          let rest := drop off (default [] (l_files w !! path)) in
          let k := Nat.min (Nat.max 1 (hd (Z.to_nat n) (l_sizes w))) (Nat.min (Z.to_nat n) (length rest)) in
          ((Z.of_nat k, take k rest),
           mklworld (l_files w) (<[fd := (path, (off + k)%nat)]> (l_fds w)) (l_next w) (tl (l_sizes w)))
      | None => ((-1, []), w)
      end
  | PWrite fd bs =>
      match l_fds w !! fd with
      | Some (path, off) =>
          let d := default [] (l_files w !! path) in
          (Z.of_nat (length bs),
           mklworld (<[path := take off d ++ bs ++ drop (off + length bs) d]> (l_files w))
             (<[fd := (path, (off + length bs)%nat)]> (l_fds w)) (l_next w) (l_sizes w))
      | None => (-1, w)
      end
  | PClose fd => (0, mklworld (l_files w) (delete fd (l_fds w)) (l_next w) (l_sizes w))
  | c => (pfail c, w)
  end.

(** The state of the copy after the bytes [d1] of [d1 ++ d2] *)
Definition copying (w : lworld) (src dst : list Z) (fi fo : Z) (d1 d2 : list Z) (files : gmap (list Z) (list Z)) : Prop :=
  l_fds w !! fi = Some (src, length d1) /\ l_fds w !! fo = Some (dst, length d1) /\ fi <> fo /\
  l_files w = <[dst := d1]> files /\ files !! src = Some (d1 ++ d2) /\ src <> dst.

Lemma cp_loop fuel w src dst fi fo d1 d2 files :
  copying w src dst fi fo d1 d2 files -> (length d2 < fuel)%nat ->
  exists w', prun file_serve (ploop fuel (cp_copy fi fo) tt) w = Done (inl 0) w' /\
    l_files w' = <[dst := d1 ++ d2]> files.
Proof.
  revert w d1 d2; induction fuel as [| fuel IH]; intros w d1 d2 (Hi & Ho & Hne & Hf & Hs & Hsd) Hfu; [lia |].
  rewrite prun_ploop; unfold cp_copy.
  assert (Hrest : drop (length d1) (default [] (l_files w !! src)) = d2).
  { rewrite Hf, lookup_insert_ne, Hs by done; simpl; by rewrite drop_app_length. }
  set (k := Nat.min (Nat.max 1 (hd (Z.to_nat BUFFER_SIZE) (l_sizes w))) (Nat.min (Z.to_nat BUFFER_SIZE) (length d2))).
  set (w1 := mklworld (l_files w) (<[fi := (src, (length d1 + k)%nat)]> (l_fds w)) (l_next w) (tl (l_sizes w))).
  assert (Hread : file_serve _ (PRead fi BUFFER_SIZE) w = ((Z.of_nat k, take k d2), w1)).
  { unfold file_serve; rewrite Hi; cbv zeta; rewrite Hrest; done. }
  rewrite prun_sys, Hread; cbn [fst snd]; cbv beta iota.
  destruct (decide (d2 = [])) as [-> | Hd2].
  - assert (k = 0%nat) as -> by (unfold k; cbn [length]; lia).
    exists w1; split; [done |]; by rewrite app_nil_r.
  - assert (Hk : (0 < k <= length d2)%nat) by (unfold k, BUFFER_SIZE; destruct d2; [done | cbn [length]; lia]).
    rewrite (proj2 (Z.ltb_lt 0 (Z.of_nat k))) by lia.
    assert (Htk : length (take k d2) = k) by (rewrite length_take; lia).
    set (w2 := mklworld (<[dst := d1 ++ take k d2]> files) (<[fo := (dst, (length d1 + k)%nat)]> (l_fds w1)) (l_next w) (tl (l_sizes w))).
    assert (Hwrite : file_serve _ (PWrite fo (take k d2)) w1 = (Z.of_nat k, w2)).
    { unfold file_serve; simpl l_fds; rewrite lookup_insert_ne, Ho by done; cbv zeta; rewrite Htk.
      unfold w2; simpl l_files; rewrite Hf, lookup_insert_eq; simpl default.
      rewrite take_ge, drop_ge, app_nil_r, insert_insert_eq by lia; done. }
    rewrite prun_sys, Hwrite; cbn [fst snd]; rewrite Z.eqb_refl; cbn [negb].
    assert (Hd : d1 ++ d2 = (d1 ++ take k d2) ++ drop k d2) by (by rewrite <- (assoc_L (++)), take_drop).
    destruct (IH w2 (d1 ++ take k d2) (drop k d2)) as (w' & Hrun & Hw').
    + split_and!; [.. | done].
      * simpl; rewrite lookup_insert_ne, lookup_insert_eq, length_app, Htk by done; done.
      * simpl; rewrite lookup_insert_eq, length_app, Htk; done.
      * done.
      * done.
      * by rewrite Hs, Hd.
    + rewrite length_drop; lia.
    + exists w'; split; [done |]; by rewrite Hw', <- Hd.
Qed.

(** Custom_cp copies a file to another name: whatever pieces read() returns, the
    destination has the contents of the source afterwards, no other file
    changes, and the exit status is 0. *)
Theorem cp_spec fuel prog src dst data w :
  l_files w !! src = Some data -> src <> dst -> 0 <= l_next w -> (length data < fuel)%nat ->
  exists w', prun file_serve (custom_cp fuel [prog; src; dst]) w = Done EXIT_SUCCESS w' /\
    l_files w' = <[dst := data]> (l_files w).
Proof.
  intros Hs Hne Hnx Hf; unfold custom_cp.
  set (w1 := mklworld (l_files w) (<[l_next w := (src, 0%nat)]> (l_fds w)) (l_next w + 1) (l_sizes w)).
  assert (H1 : file_serve _ (POpen src L_O_RDONLY) w = (l_next w, w1)).
  { unfold file_serve; rewrite Hs; simpl; unfold w1; by rewrite insert_id. }
  rewrite prun_sys, H1; cbn [fst snd]; rewrite (proj2 (Z.ltb_ge (l_next w) 0)) by lia.
  set (w2 := mklworld (<[dst := []]> (l_files w)) (<[l_next w + 1 := (dst, 0%nat)]> (l_fds w1)) (l_next w + 1 + 1) (l_sizes w)).
  assert (H2 : file_serve _ (POpen dst (Z.lor L_O_WRONLY (Z.lor L_O_CREAT L_O_TRUNC))) w1 = (l_next w + 1, w2)) by done.
  rewrite prun_sys, H2; cbn [fst snd]; rewrite (proj2 (Z.ltb_ge (l_next w + 1) 0)) by lia.
  destruct (cp_loop fuel w2 src dst (l_next w) (l_next w + 1) [] data (l_files w)) as (w3 & Hrun & Hw3); [| done |].
  { split_and!; try done; [| | lia].
    - simpl; rewrite lookup_insert_ne, lookup_insert_eq by lia; done.
    - simpl; by rewrite lookup_insert_eq. }
  rewrite (prun_done _ _ _ _ _ _ Hrun); cbv beta iota; change (0 <? 0) with false; cbv iota.
  eexists; split; [reflexivity |]; simpl; exact Hw3.
Qed.

Definition demo_lworld : lworld :=
  mklworld (<[lit "a" := lit "hello"]> (<[lit "b" := lit "old text"]> ∅)) ∅ 3 [2; 1; 7]%nat.

Lemma cp_spec_witness :
  exists w', prun file_serve (custom_cp 10 [lit "cp"; lit "a"; lit "b"]) demo_lworld = Done EXIT_SUCCESS w' /\
    l_files w' = <[lit "b" := lit "hello"]> (l_files demo_lworld).
Proof.
  apply (cp_spec 10 (lit "cp") (lit "a") (lit "b") (lit "hello") demo_lworld);
    [vm_compute; reflexivity | vm_compute; discriminate | vm_compute; discriminate | vm_compute; lia].
Defined.

(** With the same name twice the file is emptied before it is read. *)
Theorem cp_same_empties fuel prog f data w :
  l_files w !! f = Some data -> 0 <= l_next w -> (0 < fuel)%nat ->
  exists w', prun file_serve (custom_cp fuel [prog; f; f]) w = Done EXIT_SUCCESS w' /\ l_files w' !! f = Some [].
Proof.
  intros Hs Hnx Hf; unfold custom_cp.
  set (w1 := mklworld (l_files w) (<[l_next w := (f, 0%nat)]> (l_fds w)) (l_next w + 1) (l_sizes w)).
  assert (H1 : file_serve _ (POpen f L_O_RDONLY) w = (l_next w, w1)).
  { unfold file_serve; rewrite Hs; simpl; unfold w1; by rewrite insert_id. }
  rewrite prun_sys, H1; cbn [fst snd]; rewrite (proj2 (Z.ltb_ge (l_next w) 0)) by lia.
  set (w2 := mklworld (<[f := []]> (l_files w)) (<[l_next w + 1 := (f, 0%nat)]> (l_fds w1)) (l_next w + 1 + 1) (l_sizes w)).
  assert (H2 : file_serve _ (POpen f (Z.lor L_O_WRONLY (Z.lor L_O_CREAT L_O_TRUNC))) w1 = (l_next w + 1, w2)) by done.
  rewrite prun_sys, H2; cbn [fst snd]; rewrite (proj2 (Z.ltb_ge (l_next w + 1) 0)) by lia.
  destruct fuel as [| fuel]; [lia |].
  assert (Hrun : exists w3, prun file_serve (ploop (S fuel) (cp_copy (l_next w) (l_next w + 1)) tt) w2 = Done (inl 0) w3 /\
    l_files w3 = l_files w2).
  { set (w3 := mklworld (l_files w2) (<[l_next w := (f, 0%nat)]> (l_fds w2)) (l_next w2) (tl (l_sizes w2))).
    assert (Hread : file_serve _ (PRead (l_next w) BUFFER_SIZE) w2 = ((0, []), w3)).
    { unfold file_serve.
      assert (E : l_fds w2 !! l_next w = Some (f, 0%nat)) by (simpl; rewrite lookup_insert_ne, lookup_insert_eq by lia; done).
      rewrite E; simpl l_files; rewrite lookup_insert_eq; cbn [default drop length]; rewrite !Nat.min_0_r; done. }
    exists w3; split; [| done].
    rewrite prun_ploop; unfold cp_copy; rewrite prun_sys, Hread; done. }
  destruct Hrun as (w3 & Hrun & Hw3); rewrite (prun_done _ _ _ _ _ _ Hrun); cbv beta iota; change (0 <? 0) with false; cbv iota.
  eexists; split; [reflexivity |]; simpl; rewrite Hw3; simpl; by rewrite lookup_insert_eq.
Qed.

(** ** custom_echo *)

Lemma octal_spec k s v : exists d, s = d ++ (octal k s v).2 /\ (length d <= k)%nat.
Proof.
  revert s v; induction k as [| k IH]; intros s v; [by exists [] |].
  destruct s as [| c s]; simpl; [exists []; split; [done | simpl; lia] |].
  destruct ((ch "0" <=? c) && (c <=? ch "7")); [| exists []; split; [done | simpl; lia]].
  destruct (IH s (v * 8 + (c - ch "0"))) as (d & Hd & Hl); exists (c :: d); simpl; rewrite <- Hd; split; [done | lia].
Qed.

Lemma buf_put_ok size c buf : Z.of_nat (length buf) < size -> buf_put size c buf = Some (buf ++ [u8 c]).
Proof. intros H; unfold buf_put; by rewrite (proj2 (Z.ltb_lt _ _) H). Qed.

(** Never more characters are written than were read. *)
Lemma escapes_bound fuel size src buf :
  (length src <= fuel)%nat -> Z.of_nat (length buf + length src) < size ->
  exists buf', escapes fuel size src buf = Some buf' /\ (length buf' <= length buf + length src)%nat.
Proof.
  revert src buf; induction fuel as [| fuel IH]; intros src buf Hf Hs;
    (destruct src as [| c src]; [exists buf; split; [done | simpl; lia] |]); simpl in Hf, Hs; [lia |].
  assert (Hgo : forall x src', (length src' <= length src)%nat ->
    exists buf', (buf1 ← buf_put size x buf; escapes fuel size src' buf1) = Some buf' /\
      (length buf' <= length buf + S (length src))%nat).
  { intros x src' Hl; rewrite buf_put_ok by lia; simpl.
    destruct (IH src' (buf ++ [u8 x])) as (b & -> & Hb); rewrite ?length_app in *; simpl in *; [lia | lia |].
    exists b; split; [done | lia]. }
  cbn [escapes]; destruct src as [| e src]; [by apply Hgo |].
  destruct (c =? 92); [| apply Hgo; done].
  destruct (escape_char e); [apply Hgo; simpl; lia |]; destruct (e =? ch "0").
  - destruct (octal_spec 3 src 0) as (d & Hd & _); destruct (octal 3 src 0) as [v r]; simpl in Hd.
    apply Hgo; rewrite Hd; simpl; rewrite length_app; lia.
  - simpl in Hf, Hs; rewrite buf_put_ok by lia; simpl; rewrite buf_put_ok by (rewrite length_app; simpl; lia); simpl.
    destruct (IH src ((buf ++ [u8 92]) ++ [u8 e])) as (b & -> & Hb); rewrite ?length_app in *; simpl in *; [lia | lia |].
    exists b; split; [done | lia].
Qed.

(** A text with its special characters escaped *)
Definition escape (c : Z) : list Z :=
  if c =? 92 then [92; 92] else if c =? 10 then [92; ch "n"] else if c =? 9 then [92; ch "t"]
  else if c =? 13 then [92; ch "r"] else if c =? 7 then [92; ch "a"] else if c =? 8 then [92; ch "b"] else [c].

Lemma escapes_escape c fuel size src buf :
  0 <= c < 256 -> Z.of_nat (length buf) < size ->
  escapes (S fuel) size (escape c ++ src) buf = escapes fuel size src (buf ++ [c]).
Proof.
  intros Hc Hs; unfold escape.
  assert (Hu : u8 c = c) by (by apply u8_small).
  repeat match goal with |- context [if c =? ?n then _ else _] => destruct (Z.eqb_spec c n) as [-> |] end;
    try (cbn [app escapes]; vm_compute (escape_char _); cbn [mbind option_bind Z.eqb Pos.eqb]; rewrite buf_put_ok by done; done).
  cbn [app escapes]; replace (c =? 92) with false by lia; rewrite buf_put_ok by done; cbn [mbind option_bind]; rewrite Hu.
  by destruct src.
Qed.

(** A host for the text commands: one stream of characters to read, the text that has
    been printed, and memory that is never short. *)
Record gworld := mkgworld { g_in : list Z; g_out : list Z }.

Definition text_serve (X : Set) (c : pcall X) (w : gworld) : X * gworld :=
  match c in pcall X return X * gworld with
  | PFgetc _ =>
      match g_in w with
      | [] => (EOF, w)
      | x :: l => (x, mkgworld l (g_out w))
      end
  | PAlloc _ => (true, w)
  | POut bs => (tt, mkgworld (g_in w) (g_out w ++ bs))
  | c => (pfail c, w)
  end.

Definition printed (w : gworld) (bs : list Z) : gworld := mkgworld (g_in w) (g_out w ++ bs).

Lemma gprinted_nil w : printed w [] = w.
Proof. destruct w; unfold printed; simpl; by rewrite app_nil_r. Qed.

Lemma gprinted_app w a b : printed (printed w a) b = printed w (a ++ b).
Proof. unfold printed; simpl; by rewrite (assoc_L (++)). Qed.

Lemma run_out {B} bs (f : unit -> P B) w : prun text_serve (out bs ≫= f) w = prun text_serve (f tt) (printed w bs).
Proof. done. Qed.

(** [m] ends with [r] after printing [bs] *)
Definition prints {A} (m : P A) (r : A) (bs : list Z) : Prop :=
  forall w, prun text_serve m w = Done r (printed w bs).

Lemma prints_ret {A} (a : A) : prints (PRet a) a [].
Proof. intros w; by rewrite gprinted_nil. Qed.

Lemma prints_out bs : prints (out bs) tt bs.
Proof. done. Qed.

Lemma prints_bind {A B} (m : P A) (f : A -> P B) a b x y :
  prints m a x -> prints (f a) b y -> prints (m ≫= f) b (x ++ y).
Proof. intros Hm Hf w; by rewrite (prun_done _ _ _ _ _ _ (Hm w)), Hf, gprinted_app. Qed.

Lemma process_escapes_run src :
  exists buf, escapes (length src) (Z.of_nat (length src) + 1) src [] = Some buf /\
    prints (process_escapes src) (buf ++ [0]) [] /\ (length buf <= length src)%nat.
Proof.
  destruct (escapes_bound (length src) (Z.of_nat (length src) + 1) src []) as (buf & Hb & Hl); simpl in *; [lia | lia |].
  exists buf; split_and!; [done | | lia].
  intros w; unfold process_escapes; rewrite prun_sys; simpl; rewrite Hb; cbn [mbind option_bind].
  rewrite buf_put_ok by lia; rewrite gprinted_nil; done.
Qed.

Lemma echo_strings_run e first l : exists bs, prints (echo_strings e first l) tt bs.
Proof.
  revert first; induction l as [| s l IH]; intros first; [eexists; apply prints_ret |].
  destruct (IH false) as (bs & Hbs), (process_escapes_run (cstr s)) as (buf & _ & Hp & _).
  eexists; cbn [echo_strings]; eapply prints_bind; [| eapply prints_bind; [| exact Hbs]].
  - instantiate (1 := if first then [] else [32]); destruct first; [apply prints_ret | apply prints_out].
  - instantiate (1 := if e then [] ++ cstr (buf ++ [0]) else cstr s); destruct e; [| apply prints_out].
    eapply prints_bind; [exact Hp | apply prints_out].
Qed.

(** C40: custom_echo returns success on every list of arguments: the decoded text of "-e" fits the
    [len + 1] bytes it is given with its final NUL, whatever escapes, complete or
    not, the argument has. *)
Theorem custom_echo_safe argv : exists bs, prints (custom_echo argv) EXIT_SUCCESS bs.
Proof.
  unfold custom_echo; destruct (echo_args (tl argv) (false, false)) as [| | [no_newline e] strings].
  1,2: eexists; eapply prints_bind; [repeat (eapply prints_bind; [apply prints_out |]); apply prints_out | apply prints_ret].
  destruct (echo_strings_run e true strings) as (bs & Hbs).
  eexists; eapply prints_bind; [exact Hbs |]; eapply prints_bind; [| apply prints_ret].
  instantiate (1 := if negb no_newline then [10] else []); destruct no_newline; [apply prints_ret | apply prints_out].
Qed.

Lemma escapes_escaped s fuel size buf :
  Forall (fun c => 0 <= c < 256) s -> (length s <= fuel)%nat -> Z.of_nat (length buf + length s) < size ->
  escapes fuel size (concat (escape <$> s)) buf = Some (buf ++ s).
Proof.
  intros Hs; revert fuel buf; induction Hs as [| c s Hc Hs IH]; intros fuel buf Hf Hsz.
  - rewrite app_nil_r; by destruct fuel.
  - destruct fuel as [| fuel]; [simpl in Hf; lia |]; simpl in Hf, Hsz.
    cbn [fmap list_fmap concat]; rewrite escapes_escape by (done || lia).
    rewrite IH, <- (assoc_L (++)) by (rewrite ?length_app; simpl; lia); done.
Qed.

Lemma escaped_length s : (length s <= length (concat (escape <$> s)))%nat.
Proof.
  induction s as [| c s IH]; [done |]; cbn [fmap list_fmap concat length]; rewrite length_app.
  assert (1 <= length (escape c))%nat by (unfold escape; repeat case_match; simpl; lia); lia.
Qed.

Lemma escaped_no_nul s : Forall (fun c => 0 < c < 256) s -> 0 ∉ concat (escape <$> s).
Proof.
  induction 1 as [| c s Hc Hs IH]; [set_solver |]; cbn [fmap list_fmap concat]; rewrite elem_of_app; intros [H | H]; [| done].
  revert H; rewrite list_elem_of_In; unfold escape; repeat case_match; cbn; intros Hin; destruct_or? Hin; try done; lia.
Qed.

Lemma escape_head c : c <> ch "-" -> exists x l, escape c = x :: l /\ x <> ch "-".
Proof. intros Hc; unfold escape; repeat case_match; do 2 eexists; split; reflexivity || done. Qed.

(** An argument that does not start with a dash is the first string. *)
Lemma echo_args_string a l o : 0 ∉ a -> (exists x a', a = x :: a' /\ x <> ch "-") -> echo_args (a :: l) o = EchoPrint o (a :: l).
Proof.
  intros Hn (x & a' & -> & Hx); cbn [echo_args]; unfold streq; rewrite (cstr_take_no_nul _ Hn).
  rewrite !bool_decide_false by (vm_compute (cstr (lit _)); intros [= ?]; done).
  destruct a' as [| y a']; [done |]; by rewrite (proj2 (Z.eqb_neq x (ch "-")) Hx).
Qed.

(** [custom_echo -e] undoes the escapes it documents: a text whose backslashes, newlines, tabs,
    returns, bells and backspaces are written as escapes is printed as it was,
    with a newline. *)
Theorem echo_escapes prog s :
  Forall (fun c => 0 < c < 256) s -> hd 0 s <> ch "-" ->
  prints (custom_echo [prog; lit "-e"; concat (escape <$> s)]) EXIT_SUCCESS (s ++ [10]).
Proof.
  intros Hs Hd; unfold custom_echo; cbn [tl].
  assert (Ha : echo_args [lit "-e"; concat (escape <$> s)] (false, false) = EchoPrint (false, true) [concat (escape <$> s)]).
  { change (echo_args [lit "-e"; concat (escape <$> s)] (false, false)) with (echo_args [concat (escape <$> s)] (false, true)).
    destruct s as [| c s]; [done |]; apply echo_args_string; [by apply escaped_no_nul |].
    destruct (escape_head c Hd) as (x & l & He & Hx); cbn [fmap list_fmap concat]; rewrite He; eauto. }
  rewrite Ha; cbn [echo_strings negb].
  rewrite (cstr_take_no_nul _ (escaped_no_nul _ Hs)).
  destruct (process_escapes_run (concat (escape <$> s))) as (buf & Hb & Hp & _).
  rewrite escapes_escaped in Hb; cycle 1.
  { eapply Forall_impl; [exact Hs |]; simpl; lia. }
  { apply escaped_length. }
  { pose proof (escaped_length s); simpl; lia. }
  injection Hb as <-.
  assert (Hc : cstr (s ++ [0]) = s).
  { apply cstr_app_nul; intros H0; rewrite Forall_forall in Hs; specialize (Hs 0 H0); lia. }
  replace (s ++ [10]) with (([] ++ (([] ++ s) ++ [])) ++ ([10] ++ [])) by (by rewrite !app_nil_r).
  eapply prints_bind; [| eapply prints_bind; [apply prints_out | apply prints_ret]].
  eapply prints_bind; [apply prints_ret |]; eapply prints_bind; [| apply prints_ret].
  eapply prints_bind; [exact Hp |]; rewrite <- Hc at 2; apply prints_out.
Qed.

Lemma echo_escapes_witness :
  prints (custom_echo [lit "echo"; lit "-e"; [92; 92; 97; 92; 110; 98]]) EXIT_SUCCESS [92; 97; 10; 98; 10].
Proof.
  assert (H1 : Forall (fun c => 0 < c < 256) [92; 97; 10; 98]) by (repeat constructor; lia).
  assert (H2 : hd 0 [92; 97; 10; 98] <> ch "-") by (vm_compute; discriminate).
  exact (echo_escapes (lit "echo") [92; 97; 10; 98] H1 H2).
Defined.
