(* ===== verification/LinuxGrepSpec.v ===== *)
(** What custom_grep prints and how the shell reads a line: the lines of a stream are
    read whole whatever their length, the selected ones are those of a filter over
    the numbered lines, and the shell's arguments are the words of its line. *)
From stdpp Require Import base gmap list strings.
From Stdlib Require Import ZArith Lia ZifyBool Ascii.
From S2P Require Import Prelude Memory KPrintf User UPrintf Posix LinuxCmds LinuxGrep LinuxSpec.

Local Open Scope Z_scope.

(** ** Lines *)

(** The lines of a text, each with the newline that ends it *)
Fixpoint lines (s : list Z) : list (list Z) :=
  match s with
  | [] => []
  | c :: s' =>
      if c =? 10 then [c] :: lines s'
      else match lines s' with [] => [[c]] | l :: ls => (c :: l) :: ls end
  end.

(** No character is lost. *)
Lemma concat_lines s : concat (lines s) = s.
Proof.
  induction s as [| c s IH]; [done |]; cbn [lines].
  destruct (c =? 10); [simpl; by rewrite IH |]; destruct (lines s) as [| l ls]; simpl in *; by rewrite <- IH.
Qed.

(** The first line and what comes after it *)
Fixpoint first_line (s : list Z) : list Z * list Z :=
  match s with
  | [] => ([], [])
  | c :: s' => if c =? 10 then ([c], s') else (c :: (first_line s').1, (first_line s').2)
  end.

Lemma first_line_app s : (first_line s).1 ++ (first_line s).2 = s.
Proof. induction s as [| c s IH]; [done |]; cbn [first_line]; destruct (c =? 10); [done |]; simpl; by rewrite IH. Qed.

Lemma lines_first s : s <> [] -> lines s = (first_line s).1 :: lines (first_line s).2.
Proof.
  induction s as [| c s IH]; [done |]; intros _; cbn [lines first_line]; destruct (c =? 10); [done |]; cbn [fst snd].
  destruct s as [| d s]; [done |]; by rewrite IH.
Qed.

Lemma first_line_nonempty s : s <> [] -> (first_line s).1 <> [].
Proof. destruct s as [| c s]; [done |]; intros _; cbn [first_line]; by destruct (c =? 10). Qed.

Lemma first_line_shorter s : s <> [] -> (length (first_line s).2 < length s)%nat.
Proof.
  intros Hs; pose proof (first_line_nonempty s Hs); rewrite <- (first_line_app s) at 2; rewrite length_app.
  destruct (first_line s).1; [done | simpl; lia].
Qed.

(** ** read_line *)

Definition byte_text (s : list Z) : Prop := Forall (fun c => 0 <= c < 256) s.

(** The array of read_line() has room for the characters and a NUL, or is still empty. *)
Definition roomy (data : list Z) (capacity : Z) : Prop :=
  Z.of_nat (length data) + 1 <= capacity \/ data = [] /\ capacity = 0.

Lemma roomy_grow (data : list Z) capacity c :
  roomy data capacity ->
  roomy (data ++ [c]) (if capacity <=? Z.of_nat (length data) + 1 then if capacity =? 0 then 128 else capacity * 2 else capacity).
Proof. unfold roomy; rewrite length_app; cbn [length]; intros [H | [-> ->]]; [repeat case_match; lia | simpl; lia]. Qed.

Lemma read_chars_run fuel stream s data capacity bs :
  byte_text s -> roomy data capacity -> (length s < fuel)%nat ->
  exists capacity' eof,
    prun text_serve (read_chars fuel stream data capacity) (mkgworld s bs) =
      Done (Some (data ++ (first_line s).1, capacity', eof)) (mkgworld (first_line s).2 bs) /\
    roomy (data ++ (first_line s).1) capacity'.
Proof.
  intros Hb; revert fuel data capacity; induction Hb as [| c s Hc Hb IH]; intros fuel data capacity Hr Hf;
    (destruct fuel as [| fuel]; [simpl in Hf; lia |]); cbn [read_chars]; rewrite prun_sys; cbn [text_serve g_in g_out fst snd].
  - change (EOF =? EOF) with true; cbv iota; cbn [first_line fst snd]; rewrite app_nil_r; by do 2 eexists.
  - replace (c =? EOF) with false by (unfold EOF; lia); cbv zeta.
    pose proof (roomy_grow data capacity c Hr) as Hg.
    set (cap := if capacity <=? _ then _ else _) in Hg.
    assert (Hrun : forall w, prun text_serve
      (if capacity <=? Z.of_nat (length data) + 1
       then ok ← psys (PAlloc (if capacity =? 0 then 128 else capacity * 2));
            PRet (if (ok : bool) then Some (if capacity =? 0 then 128 else capacity * 2) else None)
       else PRet (Some capacity)) w = Done (Some cap) w).
    { intros w; unfold cap; by destruct (capacity <=? _). }
    rewrite (prun_done _ _ _ _ _ _ (Hrun _)); cbv beta iota.
    assert (Hroom : Z.of_nat (length data) < cap).
    { destruct Hg as [Hg | [Hg _]]; [rewrite length_app in Hg; simpl in Hg; lia | by destruct data]. }
    rewrite (proj2 (Z.ltb_lt _ _) Hroom); cbn [negb]; rewrite u8_small by lia; cbn [first_line].
    destruct (c =? 10); [by do 2 eexists |]; cbn [fst snd].
    destruct (IH fuel (data ++ [c]) cap Hg) as (cap' & eof & Hrd & Hr'); [simpl in Hf; lia |].
    exists cap', eof; rewrite <- (assoc_L (++)) in Hrd, Hr'; done.
Qed.

(** A line of any length is read whole, and none at the end. *)
Lemma read_line_run fuel stream s bs :
  byte_text s -> (length s < fuel)%nat ->
  prun text_serve (read_line fuel stream) (mkgworld s bs) =
  if decide (s = []) then Done None (mkgworld [] bs) else Done (Some (first_line s).1) (mkgworld (first_line s).2 bs).
Proof.
  intros Hb Hf; unfold read_line.
  destruct (decide (s = [])) as [-> | Hne]; [destruct fuel; [simpl in Hf; lia | done] |].
  destruct (read_chars_run fuel stream s [] 0 bs Hb ltac:(by right) Hf) as (cap & eof & Hrd & Hr).
  rewrite (prun_done _ _ _ _ _ _ Hrd); cbv beta iota zeta; rewrite app_nil_l in *.
  pose proof (first_line_nonempty s Hne) as Hl.
  replace (Z.of_nat (length (first_line s).1) =? 0) with false by (destruct (first_line s).1; [done | simpl; lia]).
  rewrite andb_false_r; destruct Hr as [Hr | [? _]]; [| done].
  set (len := Z.of_nat (length (first_line s).1)) in *.
  assert (Hg : exists cap', len < cap' /\ forall w, prun text_serve
    (if cap <=? len + 1 then ok ← psys (PAlloc (len + 1)); PRet (if (ok : bool) then Some (len + 1) else None)
     else PRet (Some cap)) w = Done (Some cap') w).
  { destruct (Z.leb_spec cap (len + 1)); [exists (len + 1) | exists cap]; (split; [lia | done]). }
  destruct Hg as (cap' & Hlt & Hg); rewrite (prun_done _ _ _ _ _ _ (Hg _)).
  by rewrite (proj2 (Z.ltb_lt _ _) Hlt).
Qed.

(** ** process_stream *)

Section Stream.
Context {regex : Type} (regexec : regex -> list Z -> bool) (r : regex) (o : GrepOptions).
Context (filename : option (list Z)) (multiple_files : bool).

(** The lines with their numbers, from [n] on *)
Fixpoint number (n : Z) (ls : list (list Z)) : list (Z * list Z) :=
  match ls with [] => [] | l :: ls' => (n, l) :: number (n + 1) ls' end.

Definition selected (nl : Z * list Z) : Prop := regexec r (cstr nl.2) <> invert_match o.

#[global] Instance selected_dec nl : Decision (selected nl).
Proof. unfold selected; apply _. Defined.

Definition prefix : list Z :=
  if multiple_files then match filename with Some f => cstr f ++ lit ":" | None => [] end else [].

(** How a selected line is shown *)
Definition shown (nl : Z * list Z) : list Z :=
  prefix ++ (if line_number o then fmt_ld nl.1 ++ lit ":" else []) ++ cstr nl.2 ++
  (if List.last nl.2 0 =? 10 then [] else [10]).

(** What custom_grep prints for a text *)
Definition grep_output (text : list Z) : list Z :=
  let sel := filter selected (number 1 (lines text)) in
  if list_files o && negb (bool_decide (sel = [])) then default [] (cstr <$> filename) ++ [10]
  else if count_only o then prefix ++ fmt_ld (Z.of_nat (length sel)) ++ [10]
  else concat (shown <$> sel).

Lemma prefix_prints (B : Type) (k : unit -> P B) (b : B) bs :
  prints (k tt) b bs ->
  prints ((if multiple_files then match filename with Some f => out (cstr f ++ lit ":") | None => PRet tt end else PRet tt) ≫= k)
    b (prefix ++ bs).
Proof.
  intros Hk; unfold prefix; eapply prints_bind; [| exact Hk].
  destruct multiple_files; [destruct filename |]; apply prints_out || apply prints_ret.
Qed.

Lemma print_match_prints n l : prints (print_match filename o multiple_files n l) tt (shown (n, l)).
Proof.
  unfold print_match, shown; apply prefix_prints; cbn [fst snd].
  apply (prints_bind _ _ tt); [destruct (line_number o); [apply prints_out | apply prints_ret] |].
  apply (prints_bind _ _ tt); [apply prints_out |]; destruct (_ =? 10); [apply prints_ret | apply prints_out].
Qed.

Lemma i64_id n : 0 <= n < 2 ^ 63 -> i64 n = n.
Proof. intros Hn; unfold i64; rewrite Z.mod_small; lia. Qed.

Lemma matched_selected n l : xorb (matches_pattern regexec r l) (invert_match o) = bool_decide (selected (n, l)).
Proof.
  case_bool_decide as Hs; unfold selected in Hs; cbn [snd] in Hs; unfold matches_pattern;
    destruct (regexec r (cstr l)), (invert_match o); done || (exfalso; by apply Hs).
Qed.

(** The loop over the lines that are left, after [n] lines with [k] selected ones *)
Lemma stream_loop F fuel stream text n k bs :
  (list_files o = true -> is_Some filename) -> byte_text text -> (length text < fuel <= F)%nat ->
  0 <= k <= n -> n + Z.of_nat (length text) < 2 ^ 63 ->
  let sel := filter selected (number (n + 1) (lines text)) in
  exists w', prun text_serve (ploop fuel (stream_turn regexec F stream filename r o multiple_files) (n, k)) (mkgworld text bs) =
      Done (if list_files o && negb (bool_decide (sel = [])) then None else Some (k + Z.of_nat (length sel))) w' /\
    g_out w' = bs ++ (if list_files o && negb (bool_decide (sel = [])) then default [] (cstr <$> filename) ++ [10]
                      else if count_only o then [] else concat (shown <$> sel)).
Proof.
  remember (stream_turn regexec F stream filename r o multiple_files) as body eqn:Ebody.
  intros Hl; revert text n k bs; induction fuel as [| fuel IH]; intros text n k bs Hb Hf Hk Hn sel; [lia |].
  rewrite prun_ploop; replace (body (n, k)) with (stream_turn regexec F stream filename r o multiple_files (n, k)) by (by rewrite Ebody).
  unfold stream_turn; rewrite prun_bind, read_line_run by (done || lia).
  destruct (decide (text = [])) as [-> | Hne].
  - unfold sel; cbn; rewrite andb_false_r; eexists; split; [do 2 f_equal; lia |].
    by destruct (count_only o); rewrite app_nil_r.
  - assert (Hsh := first_line_shorter text Hne).
    assert (Hb' : byte_text (first_line text).2).
    { unfold byte_text in *; rewrite <- (first_line_app text), Forall_app in Hb; apply Hb. }
    unfold sel; rewrite (lines_first text Hne); cbn [number]; rewrite filter_cons.
    set (l := (first_line text).1); set (rest := (first_line text).2) in *.
    cbv zeta; rewrite (matched_selected (n + 1)), !i64_id by lia.
    destruct (decide (selected (n + 1, l))) as [Hs | Hs]; [rewrite bool_decide_true by done | rewrite bool_decide_false by done].
    + destruct (list_files o) eqn:El; cbn [andb negb].
      * destruct Hl as [f ->]; [done |]; rewrite (bool_decide_false (_ :: _ = [])) by done.
        eexists; split; [reflexivity |]; done.
      * set (bs1 := if count_only o then [] else shown (n + 1, l)).
        assert (Hp : prints (if negb (count_only o) then print_match filename o multiple_files (n + 1) l else PRet tt) tt bs1)
          by (unfold bs1; destruct (count_only o); [apply prints_ret | apply print_match_prints]).
        rewrite (prun_done _ _ _ _ _ _ (Hp _)); cbv beta iota.
        destruct (IH rest (n + 1) (k + 1) (bs ++ bs1) Hb') as (w' & Hrun & Hw'); [lia | lia | lia |].
        exists w'; cbn [andb] in Hrun, Hw' |- *; split.
        -- etransitivity; [exact Hrun |]; do 2 f_equal; cbn [length]; lia.
        -- rewrite Hw', <- (assoc_L (++)); f_equal; unfold bs1; by destruct (count_only o).
    + destruct (IH rest (n + 1) k bs Hb') as (w' & Hrun & Hw'); [lia | lia | lia |].
      exists w'; split; [exact Hrun | exact Hw'].
Qed.

(** C31: custom_grep prints for a stream what its options ask for: the lines whose match differs from -v,
    numbered with -n, with the file's name in front when there are several
    files and with a newline at the end, or their number with -c, or the name
    alone with -l; lines are read whole whatever their length. *)
Theorem process_stream_spec fuel stream text bs :
  (list_files o = true -> is_Some filename) -> byte_text text -> (length text < fuel)%nat ->
  Z.of_nat (length text) < 2 ^ 63 ->
  exists w', prun text_serve (process_stream regexec fuel stream filename r o multiple_files) (mkgworld text bs) = Done 0 w' /\
    g_out w' = bs ++ grep_output text.
Proof.
  intros Hl Hb Hf Hn; unfold process_stream, grep_output.
  destruct (stream_loop fuel fuel stream text 0 0 bs) as (w1 & Hrun & Hw1); [done | done | lia | lia | lia |].
  cbv zeta; rewrite (prun_done _ _ _ _ _ _ Hrun); clear Hrun; revert Hw1.
  change (0 + 1) with 1; set (sel := filter selected (number 1 (lines text))).
  destruct (list_files o && negb (bool_decide (sel = []))); cbv iota beta; [by exists w1 |].
  destruct (count_only o); intros Hw1.
  - assert (Hp : prints ((if multiple_files then match filename with Some f => out (cstr f ++ lit ":") | None => PRet tt end else PRet tt) ;;
        out (fmt_ld (Z.of_nat (length sel)) ++ [10])) tt (prefix ++ fmt_ld (Z.of_nat (length sel)) ++ [10]))
      by (apply prefix_prints, prints_out).
    rewrite (prun_done _ _ _ _ _ _ (Hp w1)); eexists; split; [done |]; simpl; rewrite Hw1; by rewrite app_nil_r.
  - exists w1; done.
Qed.

End Stream.

(** A pattern of one character, for concrete runs *)
Definition has_char (c : Z) (line : list Z) : bool := existsb (Z.eqb c) line.

Lemma process_stream_spec_witness :
  exists w', prun text_serve (process_stream has_char 20 5 (Some (lit "f")) 97 (mkGrepOptions false true true false false) true)
      (mkgworld (lit "ab\nb\n\nxa\nc") []) = Done 0 w' /\
    g_out w' = lit "f:2:b\nf:3:\nf:5:c\n".
Proof.
  assert (H1 : false = true -> is_Some (Some (lit "f"))) by done.
  assert (H2 : byte_text (lit "ab\nb\n\nxa\nc")) by (unfold byte_text; vm_compute (lit _); repeat constructor; lia).
  assert (H3 : (length (lit "ab\nb\n\nxa\nc") < 20)%nat) by (vm_compute; lia).
  assert (H4 : Z.of_nat (length (lit "ab\nb\n\nxa\nc")) < 2 ^ 63) by reflexivity.
  exact (process_stream_spec has_char 97 (mkGrepOptions false true true false false) (Some (lit "f")) true 20 5
           (lit "ab\nb\n\nxa\nc") [] H1 H2 H3 H4).
Defined.

(** With -l on the standard input the name is a null pointer. *)
Theorem grep_list_stdin {regex} (regexec : regex -> list Z -> bool) r text bs fuel :
  text <> [] -> byte_text text -> (length text < S fuel)%nat -> regexec r (cstr (first_line text).1) = true ->
  prun text_serve (process_stream regexec (S fuel) stdin None r (mkGrepOptions false false false false true) false)
    (mkgworld text bs) = Faulted.
Proof.
  intros Hne Hb Hf Hm; unfold process_stream; rewrite prun_bind, prun_ploop; unfold stream_turn at 1.
  rewrite prun_bind, read_line_run, decide_False by done; unfold matches_pattern; rewrite Hm; done.
Qed.

(** ** The shell *)

(** A text cut at every blank and tab *)
Fixpoint cut_blanks (s : list Z) : list (list Z) :=
  match s with
  | [] => [[]]
  | c :: s' =>
      if delim c then [] :: cut_blanks s'
      else match cut_blanks s' with [] => [[c]] | w :: ws => (c :: w) :: ws end
  end.

(** The words of a line *)
Definition words (s : list Z) : list (list Z) := filter (fun w => w <> []) (cut_blanks s).

Lemma words_skip s : words (skip_delims s) = words s.
Proof.
  induction s as [| c s IH]; [done |]; cbn [skip_delims]; destruct (delim c) eqn:E; [| done].
  rewrite IH; unfold words; cbn [cut_blanks]; by rewrite E.
Qed.

Lemma cut_token s : cut_blanks s = (token_end s).1 :: match (token_end s).2 with [] => [] | _ => cut_blanks (token_end s).2 end \/
  (token_end s).2 = [] /\ cut_blanks s = [(token_end s).1; []].
Proof.
  induction s as [| c s IH]; [by left |]; cbn [cut_blanks token_end]; destruct (delim c) eqn:E.
  - cbn [fst snd]; destruct s; [by right | by left].
  - destruct (token_end s) as [t r]; cbn [fst snd] in *; destruct IH as [-> | [-> ->]]; [by left | by right].
Qed.

Lemma strtok_words s :
  match strtok s with
  | None => words s = []
  | Some (t, rest) => words s = t :: words rest
  end.
Proof.
  unfold strtok; rewrite <- (words_skip s); destruct (skip_delims s) as [| c s'] eqn:Es; [done |].
  assert (Hc : delim c = false).
  { clear -Es; induction s as [| x s IH]; [done |]; cbn [skip_delims] in Es; destruct (delim x) eqn:E; [by apply IH | congruence]. }
  destruct (token_end (c :: s')) as [t rest] eqn:Et; unfold words.
  assert (Ht : t <> []) by (cbn [token_end] in Et; rewrite Hc in Et; destruct (token_end s'); congruence).
  pose proof (cut_token (c :: s')) as Hcut; rewrite Et in Hcut; cbn [fst snd] in Hcut.
  destruct Hcut as [-> | [-> ->]]; rewrite filter_cons_True by done; f_equal; by destruct rest.
Qed.

Lemma parse_words line : parse_input line = take (MAX_ARGS - 1) (words line).
Proof.
  unfold parse_input; generalize (MAX_ARGS - 1)%nat as n; intros n; revert line.
  induction n as [| n IH]; intros line; [done |]; cbn [parse_tokens].
  pose proof (strtok_words line) as H; destruct (strtok line) as [[t rest] |]; rewrite H; [| done].
  by rewrite IH.
Qed.

(** The host of the shell: what is typed, what fork() returns, and the programs that were
    started and waited for. *)
Record sworld := mksworld { s_in : list Z; s_fork : Z; s_execs : list (list Z * list (list Z)); s_waits : list Z }.

Definition shell_serve (X : Set) (c : pcall X) (w : sworld) : X * sworld :=
  match c in pcall X return X * sworld with
  | PFgetc _ =>
      match s_in w with
      | [] => (EOF, w)
      | x :: l => (x, mksworld l (s_fork w) (s_execs w) (s_waits w))
      end
  | PFork => (s_fork w, w)
  | PExecv path argv => (-1, mksworld (s_in w) (s_fork w) (s_execs w ++ [(path, argv)]) (s_waits w))
  | PWaitpid pid => (pid, mksworld (s_in w) (s_fork w) (s_execs w) (s_waits w ++ [pid]))
  | c => (pfail c, w)
  end.

Lemma fgets_line n line acc rest w :
  10 ∉ line -> EOF ∉ line -> (length line < n)%nat -> s_in w = line ++ 10 :: rest ->
  prun shell_serve (fgets_loop n acc) w =
    Done (Some (acc ++ line ++ [10])) (mksworld rest (s_fork w) (s_execs w) (s_waits w)).
Proof.
  revert n acc w; induction line as [| c line IH]; intros n acc w Hn He Hl Hw;
    (destruct n as [| n]; [simpl in Hl; lia |]); cbn [fgets_loop]; rewrite prun_sys; cbn [shell_serve]; rewrite Hw; [done |].
  rewrite not_elem_of_cons in Hn, He; cbn [app fst snd].
  replace (c =? EOF) with false by lia; replace (c =? 10) with false by lia.
  rewrite (IH n (acc ++ [c])) by (try done; simpl in Hl; lia || tauto).
  by rewrite <- (assoc_L (++)).
Qed.

Lemma cut_newline_line line : 10 ∉ line -> 0 ∉ line -> cut_newline (line ++ [10]) = line.
Proof.
  induction line as [| c line IH]; [done |]; rewrite !not_elem_of_cons; intros [H1 H2] [H3 H4]; cbn [app cut_newline].
  replace ((c =? 0) || (c =? 10)) with false by lia; by rewrite IH.
Qed.

(** The [if] chain starts the command of that name. *)
Lemma dispatch_finds cmds c args :
  c ∈ cmds -> 0 ∉ c -> Forall (fun c => 0 ∉ c) cmds -> hd [] args = c -> dispatch cmds args = run_custom c args.
Proof.
  intros Hc H0 Hn Ha; induction Hn as [| d cmds Hd Hn IH]; [set_solver |]; cbn [dispatch]; rewrite Ha; unfold streq.
  rewrite !cstr_take_no_nul by done; case_bool_decide as E; [by subst |].
  apply IH; rewrite elem_of_cons in Hc; destruct Hc; [done | done].
Qed.

Lemma commands_no_nul : Forall (fun c => 0 ∉ c) commands.
Proof. apply (bool_decide_unpack _); vm_compute; done. Qed.

Lemma commands_not_exit c : c ∈ commands -> streq c (lit "exit") = false.
Proof. revert c; apply Forall_forall, (bool_decide_unpack _); vm_compute; done. Qed.

(** What a turn of the shell does with a line whose first word is a command *)
Lemma turn_dispatches line rest cmd args w :
  10 ∉ line -> EOF ∉ line -> 0 ∉ line -> (length line < MAX_INPUT - 1)%nat -> s_in w = line ++ 10 :: rest ->
  words line = cmd :: args -> cmd ∈ commands ->
  prun shell_serve (myshell_turn tt) w =
  prun shell_serve (run_custom cmd (cmd :: take (MAX_ARGS - 2) args) ;; PRet (inl tt))
    (mksworld rest (s_fork w) (s_execs w) (s_waits w)).
Proof.
  intros Hn He H0 Hl Hw Hwords Hc; unfold myshell_turn, out, fgets; rewrite prun_sys; cbn [shell_serve pfail fst snd].
  rewrite (prun_done _ _ _ _ _ _ (fgets_line _ line [] rest w Hn He Hl Hw)); cbv beta iota zeta.
  rewrite app_nil_l, cut_newline_line, parse_words, Hwords by done.
  change (MAX_ARGS - 1)%nat with (S (MAX_ARGS - 2)); rewrite firstn_cons.
  rewrite commands_not_exit by done.
  rewrite (dispatch_finds commands cmd); [done | done | | apply commands_no_nul | done].
  exact (proj1 (Forall_forall _ _) commands_no_nul cmd Hc).
Qed.

(** The shell runs a command: a line whose first word, cut at blanks and tabs, is one of the eight
    names starts "./name" with the other words of the line as arguments (the
    first 126) in the child, which exits with an error should that fail, while
    the parent waits for that child and takes the next line. *)
Theorem shell_runs line rest cmd args w :
  10 ∉ line -> EOF ∉ line -> 0 ∉ line -> (length line < MAX_INPUT - 1)%nat -> s_in w = line ++ 10 :: rest ->
  words line = cmd :: args -> cmd ∈ commands -> 0 <= s_fork w ->
  prun shell_serve (myshell_turn tt) w =
  let path := lit "./" ++ cmd in
  if s_fork w =? 0
  then Exited EXIT_FAILURE (mksworld rest 0 (s_execs w ++ [(path, path :: take (MAX_ARGS - 2) args)]) (s_waits w))
  else Done (inl tt) (mksworld rest (s_fork w) (s_execs w) (s_waits w ++ [s_fork w])).
Proof.
  intros Hn He H0 Hl Hw Hwords Hc Hf.
  rewrite (turn_dispatches line rest cmd args) by done; unfold run_custom; cbv zeta.
  rewrite prun_bind, prun_sys; cbn [shell_serve s_fork fst snd]; replace (s_fork w <? 0) with false by lia.
  destruct (Z.eqb_spec (s_fork w) 0) as [-> |]; done.
Qed.

Lemma shell_runs_witness :
  prun shell_serve (myshell_turn tt) (mksworld (lit "custom_cp  a	b
") 0 [] []) =
  Exited EXIT_FAILURE (mksworld [] 0 [(lit "./custom_cp", [lit "./custom_cp"; lit "a"; lit "b"])] []).
Proof.
  set (line := lit "custom_cp  a" ++ [9] ++ lit "b").
  assert (H1 : 10 ∉ line) by (apply (bool_decide_unpack _); vm_compute; exact I).
  assert (H2 : EOF ∉ line) by (apply (bool_decide_unpack _); vm_compute; exact I).
  assert (H3 : 0 ∉ line) by (apply (bool_decide_unpack _); vm_compute; exact I).
  assert (H4 : (length line < MAX_INPUT - 1)%nat) by (vm_compute (length line); unfold MAX_INPUT; lia).
  assert (H5 : words line = lit "custom_cp" :: [lit "a"; lit "b"]) by (vm_compute; reflexivity).
  assert (H6 : lit "custom_cp" ∈ commands) by (apply (bool_decide_unpack _); vm_compute; exact I).
  exact (shell_runs line [] (lit "custom_cp") [lit "a"; lit "b"] (mksworld (line ++ [10]) 0 [] []) H1 H2 H3 H4 eq_refl H5 H6 (Z.le_refl 0)).
Defined.
